(* ===== verification/_CoqProject ===== *)
-Q . S2P
Prelude.v
GoStd.v
Effects.v
Uuid.v
Httpx.v
Keyset.v
Json.v
Protocol.v
Ratelimit.v
HashGate.v
AuthLimiter.v
AuthText.v
AuthPassword.v
AuthStore.v
AuthFlow.v
AuthHandlers.v
AuthAuthority.v
AuthInv.v
AuthWorld.v
AuthFunc.v
AuthScenes.v
QuoteStore.v
QuoteProps.v
QuoteHandlers.v
ModStore.v
ProfileStore.v
ModHandlers.v
ModWorld.v
ModInv.v
QuoteLife.v
ModAuthority.v
ModBans.v
ModReports.v
ModScenes.v
WsState.v
WsRoom.v
WsMatch.v
WsLobby.v
WsSession.v
WsCore.v
WsInv.v
WsOps.v
WsCalm.v
WsMember.v
WsStep.v
WsPath.v
WsProps.v
WsFunc.v
WsLobbyProps.v
Bucket.v
Runs.v
Policy.v
Core.v
DisplayNames.v
Registry.v
Decide.v
Worker.v
RunStore.v
RunLife.v
RunProps.v
RunBatches.v
Board.v
BoardProps.v
BoardGaps.v
BoardRead.v
BoardPages.v
Keyboard.v
KeyboardProps.v
RunRead.v
RunReadProps.v
ProfileRead.v
ProfileHandlers.v
ProfileAuthority.v
ProfileWorld.v
ProfileStreaks.v
ProfileSearch.v
ProfilePatch.v
ProfileScenes.v
