(* ===== verification/Prelude.v ===== *)
(** * TypeMore server: a verification library

    The Go server of TypeMore (a typing game): accounts, duels over WebSockets, runs
    submitted for replay, the judge that replays them, the leaderboards they rank on, the
    quotes they are typed from, the players' profiles and the moderation of it all.  Each
    file models the code it names, under [src/], definition by definition and in the
    source's names; the theorems are about those definitions.

    ** The program and how its parts interact

    - _Accounts_ (internal/auth).  Five tables, a cookie session whose token is stored
      hashed, mailed one-time tokens, sign-in with a provider, an argon2id gate that bounds
      how many hashes run at once, and token-bucket rate limits per client.
    - _Duels_ (internal/ws, internal/protocol).  Rooms of up to five seats, a match per
      room, an event relay with a reconnect backlog.  Everything lives in memory behind two
      kinds of locks; timers and connections are goroutines.
    - _Runs_ (internal/runs).  A finished test is submitted with its event log; ingestion
      checks its structure and stores it as pending.
    - _The judge_ (internal/replay, internal/replay/policy, internal/keyboard).  A worker
      claims pending runs, replays the log through the vendored JavaScript game core,
      decides, and in one transaction writes the verdict, the board's slots and the
      keyboard profile.
    - _Leaderboards_ (internal/leaderboard).  One slot per board and player, kept equal to
      the player's best eligible run; keyset pages over it.
    - _Quotes_ (internal/quote).  Content-addressed texts imported from vendored files.
    - _Profiles_ (internal/profile, internal/badges).  Statistics over runs, a page the
      owner may close, links, a showcase of badges, player search.
    - _Moderation_ (internal/moderation).  Bans, reports, badge grants; what reads as
      banned disappears from boards, searches and public replays.

    They meet in the database, which the handlers of different requests read and write
    one statement or one transaction at a time; so the models interleave requests an
    effect at a time, and say where a handler relies on nobody coming in between.

    ** How a program is modelled

    - _Handlers_ that talk to the database, the clock, random numbers, the mailer or a
      limiter are programs over effects (Effects): a tree of effects and continuations.
      One definition has three readings: [run] from start to end against an interpreter;
      [paths], everything that holds whatever the environment answers; [pool_step], one of
      many programs in progress over a shared world, with statements that fail, statements
      whose answer is lost, and requests cut off anywhere.
    - _Statements_ are functions on tables: records and finite maps with the constraints,
      checks and unique indexes of db/migrations; an insert or update that would violate
      one answers the SQL error the adapter sees.  [RunStore] and [RunLife] make the
      snapshot and the row locks of FOR UPDATE SKIP LOCKED explicit.
    - _Goroutines over locks_ (WsStep, HashGate) are step relations: one critical section,
      or one atomic access, is one step, and any goroutine may take the next.
    - _Integers_ are [Z] with their width written where it matters (GoStd.Int, the packed
      sort key of Board); float64 is IEEE binary64 by the Standard Library's [spec_float],
      rounded after every operation (GoStd.F64).
    - _Text_ is a byte string; UTF-8 is decoded as [unicode/utf8] does, invalid bytes
      included.  JSON starts from the parsed value (Json); which keys
      [encoding/json] matches, duplicates and nulls included, is modelled.

    ** Files

    _Shared_: Prelude (notations, tactics, hints, lemmas on lists and maps), GoStd (Go's
    integers, strings, strconv, unicode/utf8, float64, SHA-256, time.ParseDuration, RFC
    3339), Effects (programs and their readings), Uuid (github.com/google/uuid),
    Httpx (internal/platform/httpx), Keyset (pages of a listing in a strict total
    order, used by boards, runs and quotes), Json (encoding/json from the parsed value).

    _Wire_: Protocol (internal/protocol/protocol.go, internal/runlimits).

    _Accounts_: AuthPassword (password.go), HashGate (hashgate.go and its sizing
    in cmd/server), AuthLimiter (ratelimit.go), AuthText (service.go, tokens.go,
    password.go, the names and addresses of oauth.go), AuthStore (pgstore, authdb,
    migrations 00001 onwards), AuthFlow (sessions, middleware, the store's methods as
    effects), AuthHandlers (register.go, reset.go, account.go, handler.go, oauth.go and
    the router).  Theorems: AuthAuthority (what a request must have observed before it
    changes an account), AuthInv and AuthWorld (well-formed tables in every interleaving;
    tokens spent once), AuthFunc (what an undisturbed request does), AuthScenes (a concrete environment, the witnesses).

    _Quotes_: QuoteStore (store.go, pgstore, quotedb, corpus), QuoteHandlers (handler.go,
    admin.go), QuoteProps, QuoteLife (browsing; what is published stays published; imports,
    withdrawals).

    _Moderation_: ModStore (moderationdb), ModHandlers (moderation.go, badges.go,
    reports_store.go and the three HTTP files, and the gates cmd/server puts in front of
    them and of the quote routes), ModWorld (auth, quotes and moderation interleaved), ModInv,
    ModAuthority, ModBans, ModReports (the invariant; who may act, on quotes too; bans; reports),
    ModScenes.

    _Profiles_: ProfileStore (links.go, the texts of me_profile.go; profiledb: accounts,
    links, badges, search), ProfileRead (profiledb: the statistics),
    ProfileHandlers (handler.go, public.go, me_profile.go, pgstore, the gates of
    cmd/server), ProfileWorld (profiles, moderation and accounts interleaved),
    ProfileAuthority, ProfileStreaks, ProfileSearch, ProfilePatch (who may read; streaks;
    the search; a save), ProfileScenes.

    _Duels_: WsState (the records and the store they live in), WsRoom (room.go's locked
    helpers), WsMatch (room_match.go, room_afk.go, room_persist.go), WsLobby (room.go,
    registry.go, lobby.go, room_chat.go, room_idle.go), Ratelimit (ratelimit.go),
    WsSession (session.go, handler.go).  Theorems: WsCore, WsInv, WsOps, WsCalm, WsMember
    (the invariant and that every critical section keeps it), WsStep (every
    interleaving), WsPath (every handler is a path of those steps), WsProps, WsFunc,
    WsLobbyProps.

    _Runs and the judge_: Runs (internal/runs/validate.go, handler.go), Core
    (internal/replay/core.go), DisplayNames and Registry (registry.go), Policy
    (internal/replay/policy), Decide (decide.go, queue.go), Worker (worker.go), RunStore
    (internal/runs/pgstore, internal/replay/pgstore and their queries), RunLife (the
    transactions interleaved), RunProps, RunBatches (cmd/replayctl's loop; nobody waits for
    ever), RunRead and RunReadProps (the owner's list and detail, the public replay).

    _Keyboard_: Keyboard (internal/keyboard and its pgstore), KeyboardProps.

    _Leaderboards_: Bucket (bucket.go), Board (pgstore, leaderboarddb, the functions and
    views of db/migrations), BoardProps, BoardGaps, BoardRead (service.go, handler.go),
    BoardPages.

    ** What the theorems show

    - _Duels_: in every interleaving an account holds at most one seat, rooms and matches
      are well formed and the lobby lists exactly the public waiting rooms; a batch is
      relayed to everybody else; the end of a match is reported and persisted once; a
      resumed seat gets its whole backlog in order; the handlers are paths of the steps.
    - _Accounts_: nothing happens to an account without the session, token or password
      that entitles to it; tables stay well formed; no token is spent twice; what sign-in,
      registering and a reset do in each case; one theorem exhibits the link-cookie
      takeover.
    - _Moderation_ and _quotes_: no statement without the permission of a live session;
      tables well formed; what a ban, a report, an import and a withdrawal do; published
      bytes never change; paging lists everything once.
    - _Runs_: a run is not pending exactly when it has a verdict; the decision table; an
      accepted run was replayed on the server's own text; a queue entry is decided once.
    - _Leaderboards_: the board is the projection of the runs and a rebuild reproduces it;
      pages list it once in order with true ranks.
    - _The queue_: a pending run is judged after as many batches as the runs before it
      fill, whatever is submitted behind it.
    - _Keyboard_: a key's counts are the sum over the runs stamped as counted, each once;
      taking a contribution back restores them.
    - _Profiles_: a statement about an account's profile is only performed for whom it is
      open to; what the tables hold fits what a page may show; a save is read back; the
      search is containment, wildcards typed included; streaks are consecutive days.
    - Where the code does not do what its comments say, a theorem shows it on a concrete
      input or schedule (WsProps, RunProps, BoardGaps, ModScenes, ProfileScenes, AuthFunc, ...).

    ** Parameters

    What is not in the repository is a parameter (a class): [Uuid] (parsing and printing of
    google/uuid) and [UuidOrder] (PostgreSQL's order of uuids), [Argon2], [Gzip],
    [GameCore] and [DictEngine] (the JavaScript core's exports), [PgText]
    (PostgreSQL's [lower]), [Collation] (the database's text order), [PgCast] and
    [JsonText] (casts from and to text), [PgFloat] (float8 input, average and regression),
    [ScanOrder] (rows within an aggregate), [MapRange] (Go's order over a map), the Unicode tables behind [strings.ToLower] and
    the control and space classes beyond ASCII, [Draws] (random choices of PostgreSQL),
    [ReportLimits] and [SearchLimits] (configured limits), and the environments [Env] of the services (clock,
    random bytes, mailer, providers).  The laws a proof needs are classes of their own
    ([UuidLaws], [GzipLaws], ...), instantiated by concrete functions where a witness
    needs one ([uuid16] and the scene files).

    ** Fuel and bounds

    Loops of the code that redraw until something is free (guest nicks, room codes, the
    reattach loop) take [loop_fuel] or [reattachFuel] turns: WsLobbyProps and WsFunc show
    when they end.  The name search of an OAuth account has the code's own bound.  A walk
    through pages ([Keyset.walk]) takes one more turn than the listing is long, which
    suffices.  The revalidation loop takes one turn per stale run and one to notice the
    end (RunBatches).

    ** Approximations

    - JSON text is not parsed: a body is a value, or [None] when it is not JSON or exceeds
      the size its handler reads.
    - Rows that an ORDER BY leaves tied come in a fixed order.
    - Of cookies only value and lifetime are modelled; the refusal of an early rename omits the
      instant it names.
    - The texts of auth's statements are taken to be storable; those of quotes, moderation
      and profiles may contain bytes PostgreSQL refuses.
    - The import of quotes is one atomic step, which is exact with one importer at a time.
    - The routes under /admin are taken to be mounted.

    ** Not modelled

    Network and file I/O (the WebSocket pumps, HTTP servers, the mailer, the two provider
    clients, the captcha client), configuration, logging, health checks, migrations as
    such, the operator commands' flag parsing, the load generator of internal/perf, the
    replay status page, the OpenAPI document, the sink that stores finished duels, and the
    JavaScript game core itself. *)

From stdpp Require Export base gmap strings list fin_maps list_numbers.
From Stdlib Require Export ZArith Lia.

#[export] Set Default Goal Selector "!".

(** ** Notations and tactics *)

(** [lia] knows Euclidean division. *)
Ltac Zify.zify_post_hook ::= Z.div_mod_to_equations.

Declare Scope typemore_scope.
Delimit Scope typemore_scope with tm.

Open Scope typemore_scope.

(** String equality, as Go's [==] on strings. *)
Infix "=s?" := String.eqb (at level 70) : typemore_scope.

Create HintDb typemore.
Create Rewrite HintDb tm_rw.
Create Rewrite HintDb tm_core.

(** Case-split on the first [match]/[if] of the goal, remembering the equation. *)
Ltac split_match :=
  match goal with
  | |- context [match ?x with _ => _ end] => destruct x eqn:?
  end.

Ltac split_match_in H :=
  match type of H with
  | context [match ?x with _ => _ end] => destruct x eqn:?
  end.

(** Turn boolean (in)equalities of the context into propositions. *)
Ltac bool_to_prop :=
  repeat match goal with
  | H : _ && _ = true |- _ => apply andb_true_iff in H; destruct H
  | H : _ || _ = false |- _ => apply orb_false_iff in H; destruct H
  | H : negb _ = true |- _ => apply negb_true_iff in H
  | H : negb _ = false |- _ => apply negb_false_iff in H
  | H : (_ =s? _) = true |- _ => apply String.eqb_eq in H
  | H : (_ =s? _) = false |- _ => apply String.eqb_neq in H
  | H : (_ <? _)%Z = true |- _ => apply Z.ltb_lt in H
  | H : (_ <? _)%Z = false |- _ => apply Z.ltb_ge in H
  | H : (_ <=? _)%Z = true |- _ => apply Z.leb_le in H
  | H : (_ <=? _)%Z = false |- _ => apply Z.leb_gt in H
  | H : (_ =? _)%Z = true |- _ => apply Z.eqb_eq in H
  | H : (_ =? _)%Z = false |- _ => apply Z.eqb_neq in H
  | H : (_ <? _)%nat = true |- _ => apply Nat.ltb_lt in H
  | H : (_ <? _)%nat = false |- _ => apply Nat.ltb_ge in H
  | H : (_ <=? _)%nat = true |- _ => apply Nat.leb_le in H
  | H : (_ <=? _)%nat = false |- _ => apply Nat.leb_gt in H
  | H : (_ =? _)%nat = true |- _ => apply Nat.eqb_eq in H
  | H : (_ =? _)%nat = false |- _ => apply Nat.eqb_neq in H
  | H : bool_decide _ = true |- _ => apply bool_decide_eq_true in H
  | H : bool_decide _ = false |- _ => apply bool_decide_eq_false in H
  end.

(** ** Stores

    Go pointers are keys of a finite map.  A dereference is a total lookup (the
    zero value of the record stands for memory never written), an assignment
    through the pointer is [store_upd]. *)

Section store.
Context {K A : Type} `{Countable K} `{Inhabited A}.

Definition store_upd (k : K) (f : A -> A) (m : gmap K A) : gmap K A :=
  <[k := f (m !!! k)]> m.

Lemma store_upd_eq k f m : store_upd k f m !!! k = f (m !!! k).
Proof. apply lookup_total_insert_eq. Qed.

Lemma store_upd_ne k k' f m : k <> k' -> store_upd k f m !!! k' = m !!! k'.
Proof. intros. by apply lookup_total_insert_ne. Qed.

Lemma store_upd_case k k' f m :
  store_upd k f m !!! k' = if decide (k = k') then f (m !!! k) else m !!! k'.
Proof. case_decide; subst; [apply store_upd_eq | by apply store_upd_ne]. Qed.

Lemma store_upd_proj {B} (p : A -> B) k k' f m :
  (forall a, p (f a) = p a) -> p (store_upd k f m !!! k') = p (m !!! k').
Proof. intros Hp. rewrite store_upd_case. case_decide; subst; auto. Qed.
End store.

(** ** Lists *)

Section lists.
Context {A : Type}.

(** Go's [append(l[:i], l[i+1:]...)]. *)
Definition cut_at (i : nat) (l : list A) : list A := take i l ++ drop (S i) l.

Lemma cut_at_delete i l : cut_at i l = delete i l.
Proof. unfold cut_at. by rewrite delete_take_drop. Qed.

Lemma cut_at_subset i l x : x ∈ cut_at i l -> x ∈ l.
Proof.
  unfold cut_at. rewrite elem_of_app. intros [Hx|Hx].
  - rewrite <- (take_drop i l), elem_of_app. by left.
  - rewrite <- (take_drop (S i) l), elem_of_app. by right.
Qed.

Lemma cut_at_elem i l y x :
  NoDup l -> l !! i = Some y -> x ∈ cut_at i l <-> x ∈ l /\ x <> y.
Proof.
  intros Hnd Hi.
  pose proof (take_drop_middle l i y Hi) as Hl. unfold cut_at.
  rewrite <- Hl in Hnd. apply NoDup_app in Hnd as (Hnd1 & Hnd2 & Hnd3).
  apply NoDup_cons in Hnd3 as [Hnd3 _].
  rewrite <- Hl at 3. rewrite !elem_of_app, elem_of_cons.
  split; [|naive_solver].
  intros [Hx|Hx]; split; [by left| |by right; right|]; intros ->; set_solver.
Qed.

Lemma cut_at_NoDup i l : NoDup l -> NoDup (cut_at i l).
Proof. rewrite cut_at_delete. intros. by eapply sublist_NoDup, sublist_delete. Qed.

Lemma cut_at_length i l x : l !! i = Some x -> length (cut_at i l) = pred (length l).
Proof. intros Hl. rewrite cut_at_delete, length_delete by eauto. lia. Qed.

Lemma cut_at_length_le i l : length (cut_at i l) <= length l.
Proof. unfold cut_at. rewrite length_app, length_take, length_drop. lia. Qed.

(** The index of the first element satisfying a test, as a [for range] finds it. *)
Fixpoint find_index (p : A -> bool) (l : list A) : option nat :=
  match l with
  | [] => None
  | x :: l' => if p x then Some 0 else S <$> find_index p l'
  end.

Fixpoint find_first (p : A -> bool) (l : list A) : option A :=
  match l with
  | [] => None
  | x :: l' => if p x then Some x else find_first p l'
  end.

Lemma find_first_Some p l x : find_first p l = Some x -> x ∈ l /\ p x = true.
Proof.
  induction l as [|a l IH]; simpl; [done|].
  destruct (p a) eqn:Hp; intros Hf; rewrite elem_of_cons; simplify_eq; naive_solver.
Qed.

Lemma find_first_None p l x : find_first p l = None -> x ∈ l -> p x = false.
Proof.
  induction l as [|a l IH]; simpl; [set_solver|].
  destruct (p a) eqn:Hp; intros ? [->|]%elem_of_cons; simplify_eq; auto.
Qed.

Lemma find_first_is_Some p l x : x ∈ l -> p x = true -> is_Some (find_first p l).
Proof.
  intros Hx Hp. destruct (find_first p l) eqn:Hf; [by eexists|].
  rewrite (find_first_None _ _ _ Hf Hx) in Hp. done.
Qed.

Lemma find_index_Some p l i :
  find_index p l = Some i -> exists x, l !! i = Some x /\ p x = true.
Proof.
  revert i. induction l as [|a l IH]; simpl; [done|]. intros i.
  destruct (p a) eqn:Hp.
  - intros [= <-]. exists a. done.
  - intros (j & Hj & ->)%fmap_Some. destruct (IH _ Hj) as (x & ? & ?). by exists x.
Qed.

Lemma find_index_None p l x : find_index p l = None -> x ∈ l -> p x = false.
Proof.
  induction l as [|a l IH]; simpl; [set_solver|].
  destruct (p a) eqn:Hp; [done|]. intros Hn%fmap_None [->|]%elem_of_cons; auto.
Qed.

Lemma find_index_first p l i :
  find_index p l = Some i -> find_first p l = l !! i.
Proof.
  revert i. induction l as [|a l IH]; simpl; [done|]. intros i.
  destruct (p a) eqn:Hp; [by intros [= <-]|].
  intros (j & Hj & ->)%fmap_Some. by apply IH.
Qed.

Lemma find_index_is_Some p l x : x ∈ l -> p x = true -> is_Some (find_index p l).
Proof.
  intros Hx Hp. destruct (find_index p l) eqn:Hf; [by eexists|].
  rewrite (find_index_None _ _ _ Hf Hx) in Hp. done.
Qed.

Lemma forallb_elem (p : A -> bool) l x : forallb p l = true -> x ∈ l -> p x = true.
Proof.
  induction l as [|a l IH]; simpl; [set_solver|].
  intros [??]%andb_true_iff [->|]%elem_of_cons; auto.
Qed.

Lemma forallb_false (p : A -> bool) l : forallb p l = false -> exists x, x ∈ l /\ p x = false.
Proof.
  induction l as [|a l IH]; simpl; [done|].
  intros [?|Hl]%andb_false_iff; [exists a; set_solver|].
  destruct (IH Hl) as (x & ? & ?). exists x. set_solver.
Qed.

Lemma existsb_false (p : A -> bool) l x : existsb p l = false -> x ∈ l -> p x = false.
Proof.
  induction l as [|a l IH]; simpl; [set_solver|].
  intros [??]%orb_false_iff [->|]%elem_of_cons; auto.
Qed.
End lists.

(** ** Filters *)

Lemma filter_all {A} (P : A -> Prop) `{!forall x, base.Decision (P x)} (l : list A) :
  (forall x, x ∈ l -> P x) -> filter P l = l.
Proof.
  induction l as [|a l IH]; intros Hl; [done|]. rewrite filter_cons_True by (apply Hl; left).
  f_equal. apply IH. intros x Hx. apply Hl. by right.
Qed.

Lemma filter_none {A} (P : A -> Prop) `{!forall x, base.Decision (P x)} (l : list A) :
  (forall x, x ∈ l -> ~ P x) -> filter P l = [].
Proof.
  intros Hl. induction l as [|x l IH]; [done|]. rewrite filter_cons_False by (apply Hl; left).
  apply IH. intros y Hy. apply Hl. by right.
Qed.

Lemma filter_fmap {A B} (f : A -> B) (P : B -> Prop) `{!forall x, base.Decision (P x)} (l : list A) :
  filter P (f <$> l) = f <$> filter (fun a => P (f a)) l.
Proof.
  induction l as [|x l IH]; [done|]. rewrite fmap_cons, !filter_cons, IH. by case_decide.
Qed.

(** What filters out the first [n] of those that pass, and otherwise agrees, keeps the
    rest. *)
Lemma filter_drop_prefix {A} (P Q : A -> Prop) `{!forall x, base.Decision (P x)}
    `{!forall x, base.Decision (Q x)} (l : list A) n :
  NoDup l -> (forall x, x ∈ take n (filter P l) -> ~ Q x) ->
  (forall x, x ∈ l -> x ∉ take n (filter P l) -> Q x <-> P x) ->
  filter Q l = drop n (filter P l).
Proof.
  revert n. induction l as [|a l IH]; intros n; [by rewrite !filter_nil, drop_nil|].
  intros [Ha Hn]%NoDup_cons. destruct (decide (P a)) as [Hp|Hp].
  - rewrite (filter_cons_True P) by done. destruct n as [|n]; cbn [take drop]; intros Hin Hout.
    + rewrite filter_cons_True by (apply Hout; [left|apply not_elem_of_nil|done]). f_equal.
      apply (IH 0%nat Hn); [by intros x ?%elem_of_nil|]. intros x Hx _.
      apply Hout; [by right|apply not_elem_of_nil].
    + rewrite filter_cons_False by (apply Hin; left).
      apply (IH n Hn); [intros x Hx; apply Hin; by right|]. intros x Hx Hnot.
      apply Hout; [by right|]. intros [->|?]%elem_of_cons; done.
  - rewrite (filter_cons_False P) by done. intros Hin Hout.
    assert (a ∉ take n (filter P l)) as Hfresh.
    { intros Hm%subseteq_take. by apply list_elem_of_filter in Hm as [_ ?]. }
    rewrite filter_cons_False by (rewrite Hout; [done|left|done]).
    apply IH; [done..|]. intros x Hx. apply Hout. by right.
Qed.

Lemma NoDup_omap_inj {A B} (f : A -> option B) (l : list A) :
  NoDup l -> (forall x y b, x ∈ l -> y ∈ l -> f x = Some b -> f y = Some b -> x = y) -> NoDup (omap f l).
Proof.
  induction 1 as [|x l Hx Hl IH]; intros Hf; [constructor|]. cbn.
  assert (NoDup (omap f l)) as Hn by (apply IH; intros y z b Hy Hz; apply Hf; by right).
  destruct (f x) as [b|] eqn:E; [|done]. constructor; [|done].
  intros (y & Hy & Ey)%list_elem_of_omap. apply Hx. rewrite (Hf x y b); [done|left|by right|done|done].
Qed.

Definition sum_Z (l : list Z) : Z := foldr Z.add 0%Z l.

Lemma sum_Z_app l1 l2 : sum_Z (l1 ++ l2) = (sum_Z l1 + sum_Z l2)%Z.
Proof.
  unfold sum_Z. induction l1 as [|x l1 IH]; simpl; [done|]. rewrite IH. lia.
Qed.

(** The sum of a function over a list. *)
Definition sumOf {A} (f : A -> Z) (l : list A) : Z := sum_Z (f <$> l).

Lemma sumOf_cons {A} (f : A -> Z) x l : sumOf f (x :: l) = (f x + sumOf f l)%Z.
Proof. done. Qed.

Lemma sumOf_app {A} (f : A -> Z) l1 l2 : sumOf f (l1 ++ l2) = (sumOf f l1 + sumOf f l2)%Z.
Proof. unfold sumOf. by rewrite fmap_app, sum_Z_app. Qed.

Lemma sumOf_perm {A} (f : A -> Z) l1 l2 : l1 ≡ₚ l2 -> sumOf f l1 = sumOf f l2.
Proof. induction 1 as [|x l1 l2 _ IH|x y l|? l2 ? _ IH1 _ IH2]; rewrite ?sumOf_cons; lia. Qed.

Lemma sumOf_ext {A} (f g : A -> Z) l : (forall x, x ∈ l -> f x = g x) -> sumOf f l = sumOf g l.
Proof.
  induction l as [|x l IH]; intros Hf; [done|]. rewrite !sumOf_cons, Hf by left.
  by rewrite IH by (intros y Hy; apply Hf; by right).
Qed.

Lemma sumOf_nonneg {A} (f : A -> Z) l : (forall x, x ∈ l -> 0 <= f x)%Z -> (0 <= sumOf f l)%Z.
Proof.
  induction l as [|x l IH]; intros Hf; [done|]. rewrite sumOf_cons.
  pose proof (Hf x ltac:(left)). specialize (IH (fun y Hy => Hf y ltac:(by right))). lia.
Qed.

Lemma sumOf_le {A} (f g : A -> Z) l : (forall x, x ∈ l -> f x <= g x)%Z -> (sumOf f l <= sumOf g l)%Z.
Proof.
  induction l as [|x l IH]; intros Hf; [done|]. rewrite !sumOf_cons.
  pose proof (Hf x ltac:(left)). specialize (IH (fun y Hy => Hf y ltac:(by right))). lia.
Qed.

Lemma sumOf_zero {A} (f : A -> Z) l : (forall x, x ∈ l -> f x = 0%Z) -> sumOf f l = 0%Z.
Proof.
  induction l as [|x l IH]; intros Hf; [done|]. rewrite sumOf_cons, Hf, IH by (done || left || (intros y Hy; apply Hf; by right)).
  done.
Qed.

(** Over the elements of a set. *)
Section sum_set.
Context {K} `{Countable K} (f : K -> Z).

Lemma sumOf_insert (x : K) (X : gset K) :
  x ∉ X -> sumOf f (elements ({[ x ]} ∪ X)) = (f x + sumOf f (elements X))%Z.
Proof. intros Hx. by rewrite (sumOf_perm f _ (x :: elements X)) by by apply elements_union_singleton. Qed.

Lemma sumOf_delete (x : K) (X : gset K) :
  x ∈ X -> sumOf f (elements X) = (f x + sumOf f (elements (X ∖ {[ x ]})))%Z.
Proof.
  intros Hx. rewrite <- sumOf_insert by set_solver. f_equal. f_equal. apply leibniz_equiv.
  intros y. destruct (decide (y = x)); set_solver.
Qed.

Lemma sumOf_subset (X Y : gset K) :
  Y ⊆ X -> (forall x, x ∈ X -> x ∉ Y -> f x = 0%Z) -> sumOf f (elements X) = sumOf f (elements Y).
Proof.
  intros Hs Hz. rewrite (union_difference_L Y X Hs), (sumOf_perm f _ (elements Y ++ elements (X ∖ Y)))
    by (apply elements_disj_union; set_solver).
  rewrite sumOf_app, (sumOf_zero f (elements (X ∖ Y))); [lia|].
  intros x [? ?]%elem_of_elements%elem_of_difference. by apply Hz.
Qed.
End sum_set.

#[export] Hint Rewrite @cut_at_delete : tm_rw.

(** ** Reflexive-transitive closure of a step relation *)

Section star.
Context {S : Type} (R : S -> S -> Prop).

Inductive steps : S -> S -> Prop :=
| steps_refl s : steps s s
| steps_step s1 s2 s3 : R s1 s2 -> steps s2 s3 -> steps s1 s3.

Lemma steps_trans s1 s2 s3 : steps s1 s2 -> steps s2 s3 -> steps s1 s3.
Proof. induction 1; eauto using steps. Qed.

(** Rule induction for invariants: what the start satisfies and every step
    preserves holds of whatever is reached. *)
Lemma steps_invariant (P : S -> Prop) s1 s2 :
  (forall a b, P a -> R a b -> P b) -> P s1 -> steps s1 s2 -> P s2.
Proof. intros HP H1 Hs. induction Hs; eauto. Qed.
End star.

#[export] Hint Constructors steps : typemore.
