(* ===== verification/GoStd.v ===== *)
(** * The parts of Go and of its standard library the server uses

    - [Int]: machine-width integers as [Z] with the wrap-around written out;
    - [Utf8]: [unicode/utf8] (decoding with [RuneError] for invalid bytes,
      encoding, [RuneCountInString]) on byte strings;
    - [Strs]: [strings.TrimSpace], [strings.ToUpper], [strings.Split],
      [strings.CutPrefix], [unicode.IsControl];
    - [Strconv]: [strconv.Itoa] and [strconv.Atoi];
    - [F64]: IEEE-754 binary64 as the Standard Library's [spec_float];
    - [Sha256]: crypto/sha256; [Duration] and [Calendar]: time.ParseDuration, RFC 3339. *)

From Stdlib Require Import Strings.Ascii Floats.SpecFloat Structures.OrdersEx.
From S2P Require Import Prelude.

Open Scope Z_scope.

(** ** Integers *)

Module Int.
(** Conversion to [int32] / [int64]: two's-complement truncation. *)
Definition wrap (w : Z) (z : Z) : Z := (z + 2 ^ (w - 1)) mod 2 ^ w - 2 ^ (w - 1).
Definition int16 (z : Z) : Z := wrap 16 z.
Definition int32 (z : Z) : Z := wrap 32 z.
Definition int64 (z : Z) : Z := wrap 64 z.

Definition in_range (w z : Z) : Prop := - 2 ^ (w - 1) <= z < 2 ^ (w - 1).

Lemma wrap_id w z : 0 < w -> in_range w z -> wrap w z = z.
Proof.
  unfold in_range, wrap. intros Hw Hz.
  assert (2 ^ w = 2 * 2 ^ (w - 1)) as Hp.
  { rewrite <- (Z.pow_succ_r 2 (w - 1)) by lia. f_equal. lia. }
  rewrite Z.mod_small by lia. lia.
Qed.

Lemma wrap_range w z : 0 < w -> in_range w (wrap w z).
Proof.
  unfold in_range, wrap. intros Hw.
  assert (2 ^ w = 2 * 2 ^ (w - 1)) as Hp.
  { rewrite <- (Z.pow_succ_r 2 (w - 1)) by lia. f_equal. lia. }
  assert (0 < 2 ^ w) by (apply Z.pow_pos_nonneg; lia).
  pose proof (Z.mod_pos_bound (z + 2 ^ (w - 1)) (2 ^ w)). lia.
Qed.

Lemma wrap_period w z k : 0 < w -> wrap w (z + k * 2 ^ w) = wrap w z.
Proof.
  intros Hw. unfold wrap.
  replace (z + k * 2 ^ w + 2 ^ (w - 1)) with (z + 2 ^ (w - 1) + k * 2 ^ w) by lia.
  rewrite Z_mod_plus_full. done.
Qed.
End Int.

(** ** Bytes and strings

    A Go string is a sequence of bytes; so is a Rocq [string].  The UTF-8
    routines work on the list of byte values. *)

Definition bytes_of (s : string) : list Z :=
  (fun c => Z.of_N (Ascii.N_of_ascii c)) <$> String.list_ascii_of_string s.

Definition string_of_bytes (l : list Z) : string :=
  String.string_of_list_ascii ((fun b => Ascii.ascii_of_N (Z.to_N b)) <$> l).

Definition is_byte (b : Z) : Prop := 0 <= b < 256.

Lemma str_app_cons x (a b : string) : String x a +:+ b = String x (a +:+ b).
Proof. done. Qed.

Lemma str_app_assoc (a b c : string) : (a +:+ b) +:+ c = a +:+ (b +:+ c).
Proof. induction a as [|x a IH]; [done|]. by rewrite !str_app_cons, IH. Qed.

Lemma str_app_nil_r (a : string) : a +:+ "" = a.
Proof. induction a as [|x a IH]; [done|]. by rewrite str_app_cons, IH. Qed.

Lemma str_length_app (a b : string) :
  String.length (a +:+ b) = (String.length a + String.length b)%nat.
Proof. induction a as [|x a IH]; [done|]. rewrite str_app_cons. cbn. by rewrite IH. Qed.

(** Strings are ordered bytewise. *)
Lemma string_compare_OT a b : String.compare a b = OrdersEx.String_as_OT.compare a b.
Proof.
  revert b. induction a as [|x a IH]; intros [|y b]; cbn; [done..|]. by rewrite IH.
Qed.

Lemma string_lt_trans a b c :
  String.compare a b = Lt -> String.compare b c = Lt -> String.compare a c = Lt.
Proof. rewrite !string_compare_OT. apply OrdersEx.String_as_OT.lt_strorder. Qed.

Lemma bytes_of_app (a b : string) : bytes_of (a +:+ b) = bytes_of a ++ bytes_of b.
Proof.
  unfold bytes_of. rewrite <- fmap_app. f_equal.
  induction a as [|x a IH]; [done|]. rewrite str_app_cons. cbn. by rewrite IH.
Qed.

(** [len(s)] *)
Definition slen (s : string) : Z := Z.of_nat (String.length s).

Lemma bytes_of_is_byte s : Forall is_byte (bytes_of s).
Proof.
  unfold bytes_of. apply Forall_fmap, Forall_forall. intros c _. unfold compose, is_byte.
  pose proof (Ascii.N_ascii_bounded c). lia.
Qed.

Lemma bytes_of_string_of_bytes l :
  Forall is_byte l -> bytes_of (string_of_bytes l) = l.
Proof.
  intros Hl. unfold bytes_of, string_of_bytes.
  rewrite String.list_ascii_of_string_of_list_ascii, <- list_fmap_compose.
  rewrite <- (list_fmap_id l) at 2. apply list_fmap_ext. intros i b Hb. cbn.
  rewrite Forall_lookup in Hl. specialize (Hl _ _ Hb). unfold is_byte in Hl.
  rewrite Ascii.N_ascii_embedding; lia.
Qed.

Lemma string_of_bytes_of s : string_of_bytes (bytes_of s) = s.
Proof.
  unfold bytes_of, string_of_bytes. rewrite <- list_fmap_compose.
  rewrite <- (String.string_of_list_ascii_of_string s) at 2. f_equal.
  rewrite <- (list_fmap_id (String.list_ascii_of_string s)) at 2.
  apply list_fmap_ext. intros i c _. cbn. rewrite N2Z.id. apply Ascii.ascii_N_embedding.
Qed.

(** ** UTF-8 *)

Module Utf8.
(** [utf8.RuneError] *)
Definition RuneError : Z := 0xFFFD.

Definition is_cont (b : Z) : bool := (0x80 <=? b) && (b <=? 0xBF).

(** The payload of a continuation byte, and of the three kinds of lead byte. *)
Definition low6 (b : Z) : Z := Z.land b 0x3F.
Definition rune2 (b0 b1 : Z) : Z := Z.lor (Z.shiftl (Z.land b0 0x1F) 6) (low6 b1).
Definition rune3 (b0 b1 b2 : Z) : Z :=
  Z.lor (Z.lor (Z.shiftl (Z.land b0 0x0F) 12) (Z.shiftl (low6 b1) 6)) (low6 b2).
Definition rune4 (b0 b1 b2 b3 : Z) : Z :=
  Z.lor (Z.lor (Z.lor (Z.shiftl (Z.land b0 0x07) 18) (Z.shiftl (low6 b1) 12))
    (Z.shiftl (low6 b2) 6)) (low6 b3).

(** The second byte's accepted range narrows after E0, ED, F0 and F4 (no
    overlong forms, no surrogates, nothing above 10FFFF). *)
Definition second3_ok (b0 b1 : Z) : bool :=
  ((if b0 =? 0xE0 then 0xA0 else 0x80) <=? b1)
    && (b1 <=? (if b0 =? 0xED then 0x9F else 0xBF)).
Definition second4_ok (b0 b1 : Z) : bool :=
  ((if b0 =? 0xF0 then 0x90 else 0x80) <=? b1)
    && (b1 <=? (if b0 =? 0xF4 then 0x8F else 0xBF)).

(** A [for range] over a string: each rune with the bytes it was decoded from.
    An invalid byte is [RuneError] on its own. *)
Fixpoint chunks (bs : list Z) : list (Z * list Z) :=
  match bs with
  | [] => []
  | b0 :: t =>
    let invalid := (RuneError, [b0]) :: chunks t in
    if b0 <? 0x80 then (b0, [b0]) :: chunks t
    else if (0xC2 <=? b0) && (b0 <=? 0xDF) then
      match t with
      | b1 :: t1 =>
        if is_cont b1 then (rune2 b0 b1, [b0; b1]) :: chunks t1 else invalid
      | _ => invalid
      end
    else if (0xE0 <=? b0) && (b0 <=? 0xEF) then
      match t with
      | b1 :: b2 :: t2 =>
        if second3_ok b0 b1 && is_cont b2
        then (rune3 b0 b1 b2, [b0; b1; b2]) :: chunks t2 else invalid
      | _ => invalid
      end
    else if (0xF0 <=? b0) && (b0 <=? 0xF4) then
      match t with
      | b1 :: b2 :: b3 :: t3 =>
        if second4_ok b0 b1 && is_cont b2 && is_cont b3
        then (rune4 b0 b1 b2 b3, [b0; b1; b2; b3]) :: chunks t3 else invalid
      | _ => invalid
      end
    else invalid
  end.

Definition runes (s : string) : list Z := (chunks (bytes_of s)).*1.

(** [utf8.RuneCountInString] *)
Definition rune_count (s : string) : Z := Z.of_nat (length (runes s)).

(** A Unicode scalar value. *)
Definition valid_rune (r : Z) : Prop := 0 <= r < 0xD800 \/ 0xE000 <= r <= 0x10FFFF.
#[export] Instance valid_rune_dec r : Decision (valid_rune r).
Proof. unfold valid_rune. apply _. Defined.

(** [utf8.AppendRune] / [Builder.WriteRune]: anything that is not a scalar value
    is written as [RuneError]. *)
Definition encode (r0 : Z) : list Z :=
  let r := if decide (valid_rune r0) then r0 else RuneError in
  if r <? 0x80 then [r]
  else if r <? 0x800 then [Z.lor 0xC0 (Z.shiftr r 6); Z.lor 0x80 (low6 r)]
  else if r <? 0x10000 then
    [Z.lor 0xE0 (Z.shiftr r 12); Z.lor 0x80 (low6 (Z.shiftr r 6)); Z.lor 0x80 (low6 r)]
  else
    [Z.lor 0xF0 (Z.shiftr r 18); Z.lor 0x80 (low6 (Z.shiftr r 12));
     Z.lor 0x80 (low6 (Z.shiftr r 6)); Z.lor 0x80 (low6 r)].

Definition string_of_runes (rs : list Z) : string := string_of_bytes (rs ≫= encode).

(** *** Arithmetic readings of the bit operations *)

Lemma lor_add a b n : 0 <= n -> a mod 2 ^ n = 0 -> 0 <= b < 2 ^ n -> Z.lor a b = a + b.
Proof.
  intros Hn Ha Hb. rewrite Z.add_nocarry_lxor.
  - symmetry. apply Z.lxor_lor, Z.bits_inj'. intros i Hi.
    rewrite Z.land_spec, Z.bits_0.
    destruct (Z.lt_ge_cases i n).
    + rewrite <- (Z.mod_pow2_bits_low a n i), Ha, Z.bits_0 by lia. done.
    + rewrite <- (Z.mod_small b (2 ^ n)), (Z.mod_pow2_bits_high b n i) by lia.
      apply andb_false_r.
  - apply Z.bits_inj'. intros i Hi. rewrite Z.land_spec, Z.bits_0.
    destruct (Z.lt_ge_cases i n).
    + rewrite <- (Z.mod_pow2_bits_low a n i), Ha, Z.bits_0 by lia. done.
    + rewrite <- (Z.mod_small b (2 ^ n)), (Z.mod_pow2_bits_high b n i) by lia.
      apply andb_false_r.
Qed.

Lemma land_ones n a m : 0 <= n -> m = Z.ones n -> Z.land a m = a mod 2 ^ n.
Proof. intros Hn ->. by apply Z.land_ones. Qed.

Lemma low6_mod b : low6 b = b mod 64.
Proof. unfold low6. by rewrite (land_ones 6). Qed.

Lemma rune2_val b0 b1 : rune2 b0 b1 = (b0 mod 32) * 64 + b1 mod 64.
Proof.
  unfold rune2. rewrite low6_mod, (land_ones 5), Z.shiftl_mul_pow2 by done.
  change (2 ^ 5) with 32.
  rewrite (lor_add _ _ 6); [lia|lia| |].
  - change (2 ^ 6) with 64. apply Z_mod_mult.
  - change (2 ^ 6) with 64. apply Z.mod_pos_bound. lia.
Qed.

Lemma rune3_val b0 b1 b2 :
  rune3 b0 b1 b2 = (b0 mod 16) * 4096 + (b1 mod 64) * 64 + b2 mod 64.
Proof.
  unfold rune3. rewrite !low6_mod, (land_ones 4), !Z.shiftl_mul_pow2 by done.
  change (2 ^ 12) with 4096. change (2 ^ 6) with 64. change (2 ^ 4) with 16.
  pose proof (Z.mod_pos_bound b1 64). pose proof (Z.mod_pos_bound b2 64).
  rewrite (lor_add _ (_ * 64) 12); [|lia|apply Z_mod_mult|lia].
  rewrite (lor_add _ _ 6); [lia|lia| |lia].
  change (2 ^ 6) with 64. lia.
Qed.

Lemma rune4_val b0 b1 b2 b3 :
  rune4 b0 b1 b2 b3 =
  (b0 mod 8) * 262144 + (b1 mod 64) * 4096 + (b2 mod 64) * 64 + b3 mod 64.
Proof.
  unfold rune4. rewrite !low6_mod, (land_ones 3), !Z.shiftl_mul_pow2 by done.
  change (2 ^ 18) with 262144. change (2 ^ 12) with 4096. change (2 ^ 6) with 64.
  change (2 ^ 3) with 8.
  pose proof (Z.mod_pos_bound b1 64). pose proof (Z.mod_pos_bound b2 64).
  pose proof (Z.mod_pos_bound b3 64).
  rewrite (lor_add _ (_ * 4096) 18); [|lia|apply Z_mod_mult|lia].
  rewrite (lor_add _ (_ * 64) 12); [|lia|change (2 ^ 12) with 4096; lia|lia].
  rewrite (lor_add _ _ 6); [lia|lia| |lia].
  change (2 ^ 6) with 64. lia.
Qed.

Lemma cont_val x : Z.lor 0x80 (low6 x) = 128 + x mod 64.
Proof.
  rewrite low6_mod. apply (lor_add _ _ 6); [lia|done|].
  change (2 ^ 6) with 64. apply Z.mod_pos_bound. lia.
Qed.

(** The encoding of a scalar value, arithmetically. *)
Lemma encode_val r :
  valid_rune r ->
  encode r =
    if r <? 0x80 then [r]
    else if r <? 0x800 then [192 + r / 64; 128 + r mod 64]
    else if r <? 0x10000 then [224 + r / 4096; 128 + r / 64 mod 64; 128 + r mod 64]
    else [240 + r / 262144; 128 + r / 4096 mod 64; 128 + r / 64 mod 64; 128 + r mod 64].
Proof.
  intros Hv. unfold encode. rewrite decide_True by done.
  assert (0 <= r <= 0x10FFFF) by (unfold valid_rune in Hv; lia).
  destruct (r <? 0x80) eqn:?; [done|].
  rewrite !cont_val, !Z.shiftr_div_pow2 by lia.
  change (2 ^ 6) with 64. change (2 ^ 12) with 4096. change (2 ^ 18) with 262144.
  bool_to_prop.
  destruct (r <? 0x800) eqn:?; bool_to_prop.
  { rewrite (lor_add _ _ 5); [done|lia|done|change (2 ^ 5) with 32; lia]. }
  destruct (r <? 0x10000) eqn:?; bool_to_prop.
  { rewrite (lor_add _ _ 4); [done|lia|done|change (2 ^ 4) with 16; lia]. }
  rewrite (lor_add _ _ 3); [done|lia|done|change (2 ^ 3) with 8; lia].
Qed.

(** Decide a boolean test on bytes with [lia]. *)
Ltac byte_test b :=
  match goal with
  | |- context [if ?t then _ else _] =>
    replace t with b by (unfold is_cont, second3_ok, second4_ok in *;
      repeat match goal with |- context [if ?x =? ?y then _ else _] =>
        destruct (x =? y) eqn:? end; bool_to_prop; lia)
  end.

Lemma chunks_encode r rest :
  valid_rune r -> chunks (encode r ++ rest) = (r, encode r) :: chunks rest.
Proof.
  intros Hv. rewrite encode_val by done. unfold valid_rune in Hv.
  destruct (r <? 0x80) eqn:H1; [simpl; by rewrite H1|].
  destruct (r <? 0x800) eqn:H2; [|destruct (r <? 0x10000) eqn:H3]; bool_to_prop; simpl;
    byte_test false.
  - byte_test true. byte_test true. rewrite rune2_val. do 2 f_equal. lia.
  - byte_test false. byte_test true. byte_test true. rewrite rune3_val. do 2 f_equal. lia.
  - byte_test false. byte_test false. byte_test true. byte_test true.
    rewrite rune4_val. do 2 f_equal. lia.
Qed.

Lemma runes_string_of_runes rs : Forall valid_rune rs -> runes (string_of_runes rs) = rs.
Proof.
  intros Hrs. unfold runes, string_of_runes.
  assert (Forall is_byte (rs ≫= encode)) as Hb.
  { apply Forall_bind. eapply Forall_impl; [exact Hrs|]. intros r Hr.
    unfold compose. rewrite encode_val by done. unfold valid_rune in Hr.
    repeat case_match; bool_to_prop; repeat constructor; unfold is_byte; lia. }
  rewrite bytes_of_string_of_bytes by done.
  induction Hrs as [|r rs Hr Hrs IH]; [done|]. simpl.
  rewrite chunks_encode by done. simpl. f_equal. apply IH.
  simpl in Hb. by apply Forall_app in Hb as [_ ?].
Qed.

(** Decoding only ever produces scalar values. *)
Lemma chunks_valid bs : Forall is_byte bs -> Forall (fun c => valid_rune c.1) (chunks bs).
Proof.
  remember (length bs) as n eqn:Hn. revert bs Hn.
  induction n as [n IH] using lt_wf_ind. intros bs Hn Hb.
  assert (valid_rune RuneError) as He by (right; done).
  destruct bs as [|b0 t]; [constructor|]. inversion Hb as [|? ? Hb0 Ht]; subst.
  assert (Forall (fun c => valid_rune c.1) ((RuneError, [b0]) :: chunks t)) as Hinv.
  { constructor; [done|]. eapply IH; [|done|done]. simpl. lia. }
  simpl. unfold is_byte in Hb0.
  repeat (case_match; try exact Hinv); bool_to_prop;
    repeat match goal with H : Forall is_byte (_ :: _) |- _ => inversion H; clear H; subst end;
    (constructor; [|eapply IH; [|done|done]; simpl; lia]); simpl;
    rewrite ?rune2_val, ?rune3_val, ?rune4_val;
    unfold is_cont, second3_ok, second4_ok, valid_rune, is_byte in *; bool_to_prop;
    repeat case_match; bool_to_prop; lia.
Qed.

(** A longer form never decodes to an ASCII rune: if every rune is one, so is
    every byte. *)
Lemma chunks_small bs :
  Forall (fun r => r < 0x80) (chunks bs).*1 -> Forall (fun b => b < 0x80) bs.
Proof.
  remember (length bs) as n eqn:Hn. revert bs Hn.
  induction n as [n IH] using lt_wf_ind. intros bs Hn Hr.
  destruct bs as [|b0 t]; [constructor|]. subst n. simpl in Hr.
  destruct (b0 <? 0x80) eqn:H0; bool_to_prop.
  { inversion Hr; subst. constructor; [done|]. eapply IH; [|done|done]. simpl. lia. }
  exfalso.
  assert (Forall (fun r => r < 0x80) ((RuneError, [b0]) :: chunks t).*1 -> False) as Hinv.
  { inversion 1; subst. unfold RuneError in *. cbn in *. lia. }
  repeat (case_match; try by apply Hinv); bool_to_prop; inversion Hr as [|? ? Hh _]; subst; cbn in Hh;
    rewrite ?rune2_val, ?rune3_val, ?rune4_val in Hh;
    unfold is_cont, second3_ok, second4_ok in *; bool_to_prop;
    repeat case_match; bool_to_prop; lia.
Qed.

Lemma runes_small s :
  Forall (fun r => r < 0x80) (runes s) -> Forall (fun b => 0 <= b < 0x80) (bytes_of s).
Proof.
  intros Hr%chunks_small. eapply Forall_impl; [apply Forall_and; split; [apply bytes_of_is_byte|exact Hr]|].
  cbn. unfold is_byte. lia.
Qed.

Lemma runes_valid s : Forall valid_rune (runes s).
Proof.
  unfold runes. apply Forall_fmap. eapply Forall_impl;
    [apply chunks_valid, bytes_of_is_byte|]. done.
Qed.

Lemma rune_count_empty s : rune_count s = 0 -> s = "".
Proof.
  intros Hs. destruct s as [|c s]; [done|]. exfalso. revert Hs.
  unfold rune_count, runes. rewrite length_fmap.
  unfold bytes_of. simpl. repeat case_match; simpl; lia.
Qed.

End Utf8.

(** ** Strings and runes *)

Module Strs.
Import Utf8.

(** [unicode.IsSpace]: the White_Space property. *)
Definition is_space (r : Z) : bool :=
  ((9 <=? r) && (r <=? 13)) || (r =? 0x20) || (r =? 0x85) || (r =? 0xA0)
  || (r =? 0x1680) || ((0x2000 <=? r) && (r <=? 0x200A)) || (r =? 0x2028)
  || (r =? 0x2029) || (r =? 0x202F) || (r =? 0x205F) || (r =? 0x3000).

(** [unicode.IsControl]: category Cc. *)
Definition is_control (r : Z) : bool :=
  ((0 <=? r) && (r <=? 0x1F)) || ((0x7F <=? r) && (r <=? 0x9F)).

Fixpoint drop_while {A} (p : A -> bool) (l : list A) : list A :=
  match l with
  | [] => []
  | x :: l' => if p x then drop_while p l' else l
  end.

(** Cut from both ends what satisfies the test. *)
Definition trim {A} (p : A -> bool) (l : list A) : list A :=
  reverse (drop_while p (reverse (drop_while p l))).

(** [strings.TrimSpace].  Trimming from the right decodes backwards in Go; as
    UTF-8 is self-synchronising the runes it meets are the forward ones. *)
Definition TrimSpace (s : string) : string :=
  string_of_bytes (concat (trim (fun c => is_space c.1) (chunks (bytes_of s))).*2).

(** [strings.ToUpper].  [unicode.ToUpper] is ASCII arithmetic below 0x80 and a
    generated Unicode table above; the table is a parameter. *)
Definition upper_rune (table : Z -> Z) (r : Z) : Z :=
  if r <? 0x80 then (if (0x61 <=? r) && (r <=? 0x7A) then r - 0x20 else r) else table r.
Definition ToUpper (table : Z -> Z) (s : string) : string :=
  string_of_runes (upper_rune table <$> runes s).

(** [strings.Split] by a one-byte separator: never empty. *)
Fixpoint Split (sep : ascii) (s : string) : list string :=
  match s with
  | EmptyString => [EmptyString]
  | String c s' =>
    if Ascii.eqb c sep then EmptyString :: Split sep s'
    else match Split sep s' with
         | [] => [String c EmptyString]
         | x :: xs => String c x :: xs
         end
  end.

(** [strings.CutPrefix] *)
Fixpoint CutPrefix (p s : string) : option string :=
  match p, s with
  | EmptyString, _ => Some s
  | String a p', String b s' => if Ascii.eqb a b then CutPrefix p' s' else None
  | String _ _, EmptyString => None
  end.

Fixpoint str_forallb (p : ascii -> bool) (s : string) : bool :=
  match s with
  | EmptyString => true
  | String c s' => p c && str_forallb p s'
  end.

(** [strings.Compare] / [<] on strings: bytewise. *)
Definition str_ltb (a b : string) : bool :=
  match String.compare a b with Lt => true | _ => false end.

(** *** Facts *)

Lemma CutPrefix_Some p s r : CutPrefix p s = Some r <-> s = p +:+ r.
Proof.
  revert s r. induction p as [|a p IH]; intros s r; simpl.
  - split; [by intros [= ->]|by intros ->].
  - destruct s as [|b s]; [done|]. destruct (Ascii.eqb_spec a b) as [->|Hne].
    + rewrite IH. split; [by intros ->|by intros [= ->]].
    + split; [done|intros [= ]; congruence].
Qed.

Lemma Split_none sep s :
  str_forallb (fun c => negb (Ascii.eqb c sep)) s = true -> Split sep s = [s].
Proof.
  induction s as [|c s IH]; simpl; [done|]. intros [Hc Hs]%andb_true_iff.
  apply negb_true_iff in Hc. by rewrite Hc, IH.
Qed.

Lemma Split_app sep a b :
  str_forallb (fun c => negb (Ascii.eqb c sep)) a = true ->
  Split sep (a +:+ String sep b) = a :: Split sep b.
Proof.
  induction a as [|c a IH]; simpl.
  - intros _. by rewrite Ascii.eqb_refl.
  - intros [Hc Ha]%andb_true_iff. apply negb_true_iff in Hc. by rewrite Hc, IH.
Qed.

(** Joining the pieces with the separator gives the string back. *)
Fixpoint join (sep : ascii) (l : list string) : string :=
  match l with
  | [] => EmptyString
  | [x] => x
  | x :: l' => x +:+ String sep (join sep l')
  end.

Lemma Split_nonempty sep s : Split sep s <> [].
Proof. destruct s; simpl; [done|]. repeat case_match; done. Qed.

Lemma join_cons sep x l : l <> [] -> join sep (x :: l) = x +:+ String sep (join sep l).
Proof. by destruct l. Qed.

Lemma join_Split sep s : join sep (Split sep s) = s.
Proof.
  induction s as [|c s IH]; [done|]. simpl.
  destruct (Ascii.eqb_spec c sep) as [->|Hne].
  - rewrite join_cons by apply Split_nonempty. by rewrite IH.
  - pose proof (Split_nonempty sep s). destruct (Split sep s) as [|x xs]; [done|].
    rewrite <- IH. by destruct xs.
Qed.

Lemma str_forallb_app p a b : str_forallb p (a +:+ b) = str_forallb p a && str_forallb p b.
Proof. induction a as [|c a IH]; [done|]. rewrite str_app_cons. cbn. by rewrite IH, andb_assoc. Qed.

Lemma str_forallb_list p (l : list ascii) :
  str_forallb p (String.string_of_list_ascii l) = forallb p l.
Proof. induction l as [|c l IH]; [done|]. cbn. by rewrite IH. Qed.

(** Splitting undoes joining when no piece holds the separator. *)
Lemma Split_join sep l :
  l <> [] -> Forall (fun s => str_forallb (fun c => negb (Ascii.eqb c sep)) s = true) l ->
  Split sep (join sep l) = l.
Proof.
  intros Hne Hl. induction Hl as [|x l Hx Hl IH]; [done|]. destruct l as [|y l].
  { by apply Split_none. }
  rewrite join_cons by done. by rewrite Split_app, IH.
Qed.

Lemma str_forallb_impl (p q : ascii -> bool) s :
  (forall c, p c = true -> q c = true) -> str_forallb p s = true -> str_forallb q s = true.
Proof.
  intros Hpq. induction s as [|c s IH]; simpl; [done|].
  intros [Hc Hs]%andb_true_iff. apply andb_true_iff. auto.
Qed.

Lemma drop_while_false {A} (p : A -> bool) l :
  Forall (fun x => p x = false) l -> drop_while p l = l.
Proof. destruct 1 as [|x l Hx ?]; simpl; [done|]. by rewrite Hx. Qed.

Lemma trim_false {A} (p : A -> bool) l : Forall (fun x => p x = false) l -> trim p l = l.
Proof.
  intros Hl. unfold trim.
  rewrite (drop_while_false p l), drop_while_false, reverse_involutive; try done.
  by apply Forall_reverse.
Qed.

Lemma chunks_ascii l : Forall (fun b => 0 <= b < 0x80) l -> chunks l = (fun b => (b, [b])) <$> l.
Proof.
  induction 1 as [|b l Hb Hl IH]; simpl; [done|].
  destruct (b <? 0x80) eqn:?; bool_to_prop; [|lia]. by rewrite IH.
Qed.

Lemma concat_singletons (l : list Z) : concat ((fun b => [b]) <$> l) = l.
Proof. induction l as [|x l IH]; simpl; [done|]. by f_equal. Qed.

Lemma TrimSpace_ascii s :
  Forall (fun b => 0 <= b < 0x80 /\ is_space b = false) (bytes_of s) -> TrimSpace s = s.
Proof.
  intros Hs. unfold TrimSpace. rewrite chunks_ascii.
  - rewrite trim_false.
    + rewrite <- list_fmap_compose. unfold compose. simpl.
      by rewrite concat_singletons, string_of_bytes_of.
    + apply Forall_fmap. eapply Forall_impl; [exact Hs|]. by intros b [_ ?].
  - eapply Forall_impl; [exact Hs|]. by intros b [? _].
Qed.

Lemma runes_ascii s : Forall (fun b => 0 <= b < 0x80) (bytes_of s) -> runes s = bytes_of s.
Proof.
  intros Hs. unfold runes. rewrite chunks_ascii by done.
  rewrite <- list_fmap_compose. unfold compose. simpl. apply list_fmap_id.
Qed.

Lemma ToUpper_ascii table s :
  Forall (fun b => 0 <= b < 0x80 /\ upper_rune table b = b) (bytes_of s) ->
  ToUpper table s = s.
Proof.
  intros Hs. unfold ToUpper. rewrite runes_ascii.
  - unfold string_of_runes. rewrite <- (string_of_bytes_of s) at 2. f_equal.
    induction Hs as [|b l [Hb Hu] Hl IH]; [done|]. cbn. rewrite Hu.
    rewrite encode_val by (unfold valid_rune; lia).
    destruct (b <? 0x80) eqn:?; bool_to_prop; [|lia]. simpl. f_equal. apply IH.
  - eapply Forall_impl; [exact Hs|]. by intros b [? _].
Qed.
(** [strings.HasPrefix] and [strings.Contains]. *)
Definition HasPrefix (prefix s : string) : bool := bool_decide (is_Some (CutPrefix prefix s)).
Fixpoint Contains (sub s : string) : bool :=
  HasPrefix sub s || match s with EmptyString => false | String _ s' => Contains sub s' end.

Lemma HasPrefix_spec p s : HasPrefix p s = true <-> exists r, s = p +:+ r.
Proof.
  unfold HasPrefix. rewrite bool_decide_eq_true. split.
  - intros [r Hr%CutPrefix_Some]. by exists r.
  - intros [r Hr]. exists r. by apply CutPrefix_Some.
Qed.

Lemma Contains_spec sub s : Contains sub s = true <-> exists a b, s = a +:+ (sub +:+ b).
Proof.
  induction s as [|c s IH]; cbn; rewrite orb_true_iff, HasPrefix_spec.
  - split; [intros [[r ->]|]; [by exists "", r|done]|]. intros (a & b & Hs). left.
    destruct a; [by exists b|done].
  - rewrite IH. split; [intros [[r ->]|(a & b & ->)]; [by exists "", r|by exists (String c a), b]|].
    intros ([|c' a] & b & Hs); [left; by exists b|]. right. injection Hs as -> ->. by exists a, b.
Qed.

(** [strings.HasSuffix] and [strings.TrimSuffix]. *)
Definition HasSuffix (suffix s : string) : bool :=
  (slen suffix <=? slen s)
  && (String.substring (String.length s - String.length suffix) (String.length suffix) s =s? suffix).
Definition TrimSuffix (suffix s : string) : string :=
  if HasSuffix suffix s then String.substring 0 (String.length s - String.length suffix) s else s.

End Strs.

(** ** Decimal integers *)

Module Strconv.
Definition digit_char (d : Z) : ascii := Ascii.ascii_of_N (Z.to_N (48 + d)).
Definition char_digit (c : ascii) : option Z :=
  let n := Z.of_N (Ascii.N_of_ascii c) in
  if (48 <=? n) && (n <=? 57) then Some (n - 48) else None.

(** Least significant digit last; [fuel] bounds the number of digits. *)
Fixpoint format_digits (fuel : nat) (n : Z) (acc : string) : string :=
  match fuel with
  | O => acc
  | S f =>
    let acc := String (digit_char (n mod 10)) acc in
    if n <? 10 then acc else format_digits f (n / 10) acc
  end.

(** [strconv.Itoa]: an int64 has at most 19 digits. *)
Definition Itoa (z : Z) : string :=
  if z <? 0 then String "-" (format_digits 20 (- z) "") else format_digits 20 z "".

Fixpoint parse_digits (s : string) (acc : Z) : option Z :=
  match s with
  | EmptyString => Some acc
  | String c s' =>
    match char_digit c with
    | Some d => parse_digits s' (acc * 10 + d)
    | None => None
    end
  end.

(** [strconv.Atoi]: an optional sign, one or more digits, in the int64 range. *)
Definition Atoi (s : string) : option Z :=
  let body (s : string) := match s with EmptyString => None | _ => parse_digits s 0 end in
  let v :=
    match s with
    | String c s' =>
      if Ascii.eqb c "+" then body s'
      else if Ascii.eqb c "-" then Z.opp <$> body s'
      else body s
    | EmptyString => None
    end in
  match v with
  | Some z => if (- 2 ^ 63 <=? z) && (z <? 2 ^ 63) then Some z else None
  | None => None
  end.

(** [strconv.ParseInt(s, 10, bits)] *)
Definition ParseInt (bits : Z) (s : string) : option Z :=
  n ← Atoi s; if (- 2 ^ (bits - 1) <=? n) && (n <? 2 ^ (bits - 1)) then Some n else None.

Lemma char_digit_char d : 0 <= d < 10 -> char_digit (digit_char d) = Some d.
Proof.
  intros Hd. unfold char_digit, digit_char.
  rewrite Ascii.N_ascii_embedding by lia. rewrite Z2N.id by lia.
  destruct (_ && _) eqn:?; [f_equal; lia|].
  apply andb_false_iff in Heqb. destruct Heqb; bool_to_prop; lia.
Qed.

Lemma parse_digits_app s1 s2 a b :
  parse_digits s1 a = Some b -> parse_digits (s1 +:+ s2) a = parse_digits s2 b.
Proof.
  revert a. induction s1 as [|c s1 IH]; simpl; intros a; [by intros [= ->]|].
  destruct (char_digit c); [|done]. apply IH.
Qed.

Lemma format_digits_spec fuel n acc :
  0 <= n < 10 ^ Z.of_nat fuel -> (0 < fuel)%nat ->
  exists ds, format_digits fuel n acc = ds +:+ acc /\ ds <> ""
    /\ (forall a, parse_digits ds a = Some (a * 10 ^ slen ds + n))
    /\ (forall c s, ds = String c s -> exists d, 0 <= d < 10 /\ c = digit_char d).
Proof.
  revert n acc. induction fuel as [|fuel IH]; intros n acc Hn Hf; [lia|].
  assert (0 <= n mod 10 < 10) as Hd by lia. cbn [format_digits].
  destruct (n <? 10) eqn:H10; bool_to_prop.
  - exists (String (digit_char (n mod 10)) ""). repeat split; [done| |].
    + intros a. cbn [parse_digits]. rewrite char_digit_char by done. f_equal.
      change (10 ^ slen _) with 10. lia.
    + intros c s [= <- <-]. eauto.
  - rewrite Nat2Z.inj_succ, Z.pow_succ_r in Hn by lia.
    assert (0 < Z.of_nat fuel).
    { destruct fuel; [|lia]. simpl in Hn. lia. }
    destruct (IH (n / 10) (String (digit_char (n mod 10)) acc)) as (ds & -> & Hne & Hp & Hc);
      [lia|lia|].
    exists (ds +:+ String (digit_char (n mod 10)) ""). repeat split.
    + by rewrite str_app_assoc.
    + by destruct ds.
    + intros a. erewrite parse_digits_app by apply Hp. cbn.
      rewrite char_digit_char by done. f_equal.
      unfold slen. rewrite str_length_app. cbn [String.length].
      rewrite Nat2Z.inj_add, Z.pow_add_r by lia. change (10 ^ Z.of_nat 1) with 10.
      pose proof (Z.div_mod n 10). lia.
    + intros c s Hds. destruct ds as [|c' ds]; [done|].
      rewrite str_app_cons in Hds. injection Hds as -> _. eauto.
Qed.

Lemma digit_not_sign d : 0 <= d < 10 -> Ascii.eqb (digit_char d) "+" = false
  /\ Ascii.eqb (digit_char d) "-" = false.
Proof.
  intros Hd.
  assert (d = 0 \/ d = 1 \/ d = 2 \/ d = 3 \/ d = 4 \/ d = 5 \/ d = 6 \/ d = 7 \/ d = 8
    \/ d = 9) as Hc by lia.
  by repeat destruct Hc as [->|Hc]; [..|subst].
Qed.

(** What [Itoa] prints is digits, after a minus sign if negative. *)
Definition int_char (c : ascii) : bool :=
  match char_digit c with Some _ => true | None => Ascii.eqb c "-" end.

Lemma Itoa_chars z : Strs.str_forallb int_char (Itoa z) = true.
Proof.
  assert (forall fuel n acc, 0 <= n -> Strs.str_forallb int_char acc = true ->
    Strs.str_forallb int_char (format_digits fuel n acc) = true) as Hd.
  { induction fuel as [|fuel IH]; intros n acc Hn Ha; [done|]. cbn [format_digits].
    assert (Strs.str_forallb int_char (String (digit_char (n mod 10)) acc) = true) as Hc.
    { cbn [Strs.str_forallb]. unfold int_char at 1. rewrite char_digit_char by lia. done. }
    destruct (n <? 10); [done|]. apply IH; [lia|done]. }
  unfold Itoa. destruct (z <? 0) eqn:Hz; bool_to_prop.
  - cbn [Strs.str_forallb]. by rewrite Hd by (done || lia).
  - by rewrite Hd by (done || lia).
Qed.

(** Printing then parsing an int64 gives it back. *)
Lemma Atoi_Itoa z : - 2 ^ 63 <= z < 2 ^ 63 -> Atoi (Itoa z) = Some z.
Proof.
  intros Hz. unfold Itoa, Atoi.
  assert (forall x, 0 <= x <= 2 ^ 63 -> 0 <= x < 10 ^ Z.of_nat 20) as Hb.
  { intros x Hx. split; [lia|]. eapply Z.le_lt_trans; [apply Hx|]. vm_compute. done. }
  destruct (z <? 0) eqn:Hs; bool_to_prop.
  - destruct (format_digits_spec 20 (- z) "") as (ds & -> & Hne & Hp & _);
      [apply Hb; lia|lia|].
    rewrite str_app_nil_r. simpl. destruct ds as [|c ds]; [done|].
    rewrite Hp. simpl. rewrite Z.mul_0_l, Z.add_0_l, Z.opp_involutive.
    destruct (_ && _) eqn:Hr; [done|]. apply andb_false_iff in Hr.
    destruct Hr; bool_to_prop; lia.
  - destruct (format_digits_spec 20 z "") as (ds & -> & Hne & Hp & Hc);
      [apply Hb; lia|lia|].
    rewrite str_app_nil_r. destruct ds as [|c ds]; [done|].
    destruct (Hc c ds eq_refl) as (d & Hd & ->).
    destruct (digit_not_sign d Hd) as [-> ->]. rewrite Hp, Z.mul_0_l, Z.add_0_l.
    destruct (_ && _) eqn:Hr; [done|]. apply andb_false_iff in Hr.
    destruct Hr; bool_to_prop; lia.
Qed.
End Strconv.

(** ** float64 *)

Module F64.
(** binary64: 53 bits of mantissa, exponents below 1024.  Every operation rounds
    to nearest even, as Go's [float64] arithmetic does. *)
Abbreviation f64 := spec_float.
Definition prec : Z := 53.
Definition emax : Z := 1024.

Definition of_Z (z : Z) : f64 := binary_normalize prec emax z 0 false.
Definition add : f64 -> f64 -> f64 := SFadd prec emax.
Definition sub : f64 -> f64 -> f64 := SFsub prec emax.
Definition mul : f64 -> f64 -> f64 := SFmul prec emax.
Definition div : f64 -> f64 -> f64 := SFdiv prec emax.
Definition abs : f64 -> f64 := SFabs.
Definition ltb : f64 -> f64 -> bool := SFltb.
Definition leb : f64 -> f64 -> bool := SFleb.
Definition eqb : f64 -> f64 -> bool := SFeqb.
Definition zero : f64 := S754_zero false.

(** The constant [m * 10 ^ e] of the source, rounded once. *)
Definition of_dec (m e : Z) : f64 :=
  if 0 <=? e then of_Z (m * 10 ^ e)
  else match m with
       | Z0 => zero
       | Zpos p => SFdiv prec emax (S754_finite false p 0) (S754_finite false (Z.to_pos (10 ^ (- e))) 0)
       | Zneg p => SFdiv prec emax (S754_finite true p 0) (S754_finite false (Z.to_pos (10 ^ (- e))) 0)
       end.

Definition is_nan (x : f64) : bool := match x with S754_nan => true | _ => false end.

(** The builtin [min] on floats. *)
Definition min (x y : f64) : f64 :=
  if is_nan x || is_nan y then S754_nan
  else if ltb y x then y
  else if ltb x y then x
  else match y with S754_zero true => y | _ => x end.

(** [math.Round]: to the nearest integer, halves away from zero. *)
Definition round (x : f64) : f64 :=
  match x with
  | S754_finite s m e =>
    if 0 <=? e then x
    else
      let q := (2 * Zpos m + 2 ^ (- e)) / 2 ^ (1 - e) in
      match q with
      | Z0 => S754_zero s
      | _ => of_Z (if s then - q else q)
      end
  | _ => x
  end.

#[export] Instance f64_eq_dec : EqDecision f64.
Proof. solve_decision. Defined.
End F64.

Example f64_third : F64.ltb (F64.div (F64.of_Z 1) (F64.of_Z 3)) (F64.of_dec 34 (-2)) = true.
Proof. reflexivity. Qed.

Example f64_tenths : F64.eqb (F64.add (F64.of_dec 1 (-1)) (F64.of_dec 2 (-1))) (F64.of_dec 3 (-1)) = false.
Proof. reflexivity. Qed.

Example f64_round : F64.round (F64.of_dec (-25) (-1)) = F64.of_Z (-3).
Proof. reflexivity. Qed.

(** * crypto/sha256: the digest the session and email tokens are stored under

    FIPS 180-4, executable: words are integers below [2^32], a message is a list of
    bytes.  The examples are the published test vectors. *)

Module Sha256.

Definition w32 (z : Z) : Z := z mod 2 ^ 32.
Definition add32 (a b : Z) : Z := w32 (a + b).
Definition rotr (n x : Z) : Z := Z.lor (Z.shiftr x n) (w32 (Z.shiftl x (32 - n))).
Definition not32 (x : Z) : Z := 2 ^ 32 - 1 - x.

Definition bsig0 (x : Z) : Z := Z.lxor (Z.lxor (rotr 2 x) (rotr 13 x)) (rotr 22 x).
Definition bsig1 (x : Z) : Z := Z.lxor (Z.lxor (rotr 6 x) (rotr 11 x)) (rotr 25 x).
Definition ssig0 (x : Z) : Z := Z.lxor (Z.lxor (rotr 7 x) (rotr 18 x)) (Z.shiftr x 3).
Definition ssig1 (x : Z) : Z := Z.lxor (Z.lxor (rotr 17 x) (rotr 19 x)) (Z.shiftr x 10).
Definition choose (x y z : Z) : Z := Z.lxor (Z.land x y) (Z.land (not32 x) z).
Definition majority (x y z : Z) : Z := Z.lxor (Z.lxor (Z.land x y) (Z.land x z)) (Z.land y z).

(** The standard's constants: the first 32 bits of the fractional parts of the square
    roots of the first eight primes, and of the cube roots of the first sixty-four. *)
Definition prime (n : Z) : bool :=
  forallb (fun d => negb (n mod d =? 0)) (map (fun d => 2 + Z.of_nat d) (seq 0 (Z.to_nat n - 2))).
Definition primes : list Z :=
  Eval vm_compute in List.filter prime (map (fun n => 2 + Z.of_nat n) (seq 0 310)).

(** The largest [r] below [lo + 2 ^ bits] with [r ^ 3 <= n], if [lo] is such. *)
Fixpoint cbrt_from (bits : nat) (lo n : Z) : Z :=
  match bits with
  | O => lo
  | S bits =>
    let mid := lo + 2 ^ Z.of_nat bits in
    cbrt_from bits (if mid ^ 3 <=? n then mid else lo) n
  end.

Definition initial : list Z := Eval vm_compute in map (fun p => w32 (Z.sqrt (p * 2 ^ 64))) (take 8 primes).
Definition constants : list Z := Eval vm_compute in map (fun p => w32 (cbrt_from 36 0 (p * 2 ^ 96))) primes.

(** Big-endian bytes of an [n]-byte number, and back. *)
Fixpoint be_bytes (n : nat) (z : Z) : list Z :=
  match n with O => [] | S n => be_bytes n (z / 256) ++ [z mod 256] end.

Fixpoint words (bs : list Z) : list Z :=
  match bs with
  | a :: b :: c :: d :: rest => (((a * 256 + b) * 256 + c) * 256 + d) :: words rest
  | _ => []
  end.

(** Padding: a one bit, zeros to 56 modulo 64, the length in bits on eight bytes. *)
Definition padded (bs : list Z) : list Z :=
  bs ++ 0x80 :: replicate (Z.to_nat ((55 - Z.of_nat (length bs)) mod 64)) 0
     ++ be_bytes 8 (8 * Z.of_nat (length bs)).

(** The message schedule: [ws] are the words so far, newest first. *)
Fixpoint schedule (n : nat) (ws : list Z) : list Z :=
  match n with
  | O => ws
  | S n =>
    let at_ i := nth i ws 0 in
    schedule n (w32 (ssig1 (at_ 1%nat) + at_ 6%nat + ssig0 (at_ 14%nat) + at_ 15%nat) :: ws)
  end.

Definition round (st : list Z) (kw : Z * Z) : list Z :=
  match st with
  | [a; b; c; d; e; f; g; h] =>
    let t1 := w32 (h + bsig1 e + choose e f g + kw.1 + kw.2) in
    let t2 := w32 (bsig0 a + majority a b c) in
    [add32 t1 t2; a; b; c; add32 d t1; e; f; g]
  | _ => st
  end.

Definition compress (st block : list Z) : list Z :=
  let ws := reverse (schedule 48 (reverse block)) in
  zip_with add32 st (foldl round st (zip constants ws)).

Fixpoint blocks (fuel : nat) (ws : list Z) (st : list Z) : list Z :=
  match fuel with
  | O => st
  | S fuel => match ws with [] => st | _ => blocks fuel (drop 16 ws) (compress st (take 16 ws)) end
  end.

Definition digest (bs : list Z) : list Z :=
  let ws := words (padded bs) in
  blocks (length ws) ws initial ≫= be_bytes 4.

(** [sha256.Sum256] on the bytes of a string. *)
Definition Sum256 (s : string) : string := string_of_bytes (digest (bytes_of s)).

End Sha256.

Definition digest_hex (s : string) : string :=
  let digit n := default "0"%char (String.get (Z.to_nat n) "0123456789abcdef") in
  foldr (fun b acc => String (digit (b / 16)) (String (digit (b mod 16)) acc)) "" (bytes_of s).

Example sha256_abc :
  digest_hex (Sha256.Sum256 "abc") = "ba7816bf8f01cfea414140de5dae2223b00361a396177a9cb410ff61f20015ad".
Proof. vm_compute. reflexivity. Qed.

Example sha256_two_blocks :
  digest_hex (Sha256.Sum256 "abcdbcdecdefdefgefghfghighijhijkijkljklmklmnlmnomnopnopq")
  = "248d6a61d20638b8e5c026930c3e6039a33ce45964ff2167f6ecedd419db06c1".
Proof. vm_compute. reflexivity. Qed.

Lemma be_bytes_length n z : length (Sha256.be_bytes n z) = n.
Proof. revert z. induction n as [|n IH]; intros z; [done|]. cbn. rewrite length_app, IH. cbn. lia. Qed.

(** * Go's [time]: durations and RFC 3339 instants, as text

    [time.ParseDuration] and [time.Parse] with the layout [time.RFC3339], on bytes.  An
    instant is a count of nanoseconds since 1970; a duration fits an int64. *)

Definition digit (c : Z) : bool := (48 <=? c) && (c <=? 57).

(** ** [ParseDuration] *)

Module Duration.

(** The leading digits, with what follows; [None] past the range of an int64. *)
Fixpoint leadingInt (s : list Z) (x : Z) : option (Z * list Z) :=
  match s with
  | c :: t =>
    if digit c then
      if 2 ^ 63 / 10 <? x then None
      else let x := x * 10 + (c - 48) in if 2 ^ 63 <? x then None else leadingInt t x
    else Some (x, s)
  | [] => Some (x, s)
  end.

(** Digits of a fraction and ten to their number; those past the range are dropped. *)
Fixpoint leadingFraction (s : list Z) (x scale : Z) (overflow : bool) : Z * Z * list Z :=
  match s with
  | c :: t =>
    if digit c then
      if overflow || ((2 ^ 63 - 1) / 10 <? x) then leadingFraction t x scale true
      else
        let y := x * 10 + (c - 48) in
        if 2 ^ 63 <? y then leadingFraction t x scale true
        else leadingFraction t y (scale * 10) false
    else (x, scale, s)
  | [] => (x, scale, s)
  end.

Fixpoint span_unit (s : list Z) : list Z * list Z :=
  match s with
  | c :: t => if (c =? 46) || digit c then ([], s) else let '(u, r) := span_unit t in (c :: u, r)
  | [] => ([], [])
  end.

Definition unitMap (u : list Z) : option Z :=
  let named s := bool_decide (u = bytes_of s) in
  if named "ns" then Some 1
  else if named "us" || bool_decide (u = [0xC2; 0xB5; 115]) || bool_decide (u = [0xCE; 0xBC; 115]) then Some 1000
  else if named "ms" then Some 1000000
  else if named "s" then Some 1000000000
  else if named "m" then Some 60000000000
  else if named "h" then Some 3600000000000
  else None.

(** The integer part of a float64. *)
Definition truncate (x : F64.f64) : Z :=
  match x with
  | SpecFloat.S754_finite s m e =>
    let z := if 0 <=? e then Z.pos m * 2 ^ e else Z.pos m / 2 ^ (- e) in if s then - z else z
  | _ => 0
  end.

(** [float64(f) * (float64(unit) / scale)]; the powers of ten the scale can be are exact
    in binary64 up to the twenty-second. *)
Definition fraction (f unit scale : Z) : Z :=
  truncate (F64.mul (F64.of_Z f) (F64.div (F64.of_Z unit) (F64.of_Z scale))).

(** What is left of the text, at most [fuel] number-and-unit pairs of it. *)
Fixpoint terms (fuel : nat) (s : list Z) (d : Z) : option Z :=
  match fuel, s with
  | _, [] => Some d
  | O, _ => None
  | S fuel, c :: _ =>
    if negb ((c =? 46) || digit c) then None
    else
      match leadingInt s 0 with
      | None => None
      | Some (v, s1) =>
        let pre := negb (bool_decide (length s1 = length s)) in
        let '(f, scale, post, s2) :=
          match s1 with
          | c1 :: t1 =>
            if c1 =? 46
            then let '(f, scale, r) := leadingFraction t1 0 1 false in
                 (f, scale, negb (bool_decide (length r = length t1)), r)
            else (0, 1, false, s1)
          | [] => (0, 1, false, s1)
          end in
        if negb pre && negb post then None
        else
          let '(u, s3) := span_unit s2 in
          match u, unitMap u with
          | _ :: _, Some unit =>
            if 2 ^ 63 / unit <? v then None
            else
              let v := v * unit + (if 0 <? f then fraction f unit scale else 0) in
              if 2 ^ 63 <? v then None
              else let d := d + v in if 2 ^ 63 <? d then None else terms fuel s3 d
          | _, _ => None
          end
      end
  end.

Definition ParseDuration (text : string) : option Z :=
  let s := bytes_of text in
  let '(neg, s) := match s with
                   | c :: t => if (c =? 45) || (c =? 43) then (c =? 45, t) else (false, s)
                   | [] => (false, [])
                   end in
  if bool_decide (s = [48]) then Some 0
  else if bool_decide (s = []) then None
  else
    match terms (length s) s 0 with
    | None => None
    | Some d => if neg then Some (- d) else if 2 ^ 63 - 1 <? d then None else Some d
    end.

Example hours : ParseDuration "72h" = Some (72 * 3600000000000).
Proof. vm_compute. reflexivity. Qed.
Example mixed : ParseDuration "-1h30.5m" = Some (- 5430000000000).
Proof. vm_compute. reflexivity. Qed.
Example unitless : ParseDuration "72" = None.
Proof. vm_compute. reflexivity. Qed.
End Duration.

(** ** RFC 3339 *)

Module Calendar.

Definition leap (y : Z) : bool := (y mod 4 =? 0) && (negb (y mod 100 =? 0) || (y mod 400 =? 0)).

Definition daysIn (m y : Z) : Z :=
  if m =? 2 then if leap y then 29 else 28
  else if (m =? 4) || (m =? 6) || (m =? 9) || (m =? 11) then 30 else 31.

Definition daysBefore (m y : Z) : Z :=
  foldr Z.add 0 (map (fun k => daysIn (Z.of_nat k) y) (seq 1 (Z.to_nat m - 1))).

(** Days from 1970-01-01 to a date. *)
Definition days (y m d : Z) : Z :=
  let leaps n := (n - 1) / 4 - (n - 1) / 100 + (n - 1) / 400 in
  365 * (y - 1970) + (leaps y - leaps 1970) + daysBefore m y + (d - 1).

Definition instant (y mo d h mi s ns offset : Z) : Z :=
  ((((days y mo d * 24 + h) * 60 + mi) * 60 + s) - offset) * 1000000000 + ns.

(** [getnum]: two digits, or one where the layout does not fix them. *)
Definition getnum (fixed : bool) (s : list Z) : option (Z * list Z) :=
  match s with
  | a :: b :: t =>
    if negb (digit a) then None
    else if digit b then Some ((a - 48) * 10 + (b - 48), t)
    else if fixed then None else Some (a - 48, b :: t)
  | [a] => if digit a && negb fixed then Some (a - 48, []) else None
  | [] => None
  end.

Definition skip1 (c : Z) (s : list Z) : option (list Z) :=
  match s with a :: t => if a =? c then Some t else None | [] => None end.

Definition within (lo hi : Z) (r : option (Z * list Z)) : option (Z * list Z) :=
  '(v, s) ← r; if (lo <=? v) && (v <=? hi) then Some (v, s) else None.

(** A fraction of a second may follow although the layout has none; digits past the
    ninth are dropped. *)
Fixpoint take_digits (s : list Z) : list Z * list Z :=
  match s with
  | c :: t => if digit c then let '(ds, r) := take_digits t in (c :: ds, r) else ([], s)
  | [] => ([], [])
  end.

Definition fractional (s : list Z) : Z * list Z :=
  match s with
  | c :: d :: _ =>
    if ((c =? 46) || (c =? 44)) && digit d then
      let '(ds, r) := take_digits (tail s) in
      let ds := take 9 ds in
      (foldl (fun x c => x * 10 + (c - 48)) 0 ds * 10 ^ (9 - Z.of_nat (length ds)), r)
    else (0, s)
  | _ => (0, s)
  end.

(** [Z], or a sign, hours and minutes; 24 hours and 60 minutes are let through. *)
Definition zone (s : list Z) : option (Z * list Z) :=
  match s with
  | 90 :: t => Some (0, t)
  | sign :: h1 :: h2 :: 58 :: m1 :: m2 :: t =>
    '(h, _) ← within 0 24 (getnum true [h1; h2]);
    '(m, _) ← within 0 60 (getnum true [m1; m2]);
    let off := (h * 60 + m) * 60 in
    if sign =? 43 then Some (off, t) else if sign =? 45 then Some (- off, t) else None
  | _ => None
  end.

Definition year (s : list Z) : option (Z * list Z) :=
  match s with
  | a :: b :: c :: d :: t =>
    if digit a && digit b && digit c && digit d
    then Some ((((a - 48) * 10 + (b - 48)) * 10 + (c - 48)) * 10 + (d - 48), t) else None
  | _ => None
  end.

Definition ParseRFC3339 (text : string) : option Z :=
  '(y, s) ← year (bytes_of text);
  s ← skip1 45 s; '(mo, s) ← within 1 12 (getnum true s);
  s ← skip1 45 s; '(d, s) ← getnum true s;
  s ← skip1 84 s; '(h, s) ← within 0 23 (getnum false s);
  s ← skip1 58 s; '(mi, s) ← within 0 59 (getnum true s);
  s ← skip1 58 s; '(sec, s) ← within 0 59 (getnum true s);
  let '(ns, s) := fractional s in
  '(off, s) ← zone s;
  if bool_decide (s = []) && (1 <=? d) && (d <=? daysIn mo y)
  then Some (instant y mo d h mi sec ns off) else None.

Example epoch : ParseRFC3339 "1970-01-01T00:00:00Z" = Some 0.
Proof. reflexivity. Qed.
Example y2000 : ParseRFC3339 "2000-03-01T00:00:00+01:00" = Some ((951868800 - 3600) * 1000000000).
Proof. vm_compute. reflexivity. Qed.
Example no_such_day : ParseRFC3339 "2023-02-29T00:00:00Z" = None.
Proof. vm_compute. reflexivity. Qed.
End Calendar.
