(* ===== verification/Effects.v ===== *)
(** * Programs over effects

    A handler is a tree: a result, or an effect and what to do with each answer to it.
    Three readings of one program: run from start to end against an interpreter
    ([run]); everything that holds on every path, whatever the answers ([paths]); and
    one of many programs in progress over a shared world, an effect at a time
    ([pool_step]). *)

From S2P Require Import Prelude.

(** ** Programs *)

Section prog.
Context {E : Type -> Type}.

Inductive prog (A : Type) : Type :=
| Ret (a : A)
| Vis {X : Type} (e : E X) (k : X -> prog A).
#[global] Arguments Ret {A} a.
#[global] Arguments Vis {A X} e k.

Fixpoint bind {A B} (p : prog A) (f : A -> prog B) : prog B :=
  match p with
  | Ret a => f a
  | Vis e k => Vis e (fun x => bind (k x) f)
  end.

Definition trigger {X} (e : E X) : prog X := Vis e Ret.

(** ** Run to the end *)

Section run.
Context {W : Type}.

(** What an effect answers in a world, and the world after it. *)
Class Interp := { exec : forall {X}, E X -> W -> X * W }.

Context `{Interp}.

Fixpoint run {A} (p : prog A) (w : W) : A * W :=
  match p with
  | Ret a => (a, w)
  | Vis e k => let '(x, w) := exec e w in run (k x) w
  end.

Lemma run_bind {A B} (p : prog A) (f : A -> prog B) w :
  run (bind p f) w = let '(a, w1) := run p w in run (f a) w1.
Proof.
  revert w. induction p as [a|X e k IH]; intros w; cbn; [done|]. destruct (exec e w) as [x w1]. apply IH.
Qed.
End run.

(** ** Every path *)

(** An effect performed and its answer; histories are newest first. *)
Inductive obs : Type :=
| Obs {X : Type} (e : E X) (x : X).

(** On every path of [p], every effect satisfies [P] given what came before it, and the
    result satisfies [Q]. *)
Fixpoint paths {A} (P : forall X, E X -> list obs -> Prop) (Q : A -> list obs -> Prop)
    (h : list obs) (p : prog A) : Prop :=
  match p with
  | Ret a => Q a h
  | Vis e k => P _ e h /\ forall x, paths P Q (Obs e x :: h) (k x)
  end.

Lemma paths_bind {A B} P Q h (p : prog A) (f : A -> prog B) :
  paths P (fun a h' => paths P Q h' (f a)) h p -> paths P Q h (bind p f).
Proof. revert h. induction p as [a|X e k IH]; intros h; [done|]. cbn. intros [HP Hk]. split; [done|]. intros x. by apply IH. Qed.

Lemma paths_impl {A} P (Q Q' : A -> list obs -> Prop) h (p : prog A) :
  paths P Q h p -> (forall a h', h `suffix_of` h' -> Q a h' -> Q' a h') -> paths P Q' h p.
Proof.
  revert h. induction p as [a|X e k IH]; intros h; cbn.
  - intros HQ HQ'. by apply HQ'.
  - intros [HP Hk] HQ'. split; [done|]. intros x. eapply IH; [apply Hk|].
    intros a h' Hs. apply HQ'. etrans; [|exact Hs]. by apply suffix_cons_r.
Qed.

Lemma paths_suffix {A} P (Q : A -> list obs -> Prop) h (p : prog A) :
  paths P Q h p -> paths P (fun a h' => h `suffix_of` h' /\ Q a h') h p.
Proof. intros Hp. eapply paths_impl; [exact Hp|]. done. Qed.

Lemma suffix_sub (h h' : list obs) : h `suffix_of` h' -> h ⊆ h'.
Proof. intros [k ->]. intros o Ho. apply elem_of_app. by right. Qed.

Lemma sub_cons (o : obs) h : h ⊆ o :: h.
Proof. intros x Hx. by right. Qed.

(** ** Many at once *)

(** Programs in progress over one world.  [arrives] says which may start, [performs]
    what an effect may do, [changes] what may happen besides; a program may stop at
    any point with the result [stopped]. *)
Section pool.
Context {W A : Type} (arrives : prog A -> Prop) (performs : forall X, E X -> W -> X -> W -> Prop)
  (changes : W -> W -> Prop) (stopped : A).

Definition pool : Type := W * list (prog A).

Inductive pool_step : pool -> pool -> Prop :=
| pool_arrive w ps p : arrives p -> pool_step (w, ps) (w, ps ++ [p])
| pool_effect w ps i X (e : E X) k x w' :
    ps !! i = Some (Vis e k) -> performs X e w x w' -> pool_step (w, ps) (w', <[i := k x]> ps)
| pool_stop w ps i : pool_step (w, ps) (w, <[i := Ret stopped]> ps)
| pool_change w w' ps : changes w w' -> pool_step (w, ps) (w', ps).

(** What every effect and every change keeps holds whatever the interleaving. *)
Lemma pool_invariant (I : W -> Prop) s s' :
  (forall X (e : E X) w x w', performs X e w x w' -> I w -> I w') ->
  (forall w w', changes w w' -> I w -> I w') ->
  I s.1 -> steps pool_step s s' -> I s'.1.
Proof.
  intros He Hc Hi Hs. revert Hi. induction Hs as [|s1 s2 s3 H12 _ IH]; [done|]. intros Hi. apply IH.
  destruct H12; cbn in *; eauto.
Qed.
End pool.

(** Which request takes the next step, and when one arrives or is cut off. *)
Section schedule.
Context {W A : Type} `{Interp W} (stopped : A).

Inductive move := Arrives (p : prog A) | Next (i : nat) | Stops (i : nat).

Definition play (m : move) (s : W * list (prog A)) : W * list (prog A) :=
  let '(w, ps) := s in
  match m with
  | Arrives p => (w, ps ++ [p])
  | Next i =>
    match ps !! i with
    | Some (Vis e k) => let '(x, w) := exec e w in (w, <[i := k x]> ps)
    | _ => s
    end
  | Stops i => (w, <[i := Ret stopped]> ps)
  end.

Definition plays (ms : list move) (s : W * list (prog A)) : W * list (prog A) := foldl (fun s m => play m s) s ms.

Definition nexts (i n : nat) : list move := replicate n (Next i).

Lemma plays_steps (arrives : prog A -> Prop) performs changes ms s :
  (forall p, Arrives p ∈ ms -> arrives p) ->
  (forall X (e : E X) w x w', exec e w = (x, w') -> performs X e w x w') ->
  steps (pool_step arrives performs changes stopped) s (plays ms s).
Proof.
  intros Ha Hp. revert s. induction ms as [|m ms IH]; intros [w ps]; [apply steps_refl|].
  assert (forall p, Arrives p ∈ ms -> arrives p) as Hms by (intros p Hin; apply Ha; by right).
  cbn [plays foldl]. destruct m as [p|i|i]; cbn [play].
  - eapply steps_step; [apply pool_arrive, Ha; left|by apply IH].
  - destruct (ps !! i) as [[a|X e k]|] eqn:Ei; [by apply IH| |by apply IH].
    destruct (exec e w) as [x w'] eqn:Ee. eapply steps_step; [eapply pool_effect; [exact Ei|by apply Hp]|by apply IH].
  - eapply steps_step; [apply pool_stop|by apply IH].
Qed.
End schedule.
End prog.

Arguments prog : clear implicits.
Arguments obs : clear implicits.
Arguments Interp : clear implicits.
Arguments pool : clear implicits.
Arguments move : clear implicits.

Notation "'let!' x := p 'in' q" := (bind p (fun x => q))
  (at level 200, x pattern, p at level 100, q at level 200) : typemore_scope.
Open Scope typemore_scope.
