(* ===== verification/Uuid.v ===== *)
(** * github.com/google/uuid, as the server uses it

    The package is not part of the repository: its type and the three functions the
    code calls are parameters ([Uuid]), and what the code relies on is a class of
    its own ([UuidLaws]).  [uuid16] is a concrete implementation that satisfies it. *)

From S2P Require Import Prelude GoStd.
From Stdlib Require Import Strings.Ascii Strings.Byte.

Open Scope Z_scope.

Class Uuid := {
  UUID : Type;
  UUID_eq :: EqDecision UUID;
  UUID_countable :: Countable UUID;
  uuid_Nil : UUID;
  uuid_Parse : string -> option UUID;
  uuid_String : UUID -> string }.

(** The characters of the canonical form: lower-case hexadecimal digits and dashes. *)
Definition uuid_char (c : ascii) : bool :=
  let n := N_of_ascii c in
  (((48 <=? n) && (n <=? 57)) || ((97 <=? n) && (n <=? 102)) || (n =? 45))%N.

(** Documented: [String] prints the canonical dashed form, which [Parse] reads. *)
Class UuidLaws `{Uuid} := {
  Parse_String id : uuid_Parse (uuid_String id) = Some id;
  String_chars id : Strs.str_forallb uuid_char (uuid_String id) = true }.

(** PostgreSQL's order of the [uuid] type: total, and only equal ids compare equal. *)
Class UuidOrder `{Uuid} := {
  uuid_key : UUID -> Z;
  uuid_key_inj :: Inj (=) (=) uuid_key }.

(** ** Sixteen bytes, two hexadecimal digits each *)

Definition hex_digit (n : N) : ascii := default "0"%char (String.get (N.to_nat n) "0123456789abcdef").

Definition nibble (c : ascii) : option N :=
  let n := N_of_ascii c in
  if ((48 <=? n) && (n <=? 57))%N then Some (n - 48)%N
  else if ((97 <=? n) && (n <=? 102))%N then Some (n - 87)%N
  else if ((65 <=? n) && (n <=? 70))%N then Some (n - 55)%N
  else None.

Definition hex_byte (b : byte) : list ascii :=
  [hex_digit (Byte.to_N b / 16); hex_digit (Byte.to_N b mod 16)].

Fixpoint unhex (l : list ascii) : option (list byte) :=
  match l with
  | [] => Some []
  | c1 :: c2 :: l =>
    match nibble c1, nibble c2, unhex l with
    | Some h, Some d, Some bs => (fun b => b :: bs) <$> Byte.of_N (16 * h + d)
    | _, _, _ => None
    end
  | _ => None
  end.

Definition is_uuid (l : list byte) : bool := (length l =? 16)%nat.

Definition uuid16 : Type := { l : list byte | is_uuid l = true }.

Lemma to_N_inj (l k : list byte) : Byte.to_N <$> l = Byte.to_N <$> k -> l = k.
Proof.
  revert k. induction l as [|b l IH]; intros [|c k] E; simplify_eq/=; [done|]. f_equal; [|by apply IH].
  assert (Some b = Some c) as [= ->]; [|done]. rewrite <- !Byte.of_to_N. congruence.
Qed.

#[export] Instance uuid16_eq : EqDecision uuid16.
Proof.
  intros [l Hl] [k Hk]. destruct (decide (Byte.to_N <$> l = Byte.to_N <$> k)) as [E|Hne].
  - left. apply to_N_inj in E as ->. by rewrite (proof_irrel Hl Hk).
  - right. intros [= ->]. by apply Hne.
Defined.

Definition mk16 (l : list byte) : option uuid16 :=
  match Bool.bool_dec (is_uuid l) true with left H => Some (exist _ l H) | right _ => None end.

Lemma mk16_eq l (H : is_uuid l = true) : mk16 l = Some (exist _ l H).
Proof. unfold mk16. destruct (Bool.bool_dec _ _) as [H'|]; [|done]. by rewrite (proof_irrel H H'). Qed.

(** Bytes from their numbers. *)
Fixpoint byte_list (l : list N) : option (list byte) :=
  match l with
  | [] => Some []
  | n :: l => match Byte.of_N n, byte_list l with
              | Some b, Some bs => Some (b :: bs)
              | _, _ => None
              end
  end.

Lemma byte_list_to_N l : byte_list (Byte.to_N <$> l) = Some l.
Proof. induction l as [|b l IH]; [done|]. cbn. by rewrite Byte.of_to_N, IH. Qed.

#[export] Instance uuid16_countable : Countable uuid16.
Proof.
  refine (inj_countable (fun u => Byte.to_N <$> proj1_sig u) (fun l => byte_list l ≫= mk16) _).
  intros [l Hl]. cbn [proj1_sig]. rewrite byte_list_to_N. cbn. by rewrite (mk16_eq l Hl).
Defined.

Definition print16 (u : uuid16) : string :=
  let h := concat (hex_byte <$> proj1_sig u) in
  String.string_of_list_ascii
    (take 8 h ++ "-"%char :: take 4 (drop 8 h) ++ "-"%char :: take 4 (drop 12 h)
     ++ "-"%char :: take 4 (drop 16 h) ++ "-"%char :: drop 20 h).

Definition parse16 (s : string) : option uuid16 :=
  let l := String.list_ascii_of_string s in
  if bool_decide (l !! 8%nat = Some "-"%char /\ l !! 13%nat = Some "-"%char
                  /\ l !! 18%nat = Some "-"%char /\ l !! 23%nat = Some "-"%char)
  then match unhex (take 8 l ++ take 4 (drop 9 l) ++ take 4 (drop 14 l) ++ take 4 (drop 19 l)
                    ++ drop 24 l) with
       | Some bs => mk16 bs
       | None => None
       end
  else None.

#[export] Instance uuid16_Uuid : Uuid := {
  UUID := uuid16;
  uuid_Nil := exist _ (replicate 16 x00) eq_refl;
  uuid_Parse := parse16;
  uuid_String := print16 }.

Lemma unhex_byte b l : unhex (hex_byte b ++ l) = (fun bs => b :: bs) <$> unhex l.
Proof. destruct b; cbn; by destruct (unhex l). Qed.

Lemma unhex_bytes l : unhex (concat (hex_byte <$> l)) = Some l.
Proof. induction l as [|b l IH]; [done|]. cbn [fmap list_fmap concat]. by rewrite unhex_byte, IH. Qed.

Lemma hex_byte_chars b : Forall (fun c => uuid_char c = true) (hex_byte b).
Proof. destruct b; by repeat constructor. Qed.

Lemma print16_chars u : Strs.str_forallb uuid_char (print16 u) = true.
Proof.
  unfold print16. rewrite Strs.str_forallb_list. apply List.forallb_forall.
  set (h := concat (hex_byte <$> proj1_sig u)).
  assert (Forall (fun c => uuid_char c = true) h) as Hh.
  { apply Forall_concat, Forall_fmap, Forall_true. intros b. apply hex_byte_chars. }
  assert (Forall (fun c => uuid_char c = true) ["-"%char]) as Hd by by repeat constructor.
  apply List.Forall_forall.
  repeat first [apply Forall_app; split | apply Forall_cons; split; [done|]
    | apply Forall_take | apply Forall_drop]; done.
Qed.

#[export] Instance uuid16_laws : UuidLaws.
Proof.
  constructor; [|apply print16_chars]. intros [l Hl]. pose proof (unhex_bytes l) as Hu. unfold uuid_Parse, uuid_String; cbn.
  unfold parse16, print16. cbn [proj1_sig]. rewrite String.list_ascii_of_string_of_list_ascii.
  pose proof Hl as Hlen. unfold is_uuid in Hlen. apply Nat.eqb_eq in Hlen.
  do 16 (destruct l as [|? l]; [done|]). destruct l; [|done].
  rewrite bool_decide_eq_true_2 by done.
  match goal with |- match unhex ?x with _ => _ end = _ =>
    match type of Hu with unhex ?y = _ => change x with y end end.
  rewrite Hu. apply mk16_eq.
Qed.

(** The bytes compare as one big-endian number. *)
Fixpoint big_endian (l : list byte) : Z :=
  match l with
  | [] => 0
  | b :: l => Z.of_N (Byte.to_N b) * 256 ^ Z.of_nat (length l) + big_endian l
  end.

Lemma big_endian_bound l : 0 <= big_endian l < 256 ^ Z.of_nat (length l).
Proof.
  induction l as [|b l IH]; [cbn; lia|]. cbn [big_endian length].
  rewrite Nat2Z.inj_succ, Z.pow_succ_r by lia.
  assert (0 <= Z.of_N (Byte.to_N b) < 256) by (pose proof (Byte.to_N_bounded b); lia). nia.
Qed.

Lemma big_endian_inj l k : length l = length k -> big_endian l = big_endian k -> l = k.
Proof.
  revert k. induction l as [|b l IH]; intros [|c k] Hlen E; try done. injection Hlen as Hlen.
  cbn [big_endian] in E. rewrite Hlen in E.
  pose proof (big_endian_bound l) as Hl. pose proof (big_endian_bound k) as Hk. rewrite Hlen in Hl.
  assert (Z.of_N (Byte.to_N b) = Z.of_N (Byte.to_N c)) as Hb by nia.
  assert (b = c) as ->.
  { assert (Some b = Some c) as [= ->]; [|done]. rewrite <- !Byte.of_to_N. f_equal. lia. }
  f_equal. apply IH; [done|lia].
Qed.

#[export] Instance uuid16_order : UuidOrder.
Proof.
  refine {| uuid_key := (fun u : uuid16 => big_endian (proj1_sig u)) : @UUID uuid16_Uuid -> Z |}.
  intros [l Hl] [k Hk] E. cbn in E. pose proof Hl as Hl'. pose proof Hk as Hk'.
  unfold is_uuid in Hl', Hk'. apply Nat.eqb_eq in Hl', Hk'.
  apply big_endian_inj in E as ->; [|congruence]. by rewrite (proof_irrel Hl Hk).
Defined.
