(* ===== verification/Httpx.v ===== *)
(** * internal/platform/httpx: the helpers at the HTTP boundary

    Limits, entity tags and the opaque cursor tokens that every paginated listing
    hands out: the fields joined by colons, in URL-safe base64 without padding. *)

From Stdlib Require Import Strings.Ascii.
From S2P Require Import Prelude GoStd Uuid.

Open Scope Z_scope.

(** ** encoding/base64's [RawURLEncoding] *)

Module Base64.
Definition encodeURL (n : Z) : Z :=
  if n <? 26 then 65 + n else if n <? 52 then 97 + (n - 26) else if n <? 62 then 48 + (n - 52)
  else if n =? 62 then 45 else 95.

Definition decodeURL (c : Z) : option Z :=
  if (65 <=? c) && (c <=? 90) then Some (c - 65)
  else if (97 <=? c) && (c <=? 122) then Some (c - 97 + 26)
  else if (48 <=? c) && (c <=? 57) then Some (c - 48 + 52)
  else if c =? 45 then Some 62
  else if c =? 95 then Some 63
  else None.

(** The sextets of a group of one, two or three bytes. *)
Definition sextet (val shift : Z) : Z := Z.land (Z.shiftr val shift) 0x3F.

Fixpoint encode (bs : list Z) : list Z :=
  match bs with
  | [] => []
  | [b0] =>
    let val := Z.shiftl b0 16 in [encodeURL (sextet val 18); encodeURL (sextet val 12)]
  | [b0; b1] =>
    let val := Z.lor (Z.shiftl b0 16) (Z.shiftl b1 8) in
    [encodeURL (sextet val 18); encodeURL (sextet val 12); encodeURL (sextet val 6)]
  | b0 :: b1 :: b2 :: rest =>
    let val := Z.lor (Z.lor (Z.shiftl b0 16) (Z.shiftl b1 8)) b2 in
    encodeURL (sextet val 18) :: encodeURL (sextet val 12) :: encodeURL (sextet val 6)
    :: encodeURL (sextet val 0) :: encode rest
  end.

Definition octet (val shift : Z) : Z := Z.land (Z.shiftr val shift) 0xFF.

(** Groups of four characters; the last may have two or three.  Bits left over in the
    last one are ignored (the encoding is not [Strict]). *)
Fixpoint decode_quanta (cs : list Z) : option (list Z) :=
  match cs with
  | [] => Some []
  | [_] => None
  | [c0; c1] =>
    match decodeURL c0, decodeURL c1 with
    | Some d0, Some d1 =>
      Some [octet (Z.lor (Z.shiftl d0 18) (Z.shiftl d1 12)) 16]
    | _, _ => None
    end
  | [c0; c1; c2] =>
    match decodeURL c0, decodeURL c1, decodeURL c2 with
    | Some d0, Some d1, Some d2 =>
      let val := Z.lor (Z.lor (Z.shiftl d0 18) (Z.shiftl d1 12)) (Z.shiftl d2 6) in
      Some [octet val 16; octet val 8]
    | _, _, _ => None
    end
  | c0 :: c1 :: c2 :: c3 :: rest =>
    match decodeURL c0, decodeURL c1, decodeURL c2, decodeURL c3 with
    | Some d0, Some d1, Some d2, Some d3 =>
      let val := Z.lor (Z.lor (Z.lor (Z.shiftl d0 18) (Z.shiftl d1 12)) (Z.shiftl d2 6)) d3 in
      (fun l => octet val 16 :: octet val 8 :: octet val 0 :: l) <$> decode_quanta rest
    | _, _, _, _ => None
    end
  end.

(** Newlines and carriage returns are skipped wherever they stand. *)
Definition decode (cs : list Z) : option (list Z) :=
  decode_quanta (filter (fun c => negb ((c =? 10) || (c =? 13)) = true) cs).

Definition EncodeToString (s : string) : string := string_of_bytes (encode (bytes_of s)).
Definition DecodeString (s : string) : option string := string_of_bytes <$> decode (bytes_of s).

(** *** Facts *)

Lemma decode_encodeURL n : 0 <= n < 64 -> decodeURL (encodeURL n) = Some n.
Proof. intros Hn. unfold encodeURL, decodeURL. repeat case_match; bool_to_prop; try lia; f_equal; lia. Qed.

Lemma encodeURL_plain n : 0 <= n < 64 -> negb ((encodeURL n =? 10) || (encodeURL n =? 13)) = true.
Proof. intros Hn. unfold encodeURL. repeat case_match; bool_to_prop; lia. Qed.

Lemma encodeURL_byte n : 0 <= n < 64 -> is_byte (encodeURL n).
Proof. intros Hn. unfold encodeURL, is_byte. repeat case_match; bool_to_prop; lia. Qed.

Lemma sextet_val val shift : 0 <= shift -> sextet val shift = val / 2 ^ shift mod 64.
Proof. intros Hs. unfold sextet. rewrite Z.shiftr_div_pow2 by done. by apply (Utf8.land_ones 6). Qed.

Lemma octet_val val shift : 0 <= shift -> octet val shift = val / 2 ^ shift mod 256.
Proof. intros Hs. unfold octet. rewrite Z.shiftr_div_pow2 by done. by apply (Utf8.land_ones 8). Qed.

Lemma sextet_range val shift : 0 <= shift -> 0 <= sextet val shift < 64.
Proof. intros Hs. rewrite sextet_val by done. lia. Qed.

Lemma lor_shiftl a b m n : 0 <= m -> m <= n -> 0 <= b < 2 ^ (n - m) ->
  Z.lor (Z.shiftl a n) (Z.shiftl b m) = a * 2 ^ n + b * 2 ^ m.
Proof.
  intros Hm Hn Hb. rewrite !Z.shiftl_mul_pow2 by lia. apply (Utf8.lor_add _ _ n); [lia| |].
  - apply Z.mod_mul. lia.
  - assert (2 ^ n = 2 ^ (n - m) * 2 ^ m) as -> by (rewrite <- Z.pow_add_r by lia; f_equal; lia).
    assert (0 < 2 ^ m) by (apply Z.pow_pos_nonneg; lia). nia.
Qed.

Lemma val2_sum a b : 0 <= b < 64 -> Z.lor (Z.shiftl a 18) (Z.shiftl b 12) = a * 2 ^ 18 + b * 2 ^ 12.
Proof. intros Hb. by apply lor_shiftl. Qed.

Lemma val3_sum a b c : 0 <= b < 64 -> 0 <= c < 64 ->
  Z.lor (Z.lor (Z.shiftl a 18) (Z.shiftl b 12)) (Z.shiftl c 6) = a * 2 ^ 18 + b * 2 ^ 12 + c * 2 ^ 6.
Proof.
  intros Hb Hc. rewrite val2_sum by done. rewrite Z.shiftl_mul_pow2 by done.
  apply (Utf8.lor_add _ _ 12); lia.
Qed.

Lemma val4_sum a b c d : 0 <= b < 64 -> 0 <= c < 64 -> 0 <= d < 64 ->
  Z.lor (Z.lor (Z.lor (Z.shiftl a 18) (Z.shiftl b 12)) (Z.shiftl c 6)) d
  = a * 2 ^ 18 + b * 2 ^ 12 + c * 2 ^ 6 + d.
Proof. intros Hb Hc Hd. rewrite val3_sum by done. apply (Utf8.lor_add _ _ 6); lia. Qed.

Lemma bytes2_sum a b : 0 <= b < 256 -> Z.lor (Z.shiftl a 16) (Z.shiftl b 8) = a * 2 ^ 16 + b * 2 ^ 8.
Proof. intros Hb. by apply lor_shiftl. Qed.

Lemma bytes3_sum a b c : 0 <= b < 256 -> 0 <= c < 256 ->
  Z.lor (Z.lor (Z.shiftl a 16) (Z.shiftl b 8)) c = a * 2 ^ 16 + b * 2 ^ 8 + c.
Proof. intros Hb Hc. rewrite bytes2_sum by done. apply (Utf8.lor_add _ _ 8); lia. Qed.

(** What is encoded has no newline in it and decodes to what it was. *)
Lemma decode_quanta_encode bs :
  Forall is_byte bs ->
  decode_quanta (encode bs) = Some bs
  /\ Forall (fun c => negb ((c =? 10) || (c =? 13)) = true /\ is_byte c) (encode bs).
Proof.
  assert (forall val shift, 0 <= shift ->
    negb ((encodeURL (sextet val shift) =? 10) || (encodeURL (sextet val shift) =? 13)) = true
    /\ is_byte (encodeURL (sextet val shift))) as Hp.
  { intros val shift Hs. pose proof (sextet_range val shift Hs).
    split; [by apply encodeURL_plain|by apply encodeURL_byte]. }
  revert bs. fix IH 1. intros bs Hbs. unfold is_byte in *.
  destruct bs as [|b0 [|b1 [|b2 rest]]]; [by repeat constructor| | |].
  - inversion_clear Hbs as [|? ? H0 _]. split; [|by repeat constructor; apply Hp]. cbn.
    rewrite !decode_encodeURL by (apply sextet_range; lia). f_equal. f_equal.
    rewrite val2_sum by (apply sextet_range; lia). rewrite octet_val, !sextet_val by lia.
    rewrite Z.shiftl_mul_pow2 by lia. lia.
  - inversion_clear Hbs as [|? ? H0 Hbs']. inversion_clear Hbs' as [|? ? H1 _].
    split; [|by repeat constructor; apply Hp]. cbn.
    rewrite !decode_encodeURL by (apply sextet_range; lia).
    rewrite val3_sum by (apply sextet_range; lia). rewrite !octet_val, !sextet_val by lia.
    rewrite bytes2_sum by done. f_equal. f_equal; [lia|]. f_equal. lia.
  - inversion_clear Hbs as [|? ? H0 Hbs']. inversion_clear Hbs' as [|? ? H1 Hbs].
    inversion_clear Hbs as [|? ? H2 Hr]. destruct (IH rest Hr) as [E Hf].
    split; [|by repeat (constructor; [by apply Hp|])]. cbn.
    rewrite !decode_encodeURL by (apply sextet_range; lia). rewrite E. cbn.
    rewrite val4_sum by (apply sextet_range; lia). rewrite !octet_val, !sextet_val by lia.
    rewrite bytes3_sum by done. f_equal. f_equal; [lia|]. f_equal; [lia|]. f_equal. lia.
Qed.

Lemma DecodeString_Encode s : DecodeString (EncodeToString s) = Some s.
Proof.
  unfold DecodeString, EncodeToString. destruct (decode_quanta_encode (bytes_of s)) as [Hd Hf].
  { apply bytes_of_is_byte. }
  rewrite bytes_of_string_of_bytes by (eapply Forall_impl; [exact Hf|by intros ? [_ ?]]).
  unfold decode. rewrite filter_all.
  - rewrite Hd. cbn. by rewrite string_of_bytes_of.
  - intros c Hc. rewrite Forall_forall in Hf. by apply Hf.
Qed.
(** Every character of an encoding is one of the alphabet. *)
Lemma encode_alphabet bs : Forall (fun c => exists n, 0 <= n < 64 /\ c = encodeURL n) (encode bs).
Proof.
  assert (forall val shift, 0 <= shift -> exists n, 0 <= n < 64 /\ encodeURL (sextet val shift) = encodeURL n) as Hp
    by (intros val shift Hs; exists (sextet val shift); split; [by apply sextet_range|done]).
  revert bs. fix IH 1. intros [|b0 [|b1 [|b2 rest]]]; cbn [encode]; repeat (constructor; [by apply Hp|]);
    [constructor..|apply IH].
Qed.
End Base64.

(** ** Query parameters *)

Definition ParseLimit (raw : string) (def maxAllowed : Z) : Z :=
  if raw =s? "" then def
  else match Strconv.Atoi raw with
       | None => def
       | Some n => if n <=? 0 then def else if maxAllowed <? n then maxAllowed else n
       end.

(** ** Entity tags *)

Definition TrimPrefix (p s : string) : string := default s (Strs.CutPrefix p s).

Definition ETagMatches (ifNoneMatch etag : string) : bool :=
  if ifNoneMatch =s? "" then false
  else existsb (fun candidate =>
         let candidate := Strs.TrimSpace candidate in
         (candidate =s? "*") || (TrimPrefix "W/" candidate =s? etag))
       (Strs.Split ","%char ifNoneMatch).

(** ** Cursor tokens *)

Definition EncodeCursor (fields : list string) : string :=
  Base64.EncodeToString (Strs.join ":"%char fields).

Definition DecodeCursor (token : string) (n : nat) : option (list string) :=
  match Base64.DecodeString token with
  | None => None
  | Some b =>
    let parts := Strs.Split ":"%char b in
    if (length parts =? n)%nat then Some parts else None
  end.

Definition no_colon (s : string) : Prop :=
  Strs.str_forallb (fun c => negb (Ascii.eqb c ":"%char)) s = true.

(** Fields without a colon come back, at their number. *)
Lemma DecodeCursor_Encode fields :
  fields <> [] -> Forall no_colon fields ->
  DecodeCursor (EncodeCursor fields) (length fields) = Some fields.
Proof.
  intros Hne Hf. unfold DecodeCursor, EncodeCursor. rewrite Base64.DecodeString_Encode.
  by rewrite Strs.Split_join, Nat.eqb_refl.
Qed.

Lemma Itoa_no_colon z : no_colon (Strconv.Itoa z).
Proof.
  eapply Strs.str_forallb_impl; [|apply Strconv.Itoa_chars]. intros c Hc.
  destruct (Ascii.eqb_spec c ":"%char) as [->|?]; [|done]. by vm_compute in Hc.
Qed.

Lemma uuid_no_colon `{Uuid} `{!UuidLaws} id : no_colon (uuid_String id).
Proof.
  eapply Strs.str_forallb_impl; [|apply String_chars]. intros c Hc.
  destruct (Ascii.eqb_spec c ":"%char) as [->|?]; [|done]. by vm_compute in Hc.
Qed.

(** A limit is the default or in range, so a page never asks for more than the maximum. *)
Lemma ParseLimit_bounds raw def maxAllowed :
  0 < def <= maxAllowed -> 0 < ParseLimit raw def maxAllowed <= maxAllowed.
Proof. intros Hd. unfold ParseLimit. repeat case_match; bool_to_prop; lia. Qed.
