(* ===== verification/Keyset.v ===== *)
(** * Keyset pagination

    A listing in a strict total order of positions, read a page at a time: a page is
    the first rows after a position, and the position of its last row fetches the
    next.  The listings of the program (the boards, a player's runs, the quotes) are
    instances. *)

From Stdlib Require Import Sorting.Sorted.
From stdpp Require Import sorting.
From S2P Require Import Prelude.

(** A strict total order given by its comparison. *)
Class StrictTotal {P} (lt : P -> P -> bool) : Prop := {
  lt_irrefl p : lt p p = false;
  lt_trans p q r : lt p q = true -> lt q r = true -> lt p r = true;
  lt_total p q : p <> q -> lt p q = true \/ lt q p = true }.

(** PostgreSQL's order of text: whatever the collation, only equal strings compare equal. *)
Class Collation := { text_lt : string -> string -> bool; text_lt_total :: StrictTotal text_lt }.

(** The same order read backwards. *)
Definition backwards {P} (lt : P -> P -> bool) (p q : P) : bool := lt q p.
#[global] Typeclasses Opaque backwards.

#[export] Instance backwards_total {P} (lt : P -> P -> bool) `{!StrictTotal lt} : StrictTotal (backwards lt).
Proof.
  unfold backwards. constructor.
  - apply lt_irrefl.
  - intros p q r Hpq Hqr. by eapply lt_trans.
  - intros p q Hne. destruct (lt_total p q Hne); auto.
Qed.

(** ORDER BY two columns. *)
Definition lexicographic {P Q} (lt1 : P -> P -> bool) (lt2 : Q -> Q -> bool) (p q : P * Q) : bool :=
  lt1 p.1 q.1 || (negb (lt1 q.1 p.1) && lt2 p.2 q.2).
#[global] Typeclasses Opaque lexicographic.

#[export] Instance lexicographic_total {P Q} (lt1 : P -> P -> bool) (lt2 : Q -> Q -> bool)
  `{!StrictTotal lt1} `{!StrictTotal lt2} `{!EqDecision P} : StrictTotal (lexicographic lt1 lt2).
Proof.
  assert (forall p q, lt1 p q = false -> lt1 q p = false -> p = q) as Heq.
  { intros p q Hpq Hqp. destruct (decide (p = q)) as [|Hne]; [done|]. destruct (lt_total (lt := lt1) p q Hne); congruence. }
  unfold lexicographic. constructor.
  - intros [p q]. cbn. by rewrite (lt_irrefl (lt := lt1)), (lt_irrefl (lt := lt2)).
  - intros [p1 q1] [p2 q2] [p3 q3]. cbn.
    destruct (lt1 p1 p2) eqn:E12, (lt1 p2 p3) eqn:E23; cbn.
    + intros _ _. by rewrite (lt_trans (lt := lt1) _ _ _ E12 E23).
    + destruct (lt1 p3 p2) eqn:E32; cbn; [done|]. intros _ _. rewrite <- (Heq _ _ E23 E32). by rewrite E12.
    + destruct (lt1 p2 p1) eqn:E21; cbn; [done|]. intros _ _. rewrite (Heq _ _ E12 E21). by rewrite E23.
    + destruct (lt1 p2 p1) eqn:E21, (lt1 p3 p2) eqn:E32; cbn; try done. intros H1 H2.
      rewrite (Heq _ _ E12 E21), (Heq _ _ E23 E32), (lt_irrefl (lt := lt1)). cbn. by eapply (lt_trans (lt := lt2)).
  - intros [p1 q1] [p2 q2] Hne. cbn. destruct (lt1 p1 p2) eqn:E12; [by left|].
    destruct (lt1 p2 p1) eqn:E21; [by right|]. cbn. rewrite (Heq _ _ E12 E21) in Hne. apply (lt_total (lt := lt2)). congruence.
Qed.

#[export] Instance Zltb_total : StrictTotal Z.ltb.
Proof. constructor; intros; lia. Qed.

#[export] Instance Zgtb_total : StrictTotal Z.gtb.
Proof. constructor; intros; lia. Qed.

Section keyset.
Context {A P : Type} (pos : A -> P) (lt : P -> P -> bool) `{!StrictTotal lt}.

Definition before (a b : A) : Prop := lt (pos a) (pos b) = true.

(** ORDER BY. *)
Fixpoint insert_row (x : A) (l : list A) : list A :=
  match l with
  | [] => [x]
  | y :: l => if lt (pos x) (pos y) then x :: y :: l else y :: insert_row x l
  end.
Definition order_by (l : list A) : list A := foldr insert_row [] l.

(** The rows after and before a position. *)
Definition rows_after (p : P) (l : list A) : list A := filter (fun a => lt p (pos a) = true) l.
Definition rows_before (p : P) (l : list A) : list A := filter (fun a => lt (pos a) p = true) l.

(** A fetch of [limit] + 1 rows cut into the page and the position it continues from. *)
Definition cut_page (limit : nat) (rows : list A) : list A * option A :=
  if (limit <? length rows)%nat then (take limit rows, last (take limit rows)) else (rows, None).

(** ** Order *)

Lemma lt_asym p q : lt p q = true -> lt q p = false.
Proof.
  intros Hpq. destruct (lt q p) eqn:Hqp; [|done]. pose proof (lt_trans _ _ _ Hpq Hqp) as Hp.
  by rewrite lt_irrefl in Hp.
Qed.

Lemma insert_row_perm x l : insert_row x l ≡ₚ x :: l.
Proof.
  induction l as [|y l IH]; [done|]. cbn. destruct (lt _ _); [done|]. rewrite IH. apply Permutation_swap.
Qed.

Lemma order_by_perm l : order_by l ≡ₚ l.
Proof. induction l as [|x l IH]; [done|]. cbn. by rewrite insert_row_perm, IH. Qed.

Lemma insert_row_sorted x l :
  pos x ∉ pos <$> l -> StronglySorted before l -> StronglySorted before (insert_row x l).
Proof.
  induction l as [|y l IH]; intros Hx Hs; [by repeat constructor|]. cbn.
  apply StronglySorted_inv in Hs as [Hs Hy]. cbn in Hx. apply not_elem_of_cons in Hx as [Hxy Hx].
  destruct (lt (pos x) (pos y)) eqn:Hl.
  - constructor; [by constructor|]. constructor; [done|]. eapply Forall_impl; [exact Hy|].
    intros z. unfold before. by apply lt_trans.
  - constructor; [by apply IH|]. rewrite insert_row_perm. constructor; [|done].
    destruct (lt_total _ _ Hxy) as [?|?]; [congruence|done].
Qed.

(** With ties: no row comes after one it should precede. *)
Definition not_after (a b : A) : Prop := lt (pos b) (pos a) = false.

Lemma insert_row_weak x l : StronglySorted not_after l -> StronglySorted not_after (insert_row x l).
Proof.
  induction l as [|y l IH]; cbn; [intros _; repeat constructor|]. intros Hs. apply StronglySorted_inv in Hs as [Hs Hy].
  destruct (lt (pos x) (pos y)) eqn:E.
  - constructor; [by constructor|]. constructor; [by apply lt_asym|]. eapply Forall_impl; [exact Hy|]. cbn. intros z Hz.
    unfold not_after in *. apply not_true_iff_false. intros Ezx. pose proof (lt_trans _ _ _ Ezx E). congruence.
  - constructor; [by apply IH|]. rewrite insert_row_perm. by constructor.
Qed.

Lemma order_by_weak l : StronglySorted not_after (order_by l).
Proof. induction l as [|x l IH]; cbn; [constructor|]. by apply insert_row_weak. Qed.

Lemma order_by_sorted l : NoDup (pos <$> l) -> StronglySorted before (order_by l).
Proof.
  induction l as [|x l IH]; [constructor|]. cbn. intros [Hx Hn]%NoDup_cons.
  apply insert_row_sorted; [by rewrite order_by_perm|auto].
Qed.

(** There is one sorted arrangement of the rows. *)
Lemma sorted_unique l k : StronglySorted before l -> StronglySorted before k -> l ≡ₚ k -> l = k.
Proof.
  revert k. induction l as [|x l IH]; intros k Hl Hk Hp.
  { by apply Permutation_nil in Hp. }
  destruct k as [|y k]; [by apply Permutation_sym, Permutation_nil in Hp|].
  apply StronglySorted_inv in Hl as [Hl Hx]. apply StronglySorted_inv in Hk as [Hk Hy].
  assert (x = y) as ->.
  { assert (x ∈ y :: k) as Hxk by (rewrite <- Hp; left). assert (y ∈ x :: l) as Hyl by (rewrite Hp; left).
    apply elem_of_cons in Hxk as [?|Hxk]; [done|]. apply elem_of_cons in Hyl as [?|Hyl]; [done|].
    rewrite Forall_forall in Hx, Hy. specialize (Hx _ Hyl). specialize (Hy _ Hxk).
    unfold before in *. apply lt_asym in Hx. congruence. }
  f_equal. apply IH; [done|done|]. by eapply Permutation_cons_inv.
Qed.

Lemma filter_sorted (Q : A -> Prop) `{!forall x, base.Decision (Q x)} l :
  StronglySorted before l -> StronglySorted before (filter Q l).
Proof.
  induction 1 as [|x l Hs IH Hx]; [constructor|]. rewrite filter_cons. case_decide; [|done].
  constructor; [done|]. apply Forall_forall. intros y [_ Hy]%list_elem_of_filter.
  rewrite Forall_forall in Hx. auto.
Qed.

Lemma NoDup_filter_pos (Q : A -> Prop) `{!forall x, base.Decision (Q x)} l :
  NoDup (pos <$> l) -> NoDup (pos <$> filter Q l).
Proof.
  induction l as [|x l IH]; [done|]. rewrite fmap_cons. intros [Hx Hn]%NoDup_cons. rewrite filter_cons.
  case_decide; [|auto]. rewrite fmap_cons. apply NoDup_cons. split; [|auto].
  intros (y & E & [_ Hy]%list_elem_of_filter)%list_elem_of_fmap. apply Hx. rewrite E.
  by apply list_elem_of_fmap_2.
Qed.

(** Filtering and ordering commute, so a statement may be read as a filter of the
    ordered listing. *)
Lemma order_by_filter (Q : A -> Prop) `{!forall x, base.Decision (Q x)} l :
  NoDup (pos <$> l) -> order_by (filter Q l) = filter Q (order_by l).
Proof.
  intros Hn. apply sorted_unique.
  - by apply order_by_sorted, NoDup_filter_pos.
  - by apply filter_sorted, order_by_sorted.
  - by rewrite !order_by_perm.
Qed.

(** ** Where a position cuts a sorted listing *)

Lemma rows_cut p l :
  StronglySorted before l ->
  exists l1 l2, l = l1 ++ l2 /\ rows_after p l = l2 /\ Forall (fun a => lt p (pos a) = false) l1.
Proof.
  induction 1 as [|x l Hs IH Hx].
  - by exists [], [].
  - destruct (lt p (pos x)) eqn:Hp.
    + exists [], (x :: l). split_and!; [done| |constructor].
      apply filter_all. intros y [->|Hy]%elem_of_cons; [done|].
      rewrite Forall_forall in Hx. by eapply lt_trans; [|apply Hx].
    + destruct IH as (l1 & l2 & -> & Ha & Hl1). exists (x :: l1), l2. split_and!; [done| |by constructor].
      unfold rows_after. rewrite filter_cons_False by (by rewrite Hp). done.
Qed.

Lemma rows_after_at l1 x l2 : StronglySorted before (l1 ++ x :: l2) -> rows_after (pos x) (l1 ++ x :: l2) = l2.
Proof.
  intros Hs. unfold rows_after. rewrite filter_app, filter_cons_False by (by rewrite lt_irrefl).
  induction l1 as [|y l1 IH]; [|rewrite <- app_comm_cons in Hs]; cbn [app] in *.
  - apply StronglySorted_inv in Hs as [_ Hx]. apply filter_all.
    intros z Hz. rewrite Forall_forall in Hx. by apply Hx.
  - apply StronglySorted_inv in Hs as [Hs Hy]. rewrite filter_cons_False; [by apply IH|].
    rewrite Forall_forall in Hy. rewrite lt_asym; [done|]. apply Hy. set_solver.
Qed.

Lemma rows_before_at l1 x l2 : StronglySorted before (l1 ++ x :: l2) -> rows_before (pos x) (l1 ++ x :: l2) = l1.
Proof.
  intros Hs. unfold rows_before. rewrite filter_app, filter_cons_False by (by rewrite lt_irrefl).
  induction l1 as [|y l1 IH]; [|rewrite <- app_comm_cons in Hs]; cbn [app] in *.
  - apply StronglySorted_inv in Hs as [_ Hx]. induction Hx as [|z l2 Hz _ IH]; [done|].
    rewrite filter_cons_False; [done|]. by rewrite lt_asym.
  - apply StronglySorted_inv in Hs as [Hs Hy]. rewrite Forall_forall in Hy.
    rewrite filter_cons_True by (apply Hy; set_solver). cbn. by rewrite IH.
Qed.

(** A sorted listing is what stands before a position, the row at it if there is one,
    and what stands after. *)
Lemma sorted_split `{!EqDecision P} p l :
  StronglySorted before l ->
  exists mid, l = rows_before p l ++ mid ++ rows_after p l
    /\ ((mid = [] /\ Forall (fun a => pos a <> p) l) \/ exists x, mid = [x] /\ pos x = p).
Proof.
  induction 1 as [|x l Hs (mid & El & Hm) Hx]; [by exists []; eauto|].
  unfold rows_before, rows_after. rewrite !filter_cons. rewrite Forall_forall in Hx.
  destruct (decide (pos x = p)) as [<-|Hne].
  - rewrite !decide_False by (by rewrite lt_irrefl). exists [x]. split; [|eauto].
    assert (filter (fun a => lt (pos a) (pos x) = true) l = []) as ->.
    { apply filter_none. intros y Hy. specialize (Hx y Hy). apply lt_asym in Hx. congruence. }
    cbn. f_equal. symmetry. apply filter_all. exact Hx.
  - destruct (lt_total _ _ Hne) as [Hl|Hl]; rewrite (lt_asym _ _ Hl), Hl.
    + rewrite decide_True by done. rewrite decide_False by done. exists mid. split.
      * cbn. f_equal. exact El.
      * destruct Hm as [[-> Hm]|?]; [left; split; [done|by constructor]|by right].
    + rewrite decide_False by done. rewrite decide_True by done. exists []. split.
      * assert (filter (fun a => lt (pos a) p = true) l = []) as ->.
        { apply filter_none. intros y Hy. specialize (Hx y Hy).
          pose proof (lt_trans _ _ _ Hl Hx) as E. apply lt_asym in E. congruence. }
        cbn. f_equal. symmetry. apply filter_all. intros y Hy. eapply lt_trans; [exact Hl|by apply Hx].
      * left. split; [done|]. constructor; [done|]. apply Forall_forall. intros y Hy <-.
        specialize (Hx y Hy). apply lt_asym in Hx. congruence.
Qed.

(** ** Pages *)

Lemma cut_page_spec limit rows page next :
  (0 < limit)%nat -> cut_page limit rows = (page, next) ->
  page = take limit rows
  /\ match next with
     | None => page = rows
     | Some x => exists init, page = init ++ [x] /\ length page = limit /\ (limit < length rows)%nat
     end.
Proof.
  intros Hl. unfold cut_page. destruct (Nat.ltb_spec limit (length rows)) as [Hlt|Hge].
  - intros [= <- <-]. split; [done|].
    destruct (last (take limit rows)) as [x|] eqn:El.
    + apply last_Some in El as [init Ei]. exists init. split_and!; [done| |done].
      rewrite length_take. lia.
    + apply last_None, (f_equal length) in El. rewrite length_take in El. cbn in El. lia.
  - intros [= <- <-]. split; [|done]. by rewrite take_ge.
Qed.

Context {C : Type}.

(** Following the continuation of every page; [None] when the fuel runs out or a
    fetch is refused. *)
Fixpoint walk (fuel : nat) (fetch : option C -> option (list A * option C)) (from : option C)
    : option (list (list A)) :=
  match fuel with
  | O => None
  | S fuel =>
    match fetch from with
    | None => None
    | Some (page, None) => Some [page]
    | Some (page, Some c) => cons page <$> walk fuel fetch (Some c)
    end
  end.

(** If every fetch answers with the page after the position its token stands for, the
    walk ends and the pages are the listing, in order, nothing twice and nothing left
    out; all but the last are full. *)
Lemma walk_all (token : A -> C) (limit : nat) (listing : list A)
    (fetch : option C -> option (list A * option C)) :
  (0 < limit)%nat -> StronglySorted before listing ->
  (fetch None = Some ((cut_page limit listing).1, token <$> (cut_page limit listing).2)) ->
  (forall x, x ∈ listing ->
     let rows := rows_after (pos x) listing in
     fetch (Some (token x)) = Some ((cut_page limit rows).1, token <$> (cut_page limit rows).2)) ->
  exists pages, walk (S (length listing)) fetch None = Some pages
    /\ concat pages = listing
    /\ forall init p, pages = init ++ [p] -> Forall (fun q => length q = limit) init.
Proof.
  intros Hl Hs Hfirst Hnext.
  enough (forall fuel rows done from, listing = done ++ rows -> (length rows < fuel)%nat ->
    fetch from = Some ((cut_page limit rows).1, token <$> (cut_page limit rows).2) ->
    exists pages, walk fuel fetch from = Some pages /\ concat pages = rows /\ pages <> []
      /\ forall init p, pages = init ++ [p] -> Forall (fun q => length q = limit) init) as H.
  { destruct (H (S (length listing)) listing [] None) as (pages & ? & ? & _ & ?); [done|lia|done|eauto]. }
  induction fuel as [|fuel IH]; intros rows done from El Hf Hfrom; [lia|].
  cbn [walk]. rewrite Hfrom. destruct (cut_page limit rows) as [page next] eqn:Ec. cbn.
  apply cut_page_spec in Ec as [Ep Hn]; [|done]. destruct next as [x|]; cbn.
  2:{ exists [page]. rewrite Hn. split_and!; [done|by rewrite concat_cons, app_nil_r|done|].
      intros init p E. destruct init as [|? [|]]; [constructor|done|done]. }
  destruct Hn as (init & Ei & Hlen & Hmore).
  assert (listing = (done ++ init) ++ x :: drop limit rows) as Ex.
  { rewrite El, <- (take_drop limit rows) at 1. rewrite <- Ep, Ei. by rewrite <- !app_assoc. }
  destruct (IH (drop limit rows) (done ++ page) (Some (token x))) as (pages & -> & Hc & Hne & Hfull).
  - by rewrite Ex, Ei, <- !app_assoc.
  - rewrite length_drop. lia.
  - rewrite Hnext by (rewrite Ex; set_solver). cbv zeta.
    assert (rows_after (pos x) listing = drop limit rows) as ->; [|done].
    rewrite Ex. apply rows_after_at. by rewrite <- Ex.
  - exists (page :: pages). split_and!; [done| |done|].
    + cbn. rewrite Hc, Ep. apply take_drop.
    + intros init' p E. destruct init' as [|q init']; [constructor|]. injection E as -> E.
      constructor; [done|]. by eapply Hfull.
Qed.
End keyset.

(** A walk over what is shown of the rows. *)
Lemma walk_map {A B C} (f : A -> B) (fetch : option C -> option (list A * option C))
    (fetch' : option C -> option (list B * option C)) (ok : C -> Prop) fuel from pages :
  (forall c, match c with Some c => ok c | None => True end ->
     fetch' c = option_map (fun pc => (map f pc.1, pc.2)) (fetch c)
     /\ forall page c', fetch c = Some (page, Some c') -> ok c') ->
  match from with Some c => ok c | None => True end ->
  walk fuel fetch from = Some pages -> walk fuel fetch' from = Some (map (map f) pages).
Proof.
  intros Hf. revert from pages. induction fuel as [|fuel IH]; intros from pages Hok; [done|]. cbn [walk].
  destruct (Hf from Hok) as [-> Hn]. destruct (fetch from) as [[page [c|]]|]; cbn; [|by intros [= <-]|done].
  destruct (walk fuel fetch (Some c)) as [ps|] eqn:Ew; [|done]. intros [= <-].
  by rewrite (IH (Some c) ps); [|by eapply Hn|].
Qed.

(** ORDER BY with every direction turned round. *)
Lemma order_by_backwards {A P} (pos : A -> P) (lt : P -> P -> bool) `{!StrictTotal lt} l :
  NoDup (pos <$> l) -> order_by pos (backwards lt) l = reverse (order_by pos lt l).
Proof.
  intros Hn. apply (sorted_unique pos (backwards lt)).
  - by apply (order_by_sorted pos (backwards lt)).
  - assert (StronglySorted (before pos lt) (order_by pos lt l)) as Hs by (by apply order_by_sorted).
    induction Hs as [|x k Hs IH Hx]; [constructor|]. rewrite reverse_cons.
    apply StronglySorted_app_2; [intros y z Hy Hz|done|by repeat constructor].
    apply list_elem_of_singleton in Hz as ->. rewrite elem_of_reverse in Hy.
    rewrite Forall_forall in Hx. exact (Hx _ Hy).
  - rewrite (order_by_perm pos (backwards lt)), reverse_Permutation. by rewrite order_by_perm.
Qed.

(** The rows nearest to the end of a listing, fetched backwards and turned round. *)
Lemma reverse_take_reverse {A} n (l : list A) : reverse (take n (reverse l)) = drop (length l - n) l.
Proof.
  rewrite <- (reverse_involutive l) at 3. rewrite <- (take_drop n (reverse l)) at 2.
  rewrite reverse_app, drop_app_length'; [done|]. rewrite length_reverse, length_drop, length_reverse. done.
Qed.
