(* ===== verification/Json.v ===== *)
(** * JSON values and [encoding/json]'s decoding into structs

    Decoding starts from the parsed value: the grammar of JSON text is not
    modelled, what [Unmarshal] does with a value of each kind is.  A number keeps
    its literal, because [int] fields refuse fractions and exponents.  A
    [json.RawMessage] is the value whose text it keeps, with the text's length
    where the code measures it. *)

From S2P Require Import Prelude GoStd.
From Stdlib Require Import Strings.Ascii.

Open Scope Z_scope.

Inductive json :=
| JNull
| JBool (b : bool)
| JNum (lit : string)
| JStr (s : string)
| JArr (l : list json)
| JObj (m : list (string * json)).

Record RawMessage := { raw_len : Z; raw_val : json }.

Module Json.

(** ** Field names: exact match first, else equal up to case folding.

    [foldName] maps every rune to the smallest of its simple-fold orbit; for the
    ASCII field names of the code the only non-ASCII members of an orbit are
    U+212A (Kelvin, with k) and U+017F (long s, with s). *)
Definition fold_rune (r : Z) : Z :=
  if (0x61 <=? r) && (r <=? 0x7A) then r - 0x20
  else if r =? 0x212A then 0x4B
  else if r =? 0x17F then 0x53
  else r.
Definition fold_name (s : string) : list Z := fold_rune <$> Utf8.runes s.

(** The struct field a member decodes into, among the struct's names. *)
Definition field_of (names : list string) (key : string) : option string :=
  match find_first (String.eqb key) names with
  | Some n => Some n
  | None => find_first (fun n => bool_decide (fold_name n = fold_name key)) names
  end.

(** ** Scalars

    A decoder takes the current value of the target and answers the new one, or
    [None] for an [UnmarshalTypeError].  [null] leaves a non-pointer as it is. *)
Definition decoder (A : Type) := A -> json -> option A.

Definition dec_string : decoder string := fun cur j =>
  match j with JStr s => Some s | JNull => Some cur | _ => None end.

Definition dec_bool : decoder bool := fun cur j =>
  match j with JBool b => Some b | JNull => Some cur | _ => None end.

(** A JSON integer literal: an optional minus and digits, nothing else. *)
Definition parse_int_lit (lit : string) : option Z :=
  match lit with
  | EmptyString => None
  | String "-" s => match s with EmptyString => None | _ => Z.opp <$> Strconv.parse_digits s 0 end
  | _ => Strconv.parse_digits lit 0
  end.

(** [int]/[int64] is 64 bits, [int32] 32, [int16] 16: out of range is an error. *)
Definition dec_int (w : Z) : decoder Z := fun cur j =>
  match j with
  | JNum lit =>
    match parse_int_lit lit with
    | Some z => if (- 2 ^ (w - 1) <=? z) && (z <? 2 ^ (w - 1)) then Some z else None
    | None => None
    end
  | JNull => Some cur
  | _ => None
  end.

(** A pointer: [null] makes it nil, anything else decodes into a fresh (or the
    present) target. *)
Definition dec_ptr {A} (zero : A) (d : decoder A) : decoder (option A) := fun cur j =>
  match j with
  | JNull => Some None
  | _ => Some <$> d (default zero cur) j
  end.

(** [json.RawMessage] takes whatever is there, [null] included. *)
Definition dec_raw : decoder (option json) := fun _ j => Some (Some j).

Fixpoint dec_list_raw (d : json -> option json) (l : list json) : option (list json) :=
  match l with
  | [] => Some []
  | j :: l' =>
    match d j, dec_list_raw d l' with
    | Some x, Some xs => Some (x :: xs)
    | _, _ => None
    end
  end.

(** [[]json.RawMessage]: an array, or [null] for the nil slice. *)
Definition dec_raws : decoder (list json) := fun cur j =>
  match j with JArr l => Some l | JNull => Some [] | _ => None end.

(** A slice of anything else: elements already there are decoded into, further ones
    start from the zero value, and what is left over is dropped. *)
Fixpoint dec_elems {A} (d : decoder A) (zero : A) (cur : list A) (l : list json) : option (list A) :=
  match l with
  | [] => Some []
  | j :: l =>
    match d (default zero (head cur)) j, dec_elems d zero (tail cur) l with
    | Some x, Some xs => Some (x :: xs)
    | _, _ => None
    end
  end.

Definition dec_list {A} (d : decoder A) (zero : A) : decoder (list A) := fun cur j =>
  match j with JArr l => dec_elems d zero cur l | JNull => Some [] | _ => None end.

(** A struct: members in order, each into the field it names; unknown members are
    skipped, a repeated one overwrites (or merges into) what is there. *)
Definition dec_struct {A} (names : list string) (set : string -> decoder A) : decoder A :=
  fun cur j =>
  match j with
  | JNull => Some cur
  | JObj m =>
    foldl (fun acc kv =>
      match acc with
      | None => None
      | Some a =>
        match field_of names kv.1 with
        | Some f => set f a kv.2
        | None => Some a
        end
      end) (Some cur) m
  | _ => None
  end.

(** Under [DisallowUnknownFields] a member that names no field is an error. *)
Definition dec_strict {A} (names : list string) (set : string -> decoder A) : decoder A :=
  fun cur j =>
  match j with
  | JObj m =>
    if forallb (fun kv => bool_decide (is_Some (field_of names kv.1))) m
    then dec_struct names set cur j else None
  | _ => dec_struct names set cur j
  end.

(** What every field's decoder keeps, decoding the struct keeps. *)
Lemma dec_struct_keeps {A} (P : A -> Prop) names (set : string -> decoder A) cur j a :
  (forall f x v y, P x -> set f x v = Some y -> P y) ->
  P cur -> dec_struct names set cur j = Some a -> P a.
Proof.
  intros Hset Hc. destruct j as [| | | | |m]; cbn; try done; [by intros [= <-]|].
  revert cur Hc. induction m as [|kv m IH]; cbn; intros cur Hc; [by intros [= <-]|].
  destruct (field_of names kv.1) as [f|]; [|by apply IH].
  destruct (set f cur kv.2) as [y|] eqn:E; [eapply IH, Hset; [exact Hc|exact E]|].
  clear. induction m as [|kv' m IH]; cbn; [done|exact IH].
Qed.

(** Decode one field: read it, run its decoder, write it back. *)
Definition field {A B} (get : A -> B) (put : B -> A -> A) (d : decoder B) : decoder A :=
  fun a j => (fun b => put b a) <$> d (get a) j.

(** [Unmarshal] into the zero value. *)
Definition unmarshal {A} (d : decoder A) (zero : A) (j : json) : option A := d zero j.

(** ** Numbers as float64: [strconv.ParseFloat] on a JSON literal *)

Fixpoint split_at_char (p : ascii -> bool) (s : string) : string * option string :=
  match s with
  | EmptyString => (EmptyString, None)
  | String c s' =>
    if p c then (EmptyString, Some s')
    else let '(a, b) := split_at_char p s' in (String c a, b)
  end.

Definition parse_exp (s : string) : option Z :=
  match s with
  | String "+" s' => Strconv.parse_digits s' 0
  | String "-" s' => Z.opp <$> Strconv.parse_digits s' 0
  | _ => Strconv.parse_digits s 0
  end.

(** The exact decimal value is rounded once; a value beyond the largest double is
    an error. *)
Definition parse_float (lit : string) : option F64.f64 :=
  let '(neg, body) := match lit with String "-" s => (true, s) | _ => (false, lit) end in
  let '(mant, ex) := split_at_char (fun c => Ascii.eqb c "e" || Ascii.eqb c "E") body in
  let '(ip, fp) := split_at_char (fun c => Ascii.eqb c ".") mant in
  let fp := default EmptyString fp in
  match Strconv.parse_digits (ip +:+ fp) 0,
        match ex with None => Some 0 | Some e => parse_exp e end with
  | Some m, Some e =>
    let v := F64.of_dec m (e - slen fp) in
    let v := if neg then F64.sub (SpecFloat.S754_zero true) v else v in
    match v with
    | SpecFloat.S754_infinity _ => None
    | _ => Some v
    end
  | _, _ => None
  end.

Definition dec_float : decoder F64.f64 := fun cur j =>
  match j with
  | JNum lit => parse_float lit
  | JNull => Some cur
  | _ => None
  end.
End Json.

Example parse_float_quarter : Json.parse_float "0.25" = Some (F64.of_dec 25 (-2)).
Proof. reflexivity. Qed.

Example parse_float_exp : Json.parse_float "-1.5e3" = Some (F64.of_Z (-1500)).
Proof. reflexivity. Qed.

Example field_case : Json.field_of ["total"; "wpm"] "WPM" = Some "wpm".
Proof. reflexivity. Qed.
