(* ===== verification/Protocol.v ===== *)
(** * internal/protocol and internal/runlimits: the wire format

    Message records, their discriminators and codes, the validators of room
    settings and freemods, the room-name sanitiser, and the decoders of the
    client messages.  A struct's [Type] field is the [mtype] of its record. *)

From S2P Require Import Prelude GoStd Json.

Open Scope Z_scope.

(** ** internal/runlimits *)

Module Runlimits.
Definition MaxWordCount : Z := 3000.
Definition MaxDurationMs : Z := 3600000.
Definition MaxPlausibleWpm : Z := 250.
Definition CharsPerWord : Z := 5.

(** [int(durationMs * int64(wpm) * CharsPerWord / 60_000)]: int64 products wrap,
    the division truncates towards zero. *)
Definition TimedRunKeystrokes (durationMs wpm : Z) : Z :=
  Z.quot (Int.int64 (Int.int64 (durationMs * wpm) * CharsPerWord)) 60000.
End Runlimits.

(** ** Constants *)

Definition Version : Z := 1.
Definition NickMinLen : Z := 1.
Definition NickMaxLen : Z := 16.

Definition TypeHello := "hello".
Definition TypeNTPPing := "ntp_ping".
Definition TypeCreateRoom := "create_room".
Definition TypeJoinRoom := "join_room".
Definition TypeReady := "ready".
Definition TypeSettingsUpdate := "settings_update".
Definition TypeSetFreemods := "set_freemods".
Definition TypeStartMatch := "start_match".
Definition TypeKick := "kick".
Definition TypeTransferHost := "transfer_host".
Definition TypeChatSend := "chat_send".
Definition TypeEventBatch := "event_batch".
Definition TypeFinish := "finish".
Definition TypeLeave := "leave".

Definition TypeHelloOK := "hello_ok".
Definition TypeError := "error".
Definition TypeNTPPong := "ntp_pong".
Definition TypeRoomState := "room_state".
Definition TypeCountdown := "countdown".
Definition TypeChat := "chat".
Definition TypeKicked := "kicked".
Definition TypePeerBatch := "peer_batch".
Definition TypePeerStatus := "peer_status".
Definition TypeMatchEnd := "match_end".

Definition CodeVersionMismatch := "version_mismatch".
Definition CodeBadMessage := "bad_message".
Definition CodeRoomNotFound := "room_not_found".
Definition CodeRoomFull := "room_full".
Definition CodeNotInRoom := "not_in_room".
Definition CodeForbidden := "forbidden".
Definition CodeNotReady := "not_ready".
Definition CodeRateLimited := "rate_limited".
Definition CodeSeatTakenOver := "seat_taken_over".
Definition CodeInMatchElsewhere := "in_match_elsewhere".
Definition CodeAccountRestricted := "account_restricted".
Definition CodeInternal := "internal".

Definition StatusJoined := "joined".
Definition StatusLeft := "left".
Definition StatusDisconnected := "disconnected".
Definition StatusReconnected := "reconnected".
Definition StatusFinished := "finished".
Definition StatusDNF := "dnf".

Definition ReasonAllFinished := "all_finished".
Definition ReasonDeadline := "deadline".
Definition ReasonFinishWindow := "finish_window".

Definition AfkTrailingMs : Z := 15000.
Definition AfkKickShare : F64.f64 := F64.of_dec 6 (-1).
Definition AfkWarmupMs : Z := 10000.
Definition AfkBucketMs : Z := 1000.
Definition FinishWindowMs : Z := 120000.

Definition RoomNameMinLen : Z := 1.
Definition RoomNameMaxLen : Z := 32.
Definition VisibilityOpen := "open".
Definition VisibilityPrivate := "private".
Definition ModeTime := "time".
Definition ModeWords := "words".
Definition ModeQuote := "quote".
Definition DifficultyNormal := "normal".
Definition DifficultyExpert := "expert".
Definition DifficultyMaster := "master".
Definition TextSourceSeeded := "seeded".
Definition TextSourceQuote := "quote".
Definition ChatFromSystem := "system".
Definition ChatKindJoin := "join".
Definition ChatKindLeave := "leave".
Definition ChatKindSettings := "settings_changed".
Definition ChatKindHostChanged := "host_changed".
Definition ChatTextMinLen : Z := 1.
Definition ChatTextMaxLen : Z := 200.
Definition LangMaxLen : Z := 32.
Definition DictHashMaxLen : Z := 64.
Definition QuoteIDMaxLen : Z := 64.

(** ** Values *)

Record TextModsT := {
  Punctuation : bool; Numbers : bool; RandomCase : bool; Reverse : bool; Lazy : bool }.

Record TextSourceT := { Kind : string; QuoteID : string }.

Record Settings := {
  Name : string; Visibility : string; Mode : string;
  DurationMs : Z; WordCount : Z; Lang : string; DictHash : string;
  TextMods : TextModsT; TextSource : TextSourceT }.

Record Freemods := { Difficulty : string; MinWpm : Z; Nospace : bool }.

#[export] Instance TextModsT_eq_dec : EqDecision TextModsT.
Proof. solve_decision. Defined.
#[export] Instance TextSourceT_eq_dec : EqDecision TextSourceT.
Proof. solve_decision. Defined.
#[export] Instance Settings_eq_dec : EqDecision Settings.
Proof. solve_decision. Defined.
#[export] Instance Freemods_eq_dec : EqDecision Freemods.
Proof. solve_decision. Defined.

Definition zero_TextMods : TextModsT :=
  {| Punctuation := false; Numbers := false; RandomCase := false; Reverse := false; Lazy := false |}.
Definition zero_TextSource : TextSourceT := {| Kind := ""; QuoteID := "" |}.
Definition zero_Settings : Settings :=
  {| Name := ""; Visibility := ""; Mode := ""; DurationMs := 0; WordCount := 0; Lang := "";
     DictHash := ""; TextMods := zero_TextMods; TextSource := zero_TextSource |}.
Definition zero_Freemods : Freemods := {| Difficulty := ""; MinWpm := 0; Nospace := false |}.

(** ** Client messages *)

Record Hello := { h_protocolVersion : Z; h_nick : string; h_resumeToken : string }.
Record NTPPing := { p_t0 : Z }.
Record JoinRoom := { j_code : string }.
Record Ready := { r_ready : option bool }.
Record SettingsUpdate := { su_settings : Settings }.
Record SetFreemods := { sf_freemods : Freemods }.
Record StartMatch := { sm_force : bool }.
Record Kick := { k_playerId : string }.
Record TransferHost := { t_playerId : string }.
Record ChatSend := { c_text : string }.
Record EventBatch := {
  eb_matchId : string; eb_playerId : string; eb_batchSeq : Z; eb_version : Z;
  eb_events : list json }.
Record Finish := { f_matchId : string; f_forfeit : bool }.

(** ** Server messages *)

Record HelloOK := {
  ho_type : string; ho_playerId : string; ho_serverVersion : Z; ho_resumeToken : string }.
Record Error := { e_type : string; e_code : string; e_message : string }.
Record NTPPong := { n_type : string; n_t0 : Z; n_t1 : Z; n_t2 : Z }.
Record Player := {
  pl_playerId : string; pl_nick : string; pl_isGuest : bool; pl_ready : bool;
  pl_freemods : Freemods }.
Record RoomMatch := { rm_matchId : string; rm_goAtServerMs : Z }.
Record RoomState := {
  rs_type : string; rs_code : string; rs_name : string; rs_visibility : string;
  rs_hostPlayerId : string; rs_settings : Settings; rs_players : list Player;
  rs_match : option RoomMatch }.
Record CountdownPlayer := { cp_playerId : string; cp_freemods : Freemods }.
Record Countdown := {
  cd_type : string; cd_matchId : string; cd_goAtServerMs : Z; cd_seed : Z;
  cd_settings : Settings; cd_players : list CountdownPlayer }.
Record Chat := {
  ch_type : string; ch_from : string; ch_kind : string; ch_text : string; ch_ts : Z }.
Record Kicked := { ki_type : string }.
Record PeerBatch := {
  pb_type : string; pb_playerId : string; pb_version : Z; pb_events : list json }.
Record PeerStatus := { ps_type : string; ps_playerId : string; ps_status : string }.
Record MatchResult := {
  mr_playerId : string; mr_status : string; mr_finishedAtMs : option Z;
  mr_batchCount : Z; mr_eventCount : Z; mr_afkMs : Z; mr_afkShare : F64.f64 }.
Record MatchEnd := {
  me_type : string; me_matchId : string; me_reason : string; me_results : list MatchResult }.

(** Whatever the server puts on the wire. *)
Inductive frame :=
| FHelloOK (m : HelloOK)
| FError (m : Error)
| FNTPPong (m : NTPPong)
| FRoomState (m : RoomState)
| FCountdown (m : Countdown)
| FChat (m : Chat)
| FKicked (m : Kicked)
| FPeerBatch (m : PeerBatch)
| FPeerStatus (m : PeerStatus)
| FMatchEnd (m : MatchEnd).

Definition NewHelloOK (playerID : string) : HelloOK :=
  {| ho_type := TypeHelloOK; ho_playerId := playerID; ho_serverVersion := Version;
     ho_resumeToken := "" |}.
Definition NewError (code message : string) : Error :=
  {| e_type := TypeError; e_code := code; e_message := message |}.
Definition NewNTPPong (t0 t1 t2 : Z) : NTPPong :=
  {| n_type := TypeNTPPong; n_t0 := t0; n_t1 := t1; n_t2 := t2 |}.

(** ** Validators *)

Definition ValidNick (nick : string) : bool :=
  let n := Utf8.rune_count nick in (NickMinLen <=? n) && (n <=? NickMaxLen).

Definition IsCounted (mode : string) : bool := (mode =s? ModeWords) || (mode =s? ModeQuote).

(** The loop of [SanitizeRoomName]: skip [RuneError] and control runes, stop at
    the cap. [n] runes are written so far. *)
Fixpoint sanitize_loop (n : Z) (rs : list Z) : list Z :=
  match rs with
  | [] => []
  | r :: rs' =>
    if (r =? Utf8.RuneError) || Strs.is_control r then sanitize_loop n rs'
    else if RoomNameMaxLen <=? n then []
    else r :: sanitize_loop (n + 1) rs'
  end.

Definition SanitizeRoomName (name : string) : string :=
  let name := Strs.TrimSpace name in
  Utf8.string_of_runes (sanitize_loop 0 (Utf8.runes name)).

(** [validMinWpm]: the accepted floors. *)
Definition validMinWpm (n : Z) : bool := bool_decide (n ∈ [0; 60; 80; 100]).

(** The answer is the error's text, or [None] for nil. *)
Definition ValidateSettings (s : Settings) : option string :=
  let n := Utf8.rune_count (Name s) in
  if (n <? RoomNameMinLen) || (RoomNameMaxLen <? n) then Some "name must be 1-32 characters"
  else if negb (Visibility s =s? VisibilityOpen) && negb (Visibility s =s? VisibilityPrivate)
  then Some "visibility must be 'open' or 'private'"
  else
  let dimension :=
    if Mode s =s? ModeTime then
      if DurationMs s <=? 0 then Some "durationMs must be positive for time mode"
      else if Runlimits.MaxDurationMs <? DurationMs s
      then Some ("durationMs must be at most " +:+ Strconv.Itoa Runlimits.MaxDurationMs)
      else None
    else if (Mode s =s? ModeWords) || (Mode s =s? ModeQuote) then
      if WordCount s <=? 0
      then Some ("wordCount must be positive for " +:+ Mode s +:+ " mode")
      else if Runlimits.MaxWordCount <? WordCount s
      then Some ("wordCount must be at most " +:+ Strconv.Itoa Runlimits.MaxWordCount)
      else None
    else Some "mode must be 'time', 'words' or 'quote'" in
  match dimension with
  | Some e => Some e
  | None =>
  if Lang s =s? "" then Some "lang is required"
  else if LangMaxLen <? Utf8.rune_count (Lang s)
  then Some ("lang must be at most " +:+ Strconv.Itoa LangMaxLen +:+ " characters")
  else if Mode s =s? ModeQuote then
    if negb (Kind (TextSource s) =s? TextSourceQuote)
    then Some "quote mode requires textSource.kind 'quote'"
    else if QuoteID (TextSource s) =s? ""
    then Some "textSource.quoteId is required for quote mode"
    else if QuoteIDMaxLen <? Utf8.rune_count (QuoteID (TextSource s))
    then Some ("textSource.quoteId must be at most " +:+ Strconv.Itoa QuoteIDMaxLen +:+ " characters")
    else None
  else if DictHash s =s? "" then Some "dictHash is required"
  else if DictHashMaxLen <? Utf8.rune_count (DictHash s)
  then Some ("dictHash must be at most " +:+ Strconv.Itoa DictHashMaxLen +:+ " characters")
  else if negb (Kind (TextSource s) =s? TextSourceSeeded)
  then Some "textSource.kind must be 'seeded'"
  else None
  end.

Definition ValidateFreemods (f : Freemods) : option string :=
  if negb ((Difficulty f =s? DifficultyNormal) || (Difficulty f =s? DifficultyExpert)
           || (Difficulty f =s? DifficultyMaster))
  then Some "difficulty must be normal, expert, or master"
  else if negb (validMinWpm (MinWpm f)) then Some "minWpm must be 0, 60, 80, or 100"
  else None.

Definition DefaultFreemods : Freemods :=
  {| Difficulty := DifficultyNormal; MinWpm := 0; Nospace := false |}.

Definition DefaultSettings (name : string) : Settings :=
  let name := SanitizeRoomName name in
  let name := if name =s? "" then "Room" else name in
  {| Name := name; Visibility := VisibilityPrivate; Mode := ModeTime; DurationMs := 30000;
     WordCount := 0; Lang := "en"; DictHash := "en-default"; TextMods := zero_TextMods;
     TextSource := {| Kind := TextSourceSeeded; QuoteID := "" |} |}.

(** ** Decoding client messages

    One decoder per struct, following its [json] tags.  [put_f] writes the field
    [f] and leaves the others. *)

Definition put_Punctuation (v : bool) (r : TextModsT) : TextModsT :=
  {| Punctuation := v; Numbers := Numbers r; RandomCase := RandomCase r; Reverse := Reverse r;
     Lazy := Lazy r |}.
Definition put_Numbers (v : bool) (r : TextModsT) : TextModsT :=
  {| Punctuation := Punctuation r; Numbers := v; RandomCase := RandomCase r; Reverse := Reverse
     r; Lazy := Lazy r |}.
Definition put_RandomCase (v : bool) (r : TextModsT) : TextModsT :=
  {| Punctuation := Punctuation r; Numbers := Numbers r; RandomCase := v; Reverse := Reverse r;
     Lazy := Lazy r |}.
Definition put_Reverse (v : bool) (r : TextModsT) : TextModsT :=
  {| Punctuation := Punctuation r; Numbers := Numbers r; RandomCase := RandomCase r; Reverse :=
     v; Lazy := Lazy r |}.
Definition put_Lazy (v : bool) (r : TextModsT) : TextModsT :=
  {| Punctuation := Punctuation r; Numbers := Numbers r; RandomCase := RandomCase r; Reverse :=
     Reverse r; Lazy := v |}.

Definition put_Kind (v : string) (r : TextSourceT) : TextSourceT :=
  {| Kind := v; QuoteID := QuoteID r |}.
Definition put_QuoteID (v : string) (r : TextSourceT) : TextSourceT :=
  {| Kind := Kind r; QuoteID := v |}.

Definition put_Name (v : string) (r : Settings) : Settings :=
  {| Name := v; Visibility := Visibility r; Mode := Mode r; DurationMs := DurationMs r; WordCount
     := WordCount r; Lang := Lang r; DictHash := DictHash r; TextMods := TextMods r; TextSource
     := TextSource r |}.
Definition put_Visibility (v : string) (r : Settings) : Settings :=
  {| Name := Name r; Visibility := v; Mode := Mode r; DurationMs := DurationMs r; WordCount :=
     WordCount r; Lang := Lang r; DictHash := DictHash r; TextMods := TextMods r; TextSource :=
     TextSource r |}.
Definition put_Mode (v : string) (r : Settings) : Settings :=
  {| Name := Name r; Visibility := Visibility r; Mode := v; DurationMs := DurationMs r; WordCount
     := WordCount r; Lang := Lang r; DictHash := DictHash r; TextMods := TextMods r; TextSource
     := TextSource r |}.
Definition put_DurationMs (v : Z) (r : Settings) : Settings :=
  {| Name := Name r; Visibility := Visibility r; Mode := Mode r; DurationMs := v; WordCount :=
     WordCount r; Lang := Lang r; DictHash := DictHash r; TextMods := TextMods r; TextSource :=
     TextSource r |}.
Definition put_WordCount (v : Z) (r : Settings) : Settings :=
  {| Name := Name r; Visibility := Visibility r; Mode := Mode r; DurationMs := DurationMs r;
     WordCount := v; Lang := Lang r; DictHash := DictHash r; TextMods := TextMods r; TextSource
     := TextSource r |}.
Definition put_Lang (v : string) (r : Settings) : Settings :=
  {| Name := Name r; Visibility := Visibility r; Mode := Mode r; DurationMs := DurationMs r;
     WordCount := WordCount r; Lang := v; DictHash := DictHash r; TextMods := TextMods r;
     TextSource := TextSource r |}.
Definition put_DictHash (v : string) (r : Settings) : Settings :=
  {| Name := Name r; Visibility := Visibility r; Mode := Mode r; DurationMs := DurationMs r;
     WordCount := WordCount r; Lang := Lang r; DictHash := v; TextMods := TextMods r; TextSource
     := TextSource r |}.
Definition put_TextMods (v : TextModsT) (r : Settings) : Settings :=
  {| Name := Name r; Visibility := Visibility r; Mode := Mode r; DurationMs := DurationMs r;
     WordCount := WordCount r; Lang := Lang r; DictHash := DictHash r; TextMods := v; TextSource
     := TextSource r |}.
Definition put_TextSource (v : TextSourceT) (r : Settings) : Settings :=
  {| Name := Name r; Visibility := Visibility r; Mode := Mode r; DurationMs := DurationMs r;
     WordCount := WordCount r; Lang := Lang r; DictHash := DictHash r; TextMods := TextMods r;
     TextSource := v |}.

Definition put_Difficulty (v : string) (r : Freemods) : Freemods :=
  {| Difficulty := v; MinWpm := MinWpm r; Nospace := Nospace r |}.
Definition put_MinWpm (v : Z) (r : Freemods) : Freemods :=
  {| Difficulty := Difficulty r; MinWpm := v; Nospace := Nospace r |}.
Definition put_Nospace (v : bool) (r : Freemods) : Freemods :=
  {| Difficulty := Difficulty r; MinWpm := MinWpm r; Nospace := v |}.

Definition put_h_protocolVersion (v : Z) (r : Hello) : Hello :=
  {| h_protocolVersion := v; h_nick := h_nick r; h_resumeToken := h_resumeToken r |}.
Definition put_h_nick (v : string) (r : Hello) : Hello :=
  {| h_protocolVersion := h_protocolVersion r; h_nick := v; h_resumeToken := h_resumeToken r |}.
Definition put_h_resumeToken (v : string) (r : Hello) : Hello :=
  {| h_protocolVersion := h_protocolVersion r; h_nick := h_nick r; h_resumeToken := v |}.

Definition put_eb_matchId (v : string) (r : EventBatch) : EventBatch :=
  {| eb_matchId := v; eb_playerId := eb_playerId r; eb_batchSeq := eb_batchSeq r; eb_version :=
     eb_version r; eb_events := eb_events r |}.
Definition put_eb_playerId (v : string) (r : EventBatch) : EventBatch :=
  {| eb_matchId := eb_matchId r; eb_playerId := v; eb_batchSeq := eb_batchSeq r; eb_version :=
     eb_version r; eb_events := eb_events r |}.
Definition put_eb_batchSeq (v : Z) (r : EventBatch) : EventBatch :=
  {| eb_matchId := eb_matchId r; eb_playerId := eb_playerId r; eb_batchSeq := v; eb_version :=
     eb_version r; eb_events := eb_events r |}.
Definition put_eb_version (v : Z) (r : EventBatch) : EventBatch :=
  {| eb_matchId := eb_matchId r; eb_playerId := eb_playerId r; eb_batchSeq := eb_batchSeq r;
     eb_version := v; eb_events := eb_events r |}.
Definition put_eb_events (v : list json) (r : EventBatch) : EventBatch :=
  {| eb_matchId := eb_matchId r; eb_playerId := eb_playerId r; eb_batchSeq := eb_batchSeq r;
     eb_version := eb_version r; eb_events := v |}.

Definition put_f_matchId (v : string) (r : Finish) : Finish :=
  {| f_matchId := v; f_forfeit := f_forfeit r |}.
Definition put_f_forfeit (v : bool) (r : Finish) : Finish :=
  {| f_matchId := f_matchId r; f_forfeit := v |}.

Definition dec_TextMods : Json.decoder TextModsT :=
  Json.dec_struct ["punctuation"; "numbers"; "randomCase"; "reverse"; "lazy"] (fun f =>
    if f =s? "punctuation" then Json.field Punctuation put_Punctuation Json.dec_bool
    else if f =s? "numbers" then Json.field Numbers put_Numbers Json.dec_bool
    else if f =s? "randomCase" then Json.field RandomCase put_RandomCase Json.dec_bool
    else if f =s? "reverse" then Json.field Reverse put_Reverse Json.dec_bool
    else Json.field Lazy put_Lazy Json.dec_bool).

Definition dec_TextSource : Json.decoder TextSourceT :=
  Json.dec_struct ["kind"; "quoteId"] (fun f =>
    if f =s? "kind" then Json.field Kind put_Kind Json.dec_string
    else Json.field QuoteID put_QuoteID Json.dec_string).

Definition dec_Settings : Json.decoder Settings :=
  Json.dec_struct ["name"; "visibility"; "mode"; "durationMs"; "wordCount"; "lang"; "dictHash"; "textMods"; "textSource"] (fun f =>
    if f =s? "name" then Json.field Name put_Name Json.dec_string
    else if f =s? "visibility" then Json.field Visibility put_Visibility Json.dec_string
    else if f =s? "mode" then Json.field Mode put_Mode Json.dec_string
    else if f =s? "durationMs" then Json.field DurationMs put_DurationMs (Json.dec_int 64)
    else if f =s? "wordCount" then Json.field WordCount put_WordCount (Json.dec_int 64)
    else if f =s? "lang" then Json.field Lang put_Lang Json.dec_string
    else if f =s? "dictHash" then Json.field DictHash put_DictHash Json.dec_string
    else if f =s? "textMods" then Json.field TextMods put_TextMods dec_TextMods
    else Json.field TextSource put_TextSource dec_TextSource).

Definition dec_Freemods : Json.decoder Freemods :=
  Json.dec_struct ["difficulty"; "minWpm"; "nospace"] (fun f =>
    if f =s? "difficulty" then Json.field Difficulty put_Difficulty Json.dec_string
    else if f =s? "minWpm" then Json.field MinWpm put_MinWpm (Json.dec_int 64)
    else Json.field Nospace put_Nospace Json.dec_bool).

Definition dec_Hello : Json.decoder Hello :=
  Json.dec_struct ["protocolVersion"; "nick"; "resumeToken"] (fun f =>
    if f =s? "protocolVersion" then Json.field h_protocolVersion put_h_protocolVersion (Json.dec_int 64)
    else if f =s? "nick" then Json.field h_nick put_h_nick Json.dec_string
    else Json.field h_resumeToken put_h_resumeToken Json.dec_string).

Definition dec_EventBatch : Json.decoder EventBatch :=
  Json.dec_struct ["matchId"; "playerId"; "batchSeq"; "version"; "events"] (fun f =>
    if f =s? "matchId" then Json.field eb_matchId put_eb_matchId Json.dec_string
    else if f =s? "playerId" then Json.field eb_playerId put_eb_playerId Json.dec_string
    else if f =s? "batchSeq" then Json.field eb_batchSeq put_eb_batchSeq (Json.dec_int 64)
    else if f =s? "version" then Json.field eb_version put_eb_version (Json.dec_int 64)
    else Json.field eb_events put_eb_events Json.dec_raws).

Definition dec_Finish : Json.decoder Finish :=
  Json.dec_struct ["matchId"; "forfeit"] (fun f =>
    if f =s? "matchId" then Json.field f_matchId put_f_matchId Json.dec_string
    else Json.field f_forfeit put_f_forfeit Json.dec_bool).

Definition dec_NTPPing : Json.decoder NTPPing :=
  Json.dec_struct ["t0"] (fun _ => Json.field p_t0 (fun v _ => {| p_t0 := v |}) (Json.dec_int 64)).
Definition dec_JoinRoom : Json.decoder JoinRoom :=
  Json.dec_struct ["code"] (fun _ => Json.field j_code (fun v _ => {| j_code := v |}) Json.dec_string).
Definition dec_Ready : Json.decoder Ready :=
  Json.dec_struct ["ready"] (fun _ => Json.field r_ready (fun v _ => {| r_ready := v |}) (Json.dec_ptr false Json.dec_bool)).
Definition dec_SettingsUpdate : Json.decoder SettingsUpdate :=
  Json.dec_struct ["settings"] (fun _ => Json.field su_settings (fun v _ => {| su_settings := v |}) dec_Settings).
Definition dec_SetFreemods : Json.decoder SetFreemods :=
  Json.dec_struct ["freemods"] (fun _ => Json.field sf_freemods (fun v _ => {| sf_freemods := v |}) dec_Freemods).
Definition dec_StartMatch : Json.decoder StartMatch :=
  Json.dec_struct ["force"] (fun _ => Json.field sm_force (fun v _ => {| sm_force := v |}) Json.dec_bool).
Definition dec_Kick : Json.decoder Kick :=
  Json.dec_struct ["playerId"] (fun _ => Json.field k_playerId (fun v _ => {| k_playerId := v |}) Json.dec_string).
Definition dec_TransferHost : Json.decoder TransferHost :=
  Json.dec_struct ["playerId"] (fun _ => Json.field t_playerId (fun v _ => {| t_playerId := v |}) Json.dec_string).
Definition dec_ChatSend : Json.decoder ChatSend :=
  Json.dec_struct ["text"] (fun _ => Json.field c_text (fun v _ => {| c_text := v |}) Json.dec_string).

(** [Envelope]: the discriminator alone. *)
Definition dec_Envelope : Json.decoder string :=
  Json.dec_struct ["type"] (fun _ => Json.dec_string).

(** ** Properties *)

(** What a valid room configuration is, as the protocol document lists it. *)
Definition settings_ok (s : Settings) : Prop :=
  (RoomNameMinLen <= Utf8.rune_count (Name s) <= RoomNameMaxLen)
  /\ (Visibility s = VisibilityOpen \/ Visibility s = VisibilityPrivate)
  /\ (Mode s = ModeTime /\ 0 < DurationMs s <= Runlimits.MaxDurationMs
      \/ (Mode s = ModeWords \/ Mode s = ModeQuote) /\ 0 < WordCount s <= Runlimits.MaxWordCount)
  /\ (Lang s <> "" /\ Utf8.rune_count (Lang s) <= LangMaxLen)
  /\ (Mode s = ModeQuote -> Kind (TextSource s) = TextSourceQuote
        /\ QuoteID (TextSource s) <> ""
        /\ Utf8.rune_count (QuoteID (TextSource s)) <= QuoteIDMaxLen)
  /\ (Mode s <> ModeQuote -> Kind (TextSource s) = TextSourceSeeded
        /\ DictHash s <> "" /\ Utf8.rune_count (DictHash s) <= DictHashMaxLen).

Lemma sanitize_loop_spec n rs :
  0 <= n <= RoomNameMaxLen ->
  sanitize_loop n rs =
  take (Z.to_nat (RoomNameMaxLen - n))
    (filter (fun r => r <> Utf8.RuneError /\ Strs.is_control r = false) rs).
Proof.
  revert n. induction rs as [|r rs IH]; intros n Hn; simpl; [by rewrite filter_nil, take_nil|].
  rewrite filter_cons. destruct (r =? Utf8.RuneError) eqn:He; simpl; bool_to_prop.
  { rewrite decide_False by naive_solver. auto. }
  destruct (Strs.is_control r) eqn:Hc.
  { rewrite decide_False by naive_solver. auto. }
  rewrite decide_True by done. destruct (RoomNameMaxLen <=? n) eqn:Hl; bool_to_prop.
  { by replace (Z.to_nat (RoomNameMaxLen - n)) with 0%nat by lia. }
  replace (Z.to_nat (RoomNameMaxLen - n)) with (S (Z.to_nat (RoomNameMaxLen - (n + 1)))) by lia.
  simpl. f_equal. apply IH. lia.
Qed.

Lemma runes_SanitizeRoomName name :
  Utf8.runes (SanitizeRoomName name) =
  take (Z.to_nat RoomNameMaxLen)
    (filter (fun r => r <> Utf8.RuneError /\ Strs.is_control r = false)
       (Utf8.runes (Strs.TrimSpace name))).
Proof.
  unfold SanitizeRoomName. rewrite sanitize_loop_spec by done.
  rewrite Utf8.runes_string_of_runes; [by rewrite Z.sub_0_r|].
  apply Forall_take, Forall_forall. intros r [_ Hr]%list_elem_of_filter.
  by eapply Forall_forall in Hr; [|apply Utf8.runes_valid].
Qed.

Lemma rune_count_SanitizeRoomName name :
  0 <= Utf8.rune_count (SanitizeRoomName name) <= RoomNameMaxLen.
Proof.
  unfold Utf8.rune_count. rewrite runes_SanitizeRoomName, length_take.
  unfold RoomNameMaxLen. lia.
Qed.

(** A guard that answers an error, read backwards: no error means the test failed
    and the rest had none either. *)
Lemma guard_None {E} (b : bool) (e : E) (k : option E) :
  (if b then Some e else k) = None <-> b = false /\ k = None.
Proof. destruct b; naive_solver. Qed.

Lemma first_error_None {E} (a k : option E) :
  (match a with Some e => Some e | None => k end) = None <-> a = None /\ k = None.
Proof. destruct a; naive_solver. Qed.

Lemma eqb_false_ne a b : (a =s? b) = false <-> a <> b.
Proof. apply String.eqb_neq. Qed.

Lemma negb_eqb_false a b : negb (a =s? b) = false <-> a = b.
Proof. rewrite negb_false_iff. apply String.eqb_eq. Qed.

Lemma mode_cases m :
  m = ModeTime \/ m = ModeWords \/ m = ModeQuote
  \/ ((m =s? ModeTime) = false /\ (m =s? ModeWords) = false /\ (m =s? ModeQuote) = false).
Proof. rewrite !eqb_false_ne. destruct (decide (m = ModeTime)), (decide (m = ModeWords)),
  (decide (m = ModeQuote)); tauto. Qed.

Lemma ValidateSettings_ok s : ValidateSettings s = None <-> settings_ok s.
Proof.
  unfold ValidateSettings, settings_ok.
  rewrite guard_None, guard_None, first_error_None, guard_None, guard_None.
  rewrite orb_false_iff, andb_false_iff, !Z.ltb_ge, !negb_eqb_false, eqb_false_ne.
  destruct (mode_cases (Mode s)) as [Hm|[Hm|[Hm|(Ht & Hw & Hq)]]];
    [rewrite !Hm..|rewrite Ht, Hw, Hq]; simpl;
    rewrite ?guard_None, ?Z.leb_gt, ?Z.ltb_ge, ?negb_eqb_false, ?eqb_false_ne.
  - intuition (discriminate || lia || auto).
  - intuition (discriminate || lia || auto).
  - intuition (discriminate || lia || auto).
  - rewrite eqb_false_ne in *. intuition (discriminate || lia || auto).
Qed.

(** [ValidateSettings] accepts exactly the configurations of [settings_ok]:
    the room dimensions stay inside the run limits, a quote room names its quote,
    a seeded room its dictionary, and every echoed string is capped. *)
Theorem validate_settings_spec s : ValidateSettings s = None <-> settings_ok s.
Proof. apply ValidateSettings_ok. Qed.

(** What [SanitizeRoomName] stores: the runes of the trimmed name that are
    neither invalid nor control characters, in order, cut at 32. *)
Theorem sanitize_room_name_spec name :
  Utf8.runes (SanitizeRoomName name) =
  take (Z.to_nat RoomNameMaxLen)
    (filter (fun r => r <> Utf8.RuneError /\ Strs.is_control r = false)
       (Utf8.runes (Strs.TrimSpace name))).
Proof. apply runes_SanitizeRoomName. Qed.

Lemma rune_count_DefaultSettings name :
  RoomNameMinLen <= Utf8.rune_count (Name (DefaultSettings name)) <= RoomNameMaxLen.
Proof.
  unfold DefaultSettings. cbn [Name].
  destruct (_ =s? "") eqn:He; bool_to_prop; [by vm_compute|].
  pose proof (rune_count_SanitizeRoomName name). unfold RoomNameMinLen.
  destruct (decide (Utf8.rune_count (SanitizeRoomName name) = 0)) as [H0|]; [|lia].
  by apply Utf8.rune_count_empty in H0.
Qed.

Lemma default_settings_ok name : settings_ok (DefaultSettings name).
Proof.
  pose proof (rune_count_DefaultSettings name).
  unfold settings_ok. split_and!; try lia; try done; [by right|by left].
Qed.

(** Whatever name is asked for, a freshly created room's settings pass the
    validator a host's update has to pass. *)
Theorem default_settings_valid name : ValidateSettings (DefaultSettings name) = None.
Proof. apply ValidateSettings_ok, default_settings_ok. Qed.

(** The same name, as sanitised again: trimming comes before the control
    characters are dropped, so a space they protected comes to the front. *)
Example sanitize_twice :
  SanitizeRoomName (String (Ascii.ascii_of_nat 1) " a") = " a" /\ SanitizeRoomName " a" = "a".
Proof. split; reflexivity. Qed.

Lemma TimedRunKeystrokes_mono d w :
  0 <= d <= Runlimits.MaxDurationMs -> 0 <= w <= Runlimits.MaxPlausibleWpm ->
  0 <= Runlimits.TimedRunKeystrokes d w
    <= Runlimits.TimedRunKeystrokes Runlimits.MaxDurationMs Runlimits.MaxPlausibleWpm.
Proof.
  intros Hd Hw. change (Runlimits.TimedRunKeystrokes Runlimits.MaxDurationMs _) with 75000.
  unfold Runlimits.MaxDurationMs, Runlimits.MaxPlausibleWpm in *.
  assert (0 <= d * w <= 3600000 * 250) by nia.
  unfold Runlimits.TimedRunKeystrokes, Int.int64, Runlimits.CharsPerWord.
  rewrite (Int.wrap_id 64 (d * w)) by (unfold Int.in_range; lia).
  rewrite Int.wrap_id by (unfold Int.in_range; lia).
  rewrite Z.quot_div_nonneg by lia. lia.
Qed.
