(* ===== verification/Ratelimit.v ===== *)
(** * internal/ws/ratelimit.go: the per-connection token buckets

    Tokens are binary64, as in the code; an instant is a count of nanoseconds,
    [None] the zero [time.Time]. *)

From S2P Require Import Prelude GoStd.

Open Scope Z_scope.

Definition millisecond : Z := 1000000.
Definition second : Z := 1000000000.

Definition commandBurst : Z := 20.
Definition commandRefill : Z := 250 * millisecond.
Definition batchBurst : Z := 40.
Definition batchRefill : Z := 50 * millisecond.
Definition chatBurst : Z := 5.
Definition chatRefill : Z := 400 * millisecond.

Record bucket := { b_tokens : F64.f64; b_last : option Z }.
Definition zero_bucket : bucket := {| b_tokens := F64.zero; b_last := None |}.

(** [Time.Sub] saturates at the ends of int64. *)
Definition time_Sub (t u : Z) : Z := Z.max (- 2 ^ 63) (Z.min (2 ^ 63 - 1) (t - u)).

(** [Duration.Seconds] *)
Definition Seconds (d : Z) : F64.f64 :=
  F64.add (F64.of_Z (Z.quot d second)) (F64.div (F64.of_Z (Z.rem d second)) (F64.of_Z second)).

(** [bucket.allow] *)
Definition allow (b : bucket) (now burst refill : Z) : bool * bucket :=
  let tokens :=
    match b_last b with
    | None => F64.of_Z burst
    | Some last =>
      F64.min (F64.of_Z burst)
        (F64.add (b_tokens b) (F64.div (Seconds (time_Sub now last)) (Seconds refill)))
    end in
  if F64.ltb tokens (F64.of_Z 1)
  then (false, {| b_tokens := tokens; b_last := Some now |})
  else (true, {| b_tokens := F64.sub tokens (F64.of_Z 1); b_last := Some now |}).

(** A sequence of requests at the given instants: which of them pass. *)
Fixpoint allow_all (b : bucket) (nows : list Z) (burst refill : Z) : list bool * bucket :=
  match nows with
  | [] => ([], b)
  | now :: nows =>
    let '(ok, b) := allow b now burst refill in
    let '(oks, b) := allow_all b nows burst refill in
    (ok :: oks, b)
  end.

(** ** Properties *)

(** The three budgets of a connection. *)
Inductive budget : Z -> Z -> Prop :=
| budget_commands : budget commandBurst commandRefill
| budget_batches : budget batchBurst batchRefill
| budget_chats : budget chatBurst chatRefill.

Lemma time_Sub_diag t : time_Sub t t = 0.
Proof. unfold time_Sub. lia. Qed.

Lemma allow_same_instant tokens t burst refill :
  allow {| b_tokens := tokens; b_last := Some t |} t burst refill =
  let x := F64.min (F64.of_Z burst) (F64.add tokens (F64.div (Seconds 0) (Seconds refill))) in
  if F64.ltb x (F64.of_Z 1) then (false, {| b_tokens := x; b_last := Some t |})
  else (true, {| b_tokens := F64.sub x (F64.of_Z 1); b_last := Some t |}).
Proof. unfold allow. cbn [b_last b_tokens]. by rewrite time_Sub_diag. Qed.

(** An empty bucket stays empty at the same instant. *)
Lemma allow_all_empty burst refill t n :
  budget burst refill ->
  (allow_all {| b_tokens := F64.zero; b_last := Some t |} (replicate n t) burst refill).1
  = replicate n false.
Proof.
  intros Hb. induction n as [|n IH]; [done|]. cbn [replicate allow_all].
  assert (allow {| b_tokens := F64.zero; b_last := Some t |} t burst refill
          = (false, {| b_tokens := F64.zero; b_last := Some t |})) as ->.
  { rewrite allow_same_instant. by destruct Hb; vm_compute. }
  destruct (allow_all _ _ _ _) as [oks b]. cbn [fst] in *. by rewrite IH.
Qed.

Lemma allow_all_app b l1 l2 burst refill :
  allow_all b (l1 ++ l2) burst refill =
  let '(r1, b1) := allow_all b l1 burst refill in
  let '(r2, b2) := allow_all b1 l2 burst refill in (r1 ++ r2, b2).
Proof.
  revert b. induction l1 as [|t l1 IH]; intros b; cbn [app allow_all].
  - by destruct (allow_all b l2 _ _).
  - destruct (allow b t _ _) as [ok b1]. rewrite IH.
    destruct (allow_all b1 l1 _ _) as [r1 b2]. by destruct (allow_all b2 l2 _ _).
Qed.

(** With [k] whole tokens a request takes one, for every [k] up to the burst. *)
Lemma allow_whole burst refill t k :
  budget burst refill -> 1 <= k <= burst ->
  allow {| b_tokens := F64.of_Z k; b_last := Some t |} t burst refill
  = (true, {| b_tokens := F64.of_Z (k - 1); b_last := Some t |}).
Proof.
  intros Hb Hk. rewrite allow_same_instant. cbv zeta.
  set (x := fun k => F64.min (F64.of_Z burst) (F64.add (F64.of_Z k) (F64.div (Seconds 0) (Seconds refill)))).
  assert (Forall (fun k => F64.ltb (x k) (F64.of_Z 1) = false
                          /\ F64.sub (x k) (F64.of_Z 1) = F64.of_Z (k - 1)) (seqZ 1 burst)) as Hall.
  { subst x. destruct Hb; match goal with |- Forall _ ?l => let l' := eval vm_compute in l in
      change l with l' end; repeat (apply Forall_cons; split; [by vm_compute|]); apply Forall_nil_2. }
  rewrite Forall_forall in Hall. destruct (Hall k) as [E1 E2]; [apply elem_of_seqZ; lia|].
  fold (x k). by rewrite E1, E2.
Qed.

Lemma allow_fresh burst refill t :
  budget burst refill ->
  allow zero_bucket t burst refill = (true, {| b_tokens := F64.of_Z (burst - 1); b_last := Some t |}).
Proof. intros Hb. by destruct Hb; vm_compute. Qed.

Lemma allow_all_whole burst refill t k n :
  budget burst refill -> Z.of_nat n <= k <= burst ->
  allow_all {| b_tokens := F64.of_Z k; b_last := Some t |} (replicate n t) burst refill
  = (replicate n true, {| b_tokens := F64.of_Z (k - Z.of_nat n); b_last := Some t |}).
Proof.
  intros Hb. revert k. induction n as [|n IH]; intros k Hk; cbn [replicate allow_all].
  { by rewrite Z.sub_0_r. }
  rewrite allow_whole by (done || lia). rewrite IH by lia.
  by replace (k - 1 - Z.of_nat n) with (k - Z.of_nat (S n)) by lia.
Qed.

(** Of any number of requests at one instant on an unused budget, exactly the
    first [burst] pass: 20 commands, 40 event batches, 5 chat lines. *)
Theorem burst_exact burst refill t n :
  budget burst refill ->
  (allow_all zero_bucket (replicate n t) burst refill).1
  = replicate (Nat.min n (Z.to_nat burst)) true ++ replicate (n - Z.to_nat burst) false.
Proof.
  intros Hb. assert (0 < burst) as Hpos by by destruct Hb.
  destruct n as [|n]; [done|]. set (k := Nat.min n (Z.to_nat burst - 1)).
  replace (replicate (S n) t) with (t :: replicate k t ++ replicate (S n - Z.to_nat burst) t).
  2:{ rewrite <- replicate_add. cbn [replicate]. do 2 f_equal. lia. }
  cbn [allow_all]. rewrite allow_fresh, allow_all_app, allow_all_whole by (done || lia).
  replace (Nat.min (S n) (Z.to_nat burst)) with (S k) by lia. cbn [replicate app].
  destruct (decide (S n <= Z.to_nat burst)%nat) as [Hle|Hgt].
  - replace (S n - Z.to_nat burst)%nat with 0%nat by lia. cbn. by rewrite app_nil_r.
  - replace (burst - 1 - Z.of_nat k) with 0 by lia.
    pose proof (allow_all_empty burst refill t (S n - Z.to_nat burst) Hb) as He.
    change (F64.of_Z 0) with F64.zero. destruct (allow_all _ _ _ _) as [oks b]. cbn [fst] in *.
    by rewrite He.
Qed.

Lemma burst_exact_witness :
  (allow_all zero_bucket (replicate 6 77) chatBurst chatRefill).1
  = [true; true; true; true; true; false].
Proof. apply (burst_exact chatBurst chatRefill 77 6). constructor. Defined.

(** An emptied budget passes a request after one refill interval and refuses it
    one nanosecond earlier. *)
Theorem refill_exact burst refill t :
  budget burst refill ->
  (allow {| b_tokens := F64.zero; b_last := Some t |} (t + refill) burst refill).1 = true
  /\ (allow {| b_tokens := F64.zero; b_last := Some t |} (t + refill - 1) burst refill).1 = false.
Proof.
  intros Hb. unfold allow. cbn [b_last b_tokens].
  assert (time_Sub (t + refill) t = refill /\ time_Sub (t + refill - 1) t = refill - 1) as [-> ->].
  { unfold time_Sub. assert (0 < refill < 2 ^ 40) by by destruct Hb. lia. }
  by destruct Hb; vm_compute.
Qed.

Lemma refill_exact_witness :
  (allow {| b_tokens := F64.zero; b_last := Some 5 |} (5 + commandRefill) commandBurst commandRefill).1
  = true.
Proof. apply (refill_exact commandBurst commandRefill 5). constructor. Defined.
