(* ===== verification/HashGate.v ===== *)
(** * internal/auth/hashgate.go: how many password hashes run at once

    The gate as the goroutines that go through it: each atomic access (a slot sent or
    received, an atomic counter, a compare-and-swap) is one step, and any goroutine may
    take the next one. *)

From S2P Require Import Prelude GoStd.

Open Scope Z_scope.

Definition HashCostBytes : Z := 19 * 1024 * 1024.
Definition minHashConcurrency : Z := 2.
Definition maxHashConcurrency : Z := 64.

(** [HashConcurrencyFor]; the argument is a uint64, its quotient fits an int. *)
Definition HashConcurrencyFor (budgetBytes : Z) : Z :=
  let n := budgetBytes / HashCostBytes in
  if n <? minHashConcurrency then minHashConcurrency
  else if maxHashConcurrency <? n then maxHashConcurrency else n.

(** cmd/server's [hashConcurrency]: an explicit count, else what the memory budget (its
    own setting, a quarter of the ceiling, or 512 MiB) and the processors allow.  Zero is
    the value of a setting that is absent, or of an unknown ceiling. *)
Definition hashMemoryFraction : Z := 4.
Definition hashHeapMultiplier : Z := 3.
Definition hashCPUFactor : Z := 2.
Definition hashFallbackBudget : Z := Z.shiftl 512 20.

Definition hashConcurrency (configured memoryBudget ceiling gomaxprocs : Z) : Z :=
  if 0 <? configured then configured
  else
    let budget := if memoryBudget =? 0
                  then if 0 <? ceiling then ceiling / hashMemoryFraction else hashFallbackBudget
                  else memoryBudget in
    let n := HashConcurrencyFor (budget / hashHeapMultiplier) in
    let cpuCap := gomaxprocs * hashCPUFactor in
    if cpuCap <? n then cpuCap else n.

(** Where a goroutine is.  [stamp] is not in the code: it numbers the increments of
    the in-flight counter, and [n] is what the increment returned. *)
Inductive phase :=
| Arriving                            (* acquire, before the fast path *)
| Waiting                             (* the second select *)
| Taken                               (* a slot was sent; count() begins *)
| LetIn                            (* admitted.Add(1) *)
| Counting (n : Z) (stamp : nat)      (* inFlight.Add(1) returned n *)
| Swapping (n old : Z) (stamp : nat)  (* peak.Load() returned old < n *)
| Hashing (n : Z) (stamp : nat)
| Leaving                             (* done(): inFlight.Add(-1) *)
| Gone                                (* the slot was received back *)
| Shed.

Record gate := {
  g_slots : Z;      (* how many are in the channel *)
  g_inFlight : Z; g_peak : Z; g_admitted : Z; g_shed : Z;
  g_stamp : nat;
  g_threads : list phase }.

(** [newHashGate] with a positive limit; the limit is the channel's capacity. *)
Definition newHashGate : gate :=
  {| g_slots := 0; g_inFlight := 0; g_peak := 0; g_admitted := 0; g_shed := 0;
     g_stamp := 0; g_threads := [] |}.

Definition moved (i : nat) (p : phase) (g : gate) : gate :=
  {| g_slots := g_slots g; g_inFlight := g_inFlight g; g_peak := g_peak g; g_admitted := g_admitted g;
     g_shed := g_shed g; g_stamp := g_stamp g; g_threads := <[i := p]> (g_threads g) |}.

Definition withSlots (n : Z) (g : gate) : gate :=
  {| g_slots := n; g_inFlight := g_inFlight g; g_peak := g_peak g; g_admitted := g_admitted g;
     g_shed := g_shed g; g_stamp := g_stamp g; g_threads := g_threads g |}.
Definition withFlight (n : Z) (g : gate) : gate :=
  {| g_slots := g_slots g; g_inFlight := n; g_peak := g_peak g; g_admitted := g_admitted g;
     g_shed := g_shed g; g_stamp := g_stamp g; g_threads := g_threads g |}.
Definition withPeak (n : Z) (g : gate) : gate :=
  {| g_slots := g_slots g; g_inFlight := g_inFlight g; g_peak := n; g_admitted := g_admitted g;
     g_shed := g_shed g; g_stamp := g_stamp g; g_threads := g_threads g |}.
Definition withAdmitted (n : Z) (g : gate) : gate :=
  {| g_slots := g_slots g; g_inFlight := g_inFlight g; g_peak := g_peak g; g_admitted := n;
     g_shed := g_shed g; g_stamp := g_stamp g; g_threads := g_threads g |}.
Definition withShed (n : Z) (g : gate) : gate :=
  {| g_slots := g_slots g; g_inFlight := g_inFlight g; g_peak := g_peak g; g_admitted := g_admitted g;
     g_shed := n; g_stamp := g_stamp g; g_threads := g_threads g |}.
Definition withStamp (n : nat) (g : gate) : gate :=
  {| g_slots := g_slots g; g_inFlight := g_inFlight g; g_peak := g_peak g; g_admitted := g_admitted g;
     g_shed := g_shed g; g_stamp := n; g_threads := g_threads g |}.

Definition arrive (g : gate) : gate :=
  {| g_slots := g_slots g; g_inFlight := g_inFlight g; g_peak := g_peak g; g_admitted := g_admitted g;
     g_shed := g_shed g; g_stamp := g_stamp g; g_threads := g_threads g ++ [Arriving] |}.

(** What goroutine [i] does next.  A select with several ready cases may take any of
    them: [timeout] is the outside world's part, the timer or the context firing. *)
Definition advance (limit : Z) (timeout : bool) (i : nat) (g : gate) : gate :=
  match g_threads g !! i with
  | Some Arriving =>
    if g_slots g <? limit then moved i Taken (withSlots (g_slots g + 1) g) else moved i Waiting g
  | Some Waiting =>
    if timeout then moved i Shed (withShed (g_shed g + 1) g)
    else if g_slots g <? limit then moved i Taken (withSlots (g_slots g + 1) g) else g
  | Some Taken => moved i LetIn (withAdmitted (g_admitted g + 1) g)
  | Some LetIn =>
    let n := g_inFlight g + 1 in
    moved i (Counting n (g_stamp g)) (withStamp (S (g_stamp g)) (withFlight n g))
  | Some (Counting n s) =>
    if n <=? g_peak g then moved i (Hashing n s) g else moved i (Swapping n (g_peak g) s) g
  | Some (Swapping n old s) =>
    if g_peak g =? old then moved i (Hashing n s) (withPeak n g) else moved i (Counting n s) g
  | Some (Hashing n s) => moved i Leaving (withFlight (g_inFlight g - 1) g)
  | Some Leaving => moved i Gone (withSlots (g_slots g - 1) g)
  | _ => g
  end.

Inductive gate_step (limit : Z) : gate -> gate -> Prop :=
| gate_arrive g : gate_step limit g (arrive g)
| gate_advance timeout i g : gate_step limit g (advance limit timeout i g).

Definition gate_reachable (limit : Z) : gate -> Prop := steps (gate_step limit) newHashGate.

(** ** Counting goroutines *)

Fixpoint count {A} (p : A -> bool) (l : list A) : Z :=
  match l with [] => 0 | x :: l => Z.b2z (p x) + count p l end.

Lemma count_app {A} (p : A -> bool) l1 l2 : count p (l1 ++ l2) = count p l1 + count p l2.
Proof. induction l1 as [|x l1 IH]; cbn; [done|]. rewrite IH. lia. Qed.

Lemma count_insert {A} (p : A -> bool) l i x y :
  l !! i = Some x -> count p (<[i := y]> l) = count p l - Z.b2z (p x) + Z.b2z (p y).
Proof.
  revert i. induction l as [|z l IH]; intros [|i] E; simplify_eq/=; [lia|]. rewrite IH by done. lia.
Qed.

Lemma count_le {A} (p q : A -> bool) l :
  (forall x, x ∈ l -> p x = true -> q x = true) -> count p l <= count q l.
Proof.
  induction l as [|x l IH]; intros Hpq; cbn; [lia|].
  assert (Z.b2z (p x) <= Z.b2z (q x)).
  { destruct (p x) eqn:E; [|by destruct (q x)]. rewrite (Hpq x) by (done || left). done. }
  specialize (IH (fun y Hy => Hpq y (list_elem_of_further _ _ _ Hy))). lia.
Qed.

Lemma count_pos {A} (p : A -> bool) l : 0 < count p l -> exists x, x ∈ l /\ p x = true.
Proof.
  induction l as [|x l IH]; cbn; [lia|]. destruct (p x) eqn:E.
  - intros _. exists x. split; [left|done].
  - cbn. intros (y & ? & ?)%IH. exists y. split; [by right|done].
Qed.

Lemma count_lt {A} (p q : A -> bool) l i x :
  l !! i = Some x -> p x = false -> q x = true -> (forall x, p x = true -> q x = true) ->
  count p l + 1 <= count q l.
Proof.
  revert i. induction l as [|y l IH]; intros [|i] E Hp Hq Hpq; simplify_eq/=.
  - rewrite Hp, Hq. cbn. pose proof (count_le p q l (fun y _ => Hpq y)). lia.
  - specialize (IH i E Hp Hq Hpq). pose proof (Hpq y) as Hy. destruct (p y), (q y); cbn; lia.
Qed.

(** ** The invariant *)

Definition holds (p : phase) : bool :=
  match p with Taken | LetIn | Counting _ _ | Swapping _ _ _ | Hashing _ _ | Leaving => true | _ => false end.
Definition stamped (p : phase) : option (Z * nat) :=
  match p with Counting n s | Swapping n _ s | Hashing n s => Some (n, s) | _ => None end.
Definition flying (p : phase) : bool := bool_decide (is_Some (stamped p)).
Definition upto (s : nat) (p : phase) : bool :=
  match stamped p with Some (_, s') => (s' <=? s)%nat | None => false end.
Definition isHashing (p : phase) : bool := match p with Hashing _ _ => true | _ => false end.

Record gate_inv (limit : Z) (g : gate) : Prop := {
  gi_slots : g_slots g = count holds (g_threads g);
  gi_limit : g_slots g <= limit;
  gi_flight : g_inFlight g = count flying (g_threads g);
  gi_peak : 0 <= g_peak g <= limit;
  gi_stamps : forall p n s, p ∈ g_threads g -> stamped p = Some (n, s) ->
    (s < g_stamp g)%nat /\ count (upto s) (g_threads g) <= n <= limit;
  gi_swap : forall n old s, Swapping n old s ∈ g_threads g -> old < n;
  gi_hash : forall n s, Hashing n s ∈ g_threads g -> n <= g_peak g }.

Lemma gate_inv_init limit : 0 < limit -> gate_inv limit newHashGate.
Proof. intros Hl. by split; cbn; try done; try lia; intros * ?%elem_of_nil. Qed.

Lemma elem_insert {A} (l : list A) i (y x : A) : x ∈ <[i := y]> l -> x = y \/ x ∈ l.
Proof.
  intros (j & Hj)%list_elem_of_lookup. destruct (decide (i = j)) as [->|Hne].
  - destruct (decide (j < length l)%nat).
    + rewrite list_lookup_insert_eq in Hj by done. left. congruence.
    + rewrite list_insert_ge in Hj by lia. right. by eapply list_elem_of_lookup_2.
  - rewrite list_lookup_insert_ne in Hj by done. right. by eapply list_elem_of_lookup_2.
Qed.

(** A move that changes neither who holds a slot nor who is in flight. *)
Lemma moved_inv limit g i p q :
  gate_inv limit g -> g_threads g !! i = Some p ->
  holds p = holds q -> stamped p = stamped q ->
  (forall n old s, q = Swapping n old s -> old < n) ->
  (forall n s, q = Hashing n s -> n <= g_peak g) ->
  gate_inv limit (moved i q g).
Proof.
  intros [] Hp Hh Hs Hsw Hha.
  assert (forall f, f p = f q -> count f (<[i := q]> (g_threads g)) = count f (g_threads g)) as Hc
    by (intros f Hf; rewrite (count_insert f _ _ _ _ Hp), Hf; lia).
  assert (forall s, upto s p = upto s q) as Hu by (intros s; unfold upto; by rewrite Hs).
  split; cbn [g_slots g_inFlight g_peak g_stamp g_threads moved].
  - by rewrite Hc.
  - done.
  - rewrite Hc by (unfold flying; by rewrite Hs). done.
  - done.
  - intros r n s [->|Hr]%elem_insert Hst; rewrite Hc by apply Hu; [|by apply gi_stamps0 with (p := r)].
    rewrite <- Hs in Hst. eapply gi_stamps0; [by eapply list_elem_of_lookup_2|done].
  - intros n old s [E|Hr]%elem_insert; [by eapply Hsw|by eapply gi_swap0].
  - intros n s [E|Hr]%elem_insert; [by eapply Hha|by eapply gi_hash0].
Qed.

Lemma arrive_inv limit g : gate_inv limit g -> gate_inv limit (arrive g).
Proof.
  intros []. assert (forall f, f Arriving = false -> count f (g_threads g ++ [Arriving]) = count f (g_threads g)) as Hc
    by (intros f Hf; rewrite count_app; cbn; rewrite Hf; cbn; lia).
  split; cbn [g_slots g_inFlight g_peak g_stamp g_threads arrive]; rewrite ?Hc by done; try done.
  - intros p n s [Hp| ->%list_elem_of_singleton]%elem_of_app Hs; [|done]. rewrite Hc by done. by eapply gi_stamps0.
  - intros n old s [Hp|E%list_elem_of_singleton]%elem_of_app; [by eapply gi_swap0|done].
  - intros n s [Hp|E%list_elem_of_singleton]%elem_of_app; [by eapply gi_hash0|done].
Qed.

(** A move of a goroutine that is in flight neither before nor after. *)
Lemma slots_inv limit g i p q n :
  gate_inv limit g -> g_threads g !! i = Some p -> stamped p = None -> stamped q = None ->
  n = g_slots g - Z.b2z (holds p) + Z.b2z (holds q) -> n <= limit ->
  gate_inv limit (moved i q (withSlots n g)).
Proof.
  intros [] Hp Sp Sq -> Hn.
  assert (forall f, f p = f q -> count f (<[i := q]> (g_threads g)) = count f (g_threads g)) as Hc
    by (intros f Hf; rewrite (count_insert f _ _ _ _ Hp), Hf; lia).
  split; cbn [g_slots g_inFlight g_peak g_stamp g_threads moved withSlots]; try done.
  - rewrite (count_insert _ _ _ _ _ Hp), gi_slots0. lia.
  - rewrite Hc by (unfold flying; by rewrite Sp, Sq). done.
  - intros r m s [->|Hr]%elem_insert Hst; [congruence|].
    rewrite Hc by (unfold upto; by rewrite Sp, Sq). by eapply gi_stamps0.
  - intros m old s [E|Hr]%elem_insert; [by subst q|by eapply gi_swap0].
  - intros m s [E|Hr]%elem_insert; [by subst q|by eapply gi_hash0].
Qed.

Lemma flying_Some p : flying p = true <-> is_Some (stamped p).
Proof. apply bool_decide_eq_true. Qed.

Lemma flying_holds p : flying p = true -> holds p = true.
Proof. by destruct p. Qed.

(** The in-flight counter goes up after the slot is held: it counts at most what the
    channel does, and the value it returns bounds every rank so far. *)
Lemma counting_inv limit g i :
  gate_inv limit g -> g_threads g !! i = Some LetIn ->
  gate_inv limit (moved i (Counting (g_inFlight g + 1) (g_stamp g))
                    (withStamp (S (g_stamp g)) (withFlight (g_inFlight g + 1) g))).
Proof.
  intros [] Hp. set (q := Counting _ _).
  assert (forall f, count f (<[i := q]> (g_threads g)) = count f (g_threads g) - Z.b2z (f LetIn) + Z.b2z (f q)) as Hc
    by (intros f; apply (count_insert f _ _ _ _ Hp)).
  pose proof (count_lt flying holds _ _ _ Hp eq_refl eq_refl flying_holds) as Hlt.
  split; cbn [g_slots g_inFlight g_peak g_stamp g_threads moved withStamp withFlight]; rewrite ?Hc; cbn [holds flying q Z.b2z];
    try done; try (cbn; lia).
  - intros p n s [->|Hr]%elem_insert Hst; rewrite Hc.
    + injection Hst as <- <-. split; [lia|]. change (upto _ LetIn) with false. unfold q at 1, upto at 2. cbn [stamped].
      rewrite Nat.leb_refl. cbn [Z.b2z].
      assert (count (upto (g_stamp g)) (g_threads g) <= count flying (g_threads g)) as Hle
        by (apply count_le; intros p _; unfold upto; rewrite flying_Some; destruct (stamped p) as [[]|]; [by eexists|done]).
      lia.
    + destruct (gi_stamps0 _ _ _ Hr Hst) as [Hs Hn]. split; [lia|].
      assert (upto s q = false) as -> by (unfold upto, q; cbn; apply Nat.leb_gt; lia). cbn. lia.
  - intros n old s [E|Hr]%elem_insert; [done|by eapply gi_swap0].
  - intros n s [E|Hr]%elem_insert; [done|by eapply gi_hash0].
Qed.

Lemma done_inv limit g i n s :
  gate_inv limit g -> g_threads g !! i = Some (Hashing n s) ->
  gate_inv limit (moved i Leaving (withFlight (g_inFlight g - 1) g)).
Proof.
  intros [] Hp.
  assert (forall f, count f (<[i := Leaving]> (g_threads g))
                    = count f (g_threads g) - Z.b2z (f (Hashing n s)) + Z.b2z (f Leaving)) as Hc
    by (intros f; apply (count_insert f _ _ _ _ Hp)).
  split; cbn [g_slots g_inFlight g_peak g_stamp g_threads moved withFlight]; rewrite ?Hc; try done; try (cbn; lia).
  - intros p m s' [->|Hr]%elem_insert Hst; [done|]. destruct (gi_stamps0 _ _ _ Hr Hst) as [Hs Hn]. split; [lia|].
    rewrite Hc. change (upto s' Leaving) with false. destruct (upto s' (Hashing n s)); cbn; lia.
  - intros m old s' [E|Hr]%elem_insert; [done|by eapply gi_swap0].
  - intros m s' [E|Hr]%elem_insert; [done|by eapply gi_hash0].
Qed.

Lemma withPeak_inv limit g n :
  gate_inv limit g -> g_peak g <= n <= limit -> gate_inv limit (withPeak n g).
Proof. intros [] Hn. split; cbn; try done; [lia|]. intros m s Hin. specialize (gi_hash0 _ _ Hin). lia. Qed.

Lemma advance_inv limit timeout i g : gate_inv limit g -> gate_inv limit (advance limit timeout i g).
Proof.
  intros Hg. unfold advance. destruct (g_threads g !! i) as [p|] eqn:Hp; [|done].
  pose proof (list_elem_of_lookup_2 _ _ _ Hp) as Hin.
  destruct p as [| | | |n s|n old s|n s| | |]; try done.
  - destruct (g_slots g <? limit) eqn:E; bool_to_prop.
    + eapply slots_inv; [done..| |lia]. cbn. lia.
    + by eapply moved_inv.
  - destruct timeout; [by eapply (moved_inv limit (withShed _ g)); [destruct Hg; split|..]|].
    destruct (g_slots g <? limit) eqn:E; bool_to_prop; [|done]. eapply slots_inv; [done..| |lia]. cbn. lia.
  - by eapply (moved_inv limit (withAdmitted _ g)); [destruct Hg; split|..].
  - by apply counting_inv.
  - destruct (gi_stamps _ _ Hg _ _ _ Hin eq_refl) as [_ Hn].
    destruct (n <=? g_peak g) eqn:E; bool_to_prop; (eapply moved_inv; [done..| |]); naive_solver lia.
  - pose proof (gi_swap _ _ Hg _ _ _ Hin). destruct (gi_stamps _ _ Hg _ _ _ Hin eq_refl) as [_ Hn].
    destruct (g_peak g =? old) eqn:E; bool_to_prop; [|by eapply moved_inv].
    eapply moved_inv; [apply withPeak_inv; [done|lia]|done..|]. intros m s' [= <- <-]. cbn. lia.
  - by eapply done_inv.
  - pose proof (gi_limit _ _ Hg). eapply slots_inv; [done..| |]; cbn; lia.
Qed.

Lemma reachable_inv limit g : 0 < limit -> gate_reachable limit g -> gate_inv limit g.
Proof.
  intros Hl. apply steps_invariant; [|by apply gate_inv_init].
  intros a b Ha Hs. destruct Hs; [by apply arrive_inv|by apply advance_inv].
Qed.

(** Some hashing goroutine incremented last; all of them were in flight by then. *)
Lemma last_hashing l :
  0 < count isHashing l ->
  exists n s, Hashing n s ∈ l /\ forall n' s', Hashing n' s' ∈ l -> (s' <= s)%nat.
Proof.
  induction l as [|p l IH]; cbn; [lia|]. intros Hc.
  destruct (decide (0 < count isHashing l)) as [Hl|Hl].
  - destruct (IH Hl) as (n & s & Hin & Hmax).
    destruct p as [| | | |? ?|? ? ?|m u| | |]; try by exists n, s; split; [by right|]; intros ? ? [?|?]%elem_of_cons; [done|eauto].
    destruct (decide (u <= s)%nat).
    + exists n, s. split; [by right|]. intros ? ? [[= -> ->]|?]%elem_of_cons; [done|eauto].
    + exists m, u. split; [left|]. intros ? ? [[= -> ->]|?]%elem_of_cons; [done|]. pose proof (Hmax _ _ H). lia.
  - destruct p as [| | | |? ?|? ? ?|m u| | |]; cbn in Hc; try lia. exists m, u. split; [left|].
    intros ? ? [[= -> ->]|Hin]%elem_of_cons; [done|]. exfalso. apply Hl. clear -Hin.
    induction l as [|q l IH]; [by apply elem_of_nil in Hin|]. cbn.
    assert (0 <= count isHashing l) by (clear; induction l as [|q l IH]; cbn; [done|destruct (isHashing q); cbn; lia]).
    apply elem_of_cons in Hin as [<-|Hin]; cbn; [lia|]. specialize (IH Hin). destruct (isHashing q); cbn; lia.
Qed.


(** Three goroutines through a gate of two slots: the third is shed. *)
Definition threeAtTwo : gate :=
  foldl (fun g i => advance 2 true i g) (arrive (arrive (arrive newHashGate)))
    [0; 1; 0; 1; 2; 0; 1; 0; 1; 1; 0; 0; 2]%nat.

Lemma threeAtTwo_reachable : gate_reachable 2 threeAtTwo.
Proof.
  unfold threeAtTwo, gate_reachable. cbn [foldl].
  repeat (first [eapply steps_trans; [|eapply steps_step; [apply gate_advance|apply steps_refl]]
                |eapply steps_trans; [|eapply steps_step; [apply gate_arrive|apply steps_refl]]]).
  apply steps_refl.
Qed.


(** The configured limit is between 2 and 64 and, but for the lower clamp, fits the budget. *)
Lemma HashConcurrencyFor_bounds budget :
  0 <= budget ->
  minHashConcurrency <= HashConcurrencyFor budget <= maxHashConcurrency
  /\ (minHashConcurrency * HashCostBytes <= budget -> HashConcurrencyFor budget * HashCostBytes <= budget).
Proof.
  intros Hb. unfold HashConcurrencyFor, minHashConcurrency, maxHashConcurrency, HashCostBytes in *.
  repeat case_match; bool_to_prop; lia.
Qed.

(** Sized from the memory ceiling, what the hashes can hold at once, with the heap the
    collector lets them reach, stays within a quarter of it (from 456 MiB up). *)
Lemma hashConcurrency_fits ceiling gomaxprocs :
  1 <= gomaxprocs -> Z.shiftl 456 20 <= ceiling ->
  1 <= hashConcurrency 0 0 ceiling gomaxprocs <= maxHashConcurrency
  /\ hashConcurrency 0 0 ceiling gomaxprocs * HashCostBytes * hashHeapMultiplier * hashMemoryFraction <= ceiling.
Proof.
  intros Hg Hc. unfold hashConcurrency, hashHeapMultiplier, hashMemoryFraction, hashCPUFactor.
  change (Z.shiftl 456 20) with 478150656 in Hc. cbn [Z.ltb Z.compare Z.eqb].
  rewrite (proj2 (Z.ltb_lt 0 ceiling)) by lia.
  destruct (HashConcurrencyFor_bounds (ceiling / 4 / 3)) as [Hb Hf]; [lia|].
  unfold minHashConcurrency, maxHashConcurrency, HashCostBytes in *.
  generalize dependent (HashConcurrencyFor (ceiling / 4 / 3)). intros n Hb Hf.
  case_match; bool_to_prop; lia.
Qed.
