(* ===== verification/AuthLimiter.v ===== *)
(** * internal/auth/ratelimit.go: a token bucket per client

    Tokens are binary64 and instants nanoseconds, as in Ratelimit, whose clock
    arithmetic this file shares; [None] is the zero [time.Time]. *)

From S2P Require Import Prelude GoStd Ratelimit.

Open Scope Z_scope.

Record bucket := { bk_tokens : F64.f64; bk_last : Z }.

#[export] Instance f64_eq : EqDecision F64.f64.
Proof. solve_decision. Defined.

#[export] Instance bucket_eq : EqDecision bucket.
Proof. solve_decision. Defined.

(** What [NewInMemoryRateLimiter] fixes, and what changes. *)
Record limits := { lm_every : Z; lm_burst : Z }.
Record limiter := { lm_buckets : gmap string bucket; lm_lastSweep : option Z }.

Definition newLimiter : limiter := {| lm_buckets := ∅; lm_lastSweep := None |}.

Definition sweepEvery : Z := 5 * 60 * second.

(** [time.Sub] from the zero time saturates. *)
Definition since (now : Z) (t : option Z) : Z :=
  match t with Some t => time_Sub now t | None => 2 ^ 63 - 1 end.

Definition sweep (c : limits) (now : Z) (l : limiter) : limiter :=
  if since now (lm_lastSweep l) <? sweepEvery then l
  else
    let idleForFull := Int.int64 (lm_every c * lm_burst c) in
    {| lm_buckets := filter (fun kb => (idleForFull <? time_Sub now (bk_last kb.2)) = false) (lm_buckets l);
       lm_lastSweep := Some now |}.

(** The bucket after its refill. *)
Definition refilled (c : limits) (now : Z) (b : bucket) : F64.f64 :=
  F64.min (F64.of_Z (lm_burst c))
    (F64.add (bk_tokens b) (F64.div (Seconds (time_Sub now (bk_last b))) (Seconds (lm_every c)))).

Definition take1 (tokens : F64.f64) (now : Z) : bool * bucket :=
  if F64.leb (F64.of_Z 1) tokens
  then (true, {| bk_tokens := F64.sub tokens (F64.of_Z 1); bk_last := now |})
  else (false, {| bk_tokens := tokens; bk_last := now |}).

Definition fresh (c : limits) (now : Z) : bucket := {| bk_tokens := F64.of_Z (lm_burst c); bk_last := now |}.

Definition Allow (c : limits) (key : string) (now : Z) (l : limiter) : bool * limiter :=
  if (lm_burst c <=? 0) || (lm_every c <=? 0) then (true, l)
  else
    let l := sweep c now l in
    let b := default (fresh c now) (lm_buckets l !! key) in
    let '(ok, b) := take1 (refilled c now b) now in
    (ok, {| lm_buckets := <[key := b]> (lm_buckets l); lm_lastSweep := lm_lastSweep l |}).

Fixpoint Allow_all (c : limits) (reqs : list (string * Z)) (l : limiter) : list bool * limiter :=
  match reqs with
  | [] => ([], l)
  | (key, now) :: reqs =>
    let '(ok, l) := Allow c key now l in
    let '(oks, l) := Allow_all c reqs l in
    (ok :: oks, l)
  end.

(** ** Facts *)

(** The sweep forgets only buckets that have been idle for a whole refill. *)
Lemma sweep_only_idle c now l key b :
  lm_buckets l !! key = Some b ->
  lm_buckets (sweep c now l) !! key = None ->
  Int.int64 (lm_every c * lm_burst c) < time_Sub now (bk_last b).
Proof.
  intros Hb. unfold sweep. case_match; [intros; congruence|]. cbn [lm_buckets].
  intros [Hn|Hn]%map_lookup_filter_None; [by rewrite Hb in Hn|]. specialize (Hn _ Hb). cbn [snd] in Hn.
  destruct (_ <? _) eqn:E in Hn; [by apply Z.ltb_lt|by destruct Hn].
Qed.

Lemma sweep_lookup c now l key b :
  lm_buckets (sweep c now l) !! key = Some b -> lm_buckets l !! key = Some b.
Proof. unfold sweep. case_match; [done|]. cbn. by intros [? _]%map_lookup_filter_Some. Qed.

(** Clients do not share: a request leaves every other client's bucket as it was, or
    forgets it when it has been idle for a whole refill. *)
Lemma Allow_isolated c key key' now l b :
  key' <> key -> lm_buckets l !! key' = Some b ->
  let l' := (Allow c key now l).2 in
  lm_buckets l' !! key' = Some b
  \/ lm_buckets l' !! key' = None /\ Int.int64 (lm_every c * lm_burst c) < time_Sub now (bk_last b).
Proof.
  intros Hne Hb. unfold Allow. case_match; [by left|]. destruct (take1 _ _) as [ok b'] eqn:E. cbn.
  rewrite lookup_insert_ne by done.
  destruct (lm_buckets (sweep c now l) !! key') as [b''|] eqn:Es; [left|right].
  - by rewrite (sweep_lookup _ _ _ _ _ Es) in Hb.
  - split; [done|by eapply sweep_only_idle].
Qed.

(** The limits the server is configured with by default (platform/config.go). *)
Definition defaults : list limits :=
  [ {| lm_every := second; lm_burst := 10 |};               (* AUTH_RATE *)
    {| lm_every := 30 * second; lm_burst := 120 |};         (* RUNS_RATE *)
    {| lm_every := 2 * second; lm_burst := 30 |};           (* LEADERBOARD_REPLAY_RATE, LOBBY_RATE *)
    {| lm_every := 500 * millisecond; lm_burst := 30 |};    (* PROFILE_SEARCH_RATE *)
    {| lm_every := 60 * second; lm_burst := 5 |};           (* REPORT_RATE *)
    {| lm_every := second; lm_burst := 20 |} ].             (* LEADERBOARD_INDEX_RATE *)

(** Whole tokens stay whole at one instant: [k] of them admit [k] requests. *)
Definition whole_ok (c : limits) (k : Z) : bool :=
  bool_decide (take1 (refilled c 0 {| bk_tokens := F64.of_Z k; bk_last := 0 |}) 0
               = (1 <=? k, {| bk_tokens := F64.of_Z (if 1 <=? k then k - 1 else 0); bk_last := 0 |})).

Lemma whole_ok_defaults :
  forallb (fun c => forallb (whole_ok c) (seqZ 0 (lm_burst c + 1))) defaults = true.
Proof. vm_compute. reflexivity. Qed.

Lemma take1_whole c k now :
  c ∈ defaults -> 0 <= k <= lm_burst c ->
  take1 (refilled c now {| bk_tokens := F64.of_Z k; bk_last := now |}) now
  = (1 <=? k, {| bk_tokens := F64.of_Z (if 1 <=? k then k - 1 else 0); bk_last := now |}).
Proof.
  intros Hc Hk. pose proof whole_ok_defaults as Hall. rewrite forallb_forall in Hall.
  specialize (Hall c (proj1 (list_elem_of_In _ _) Hc)). rewrite forallb_forall in Hall.
  specialize (Hall k). unfold whole_ok in Hall. rewrite bool_decide_eq_true in Hall.
  assert (refilled c now {| bk_tokens := F64.of_Z k; bk_last := now |}
          = refilled c 0 {| bk_tokens := F64.of_Z k; bk_last := 0 |}) as ->.
  { unfold refilled. cbn [bk_tokens bk_last]. by rewrite !time_Sub_diag. }
  unfold take1 in *. revert Hall. case_match; intros Hall;
    (assert (In k (seqZ 0 (lm_burst c + 1))) as Hin by (apply list_elem_of_In, elem_of_seqZ; lia));
    specialize (Hall Hin); injection Hall as E1 E2; f_equal; first [exact E1|exact E2|by f_equal].
Qed.

Lemma Allow_again c key now l k :
  c ∈ defaults -> 0 <= k <= lm_burst c -> lm_lastSweep l = Some now ->
  lm_buckets l !! key = Some {| bk_tokens := F64.of_Z k; bk_last := now |} ->
  Allow c key now l
  = (1 <=? k, {| lm_buckets := <[key := {| bk_tokens := F64.of_Z (if 1 <=? k then k - 1 else 0); bk_last := now |}]>
                                 (lm_buckets l); lm_lastSweep := Some now |}).
Proof.
  intros Hc Hk Hs Hb. unfold Allow.
  assert ((lm_burst c <=? 0) || (lm_every c <=? 0) = false) as ->
    by (repeat (apply elem_of_cons in Hc as [->|Hc]; [reflexivity|]); by apply elem_of_nil in Hc).
  assert (sweep c now l = l) as -> by (unfold sweep; by rewrite Hs; cbn; rewrite time_Sub_diag).
  rewrite Hb. cbn [default]. unfold default, id. rewrite take1_whole by done. by rewrite Hs.
Qed.

Lemma Allow_all_again c key now n : forall l k,
  c ∈ defaults -> 0 <= k <= lm_burst c -> lm_lastSweep l = Some now ->
  lm_buckets l !! key = Some {| bk_tokens := F64.of_Z k; bk_last := now |} ->
  (Allow_all c (replicate n (key, now)) l).1
  = replicate (Nat.min n (Z.to_nat k)) true ++ replicate (n - Z.to_nat k) false.
Proof.
  induction n as [|n IH]; intros l k Hc Hk Hs Hb; [done|].
  cbn [replicate Allow_all]. rewrite (Allow_again c key now l k) by done.
  set (l' := {| lm_buckets := _ |}).
  assert ((Allow_all c (replicate n (key, now)) l').1
    = replicate (Nat.min n (Z.to_nat (if 1 <=? k then k - 1 else 0))) true
      ++ replicate (n - Z.to_nat (if 1 <=? k then k - 1 else 0)) false) as E.
  { apply IH; [done|destruct (1 <=? k) eqn:?; bool_to_prop; lia|done|].
    subst l'; cbn [lm_buckets]; by rewrite lookup_insert_eq. }
  destruct (Allow_all _ _ _) as [oks l'']. cbn [fst] in *. rewrite E.
  destruct (1 <=? k) eqn:Ek; bool_to_prop.
  - replace (Nat.min (S n) (Z.to_nat k)) with (S (Nat.min n (Z.to_nat (k - 1)))) by lia.
    by replace (S n - Z.to_nat k)%nat with (n - Z.to_nat (k - 1))%nat by lia.
  - assert (k = 0) as -> by lia. by rewrite !Nat.min_0_r, !Nat.sub_0_r.
Qed.

(** Of any number of requests one client makes at one instant, exactly as many pass as
    the burst allows, under each of the server's default limits. *)
Theorem client_burst_exact c key now l n :
  c ∈ defaults -> lm_lastSweep l = Some now -> lm_buckets l !! key = None ->
  (Allow_all c (replicate n (key, now)) l).1
  = replicate (Nat.min n (Z.to_nat (lm_burst c))) true ++ replicate (n - Z.to_nat (lm_burst c)) false.
Proof.
  intros Hc Hs Hn. set (l' := {| lm_buckets := <[key := fresh c now]> (lm_buckets l); lm_lastSweep := Some now |}).
  assert ((Allow_all c (replicate n (key, now)) l).1 = (Allow_all c (replicate n (key, now)) l').1) as ->.
  { destruct n as [|n]; [done|]. cbn [replicate Allow_all].
    assert (Allow c key now l = Allow c key now l') as ->; [|done].
    unfold Allow. assert (sweep c now l = l) as -> by (unfold sweep; by rewrite Hs; cbn; rewrite time_Sub_diag).
    assert (sweep c now l' = l') as -> by (unfold sweep; cbn; by rewrite time_Sub_diag).
    subst l'. cbn. rewrite Hn, lookup_insert_eq. cbn. case_match; [|by case_match; rewrite ?insert_insert_eq, ?Hs].
    by repeat (apply elem_of_cons in Hc as [->|Hc]; [done|]); apply elem_of_nil in Hc. }
  apply (Allow_all_again c key now n l' (lm_burst c)); [done| |done|by cbn; rewrite lookup_insert_eq].
  repeat (apply elem_of_cons in Hc as [->|Hc]; [by cbn|]). by apply elem_of_nil in Hc.
Qed.

Lemma client_burst_exact_witness :
  (Allow_all {| lm_every := 60 * second; lm_burst := 5 |} (replicate 7 ("10.0.0.1", 9))
     {| lm_buckets := ∅; lm_lastSweep := Some 9 |}).1
  = [true; true; true; true; true; false; false].
Proof.
  apply (client_burst_exact {| lm_every := 60 * second; lm_burst := 5 |} "10.0.0.1" 9 _ 7);
    [by do 4 apply list_elem_of_further; left|done|done].
Defined.
