(* ===== verification/AuthText.v ===== *)
(** * internal/auth: names, addresses, passwords and tokens

    The pure parts of service.go, tokens.go, password.go and oauth.go.  Parameters:
    the generated Unicode table behind [strings.ToLower] (a function of the rune, as in
    GoStd) and argon2id, which comes from golang.org/x/crypto. *)

From Stdlib Require Import Strings.Ascii.
From S2P Require Import Prelude GoStd Httpx.

Open Scope Z_scope.

(** ** Strings of the standard library *)

(** [strings.IndexByte] *)
Fixpoint IndexByte (s : string) (c : ascii) : Z :=
  match s with
  | EmptyString => -1
  | String d s =>
    if Ascii.eqb d c then 0
    else match IndexByte s c with -1 => -1 | i => i + 1 end
  end.

(** [strings.ContainsAny] with an ASCII set. *)
Fixpoint ContainsAny (s chars : string) : bool :=
  match s with
  | EmptyString => false
  | String d s => negb (IndexByte chars d =? -1) || ContainsAny s chars
  end.

(** [s\[i:\]] and [s\[:i\]] *)
Definition slice_from (i : Z) (s : string) : string := String.substring (Z.to_nat i) (String.length s) s.
Definition slice_to (i : Z) (s : string) : string := String.substring 0 (Z.to_nat i) s.

(** [strings.ToLower]: ASCII below 0x80, the Unicode table above. *)
Definition lower_rune (table : Z -> Z) (r : Z) : Z :=
  if r <? 0x80 then (if (0x41 <=? r) && (r <=? 0x5A) then r + 0x20 else r) else table r.
Definition ToLower (table : Z -> Z) (s : string) : string :=
  Utf8.string_of_runes (lower_rune table <$> Utf8.runes s).

(** ** service.go: addresses, passwords, display names *)

Definition displayNameMinLen : Z := 3.
Definition displayNameMaxLen : Z := 20.
Definition passwordMinLen : Z := 8.
Definition passwordMaxLen : Z := 128.

Definition normalizeEmail (table : Z -> Z) (email : string) : string :=
  ToLower table (Strs.TrimSpace email).

Definition blanks : string :=
  String " " (String "009" (String "013" (String "010" EmptyString))).

Definition validateEmail (email : string) : bool :=
  let at_ := IndexByte email "@" in
  (0 <? at_) && (0 <=? IndexByte (slice_from (at_ + 1) email) ".")
  && negb (ContainsAny email blanks) && (Utf8.rune_count email <=? 254).

Definition validatePassword (pw : string) : bool :=
  negb ((slen pw <? passwordMinLen) || (passwordMaxLen <? slen pw)).

(** [^\[a-zA-Z0-9_.-\]+$], on bytes: every character of the class is ASCII. *)
Definition name_byte (b : Z) : bool :=
  ((97 <=? b) && (b <=? 122)) || ((65 <=? b) && (b <=? 90)) || ((48 <=? b) && (b <=? 57))
  || (b =? 95) || (b =? 46) || (b =? 45).
Definition displayNameRe (name : string) : bool :=
  negb (name =s? "") && forallb name_byte (bytes_of name).

Definition validDisplayName (name : string) : bool :=
  (displayNameMinLen <=? slen name) && (slen name <=? displayNameMaxLen) && displayNameRe name.

(** The loop of [sanitizeDisplayName]: [n] bytes are in the builder. *)
Fixpoint sanitize_loop (rs : list Z) (n : Z) : list Z :=
  match rs with
  | [] => []
  | r :: rs =>
    let kept := if name_byte r then [r] else [] in
    let n := n + Z.of_nat (length kept) in
    if n =? displayNameMaxLen then kept else kept ++ sanitize_loop rs n
  end.

Definition sanitizeDisplayName (s : string) : string :=
  let b := string_of_bytes (sanitize_loop (Utf8.runes s) 0) in
  if slen b <? displayNameMinLen then "" else b.

(** The name, or the message of the 400. *)
Definition cleanDisplayName (name email : string) : string + string :=
  let name := Strs.TrimSpace name in
  if name =s? "" then
    let at_ := IndexByte email "@" in
    let name := if 0 <? at_ then sanitizeDisplayName (slice_to at_ email) else "" in
    if name =s? ""
    then inr "please choose a display name: 3-20 characters using letters, digits, '_', '.', '-'"
    else inl name
  else if validDisplayName name then inl name
  else inr "display name must be 3-20 characters using only letters, digits, '_', '.', '-'".

(** ** oauth.go: names for OAuth accounts *)

Definition maxNameSuffix : nat := 99.

Definition suffixedName (base : string) (i : nat) : string :=
  match i with
  | O => base
  | _ =>
    let suffix := Strconv.Itoa (Z.of_nat i) in
    let base := if displayNameMaxLen <? slen base + slen suffix
                then slice_to (displayNameMaxLen - slen suffix) base else base in
    base +:+ suffix
  end.

Record oauthUser := { ou_Subject : string; ou_Email : string; ou_EmailVerified : bool; ou_Name : string }.

Definition oauthDisplayName (info : oauthUser) : string :=
  let name := sanitizeDisplayName (ou_Name info) in
  if negb (name =s? "") then name
  else
    let at_ := IndexByte (ou_Email info) "@" in
    let name := if 0 <? at_ then sanitizeDisplayName (slice_to at_ (ou_Email info)) else "" in
    if negb (name =s? "") then name else "player".

(** ** tokens.go *)

Definition tokenBytesLen : Z := 32.

(** The plaintext for the client and the hash for the database; [raw] is what
    [rand.Read] returned. *)
Definition newToken (raw : string) : string * string :=
  (Base64.EncodeToString raw, Sha256.Sum256 raw).

Definition hashToken (plaintext : string) : option string :=
  match Base64.DecodeString plaintext with
  | Some raw => if slen raw =? tokenBytesLen then Some (Sha256.Sum256 raw) else None
  | None => None
  end.

(** ** Facts *)

Lemma slen_bytes s : slen s = Z.of_nat (length (bytes_of s)).
Proof.
  unfold slen, bytes_of. rewrite length_fmap. f_equal. induction s as [|c s IH]; [done|]. cbn. by rewrite IH.
Qed.

Lemma name_byte_range b : name_byte b = true -> 0 <= b < 0x80.
Proof. unfold name_byte. intros Hb. repeat (apply orb_true_iff in Hb as [Hb|Hb]; bool_to_prop; try lia); bool_to_prop; lia. Qed.

(** A name is valid by its bytes: as many as allowed, all of the class. *)
Lemma validDisplayName_bytes l :
  Forall (fun b => name_byte b = true) l -> displayNameMinLen <= Z.of_nat (length l) <= displayNameMaxLen ->
  validDisplayName (string_of_bytes l) = true.
Proof.
  intros Hl Hn. assert (Forall is_byte l) as Hb
    by (eapply Forall_impl; [exact Hl|intros b ?%name_byte_range; unfold is_byte; lia]).
  unfold validDisplayName, displayNameRe. rewrite slen_bytes, bytes_of_string_of_bytes by done.
  rewrite !andb_true_iff, !Z.leb_le, negb_true_iff. split_and!; [lia..| |].
  - apply String.eqb_neq. intros E. assert (l = []) as ->
      by (rewrite <- (bytes_of_string_of_bytes l) by done; by rewrite E).
    unfold displayNameMinLen in Hn. cbn in Hn. lia.
  - apply forallb_forall. intros b Hin. rewrite Forall_forall in Hl. by apply Hl, list_elem_of_In.
Qed.

Lemma validDisplayName_spec name :
  validDisplayName name = true ->
  Forall (fun b => name_byte b = true) (bytes_of name)
  /\ displayNameMinLen <= Z.of_nat (length (bytes_of name)) <= displayNameMaxLen.
Proof.
  unfold validDisplayName, displayNameRe. rewrite <- slen_bytes.
  rewrite !andb_true_iff, !Z.leb_le. intros [[? ?] [_ Hf]]. split; [|lia].
  apply Forall_forall. intros b Hin. rewrite forallb_forall in Hf. by apply Hf, list_elem_of_In.
Qed.

Lemma sanitize_loop_ok rs n :
  0 <= n <= displayNameMaxLen -> n < displayNameMaxLen ->
  Forall (fun b => name_byte b = true) (sanitize_loop rs n)
  /\ n + Z.of_nat (length (sanitize_loop rs n)) <= displayNameMaxLen.
Proof.
  revert n. induction rs as [|r rs IH]; intros n Hn Hlt; cbn [sanitize_loop]; [cbn; split; [done|lia]|].
  destruct (name_byte r) eqn:Er; cbn [length app]; match goal with |- context [?a =? ?b] => destruct (a =? b) eqn:E end;
    bool_to_prop.
  - split; [by repeat constructor|cbn; lia].
  - destruct (IH (n + Z.of_nat 1)) as [Hf Hl]; [lia..|]. split; [by constructor|cbn [length]; lia].
  - lia.
  - destruct (IH (n + Z.of_nat 0)) as [Hf Hl]; [lia..|]. split; [done|lia].
Qed.

(** What sanitising keeps is a valid name, or nothing. *)
Lemma sanitizeDisplayName_valid s :
  sanitizeDisplayName s <> "" -> validDisplayName (sanitizeDisplayName s) = true.
Proof.
  unfold sanitizeDisplayName. destruct (sanitize_loop_ok (Utf8.runes s) 0) as [Hf Hl];
    [unfold displayNameMaxLen; lia..|].
  case_match eqn:E; [done|]. intros _. bool_to_prop. apply validDisplayName_bytes; [done|].
  rewrite slen_bytes, bytes_of_string_of_bytes in E
    by (eapply Forall_impl; [exact Hf|intros b ?%name_byte_range; unfold is_byte; lia]). lia.
Qed.

Lemma cleanDisplayName_valid name email n :
  cleanDisplayName name email = inl n -> validDisplayName n = true.
Proof.
  unfold cleanDisplayName. destruct (Strs.TrimSpace name =s? ""); [|by case_match; [intros [= <-]|]].
  destruct (0 <? _); [|done]. case_match eqn:E; [done|]. intros [= <-]. bool_to_prop.
  by apply sanitizeDisplayName_valid.
Qed.

Lemma oauthDisplayName_valid info : validDisplayName (oauthDisplayName info) = true.
Proof.
  unfold oauthDisplayName. case_match eqn:E; bool_to_prop; [by apply sanitizeDisplayName_valid|].
  case_match eqn:E2; bool_to_prop; [|done]. destruct (0 <? _); [by apply sanitizeDisplayName_valid|done].
Qed.

Lemma bytes_of_substring i n s :
  bytes_of (String.substring i n s) = take n (drop i (bytes_of s)).
Proof.
  revert i n. induction s as [|c s IH]; intros i n; [by destruct i, n|].
  destruct i as [|i]; cbn.
  - destruct n as [|n]; [done|]. cbn. f_equal. exact (IH 0%nat n).
  - exact (IH i n).
Qed.

Lemma suffix_plain i :
  (1 <= i <= maxNameSuffix)%nat ->
  Forall (fun b => name_byte b = true) (bytes_of (Strconv.Itoa (Z.of_nat i)))
  /\ (1 <= length (bytes_of (Strconv.Itoa (Z.of_nat i))) <= 2)%nat.
Proof.
  intros Hi.
  assert (forallb (fun k => let s := bytes_of (Strconv.Itoa (Z.of_nat k)) in
            forallb name_byte s && (1 <=? length s)%nat && (length s <=? 2)%nat) (seq 1 99) = true) as Hall
    by (vm_compute; reflexivity).
  rewrite forallb_forall in Hall. specialize (Hall i). cbv zeta in Hall.
  rewrite !andb_true_iff, !Nat.leb_le in Hall. destruct Hall as [[Ha ?] ?].
  { apply in_seq. unfold maxNameSuffix in Hi. lia. }
  split; [|lia]. apply Forall_forall. intros b Hb. rewrite forallb_forall in Ha. by apply Ha, list_elem_of_In.
Qed.

(** Every name the search tries is valid. *)
Lemma suffixedName_valid base i :
  validDisplayName base = true -> (i <= maxNameSuffix)%nat -> validDisplayName (suffixedName base i) = true.
Proof.
  intros Hb Hi. destruct i as [|i]; [done|]. cbn [suffixedName].
  apply validDisplayName_spec in Hb as [Hf Hl].
  set (suffix := Strconv.Itoa (Z.of_nat (S i))).
  destruct (suffix_plain (S i)) as [Hs Hsl]; [lia|]. fold suffix in Hs, Hsl.
  rewrite !slen_bytes.
  set (base' := if _ <? _ then _ else _).
  assert (bytes_of base' = take (Z.to_nat (displayNameMaxLen - Z.of_nat (length (bytes_of suffix)))) (bytes_of base)
          \/ (base' = base /\ Z.of_nat (length (bytes_of base)) + Z.of_nat (length (bytes_of suffix)) <= displayNameMaxLen)) as Hb'.
  { subst base'. case_match eqn:E; bool_to_prop; [left|right; split; [done|lia]].
    unfold slice_to. rewrite bytes_of_substring. by rewrite drop_0. }
  unfold displayNameMaxLen, displayNameMinLen in *.
  rewrite <- (string_of_bytes_of (base' +:+ suffix)), bytes_of_app. apply validDisplayName_bytes.
  - apply Forall_app. split; [|done]. destruct Hb' as [->|[-> _]]; [by apply Forall_take|done].
  - rewrite length_app. unfold displayNameMaxLen, displayNameMinLen.
    destruct Hb' as [->|[-> ?]]; [rewrite length_take|]; lia.
Qed.

(** The client's token finds the hash it was stored under. *)
Lemma hashToken_newToken raw :
  slen raw = tokenBytesLen -> hashToken (newToken raw).1 = Some (newToken raw).2.
Proof.
  intros Hl. unfold hashToken, newToken. cbn [fst snd].
  rewrite Base64.DecodeString_Encode, Hl. by rewrite Z.eqb_refl.
Qed.
