(* ===== verification/AuthPassword.v ===== *)
(** * internal/auth/password.go: argon2id hashes in PHC form

    argon2id itself ([golang.org/x/crypto/argon2]) is a parameter; its encoding, with
    [fmt.Sscanf]'s reading of the parameters, is not. *)

From Stdlib Require Import Strings.Ascii.
From S2P Require Import Prelude GoStd Httpx AuthText.

Open Scope Z_scope.

(** [argon2.IDKey] password salt time memory threads keyLen. *)
Class Argon2 := { IDKey : string -> string -> Z -> Z -> Z -> Z -> string }.

(** Documented: the derived key has the length asked for. *)
Class Argon2Laws `{Argon2} := {
  IDKey_length pw salt t m p n : 0 <= n -> slen (IDKey pw salt t m p n) = n }.

(** ** base64's [RawStdEncoding]: the last two characters of the alphabet differ *)

Module RawStd.
Definition to_std (c : Z) : Z := if c =? 45 then 43 else if c =? 95 then 47 else c.
Definition of_std (c : Z) : Z :=
  if c =? 43 then 45 else if c =? 47 then 95 else if (c =? 45) || (c =? 95) then 0 else c.

Definition EncodeToString (s : string) : string :=
  string_of_bytes (to_std <$> Base64.encode (bytes_of s)).
Definition DecodeString (s : string) : option string :=
  string_of_bytes <$> Base64.decode (of_std <$> bytes_of s).
End RawStd.

(** ** [fmt.Sscanf] with the verbs of decodeHash

    A format is literal runes and [%d] verbs; the input is the runes not yet read.  What
    follows the last verb's number is not looked at. *)

Module Sscanf.
Inductive item := Lit (r : Z) | Verb (signed : bool) (bits : Z).

(** [SkipSpace] where a newline does not count as space: [None] on one. *)
Fixpoint skip_space (rs : list Z) : option (list Z) :=
  match rs with
  | [] => Some []
  | 13 :: 10 :: _ => None
  | r :: rest => if r =? 10 then None else if Strs.is_space r then skip_space rest else Some rs
  end.

(** The longest prefix of decimal digits, as a number; the boolean says there was one. *)
Fixpoint digits (rs : list Z) (acc : Z) (any : bool) : Z * bool * list Z :=
  match rs with
  | r :: rest => if (48 <=? r) && (r <=? 57) then digits rest (acc * 10 + (r - 48)) true else (acc, any, rs)
  | [] => (acc, any, [])
  end.

Definition number (rs : list Z) : option (Z * list Z) :=
  match digits rs 0 false with (n, true, rest) => Some (n, rest) | _ => None end.

(** [scanInt] / [scanUint]: parsed as 64 bits, then refused when it does not fit. *)
Definition scan_num (signed : bool) (bits : Z) (rs : list Z) : option (Z * list Z) :=
  match skip_space rs with
  | None => None
  | Some rs =>
    if signed then
      let '(neg, rs) := match rs with
                        | r :: rest => if r =? 45 then (true, rest) else if r =? 43 then (false, rest) else (false, rs)
                        | [] => (false, rs)
                        end in
      match number rs with
      | Some (n, rest) =>
        let n := if neg then - n else n in
        if (- 2 ^ (bits - 1) <=? n) && (n <? 2 ^ (bits - 1)) then Some (n, rest) else None
      | None => None
      end
    else
      match number rs with
      | Some (n, rest) => if n <? 2 ^ bits then Some (n, rest) else None
      | None => None
      end
  end.

Fixpoint scan (fmt : list item) (rs : list Z) : option (list Z) :=
  match fmt with
  | [] => Some []
  | Lit r :: fmt => match rs with q :: rest => if q =? r then scan fmt rest else None | [] => None end
  | Verb signed bits :: fmt =>
    match scan_num signed bits rs with
    | Some (n, rest) => (fun ns => n :: ns) <$> scan fmt rest
    | None => None
    end
  end.
End Sscanf.

(** ** password.go *)

Section password.
Context `{Argon2}.

Definition argonMemoryKiB : Z := 19 * 1024.
Definition argonIterations : Z := 2.
Definition argonParallel : Z := 1.
Definition argonSaltLen : Z := 16.
Definition argonKeyLen : Z := 32.
Definition argonVersion : Z := 0x13.

Record argonParams := { ap_memoryKiB : Z; ap_iterations : Z; ap_parallel : Z }.

Definition phc (salt hash : string) : string :=
  "$argon2id$v=" +:+ Strconv.Itoa argonVersion +:+ "$m=" +:+ Strconv.Itoa argonMemoryKiB
  +:+ ",t=" +:+ Strconv.Itoa argonIterations +:+ ",p=" +:+ Strconv.Itoa argonParallel
  +:+ "$" +:+ RawStd.EncodeToString salt +:+ "$" +:+ RawStd.EncodeToString hash.

(** [HashPassword]: [salt] is what [rand.Read] returned. *)
Definition HashPassword (salt password : string) : string :=
  phc salt (IDKey password salt argonIterations argonMemoryKiB argonParallel argonKeyLen).

Definition runes_of (s : string) : list Sscanf.item := Sscanf.Lit <$> Utf8.runes s.

Definition decodeHash (encoded : string) : option (argonParams * string * string) :=
  match Strs.Split "$" encoded with
  | [_; alg; version; params; salt; hash] =>
    if negb (alg =s? "argon2id") then None
    else
      match Sscanf.scan (runes_of "v=" ++ [Sscanf.Verb true 64]) (Utf8.runes version) with
      | Some [v] =>
        if negb (v =? argonVersion) then None
        else
          match Sscanf.scan (runes_of "m=" ++ Sscanf.Verb false 32 :: runes_of ",t=" ++ Sscanf.Verb false 32
                             :: runes_of ",p=" ++ [Sscanf.Verb false 8]) (Utf8.runes params) with
          | Some [m; t; p] =>
            match RawStd.DecodeString salt, RawStd.DecodeString hash with
            | Some salt, Some hash =>
              Some ({| ap_memoryKiB := m; ap_iterations := t; ap_parallel := p |}, salt, hash)
            | _, _ => None
            end
          | _ => None
          end
      | _ => None
      end
  | _ => None
  end.

(** [VerifyPassword]: [None] is [errInvalidHash]. *)
Definition VerifyPassword (password encoded : string) : option bool :=
  match decodeHash encoded with
  | Some (params, salt, want) =>
    let got := IDKey password salt (ap_iterations params) (ap_memoryKiB params) (ap_parallel params) (slen want) in
    Some (got =s? want)
  | None => None
  end.

(** ** Facts *)

Lemma of_to_std c : c <> 43 -> c <> 47 -> c <> 0 -> RawStd.of_std (RawStd.to_std c) = c.
Proof.
  intros. unfold RawStd.of_std, RawStd.to_std.
  destruct (c =? 45) eqn:E1; bool_to_prop; [by subst|]. destruct (c =? 95) eqn:E2; bool_to_prop; [by subst|].
  rewrite (proj2 (Z.eqb_neq c 43)), (proj2 (Z.eqb_neq c 47)) by done.
  by rewrite (proj2 (Z.eqb_neq c 45)), (proj2 (Z.eqb_neq c 95)) by done.
Qed.

Definition phc_char (c : Z) : bool :=
  (c =? 43) || (c =? 47) || ((48 <=? c) && (c <=? 57)) || ((65 <=? c) && (c <=? 90)) || ((97 <=? c) && (c <=? 122)).

Lemma std_alphabet n : 0 <= n < 64 ->
  phc_char (RawStd.to_std (Base64.encodeURL n)) = true
  /\ RawStd.of_std (RawStd.to_std (Base64.encodeURL n)) = Base64.encodeURL n.
Proof.
  intros Hn. assert (forallb (fun n => phc_char (RawStd.to_std (Base64.encodeURL n))
    && (RawStd.of_std (RawStd.to_std (Base64.encodeURL n)) =? Base64.encodeURL n)) (seqZ 0 64) = true) as Hall
    by (vm_compute; reflexivity).
  rewrite forallb_forall in Hall. specialize (Hall n). rewrite andb_true_iff, Z.eqb_eq in Hall.
  apply Hall, list_elem_of_In, elem_of_seqZ. lia.
Qed.

Lemma std_encode_ok s :
  Forall (fun c => phc_char c = true) (RawStd.to_std <$> Base64.encode (bytes_of s))
  /\ RawStd.of_std <$> (RawStd.to_std <$> Base64.encode (bytes_of s)) = Base64.encode (bytes_of s).
Proof.
  pose proof (Base64.encode_alphabet (bytes_of s)) as Ha.
  induction Ha as [|c cs (n & Hn & ->) _ [IH1 IH2]]; [done|]. destruct (std_alphabet n Hn) as [Hc He].
  cbn. split; [by constructor|by rewrite He, IH2].
Qed.

Lemma phc_char_byte c : phc_char c = true -> is_byte c.
Proof.
  unfold phc_char, is_byte. intros Hb.
  repeat (apply orb_true_iff in Hb as [Hb|Hb]; bool_to_prop; try lia); bool_to_prop; lia.
Qed.

Lemma std_encode_bytes s :
  bytes_of (RawStd.EncodeToString s) = RawStd.to_std <$> Base64.encode (bytes_of s).
Proof.
  destruct (std_encode_ok s) as [Hc _]. apply bytes_of_string_of_bytes.
  eapply Forall_impl; [exact Hc|]. intros c. apply phc_char_byte.
Qed.

Lemma std_DecodeString_Encode s : RawStd.DecodeString (RawStd.EncodeToString s) = Some s.
Proof.
  unfold RawStd.DecodeString. rewrite std_encode_bytes. destruct (std_encode_ok s) as [_ ->].
  pose proof (Base64.DecodeString_Encode s) as Hd. unfold Base64.DecodeString, Base64.EncodeToString in Hd.
  rewrite bytes_of_string_of_bytes in Hd; [done|].
  eapply Forall_impl; [apply Base64.encode_alphabet|]. intros c (n & Hn & ->). by apply Base64.encodeURL_byte.
Qed.

Lemma std_no_dollar s :
  Strs.str_forallb (fun c => negb (Ascii.eqb c "$")) (RawStd.EncodeToString s) = true.
Proof.
  destruct (std_encode_ok s) as [Hc _]. rewrite <- std_encode_bytes in Hc. revert Hc.
  generalize (RawStd.EncodeToString s). induction s0 as [|a s0 IH]; [done|]. cbn.
  intros [Ha Hs]%Forall_cons. apply andb_true_iff. split; [|by apply IH].
  destruct (Ascii.eqb_spec a "$") as [->|]; [by vm_compute in Ha|done].
Qed.

Lemma decodeHash_phc salt hash :
  decodeHash (phc salt hash)
  = Some ({| ap_memoryKiB := argonMemoryKiB; ap_iterations := argonIterations; ap_parallel := argonParallel |},
          salt, hash).
Proof.
  assert (phc salt hash = "" +:+ String "$" ("argon2id" +:+ String "$" ("v=19" +:+ String "$"
    ("m=19456,t=2,p=1" +:+ String "$" (RawStd.EncodeToString salt +:+ String "$" (RawStd.EncodeToString hash))))))
    as -> by reflexivity.
  unfold decodeHash. rewrite !Strs.Split_app, Strs.Split_none by first [reflexivity|apply std_no_dollar].
  rewrite !std_DecodeString_Encode. reflexivity.
Qed.

Lemma verify_HashPassword `{!Argon2Laws} salt password other :
  VerifyPassword other (HashPassword salt password)
  = Some (IDKey other salt argonIterations argonMemoryKiB argonParallel argonKeyLen
          =s? IDKey password salt argonIterations argonMemoryKiB argonParallel argonKeyLen).
Proof.
  unfold VerifyPassword, HashPassword. rewrite !decodeHash_phc. cbn [ap_memoryKiB ap_iterations ap_parallel].
  by rewrite IDKey_length by (unfold argonKeyLen; lia).
Qed.

(** Without a decoy hash there is nothing to compare: the check is an error, not a no. *)
Lemma empty_hash_unreadable password : VerifyPassword password "" = None.
Proof. reflexivity. Qed.

(** Password hashes round-trip.  Checking a password against a hash that was made
    with the current parameters reads the very salt and parameters back and compares
    the derived keys: the password the hash was made from passes, and another one
    passes exactly when argon2id derives the same key from it. *)
Theorem password_roundtrip `{!Argon2Laws} (salt password other : string) :
  let key pw := IDKey pw salt argonIterations argonMemoryKiB argonParallel argonKeyLen in
  VerifyPassword password (HashPassword salt password) = Some true
  /\ VerifyPassword other (HashPassword salt password) = Some (key other =s? key password).
Proof.
  cbn zeta. rewrite !verify_HashPassword. by rewrite String.eqb_refl.
Qed.
End password.
