(* ===== verification/AuthStore.v ===== *)
(** * internal/auth/pgstore and authdb: accounts, identities, sessions, tokens

    The five tables of migration 00001 (with the columns 00018, 00022, 00023, 00029 and
    00030 add), one definition per statement with the constraints it can violate, and
    the adapter's translation of PostgreSQL's errors.  An instant is a count of
    microseconds, the resolution of [timestamptz]; ids and instants the database
    chooses are arguments.  PostgreSQL's [lower], which [citext] compares by, depends on
    the database's collation and is a parameter. *)

From Stdlib Require Import Strings.Ascii.
From S2P Require Import Prelude GoStd Uuid AuthText.

Open Scope Z_scope.

Class PgText := { pg_lower : string -> string }.

Definition ci_eq `{PgText} (a b : string) : bool := pg_lower a =s? pg_lower b.

Definition microsecond : Z := 1.
Definition hour : Z := 3600 * 1000000 * microsecond.
Definition day : Z := 24 * hour.

(** ** store.go: the domain's words *)

Definition ProviderEmail : string := "email".
Definition ProviderGitHub : string := "github".
Definition ProviderGoogle : string := "google".
Definition PurposeVerify : string := "verify".
Definition PurposeReset : string := "reset".

(** errors.go: what the store reports. *)
Inductive storeError :=
| ErrNotFound | ErrDisplayNameTaken | ErrDisplayNameCooldown
| ErrEmailOwnedByOtherUser | ErrIdentityExists
| ErrOther.

Section store.
Context `{Uuid} `{PgText}.

Record User := {
  us_ID : UUID; us_DisplayName : string; us_CreatedAt : Z;
  us_ProfilePublic : bool; us_KeyboardPublic : bool; us_UpdatedAt : Z; us_Role : string;
  us_Bio : option string; us_Keyboard : option string; us_DisplayNameChangedAt : option Z }.

Record Identity := {
  id_ID : UUID; id_UserID : UUID; id_Provider : string; id_Subject : string;
  id_Email : option string; id_EmailVerified : bool; id_CreatedAt : Z }.

Record Session := {
  se_ID : UUID; se_TokenHash : string; se_UserID : UUID;
  se_CreatedAt : Z; se_ExpiresAt : Z; se_LastSeenAt : Z }.

Record Credential := { cr_UserID : UUID; cr_Hash : string; cr_UpdatedAt : Z }.

Record EmailToken := {
  et_ID : UUID; et_UserID : UUID; et_Purpose : string; et_TokenHash : string;
  et_ExpiresAt : Z; et_UsedAt : option Z }.

Record authDB := {
  db_users : gmap UUID User;
  db_identities : gmap UUID Identity;
  db_credentials : gmap UUID Credential;
  db_sessions : gmap UUID Session;
  db_tokens : gmap UUID EmailToken }.

Definition emptyDB : authDB :=
  {| db_users := ∅; db_identities := ∅; db_credentials := ∅; db_sessions := ∅; db_tokens := ∅ |}.

Definition setUsers f db := {| db_users := f (db_users db); db_identities := db_identities db;
  db_credentials := db_credentials db; db_sessions := db_sessions db; db_tokens := db_tokens db |}.
Definition setIdentities f db := {| db_users := db_users db; db_identities := f (db_identities db);
  db_credentials := db_credentials db; db_sessions := db_sessions db; db_tokens := db_tokens db |}.
Definition setCredentials f db := {| db_users := db_users db; db_identities := db_identities db;
  db_credentials := f (db_credentials db); db_sessions := db_sessions db; db_tokens := db_tokens db |}.
Definition setSessions f db := {| db_users := db_users db; db_identities := db_identities db;
  db_credentials := db_credentials db; db_sessions := f (db_sessions db); db_tokens := db_tokens db |}.
Definition setTokens f db := {| db_users := db_users db; db_identities := db_identities db;
  db_credentials := db_credentials db; db_sessions := db_sessions db; db_tokens := f (db_tokens db) |}.

(** ** PostgreSQL's answers *)

Inductive pgError := NoRows | Violates (constraint_ : string).

(** What a statement fails with: PostgreSQL's answer, a text with a zero byte, which it
    does not take, or no answer. *)
Inductive sqlError := Pg (e : pgError) | BadText | Lost.

Definition storable (s : string) : bool := forallb (fun b => negb (b =? 0)) (bytes_of s).

(** [mapErr] *)
Definition mapErr (e : pgError) : storeError :=
  match e with
  | NoRows => ErrNotFound
  | Violates c =>
    if c =s? "users_display_name_key" then ErrDisplayNameTaken
    else if c =s? "verified_email_one_user" then ErrEmailOwnedByOtherUser
    else if c =s? "auth_identities_provider_provider_subject_key" then ErrIdentityExists
    else ErrOther
  end.

Definition mapped {A} (r : A + pgError) : A + storeError :=
  match r with inl a => inl a | inr e => inr (mapErr e) end.

(** The rows of a table, in some order. *)
Definition rows {A} (t : gmap UUID A) : list A := (map_to_list t).*2.

(** At most one row can satisfy the condition of a [:one] query by a unique key. *)
Definition one {A} (p : A -> bool) (t : gmap UUID A) : A + pgError :=
  match find_first p (rows t) with Some a => inl a | None => inr NoRows end.

(** ** users *)

Definition displayNameCheck (name : string) : bool :=
  (3 <=? Utf8.rune_count name) && (Utf8.rune_count name <=? 20) && displayNameRe name.

(** Another account holds the name, case apart. *)
Definition nameHeld (id : UUID) (name : string) (db : authDB) : bool :=
  existsb (fun u => negb (bool_decide (us_ID u = id)) && ci_eq (us_DisplayName u) name) (rows (db_users db)).

Definition CreateUser (id : UUID) (now : Z) (name : string) (db : authDB) : authDB * User + pgError :=
  if negb (displayNameCheck name) then inr (Violates "users_display_name_check")
  else if bool_decide (is_Some (db_users db !! id)) then inr (Violates "users_pkey")
  else if nameHeld id name db then inr (Violates "users_display_name_key")
  else
    let u := {| us_ID := id; us_DisplayName := name; us_CreatedAt := now; us_ProfilePublic := true;
                us_KeyboardPublic := false; us_UpdatedAt := now; us_Role := "player";
                us_Bio := None; us_Keyboard := None; us_DisplayNameChangedAt := None |} in
    inl (setUsers (insert id u) db, u).

Definition GetUserByID (id : UUID) (db : authDB) : User + pgError :=
  match db_users db !! id with Some u => inl u | None => inr NoRows end.

Definition displayNameCooldown : Z := 30 * day.

Definition ChangeDisplayName (id : UUID) (now : Z) (name : string) (db : authDB)
    : authDB * User + pgError :=
  match db_users db !! id with
  | Some u =>
    if match us_DisplayNameChangedAt u with None => true | Some t => t <=? now - displayNameCooldown end
    then
      if negb (displayNameCheck name) then inr (Violates "users_display_name_check")
      else if nameHeld id name db then inr (Violates "users_display_name_key")
      else
        let u := {| us_ID := us_ID u; us_DisplayName := name; us_CreatedAt := us_CreatedAt u;
                    us_ProfilePublic := us_ProfilePublic u; us_KeyboardPublic := us_KeyboardPublic u;
                    us_UpdatedAt := now; us_Role := us_Role u; us_Bio := us_Bio u;
                    us_Keyboard := us_Keyboard u; us_DisplayNameChangedAt := Some now |} in
        inl (setUsers (insert id u) db, u)
    else inr NoRows
  | None => inr NoRows
  end.

Definition UpdateUserSettings (id : UUID) (now : Z) (profile keyboard : bool) (db : authDB)
    : authDB * User + pgError :=
  match db_users db !! id with
  | Some u =>
    let u := {| us_ID := us_ID u; us_DisplayName := us_DisplayName u; us_CreatedAt := us_CreatedAt u;
                us_ProfilePublic := profile; us_KeyboardPublic := keyboard;
                us_UpdatedAt := now; us_Role := us_Role u; us_Bio := us_Bio u;
                us_Keyboard := us_Keyboard u; us_DisplayNameChangedAt := us_DisplayNameChangedAt u |} in
    inl (setUsers (insert id u) db, u)
  | None => inr NoRows
  end.

(** What [users.bio] and [users.keyboard] hold: a text has no zero byte, and the CHECKs
    of migration 00029. *)
Definition bioMax : Z := 250.
Definition keyboardMax : Z := 100.
Definition textFits (max : Z) (text : option string) : bool :=
  match text with
  | Some s => storable s && (1 <=? Utf8.rune_count s) && (Utf8.rune_count s <=? max)
  | None => true
  end.

(** internal/profile/profiledb *)
Definition UpdateProfileIdentity (id : UUID) (now : Z) (bio keyboard : option string) (db : authDB)
    : authDB + pgError :=
  match db_users db !! id with
  | Some u =>
    if negb (textFits bioMax bio) then inr (Violates "users_bio_check")
    else if negb (textFits keyboardMax keyboard) then inr (Violates "users_keyboard_check")
    else
      inl (setUsers (insert id
        {| us_ID := us_ID u; us_DisplayName := us_DisplayName u; us_CreatedAt := us_CreatedAt u;
           us_ProfilePublic := us_ProfilePublic u; us_KeyboardPublic := us_KeyboardPublic u;
           us_UpdatedAt := now; us_Role := us_Role u; us_Bio := bio; us_Keyboard := keyboard;
           us_DisplayNameChangedAt := us_DisplayNameChangedAt u |}) db)
  | None => inl db
  end.

(** The account owns a verified identity on one of the addresses. *)
Definition vouchedFor (emails : list string) (db : authDB) (u : User) : bool :=
  existsb (fun i => bool_decide (id_UserID i = us_ID u) && id_EmailVerified i
    && match id_Email i with Some e => existsb (ci_eq e) emails | None => false end) (rows (db_identities db)).

Definition promote (now : Z) (u : User) : User :=
  {| us_ID := us_ID u; us_DisplayName := us_DisplayName u; us_CreatedAt := us_CreatedAt u;
     us_ProfilePublic := us_ProfilePublic u; us_KeyboardPublic := us_KeyboardPublic u;
     us_UpdatedAt := now; us_Role := "admin"; us_Bio := us_Bio u;
     us_Keyboard := us_Keyboard u; us_DisplayNameChangedAt := us_DisplayNameChangedAt u |}.

Definition promoted (emails : list string) (db : authDB) (u : User) : bool :=
  negb (us_Role u =s? "admin") && vouchedFor emails db u.

Definition PromoteAdmins (now : Z) (emails : list string) (db : authDB) : authDB * Z :=
  (setUsers (fmap (fun u => if promoted emails db u then promote now u else u)) db,
   Z.of_nat (length (filter (fun u => promoted emails db u = true) (rows (db_users db))))).

(** ** auth_identities *)

Record IdentityParams := {
  ip_Provider : string; ip_Subject : string; ip_Email : string; ip_EmailVerified : bool }.

Definition emailPtr (email : string) : option string := if email =s? "" then None else Some email.

(** What the exclusion constraint [verified_email_one_user] compares. *)
Definition verifiedFor (email : option string) (user : UUID) (i : Identity) : bool :=
  id_EmailVerified i && negb (bool_decide (id_UserID i = user))
  && match id_Email i, email with Some e, Some e' => ci_eq e e' | _, _ => false end.

Definition emailConflict (email : option string) (user : UUID) (db : authDB) : bool :=
  existsb (verifiedFor email user) (rows (db_identities db)).

Definition sameSubject (provider subject : string) (i : Identity) : bool :=
  (id_Provider i =s? provider) && (id_Subject i =s? subject).

(** CHECKs first, then the unique indexes, then the exclusion constraint, then the
    reference to the account. *)
Definition CreateIdentity (id : UUID) (now : Z) (user : UUID) (p : IdentityParams) (db : authDB)
    : authDB * Identity + pgError :=
  let provider := ip_Provider p in
  if negb ((provider =s? ProviderGitHub) || (provider =s? ProviderGoogle) || (provider =s? ProviderEmail))
  then inr (Violates "auth_identities_provider_check")
  else if (provider =s? ProviderEmail) && negb (ip_Subject p =s? pg_lower (ip_Subject p))
  then inr (Violates "email_subject_lowercase")
  else if bool_decide (is_Some (db_identities db !! id)) then inr (Violates "auth_identities_pkey")
  else if existsb (sameSubject provider (ip_Subject p)) (rows (db_identities db))
  then inr (Violates "auth_identities_provider_provider_subject_key")
  else if ip_EmailVerified p && emailConflict (emailPtr (ip_Email p)) user db
  then inr (Violates "verified_email_one_user")
  else if negb (bool_decide (is_Some (db_users db !! user)))
  then inr (Violates "auth_identities_user_id_fkey")
  else
    let i := {| id_ID := id; id_UserID := user; id_Provider := provider; id_Subject := ip_Subject p;
                id_Email := emailPtr (ip_Email p); id_EmailVerified := ip_EmailVerified p;
                id_CreatedAt := now |} in
    inl (setIdentities (insert id i) db, i).

Definition GetIdentityByProviderSubject (provider subject : string) (db : authDB) : Identity + pgError :=
  one (sameSubject provider subject) (db_identities db).

Definition hasEmail (email : option string) (i : Identity) : bool :=
  match id_Email i, email with Some e, Some e' => ci_eq e e' | _, _ => false end.

Definition GetEmailIdentityByEmail (email : option string) (db : authDB) : Identity + pgError :=
  one (fun i => (id_Provider i =s? ProviderEmail) && hasEmail email i) (db_identities db).

Definition GetVerifiedIdentityByEmail (email : option string) (db : authDB) : Identity + pgError :=
  one (fun i => hasEmail email i && id_EmailVerified i) (db_identities db).

(** Its callers ask whether some row satisfies a test, so the order is not modelled. *)
Definition ListIdentitiesByUser (user : UUID) (db : authDB) : list Identity :=
  filter (fun i => id_UserID i = user) (rows (db_identities db)).

Definition verify (i : Identity) : Identity :=
  {| id_ID := id_ID i; id_UserID := id_UserID i; id_Provider := id_Provider i; id_Subject := id_Subject i;
     id_Email := id_Email i; id_EmailVerified := true; id_CreatedAt := id_CreatedAt i |}.

Definition emailOf (user : UUID) (i : Identity) : bool :=
  bool_decide (id_UserID i = user) && (id_Provider i =s? ProviderEmail).

Definition VerifyEmailIdentityByUser (user : UUID) (db : authDB) : authDB + pgError :=
  if existsb (fun i => emailOf user i && emailConflict (id_Email i) user db) (rows (db_identities db))
  then inr (Violates "verified_email_one_user")
  else inl (setIdentities (fmap (fun i => if emailOf user i then verify i else i)) db).

(** ** user_credentials *)

Definition UpsertCredential (now : Z) (user : UUID) (hash : string) (db : authDB) : authDB + pgError :=
  if negb (bool_decide (is_Some (db_users db !! user))) then inr (Violates "user_credentials_user_id_fkey")
  else inl (setCredentials
              (insert user {| cr_UserID := user; cr_Hash := hash; cr_UpdatedAt := now |}) db).

Definition GetCredentialByUser (user : UUID) (db : authDB) : Credential + pgError :=
  match db_credentials db !! user with Some c => inl c | None => inr NoRows end.

(** ** sessions *)

Definition sessionOf (hash : string) (s : Session) : bool := se_TokenHash s =s? hash.

Definition CreateSession (id : UUID) (now : Z) (hash : string) (user : UUID) (expiresAt : Z) (db : authDB)
    : authDB * Session + pgError :=
  if bool_decide (is_Some (db_sessions db !! id)) then inr (Violates "sessions_pkey")
  else if existsb (sessionOf hash) (rows (db_sessions db)) then inr (Violates "sessions_token_hash_key")
  else if negb (bool_decide (is_Some (db_users db !! user))) then inr (Violates "sessions_user_id_fkey")
  else
    let s := {| se_ID := id; se_TokenHash := hash; se_UserID := user; se_CreatedAt := now;
                se_ExpiresAt := expiresAt; se_LastSeenAt := now |} in
    inl (setSessions (insert id s) db, s).

Definition GetSessionByTokenHash (hash : string) (db : authDB) : Session + pgError :=
  one (sessionOf hash) (db_sessions db).

Definition TouchSession (id : UUID) (now : Z) (expiresAt : Z) (db : authDB) : authDB :=
  setSessions (alter (fun s =>
    {| se_ID := se_ID s; se_TokenHash := se_TokenHash s; se_UserID := se_UserID s;
       se_CreatedAt := se_CreatedAt s; se_ExpiresAt := expiresAt; se_LastSeenAt := now |}) id) db.

Definition DeleteSessionByTokenHash (hash : string) (db : authDB) : authDB :=
  setSessions (filter (fun ks => sessionOf hash ks.2 = false)) db.

Definition DeleteUserSessions (user : UUID) (db : authDB) : authDB :=
  setSessions (filter (fun ks => se_UserID ks.2 <> user)) db.

Definition DeleteExpiredSessions (now : Z) (db : authDB) : authDB :=
  setSessions (filter (fun ks => (se_ExpiresAt ks.2 <? now) = false)) db.

(** ** email_tokens *)

Record EmailTokenParams := { ep_UserID : UUID; ep_Purpose : string; ep_TokenHash : string; ep_ExpiresAt : Z }.

Definition CreateEmailToken (id : UUID) (p : EmailTokenParams) (db : authDB) : authDB * EmailToken + pgError :=
  if negb ((ep_Purpose p =s? PurposeVerify) || (ep_Purpose p =s? PurposeReset))
  then inr (Violates "email_tokens_purpose_check")
  else if bool_decide (is_Some (db_tokens db !! id)) then inr (Violates "email_tokens_pkey")
  else if existsb (fun t => et_TokenHash t =s? ep_TokenHash p) (rows (db_tokens db))
  then inr (Violates "email_tokens_token_hash_key")
  else if negb (bool_decide (is_Some (db_users db !! ep_UserID p)))
  then inr (Violates "email_tokens_user_id_fkey")
  else
    let t := {| et_ID := id; et_UserID := ep_UserID p; et_Purpose := ep_Purpose p;
                et_TokenHash := ep_TokenHash p; et_ExpiresAt := ep_ExpiresAt p; et_UsedAt := None |} in
    inl (setTokens (insert id t) db, t).

Definition DeleteUserTokensByPurpose (user : UUID) (purpose : string) (db : authDB) : authDB :=
  setTokens (filter (fun kt => ~ (et_UserID kt.2 = user /\ et_Purpose kt.2 = purpose))) db.

Definition usable (now : Z) (hash purpose : string) (t : EmailToken) : bool :=
  (et_TokenHash t =s? hash) && (et_Purpose t =s? purpose)
  && bool_decide (et_UsedAt t = None) && (now <? et_ExpiresAt t).

Definition spend (now : Z) (t : EmailToken) : EmailToken :=
  {| et_ID := et_ID t; et_UserID := et_UserID t; et_Purpose := et_Purpose t;
     et_TokenHash := et_TokenHash t; et_ExpiresAt := et_ExpiresAt t; et_UsedAt := Some now |}.

Definition UseEmailToken (now : Z) (hash purpose : string) (db : authDB) : authDB * EmailToken + pgError :=
  match one (usable now hash purpose) (db_tokens db) with
  | inl t => inl (setTokens (insert (et_ID t) (spend now t)) db, spend now t)
  | inr e => inr e
  end.

Definition staleToken (now : Z) (t : EmailToken) : bool :=
  (et_ExpiresAt t <? now - 24 * hour)
  || match et_UsedAt t with Some u => u <? now - 24 * hour | None => false end.

Definition DeleteStaleEmailTokens (now : Z) (db : authDB) : authDB :=
  setTokens (filter (fun kt => staleToken now kt.2 = false)) db.

(** The sweep of the janitor: two statements. *)
Definition Sweep (now : Z) (db : authDB) : authDB :=
  DeleteStaleEmailTokens now (DeleteExpiredSessions now db).

(** ** Deleting an account: everything that references it goes with it *)

Definition dropAccount (user : UUID) (db : authDB) : authDB :=
  {| db_users := delete user (db_users db);
     db_identities := filter (fun ki => id_UserID ki.2 <> user) (db_identities db);
     db_credentials := delete user (db_credentials db);
     db_sessions := filter (fun ks => se_UserID ks.2 <> user) (db_sessions db);
     db_tokens := filter (fun kt => et_UserID kt.2 <> user) (db_tokens db) |}.

(** ** pgstore: the transactions that create accounts

    Inserts only, so their conflicts with other transactions are those of the
    constraints: they are taken as one step. *)

Record EmailAccountParams := { ea_DisplayName : string; ea_Email : string; ea_PasswordHash : string }.

Definition CreateEmailAccount (uid iid : UUID) (now : Z) (p : EmailAccountParams) (db : authDB)
    : (authDB * (User * Identity)) + storeError :=
  match CreateUser uid now (ea_DisplayName p) db with
  | inr e => inr (mapErr e)
  | inl (db1, u) =>
    match CreateIdentity iid now (us_ID u)
            {| ip_Provider := ProviderEmail; ip_Subject := ea_Email p; ip_Email := ea_Email p;
               ip_EmailVerified := false |} db1 with
    | inr e => inr (mapErr e)
    | inl (db2, i) =>
      match UpsertCredential now (us_ID u) (ea_PasswordHash p) db2 with
      | inr _ => inr ErrOther
      | inl db3 => inl (db3, (u, i))
      end
    end
  end.

Record OAuthAccountParams := {
  oa_DisplayName : string; oa_Provider : string; oa_Subject : string;
  oa_Email : string; oa_EmailVerified : bool }.

Definition CreateOAuthAccount (uid iid : UUID) (now : Z) (p : OAuthAccountParams) (db : authDB)
    : (authDB * (User * Identity)) + storeError :=
  match CreateUser uid now (oa_DisplayName p) db with
  | inr e => inr (mapErr e)
  | inl (db1, u) =>
    match CreateIdentity iid now (us_ID u)
            {| ip_Provider := oa_Provider p; ip_Subject := oa_Subject p; ip_Email := oa_Email p;
               ip_EmailVerified := oa_EmailVerified p |} db1 with
    | inr e => inr (mapErr e)
    | inl (db2, i) => inl (db2, (u, i))
    end
  end.

(** pgstore's [ChangeDisplayName]: no row means the cooldown refused. *)
Definition renamed (r : authDB * User + pgError) : authDB * User + storeError :=
  match r with
  | inr NoRows => inr ErrDisplayNameCooldown
  | inr e => inr (mapErr e)
  | inl a => inl a
  end.
End store.
