(* ===== verification/AuthFlow.v ===== *)
(** * internal/auth: the flows

    A handler is a program over the effects it has: the store's methods, the clock,
    random bytes, the hash gate, the mailer.  Run from start to end it is a function on
    worlds ([run]); several of them, taken an effect at a time, are the interleavings of
    AuthWorld. *)

From Stdlib Require Import Strings.Ascii.
From S2P Require Import Prelude Effects GoStd Uuid Json Httpx AuthLimiter AuthText AuthPassword AuthStore.

Open Scope Z_scope.

(** ** Configuration and environment *)

(** [Config], the parts the flows use; durations in microseconds. *)
Record Config := {
  cf_FrontendOrigin : string; cf_SessionTTL : Z; cf_HashConcurrency : Z;
  cf_Providers : list string;      (* those with client credentials *)
  cf_limits : limits;              (* of the limiter the service is given *)
  cf_captcha : bool;               (* whether a verifier is configured *)
  cf_dummyHash : string }.         (* Service.dummyHash, computed at start-up *)

Record Mail := { ml_To : string; ml_Subject : string; ml_Body : string }.

(** errors.go *)
Record apiError := { ae_status : Z; ae_Code : string; ae_Message : string }.

Definition apiErrInvalidToken :=
  {| ae_status := 400; ae_Code := "invalid_token";
     ae_Message := "the token is invalid, expired, or already used" |}.
Definition apiErrInvalidCredentials :=
  {| ae_status := 401; ae_Code := "invalid_credentials"; ae_Message := "email or password is incorrect" |}.
Definition apiErrEmailNotVerified :=
  {| ae_status := 403; ae_Code := "email_not_verified";
     ae_Message := "verify your email address before signing in" |}.
Definition apiErrUnauthorized :=
  {| ae_status := 401; ae_Code := "unauthorized"; ae_Message := "authentication required" |}.
Definition apiErrForbiddenOrigin :=
  {| ae_status := 403; ae_Code := "forbidden_origin"; ae_Message := "request origin is not allowed" |}.
Definition apiErrProviderUnknown :=
  {| ae_status := 404; ae_Code := "unknown_provider"; ae_Message := "unknown or unconfigured OAuth provider" |}.
Definition apiErrInternal :=
  {| ae_status := 500; ae_Code := "internal"; ae_Message := "an unexpected error occurred" |}.
Definition apiErrNameTaken :=
  {| ae_status := 409; ae_Code := "name_taken"; ae_Message := "that display name is already in use" |}.
Definition apiErrAccountExistsUseLinking :=
  {| ae_status := 409; ae_Code := "account_exists_use_linking";
     ae_Message := "this email already belongs to another account; sign in there and link providers explicitly" |}.
Definition apiErrEmailAlreadySet :=
  {| ae_status := 409; ae_Code := "email_already_set";
     ae_Message := "this account already has an email identity" |}.
Definition apiErrNoVerifiedEmail :=
  {| ae_status := 409; ae_Code := "no_verified_email";
     ae_Message := "add and verify an email address before setting a password" |}.
Definition apiErrPasswordAlreadySet :=
  {| ae_status := 409; ae_Code := "password_already_set";
     ae_Message := "a password is already set; use the reset flow to change it" |}.
Definition apiErrOverloaded :=
  {| ae_status := 503; ae_Code := "overloaded";
     ae_Message := "the server is at hashing capacity; retry in a moment" |}.
Definition apiErrDisplayNameUnchanged :=
  {| ae_status := 409; ae_Code := "display_name_unchanged";
     ae_Message := "this is already the account's display name" |}.
Definition apiErrBadRequest (message : string) :=
  {| ae_status := 400; ae_Code := "bad_request"; ae_Message := message |}.

Section flow.
Context `{Uuid} `{PgText} `{Argon2}.

(** ** What a handler answers *)

Record userView := {
  uv_ID : UUID; uv_DisplayName : string; uv_CreatedAt : Z; uv_Restricted : bool;
  uv_ProfilePublic : bool; uv_KeyboardPublic : bool; uv_Permissions : list string;
  uv_DisplayNameChangedAt : option Z }.

Inductive body :=
| Message (message : string)   (* statusMessage *)
| StatusOK
| UserBody (v : userView)
| AuthorizeURL (provider state challengeOf : string)
| Failure (e : apiError).

(** Where the browser is sent: the frontend's landing page with one parameter. *)
Inductive response :=
| Reply (status : Z) (b : body)
| Redirect (key value : string).

(** Cookies a handler sets: the session (empty to expire it) and the flow's. *)
Inductive cookie := SessionCookie (token : string) | FlowCookie (name value : string).

Definition answer : Type := list cookie * response.

Definition ok (b : body) : answer := ([], Reply 200 b).
Definition fail (e : apiError) : answer := ([], Reply (ae_status e) (Failure e)).
(** [writeError] of an error that is not an [apiError]. *)
Definition internal : answer := fail apiErrInternal.

(** ** Effects *)

(** The store's methods, by the answer they give. *)
Inductive query : Type -> Type :=
| qCreateEmailAccount (p : EmailAccountParams) : query (User * Identity)
| qCreateOAuthAccount (p : OAuthAccountParams) : query (User * Identity)
| qLinkIdentity (user : UUID) (p : IdentityParams) : query Identity
| qIdentityByProviderSubject (provider subject : string) : query Identity
| qEmailIdentity (email : string) : query Identity
| qVerifiedIdentityByEmail (email : string) : query Identity
| qIdentitiesByUser (user : UUID) : query (list Identity)
| qMarkEmailVerified (user : UUID) : query unit
| qUser (id : UUID) : query User
| qUpdateUserSettings (user : UUID) (profile keyboard : bool) : query User
| qChangeDisplayName (user : UUID) (name : string) : query User
| qPromoteAdmins (emails : list string) : query Z
| qCredential (user : UUID) : query Credential
| qUpdateCredential (user : UUID) (hash : string) : query unit
| qCreateEmailToken (p : EmailTokenParams) : query unit
| qDeleteUserTokens (user : UUID) (purpose : string) : query unit
| qUseEmailToken (hash purpose : string) : query EmailToken
| qCreateSession (hash : string) (user : UUID) (expiresAt : Z) : query Session
| qSessionByTokenHash (hash : string) : query Session
| qTouchSession (id : UUID) (expiresAt : Z) : query unit
| qDeleteSession (hash : string) : query unit
| qDeleteUserSessions (user : UUID) : query unit
| qDeleteExpiredSessions : query unit
| qDeleteStaleEmailTokens : query unit.

(** What the OAuth provider answers: a refused code, no profile, or the profile. *)
Inductive exchanged := ExchangeFailed | UserInfoFailed | Profile (info : oauthUser).

Inductive eff : Type -> Type :=
| Query {A} (q : query A) : eff (A + storeError)
| Now : eff Z                       (* s.now() *)
| Rand (n : Z) : eff string         (* rand.Read *)
| AcquireHash : eff bool            (* hashGate.acquire *)
| ReleaseHash : eff unit
| Send (m : Mail) : eff bool        (* mailer.Send: whether it succeeded *)
| IsRestricted (user : UUID) : eff bool  (* moderation's answer; false on its error *)
| Allow (ip : string) : eff bool         (* limiter.Allow *)
| VerifyCaptcha (token ip : string) : eff bool  (* captcha.Verify: whether it accepts *)
| Exchange (provider code verifier : string) : eff exchanged.  (* the provider: code, then profile *)

Definition prog (A : Type) : Type := Effects.prog eff A.

Definition eff_ {X} (e : eff X) : prog X := Vis e Ret.
Definition query_ {A} (q : query A) : prog (A + storeError) := eff_ (Query q).

End flow.

(** ** The world the effects act on *)

Section world.
Context `{Uuid} `{PgText} `{Argon2}.

(** What the environment will answer: the bytes [rand.Read] returns and the ids the
    database generates, by the number of effects performed so far; whether the mailer
    succeeds; moderation's answer. *)
Class Env := {
  env_cfg : Config;
  env_lower : Z -> Z;                       (* unicode.ToLower above ASCII *)
  env_bytes : nat -> Z -> string;
  env_id : nat -> bool -> UUID;
  env_mailer : nat -> bool;
  env_restricted : nat -> UUID -> bool;
  env_captcha : nat -> string -> string -> bool;
  env_exchange : nat -> string -> string -> string -> exchanged }.

(** [rand.Read] fills the buffer it is given. *)
Class EnvLaws `{Env} := {
  env_bytes_len k n : 0 <= n -> slen (env_bytes k n) = n }.

Record world := {
  wd_db : authDB; wd_clock : Z; wd_hashing : Z; wd_outbox : list Mail;
  wd_limiter : limiter; wd_tick : nat }.

Definition tick (w : world) : world :=
  {| wd_db := wd_db w; wd_clock := wd_clock w; wd_hashing := wd_hashing w;
     wd_outbox := wd_outbox w; wd_limiter := wd_limiter w; wd_tick := S (wd_tick w) |}.
Definition withDB (db : authDB) (w : world) : world :=
  {| wd_db := db; wd_clock := wd_clock w; wd_hashing := wd_hashing w;
     wd_outbox := wd_outbox w; wd_limiter := wd_limiter w; wd_tick := wd_tick w |}.
Definition withHashing (n : Z) (w : world) : world :=
  {| wd_db := wd_db w; wd_clock := wd_clock w; wd_hashing := n;
     wd_outbox := wd_outbox w; wd_limiter := wd_limiter w; wd_tick := wd_tick w |}.
Definition withOutbox (l : list Mail) (w : world) : world :=
  {| wd_db := wd_db w; wd_clock := wd_clock w; wd_hashing := wd_hashing w;
     wd_outbox := l; wd_limiter := wd_limiter w; wd_tick := wd_tick w |}.
Definition withLimiter (l : limiter) (w : world) : world :=
  {| wd_db := wd_db w; wd_clock := wd_clock w; wd_hashing := wd_hashing w;
     wd_outbox := wd_outbox w; wd_limiter := l; wd_tick := wd_tick w |}.

(** Statements that change rows answer the new database with their result. *)
Definition committed {A B} (f : A -> B) (db : authDB) (r : (authDB * A) + storeError)
    : authDB * (B + storeError) :=
  match r with inl (db', a) => (db', inl (f a)) | inr e => (db, inr e) end.

Definition exec_query {A} (q : query A) (id id' : UUID) (now : Z) (db : authDB)
    : authDB * (A + storeError) :=
  match q with
  | qCreateEmailAccount p => committed (fun x => x) db (CreateEmailAccount id id' now p db)
  | qCreateOAuthAccount p => committed (fun x => x) db (CreateOAuthAccount id id' now p db)
  | qLinkIdentity user p => committed (fun x => x) db (mapped (CreateIdentity id now user p db))
  | qIdentityByProviderSubject pr s => (db, mapped (GetIdentityByProviderSubject pr s db))
  | qEmailIdentity email => (db, mapped (GetEmailIdentityByEmail (emailPtr email) db))
  | qVerifiedIdentityByEmail email => (db, mapped (GetVerifiedIdentityByEmail (emailPtr email) db))
  | qIdentitiesByUser user => (db, inl (ListIdentitiesByUser user db))
  | qMarkEmailVerified user =>
    match VerifyEmailIdentityByUser user db with inl db' => (db', inl tt) | inr e => (db, inr (mapErr e)) end
  | qUser u => (db, mapped (GetUserByID u db))
  | qUpdateUserSettings u p k => committed (fun x => x) db (mapped (UpdateUserSettings u now p k db))
  | qChangeDisplayName u name => committed (fun x => x) db (renamed (ChangeDisplayName u now name db))
  | qPromoteAdmins emails => let '(db', n) := PromoteAdmins now emails db in (db', inl n)
  | qCredential u => (db, mapped (GetCredentialByUser u db))
  | qUpdateCredential u hash =>
    match UpsertCredential now u hash db with inl db' => (db', inl tt) | inr e => (db, inr (mapErr e)) end
  | qCreateEmailToken p => committed (fun _ => tt) db (mapped (CreateEmailToken id p db))
  | qDeleteUserTokens u purpose => (DeleteUserTokensByPurpose u purpose db, inl tt)
  | qUseEmailToken hash purpose => committed (fun x => x) db (mapped (UseEmailToken now hash purpose db))
  | qCreateSession hash u exp => committed (fun x => x) db (mapped (CreateSession id now hash u exp db))
  | qSessionByTokenHash hash => (db, mapped (GetSessionByTokenHash hash db))
  | qTouchSession i exp => (TouchSession i now exp db, inl tt)
  | qDeleteSession hash => (DeleteSessionByTokenHash hash db, inl tt)
  | qDeleteUserSessions u => (DeleteUserSessions u db, inl tt)
  | qDeleteExpiredSessions => (DeleteExpiredSessions now db, inl tt)
  | qDeleteStaleEmailTokens => (DeleteStaleEmailTokens now db, inl tt)
  end.

Context `{Env}.

(** One effect.  The gate admits while it has a free slot (a non-positive limit turns it
    off); waiting for a slot that nobody frees ends in a refusal. *)
Definition auth_exec {X} (e : eff X) (w : world) : X * world :=
  match e with
  | Query q =>
    let '(db, r) := exec_query q (env_id (wd_tick w) false) (env_id (wd_tick w) true) (wd_clock w) (wd_db w) in
    (r, tick (withDB db w))
  | Now => (wd_clock w, tick w)
  | Rand n => (env_bytes (wd_tick w) n, tick w)
  | AcquireHash =>
    let limit := cf_HashConcurrency env_cfg in
    if (limit <=? 0) || (wd_hashing w <? limit) then (true, tick (withHashing (wd_hashing w + 1) w))
    else (false, tick w)
  | ReleaseHash => (tt, tick (withHashing (wd_hashing w - 1) w))
  | Send m =>
    if env_mailer (wd_tick w) then (true, tick (withOutbox (wd_outbox w ++ [m]) w)) else (false, tick w)
  | IsRestricted u => (env_restricted (wd_tick w) u, tick w)
  | Allow ip =>
    let '(ok, l) := AuthLimiter.Allow (cf_limits env_cfg) ip (1000 * wd_clock w) (wd_limiter w) in
    (ok, tick (withLimiter l w))
  | VerifyCaptcha token ip => (env_captcha (wd_tick w) token ip, tick w)
  | Exchange p code v => (env_exchange (wd_tick w) p code v, tick w)
  end.

#[export] Instance auth_interp : Interp eff world := {| exec X := @auth_exec X |}.

(** ** service.go: the gated hashes *)

Definition hashPassword (password : string) : prog (string + apiError) :=
  let! slot := eff_ AcquireHash in
  if slot then
    let! salt := eff_ (Rand argonSaltLen) in
    let! _ := eff_ ReleaseHash in
    Ret (inl (HashPassword salt password))
  else Ret (inr apiErrOverloaded).

(** [None] is an unreadable stored hash, an internal error. *)
Definition verifyPassword (password encoded : string) : prog (option bool + apiError) :=
  let! slot := eff_ AcquireHash in
  if slot then
    let! _ := eff_ ReleaseHash in
    Ret (inl (VerifyPassword password encoded))
  else Ret (inr apiErrOverloaded).

(** ** register.go: tokens by mail *)

Definition verifyTokenTTL : Z := 24 * hour.
Definition resetTokenTTL : Z := 1 * hour.

Definition genericEmailAccepted : string := "if that email can receive mail, a message is on its way".

(** [issueEmailToken]: [None] is any error. *)
Definition issueEmailToken (user : UUID) (purpose : string) (ttl : Z) : prog (option string) :=
  let! r := query_ (qDeleteUserTokens user purpose) in
  match r with
  | inr _ => Ret None
  | inl _ =>
    let! raw := eff_ (Rand tokenBytesLen) in
    let '(token, hash) := newToken raw in
    let! now := eff_ Now in
    let! r := query_ (qCreateEmailToken {| ep_UserID := user; ep_Purpose := purpose;
                                          ep_TokenHash := hash; ep_ExpiresAt := now + ttl |}) in
    match r with inr _ => Ret None | inl _ => Ret (Some token) end
  end.

(** [url.QueryEscape] *)
Definition hex_upper (n : Z) : Z := if n <? 10 then 48 + n else 55 + n.
Definition unreserved (b : Z) : bool := name_byte b || (b =? 126).
Definition QueryEscape (s : string) : string :=
  string_of_bytes (bytes_of s ≫= fun b =>
    if unreserved b then [b] else if b =? 32 then [43] else [37; hex_upper (b / 16); hex_upper (b mod 16)]).

Definition frontendLink (path token : string) : string :=
  cf_FrontendOrigin env_cfg +:+ path +:+ "?token=" +:+ QueryEscape token.

Definition newline : string := String "010" EmptyString.

Definition verifyMail (email token : string) : Mail :=
  {| ml_To := email; ml_Subject := "Verify your TypeMore email";
     ml_Body := "Welcome to TypeMore!" +:+ newline +:+ newline +:+ "Confirm your email by opening:" +:+ newline
       +:+ frontendLink "/verify-email" token +:+ newline +:+ newline
       +:+ "This link expires in 24 hours. If you did not sign up, ignore this message." +:+ newline |}.

Definition resetMail (email token : string) : Mail :=
  {| ml_To := email; ml_Subject := "Reset your TypeMore password";
     ml_Body := "A password reset was requested for your TypeMore account." +:+ newline +:+ newline
       +:+ "Reset it by opening:" +:+ newline +:+ frontendLink "/reset-password" token +:+ newline +:+ newline
       +:+ "This link expires in 1 hour. If you did not request this, you can ignore this message." +:+ newline |}.

(** Both answer nothing: their callers only log the error. *)
Definition sendVerification (user : UUID) (email : string) : prog unit :=
  let! token := issueEmailToken user PurposeVerify verifyTokenTTL in
  match token with
  | None => Ret tt
  | Some token => let! _ := eff_ (Send (verifyMail email token)) in Ret tt
  end.

Definition sendPasswordReset (user : UUID) (email : string) : prog unit :=
  let! token := issueEmailToken user PurposeReset resetTokenTTL in
  match token with
  | None => Ret tt
  | Some token => let! _ := eff_ (Send (resetMail email token)) in Ret tt
  end.
End world.

(** ** Requests *)

Section handlers.
Context `{Uuid} `{PgText} `{Argon2} `{!Env}.

(** [None] is a body that is not JSON or is over the size limit. *)
Record request := {
  rq_Method : string; rq_Origin : string; rq_IP : string; rq_Body : option json;
  rq_Session : option string;
  rq_Provider : string; rq_QueryState : string; rq_QueryCode : string;
  rq_State : option string; rq_Verifier : option string; rq_Link : option string }.

(** [decodeJSON] into a struct of strings: unknown members are refused. *)
Definition decodeJSON (names : list string) (r : request) : option (gmap string string) :=
  match rq_Body r with
  | None => None
  | Some j =>
    Json.unmarshal (Json.dec_strict names (fun f =>
      Json.field (fun m : gmap string string => default "" (m !! f)) (fun s m => <[f := s]> m) Json.dec_string)) ∅ j
  end.

(** The other services' decoders: unknown members are ignored. *)
Definition decodeLenient (names : list string) (r : request) : option (gmap string string) :=
  j ← rq_Body r;
  Json.unmarshal (Json.dec_struct names (fun f =>
    Json.field (fun m : gmap string string => default "" (m !! f)) (fun s m => <[f := s]> m) Json.dec_string)) ∅ j.

Definition member (m : gmap string string) (f : string) : string := default "" (m !! f).

Definition badJSON : answer := fail (apiErrBadRequest "request body is not valid JSON").

(** ** session.go *)

Definition sessionRefreshInterval : Z := 1 * hour.

(** [issueSession]: the cookie, or an error. *)
Definition issueSession (user : UUID) : prog (option cookie) :=
  let! raw := eff_ (Rand tokenBytesLen) in
  let '(token, hash) := newToken raw in
  let! now := eff_ Now in
  let! r := query_ (qCreateSession hash user (now + cf_SessionTTL env_cfg)) in
  match r with inr _ => Ret None | inl _ => Ret (Some (SessionCookie token)) end.

(** [authenticate]: [inr true] is apiErrUnauthorized, [inr false] an internal error. *)
Definition authenticate (r : request) : prog (User + bool) :=
  match rq_Session r with
  | None => Ret (inr true)
  | Some value =>
    match hashToken value with
    | None => Ret (inr true)
    | Some hash =>
      let! s := query_ (qSessionByTokenHash hash) in
      match s with
      | inr ErrNotFound => Ret (inr true)
      | inr _ => Ret (inr false)
      | inl session =>
        let! now := eff_ Now in
        if se_ExpiresAt session <=? now then
          let! _ := query_ (qDeleteSession hash) in
          Ret (inr true)
        else
          let! _ := if sessionRefreshInterval <? now - se_LastSeenAt session
                    then query_ (qTouchSession (se_ID session) (now + cf_SessionTTL env_cfg))
                    else Ret (inl tt) in
          let! u := query_ (qUser (se_UserID session)) in
          match u with
          | inl u => Ret (inl u)
          | inr ErrNotFound => Ret (inr true)
          | inr _ => Ret (inr false)
          end
      end
    end
  end.

Definition authFailure (unauthorized : bool) : answer :=
  if unauthorized then fail apiErrUnauthorized else internal.

(** ** middleware.go, permissions.go *)

Definition RequireAuth (next : User -> request -> prog answer) (r : request) : prog answer :=
  let! u := authenticate r in
  match u with inl u => next u r | inr e => Ret (authFailure e) end.

Definition OptionalAuth (next : option User -> request -> prog answer) (r : request) : prog answer :=
  let! u := authenticate r in
  match u with inl u => next (Some u) r | inr _ => next None r end.

Definition safeMethod (m : string) : bool := (m =s? "GET") || (m =s? "HEAD") || (m =s? "OPTIONS").

Definition RequireOrigin (next : request -> prog answer) (r : request) : prog answer :=
  if safeMethod (rq_Method r) then next r
  else if negb (rq_Origin r =s? cf_FrontendOrigin env_cfg) then Ret (fail apiErrForbiddenOrigin)
  else next r.

Definition apiErrRateLimited :=
  {| ae_status := 429; ae_Code := "rate_limited";
     ae_Message := "too many requests; slow down and try again shortly" |}.
Definition apiErrCaptchaRequired :=
  {| ae_status := 400; ae_Code := "captcha_required";
     ae_Message := "a captcha token is required for this request" |}.
Definition apiErrCaptchaFailed :=
  {| ae_status := 400; ae_Code := "captcha_failed";
     ae_Message := "captcha verification failed; solve the challenge again and retry" |}.

Definition rateLimit (next : request -> prog answer) (r : request) : prog answer :=
  let! ok := eff_ (Allow (rq_IP r)) in
  if ok then next r else Ret (fail apiErrRateLimited).

(** The probe of [requireCaptcha] is lenient: other members are not looked at, and a
    token of another type is no token. *)
Definition probeToken (r : request) : string :=
  match rq_Body r with
  | Some (JObj m) =>
    foldl (fun cur kv => match Json.field_of ["turnstileToken"] kv.1 with
                         | Some _ => default cur (Json.dec_string cur kv.2)
                         | None => cur
                         end) "" m
  | _ => ""
  end.

Definition requireCaptcha (next : request -> prog answer) (r : request) : prog answer :=
  if negb (cf_captcha env_cfg) then next r
  else
    let token := Strs.TrimSpace (probeToken r) in
    if token =s? "" then Ret (fail apiErrCaptchaRequired)
    else
      let! ok := eff_ (VerifyCaptcha token (rq_IP r)) in
      if ok then next r else Ret (fail apiErrCaptchaFailed).

Definition Permission : Type := string.

Definition rolePermissions (role : string) : list Permission :=
  if role =s? "admin"
  then ["bans:read"; "bans:write"; "reports:read"; "reports:write"; "quotes:write"; "runs:review"; "runs:override"]
  else [].

Definition Can (u : User) (p : Permission) : bool := existsb (String.eqb p) (rolePermissions (us_Role u)).
Definition Permissions (u : User) : list string := rolePermissions (us_Role u).

Definition notFound : answer := ([], Reply 404 (Message "404 page not found")).

Definition RequirePermission (p : Permission) (next : User -> request -> prog answer)
    (user : option User) (r : request) : prog answer :=
  match user with
  | Some u => if Can u p then next u r else Ret notFound
  | None => Ret notFound
  end.

Definition toUserView (u : User) : userView :=
  {| uv_ID := us_ID u; uv_DisplayName := us_DisplayName u; uv_CreatedAt := us_CreatedAt u;
     uv_Restricted := false; uv_ProfilePublic := us_ProfilePublic u;
     uv_KeyboardPublic := us_KeyboardPublic u; uv_Permissions := Permissions u;
     uv_DisplayNameChangedAt := us_DisplayNameChangedAt u |}.

Definition withRestricted (b : bool) (v : userView) : userView :=
  {| uv_ID := uv_ID v; uv_DisplayName := uv_DisplayName v; uv_CreatedAt := uv_CreatedAt v;
     uv_Restricted := b; uv_ProfilePublic := uv_ProfilePublic v;
     uv_KeyboardPublic := uv_KeyboardPublic v; uv_Permissions := uv_Permissions v;
     uv_DisplayNameChangedAt := uv_DisplayNameChangedAt v |}.
End handlers.
