(* ===== verification/AuthHandlers.v ===== *)
(** * internal/auth: the handlers

    register.go, reset.go, account.go, handler.go and oauth.go, and the router that
    puts the middleware in front of them. *)

From Stdlib Require Import Strings.Ascii.
From S2P Require Import Prelude Effects GoStd Uuid Json Httpx AuthLimiter AuthText AuthPassword AuthStore AuthFlow.

Open Scope Z_scope.

Section handlers.
Context `{Uuid} `{PgText} `{Argon2} `{!Env}.

(** ** register.go *)

Definition handleRegister (r : request) : prog answer :=
  match decodeJSON ["email"; "password"; "displayName"; "turnstileToken"] r with
  | None => Ret badJSON
  | Some req =>
    let email := normalizeEmail env_lower (member req "email") in
    if negb (validateEmail email) then Ret (fail (apiErrBadRequest "a valid email is required"))
    else if negb (validatePassword (member req "password"))
    then Ret (fail (apiErrBadRequest "password must be between 8 and 128 characters"))
    else
      match cleanDisplayName (member req "displayName") email with
      | inr message => Ret (fail (apiErrBadRequest message))
      | inl displayName =>
        let! hash := hashPassword (member req "password") in
        match hash with
        | inr e => Ret (fail e)
        | inl hash =>
          let! identity := query_ (qEmailIdentity email) in
          match identity with
          | inl _ => Ret (ok (Message genericEmailAccepted))
          | inr ErrNotFound =>
            let! created := query_ (qCreateEmailAccount
              {| ea_DisplayName := displayName; ea_Email := email; ea_PasswordHash := hash |}) in
            match created with
            | inr ErrDisplayNameTaken => Ret (fail apiErrNameTaken)
            | inr _ => Ret internal
            | inl (user, _) =>
              let! _ := sendVerification (us_ID user) email in
              Ret (ok (Message genericEmailAccepted))
            end
          | inr _ => Ret internal
          end
        end
      end
  end.

Definition handleVerify (r : request) : prog answer :=
  match decodeJSON ["token"] r with
  | None => Ret badJSON
  | Some req =>
    match hashToken (member req "token") with
    | None => Ret (fail apiErrInvalidToken)
    | Some hash =>
      let! tok := query_ (qUseEmailToken hash PurposeVerify) in
      match tok with
      | inr ErrNotFound => Ret (fail apiErrInvalidToken)
      | inr _ => Ret internal
      | inl tok =>
        let! marked := query_ (qMarkEmailVerified (et_UserID tok)) in
        match marked with
        | inr ErrEmailOwnedByOtherUser => Ret (fail apiErrAccountExistsUseLinking)
        | inr _ => Ret internal
        | inl _ => Ret (ok (Message "email verified; you can now sign in"))
        end
      end
    end
  end.

Definition handleResend (r : request) : prog answer :=
  match decodeJSON ["email"; "turnstileToken"] r with
  | None => Ret badJSON
  | Some req =>
    let email := normalizeEmail env_lower (member req "email") in
    let! identity := query_ (qEmailIdentity email) in
    match identity with
    | inl identity =>
      let! _ := if id_EmailVerified identity then Ret tt
                else sendVerification (id_UserID identity) email in
      Ret (ok (Message genericEmailAccepted))
    | inr ErrNotFound => Ret (ok (Message genericEmailAccepted))
    | inr _ => Ret internal
    end
  end.

(** The decoy verify of an account that has no password to check. *)
Definition decoy (password : string) : prog answer :=
  let! v := verifyPassword password (cf_dummyHash env_cfg) in
  match v with
  | inr e => Ret (fail e)
  | inl None => Ret internal
  | inl (Some _) => Ret (fail apiErrInvalidCredentials)
  end.

Definition handleLogin (r : request) : prog answer :=
  match decodeJSON ["email"; "password"] r with
  | None => Ret badJSON
  | Some req =>
    let email := normalizeEmail env_lower (member req "email") in
    let! identity := query_ (qEmailIdentity email) in
    match identity with
    | inr ErrNotFound => decoy (member req "password")
    | inr _ => Ret internal
    | inl identity =>
      let! cred := query_ (qCredential (id_UserID identity)) in
      match cred with
      | inr ErrNotFound => decoy (member req "password")
      | inr _ => Ret internal
      | inl cred =>
        let! v := verifyPassword (member req "password") (cr_Hash cred) in
        match v with
        | inr e => Ret (fail e)
        | inl None => Ret internal
        | inl (Some false) => Ret (fail apiErrInvalidCredentials)
        | inl (Some true) =>
          if negb (id_EmailVerified identity) then Ret (fail apiErrEmailNotVerified)
          else
            let! issued := issueSession (id_UserID identity) in
            match issued with
            | None => Ret internal
            | Some c =>
              let! user := query_ (qUser (id_UserID identity)) in
              match user with
              | inr _ => Ret ([c], internal.2)
              | inl user => Ret ([c], Reply 200 (UserBody (toUserView user)))
              end
            end
        end
      end
    end
  end.

(** ** reset.go *)

Definition handleResetRequest (r : request) : prog answer :=
  match decodeJSON ["email"; "turnstileToken"] r with
  | None => Ret badJSON
  | Some req =>
    let email := normalizeEmail env_lower (member req "email") in
    let! identity := query_ (qEmailIdentity email) in
    match identity with
    | inl identity =>
      let! _ := sendPasswordReset (id_UserID identity) email in
      Ret (ok (Message genericEmailAccepted))
    | inr ErrNotFound => Ret (ok (Message genericEmailAccepted))
    | inr _ => Ret internal
    end
  end.

Definition handleResetConfirm (r : request) : prog answer :=
  match decodeJSON ["token"; "newPassword"] r with
  | None => Ret badJSON
  | Some req =>
    if negb (validatePassword (member req "newPassword"))
    then Ret (fail (apiErrBadRequest "password must be between 8 and 128 characters"))
    else
      match hashToken (member req "token") with
      | None => Ret (fail apiErrInvalidToken)
      | Some hash =>
        let! tok := query_ (qUseEmailToken hash PurposeReset) in
        match tok with
        | inr ErrNotFound => Ret (fail apiErrInvalidToken)
        | inr _ => Ret internal
        | inl tok =>
          let! newHash := hashPassword (member req "newPassword") in
          match newHash with
          | inr e => Ret (fail e)
          | inl newHash =>
            let! updated := query_ (qUpdateCredential (et_UserID tok) newHash) in
            match updated with
            | inr _ => Ret internal
            | inl _ =>
              let! marked := query_ (qMarkEmailVerified (et_UserID tok)) in
              match marked with
              | inr ErrEmailOwnedByOtherUser => Ret (fail apiErrAccountExistsUseLinking)
              | inr _ => Ret internal
              | inl _ =>
                let! revoked := query_ (qDeleteUserSessions (et_UserID tok)) in
                match revoked with
                | inr _ => Ret internal
                | inl _ => Ret (ok (Message "password updated; sign in with your new password"))
                end
              end
            end
          end
        end
      end
  end.

(** ** account.go *)

Definition handleAddEmail (user : User) (r : request) : prog answer :=
  match decodeJSON ["email"] r with
  | None => Ret badJSON
  | Some req =>
    let email := normalizeEmail env_lower (member req "email") in
    if negb (validateEmail email) then Ret (fail (apiErrBadRequest "a valid email is required"))
    else
      let! identities := query_ (qIdentitiesByUser (us_ID user)) in
      match identities with
      | inr _ => Ret internal
      | inl identities =>
        if existsb (fun i => id_Provider i =s? ProviderEmail) identities
        then Ret (fail apiErrEmailAlreadySet)
        else
          let! linked := query_ (qLinkIdentity (us_ID user)
            {| ip_Provider := ProviderEmail; ip_Subject := email; ip_Email := email;
               ip_EmailVerified := false |}) in
          match linked with
          | inr ErrIdentityExists | inr ErrEmailOwnedByOtherUser => Ret (fail apiErrAccountExistsUseLinking)
          | inr _ => Ret internal
          | inl _ =>
            let! _ := sendVerification (us_ID user) email in
            Ret (ok (Message genericEmailAccepted))
          end
      end
  end.

Definition handleSetPassword (user : User) (r : request) : prog answer :=
  match decodeJSON ["password"] r with
  | None => Ret badJSON
  | Some req =>
    if negb (validatePassword (member req "password"))
    then Ret (fail (apiErrBadRequest "password must be between 8 and 128 characters"))
    else
      let! identities := query_ (qIdentitiesByUser (us_ID user)) in
      match identities with
      | inr _ => Ret internal
      | inl identities =>
        if negb (existsb (fun i => (id_Provider i =s? ProviderEmail) && id_EmailVerified i) identities)
        then Ret (fail apiErrNoVerifiedEmail)
        else
          let! cred := query_ (qCredential (us_ID user)) in
          match cred with
          | inl _ => Ret (fail apiErrPasswordAlreadySet)
          | inr ErrNotFound =>
            let! hash := hashPassword (member req "password") in
            match hash with
            | inr e => Ret (fail e)
            | inl hash =>
              let! updated := query_ (qUpdateCredential (us_ID user) hash) in
              match updated with
              | inr _ => Ret internal
              | inl _ => Ret (ok (Message "password set; you can now sign in with email and password"))
              end
            end
          | inr _ => Ret internal
          end
      end
  end.

(** ** session.go, handler.go *)

Definition handleLogout (user : User) (r : request) : prog answer :=
  let! failed := match rq_Session r with
                 | None => Ret false
                 | Some value =>
                   match hashToken value with
                   | None => Ret false
                   | Some hash =>
                     let! d := query_ (qDeleteSession hash) in
                     Ret (match d with inr _ => true | inl _ => false end)
                   end
                 end in
  if failed : bool then Ret internal else Ret ([SessionCookie ""], Reply 200 StatusOK).

(** The account as it stands, with moderation's flag. *)
Definition respondView (user : User) : prog answer :=
  let! restricted := eff_ (IsRestricted (us_ID user)) in
  Ret (ok (UserBody (withRestricted restricted (toUserView user)))).

Definition HandleMe (user : User) (r : request) : prog answer := respondView user.

(** The two switches of the settings body; [None] where the member is absent or null. *)
Record settingsRequest := { sr_Profile : option bool; sr_Keyboard : option bool }.

Definition dec_settings : Json.decoder settingsRequest :=
  Json.dec_strict ["profilePublic"; "keyboardPublic"] (fun f =>
    if f =s? "profilePublic"
    then Json.field sr_Profile (fun b s => {| sr_Profile := b; sr_Keyboard := sr_Keyboard s |})
           (Json.dec_ptr false Json.dec_bool)
    else Json.field sr_Keyboard (fun b s => {| sr_Profile := sr_Profile s; sr_Keyboard := b |})
           (Json.dec_ptr false Json.dec_bool)).

Definition decodeSettings (r : request) : option settingsRequest :=
  j ← rq_Body r; Json.unmarshal dec_settings {| sr_Profile := None; sr_Keyboard := None |} j.

Definition HandleUpdateSettings (user : User) (r : request) : prog answer :=
  match decodeSettings r with
  | None => Ret badJSON
  | Some req =>
    if bool_decide (sr_Profile req = None) && bool_decide (sr_Keyboard req = None)
    then Ret (fail (apiErrBadRequest "no settings to update"))
    else
      let! updated := query_ (qUpdateUserSettings (us_ID user)
                        (default (us_ProfilePublic user) (sr_Profile req))
                        (default (us_KeyboardPublic user) (sr_Keyboard req))) in
      match updated with
      | inr _ => Ret internal
      | inl updated => respondView updated
      end
  end.

(** The message also names the instant the next change opens, when it is known. *)
Definition apiErrDisplayNameCooldown : apiError :=
  {| ae_status := 409; ae_Code := "display_name_cooldown";
     ae_Message := "the display name can change once every 30 days" |}.

Definition HandleChangeDisplayName (user : User) (r : request) : prog answer :=
  match decodeJSON ["displayName"] r with
  | None => Ret badJSON
  | Some req =>
    let name := Strs.TrimSpace (member req "displayName") in
    if negb (validDisplayName name)
    then Ret (fail (apiErrBadRequest
           "display name must be 3-20 characters using only letters, digits, '_', '.', '-'"))
    else if name =s? us_DisplayName user then Ret (fail apiErrDisplayNameUnchanged)
    else
      let! updated := query_ (qChangeDisplayName (us_ID user) name) in
      match updated with
      | inr ErrDisplayNameTaken => Ret (fail apiErrNameTaken)
      | inr ErrDisplayNameCooldown => Ret (fail apiErrDisplayNameCooldown)
      | inr _ => Ret internal
      | inl updated => respondView updated
      end
  end.

(** ** oauth.go *)

Definition cookieOAuthState : string := "tm_oauth_state".
Definition cookieOAuthVerifier : string := "tm_oauth_verifier".
Definition cookieOAuthLink : string := "tm_oauth_link".

Definition clearFlowCookies : list cookie :=
  [FlowCookie cookieOAuthState ""; FlowCookie cookieOAuthVerifier ""; FlowCookie cookieOAuthLink ""].

Definition redirectResult (errCode : string) : response :=
  if errCode =s? "" then Redirect "status" "ok" else Redirect "error" errCode.

(** [beginOAuth]: the cookies to set, the state and the PKCE verifier (32 random octets,
    in the same encoding, as golang.org/x/oauth2 documents). *)
Definition beginOAuth (link : option UUID) : prog (list cookie * (string * string)) :=
  let! raw := eff_ (Rand tokenBytesLen) in
  let state := (newToken raw).1 in
  let! rawv := eff_ (Rand 32) in
  let verifier := Base64.EncodeToString rawv in
  Ret ([FlowCookie cookieOAuthState state; FlowCookie cookieOAuthVerifier verifier]
       ++ match link with Some u => [FlowCookie cookieOAuthLink (uuid_String u)] | None => [] end,
       (state, verifier)).

Definition enabled (provider : string) : bool := existsb (String.eqb provider) (cf_Providers env_cfg).

Definition handleOAuthStart (r : request) : prog answer :=
  if negb (enabled (rq_Provider r)) then Ret (fail apiErrProviderUnknown)
  else
    let! (cookies, (state, verifier)) := beginOAuth None in
    Ret (cookies, Reply 302 (AuthorizeURL (rq_Provider r) state verifier)).

Definition handleLinkStart (user : User) (r : request) : prog answer :=
  if negb (enabled (rq_Provider r)) then Ret (fail apiErrProviderUnknown)
  else
    let! (cookies, (state, verifier)) := beginOAuth (Some (us_ID user)) in
    Ret (cookies, Reply 200 (AuthorizeURL (rq_Provider r) state verifier)).

(** [createOAuthAccountWithName]: [fuel] is how many names are left to try. *)
Fixpoint createOAuthAccountWithName (fuel i : nat) (base provider : string) (info : oauthUser)
    : prog ((User * Identity) + storeError) :=
  let! r := query_ (qCreateOAuthAccount
    {| oa_DisplayName := suffixedName base i; oa_Provider := provider; oa_Subject := ou_Subject info;
       oa_Email := ou_Email info; oa_EmailVerified := ou_EmailVerified info |}) in
  match r, fuel with
  | inr ErrDisplayNameTaken, S fuel => createOAuthAccountWithName fuel (S i) base provider info
  | r, _ => Ret r
  end.

Definition signIn (user : UUID) : prog answer :=
  let! issued := issueSession user in
  match issued with
  | None => Ret (clearFlowCookies, internal.2)
  | Some c => Ret (clearFlowCookies ++ [c], redirectResult "")
  end.

Definition flowError : prog answer := Ret (clearFlowCookies, internal.2).
Definition flowResult (errCode : string) : prog answer := Ret (clearFlowCookies, redirectResult errCode).

Definition completeLogin (provider : string) (info : oauthUser) : prog answer :=
  let! identity := query_ (qIdentityByProviderSubject provider (ou_Subject info)) in
  match identity with
  | inl identity => signIn (id_UserID identity)
  | inr ErrNotFound =>
    let! owned := if negb (ou_Email info =s? "") && ou_EmailVerified info
                  then query_ (qVerifiedIdentityByEmail (ou_Email info)) else Ret (inr ErrNotFound) in
    match owned with
    | inl _ => flowResult "account_exists_use_linking"
    | inr ErrNotFound =>
      let! created := createOAuthAccountWithName maxNameSuffix 0 (oauthDisplayName info) provider info in
      match created with
      | inl (user, _) => signIn (us_ID user)
      | inr ErrEmailOwnedByOtherUser => flowResult "account_exists_use_linking"
      | inr _ => flowError
      end
    | inr _ => flowError
    end
  | inr _ => flowError
  end.

Definition completeLink (provider linkUserID : string) (info : oauthUser) : prog answer :=
  match uuid_Parse linkUserID with
  | None => flowResult "invalid_state"
  | Some user =>
    let! identity := query_ (qIdentityByProviderSubject provider (ou_Subject info)) in
    match identity with
    | inl _ => flowResult "provider_already_linked"
    | inr ErrNotFound =>
      let! linked := query_ (qLinkIdentity user
        {| ip_Provider := provider; ip_Subject := ou_Subject info; ip_Email := ou_Email info;
           ip_EmailVerified := ou_EmailVerified info |}) in
      match linked with
      | inl _ => Ret (clearFlowCookies, Redirect "linked" provider)
      | inr ErrEmailOwnedByOtherUser => flowResult "account_exists_use_linking"
      | inr _ => flowError
      end
    | inr _ => flowError
    end
  end.

Definition handleOAuthCallback (r : request) : prog answer :=
  if negb (enabled (rq_Provider r)) then Ret (fail apiErrProviderUnknown)
  else
    let state := rq_QueryState r in
    if match rq_State r with None => true | Some c => (state =s? "") || negb (c =s? state) end
    then flowResult "invalid_state"
    else
      match rq_Verifier r with
      | None => flowResult "invalid_state"
      | Some verifier =>
        if rq_QueryCode r =s? "" then flowResult "oauth_denied"
        else
          let! got := eff_ (Exchange (rq_Provider r) (rq_QueryCode r) verifier) in
          match got with
          | ExchangeFailed => flowResult "oauth_exchange_failed"
          | UserInfoFailed => flowResult "oauth_userinfo_failed"
          | Profile info =>
            if ou_Subject info =s? "" then flowResult "oauth_userinfo_failed"
            else
              let info := {| ou_Subject := ou_Subject info;
                             ou_Email := normalizeEmail env_lower (ou_Email info);
                             ou_EmailVerified := ou_EmailVerified info; ou_Name := ou_Name info |} in
              match rq_Link r with
              | Some link => if negb (link =s? "") then completeLink (rq_Provider r) link info
                             else completeLogin (rq_Provider r) info
              | None => completeLogin (rq_Provider r) info
              end
          end
      end.

(** [fetchGitHubUserInfo], after its two requests: the primary address of the list,
    else the profile's, unverified. *)
Record githubEmail := { ge_Email : string; ge_Primary : bool; ge_Verified : bool }.

Definition githubProfile (id : Z) (login name email : string) (emails : list githubEmail) : exchanged :=
  if id =? 0 then UserInfoFailed
  else
    let '(email, verified) := match find_first ge_Primary emails with
                              | Some e => (ge_Email e, ge_Verified e)
                              | None => (email, false)
                              end in
    Profile {| ou_Subject := Strconv.Itoa id; ou_Email := email; ou_EmailVerified := verified;
               ou_Name := if name =s? "" then login else name |}.

(** ** janitor.go, service.go *)

Definition sweepOnce : prog unit :=
  let! _ := query_ qDeleteExpiredSessions in
  let! _ := query_ qDeleteStaleEmailTokens in
  Ret tt.

Definition BootstrapAdmins (emails : list string) : prog (Z + storeError) :=
  match emails with [] => Ret (inl 0) | _ => query_ (qPromoteAdmins emails) end.

(** ** AuthRoutes and the routes beside it *)

Inductive route :=
| PostRegister | PostResend | PostResetRequest
| PostVerify | PostLogin | PostResetConfirm | GetOAuthStart | GetOAuthCallback
| PostLogout | PostLinkStart | PostEmailAdd | PostPasswordSet
| GetMe | PatchSettings | PatchDisplayName.

Definition methodOf (t : route) : string :=
  match t with
  | GetOAuthStart | GetOAuthCallback | GetMe => "GET"
  | PatchSettings | PatchDisplayName => "PATCH"
  | _ => "POST"
  end.

(** The middleware in the order it is chained. *)
Definition mailing (h : request -> prog answer) : request -> prog answer :=
  requireCaptcha (rateLimit (RequireOrigin h)).
Definition limited (h : request -> prog answer) : request -> prog answer :=
  rateLimit (RequireOrigin h).

Definition withMethod (t : route) (r : request) : request :=
  {| rq_Method := methodOf t; rq_Origin := rq_Origin r; rq_IP := rq_IP r; rq_Body := rq_Body r;
     rq_Session := rq_Session r; rq_Provider := rq_Provider r; rq_QueryState := rq_QueryState r;
     rq_QueryCode := rq_QueryCode r; rq_State := rq_State r; rq_Verifier := rq_Verifier r;
     rq_Link := rq_Link r |}.

Definition serve (t : route) (r : request) : prog answer :=
  let r := withMethod t r in
  match t with
  | PostRegister => mailing handleRegister r
  | PostResend => mailing handleResend r
  | PostResetRequest => mailing handleResetRequest r
  | PostVerify => limited handleVerify r
  | PostLogin => limited handleLogin r
  | PostResetConfirm => limited handleResetConfirm r
  | GetOAuthStart => limited handleOAuthStart r
  | GetOAuthCallback => limited handleOAuthCallback r
  | PostLogout => limited (RequireAuth handleLogout) r
  | PostLinkStart => limited (RequireAuth handleLinkStart) r
  | PostEmailAdd => limited (RequireAuth handleAddEmail) r
  | PostPasswordSet => limited (RequireAuth handleSetPassword) r
  | GetMe => RequireAuth HandleMe r
  | PatchSettings => RequireOrigin (RequireAuth HandleUpdateSettings) r
  | PatchDisplayName => RequireOrigin (RequireAuth HandleChangeDisplayName) r
  end.
End handlers.
