(* ===== verification/AuthAuthority.v ===== *)
(** * What lets a request act on an account

    For every way the environment can answer (any rows, any faults, any interleaving
    with other requests), what a request has observed before it performs an effect.
    The requests are those of AuthHandlers, unchanged; the history is what this file
    adds. *)

From Stdlib Require Import Strings.Ascii.
From S2P Require Import Prelude Effects GoStd Uuid Json Httpx AuthLimiter AuthText AuthPassword AuthStore AuthFlow AuthHandlers.

Open Scope Z_scope.

Section authority.
Context `{Uuid} `{PgText} `{Argon2} `{!Env}.

Notation obs := (Effects.obs eff).

(** ** Grounds *)

(** The request's own session: its cookie named a stored, unexpired session, and the
    account was read from it. *)
Definition ownSession (r : request) (hash : string) : Prop :=
  exists value, rq_Session r = Some value /\ hashToken value = Some hash.

Definition signedInAs (r : request) (h : list obs) (u : User) : Prop :=
  exists hash s now,
    ownSession r hash
    /\ Obs (Query (qSessionByTokenHash hash)) (inl s) ∈ h
    /\ Obs Now now ∈ h /\ now < se_ExpiresAt s
    /\ Obs (Query (qUser (se_UserID s))) (inl u) ∈ h.

Definition signedIn (r : request) (h : list obs) (user : UUID) : Prop :=
  exists u, signedInAs r h u /\ us_ID u = user.

(** A token of the purpose, spent by this request: the row it spent names the account. *)
Definition spentToken (r : request) (h : list obs) (purpose : string) (user : UUID) : Prop :=
  exists names req hash t,
    decodeJSON names r = Some req /\ hashToken (member req "token") = Some hash
    /\ Obs (Query (qUseEmailToken hash purpose)) (inl t) ∈ h /\ et_UserID t = user.

(** The right password of an account with a verified address. *)
Definition knewPassword (r : request) (h : list obs) (user : UUID) : Prop :=
  exists req i c,
    decodeJSON ["email"; "password"] r = Some req
    /\ Obs (Query (qEmailIdentity (normalizeEmail env_lower (member req "email")))) (inl i) ∈ h
    /\ id_UserID i = user /\ id_EmailVerified i = true
    /\ Obs (Query (qCredential user)) (inl c) ∈ h
    /\ VerifyPassword (member req "password") (cr_Hash c) = Some true.

(** The provider vouched for this subject, in answer to this request's code; the request
    carried the state it was sent away with. *)
Definition vouched (r : request) (h : list obs) (subject : string) : Prop :=
  exists verifier info,
    rq_State r = Some (rq_QueryState r) /\ rq_QueryState r <> "" /\ rq_Verifier r = Some verifier
    /\ Obs (Exchange (rq_Provider r) (rq_QueryCode r) verifier) (Profile info) ∈ h
    /\ ou_Subject info = subject.

Definition ownsSubject (r : request) (h : list obs) (user : UUID) : Prop :=
  exists subject, vouched r h subject
    /\ ((exists i, Obs (Query (qIdentityByProviderSubject (rq_Provider r) subject)) (inl i) ∈ h
                   /\ id_UserID i = user)
        \/ exists p u i, Obs (Query (qCreateOAuthAccount p)) (inl (u, i)) ∈ h /\ us_ID u = user
                         /\ oa_Provider p = rq_Provider r /\ oa_Subject p = subject).

(** The flow's link cookie names the account. *)
Definition linkCookie (r : request) (user : UUID) : Prop :=
  exists c, rq_Link r = Some c /\ uuid_Parse c = Some user.

(** An address of the account: found as such, or just given to it. *)
Definition addressOf (h : list obs) (email : string) (user : UUID) : Prop :=
  (exists i, Obs (Query (qEmailIdentity email)) (inl i) ∈ h /\ id_UserID i = user)
  \/ (exists p u i, Obs (Query (qCreateEmailAccount p)) (inl (u, i)) ∈ h /\ ea_Email p = email /\ us_ID u = user)
  \/ (exists p i, Obs (Query (qLinkIdentity user p)) (inl i) ∈ h /\ ip_Email p = email).

Definition mailedToken (h : list obs) (m : Mail) : Prop :=
  exists email user p raw,
    addressOf h email user
    /\ Obs (Query (qCreateEmailToken p)) (inl tt) ∈ h
    /\ ep_UserID p = user /\ ep_TokenHash p = (newToken raw).2
    /\ (m = verifyMail email (newToken raw).1 /\ ep_Purpose p = PurposeVerify
        \/ m = resetMail email (newToken raw).1 /\ ep_Purpose p = PurposeReset).

(** ** The table: what a request must have to perform an effect *)

Definition queryGround (r : request) {A} (q : query A) (h : list obs) : Prop :=
  match q with
  | qCreateSession _ user _ => knewPassword r h user \/ ownsSubject r h user
  | qMarkEmailVerified user => spentToken r h PurposeVerify user \/ spentToken r h PurposeReset user
  | qUpdateCredential user _ =>
    spentToken r h PurposeReset user
    \/ signedIn r h user
       /\ (exists l i, Obs (Query (qIdentitiesByUser user)) (inl l) ∈ h /\ i ∈ l
                       /\ id_Provider i = ProviderEmail /\ id_EmailVerified i = true)
       /\ Obs (Query (qCredential user)) (inr ErrNotFound) ∈ h
  | qDeleteUserSessions user => spentToken r h PurposeReset user
  | qDeleteSession hash => ownSession r hash
  | qTouchSession id _ =>
    exists hash s, ownSession r hash /\ Obs (Query (qSessionByTokenHash hash)) (inl s) ∈ h /\ se_ID s = id
  | qLinkIdentity user p =>
    signedIn r h user /\ ip_Provider p = ProviderEmail /\ ip_EmailVerified p = false
    /\ (exists l, Obs (Query (qIdentitiesByUser user)) (inl l) ∈ h
                  /\ forall i, i ∈ l -> id_Provider i <> ProviderEmail)
    \/ linkCookie r user /\ vouched r h (ip_Subject p) /\ ip_Provider p = rq_Provider r
  | qUpdateUserSettings user _ _ | qChangeDisplayName user _ => signedIn r h user
  | qCreateEmailAccount p =>
    Obs (Query (qEmailIdentity (ea_Email p))) (inr ErrNotFound) ∈ h /\ validDisplayName (ea_DisplayName p) = true
  | qCreateOAuthAccount p =>
    vouched r h (oa_Subject p) /\ oa_Provider p = rq_Provider r
    /\ Obs (Query (qIdentityByProviderSubject (oa_Provider p) (oa_Subject p))) (inr ErrNotFound) ∈ h
    /\ validDisplayName (oa_DisplayName p) = true
  | qPromoteAdmins _ => False
  | qDeleteExpiredSessions | qDeleteStaleEmailTokens => False
  | _ => True
  end.

Definition ground (r : request) (X : Type) (e : eff X) (h : list obs) : Prop :=
  match e with
  | Query q => queryGround r q h
  | Send m => mailedToken h m
  | _ => True
  end.

Definition grounded (r : request) {A} (Q : A -> list obs -> Prop) : list obs -> prog A -> Prop :=
  paths (ground r) Q.

(** ** Grounds last *)

Lemma signedIn_mono r h h' u : h ⊆ h' -> signedIn r h u -> signedIn r h' u.
Proof. intros Hs (us & (hash & s & now & ? & ? & ? & ? & ?) & <-). exists us. split; [|done]. exists hash, s, now. eauto 10. Qed.

Lemma spentToken_mono r h h' p u : h ⊆ h' -> spentToken r h p u -> spentToken r h' p u.
Proof. intros Hs (names & req & hash & t & ? & ? & ? & ?). exists names, req, hash, t. eauto. Qed.

Lemma knewPassword_mono r h h' u : h ⊆ h' -> knewPassword r h u -> knewPassword r h' u.
Proof. intros Hs (req & i & c & ? & ? & ? & ? & ? & ?). exists req, i, c. eauto 10. Qed.

Lemma vouched_mono r h h' s : h ⊆ h' -> vouched r h s -> vouched r h' s.
Proof. intros Hs (v & info & ? & ? & ? & ? & ?). exists v, info. eauto 10. Qed.

Lemma ownsSubject_mono r h h' u : h ⊆ h' -> ownsSubject r h u -> ownsSubject r h' u.
Proof.
  intros Hs (s & Hv & Ho). exists s. split; [by eapply vouched_mono|].
  destruct Ho as [(i & ? & ?)|(p & us & i & ? & ?)]; [left|right]; eauto 10.
Qed.

Lemma addressOf_mono h h' e u : h ⊆ h' -> addressOf h e u -> addressOf h' e u.
Proof. intros Hs [(i & ? & ?)|[(p & us & i & ? & ?)|(p & i & ? & ?)]]; unfold addressOf; eauto 15. Qed.

Hint Resolve sub_cons list_elem_of_here list_elem_of_further : auth.
Hint Resolve signedIn_mono spentToken_mono knewPassword_mono vouched_mono ownsSubject_mono addressOf_mono : auth.

(** Run one effect and name its answer. *)
Ltac effect x := cbn [bind query_ eff_ paths]; split; [|intros x].
Ltac trivially := first [exact I|done].

(** ** The pieces *)

Lemma hashPassword_paths r h pw : grounded r (fun _ h' => h ⊆ h') h (hashPassword pw).
Proof.
  unfold hashPassword, grounded. effect slot; [done|]. destruct slot; cbn [bind paths].
  - effect salt; [done|]. effect x; [done|]. cbn [paths]. intros o Ho. by repeat right.
  - apply sub_cons.
Qed.

Lemma verifyPassword_paths r h pw enc :
  grounded r (fun v h' => h ⊆ h' /\ forall b, v = inl b -> b = VerifyPassword pw enc) h (verifyPassword pw enc).
Proof.
  unfold verifyPassword, grounded. effect slot; [done|]. destruct slot; cbn [bind paths].
  - effect x; [done|]. cbn [paths]. split; [intros o Ho; by repeat right|]. by intros b [= <-].
  - split; [apply sub_cons|done].
Qed.

Lemma issueEmailToken_paths r h u purpose ttl :
  grounded r (fun tok h' => h ⊆ h' /\ forall t, tok = Some t ->
      exists p raw, Obs (Query (qCreateEmailToken p)) (inl tt) ∈ h' /\ ep_UserID p = u
        /\ ep_Purpose p = purpose /\ ep_TokenHash p = (newToken raw).2 /\ t = (newToken raw).1)
    h (issueEmailToken u purpose ttl).
Proof.
  unfold issueEmailToken, grounded. effect d; [done|]. destruct d as [d|e]; cbn [bind paths]; [|split; [apply sub_cons|done]].
  effect raw; [done|]. destruct (newToken raw) as [token hash] eqn:Et. effect now; [done|]. effect c; [done|].
  destruct c as [[]|]; cbn [paths]; (split; [intros o Ho; by repeat right|]); [|done].
  intros t [= <-]. eexists _, raw. rewrite Et. cbn [fst snd]. split; [left|]. by cbn.
Qed.

Lemma sendVerification_paths r h u email :
  addressOf h email u -> grounded r (fun _ _ => True) h (sendVerification u email).
Proof.
  intros Ha. unfold sendVerification, grounded. apply paths_bind. eapply paths_impl; [apply issueEmailToken_paths|].
  cbn beta. intros [token|] h' _ [Hsub Ht]; [|done]. cbn [bind eff_ paths]. split; [|done].
  destruct (Ht _ eq_refl) as (p & raw & Hc & Hu & Hp & Hh & ->). exists email, u, p, raw.
  split; [by eapply addressOf_mono|]. do 3 (split; [done|]). by left.
Qed.

Lemma sendPasswordReset_paths r h u email :
  addressOf h email u -> grounded r (fun _ _ => True) h (sendPasswordReset u email).
Proof.
  intros Ha. unfold sendPasswordReset, grounded. apply paths_bind. eapply paths_impl; [apply issueEmailToken_paths|].
  cbn beta. intros [token|] h' _ [Hsub Ht]; [|done]. cbn [bind eff_ paths]. split; [|done].
  destruct (Ht _ eq_refl) as (p & raw & Hc & Hu & Hp & Hh & ->). exists email, u, p, raw.
  split; [by eapply addressOf_mono|]. do 3 (split; [done|]). by right.
Qed.

Lemma issueSession_paths r h u :
  knewPassword r h u \/ ownsSubject r h u -> grounded r (fun _ _ => True) h (issueSession u).
Proof.
  intros Hg. unfold issueSession, grounded. effect raw; [done|]. destruct (newToken raw) as [token hash].
  effect now; [done|]. effect c.
  - cbn. assert (h ⊆ Obs Now now :: Obs (Rand tokenBytesLen) raw :: h) by (intros o Ho; by repeat right).
    destruct Hg; [left|right]; eauto with auth.
  - by destruct c.
Qed.

(** What [RequireAuth] passes on is the account of the request's own live session. *)
Lemma authenticate_paths r h :
  grounded r (fun res h' => forall u, res = inl u -> signedInAs r h' u) h (authenticate r).
Proof.
  unfold authenticate, grounded. destruct (rq_Session r) as [value|] eqn:Er; [|done].
  destruct (hashToken value) as [hash|] eqn:Eh; [|done].
  effect s; [done|]. destruct s as [s|e]; [|by destruct e].
  assert (ownSession r hash) as Hown by by exists value.
  effect now; [done|]. destruct (se_ExpiresAt s <=? now) eqn:Ex.
  { effect d; [by exists value|]. done. }
  bool_to_prop. destruct (sessionRefreshInterval <? _).
  - effect touched; [exists hash, s; split; [by exists value|]; split; [|done]; right; left|].
    effect u; [done|]. destruct u as [u|e]; cbn [paths]; [|by destruct e]. intros ? [= <-].
    exists hash, s, now. split; [by exists value|]. split; [by do 3 right; left|]. split; [by do 2 right; left|].
    split; [done|left].
  - effect u; [done|]. destruct u as [u|e]; cbn [paths]; [|by destruct e]. intros ? [= <-].
    exists hash, s, now. split; [by exists value|]. split; [by do 2 right; left|]. split; [by right; left|].
    split; [done|left].
Qed.

(** ** The handlers *)

Notation allowed r := (grounded r (fun _ _ => True)).

(** After a helper whose history only matters as far as it keeps what was known. *)
Ltac after lem := unfold grounded; apply paths_bind; eapply paths_impl; [apply lem|cbn beta].

Lemma handleRegister_ok r h : allowed r h (handleRegister r).
Proof.
  unfold handleRegister. destruct (decodeJSON _ _) as [req|]; [|done].
  destruct (negb _); [done|]. destruct (negb _); [done|].
  destruct (cleanDisplayName _ _) as [name|] eqn:En; [|done]. after hashPassword_paths.
  intros [hash|] h1 _ _; [|done]. effect i; [done|]. destruct i as [i|[]]; try done.
  effect c; [cbn; split; [left|by eapply cleanDisplayName_valid]|]. destruct c as [[u i]|[]]; try done.
  after sendVerification_paths; [|done]. right. left. eexists _, u, i. split; [left|done].
Qed.

Lemma handleVerify_ok r h : allowed r h (handleVerify r).
Proof.
  unfold handleVerify. destruct (decodeJSON _ _) as [req|] eqn:Ej; [|done].
  destruct (hashToken _) as [hash|] eqn:Eh; [|done]. unfold grounded. effect t; [done|].
  destruct t as [t|[]]; try done. effect m; [|by destruct m as [|[]]].
  left. exists ["token"], req, hash, t. split_and!; [done..|left|done].
Qed.

Lemma handleResend_ok r h : allowed r h (handleResend r).
Proof.
  unfold handleResend. destruct (decodeJSON _ _) as [req|] eqn:Ej; [|done].
  unfold grounded. effect i; [done|]. destruct i as [i|[]]; try done.
  destruct (id_EmailVerified i); [done|]. after sendVerification_paths; [|done].
  left. exists i. split; [left|done].
Qed.

Lemma decoy_ok r h pw : allowed r h (decoy pw).
Proof. unfold decoy. after verifyPassword_paths. by intros [[|]|] h' _ _. Qed.

Lemma handleLogin_ok r h : allowed r h (handleLogin r).
Proof.
  unfold handleLogin. destruct (decodeJSON _ _) as [req|] eqn:Ej; [|done].
  unfold grounded. effect i; [done|]. destruct i as [i|[]]; try done; [|apply decoy_ok].
  effect c; [done|]. destruct c as [c|[]]; try done; [|apply decoy_ok].
  after verifyPassword_paths. intros v h' _ [Hsub Hv]. destruct v as [[[|]|]|e]; try done.
  destruct (id_EmailVerified i) eqn:Ei; [|done]. cbn [negb]. after issueSession_paths.
  - left. exists req, i, c. split; [done|]. split; [apply Hsub; by right; left|]. do 2 (split; [done|]).
    split; [apply Hsub; left|]. symmetry. by apply Hv.
  - intros [ck|] h'' _ _; [|done]. effect u; [done|]. by destruct u.
Qed.

Lemma handleResetRequest_ok r h : allowed r h (handleResetRequest r).
Proof.
  unfold handleResetRequest. destruct (decodeJSON _ _) as [req|] eqn:Ej; [|done].
  unfold grounded. effect i; [done|]. destruct i as [i|[]]; try done.
  after sendPasswordReset_paths; [|done]. left. exists i. split; [left|done].
Qed.

Lemma handleResetConfirm_ok r h : allowed r h (handleResetConfirm r).
Proof.
  unfold handleResetConfirm. destruct (decodeJSON _ _) as [req|] eqn:Ej; [|done]. destruct (negb _); [done|].
  destruct (hashToken _) as [hash|] eqn:Eh; [|done]. unfold grounded. effect t; [done|].
  destruct t as [t|[]]; try done.
  assert (spentToken r (Obs (Query (qUseEmailToken hash PurposeReset)) (inl t) :: h) PurposeReset (et_UserID t)) as Hs.
  { exists ["token"; "newPassword"], req, hash, t. split_and!; [done..|left|done]. }
  after hashPassword_paths. intros [nh|] h1 _ Hsub; [|done].
  effect u; [left; eauto with auth|]. destruct u as [[]|]; [|done].
  effect m; [right; eauto with auth|]. destruct m as [[]|[]]; try done.
  effect d; [|by destruct d]. cbn. eapply spentToken_mono; [|exact Hs]. intros o Ho. right. right. by apply Hsub.
Qed.

Lemma handleAddEmail_ok r h user : signedIn r h (us_ID user) -> allowed r h (handleAddEmail user r).
Proof.
  intros Hu. unfold handleAddEmail. destruct (decodeJSON _ _) as [req|] eqn:Ej; [|done]. destruct (negb _); [done|].
  unfold grounded. effect l; [done|]. destruct l as [l|]; [|done]. destruct (existsb _ l) eqn:El; [done|].
  effect i.
  - left. cbn. split; [eauto with auth|]. do 2 (split; [done|]). exists l. split; [left|].
    intros i Hi E. apply (existsb_false _ _ i) in El; [|done]. cbn beta in El. by rewrite E in El.
  - destruct i as [i|[]]; try done. after sendVerification_paths; [|done].
    right. right. eexists _, i. split; [left|done].
Qed.

Lemma handleSetPassword_ok r h user : signedIn r h (us_ID user) -> allowed r h (handleSetPassword user r).
Proof.
  intros Hu. unfold handleSetPassword. destruct (decodeJSON _ _) as [req|] eqn:Ej; [|done]. destruct (negb _); [done|].
  unfold grounded. effect l; [done|]. destruct l as [l|]; [|done]. destruct (existsb _ l) eqn:El; [|done]. cbn [negb].
  effect c; [done|]. destruct c as [c|[]]; try done.
  after hashPassword_paths. intros [hash|] h1 _ Hsub; [|done]. effect u; [|by destruct u].
  right. split; [eapply signedIn_mono; [exact Hsub|]; eauto with auth|]. split; [|apply Hsub; left].
  apply existsb_exists in El as (i & Hi & Hb). bool_to_prop. exists l, i.
  split; [apply Hsub; by right; left|]. split; [by apply list_elem_of_In|done].
Qed.

Lemma respondView_ok r h u : allowed r h (respondView u).
Proof. unfold respondView, grounded. by effect x. Qed.

Lemma settings_ok r h user : signedIn r h (us_ID user) -> allowed r h (HandleUpdateSettings user r).
Proof.
  intros Hu. unfold HandleUpdateSettings. destruct (decodeSettings r) as [req|]; [|done]. case_match; [done|].
  unfold grounded. effect u; [done|]. destruct u as [u|e]; [apply respondView_ok|done].
Qed.

Lemma rename_ok r h user : signedIn r h (us_ID user) -> allowed r h (HandleChangeDisplayName user r).
Proof.
  intros Hu. unfold HandleChangeDisplayName. destruct (decodeJSON _ _) as [req|]; [|done].
  destruct (negb _); [done|]. destruct (_ =s? _); [done|].
  unfold grounded. effect u; [done|]. destruct u as [u|[]]; try done.
Qed.

Lemma handleLogout_ok r h user : allowed r h (handleLogout user r).
Proof.
  unfold handleLogout, grounded. destruct (rq_Session r) as [value|] eqn:Er; [|done].
  destruct (hashToken value) as [hash|] eqn:Eh; [|done]. effect d; [by exists value|]. by destruct d.
Qed.

(** *** OAuth *)

Lemma beginOAuth_ok r h link : grounded r (fun _ _ => True) h (beginOAuth link).
Proof. unfold beginOAuth, grounded. effect raw; [done|]. by effect rawv. Qed.

Lemma signIn_ok r h u : ownsSubject r h u -> allowed r h (signIn u).
Proof. intros Ho. unfold signIn. after issueSession_paths; [by right|]. by intros [c|]. Qed.

Lemma oauth_create_ok r provider info fuel : forall i h base,
  provider = rq_Provider r -> vouched r h (ou_Subject info) ->
  Obs (Query (qIdentityByProviderSubject provider (ou_Subject info))) (inr ErrNotFound) ∈ h ->
  validDisplayName base = true -> (i + fuel <= maxNameSuffix)%nat ->
  grounded r (fun c h' => h ⊆ h' /\ forall u i, c = inl (u, i) -> ownsSubject r h' (us_ID u)) h
    (createOAuthAccountWithName fuel i base provider info).
Proof.
  unfold grounded. induction fuel as [|fuel IH]; intros i h base -> Hv Hn Hb Hi; cbn [createOAuthAccountWithName];
    (effect c; [cbn; split_and!; [done..|apply suffixedName_valid; [done|lia]]|]).
  - assert (forall u j, c = inl (u, j) -> ownsSubject r (Obs (Query (qCreateOAuthAccount
      {| oa_DisplayName := suffixedName base i; oa_Provider := rq_Provider r; oa_Subject := ou_Subject info;
         oa_Email := ou_Email info; oa_EmailVerified := ou_EmailVerified info |})) c :: h) (us_ID u)) as Hc.
    { intros u j ->. exists (ou_Subject info). split; [eauto with auth|]. right. eexists _, u, j. split; [left|done]. }
    destruct c as [[u j]|[]]; cbn [paths]; (split; [apply sub_cons|done]).
  - assert (forall u j, c = inl (u, j) -> ownsSubject r (Obs (Query (qCreateOAuthAccount
      {| oa_DisplayName := suffixedName base i; oa_Provider := rq_Provider r; oa_Subject := ou_Subject info;
         oa_Email := ou_Email info; oa_EmailVerified := ou_EmailVerified info |})) c :: h) (us_ID u)) as Hc.
    { intros u j ->. exists (ou_Subject info). split; [eauto with auth|]. right. eexists _, u, j. split; [left|done]. }
    destruct c as [[u j]|[]]; cbn [paths]; try (split; [apply sub_cons|done]).
    eapply paths_impl; [apply IH; [done|eauto with auth|by right|done|lia]|].
    cbn beta. intros c' h' _ [Hsub Hc']. split; [|done]. intros o Ho. apply Hsub. by right.
Qed.

Lemma completeLogin_ok r h info :
  vouched r h (ou_Subject info) -> allowed r h (completeLogin (rq_Provider r) info).
Proof.
  intros Hv. unfold completeLogin, grounded. effect i; [done|]. destruct i as [i|[]]; try done.
  - apply signIn_ok. exists (ou_Subject info). split; [eauto with auth|]. left. exists i. split; [left|done].
  - assert (forall h', Obs (Query (qIdentityByProviderSubject (rq_Provider r) (ou_Subject info))) (inr ErrNotFound) :: h ⊆ h' ->
      grounded r (fun _ _ => True) h'
        (let! created := createOAuthAccountWithName maxNameSuffix 0 (oauthDisplayName info) (rq_Provider r) info in
         match created with
         | inl (user, _) => signIn (us_ID user)
         | inr ErrEmailOwnedByOtherUser => flowResult "account_exists_use_linking"
         | inr _ => flowError
         end)) as Hcreate.
    { intros h' Hsub. after oauth_create_ok; [done| | |apply oauthDisplayName_valid|done|].
      - eapply vouched_mono; [|exact Hv]. intros o Ho. apply Hsub. by right.
      - apply Hsub. left.
      - intros [[u j]|[]] h'' _ [_ Hc]; try done. apply signIn_ok. by eapply Hc. }
    apply paths_bind. destruct (negb _ && _).
    + effect o; [done|]. cbn [paths]. destruct o as [o|[]]; try done. apply Hcreate. intros x Hx. by right.
    + cbn [paths]. by apply Hcreate.
Qed.

Lemma completeLink_ok r h info link :
  vouched r h (ou_Subject info) -> rq_Link r = Some link -> allowed r h (completeLink (rq_Provider r) link info).
Proof.
  intros Hv Hl. unfold completeLink, grounded. destruct (uuid_Parse link) as [u|] eqn:Eu; [|done].
  effect i; [done|]. destruct i as [i|[]]; try done.
  effect l; [|by destruct l as [|[]]]. right. split; [by exists link|]. cbn. eauto with auth.
Qed.

Lemma callback_ok r h : allowed r h (handleOAuthCallback r).
Proof.
  unfold handleOAuthCallback, grounded. destruct (negb (enabled _)); [done|].
  destruct (rq_State r) as [c|] eqn:Es; [|done]. destruct ((_ =s? "") || negb (c =s? _)) eqn:Ec; [done|].
  destruct (rq_Verifier r) as [v|] eqn:Ev; [|done]. destruct (rq_QueryCode r =s? ""); [done|].
  effect got; [done|]. destruct got as [| |info]; [done|done|]. destruct (ou_Subject info =s? ""); [done|].
  assert (vouched r (Obs (Exchange (rq_Provider r) (rq_QueryCode r) v) (Profile info) :: h) (ou_Subject info)) as Hv.
  { bool_to_prop. subst c. exists v, info. split_and!; try done. left. }
  destruct (rq_Link r) as [link|] eqn:El; [|by apply completeLogin_ok].
  destruct (negb (link =s? "")); [by apply completeLink_ok|by apply completeLogin_ok].
Qed.

Lemma start_ok r h : allowed r h (handleOAuthStart r).
Proof.
  unfold handleOAuthStart. case_match; [done|]. after beginOAuth_ok. by intros [? [? ?]].
Qed.

Lemma linkStart_ok r h user : allowed r h (handleLinkStart user r).
Proof.
  unfold handleLinkStart. case_match; [done|]. after beginOAuth_ok. by intros [? [? ?]].
Qed.

(** *** Behind the middleware *)

Lemma RequireAuth_ok r h (next : User -> request -> prog answer) :
  (forall u h', signedIn r h' (us_ID u) -> allowed r h' (next u r)) -> allowed r h (RequireAuth next r).
Proof.
  intros Hn. unfold RequireAuth. after authenticate_paths. intros [u|e] h' _ Hu; [|done]. apply Hn. exists u. auto.
Qed.

Lemma RequireOrigin_ok r h (next : request -> prog answer) :
  (forall h', allowed r h' (next r)) -> allowed r h (RequireOrigin next r).
Proof. intros Hn. unfold RequireOrigin. case_match; [apply Hn|]. case_match; [done|apply Hn]. Qed.

Lemma limited_ok r h (next : request -> prog answer) :
  (forall h', allowed r h' (next r)) -> allowed r h (limited next r).
Proof.
  intros Hn. unfold limited, rateLimit, grounded. effect x; [done|]. destruct x; [|done].
  cbn [bind]. by apply RequireOrigin_ok.
Qed.

Lemma mailing_ok r h (next : request -> prog answer) :
  (forall h', allowed r h' (next r)) -> allowed r h (mailing next r).
Proof.
  intros Hn. unfold mailing, requireCaptcha. case_match; [by apply limited_ok|]. case_match; [done|].
  unfold grounded. effect x; [done|]. destruct x; [|done]. cbn [bind]. by apply (limited_ok r).
Qed.

(** C5: no request acts on an account without grounds.  Whatever the database, the
    providers, the mailer and the other requests answer, a request of any route opens a
    session only after the right password of a verified address or a provider's word
    for an identity of that account; sets a password only with a spent reset token, or
    for its own signed-in account that has a verified address and no password; marks an
    address verified, and revokes sessions, only with a spent token; renames, and
    changes settings, only for its own live session; mails a token only to an address
    of the account it is for; and creates accounts only under valid names.  A provider
    identity is linked on the word of the provider and the link cookie. *)
Theorem every_effect_grounded (t : route) (r : request) :
  paths (ground (withMethod t r)) (fun _ _ => True) [] (serve t r).
Proof.
  unfold serve. generalize (withMethod t r). clear r. intros r.
  destruct t; cbv zeta;
    first [apply mailing_ok|apply limited_ok|apply RequireOrigin_ok|idtac]; try intros h';
    try (apply RequireAuth_ok; intros u h'' Hu);
    eauto using handleRegister_ok, handleVerify_ok, handleResend_ok, handleLogin_ok, handleResetRequest_ok,
      handleResetConfirm_ok, handleAddEmail_ok, handleSetPassword_ok, settings_ok, rename_ok, handleLogout_ok,
      callback_ok, respondView_ok, start_ok, linkStart_ok.
Qed.
End authority.
