(* ===== verification/AuthInv.v ===== *)
(** * internal/auth: what the accounts tables always satisfy

    [db_ok], the well-formedness of the five tables, and that every statement of
    AuthStore keeps it. *)

From Stdlib Require Import Strings.Ascii.
From S2P Require Import Prelude Effects GoStd Uuid Json Httpx AuthLimiter AuthText AuthPassword AuthStore AuthFlow.

Open Scope Z_scope.

Section inv.
Context `{Uuid} `{PgText} `{Argon2}.

(** ** Tables as lists of rows *)

Lemma table_rows {A} (t : gmap UUID A) a : a ∈ rows t <-> exists k, t !! k = Some a.
Proof.
  unfold rows. rewrite list_elem_of_fmap. split.
  - intros ([k b] & -> & Hin%elem_of_map_to_list). by exists k.
  - intros [k Hk]. exists (k, a). split; [done|by apply elem_of_map_to_list].
Qed.

Lemma existsb_rows {A} (p : A -> bool) (t : gmap UUID A) :
  existsb p (rows t) = false -> forall k a, t !! k = Some a -> p a = false.
Proof. intros Hf k a Hk. eapply existsb_false; [done|]. apply table_rows. by exists k. Qed.

Lemma one_inl {A} (p : A -> bool) (t : gmap UUID A) a :
  one p t = inl a -> exists k, t !! k = Some a /\ p a = true.
Proof.
  unfold one. destruct (find_first p (rows t)) as [b|] eqn:E; [|done]. intros [= ->].
  apply find_first_Some in E as [Hin Hp]. apply table_rows in Hin as [k Hk]. by exists k.
Qed.

Lemma one_inr {A} (p : A -> bool) (t : gmap UUID A) e :
  one p t = inr e -> e = NoRows /\ forall k a, t !! k = Some a -> p a = false.
Proof.
  unfold one. destruct (find_first p (rows t)) as [b|] eqn:E; [done|]. intros [= <-].
  split; [done|]. intros k a Hk. eapply find_first_None; [done|]. apply table_rows. by exists k.
Qed.

Lemma one_unique {A} (p : A -> bool) (t : gmap UUID A) k a :
  t !! k = Some a -> p a = true ->
  (forall k' a', t !! k' = Some a' -> p a' = true -> a' = a) -> one p t = inl a.
Proof.
  intros Hk Hp Hu. destruct (one p t) as [b|e] eqn:E.
  - apply one_inl in E as (k' & Hk' & Hb). by rewrite (Hu _ _ Hk' Hb).
  - apply one_inr in E as [_ Hn]. by rewrite (Hn _ _ Hk) in Hp.
Qed.

(** ** Well-formedness *)

Definition validProvider (p : string) : bool :=
  (p =s? ProviderGitHub) || (p =s? ProviderGoogle) || (p =s? ProviderEmail).

(** Two verified addresses that PostgreSQL cannot tell apart. *)
Definition sameVerified (i j : Identity) : Prop :=
  id_EmailVerified i = true /\ id_EmailVerified j = true
  /\ exists e e', id_Email i = Some e /\ id_Email j = Some e' /\ pg_lower e = pg_lower e'.

(** One predicate per table; [live] says which accounts exist. *)
Record users_ok (t : gmap UUID User) : Prop := {
  uo_row k u : t !! k = Some u ->
    us_ID u = k /\ displayNameCheck (us_DisplayName u) = true /\ (us_Role u = "player" \/ us_Role u = "admin");
  uo_names k k' u u' : t !! k = Some u -> t !! k' = Some u' ->
    pg_lower (us_DisplayName u) = pg_lower (us_DisplayName u') -> k = k';
  uo_texts k u : t !! k = Some u -> textFits bioMax (us_Bio u) = true /\ textFits keyboardMax (us_Keyboard u) = true }.

Record identities_ok (live : UUID -> Prop) (t : gmap UUID Identity) : Prop := {
  io_row k i : t !! k = Some i ->
    id_ID i = k /\ live (id_UserID i) /\ validProvider (id_Provider i) = true
    /\ (id_Provider i = ProviderEmail -> id_Subject i = pg_lower (id_Subject i));
  io_subjects k k' i i' : t !! k = Some i -> t !! k' = Some i' ->
    id_Provider i = id_Provider i' -> id_Subject i = id_Subject i' -> k = k';
  io_verified k k' i i' : t !! k = Some i -> t !! k' = Some i' -> sameVerified i i' -> id_UserID i = id_UserID i' }.

Definition credentials_ok (live : UUID -> Prop) (t : gmap UUID Credential) : Prop :=
  forall k c, t !! k = Some c -> cr_UserID c = k /\ live k.

(** Sessions and tokens alike: rows keyed by id, owned by an account, one per hash. *)
Record hashed_ok {A} (id : A -> UUID) (user : A -> UUID) (hash : A -> string)
    (live : UUID -> Prop) (t : gmap UUID A) : Prop := {
  ho_row k a : t !! k = Some a -> id a = k /\ live (user a);
  ho_hash k k' a a' : t !! k = Some a -> t !! k' = Some a' -> hash a = hash a' -> k = k' }.

Definition live (db : authDB) (k : UUID) : Prop := is_Some (db_users db !! k).

Record db_ok (db : authDB) : Prop := {
  ok_users : users_ok (db_users db);
  ok_identities : identities_ok (live db) (db_identities db);
  ok_credentials : credentials_ok (live db) (db_credentials db);
  ok_sessions : hashed_ok se_ID se_UserID se_TokenHash (live db) (db_sessions db);
  ok_tokens : hashed_ok et_ID et_UserID et_TokenHash (live db) (db_tokens db) }.

Lemma db_ok_empty : db_ok emptyDB.
Proof. split; [split|split|unfold credentials_ok|split|split]; cbn; intros *; by rewrite lookup_empty. Qed.

(** ** General moves *)

Lemma identities_live (L L' : UUID -> Prop) t :
  (forall k, L k -> L' k) -> identities_ok L t -> identities_ok L' t.
Proof. intros HL []. split; [|done..]. intros k i Hk. destruct (io_row0 _ _ Hk) as (? & ? & ? & ?). auto. Qed.

Lemma hashed_live {A} (id user : A -> UUID) hash (L L' : UUID -> Prop) t :
  (forall k, L k -> L' k) -> hashed_ok id user hash L t -> hashed_ok id user hash L' t.
Proof. intros HL []. split; [|done]. intros k a Hk. destruct (ho_row0 _ _ Hk). auto. Qed.

(** More accounts, or the same ones changed: the other tables do not mind. *)
Lemma users_ok_db f db :
  db_ok db -> users_ok (f (db_users db)) -> (forall k, live db k -> is_Some (f (db_users db) !! k)) ->
  db_ok (setUsers f db).
Proof.
  intros [] Hu HL. split; [done|by eapply identities_live| |by eapply hashed_live|by eapply hashed_live].
  intros k c Hk. destruct (ok_credentials0 _ _ Hk). split; [done|by apply HL].
Qed.

(** Rows may go at any time. *)
Lemma identities_filter (P : UUID * Identity -> Prop) `{!forall x, Decision (P x)} L t :
  identities_ok L t -> identities_ok L (filter P t).
Proof.
  intros []. split.
  - intros k i [Hk _]%map_lookup_filter_Some. by apply io_row0.
  - intros k k' i i' [Hk _]%map_lookup_filter_Some [Hk' _]%map_lookup_filter_Some. by eapply io_subjects0.
  - intros k k' i i' [Hk _]%map_lookup_filter_Some [Hk' _]%map_lookup_filter_Some. by eapply io_verified0.
Qed.

Lemma hashed_filter {A} (id user : A -> UUID) hash (P : UUID * A -> Prop) `{!forall x, Decision (P x)} L t :
  hashed_ok id user hash L t -> hashed_ok id user hash L (filter P t).
Proof.
  intros []. split.
  - intros k a [Hk _]%map_lookup_filter_Some. by apply ho_row0.
  - intros k k' a a' [Hk _]%map_lookup_filter_Some [Hk' _]%map_lookup_filter_Some. by eapply ho_hash0.
Qed.

(** Only the accounts of rows that stay need to stay. *)
Lemma identities_shrink (L L' : UUID -> Prop) t :
  (forall k i, t !! k = Some i -> L (id_UserID i) -> L' (id_UserID i)) -> identities_ok L t -> identities_ok L' t.
Proof. intros HL []. split; [|done..]. intros k i Hk. destruct (io_row0 _ _ Hk) as (? & ? & ? & ?). eauto. Qed.

Lemma hashed_shrink {A} (id user : A -> UUID) hash (L L' : UUID -> Prop) t :
  (forall k a, t !! k = Some a -> L (user a) -> L' (user a)) -> hashed_ok id user hash L t -> hashed_ok id user hash L' t.
Proof. intros HL []. split; [|done]. intros k a Hk. destruct (ho_row0 _ _ Hk). eauto. Qed.

Lemma hashed_insert {A} (id user : A -> UUID) hash L t (a : A) :
  hashed_ok id user hash L t -> L (user a) ->
  (forall k b, t !! k = Some b -> hash b = hash a -> k = id a) ->
  hashed_ok id user hash L (<[id a := a]> t).
Proof.
  intros [] HL Hh. split.
  - intros k b [[<- <-]|[_ Hk]]%lookup_insert_Some; [done|by apply ho_row0].
  - intros k k' b b' [[<- <-]|[Hne Hk]]%lookup_insert_Some [[<- <-]|[Hne' Hk']]%lookup_insert_Some E; [done| | |].
    + symmetry. eauto.
    + eauto.
    + by eapply ho_hash0.
Qed.

(** A row rewritten under the same id, account and hash. *)
Lemma hashed_rewrite {A} (id user : A -> UUID) hash L t (f : A -> A) k :
  (forall a, id (f a) = id a /\ user (f a) = user a /\ hash (f a) = hash a) ->
  hashed_ok id user hash L t -> hashed_ok id user hash L (alter f k t).
Proof.
  intros Hf [].
  assert (forall k' b, alter f k t !! k' = Some b -> exists a, t !! k' = Some a /\ id b = id a /\ user b = user a /\ hash b = hash a) as Ha.
  { intros k' b [(-> & a & Ha & ->)|[_ Hk]]%lookup_alter_Some; [exists a|exists b]; naive_solver. }
  split.
  - intros k' b (a & Hk & -> & -> & _)%Ha. by apply ho_row0.
  - intros k1 k2 b1 b2 (a1 & H1' & _ & _ & ->)%Ha (a2 & H2' & _ & _ & ->)%Ha. by eapply ho_hash0.
Qed.

(** ** users *)

Lemma nameHeld_false id name db :
  nameHeld id name db = false -> users_ok (db_users db) ->
  forall k u, db_users db !! k = Some u -> pg_lower (us_DisplayName u) = pg_lower name -> k = id.
Proof.
  intros Hn Hdb k u Hk Hl. eapply existsb_rows in Hn; [|done]. cbv beta in Hn.
  destruct (uo_row _ Hdb _ _ Hk) as [<- _].
  unfold ci_eq in Hn. rewrite Hl, String.eqb_refl, andb_true_r in Hn. by bool_to_prop.
Qed.

Lemma insert_user_ok id u db :
  db_ok db -> us_ID u = id -> displayNameCheck (us_DisplayName u) = true ->
  (us_Role u = "player" \/ us_Role u = "admin") ->
  textFits bioMax (us_Bio u) = true /\ textFits keyboardMax (us_Keyboard u) = true ->
  (forall k u', db_users db !! k = Some u' -> pg_lower (us_DisplayName u') = pg_lower (us_DisplayName u) -> k = id) ->
  db_ok (setUsers (insert id u) db).
Proof.
  intros Hdb Hid Hc Hr Ht Hn. destruct (ok_users _ Hdb) as [Hrow Hnames Htexts]. apply users_ok_db; [done|split|].
  - intros k v [[<- <-]|[Hne Hk]]%lookup_insert_Some; [done|by apply Hrow].
  - intros k k' v v' [[<- <-]|[Hne Hk]]%lookup_insert_Some [[<- <-]|[Hne' Hk']]%lookup_insert_Some Hl; [done| | |].
    + symmetry. by eapply Hn.
    + by eapply Hn.
    + by eapply Hnames.
  - intros k v [[<- <-]|[Hne Hk]]%lookup_insert_Some; [done|by eapply Htexts].
  - intros x Hx. destruct (decide (x = id)) as [->|]; [by rewrite lookup_insert_eq|by rewrite lookup_insert_ne].
Qed.

Lemma CreateUser_ok id now name db db' u :
  db_ok db -> CreateUser id now name db = inl (db', u) ->
  db_ok db' /\ us_ID u = id /\ db_users db !! id = None
  /\ db' = setUsers (insert id u) db /\ us_DisplayName u = name.
Proof.
  intros Hdb. unfold CreateUser. destruct (displayNameCheck name) eqn:Ec; [|done].
  destruct (bool_decide (is_Some _)) eqn:Ei; [done|]. destruct (nameHeld _ _ _) eqn:En; [done|].
  intros [= <- <-]. cbn [us_ID us_DisplayName]. split_and!; try done.
  - apply insert_user_ok; [done|done|done|by left|done|]. eapply nameHeld_false; [done|apply Hdb].
  - bool_to_prop. destruct (db_users db !! id); [by destruct Ei|done].
Qed.

Lemma ChangeDisplayName_ok id now name db db' u :
  db_ok db -> ChangeDisplayName id now name db = inl (db', u) -> db_ok db'.
Proof.
  intros Hdb. unfold ChangeDisplayName. destruct (db_users db !! id) as [v|] eqn:Ev; [|done].
  destruct (match _ with Some _ => _ | None => _ end); [|done].
  destruct (displayNameCheck name) eqn:Ec; [|done]. destruct (nameHeld _ _ _) eqn:En; [done|].
  intros [= <- <-]. destruct (uo_row _ (ok_users _ Hdb) _ _ Ev) as (? & ? & ?).
  apply insert_user_ok; [done..|by apply (uo_texts _ (ok_users _ Hdb) _ _ Ev)|].
  eapply nameHeld_false; [done|apply Hdb].
Qed.

Lemma UpdateProfileIdentity_ok id now bio keyboard db db' :
  db_ok db -> UpdateProfileIdentity id now bio keyboard db = inl db' -> db_ok db'.
Proof.
  intros Hdb. unfold UpdateProfileIdentity. destruct (db_users db !! id) as [v|] eqn:Ev; [|by intros [= <-]].
  destruct (textFits bioMax bio) eqn:Eb; [|done]. destruct (textFits keyboardMax keyboard) eqn:Ek; [|done].
  intros [= <-]. destruct (uo_row _ (ok_users _ Hdb) _ _ Ev) as (? & ? & ?).
  apply insert_user_ok; [done..|]. cbn. intros k' u' Hk Hl. by eapply (uo_names _ (ok_users _ Hdb)).
Qed.

Lemma UpdateUserSettings_ok id now p k db db' u :
  db_ok db -> UpdateUserSettings id now p k db = inl (db', u) -> db_ok db'.
Proof.
  intros Hdb. unfold UpdateUserSettings. destruct (db_users db !! id) as [v|] eqn:Ev; [|done].
  intros [= <- <-]. destruct (uo_row _ (ok_users _ Hdb) _ _ Ev) as (? & ? & ?).
  apply insert_user_ok; [done..|by apply (uo_texts _ (ok_users _ Hdb) _ _ Ev)|].
  cbn. intros k' u' Hk Hl. by eapply (uo_names _ (ok_users _ Hdb)).
Qed.

(** [PromoteAdmins] changes roles and instants only. *)
Lemma PromoteAdmins_ok now emails db : db_ok db -> db_ok (PromoteAdmins now emails db).1.
Proof.
  intros Hdb. destruct (ok_users _ Hdb) as [Hrow Hnames Htexts]. cbn [fst PromoteAdmins].
  set (f := fun u => if promoted emails db u then promote now u else u).
  assert (forall k u, (f <$> db_users db) !! k = Some u ->
    exists v, db_users db !! k = Some v /\ us_ID u = us_ID v /\ us_DisplayName u = us_DisplayName v
              /\ (us_Role u = "admin" \/ us_Role u = us_Role v) /\ us_Bio u = us_Bio v /\ us_Keyboard u = us_Keyboard v) as Hu.
  { intros k u. rewrite lookup_fmap. intros (v & Hv & ->)%fmap_Some. exists v. split; [done|].
    unfold f. case_match; cbn; eauto 6. }
  apply users_ok_db; [done|split|].
  - intros k u (v & Hv & -> & -> & Hr & _)%Hu. destruct (Hrow _ _ Hv) as (? & ? & ?).
    split_and!; [done..|]. destruct Hr as [Hr|Hr]; rewrite Hr; auto.
  - intros k k' u u' (v & Hv & _ & -> & _)%Hu (v' & Hv' & _ & -> & _)%Hu. by eapply Hnames.
  - intros k u (v & Hv & _ & _ & _ & -> & ->)%Hu. by eapply Htexts.
  - intros k Hk. by rewrite lookup_fmap, fmap_is_Some.
Qed.

(** ** auth_identities *)

Lemma validProvider_neg p :
  negb ((p =s? ProviderGitHub) || (p =s? ProviderGoogle) || (p =s? ProviderEmail)) = false -> validProvider p = true.
Proof. by intros ?%negb_false_iff. Qed.

Lemma CreateIdentity_ok id now user p db db' i :
  db_ok db -> CreateIdentity id now user p db = inl (db', i) ->
  db_ok db' /\ id_UserID i = user /\ db' = setIdentities (insert id i) db /\ db_identities db !! id = None
  /\ i = {| id_ID := id; id_UserID := user; id_Provider := ip_Provider p; id_Subject := ip_Subject p;
            id_Email := emailPtr (ip_Email p); id_EmailVerified := ip_EmailVerified p; id_CreatedAt := now |}.
Proof.
  intros Hdb. unfold CreateIdentity. cbv zeta.
  destruct (negb _) eqn:Ep; [done|]. destruct (_ && negb _) eqn:El; [done|].
  destruct (bool_decide (is_Some _)) eqn:Ei; [done|]. destruct (existsb _ _) eqn:Es; [done|].
  destruct (_ && emailConflict _ _ _) eqn:Ev; [done|].
  destruct (negb (bool_decide (is_Some (db_users db !! user)))) eqn:Eu; [done|].
  intros [= <- <-]. apply validProvider_neg in Ep. bool_to_prop.
  assert (db_identities db !! id = None) as Hid by (destruct (db_identities db !! id); [by destruct Ei|done]).
  split_and!; try done. destruct Hdb as [? [Hrow Hsub Hver] ? ? ?]. split; try done. split; cbn.
  - intros k i [[<- <-]|[Hne Hk]]%lookup_insert_Some; [|by apply Hrow]. cbn. split_and!; try done.
    intros E. rewrite E in El. cbn in El. by bool_to_prop.
  - assert (forall k i, db_identities db !! k = Some i -> ip_Provider p = id_Provider i -> ip_Subject p = id_Subject i -> id = k) as Hnew.
    { intros k i Hk E1 E2. eapply existsb_rows in Es; [|done]. unfold sameSubject in Es.
      by rewrite E1, E2, !String.eqb_refl in Es. }
    intros k k' i i' [[<- <-]|[Hne Hk]]%lookup_insert_Some [[<- <-]|[Hne' Hk']]%lookup_insert_Some E1 E2; [done| | |].
    + by eapply Hnew.
    + symmetry. by eapply Hnew.
    + by eapply Hsub.
  - assert (forall k i, db_identities db !! k = Some i -> ip_EmailVerified p = true -> id_EmailVerified i = true ->
      (exists e e', emailPtr (ip_Email p) = Some e /\ id_Email i = Some e' /\ pg_lower e = pg_lower e') -> id_UserID i = user) as Hnew.
    { intros k i Hk Hp Hi (e & e' & He & He' & E). rewrite Hp in Ev. cbn in Ev. unfold emailConflict in Ev.
      eapply existsb_rows in Ev; [|done]. unfold verifiedFor, ci_eq in Ev.
      rewrite Hi, He, He', E, String.eqb_refl, andb_true_r in Ev. cbn in Ev. by bool_to_prop. }
    intros k k' i i' [[<- <-]|[Hne Hk]]%lookup_insert_Some [[<- <-]|[Hne' Hk']]%lookup_insert_Some (V1 & V2 & e & e' & E1 & E2 & E); [done| | |];
      cbn in *.
    + symmetry. eapply Hnew; eauto 10.
    + eapply Hnew; eauto 10.
    + by eapply Hver; [exact Hk|exact Hk'|]; split_and!; [done..|]; exists e, e'.
Qed.

Lemma VerifyEmailIdentityByUser_ok user db db' :
  db_ok db -> VerifyEmailIdentityByUser user db = inl db' ->
  db_ok db' /\ db' = setIdentities (fmap (fun i => if emailOf user i then verify i else i)) db.
Proof.
  intros Hdb. unfold VerifyEmailIdentityByUser. destruct (existsb _ _) eqn:Ev; [done|]. intros [= <-]. split; [|done].
  destruct Hdb as [? [Hrow Hsub Hver] ? ? ?]. split; try done. set (f := fun i => if emailOf user i then verify i else i).
  assert (forall k i, (f <$> db_identities db) !! k = Some i ->
    exists j, db_identities db !! k = Some j /\ id_ID i = id_ID j /\ id_UserID i = id_UserID j
      /\ id_Provider i = id_Provider j /\ id_Subject i = id_Subject j /\ id_Email i = id_Email j
      /\ (id_EmailVerified i = true -> id_EmailVerified j = true \/ emailOf user j = true)) as Hf.
  { intros k i. rewrite lookup_fmap. intros (j & Hj & ->)%fmap_Some. exists j. split; [done|].
    unfold f. destruct (emailOf user j) eqn:Ej; cbn; eauto 10. }
  assert (forall k j, db_identities db !! k = Some j -> emailOf user j = true -> id_UserID j = user) as Hown
    by (intros k j _; unfold emailOf; intros Hj; by bool_to_prop).
  assert (forall k k' i j e e', db_identities db !! k = Some i -> db_identities db !! k' = Some j ->
    emailOf user i = true -> id_EmailVerified j = true -> id_Email i = Some e -> id_Email j = Some e' ->
    pg_lower e = pg_lower e' -> id_UserID j = user) as Hconf.
  { intros k k' i j e e' Hi Hj Ho Hv He He' E. eapply existsb_rows in Ev; [|exact Hi]. cbv beta in Ev.
    rewrite Ho in Ev. cbn in Ev. unfold emailConflict in Ev. eapply existsb_rows in Ev; [|exact Hj].
    unfold verifiedFor, ci_eq in Ev. rewrite Hv, He, He', E, String.eqb_refl, andb_true_r in Ev. cbn in Ev. by bool_to_prop. }
  split; cbn.
  - intros k i (j & Hj & -> & -> & -> & -> & _)%Hf. by apply Hrow.
  - intros k k' i i' (j & Hj & _ & _ & -> & -> & _)%Hf (j' & Hj' & _ & _ & -> & -> & _)%Hf. by eapply Hsub.
  - intros k k' i i' (j & Hj & _ & -> & _ & _ & Ej & Vj)%Hf (j' & Hj' & _ & -> & _ & _ & Ej' & Vj')%Hf (V & V' & e & e' & E1 & E2 & E).
    rewrite Ej in E1. rewrite Ej' in E2. destruct (Vj V) as [Hv|Ho], (Vj' V') as [Hv'|Ho'].
    + eapply Hver; [exact Hj|exact Hj'|]. split_and!; [done..|]. by exists e, e'.
    + rewrite (Hown _ _ Hj' Ho'). by eapply Hconf; [exact Hj'|exact Hj|done..].
    + rewrite (Hown _ _ Hj Ho). symmetry. by eapply Hconf; [exact Hj|exact Hj'|done..].
    + by rewrite (Hown _ _ Hj Ho), (Hown _ _ Hj' Ho').
Qed.

(** ** user_credentials, sessions, email_tokens *)

Lemma UpsertCredential_ok now user hash db db' :
  db_ok db -> UpsertCredential now user hash db = inl db' -> db_ok db'.
Proof.
  intros []. unfold UpsertCredential. destruct (negb _) eqn:Eu; [done|]. intros [= <-]. bool_to_prop.
  split; try done. cbn. intros k c [[<- <-]|[_ Hk]]%lookup_insert_Some; [done|by apply ok_credentials0].
Qed.

Lemma CreateSession_ok id now hash user expiresAt db db' s :
  db_ok db -> CreateSession id now hash user expiresAt db = inl (db', s) ->
  db_ok db' /\ db' = setSessions (insert id s) db /\ se_ID s = id /\ se_UserID s = user
  /\ se_TokenHash s = hash /\ se_ExpiresAt s = expiresAt.
Proof.
  intros []. unfold CreateSession. destruct (bool_decide _) eqn:Ei; [done|]. destruct (existsb _ _) eqn:Eh; [done|].
  destruct (negb (bool_decide (is_Some (db_users db !! user)))) eqn:Eu; [done|]. intros [= <- <-]. bool_to_prop.
  split; [|done]. split; try done. cbn.
  apply (hashed_insert se_ID se_UserID se_TokenHash _ _ {| se_ID := id; se_TokenHash := hash; se_UserID := user;
    se_CreatedAt := now; se_ExpiresAt := expiresAt; se_LastSeenAt := now |}); [done..|].
  cbn. intros k b Hk E. eapply existsb_rows in Eh; [|done]. unfold sessionOf in Eh. by rewrite E, String.eqb_refl in Eh.
Qed.

Lemma CreateEmailToken_ok id p db db' t :
  db_ok db -> CreateEmailToken id p db = inl (db', t) ->
  db_ok db' /\ db' = setTokens (insert id t) db /\ et_ID t = id /\ et_UserID t = ep_UserID p
  /\ et_UsedAt t = None /\ et_TokenHash t = ep_TokenHash p /\ et_Purpose t = ep_Purpose p
  /\ et_ExpiresAt t = ep_ExpiresAt p.
Proof.
  intros []. unfold CreateEmailToken. destruct (negb (_ || _)); [done|].
  destruct (bool_decide (is_Some (db_tokens db !! id))) eqn:Ei; [done|]. destruct (existsb _ _) eqn:Eh; [done|].
  destruct (negb (bool_decide (is_Some (db_users db !! ep_UserID p)))) eqn:Eu; [done|]. intros [= <- <-]. bool_to_prop.
  split; [|done]. split; try done. cbn.
  apply (hashed_insert et_ID et_UserID et_TokenHash _ _ {| et_ID := id; et_UserID := ep_UserID p;
    et_Purpose := ep_Purpose p; et_TokenHash := ep_TokenHash p; et_ExpiresAt := ep_ExpiresAt p; et_UsedAt := None |});
    [done..|].
  cbn. intros k b Hk E. eapply existsb_rows in Eh; [|done]. cbv beta in Eh. by rewrite E, String.eqb_refl in Eh.
Qed.

(** Spending a token rewrites one usable row. *)
Lemma UseEmailToken_inl now hash purpose db db' t :
  db_ok db -> UseEmailToken now hash purpose db = inl (db', t) ->
  exists t0, db_tokens db !! et_ID t0 = Some t0 /\ t = spend now t0 /\ usable now hash purpose t0 = true
             /\ db' = setTokens (alter (spend now) (et_ID t0)) db.
Proof.
  intros Hdb. unfold UseEmailToken. destruct (one _ _) as [t0|] eqn:E; [|done]. intros [= <- <-].
  apply one_inl in E as (k & Hk & Hu). destruct (ho_row _ _ _ _ _ (ok_tokens _ Hdb) _ _ Hk) as [<- _].
  exists t0. split_and!; try done. unfold setTokens. f_equal. apply map_eq. intros k.
  destruct (decide (k = et_ID t0)) as [->|]; [by rewrite lookup_insert_eq, lookup_alter_eq, Hk|].
  by rewrite lookup_insert_ne, lookup_alter_ne.
Qed.

Lemma alter_tokens_ok f k db :
  (forall a, et_ID (f a) = et_ID a /\ et_UserID (f a) = et_UserID a /\ et_TokenHash (f a) = et_TokenHash a) ->
  db_ok db -> db_ok (setTokens (alter f k) db).
Proof. intros Hf []. split; try done. by apply hashed_rewrite. Qed.

Lemma alter_sessions_ok f k db :
  (forall a, se_ID (f a) = se_ID a /\ se_UserID (f a) = se_UserID a /\ se_TokenHash (f a) = se_TokenHash a) ->
  db_ok db -> db_ok (setSessions (alter f k) db).
Proof. intros Hf []. split; try done. by apply hashed_rewrite. Qed.

Lemma filter_sessions_ok (P : UUID * Session -> Prop) `{!forall x, Decision (P x)} db :
  db_ok db -> db_ok (setSessions (filter P) db).
Proof. intros []. split; try done. by apply hashed_filter. Qed.

Lemma filter_tokens_ok (P : UUID * EmailToken -> Prop) `{!forall x, Decision (P x)} db :
  db_ok db -> db_ok (setTokens (filter P) db).
Proof. intros []. split; try done. by apply hashed_filter. Qed.

Lemma dropAccount_ok user db : db_ok db -> db_ok (dropAccount user db).
Proof.
  intros [[Hrow Hnames Htexts] Hi Hc Hs Ht].
  assert (forall k, k <> user -> live db k -> live (dropAccount user db) k) as HL
    by (intros k Hne Hk; unfold live; cbn; by rewrite lookup_delete_ne).
  split; cbn.
  - split.
    + intros k u [_ Hk]%lookup_delete_Some. by apply Hrow.
    + intros k k' u u' [_ Hk]%lookup_delete_Some [_ Hk']%lookup_delete_Some. by eapply Hnames.
    + intros k u [_ Hk]%lookup_delete_Some. by eapply Htexts.
  - eapply identities_shrink; [|by apply identities_filter]. intros k i [_ Hne]%map_lookup_filter_Some. by apply HL.
  - intros k c [Hne Hk]%lookup_delete_Some. destruct (Hc _ _ Hk). split; [done|by apply HL].
  - eapply hashed_shrink; [|by apply hashed_filter]. intros k s [_ Hne]%map_lookup_filter_Some. by apply HL.
  - eapply hashed_shrink; [|by apply hashed_filter]. intros k s [_ Hne]%map_lookup_filter_Some. by apply HL.
Qed.

(** ** Every store method keeps the tables well-formed *)

Lemma CreateEmailAccount_ok uid iid now p db db' u i :
  db_ok db -> CreateEmailAccount uid iid now p db = inl (db', (u, i)) -> db_ok db' /\ us_ID u = uid.
Proof.
  intros Hdb. unfold CreateEmailAccount. destruct (CreateUser _ _ _ _) as [[db1 v]|] eqn:E1; [|done].
  destruct (CreateIdentity _ _ _ _ _) as [[db2 j]|] eqn:E2; [|done].
  destruct (UpsertCredential _ _ _ _) as [db3|] eqn:E3; [|done]. intros [= <- <- <-].
  apply CreateUser_ok in E1 as (H1' & Hid & _); [|done]. apply CreateIdentity_ok in E2 as [H2' _]; [|done].
  split; [by eapply UpsertCredential_ok|done].
Qed.

Lemma CreateOAuthAccount_ok uid iid now p db db' u i :
  db_ok db -> CreateOAuthAccount uid iid now p db = inl (db', (u, i)) -> db_ok db' /\ us_ID u = uid.
Proof.
  intros Hdb. unfold CreateOAuthAccount. destruct (CreateUser _ _ _ _) as [[db1 v]|] eqn:E1; [|done].
  destruct (CreateIdentity _ _ _ _ _) as [[db2 j]|] eqn:E2; [|done]. intros [= <- <- <-].
  apply CreateUser_ok in E1 as (H1' & Hid & _); [|done]. by apply CreateIdentity_ok in E2 as [H2' _].
Qed.

Lemma exec_query_ok {A} (q : query A) id id' now db :
  db_ok db -> db_ok (exec_query q id id' now db).1.
Proof.
  intros Hdb. destruct q; cbn [exec_query fst]; try done.
  - destruct (CreateEmailAccount _ _ _ _ _) as [[db' [u i]]|] eqn:E; [|done]. by eapply CreateEmailAccount_ok.
  - destruct (CreateOAuthAccount _ _ _ _ _) as [[db' [u i]]|] eqn:E; [|done]. by eapply CreateOAuthAccount_ok.
  - destruct (CreateIdentity _ _ _ _ _) as [[db' i]|] eqn:E; [|done]. by eapply CreateIdentity_ok.
  - destruct (VerifyEmailIdentityByUser _ _) as [db'|] eqn:E; [|done]. by eapply VerifyEmailIdentityByUser_ok.
  - destruct (UpdateUserSettings _ _ _ _ _) as [[db' u]|] eqn:E; [|done]. by eapply UpdateUserSettings_ok.
  - destruct (ChangeDisplayName _ _ _ _) as [[db' u]|[]] eqn:E; [|done..]. by eapply ChangeDisplayName_ok.
  - by apply PromoteAdmins_ok.
  - destruct (UpsertCredential _ _ _ _) as [db'|] eqn:E; [|done]. by eapply UpsertCredential_ok.
  - destruct (CreateEmailToken _ _ _) as [[db' t]|] eqn:E; [|done]. by eapply CreateEmailToken_ok.
  - by apply filter_tokens_ok.
  - destruct (UseEmailToken _ _ _ _) as [[db' t]|] eqn:E; [|done].
    apply UseEmailToken_inl in E as (t0 & _ & _ & _ & ->); [|done]. by apply alter_tokens_ok.
  - destruct (CreateSession _ _ _ _ _ _) as [[db' s]|] eqn:E; [|done]. by eapply CreateSession_ok.
  - by apply alter_sessions_ok.
  - by apply filter_sessions_ok.
  - by apply filter_sessions_ok.
  - by apply filter_sessions_ok.
  - by apply filter_tokens_ok.
Qed.
End inv.
