(* ===== verification/AuthWorld.v ===== *)
(** * internal/auth: requests interleaved

    Any number of requests, sweeps and start-ups in progress at once, one effect at a
    time, in any order; a statement may fail, or take effect and lose its answer; a
    request may stop anywhere. *)

From Stdlib Require Import Strings.Ascii.
From S2P Require Import Prelude Effects GoStd Uuid Json Httpx AuthLimiter AuthText AuthPassword AuthStore AuthFlow AuthHandlers AuthInv.

Open Scope Z_scope.

Section world.
Context `{Uuid} `{PgText} `{Argon2} `{!Env}.

(** What can go wrong with an effect: no answer or a late one from the database, no
    slot in time. *)
Definition faulty {X} (e : eff X) (w : world) (x : X) (w' : world) : Prop :=
  match e in eff X return X -> Prop with
  | Query q => fun x => x = inr ErrOther /\ (w' = tick w \/ w' = (exec (Query q) w).2)
  | AcquireHash => fun x => x = false /\ w' = tick w
  | _ => fun _ => False
  end x.

Definition performs {X} (e : eff X) (w : world) (x : X) (w' : world) : Prop :=
  exec e w = (x, w') \/ faulty e w x w'.

(** The tokens an effect told its request it had spent. *)
Definition spentBy {X} (e : eff X) (x : X) : list EmailToken :=
  match e in eff X return X -> list EmailToken with
  | Query q =>
    match q in query A return A + storeError -> list EmailToken with
    | qUseEmailToken _ _ => fun r => match r with inl t => [t] | inr _ => [] end
    | _ => fun _ => []
    end
  | _ => fun _ => []
  end x.

(** [sy_spent] records what the requests saw; the system does not read it. *)
Record sys := { sy_world : world; sy_pool : list (prog answer); sy_spent : list EmailToken }.

Definition silent {A} (p : prog A) : prog answer := bind p (fun _ => Ret (ok StatusOK)).

Definition started (p : prog answer) (s : sys) : sys :=
  {| sy_world := sy_world s; sy_pool := sy_pool s ++ [p]; sy_spent := sy_spent s |}.

Definition later (d : Z) (w : world) : world :=
  {| wd_db := wd_db w; wd_clock := wd_clock w + d; wd_hashing := wd_hashing w;
     wd_outbox := wd_outbox w; wd_limiter := wd_limiter w; wd_tick := wd_tick w |}.

Inductive sys_step : sys -> sys -> Prop :=
| step_request t r s : sys_step s (started (serve t r) s)
| step_sweep s : sys_step s (started (silent sweepOnce) s)
| step_bootstrap emails s : sys_step s (started (silent (BootstrapAdmins emails)) s)
| step_effect s i X (e : eff X) k x w' :
    sy_pool s !! i = Some (Vis e k) -> performs e (sy_world s) x w' ->
    sys_step s {| sy_world := w'; sy_pool := <[i := k x]> (sy_pool s); sy_spent := spentBy e x ++ sy_spent s |}
| step_stop s i :
    sys_step s {| sy_world := sy_world s; sy_pool := <[i := Ret internal]> (sy_pool s); sy_spent := sy_spent s |}
| step_time s d : 0 <= d ->
    sys_step s {| sy_world := later d (sy_world s); sy_pool := sy_pool s; sy_spent := sy_spent s |}
| step_drop s user :
    sys_step s {| sy_world := withDB (dropAccount user (wd_db (sy_world s))) (sy_world s);
                  sy_pool := sy_pool s; sy_spent := sy_spent s |}
| step_profile s user now bio keyboard db :  (* the profile service edits its two columns *)
    UpdateProfileIdentity user now bio keyboard (wd_db (sy_world s)) = inl db ->
    sys_step s {| sy_world := withDB db (sy_world s); sy_pool := sy_pool s; sy_spent := sy_spent s |}.

Definition initial (clock : Z) : sys :=
  {| sy_world := {| wd_db := emptyDB; wd_clock := clock; wd_hashing := 0; wd_outbox := [];
                    wd_limiter := newLimiter; wd_tick := 0 |};
     sy_pool := []; sy_spent := [] |}.

Definition sys_reachable (s : sys) : Prop := exists clock, steps sys_step (initial clock) s.

(** ** The tables are well-formed in every reachable state *)

Lemma exec_ok {X} (e : eff X) w : db_ok (wd_db w) -> db_ok (wd_db (exec e w).2).
Proof.
  intros Hdb. destruct e as [A q| | | | | | | | |]; cbn [exec auth_interp auth_exec]; try done.
  - destruct (exec_query q _ _ _ _) as [db r] eqn:E. cbn.
    pose proof (exec_query_ok q (env_id (wd_tick w) false) (env_id (wd_tick w) true) (wd_clock w) _ Hdb) as Hok.
    by rewrite E in Hok.
  - by case_match.
  - by case_match.
  - destruct (AuthLimiter.Allow _ _ _ _). done.
Qed.

Lemma performs_ok {X} (e : eff X) w x w' : performs e w x w' -> db_ok (wd_db w) -> db_ok (wd_db w').
Proof.
  intros [E|Hf] Hdb.
  - pose proof (exec_ok e w Hdb) as Hok. by rewrite E in Hok.
  - destruct e as [A q| | | | | | | | |]; try done; cbn in Hf.
    + destruct Hf as [_ [->| ->]]; [done|]. by apply (exec_ok (Query q)).
    + by destruct Hf as [_ ->].
Qed.

Lemma sys_step_ok s s' : sys_step s s' -> db_ok (wd_db (sy_world s)) -> db_ok (wd_db (sy_world s')).
Proof.
  intros Hs Hdb. destruct Hs; cbn; try done.
  - by eapply performs_ok.
  - by apply dropAccount_ok.
  - by eapply UpdateProfileIdentity_ok.
Qed.

Lemma tables_ok s : sys_reachable s -> db_ok (wd_db (sy_world s)).
Proof.
  intros [clock Hs]. revert Hs. apply (steps_invariant _ (fun s => db_ok (wd_db (sy_world s)))).
  - intros a b Ha Hab. by eapply sys_step_ok.
  - apply db_ok_empty.
Qed.

(** C6: accounts never share what must be one's own.  In every state the interleaved
    requests can reach, whatever fails on the way: display names are well-formed and no
    two accounts hold the same one, case apart; a provider's subject belongs to one
    account; an address is verified for one account only; sessions, passwords, tokens
    and identities belong to accounts that exist; no two sessions, and no two mail
    tokens, answer to the same hash; and what the profile service writes to an account
    fits its columns. *)
Theorem accounts_never_share s :
  sys_reachable s ->
  let db := wd_db (sy_world s) in
  users_ok (db_users db) /\ identities_ok (live db) (db_identities db)
  /\ credentials_ok (live db) (db_credentials db)
  /\ hashed_ok se_ID se_UserID se_TokenHash (live db) (db_sessions db)
  /\ hashed_ok et_ID et_UserID et_TokenHash (live db) (db_tokens db).
Proof. intros Hs. by destruct (tables_ok s Hs). Qed.

(** ** Tokens are spent once *)

(** [gen_random_uuid] has not repeated itself in the first [n] effects. *)
Definition ids_fresh (n : nat) : Prop :=
  forall k b k' b', (k < n)%nat -> (k' < n)%nat -> env_id k b = env_id k' b' -> k = k' /\ b = b'.

Definition spent_before (n : nat) (id : UUID) : Prop := exists k b, (k < n)%nat /\ env_id k b = id.

Record tokens_inv (s : sys) : Prop := {
  ti_db : db_ok (wd_db (sy_world s));
  ti_old : forall k t, db_tokens (wd_db (sy_world s)) !! k = Some t -> spent_before (wd_tick (sy_world s)) k;
  ti_spent : forall t, t ∈ sy_spent s ->
    spent_before (wd_tick (sy_world s)) (et_ID t)
    /\ (forall row, db_tokens (wd_db (sy_world s)) !! et_ID t = Some row -> et_UsedAt row <> None)
    /\ (exists at_, et_UsedAt t = Some at_ /\ at_ < et_ExpiresAt t);
  ti_once : NoDup (et_ID <$> sy_spent s) }.

(** What one effect can do to the token table: a row is kept, spent or dropped, or it is
    new, under the id of this effect. *)
Definition tokens_from (n : nat) (t t' : gmap UUID EmailToken) : Prop :=
  forall k row', t' !! k = Some row' ->
    (exists row, t !! k = Some row /\ (row' = row \/ exists at_, row' = spend at_ row))
    \/ k = env_id n false.

Lemma tokens_from_refl n t : tokens_from n t t.
Proof. intros k row Hk. left. eauto. Qed.

Lemma tokens_from_filter n (P : UUID * EmailToken -> Prop) `{!forall x, Decision (P x)} t : tokens_from n t (filter P t).
Proof. intros k row [Hk _]%map_lookup_filter_Some. left. eauto. Qed.

Lemma CreateUser_tokens id now name db db' u : CreateUser id now name db = inl (db', u) -> db_tokens db' = db_tokens db.
Proof. unfold CreateUser. repeat case_match; by intros [= <- _]. Qed.

Lemma CreateIdentity_tokens id now user p db db' i :
  CreateIdentity id now user p db = inl (db', i) -> db_tokens db' = db_tokens db.
Proof. unfold CreateIdentity. cbv zeta. repeat case_match; by intros [= <- _]. Qed.

Lemma UpsertCredential_tokens now user hash db db' :
  UpsertCredential now user hash db = inl db' -> db_tokens db' = db_tokens db.
Proof. unfold UpsertCredential. case_match; by intros [= <-]. Qed.

Lemma exec_query_tokens {A} (q : query A) n id' now db :
  db_ok db -> tokens_from n (db_tokens db) (db_tokens (exec_query q (env_id n false) id' now db).1).
Proof.
  intros Hdb. destruct q; cbn [exec_query fst]; try apply tokens_from_refl.
  - unfold CreateEmailAccount. destruct (CreateUser _ _ _ _) as [[db1 v]|] eqn:E1; [|apply tokens_from_refl].
    destruct (CreateIdentity _ _ _ _ _) as [[db2 j]|] eqn:E2; [|apply tokens_from_refl].
    destruct (UpsertCredential _ _ _ _) as [db3|] eqn:E3; cbn; [|apply tokens_from_refl].
    rewrite (UpsertCredential_tokens _ _ _ _ _ E3), (CreateIdentity_tokens _ _ _ _ _ _ _ E2),
      (CreateUser_tokens _ _ _ _ _ _ E1). apply tokens_from_refl.
  - unfold CreateOAuthAccount. destruct (CreateUser _ _ _ _) as [[db1 v]|] eqn:E1; [|apply tokens_from_refl].
    destruct (CreateIdentity _ _ _ _ _) as [[db2 j]|] eqn:E2; cbn; [|apply tokens_from_refl].
    rewrite (CreateIdentity_tokens _ _ _ _ _ _ _ E2), (CreateUser_tokens _ _ _ _ _ _ E1). apply tokens_from_refl.
  - destruct (CreateIdentity _ _ _ _ _) as [[db2 j]|] eqn:E2; cbn; [|apply tokens_from_refl].
    rewrite (CreateIdentity_tokens _ _ _ _ _ _ _ E2). apply tokens_from_refl.
  - unfold VerifyEmailIdentityByUser. destruct (existsb _ _); apply tokens_from_refl.
  - unfold UpdateUserSettings. destruct (db_users db !! user); apply tokens_from_refl.
  - unfold ChangeDisplayName. destruct (db_users db !! user); [|apply tokens_from_refl].
    destruct (match _ with Some _ => _ | None => _ end); [|apply tokens_from_refl].
    destruct (negb _); [apply tokens_from_refl|]. destruct (nameHeld _ _ _); apply tokens_from_refl.
  - destruct (UpsertCredential _ _ _ _) as [db'|] eqn:E; cbn; [|apply tokens_from_refl].
    rewrite (UpsertCredential_tokens _ _ _ _ _ E). apply tokens_from_refl.
  - destruct (CreateEmailToken _ _ _) as [[db' t]|] eqn:E; cbn; [|apply tokens_from_refl].
    apply CreateEmailToken_ok in E as (_ & -> & _); [|done].
    cbn. intros k row [[<- <-]|[_ Hk]]%lookup_insert_Some; [by right|]. left. eauto.
  - cbn. apply tokens_from_filter.
  - destruct (UseEmailToken _ _ _ _) as [[db' t]|] eqn:E; cbn; [|apply tokens_from_refl].
    apply UseEmailToken_inl in E as (t0 & _ & _ & _ & ->); [|done].
    cbn. intros k row [(<- & a & Ha & ->)|[_ Hk]]%lookup_alter_Some; left; eauto.
  - unfold CreateSession. destruct (bool_decide _); [apply tokens_from_refl|].
    destruct (existsb _ _); [apply tokens_from_refl|]. destruct (negb _); apply tokens_from_refl.
  - cbn. apply tokens_from_filter.
Qed.

(** One effect, on tokens and what is known of spent ones. *)
Lemma exec_tokens {X} (e : eff X) w :
  db_ok (wd_db w) ->
  tokens_from (wd_tick w) (db_tokens (wd_db w)) (db_tokens (wd_db (exec e w).2))
  /\ wd_tick (exec e w).2 = S (wd_tick w).
Proof.
  intros Hdb. destruct e as [A q| | | | | | | | |]; cbn [exec auth_interp auth_exec]; try (split; [apply tokens_from_refl|done]).
  - pose proof (exec_query_tokens q (wd_tick w) (env_id (wd_tick w) true) (wd_clock w) _ Hdb) as Ht.
    by destruct (exec_query q _ _ _ _) as [db r].
  - case_match; by split; [apply tokens_from_refl|].
  - case_match; by split; [apply tokens_from_refl|].
  - destruct (AuthLimiter.Allow _ _ _ _). by split; [apply tokens_from_refl|].
Qed.

Lemma performs_tokens {X} (e : eff X) w x w' :
  performs e w x w' -> db_ok (wd_db w) ->
  tokens_from (wd_tick w) (db_tokens (wd_db w)) (db_tokens (wd_db w')) /\ wd_tick w' = S (wd_tick w).
Proof.
  intros [E|Hf] Hdb.
  - pose proof (exec_tokens e w Hdb) as Hok. by rewrite E in Hok.
  - destruct e as [A q| | | | | | | | |]; try done; cbn in Hf.
    + destruct Hf as [_ [->| ->]]; [by split; [apply tokens_from_refl|]|]. by apply (exec_tokens (Query q)).
    + destruct Hf as [_ ->]. by split; [apply tokens_from_refl|].
Qed.

(** A request is told it spent a token only when the row was unspent and is spent now. *)
Lemma performs_spent {X} (e : eff X) w x w' t :
  performs e w x w' -> db_ok (wd_db w) -> t ∈ spentBy e x ->
  spentBy e x = [t]
  /\ exists t0, db_tokens (wd_db w) !! et_ID t = Some t0 /\ et_UsedAt t0 = None
     /\ t = spend (wd_clock w) t0 /\ wd_clock w < et_ExpiresAt t0
     /\ db_tokens (wd_db w') !! et_ID t = Some t.
Proof.
  intros Hp Hdb Ht. destruct e as [A q| | | | | | | | |]; try by apply elem_of_nil in Ht.
  destruct q; try by apply elem_of_nil in Ht. cbn in x.
  destruct Hp as [E|[-> _]]; [|by apply elem_of_nil in Ht]. cbn in E.
  destruct (UseEmailToken _ _ _ _) as [[db' t']|] eqn:Eu; cbn in E; injection E as <- <-;
    [|by apply elem_of_nil in Ht].
  apply list_elem_of_singleton in Ht as ->. split; [done|].
  apply UseEmailToken_inl in Eu as (t0 & Hk & -> & Hu & ->); [|done]. exists t0. cbn.
  unfold usable in Hu. bool_to_prop. split_and!; try done. by rewrite lookup_alter_eq, Hk.
Qed.

Lemma spent_before_S n id : spent_before n id -> spent_before (S n) id.
Proof. intros (k & b & ? & ?). exists k, b. split; [lia|done]. Qed.

Lemma effect_tokens_inv s i X (e : eff X) k x w' :
  ids_fresh (S (wd_tick (sy_world s))) -> tokens_inv s -> performs e (sy_world s) x w' ->
  tokens_inv {| sy_world := w'; sy_pool := <[i := k x]> (sy_pool s); sy_spent := spentBy e x ++ sy_spent s |}.
Proof.
  intros Hfresh [] Hp. pose proof (performs_ok _ _ _ _ Hp ti_db0) as Hok.
  destruct (performs_tokens _ _ _ _ Hp ti_db0) as [Hfrom Htick].
  assert (forall t, t ∈ spentBy e x -> spent_before (wd_tick (sy_world s)) (et_ID t)) as Hold.
  { intros t Ht. destruct (performs_spent _ _ _ _ _ Hp ti_db0 Ht) as (_ & t0 & Hk & _). by eapply ti_old0. }
  split; cbn; rewrite ?Htick.
  - done.
  - intros k' row Hk. destruct (Hfrom _ _ Hk) as [(row0 & Hk0 & _)| ->].
    + by eapply spent_before_S, ti_old0.
    + exists (wd_tick (sy_world s)), false. split; [lia|done].
  - intros t [Ht|Ht]%elem_of_app.
    + destruct (performs_spent _ _ _ _ _ Hp ti_db0 Ht) as (_ & t0 & Hk & _ & E & Hx & Hk').
      split_and!; [by apply spent_before_S, Hold| |].
      * intros row Hr. rewrite Hk' in Hr. injection Hr as <-. by rewrite E.
      * exists (wd_clock (sy_world s)). by rewrite E.
    + destruct (ti_spent0 _ Ht) as (Hb & Hrow & Hx). split_and!; [by apply spent_before_S| |done].
      intros row Hr. destruct (Hfrom _ _ Hr) as [(row0 & Hk0 & [-> |[at_ ->]])|E]; [by eapply Hrow|done|].
      destruct Hb as (n & b & Hn & En). rewrite <- En in E. apply Hfresh in E as [-> _]; lia.
  - rewrite fmap_app. apply NoDup_app. split_and!; [| |done].
    + destruct (spentBy e x) as [|t l] eqn:El; [constructor|].
      destruct (performs_spent e _ x _ t Hp ti_db0) as [El' _]; [rewrite El; left|].
      rewrite El in El'. injection El' as ->. apply NoDup_singleton.
    + intros id (t & -> & Ht)%list_elem_of_fmap (t' & E & Ht')%list_elem_of_fmap.
      destruct (performs_spent _ _ _ _ _ Hp ti_db0 Ht) as (_ & t0 & Hk & Hn & _).
      destruct (ti_spent0 _ Ht') as (_ & Hrow & _). rewrite <- E in Hrow. by eapply Hrow.
Qed.

Lemma step_tick s s' : sys_step s s' -> db_ok (wd_db (sy_world s)) ->
  (wd_tick (sy_world s) <= wd_tick (sy_world s'))%nat.
Proof. intros Hs Hdb. destruct Hs as [| | |s i X e k x w' Hp He| | | |]; cbn; try lia. destruct (performs_tokens _ _ _ _ He Hdb) as [_ ->]. lia. Qed.

Lemma step_tokens_inv s s' :
  sys_step s s' -> (ids_fresh (wd_tick (sy_world s)) -> tokens_inv s) -> db_ok (wd_db (sy_world s)) ->
  ids_fresh (wd_tick (sy_world s')) -> tokens_inv s'.
Proof.
  intros Hs Hi Hdb Hfresh.
  assert (tokens_inv s) as Hinv.
  { apply Hi. intros k b k' b' Hk Hk'. pose proof (step_tick _ _ Hs Hdb). apply Hfresh; lia. }
  clear Hi. pose proof (sys_step_ok _ _ Hs Hdb) as Hok. destruct Hs as [| | |s i X e k x w' Hp He| | | |s user at_ bio keyboard db Hu].
  4: { cbn in Hfresh. destruct (performs_tokens _ _ _ _ He Hdb) as [_ E]. rewrite E in Hfresh. by apply effect_tokens_inv. }
  7: { assert (db_tokens db = db_tokens (wd_db (sy_world s))) as Et
         by (revert Hu; unfold UpdateProfileIdentity; repeat case_match; by intros [= <-]).
       destruct Hinv; split; cbn in *; rewrite ?Et; done. }
  all: destruct Hinv; split; cbn in *; try done.
  - intros k t [Hk _]%map_lookup_filter_Some. by eapply ti_old0.
  - intros t Ht. destruct (ti_spent0 _ Ht) as (? & Hrow & ?). split_and!; [done| |done].
    intros row [Hr _]%map_lookup_filter_Some. by apply Hrow.
Qed.

Lemma reachable_tokens_inv s : sys_reachable s -> ids_fresh (wd_tick (sy_world s)) -> tokens_inv s.
Proof.
  intros [clock Hs].
  apply (steps_invariant _ (fun s => db_ok (wd_db (sy_world s)) /\ (ids_fresh (wd_tick (sy_world s)) -> tokens_inv s))
           _ _) in Hs as [_ Hs]; [done| |].
  - intros a b [Hdb Ha] Hab. split; [by eapply sys_step_ok|by apply (step_tokens_inv a)].
  - split; [apply db_ok_empty|]. intros _.
    split; cbn; [apply db_ok_empty| | |constructor]; intros *; [by rewrite lookup_empty|by intros ?%elem_of_nil].
Qed.

(** C7: a mailed token works once.  Whatever the interleaving (the same link opened
    twice at the same instant included) and whatever fails on the way, no two requests
    are ever told they spent the same token, and a token is spent before it expires. *)
Theorem tokens_spent_once s :
  sys_reachable s -> ids_fresh (wd_tick (sy_world s)) ->
  NoDup (et_ID <$> sy_spent s)
  /\ forall t, t ∈ sy_spent s -> exists at_, et_UsedAt t = Some at_ /\ at_ < et_ExpiresAt t.
Proof.
  intros Hs Hfresh. destruct (reachable_tokens_inv s Hs Hfresh). split; [done|]. intros t Ht. by apply ti_spent0.
Qed.
End world.
