(* ===== verification/AuthFunc.v ===== *)
(** * internal/auth: what an undisturbed request does

    [run] of the handlers, branch by branch, on any well-formed database: sessions,
    sign-in, password resets; linking a provider's account; registering. *)

From Stdlib Require Import Strings.Ascii.
From S2P Require Import Prelude GoStd Effects Uuid Httpx Json AuthLimiter AuthText AuthPassword AuthStore AuthFlow AuthHandlers AuthInv.

Open Scope Z_scope.

Section func.
Context `{Uuid} `{PgText} `{Argon2} `{!Env}.

(** The part of a world the requests' answers depend on, besides the tables. *)
Definition slotFree (w : world) : Prop :=
  (cf_HashConcurrency env_cfg <=? 0) || (wd_hashing w <? cf_HashConcurrency env_cfg) = true.

Lemma hashPassword_run pw w :
  slotFree w -> exists salt w', run (hashPassword pw) w = (inl (HashPassword salt pw), w')
    /\ wd_db w' = wd_db w /\ wd_clock w' = wd_clock w /\ wd_outbox w' = wd_outbox w.
Proof.
  intros Hs. unfold hashPassword. cbn [bind eff_ run exec auth_interp auth_exec]. rewrite Hs. cbn [run bind].
  by eexists _, _.
Qed.

Lemma hashPassword_full pw w :
  ~ slotFree w -> run (hashPassword pw) w = (inr apiErrOverloaded, tick w).
Proof.
  intros Hs. unfold hashPassword. cbn [bind eff_ run exec auth_interp auth_exec]. unfold slotFree in Hs. by destruct (_ || _).
Qed.

Lemma verifyPassword_run pw enc w :
  slotFree w -> exists w', run (verifyPassword pw enc) w = (inl (VerifyPassword pw enc), w')
    /\ wd_db w' = wd_db w /\ wd_clock w' = wd_clock w.
Proof.
  intros Hs. unfold verifyPassword. cbn [bind eff_ run exec auth_interp auth_exec]. rewrite Hs. cbn [run bind]. by eexists _.
Qed.

(** ** Sessions *)

(** The account a cookie stands for at an instant. *)
Definition sessionUser (db : authDB) (now : Z) (cookie : option string) : option User :=
  value ← cookie; hash ← hashToken value;
  match GetSessionByTokenHash hash db with
  | inl s => if se_ExpiresAt s <=? now then None else db_users db !! se_UserID s
  | inr _ => None
  end.

Lemma one_inr_NoRows {A} (p : A -> bool) (t : gmap UUID A) e : one p t = inr e -> e = NoRows.
Proof. by intros [? _]%one_inr. Qed.

Lemma GetSession_inl hash db s :
  GetSessionByTokenHash hash db = inl s -> exists k, db_sessions db !! k = Some s /\ se_TokenHash s = hash.
Proof.
  intros (k & Hk & Hs)%one_inl. unfold sessionOf in Hs. bool_to_prop. by exists k.
Qed.

Lemma GetSession_unique db k s :
  hashed_ok se_ID se_UserID se_TokenHash (live db) (db_sessions db) -> db_sessions db !! k = Some s ->
  GetSessionByTokenHash (se_TokenHash s) db = inl s.
Proof.
  intros Hok Hk. eapply one_unique; [exact Hk|unfold sessionOf; by rewrite String.eqb_refl|].
  intros k' s' Hk' Hs. unfold sessionOf in Hs. bool_to_prop.
  assert (k' = k) as -> by (eapply (ho_hash _ _ _ _ _ Hok); eauto). congruence.
Qed.

Lemma sessionUser_Some db now cookie u :
  hashed_ok se_ID se_UserID se_TokenHash (live db) (db_sessions db) ->
  sessionUser db now cookie = Some u <->
  exists value hash k s, cookie = Some value /\ hashToken value = Some hash
    /\ db_sessions db !! k = Some s /\ se_TokenHash s = hash /\ now < se_ExpiresAt s
    /\ db_users db !! se_UserID s = Some u.
Proof.
  intros Hok. unfold sessionUser. split.
  - intros (value & -> & Hv)%bind_Some. apply bind_Some in Hv as (hash & Hh & Hs).
    destruct (GetSessionByTokenHash hash db) as [s|] eqn:Eg; [|done]. destruct (_ <=? _) eqn:Ex; [done|]. bool_to_prop.
    apply GetSession_inl in Eg as (k & Hk & E). exists value, hash, k, s. by split_and!.
  - intros (value & hash & k & s & -> & Hh & Hk & <- & Hx & Hu). cbn. rewrite Hh. cbn.
    rewrite (GetSession_unique _ _ _ Hok Hk). by rewrite (proj2 (Z.leb_gt _ _)).
Qed.

(** What a change of the session table can grant: nothing, when every row it leaves was
    there, under the same hash and account, and unexpired if it is unexpired now. *)
Lemma sessions_shrink db db' now now' :
  db_ok db -> db_ok db' -> db_users db' = db_users db ->
  (forall k s', db_sessions db' !! k = Some s' -> now' < se_ExpiresAt s' ->
     exists s, db_sessions db !! k = Some s /\ se_TokenHash s' = se_TokenHash s /\ se_UserID s' = se_UserID s
               /\ now < se_ExpiresAt s) ->
  forall cookie u, sessionUser db' now' cookie = Some u -> sessionUser db now cookie = Some u.
Proof.
  intros Hdb Hdb' Hu Hs cookie u (value & hash & k & s' & -> & Hh & Hk & <- & Hx & Hl)%sessionUser_Some;
    [|apply Hdb'].
  destruct (Hs _ _ Hk Hx) as (s & Hk0 & E1 & E2 & Hx0). apply sessionUser_Some; [apply Hdb|].
  exists value, (se_TokenHash s), k, s. rewrite E1 in Hh. rewrite E2, Hu in Hl. by split_and!.
Qed.

(** C9: a session is what its stored row says.  An undisturbed request is taken for the
    account whose stored, unexpired session its cookie hashes to, and for nobody
    otherwise: without a cookie, with one that is not a token, with a token no session
    is stored under, or whose session has expired, or whose account is gone.  The check
    changes sessions only, and afterwards no cookie stands for an account it did not
    stand for before. *)
Theorem session_is_its_row r w :
  db_ok (wd_db w) ->
  let '(res, w') := run (authenticate r) w in
  res = match sessionUser (wd_db w) (wd_clock w) (rq_Session r) with Some u => inl u | None => inr true end
  /\ (exists f, wd_db w' = setSessions f (wd_db w))
  /\ forall now cookie u, wd_clock w <= now ->
       sessionUser (wd_db w') now cookie = Some u -> sessionUser (wd_db w) (wd_clock w) cookie = Some u.
Proof.
  intros Hdb.
  assert (forall w' now cookie u, wd_db w' = wd_db w -> wd_clock w <= now ->
    sessionUser (wd_db w') now cookie = Some u -> sessionUser (wd_db w) (wd_clock w) cookie = Some u) as Hsame.
  { intros w' now cookie u -> Hn. apply sessions_shrink; [done..|]. intros k s Hk Hx. exists s. split_and!; [done..|lia]. }
  unfold authenticate, sessionUser at 1. destruct (rq_Session r) as [value|]; cbn [run mbind option_bind];
    [|split; [done|]; split; [exists (fun x => x); by destruct (wd_db w)|by intros; eapply Hsame]].
  destruct (hashToken value) as [hash|] eqn:Eh; cbn [run mbind option_bind];
    [|split; [done|]; split; [exists (fun x => x); by destruct (wd_db w)|by intros; eapply Hsame]].
  cbn [bind query_ eff_ run exec auth_interp auth_exec exec_query].
  destruct (GetSessionByTokenHash hash (wd_db w)) as [s|e] eqn:Eg; cbn [mapped].
  2:{ apply one_inr_NoRows in Eg as ->. cbn [mapErr run].
      split; [done|]. split; [exists (fun x => x); by destruct (wd_db w)|by intros; eapply Hsame]. }
  pose proof (GetSession_inl _ _ _ Eg) as (k & Hk & Ehash).
  cbn [bind query_ eff_ run exec auth_interp auth_exec wd_clock tick withDB].
  destruct (se_ExpiresAt s <=? wd_clock w) eqn:Ex; cbn [bind query_ eff_ run exec auth_interp auth_exec exec_query wd_db tick withDB].
  { split; [done|]. split; [by eexists|]. intros now cookie u Hn.
    apply sessions_shrink; [done|by apply filter_sessions_ok|done|]. cbn.
    intros k' s' [Hk' _]%map_lookup_filter_Some Hx. exists s'. split_and!; [done..|lia]. }
  bool_to_prop. destruct (ho_row _ _ _ _ _ (ok_sessions _ Hdb) _ _ Hk) as [Hid Hlive].
  destruct Hlive as [u Hu]. set (touch := sessionRefreshInterval <? _).
  destruct touch; cbn [bind query_ eff_ run exec auth_interp auth_exec exec_query wd_db tick withDB wd_clock].
  - unfold GetUserByID at 1. change (db_users (TouchSession _ _ _ _)) with (db_users (wd_db w)). rewrite Hu.
    cbn [mapped run]. split; [done|]. split; [by eexists|]. intros now cookie v Hn. cbn [wd_db tick withDB].
    apply sessions_shrink; [done|by apply alter_sessions_ok|done|]. cbn.
    intros k' s' [(<- & s0 & Hs0 & ->)|[_ Hk']]%lookup_alter_Some Hx.
    + rewrite Hid, Hk in Hs0. injection Hs0 as <-. exists s. rewrite Hid. by split_and!.
    + exists s'. split_and!; [done..|lia].
  - unfold GetUserByID. rewrite Hu. cbn [mapped run]. split; [done|].
    split; [exists (fun x => x); by destruct (wd_db w)|]. intros now cookie v Hn. by apply Hsame.
Qed.

(** ** Login *)

(** The identity an address and a password belong to. *)
Definition knows (db : authDB) (email password : string) : option Identity :=
  match GetEmailIdentityByEmail (emailPtr email) db with
  | inl i =>
    match db_credentials db !! id_UserID i with
    | Some c => match VerifyPassword password (cr_Hash c) with Some true => Some i | _ => None end
    | None => None
    end
  | inr _ => None
  end.

(** The stored hashes, and the decoy, are in the form [HashPassword] writes. *)
Definition hashesReadable (db : authDB) : Prop :=
  decodeHash (cf_dummyHash env_cfg) <> None
  /\ forall k c, db_credentials db !! k = Some c -> decodeHash (cr_Hash c) <> None.

Lemma readable_verify pw enc : decodeHash enc <> None -> exists b, VerifyPassword pw enc = Some b.
Proof. unfold VerifyPassword. destruct (decodeHash enc) as [[[? ?] ?]|]; [by eexists|done]. Qed.

(** What the environment draws next is in no table. *)
Definition noCollision (w : world) : Prop :=
  forall n k s, db_sessions (wd_db w) !! k = Some s ->
    k <> env_id n false /\ se_TokenHash s <> Sha256.Sum256 (env_bytes n tokenBytesLen).

Lemma decoy_run pw w :
  slotFree w -> decodeHash (cf_dummyHash env_cfg) <> None ->
  exists w', run (decoy pw) w = (fail apiErrInvalidCredentials, w') /\ wd_db w' = wd_db w.
Proof.
  intros Hs Hd. destruct (readable_verify pw _ Hd) as [b Hb].
  unfold decoy. rewrite run_bind. destruct (verifyPassword_run pw (cf_dummyHash env_cfg) w Hs) as (w' & -> & Hw & _).
  rewrite Hb. by exists w'.
Qed.

(** A session just issued is accepted until it expires. *)
Lemma issueSession_run `{!EnvLaws} u w :
  noCollision w -> live (wd_db w) u ->
  exists token s w', run (issueSession u) w = (Some (SessionCookie token), w')
    /\ wd_db w' = setSessions (insert (se_ID s) s) (wd_db w) /\ wd_clock w' = wd_clock w
    /\ hashToken token = Some (se_TokenHash s) /\ se_UserID s = u
    /\ se_ExpiresAt s = wd_clock w + cf_SessionTTL env_cfg
    /\ forall k s', db_sessions (wd_db w) !! k = Some s' -> se_TokenHash s' <> se_TokenHash s.
Proof.
  intros Hc Hu. unfold issueSession. cbn [bind eff_ run exec auth_interp auth_exec].
  set (raw := env_bytes (wd_tick w) tokenBytesLen).
  assert (hashToken (newToken raw).1 = Some (newToken raw).2) as Hraw by (apply hashToken_newToken, env_bytes_len; done).
  unfold newToken in *. cbn [fst snd] in Hraw. cbn [bind query_ eff_ run exec auth_interp auth_exec exec_query wd_tick tick wd_db wd_clock].
  unfold CreateSession.
  destruct (bool_decide (is_Some _)) eqn:E1.
  { bool_to_prop. destruct E1 as [s Hs]. by destruct (Hc (S (S (wd_tick w))) _ _ Hs) as [[] _]. }
  destruct (existsb _ _) eqn:E2.
  { apply existsb_exists in E2 as (s & Hin & Hs). apply list_elem_of_In, table_rows in Hin as [k Hk].
    unfold sessionOf in Hs. bool_to_prop. by destruct (Hc (wd_tick w) _ _ Hk) as [_ []]. }
  rewrite bool_decide_eq_true_2 by done. cbn [negb mapped committed run wd_db wd_clock tick withDB].
  eexists _, {| se_ID := env_id (S (S (wd_tick w))) false; se_TokenHash := Sha256.Sum256 raw; se_UserID := u;
    se_CreatedAt := wd_clock w; se_ExpiresAt := wd_clock w + cf_SessionTTL env_cfg; se_LastSeenAt := wd_clock w |}, _.
  split_and!; try done. intros k s' Hk. by apply (Hc (wd_tick w) _ _ Hk).
Qed.


(** ** Password reset *)

(** The reset token a body carries, if it can be spent now: the spent row. *)
Definition redeems (now : Z) (db : authDB) (plaintext purpose : string) : option (authDB * EmailToken) :=
  hash ← hashToken plaintext;
  match UseEmailToken now hash purpose db with inl r => Some r | inr _ => None end.

Lemma UseEmailToken_inr now hash purpose db e : UseEmailToken now hash purpose db = inr e -> e = NoRows.
Proof. unfold UseEmailToken. destruct (one _ _) as [t|e'] eqn:E; [done|]. intros [= <-]. by apply one_inr_NoRows in E. Qed.

(** A token row that has been spent cannot be spent again. *)
Lemma spent_unusable now now' hash hash' purpose purpose' db db' t :
  db_ok db -> UseEmailToken now hash purpose db = inl (db', t) ->
  hash' = hash -> UseEmailToken now' hash' purpose' db' = inr NoRows.
Proof.
  intros Hdb (t0 & Hk & -> & Hu & ->)%UseEmailToken_inl ->; [|done]. unfold UseEmailToken.
  destruct (one _ _) as [t1|e] eqn:E; [|by apply one_inr_NoRows in E as ->].
  apply one_inl in E as (k & Hk1 & Hu1). cbn in Hk1. unfold usable in Hu, Hu1. bool_to_prop.
  apply lookup_alter_Some in Hk1 as [(<- & t2 & Ht2 & ->)|[Hne Hk1]]; [done|].
  exfalso. apply Hne. eapply (ho_hash _ _ _ _ _ (ok_tokens _ Hdb)); [exact Hk|exact Hk1|congruence].
Qed.

(** The rows of the account's sessions are gone, everyone else's are there. *)
Lemma revoked_sessions db user now cookie u :
  db_ok db -> sessionUser (DeleteUserSessions user db) now cookie = Some u <->
  sessionUser db now cookie = Some u /\ us_ID u <> user.
Proof.
  intros Hdb. assert (db_ok (DeleteUserSessions user db)) as Hdb' by by apply filter_sessions_ok.
  rewrite !sessionUser_Some by (apply Hdb || apply Hdb').
  split.
  - intros (v & h & k & s & -> & Hh & [Hk Hne]%map_lookup_filter_Some & Es & Hx & Hu). cbn in Hne, Hu.
    destruct (uo_row _ (ok_users _ Hdb) _ _ Hu) as [Hid _]. split; [by exists v, h, k, s|by rewrite Hid].
  - intros [(v & h & k & s & -> & Hh & Hk & Es & Hx & Hu) Hne]. exists v, h, k, s. split_and!; try done.
    apply map_lookup_filter_Some. split; [done|]. cbn. intros E.
    destruct (uo_row _ (ok_users _ Hdb) _ _ Hu) as [Hid _]. congruence.
Qed.

(** Sessions are read from two tables, identities from one. *)
Lemma sessionUser_ext db db' now cookie :
  db_sessions db' = db_sessions db -> db_users db' = db_users db -> sessionUser db' now cookie = sessionUser db now cookie.
Proof. intros Hs Hu. unfold sessionUser, GetSessionByTokenHash. by rewrite Hs, Hu. Qed.

Lemma redeems_ext now db db' plaintext purpose :
  db_tokens db' = db_tokens db -> redeems now db plaintext purpose = None -> redeems now db' plaintext purpose = None.
Proof.
  intros Ht. unfold redeems, UseEmailToken. destruct (hashToken plaintext); [|done]. cbn. rewrite Ht.
  by destruct (one _ _).
Qed.

Lemma redeems_spent now now' db db1 t plaintext purpose purpose' :
  db_ok db -> redeems now db plaintext purpose = Some (db1, t) ->
  redeems now' db1 plaintext purpose' = None /\ db_ok db1 /\ live db (et_UserID t)
  /\ exists f, db1 = setTokens f db.
Proof.
  intros Hdb. unfold redeems. destruct (hashToken plaintext) as [hash|]; [|done]. cbn.
  destruct (UseEmailToken now hash purpose db) as [[db' t']|] eqn:Eu; [|done]. intros [= -> ->].
  rewrite (spent_unusable _ now' _ hash _ purpose' _ _ _ Hdb Eu eq_refl). split; [done|].
  pose proof (exec_query_ok (qUseEmailToken hash purpose) uuid_Nil uuid_Nil now db Hdb) as Hok. cbn in Hok.
  rewrite Eu in Hok. split; [done|]. apply UseEmailToken_inl in Eu as (t0 & Hk & -> & _ & ->); [|done].
  split; [|by eexists]. by apply (ho_row _ _ _ _ _ (ok_tokens _ Hdb) _ _ Hk).
Qed.

(** Marking verified looks at the identities alone. *)
Lemma Verify_ext user db db' :
  db_identities db' = db_identities db ->
  VerifyEmailIdentityByUser user db'
  = match VerifyEmailIdentityByUser user db with
    | inl db2 => inl (setIdentities (fun _ => db_identities db2) db')
    | inr e => inr e
    end.
Proof.
  intros Hi. unfold VerifyEmailIdentityByUser, emailConflict. rewrite Hi. destruct (existsb _ _); [done|].
  unfold setIdentities. cbn. by rewrite Hi.
Qed.

Lemma Verify_inr user db e : VerifyEmailIdentityByUser user db = inr e -> mapErr e = ErrEmailOwnedByOtherUser.
Proof. unfold VerifyEmailIdentityByUser. destruct (existsb _ _); [|done]. by intros [= <-]. Qed.

Lemma Verify_marks user db db2 k i :
  VerifyEmailIdentityByUser user db = inl db2 -> db_identities db2 !! k = Some i -> emailOf user i = true ->
  id_EmailVerified i = true.
Proof.
  unfold VerifyEmailIdentityByUser. destruct (existsb _ _); [done|]. intros [= <-]. cbn.
  rewrite lookup_fmap. intros (j & Hj & ->)%fmap_Some. destruct (emailOf user j) eqn:Ej; [done|]. by rewrite Ej.
Qed.

End func.

(** * internal/auth: signing in and linking through a provider

    What an undisturbed OAuth callback does with an identity the provider vouches for:
    a known one signs in to its account, and one that comes with the link cookie is
    attached to the account the cookie names, whoever sent it. *)

Section link.
Context `{Uuid} `{PgText} `{Argon2} `{!Env}.

(** The request comes back from the provider in order: the provider is configured, the
    state is the one its cookie holds, and the code is exchanged for [info]. *)
Record returns (r : request) (info : oauthUser) : Prop := {
  rt_enabled : enabled (rq_Provider r) = true;
  rt_state : rq_State r = Some (rq_QueryState r);
  rt_state_set : rq_QueryState r <> "";
  rt_code : rq_QueryCode r <> "";
  rt_subject : ou_Subject info <> "";
  rt_profile : exists v, rq_Verifier r = Some v
    /\ forall n, env_exchange n (rq_Provider r) (rq_QueryCode r) v = Profile info }.

(** [info] as the callback passes it on. *)
Definition normalized (info : oauthUser) : oauthUser :=
  {| ou_Subject := ou_Subject info; ou_Email := normalizeEmail env_lower (ou_Email info);
     ou_EmailVerified := ou_EmailVerified info; ou_Name := ou_Name info |}.

Definition completes (r : request) (info : oauthUser) : prog answer :=
  match rq_Link r with
  | Some link => if negb (link =s? "") then completeLink (rq_Provider r) link info
                 else completeLogin (rq_Provider r) info
  | None => completeLogin (rq_Provider r) info
  end.

Lemma callback_run r info w :
  returns r info -> run (handleOAuthCallback r) w = run (completes r (normalized info)) (tick w).
Proof.
  intros [He Hs Hs' Hc Hsub (v & Hv & Hx)]. unfold handleOAuthCallback. rewrite He, Hs, Hv. cbn [negb].
  apply String.eqb_neq in Hs', Hc, Hsub. rewrite Hs', Hc, String.eqb_refl. cbn [negb orb bind eff_ run exec auth_interp auth_exec].
  rewrite Hx. by rewrite Hsub.
Qed.

(** A session is issued for the account of a known identity. *)
Lemma signIn_run `{!EnvLaws} user w :
  noCollision w -> live (wd_db w) user ->
  exists token s w', run (signIn user) w = ((clearFlowCookies ++ [SessionCookie token], redirectResult ""), w')
    /\ wd_db w' = setSessions (insert (se_ID s) s) (wd_db w)
    /\ hashToken token = Some (se_TokenHash s) /\ se_UserID s = user
    /\ se_ExpiresAt s = wd_clock w + cf_SessionTTL env_cfg /\ wd_clock w' = wd_clock w
    /\ forall k s', db_sessions (wd_db w) !! k = Some s' -> se_TokenHash s' <> se_TokenHash s.
Proof.
  intros Hc Hl. unfold signIn. rewrite run_bind.
  destruct (issueSession_run user w Hc Hl) as (token & s & w' & -> & Hdb & Hclk & Hh & Hu & Hx & Hnew).
  by exists token, s, w'.
Qed.

(** A cookie just issued stands for the account. *)
Lemma issued_session db s token now u :
  db_users db !! se_UserID s = Some u -> hashToken token = Some (se_TokenHash s) -> now < se_ExpiresAt s ->
  (forall k s', db_sessions db !! k = Some s' -> se_TokenHash s' <> se_TokenHash s) ->
  sessionUser (setSessions (insert (se_ID s) s) db) now (Some token) = Some u.
Proof.
  intros Hu Hh Hx Hnew. unfold sessionUser. cbn [mbind option_bind]. rewrite Hh. cbn [mbind option_bind].
  assert (GetSessionByTokenHash (se_TokenHash s) (setSessions (insert (se_ID s) s) db) = inl s) as ->.
  { eapply one_unique; [by cbn; rewrite lookup_insert_eq|unfold sessionOf; by rewrite String.eqb_refl|].
    intros k' s'. cbn. intros [[<- <-]|[_ Hk']]%lookup_insert_Some Hs'; [done|].
    unfold sessionOf in Hs'. bool_to_prop. by destruct (Hnew _ _ Hk'). }
  by rewrite (proj2 (Z.leb_gt _ _)) by done.
Qed.

(** Whether the provider's subject is somebody's. *)
Lemma subject_known provider subject k i db :
  identities_ok (live db) (db_identities db) -> db_identities db !! k = Some i ->
  id_Provider i = provider -> id_Subject i = subject ->
  GetIdentityByProviderSubject provider subject db = inl i.
Proof.
  intros Hok Hk <- <-. eapply one_unique; [exact Hk|unfold sameSubject; by rewrite !String.eqb_refl|].
  intros k' i' Hk' Hs. unfold sameSubject in Hs. bool_to_prop.
  assert (k' = k) as -> by (eapply (io_subjects _ _ Hok); eauto). congruence.
Qed.

(** An identity that is nobody's, without a verified address, can be given to any
    account there is. *)
Lemma CreateIdentity_free id now user p db :
  validProvider (ip_Provider p) = true -> ip_Provider p <> ProviderEmail -> ip_EmailVerified p = false ->
  db_identities db !! id = None -> live db user ->
  GetIdentityByProviderSubject (ip_Provider p) (ip_Subject p) db = inr NoRows ->
  exists i, CreateIdentity id now user p db = inl (setIdentities (insert id i) db, i)
    /\ id_UserID i = user /\ id_Provider i = ip_Provider p /\ id_Subject i = ip_Subject p.
Proof.
  intros Hv He Hver Hid Hl [_ Hn]%one_inr. unfold CreateIdentity. cbv zeta. unfold validProvider in Hv.
  rewrite Hv. apply String.eqb_neq in He. rewrite He, Hver, Hid. cbn [negb andb].
  rewrite (bool_decide_eq_false_2 (is_Some None)) by (by intros [? ?]).
  assert (existsb (sameSubject (ip_Provider p) (ip_Subject p)) (rows (db_identities db)) = false) as ->.
  { apply not_true_iff_false. intros (i & Hin & Hi)%existsb_exists. apply list_elem_of_In, table_rows in Hin as [k Hk].
    by rewrite (Hn _ _ Hk) in Hi. }
  rewrite bool_decide_eq_true_2 by done. by eexists.
Qed.

(** The request carries no session, only a link cookie it wrote itself. *)
Record forged (r : request) (victim : UUID) : Prop := {
  fg_anonymous : rq_Session r = None;
  fg_link : rq_Link r = Some (uuid_String victim) }.

(** C8: a link cookie is believed.  The cookie that says which account a provider's
    identity is to be attached to is the account's id in the clear, and the callback
    asks for no session: whoever sends one that names somebody else's account, with an
    identity of their own that the provider vouches for, has it attached to that account,
    and their next sign-in with it is a session of the account. *)
Theorem forged_link_takeover `{!EnvLaws} `{!UuidLaws} r r' info victim w :
  returns r info -> returns r' info -> forged r victim ->
  rq_Link r' = None -> rq_Provider r' = rq_Provider r ->
  validProvider (rq_Provider r) = true -> rq_Provider r <> ProviderEmail ->
  uuid_String victim <> "" -> ou_EmailVerified info = false ->
  db_ok (wd_db w) -> noCollision w -> live (wd_db w) victim -> 0 < cf_SessionTTL env_cfg ->
  (forall n, db_identities (wd_db w) !! env_id n false = None) ->
  GetIdentityByProviderSubject (rq_Provider r) (ou_Subject info) (wd_db w) = inr NoRows ->
  let '(a1, w1) := run (handleOAuthCallback r) w in
  let '(a2, w2) := run (handleOAuthCallback r') w1 in
  a1 = (clearFlowCookies, Redirect "linked" (rq_Provider r))
  /\ exists token u, SessionCookie token ∈ a2.1 /\ us_ID u = victim
       /\ sessionUser (wd_db w2) (wd_clock w2) (Some token) = Some u.
Proof.
  intros Hr Hr' [_ Hlink] Hnolink Hprov Hvalid Hnotmail Hstr Hver Hdb Hc Hl Httl Hfresh Hfree.
  rewrite (callback_run r info w Hr). unfold completes. rewrite Hlink. apply String.eqb_neq in Hstr. rewrite Hstr.
  cbn [negb]. unfold completeLink. rewrite Parse_String. cbn [bind query_ eff_ run exec auth_interp auth_exec exec_query wd_db tick withDB].
  change (ou_Subject (normalized info)) with (ou_Subject info). rewrite Hfree. cbn [mapped mapErr].
  cbn [bind query_ eff_ run exec auth_interp auth_exec exec_query wd_db tick withDB wd_clock wd_tick].
  destruct (CreateIdentity_free (env_id (S (S (wd_tick w))) false) (wd_clock w) victim
    {| ip_Provider := rq_Provider r; ip_Subject := ou_Subject info; ip_Email := ou_Email (normalized info);
       ip_EmailVerified := ou_EmailVerified (normalized info) |} (wd_db w)) as (i & E & Hiu & Hip & His); [done..|].
  rewrite E. cbn [mapped committed run]. cbn in Hip, His.
  pose proof (CreateIdentity_ok _ _ _ _ _ _ _ Hdb E) as Hdb1.
  rewrite (callback_run r' info _ Hr'). unfold completes. rewrite Hnolink. unfold completeLogin.
  cbn [bind query_ eff_ run exec auth_interp auth_exec exec_query wd_db tick withDB wd_clock wd_tick].
  change (ou_Subject (normalized info)) with (ou_Subject info).
  rewrite (subject_known (rq_Provider r') (ou_Subject info) (env_id (S (S (wd_tick w))) false) i)
    by first [apply Hdb1|by cbn; rewrite lookup_insert_eq|congruence].
  cbn [mapped bind run]. rewrite Hiu.
  match goal with |- context [run (signIn victim) ?w0] =>
    destruct (signIn_run victim w0 Hc Hl) as (token & s & w2 & -> & Hdb2 & Hh & Hus & Hx & Hclk & Hnew) end.
  split; [done|]. destruct Hl as [u Hu]. exists token, u. split; [apply elem_of_app; right; by left|].
  split; [by destruct (uo_row _ (ok_users _ Hdb) _ _ Hu)|].
  rewrite Hdb2, Hclk. apply issued_session; [by rewrite Hus|done| |done]. rewrite Hx. cbn. lia.
Qed.
End link.

(** * internal/auth: registering

    The whole of register.go's first handler, branch by branch, on any well-formed
    database. *)

Section register.
Context `{Uuid} `{PgText} `{Argon2} `{!Env}.

(** ** The server's rules are at least the database's *)

Lemma ascii_runes l : Forall (fun b => 0 <= b < 0x80) l -> (Utf8.chunks l).*1 = l.
Proof.
  induction l as [|b l IH]; [done|]. intros [Hb Hl]%Forall_cons. cbn [Utf8.chunks].
  rewrite (proj2 (Z.ltb_lt _ _)) by lia. cbn. by rewrite IH.
Qed.

Lemma displayNameCheck_valid name : validDisplayName name = true -> displayNameCheck name = true.
Proof.
  intros Hv. pose proof (validDisplayName_spec _ Hv) as [Hb Hn]. unfold displayNameCheck, Utf8.rune_count, Utf8.runes.
  rewrite ascii_runes by (eapply Forall_impl; [exact Hb|apply name_byte_range]).
  unfold displayNameMinLen, displayNameMaxLen in Hn.
  rewrite !(proj2 (Z.leb_le _ _)) by lia. unfold validDisplayName in Hv. bool_to_prop.
  by destruct (displayNameRe name).
Qed.

Lemma emailPtr_valid email : validateEmail email = true -> emailPtr email = Some email.
Proof. unfold emailPtr. destruct (email =s? "") eqn:E; [|done]. bool_to_prop. by subst. Qed.

(** ** Creating the account *)

(** The ids and the token drawn next are in no table. *)
Definition idsUnused (db : authDB) : Prop :=
  forall n b, db_users db !! env_id n b = None /\ db_identities db !! env_id n b = None.

(** Identities of provider email are filed under the address they are for. *)
Definition mailSubjects (db : authDB) : Prop :=
  forall k i, db_identities db !! k = Some i -> id_Provider i = ProviderEmail -> id_Email i = Some (id_Subject i).

(** An account that does not exist yet holds no name. *)
Lemma nameHeld_new id name db :
  users_ok (db_users db) -> db_users db !! id = None ->
  nameHeld id name db = existsb (fun u => ci_eq (us_DisplayName u) name) (rows (db_users db)).
Proof.
  intros Hok Hid. unfold nameHeld. apply eq_true_iff_eq. rewrite !existsb_exists. split.
  - intros (u & Hin & Hu). exists u. bool_to_prop. naive_solver.
  - intros (u & Hin & Hu). exists u. split; [done|]. apply list_elem_of_In, table_rows in Hin as [k Hk].
    destruct (uo_row _ Hok _ _ Hk) as [E _]. rewrite bool_decide_eq_false_2 by (intros ?; congruence). done.
Qed.

(** The new account, its unverified address and its password. *)
Definition newUser (id : UUID) (now : Z) (name : string) : User :=
  {| us_ID := id; us_DisplayName := name; us_CreatedAt := now; us_ProfilePublic := true;
     us_KeyboardPublic := false; us_UpdatedAt := now; us_Role := "player";
     us_Bio := None; us_Keyboard := None; us_DisplayNameChangedAt := None |}.
Definition newAddress (id user : UUID) (now : Z) (email : string) : Identity :=
  {| id_ID := id; id_UserID := user; id_Provider := ProviderEmail; id_Subject := email;
     id_Email := Some email; id_EmailVerified := false; id_CreatedAt := now |}.

Definition accountAdded (uid iid : UUID) (now : Z) (name email hash : string) (db : authDB) : authDB :=
  setCredentials (insert uid {| cr_UserID := uid; cr_Hash := hash; cr_UpdatedAt := now |})
    (setIdentities (insert iid (newAddress iid uid now email))
      (setUsers (insert uid (newUser uid now name)) db)).

Lemma address_free email db :
  validateEmail email = true -> mailSubjects db -> GetEmailIdentityByEmail (emailPtr email) db = inr NoRows ->
  existsb (sameSubject ProviderEmail email) (rows (db_identities db)) = false.
Proof.
  intros Hv Hm [_ Hn]%one_inr. apply not_true_iff_false. intros (i & Hin & Hi)%existsb_exists.
  apply list_elem_of_In, table_rows in Hin as [k Hk]. unfold sameSubject in Hi.
  apply andb_true_iff in Hi as [Hp%String.eqb_eq Hs%String.eqb_eq].
  pose proof (Hn _ _ Hk) as Hf. cbv beta in Hf. rewrite (emailPtr_valid _ Hv) in Hf. unfold hasEmail in Hf.
  rewrite (Hm _ _ Hk) in Hf by done. rewrite Hp, Hs in Hf.
  unfold ci_eq in Hf. by rewrite !String.eqb_refl in Hf.
Qed.

Lemma CreateEmailAccount_run uid iid now name email hash db :
  validDisplayName name = true -> validateEmail email = true -> pg_lower email = email ->
  db_users db !! uid = None -> db_identities db !! iid = None -> mailSubjects db ->
  GetEmailIdentityByEmail (emailPtr email) db = inr NoRows ->
  CreateEmailAccount uid iid now {| ea_DisplayName := name; ea_Email := email; ea_PasswordHash := hash |} db
  = if nameHeld uid name db then inr ErrDisplayNameTaken
    else inl (accountAdded uid iid now name email hash db,
              (newUser uid now name, newAddress iid uid now email)).
Proof.
  intros Hn Hv Hl Hu Hi Hm Hg. unfold CreateEmailAccount, CreateUser. cbn [ea_DisplayName ea_Email ea_PasswordHash].
  rewrite displayNameCheck_valid, Hu by done. cbn [negb].
  rewrite (bool_decide_eq_false_2 (is_Some None)) by (by intros [? ?]).
  destruct (nameHeld _ _ _); [done|]. unfold CreateIdentity.
  cbn [ip_Provider ip_Subject ip_Email ip_EmailVerified us_ID andb orb negb].
  rewrite Hl, !String.eqb_refl, !orb_true_r. cbn [negb andb setUsers db_identities].
  rewrite Hi.
  rewrite (bool_decide_eq_false_2 (is_Some None)) by (by intros [? ?]).
  rewrite (address_free email db Hv Hm Hg). cbn [db_users setUsers].
  rewrite bool_decide_eq_true_2 by (rewrite lookup_insert_eq; by eexists). cbn [negb].
  unfold UpsertCredential. cbn [setIdentities setUsers db_users].
  rewrite bool_decide_eq_true_2 by (rewrite lookup_insert_eq; by eexists). cbn [negb].
  by rewrite (emailPtr_valid _ Hv).
Qed.

(** Mailing the link touches the tokens only. *)
Lemma sendVerification_run user email w :
  exists f w', run (sendVerification user email) w = (tt, w') /\ wd_db w' = setTokens f (wd_db w).
Proof.
  unfold sendVerification, issueEmailToken. cbn [bind query_ eff_ run exec auth_interp auth_exec exec_query newToken].
  destruct (CreateEmailToken _ _ _) as [[db' t]|e] eqn:E; cbn [mapped committed bind run exec auth_interp auth_exec].
  - unfold CreateEmailToken in E. repeat (case_match; [done|]). injection E as <- <-.
    destruct (env_mailer _); cbn [bind run]; eexists (fun ts => insert _ _ (filter _ ts)), _; (split; [reflexivity|]); done.
  - eexists (fun ts => filter _ ts), _. split; [reflexivity|]. done.
Qed.

End register.
