(* ===== verification/AuthScenes.v ===== *)
(** * internal/auth at work

    A small concrete environment, the witnesses of the theorems about accounts, and a
    schedule of requests that leaves an address marked as verified without anybody
    having been written to at it. *)

From Stdlib Require Import Strings.Ascii Strings.Byte.
From S2P Require Import Prelude Effects GoStd Uuid Json Httpx AuthLimiter AuthText AuthPassword AuthStore AuthFlow AuthHandlers AuthAuthority AuthInv AuthWorld AuthFunc.

Open Scope Z_scope.

(** ** The environment *)

#[export] Instance asciiText : PgText := {| pg_lower := ToLower (fun r => r) |}.

(** A key derivation that pads or cuts the password to the length asked for. *)
Definition fit (n : Z) (l : list Z) : list Z := take (Z.to_nat n) (l ++ replicate (Z.to_nat n) 0).

#[export] Instance padKey : Argon2 := {| IDKey pw _ _ _ _ n := string_of_bytes (fit n (bytes_of pw)) |}.

Lemma fit_length n l : 0 <= n -> Z.of_nat (length (fit n l)) = n.
Proof. intros Hn. unfold fit. rewrite length_take, length_app, length_replicate. lia. Qed.

Lemma fit_bytes n l : Forall is_byte l -> Forall is_byte (fit n l).
Proof. intros Hl. apply Forall_take, Forall_app. split; [done|]. apply Forall_replicate. unfold is_byte. lia. Qed.

Lemma slen_fit n l : 0 <= n -> Forall is_byte l -> slen (string_of_bytes (fit n l)) = n.
Proof.
  intros Hn Hl. rewrite slen_bytes, bytes_of_string_of_bytes by by apply fit_bytes. by apply fit_length.
Qed.

#[export] Instance padKey_laws : Argon2Laws.
Proof. constructor. intros. apply slen_fit; [done|apply bytes_of_is_byte]. Qed.

(** Ids and random bytes by the number of effects performed so far. *)
Definition byte_of (n : nat) : byte := default x00 (Byte.of_N (N.of_nat (n mod 256))).
Definition sceneID (n : nat) (b : bool) : uuid16 :=
  default uuid_Nil (mk16 (replicate 13 x00 ++ [byte_of (n / 256); byte_of n; byte_of (if b then 1 else 2)])).

Definition mallory : oauthUser :=
  {| ou_Subject := "4242"; ou_Email := "mallory@example.org"; ou_EmailVerified := false; ou_Name := "mallory" |}.

Definition sceneConfig : Config :=
  {| cf_FrontendOrigin := "https://typemore.example"; cf_SessionTTL := 30 * day; cf_HashConcurrency := 4;
     cf_Providers := [ProviderGitHub]; cf_limits := {| lm_every := 6000000000; lm_burst := 10 |};
     cf_captcha := false; cf_dummyHash := HashPassword "0123456789abcdef" "decoy" |}.

#[export] Instance sceneEnv : Env := {|
  env_cfg := sceneConfig;
  env_lower := fun r => r;
  env_bytes k n := string_of_bytes (fit n [Z.of_nat k mod 256]);
  env_id := sceneID : nat -> bool -> @UUID uuid16_Uuid;
  env_mailer _ := true;
  env_restricted _ _ := false;
  env_captcha _ _ _ := true;
  env_exchange _ _ _ _ := Profile mallory |}.

#[export] Instance sceneEnv_laws : EnvLaws.
Proof.
  constructor. intros k n Hn. apply slen_fit; [done|]. repeat constructor; unfold is_byte;
    pose proof (Z.mod_pos_bound (Z.of_nat k) 256); lia.
Qed.

(** Requests, by what they carry. *)
Definition bare : request :=
  {| rq_Method := "POST"; rq_Origin := "https://typemore.example"; rq_IP := "198.51.100.7"; rq_Body := None;
     rq_Session := None; rq_Provider := ""; rq_QueryState := ""; rq_QueryCode := "";
     rq_State := None; rq_Verifier := None; rq_Link := None |}.

Definition posting (fields : list (string * string)) (session : option string) : request :=
  {| rq_Method := "POST"; rq_Origin := "https://typemore.example"; rq_IP := "198.51.100.7";
     rq_Body := Some (JObj (prod_map id JStr <$> fields));
     rq_Session := session; rq_Provider := ""; rq_QueryState := ""; rq_QueryCode := "";
     rq_State := None; rq_Verifier := None; rq_Link := None |}.

Definition returning (link : option string) : request :=
  {| rq_Method := "GET"; rq_Origin := ""; rq_IP := "198.51.100.7"; rq_Body := None; rq_Session := None;
     rq_Provider := ProviderGitHub; rq_QueryState := "st"; rq_QueryCode := "code";
     rq_State := Some "st"; rq_Verifier := Some "vf"; rq_Link := link |}.

Definition worldAt (db : authDB) : world :=
  {| wd_db := db; wd_clock := 0; wd_hashing := 0; wd_outbox := []; wd_limiter := newLimiter; wd_tick := 100 |}.

(** ** An account *)

Definition ann : UUID := sceneID 0 false.

Definition annDB : authDB :=
  setUsers (insert ann (newUser ann 0 "ann")) emptyDB.

(** With an address and a password, verified or not. *)
Definition annRegistered (db : authDB) : authDB :=
  (exec_query (qCreateEmailAccount {| ea_DisplayName := "ann"; ea_Email := "ann@example.org";
     ea_PasswordHash := HashPassword "0123456789abcdef" "correct horse" |}) ann (sceneID 0 true) 0 db).1.
Definition annVerified (db : authDB) : authDB := (exec_query (qMarkEmailVerified ann) ann ann 0 db).1.
Definition annMailed (purpose : string) (db : authDB) : authDB :=
  (exec_query (qCreateEmailToken {| ep_UserID := ann; ep_Purpose := purpose;
     ep_TokenHash := (newToken (env_bytes 7 32)).2; ep_ExpiresAt := hour |}) (sceneID 1 false) ann 0 db).1.
Definition annSignedIn (db : authDB) : authDB :=
  (exec_query (qCreateSession (newToken (env_bytes 8 32)).2 ann day) (sceneID 2 false) ann 0 db).1.

Definition verifiedDB : authDB := annVerified (annRegistered emptyDB).

Lemma verifiedDB_ok : db_ok verifiedDB.
Proof. unfold verifiedDB, annVerified, annRegistered. do 2 apply exec_query_ok. apply db_ok_empty. Qed.

Lemma annDB_ok : db_ok annDB.
Proof.
  refine (proj1 (CreateUser_ok ann 0 "ann" emptyDB annDB (newUser ann 0 "ann") db_ok_empty _)).
  reflexivity.
Qed.

Lemma no_sessions (db : authDB) : db_sessions db = ∅ -> noCollision (worldAt db).
Proof. intros E n k s. cbn. by rewrite E, lookup_empty. Qed.

Definition tokenText (n : nat) : string := (newToken (env_bytes n 32)).1.

(** ** Witnesses *)

Lemma password_roundtrip_witness :
  VerifyPassword "decoy" (HashPassword "0123456789abcdef" "decoy") = Some true
  /\ VerifyPassword "other" (HashPassword "0123456789abcdef" "decoy") = Some false.
Proof.
  split; [by apply (proj1 (password_roundtrip "0123456789abcdef" "decoy" ""))|].
  rewrite (proj2 (password_roundtrip "0123456789abcdef" "decoy" "other")). vm_compute. reflexivity.
Defined.

Lemma returning_returns link : returns (returning link) mallory.
Proof. constructor; try done. exists "vf". by split. Qed.

Lemma forged_link_takeover_witness :
  let '(a1, w1) := run (handleOAuthCallback (returning (Some (uuid_String ann)))) (worldAt annDB) in
  let '(a2, w2) := run (handleOAuthCallback (returning None)) w1 in
  a1 = (clearFlowCookies, Redirect "linked" ProviderGitHub)
  /\ exists token u, SessionCookie token ∈ a2.1 /\ us_ID u = ann
       /\ sessionUser (wd_db w2) (wd_clock w2) (Some token) = Some u.
Proof.
  apply (forged_link_takeover (returning (Some (uuid_String ann))) (returning None) mallory ann (worldAt annDB)).
  - by apply returning_returns.
  - by apply returning_returns.
  - by constructor.
  - done.
  - done.
  - done.
  - intros E. vm_compute in E. discriminate.
  - intros E. vm_compute in E. discriminate.
  - done.
  - apply annDB_ok.
  - by apply no_sessions.
  - by eexists.
  - done.
  - intros n. apply lookup_empty.
  - vm_compute. reflexivity.
Defined.

(** A request's form, decoded. *)
Definition form (fields : list (string * string)) : gmap string string := list_to_map fields.

Definition annLogin : list (string * string) := [("email", "ann@example.org"); ("password", "correct horse")].

Lemma decoy_readable : decodeHash (cf_dummyHash env_cfg) <> None.
Proof. cbn [env_cfg sceneEnv cf_dummyHash sceneConfig]. unfold HashPassword. by rewrite decodeHash_phc. Qed.

Lemma verifiedDB_readable : hashesReadable verifiedDB.
Proof.
  split; [apply decoy_readable|]. intros k c Hk.
  assert (c ∈ rows (db_credentials verifiedDB)) as Hin by (apply table_rows; by exists k).
  assert (rows (db_credentials verifiedDB)
    = [{| cr_UserID := ann; cr_Hash := HashPassword "0123456789abcdef" "correct horse"; cr_UpdatedAt := 0 |}]) as E
    by (vm_compute; reflexivity).
  rewrite E in Hin. apply list_elem_of_singleton in Hin as ->. cbn [cr_Hash]. unfold HashPassword. by rewrite decodeHash_phc.
Qed.


(** Ann's session stands for her, and for nobody after it is over. *)
Definition signedInDB : authDB := annSignedIn verifiedDB.

Lemma signedInDB_ok : db_ok signedInDB.
Proof. apply exec_query_ok, verifiedDB_ok. Qed.

Definition askingWith (cookie : option string) : request := posting [] cookie.

Lemma session_is_its_row_witness :
  us_ID <$> sessionUser signedInDB 0 (Some (tokenText 8)) = Some ann
  /\ (run (authenticate (askingWith (Some (tokenText 9)))) (worldAt signedInDB)).1 = inr true.
Proof.
  split; [vm_compute; reflexivity|].
  pose proof (session_is_its_row (askingWith (Some (tokenText 9))) (worldAt signedInDB) signedInDB_ok) as Hs.
  destruct (run _ _) as [res w']. destruct Hs as [Hr _]. cbn [fst]. rewrite Hr.
  assert (sessionUser (wd_db (worldAt signedInDB)) 0 (Some (tokenText 9)) = None) as E by (vm_compute; reflexivity).
  cbn [rq_Session askingWith posting wd_clock worldAt]. by rewrite E.
Defined.

(** A reset link opened once. *)
Definition mailedDB : authDB := annMailed PurposeReset signedInDB.

Lemma mailedDB_ok : db_ok mailedDB.
Proof. apply exec_query_ok, signedInDB_ok. Qed.

Definition annReset : list (string * string) := [("token", tokenText 7); ("newPassword", "battery staple")].


(** Registering on an empty database. *)
Definition bobForm : list (string * string) :=
  [("email", "bob@example.org"); ("password", "tr0ub4dor&3"); ("displayName", "bob")].


(** ** Schedules *)

Inductive move :=
| Arrives (t : route) (r : request)
| Next (i : nat)          (* the next effect of request [i], as the environment has it *)
| Stops (i : nat).

Definition play (m : move) (s : sys) : sys :=
  match m with
  | Arrives t r => started (serve t r) s
  | Next i =>
    match (sy_pool s !! i : option (prog answer)) with
    | Some (Vis e k) =>
      let '(x, w) := auth_exec e (sy_world s) in
      {| sy_world := w; sy_pool := <[i := k x]> (sy_pool s); sy_spent := spentBy e x ++ sy_spent s |}
    | _ => s
    end
  | Stops i => {| sy_world := sy_world s; sy_pool := <[i := Ret internal]> (sy_pool s); sy_spent := sy_spent s |}
  end.

Definition plays (ms : list move) (s : sys) : sys := foldl (fun s m => play m s) s ms.

Lemma play_steps m s : steps sys_step s (play m s).
Proof.
  destruct m as [t r|i|i]; cbn.
  - eapply steps_step; [apply step_request|apply steps_refl].
  - destruct (sy_pool s !! i) as [[a|X e k]|] eqn:Ei; try apply steps_refl.
    destruct (auth_exec e (sy_world s)) as [x w] eqn:Ee. eapply steps_step; [|apply steps_refl].
    eapply step_effect; [exact Ei|]. by left.
  - eapply steps_step; [apply step_stop|apply steps_refl].
Qed.

Lemma plays_reachable ms clock : sys_reachable (plays ms (initial clock)).
Proof.
  exists clock. assert (forall s, steps sys_step s (plays ms s)) as Hp; [|apply Hp].
  induction ms as [|m ms IH]; intros s; [apply steps_refl|]. cbn. eapply steps_trans; [apply play_steps|apply IH].
Qed.

Definition nexts (i n : nat) : list move := replicate n (Next i).

(** Mallory signs in through the provider (the session's token is drawn in the fifth
    effect), asks twice for an address to be added, and both requests see an account
    without one.  The first goes through; the second is cut off after the statement that
    adds the address.  The link mailed to the first address is then opened. *)
Definition malloryToken : string := tokenText 4.
Definition adding (email : string) : request := posting [("email", email)] (Some malloryToken).

Definition twoAddresses : list move :=
  Arrives GetOAuthCallback (returning None) :: nexts 0 12
  ++ Arrives PostEmailAdd (adding "mallory@example.org") :: Arrives PostEmailAdd (adding "victim@example.com")
  :: nexts 1 5 ++ nexts 2 6 ++ Stops 2 :: nexts 1 10
  ++ Arrives PostVerify (posting [("token", tokenText 20)] None) :: nexts 3 10.

Definition tricked : sys := plays twoAddresses (initial 0).

Lemma tricked_reachable : sys_reachable tricked.
Proof. apply plays_reachable. Qed.

Definition unasked (s : sys) (i : Identity) : bool :=
  (id_Provider i =s? ProviderEmail) && id_EmailVerified i
  && forallb (fun m => negb (ml_To m =s? id_Subject i)) (wd_outbox (sy_world s)).

Definition madeAdmin (db : authDB) (i : Identity) : bool :=
  match db_users (PromoteAdmins 0 [id_Subject i] db).1 !! id_UserID i with
  | Some u => us_Role u =s? "admin"
  | None => false
  end.

Lemma unasked_found s :
  existsb (fun i => unasked s i && madeAdmin (wd_db (sy_world s)) i) (rows (db_identities (wd_db (sy_world s)))) = true ->
  exists i, i ∈ rows (db_identities (wd_db (sy_world s)))
    /\ id_Provider i = ProviderEmail /\ id_EmailVerified i = true
    /\ (forall m, m ∈ wd_outbox (sy_world s) -> ml_To m <> id_Subject i)
    /\ exists u, db_users (PromoteAdmins 0 [id_Subject i] (wd_db (sy_world s))).1 !! id_UserID i = Some u
                 /\ us_Role u = "admin".
Proof.
  intros (i & Hin & Hi)%existsb_exists. exists i. split; [by apply list_elem_of_In|]. unfold unasked, madeAdmin in Hi.
  apply andb_true_iff in Hi as [[[Hp%String.eqb_eq Hv]%andb_true_iff Hm]%andb_true_iff Ha]. split_and!; [done..| |].
  - intros m Hm' E. rewrite forallb_forall in Hm.
    apply list_elem_of_In, Hm, negb_true_iff, String.eqb_neq in Hm'. contradiction.
  - destruct (_ !! _) as [u|]; [|done]. apply String.eqb_eq in Ha. by exists u.
Qed.

(** An address can be verified without its owner.  The check that an account has no
    address yet and the statement that adds one are two effects, so two requests of one
    account can both pass it; the account then has two addresses, and confirming a link
    mailed to one of them marks both.  A reachable state has a verified address to which
    nothing was ever mailed; were it in the list of administrators, the next start-up
    would make the account an administrator. *)
Theorem address_verified_unasked :
  exists s i, sys_reachable s /\ i ∈ rows (db_identities (wd_db (sy_world s)))
    /\ id_Provider i = ProviderEmail /\ id_EmailVerified i = true
    /\ (forall m, m ∈ wd_outbox (sy_world s) -> ml_To m <> id_Subject i)
    /\ exists u, db_users (PromoteAdmins 0 [id_Subject i] (wd_db (sy_world s))).1 !! id_UserID i = Some u
                 /\ us_Role u = "admin".
Proof.
  exists tricked. destruct (unasked_found tricked) as (i & Hi); [vm_compute; reflexivity|].
  exists i. split; [apply tricked_reachable|exact Hi].
Qed.

Definition drawn (n : nat) : list (nat * bool) := flat_map (fun k => [(k, false); (k, true)]) (seq 0 n).

Lemma drawn_elem n k b : (k < n)%nat -> (k, b) ∈ drawn n.
Proof.
  intros Hk. apply list_elem_of_In, in_flat_map. exists k. split; [apply in_seq; lia|]. destruct b; cbn; auto.
Qed.

Lemma ids_fresh_upto n :
  forallb (fun p => forallb (fun q => bool_decide (p = q) || negb (bool_decide (sceneID p.1 p.2 = sceneID q.1 q.2)))
    (drawn n)) (drawn n) = true -> ids_fresh n.
Proof.
  intros Hf k b k' b' Hk Hk' E. rewrite forallb_forall in Hf.
  specialize (Hf (k, b) ltac:(apply list_elem_of_In; by apply drawn_elem)). cbv beta in Hf. rewrite forallb_forall in Hf.
  specialize (Hf (k', b') ltac:(apply list_elem_of_In; by apply drawn_elem)). cbn [fst snd] in Hf.
  apply orb_true_iff in Hf as [Hp|Hn]; [|by apply negb_true_iff, bool_decide_eq_false in Hn].
  apply bool_decide_eq_true in Hp. by injection Hp.
Qed.

Lemma tricked_fresh : ids_fresh (wd_tick (sy_world tricked)).
Proof. apply ids_fresh_upto. vm_compute. reflexivity. Qed.

Lemma accounts_never_share_witness :
  sys_reachable tricked
  /\ identities_ok (live (wd_db (sy_world tricked))) (db_identities (wd_db (sy_world tricked))).
Proof. split; [apply tricked_reachable|]. apply (accounts_never_share tricked), tricked_reachable. Defined.

Lemma tokens_spent_once_witness :
  length (sy_spent tricked) = 1%nat /\ NoDup (et_ID <$> sy_spent tricked).
Proof.
  split; [vm_compute; reflexivity|].
  exact (proj1 (tokens_spent_once tricked tricked_reachable tricked_fresh)).
Defined.
