(* ===== verification/QuoteStore.v ===== *)
(** * internal/quote: the corpus

    store.go's types, the [quotes] table of migrations 00007 and 00025 with one
    definition per statement of quotedb, the import transaction of pgstore, and corpus.go,
    which reads the vendored files.  The order of languages is the database's collation,
    a parameter; the digest is the game core's, an argument. *)

From Stdlib Require Import Strings.Ascii Sorting.Sorted.
From stdpp Require Import sorting.
From S2P Require Import Prelude GoStd Uuid Keyset Json AuthText AuthStore.

Open Scope Z_scope.

(** ** store.go *)

(** Length bands are int16 ordinals. *)
Definition LenGroupCount : Z := 4.
Definition lenGroupNames : list string := ["short"; "medium"; "long"; "thicc"].
Definition Valid (g : Z) : bool := (0 <=? g) && (g <? LenGroupCount).
Definition LenGroup_String (g : Z) : string :=
  match (if Valid g then lenGroupNames !! Z.to_nat g else None) with
  | Some name => name
  | None => "LenGroup(" +:+ Strconv.Itoa g +:+ ")"
  end.
Definition ParseLenGroup (s : string) : option Z := Z.of_nat <$> find_index (String.eqb s) lenGroupNames.

(** Both optional: the empty language is any. *)
Record Filter := { fi_Lang : string; fi_Group : option Z }.

Section store.
Context `{Uuid} `{!UuidOrder} `{!Collation}.

Record Cursor := { cu_Lang : string; cu_Group : Z; cu_ID : UUID }.

(** A row; [Meta] and [Quote] are its columns without and with the text. *)
Record Quote := {
  qu_ID : UUID; qu_Lang : string; qu_UpstreamID : Z; qu_Text : string; qu_Source : string;
  qu_Length : Z; qu_LenGroup : Z; qu_TextHash : string; qu_Superseded : bool; qu_CreatedAt : Z;
  qu_WithdrawnAt : option Z; qu_WithdrawnBy : option UUID; qu_WithdrawnReason : option string }.


Definition withSuperseded (b : bool) (q : Quote) : Quote :=
  {| qu_ID := qu_ID q; qu_Lang := qu_Lang q; qu_UpstreamID := qu_UpstreamID q; qu_Text := qu_Text q;
     qu_Source := qu_Source q; qu_Length := qu_Length q; qu_LenGroup := qu_LenGroup q;
     qu_TextHash := qu_TextHash q; qu_Superseded := b; qu_CreatedAt := qu_CreatedAt q;
     qu_WithdrawnAt := qu_WithdrawnAt q; qu_WithdrawnBy := qu_WithdrawnBy q;
     qu_WithdrawnReason := qu_WithdrawnReason q |}.
Definition withWithdrawal (at_ : option Z) (by_ : option UUID) (reason : option string) (q : Quote) : Quote :=
  {| qu_ID := qu_ID q; qu_Lang := qu_Lang q; qu_UpstreamID := qu_UpstreamID q; qu_Text := qu_Text q;
     qu_Source := qu_Source q; qu_Length := qu_Length q; qu_LenGroup := qu_LenGroup q;
     qu_TextHash := qu_TextHash q; qu_Superseded := qu_Superseded q; qu_CreatedAt := qu_CreatedAt q;
     qu_WithdrawnAt := at_; qu_WithdrawnBy := by_; qu_WithdrawnReason := reason |}.

(** ** Reads *)

(** What is offered: the current revision, not withdrawn. *)
Definition published (q : Quote) : bool := negb (qu_Superseded q) && bool_decide (qu_WithdrawnAt q = None).
Definition admits (f : Filter) (q : Quote) : bool :=
  ((fi_Lang f =s? "") || (qu_Lang q =s? fi_Lang f))
  && match fi_Group f with Some g => qu_LenGroup q =? g | None => true end.
Definition offered (f : Filter) (q : Quote) : bool := published q && admits f q.

(** The browse order. *)
Definition place : Type := string * Z * Z.
Definition placeOf (q : Quote) : place := (qu_Lang q, qu_LenGroup q, uuid_key (qu_ID q)).
Definition cursorPlace (c : Cursor) : place := (cu_Lang c, cu_Group c, uuid_key (cu_ID c)).
Definition browse_lt (p q : place) : bool :=
  text_lt p.1.1 q.1.1
  || ((p.1.1 =s? q.1.1) && ((p.1.2 <? q.1.2) || ((p.1.2 =? q.1.2) && (p.2 <? q.2)))).

Definition ListQuotes (f : Filter) (after : option Cursor) (limit : Z) (db : gmap UUID Quote) : list Quote :=
  take (Z.to_nat limit)
    (order_by placeOf browse_lt
      (filter (fun q => match after with Some c => browse_lt (cursorPlace c) (placeOf q) | None => true end = true)
        (filter (fun q => offered f q = true) (rows db)))).

(** [OFFSET floor(random() * count)] is any position of the candidates. *)
Definition PickRandomQuote (f : Filter) (draw : Z -> Z) (db : gmap UUID Quote) : Quote + pgError :=
  let candidates := filter (fun q => offered f q = true) (rows db) in
  match candidates !! Z.to_nat (draw (Z.of_nat (length candidates))) with
  | Some q => inl q
  | None => inr NoRows
  end.

(** Whatever has become of it. *)
Definition GetQuote (id : UUID) (db : gmap UUID Quote) : Quote + pgError :=
  match db !! id with Some q => inl q | None => inr NoRows end.
Definition GetQuoteWithdrawal (id : UUID) (db : gmap UUID Quote) : Quote + pgError := GetQuote id db.

Definition isWithdrawn (q : Quote) : bool := bool_decide (is_Some (qu_WithdrawnAt q)).
Definition ListWithdrawnQuoteIDs (db : gmap UUID Quote) : gset UUID := dom (filter (fun kq => isWithdrawn kq.2 = true) db).
Definition CountQuotes (db : gmap UUID Quote) : Z := Z.of_nat (size db).

(** [ReplayResolver.ResolveQuote]: the text and its digest. *)
Definition ResolveQuote (id : UUID) (db : gmap UUID Quote) : option (string * string) :=
  match GetQuote id db with inl q => Some (qu_Text q, qu_TextHash q) | inr _ => None end.

(** ** Withdrawal *)

(** The first withdrawal stands; the flag says whether this is it. *)
Definition WithdrawQuote (now : Z) (id actor : UUID) (reason : string) (users : gmap UUID User) (db : gmap UUID Quote)
    : gmap UUID Quote * (Quote * bool) + pgError :=
  match db !! id with
  | None => inr NoRows
  | Some q =>
    match qu_WithdrawnAt q with
    | Some at_ => inl (db, (q, at_ =? now))
    | None =>
      if negb (bool_decide (is_Some (users !! actor))) then inr (Violates "quotes_withdrawn_by_fkey")
      else
        let q := withWithdrawal (Some now) (Some actor) (Some reason) q in
        inl (insert id q db, (q, true))
    end
  end.

Definition RestoreQuote (id : UUID) (db : gmap UUID Quote) : gmap UUID Quote * Z :=
  match db !! id with
  | Some q => if isWithdrawn q then (insert id (withWithdrawal None None None q) db, 1) else (db, 0)
  | None => (db, 0)
  end.

(** ** The import *)

Record Incoming := {
  in_UpstreamID : Z; in_Text : string; in_Source : string; in_Length : Z; in_LenGroup : Z; in_TextHash : string }.

(** The revisions of one quote of a language. *)
Definition revisionOf (lang : string) (upstream : Z) (q : Quote) : bool :=
  (qu_Lang q =s? lang) && (qu_UpstreamID q =? upstream).
Definition sameRevision (lang : string) (upstream : Z) (hash : string) (q : Quote) : bool :=
  revisionOf lang upstream q && (qu_TextHash q =s? hash).

Definition FindQuoteRevision (lang : string) (upstream : Z) (hash : string) (db : gmap UUID Quote) : Quote + pgError :=
  one (sameRevision lang upstream hash) db.

Definition revision (id : UUID) (now : Z) (lang : string) (i : Incoming) : Quote :=
  {| qu_ID := id; qu_Lang := lang; qu_UpstreamID := in_UpstreamID i; qu_Text := in_Text i;
     qu_Source := in_Source i; qu_Length := in_Length i; qu_LenGroup := in_LenGroup i;
     qu_TextHash := in_TextHash i; qu_Superseded := false; qu_CreatedAt := now;
     qu_WithdrawnAt := None; qu_WithdrawnBy := None; qu_WithdrawnReason := None |}.

Definition InsertQuoteRevision (id : UUID) (now : Z) (lang : string) (i : Incoming) (db : gmap UUID Quote)
    : gmap UUID Quote + pgError :=
  if negb (Valid (in_LenGroup i)) then inr (Violates "quotes_len_group_range")
  else if negb (in_Length i =? Utf8.rune_count (in_Text i)) then inr (Violates "quotes_length_matches_text")
  else if in_Length i <=? 0 then inr (Violates "quotes_text_not_empty")
  else if bool_decide (is_Some (db !! id)) then inr (Violates "quotes_pkey")
  else if existsb (sameRevision lang (in_UpstreamID i) (in_TextHash i)) (rows db)
  then inr (Violates "quotes_revision_idx")
  else inl (insert id (revision id now lang i) db).

Definition RepublishQuoteRevision (id : UUID) (db : gmap UUID Quote) : gmap UUID Quote * Z :=
  match db !! id with
  | Some q => if qu_Superseded q then (insert id (withSuperseded false q) db, 1) else (db, 0)
  | None => (db, 0)
  end.

Definition retires (lang : string) (upstream : Z) (keep : UUID) (q : Quote) : bool :=
  revisionOf lang upstream q && negb (bool_decide (qu_ID q = keep)) && negb (qu_Superseded q).
Definition SupersedeOtherRevisions (lang : string) (upstream : Z) (keep : UUID) (db : gmap UUID Quote) : gmap UUID Quote * Z :=
  (fmap (fun q => if retires lang upstream keep q then withSuperseded true q else q) db,
   Z.of_nat (length (filter (fun q => retires lang upstream keep q = true) (rows db)))).

Inductive outcome := outcomeInserted | outcomeSuperseded | outcomeUnchanged.

Definition publish (id : UUID) (now : Z) (lang : string) (i : Incoming) (db : gmap UUID Quote)
    : gmap UUID Quote * outcome + pgError :=
  match FindQuoteRevision lang (in_UpstreamID i) (in_TextHash i) db with
  | inl rev =>
    let '(db, restored) := RepublishQuoteRevision (qu_ID rev) db in
    let '(db, retired) := SupersedeOtherRevisions lang (in_UpstreamID i) (qu_ID rev) db in
    inl (db, if (0 <? restored) || (0 <? retired) then outcomeSuperseded else outcomeUnchanged)
  | inr _ =>
    match InsertQuoteRevision id now lang i db with
    | inr e => inr e
    | inl db =>
      let '(db, retired) := SupersedeOtherRevisions lang (in_UpstreamID i) id db in
      inl (db, if 0 <? retired then outcomeSuperseded else outcomeInserted)
    end
  end.

Record ImportStats := { im_Inserted : Z; im_Superseded : Z; im_Unchanged : Z }.
Definition noStats : ImportStats := {| im_Inserted := 0; im_Superseded := 0; im_Unchanged := 0 |}.
Definition Total (s : ImportStats) : Z := im_Inserted s + im_Superseded s + im_Unchanged s.
Definition Add (s o : ImportStats) : ImportStats :=
  {| im_Inserted := im_Inserted s + im_Inserted o; im_Superseded := im_Superseded s + im_Superseded o;
     im_Unchanged := im_Unchanged s + im_Unchanged o |}.
Definition counted (o : outcome) (s : ImportStats) : ImportStats :=
  match o with
  | outcomeInserted => {| im_Inserted := im_Inserted s + 1; im_Superseded := im_Superseded s; im_Unchanged := im_Unchanged s |}
  | outcomeSuperseded => {| im_Inserted := im_Inserted s; im_Superseded := im_Superseded s + 1; im_Unchanged := im_Unchanged s |}
  | outcomeUnchanged => {| im_Inserted := im_Inserted s; im_Superseded := im_Superseded s; im_Unchanged := im_Unchanged s + 1 |}
  end.

(** [Import]: one transaction; [ids] are the ids its inserts generate. *)
Fixpoint Import (ids : nat -> UUID) (n : nat) (now : Z) (lang : string) (l : list Incoming)
    (s : ImportStats) (db : gmap UUID Quote) : gmap UUID Quote * ImportStats + pgError :=
  match l with
  | [] => inl (db, s)
  | i :: l =>
    match publish (ids n) now lang i db with
    | inr e => inr e
    | inl (db, o) => Import ids (S n) now lang l (counted o s) db
    end
  end.

(** ** The statements, by what they answer *)

Inductive qquery : Type -> Type :=
| qListQuotes (f : Filter) (after : option Cursor) (limit : Z) : qquery (list Quote)
| qPickRandomQuote (f : Filter) : qquery Quote
| qGetQuote (id : UUID) : qquery Quote
| qListWithdrawnQuoteIDs : qquery (gset UUID)
| qCountQuotes : qquery Z
| qGetQuoteWithdrawal (id : UUID) : qquery Quote
| qWithdrawQuote (id actor : UUID) (reason : string) : qquery (Quote * bool)
| qRestoreQuote (id : UUID) : qquery Z
| qImport (lang : string) (l : list Incoming) : qquery ImportStats.

(** What the database chooses: where a random draw falls, an import's ids. *)
Class Draws := { draw : nat -> Z -> Z; quoteID : nat -> nat -> UUID }.

Definition qtexts {A} (q : qquery A) : list string :=
  match q with
  | qListQuotes f after _ => fi_Lang f :: option_list (cu_Lang <$> after)
  | qPickRandomQuote f => [fi_Lang f]
  | qWithdrawQuote _ _ reason => [reason]
  | qImport lang l => lang :: concat ((fun i => [in_Text i; in_Source i; in_TextHash i]) <$> l)
  | _ => []
  end.

Definition exec_published `{!Draws} {A} (q : qquery A) (t : nat) (now : Z) (users : gmap UUID User)
    (db : gmap UUID Quote) : gmap UUID Quote * (A + pgError) :=
  let wrote {B} (r : gmap UUID Quote * B + pgError) : gmap UUID Quote * (B + pgError) :=
    match r with inl (db', a) => (db', inl a) | inr e => (db, inr e) end in
  match q with
  | qListQuotes f after limit => (db, inl (ListQuotes f after limit db))
  | qPickRandomQuote f => (db, PickRandomQuote f (draw t) db)
  | qGetQuote id => (db, GetQuote id db)
  | qListWithdrawnQuoteIDs => (db, inl (ListWithdrawnQuoteIDs db))
  | qCountQuotes => (db, inl (CountQuotes db))
  | qGetQuoteWithdrawal id => (db, GetQuoteWithdrawal id db)
  | qWithdrawQuote id actor reason => wrote (WithdrawQuote now id actor reason users db)
  | qRestoreQuote id => let '(db', n) := RestoreQuote id db in (db', inl n)
  | qImport lang l => wrote (Import (quoteID t) 0 now lang l noStats db)
  end.

Definition exec_qquery `{!Draws} {A} (q : qquery A) (t : nat) (now : Z) (users : gmap UUID User)
    (db : gmap UUID Quote) : gmap UUID Quote * (A + sqlError) :=
  if forallb storable (qtexts q) then
    let '(db', r) := exec_published q t now users db in
    (db', match r with inl a => inl a | inr e => inr (Pg e) end)
  else (db, inr BadText).
End store.

(** ** corpus.go *)

Record Language := { la_Lang : string; la_File : string; la_Quotes : Z; la_Groups : list (Z * Z) }.

Record upstreamQuote := { uq_Text : string; uq_Source : string; uq_Length : Z; uq_ID : Z }.
Record corpusFile := { cf_Language : string; cf_Groups : list (Z * Z); cf_Quotes : list upstreamQuote }.

(** [\[2\]int]: missing elements are zero, further ones are dropped. *)
Definition dec_pair : Json.decoder (Z * Z) := fun cur j =>
  match j with
  | JNull => Some cur
  | JArr [] => Some (0, 0)
  | JArr [a] => a ← Json.dec_int 64 cur.1 a; Some (a, 0)
  | JArr (a :: b :: _) => a ← Json.dec_int 64 cur.1 a; b ← Json.dec_int 64 cur.2 b; Some (a, b)
  | _ => None
  end.

Definition dec_quote : Json.decoder upstreamQuote :=
  Json.dec_struct ["text"; "source"; "length"; "id"] (fun f =>
    if f =s? "text" then Json.field uq_Text (fun v q => {| uq_Text := v; uq_Source := uq_Source q; uq_Length := uq_Length q; uq_ID := uq_ID q |}) Json.dec_string
    else if f =s? "source" then Json.field uq_Source (fun v q => {| uq_Text := uq_Text q; uq_Source := v; uq_Length := uq_Length q; uq_ID := uq_ID q |}) Json.dec_string
    else if f =s? "length" then Json.field uq_Length (fun v q => {| uq_Text := uq_Text q; uq_Source := uq_Source q; uq_Length := v; uq_ID := uq_ID q |}) (Json.dec_int 64)
    else Json.field uq_ID (fun v q => {| uq_Text := uq_Text q; uq_Source := uq_Source q; uq_Length := uq_Length q; uq_ID := v |}) (Json.dec_int 32)).

Definition dec_corpus : Json.decoder corpusFile :=
  Json.dec_struct ["language"; "groups"; "quotes"] (fun f =>
    if f =s? "language" then Json.field cf_Language (fun v c => {| cf_Language := v; cf_Groups := cf_Groups c; cf_Quotes := cf_Quotes c |}) Json.dec_string
    else if f =s? "groups" then Json.field cf_Groups (fun v c => {| cf_Language := cf_Language c; cf_Groups := v; cf_Quotes := cf_Quotes c |}) (Json.dec_list dec_pair (0, 0))
    else Json.field cf_Quotes (fun v c => {| cf_Language := cf_Language c; cf_Groups := cf_Groups c; cf_Quotes := v |})
           (Json.dec_list dec_quote {| uq_Text := ""; uq_Source := ""; uq_Length := 0; uq_ID := 0 |})).

Definition groupOf (groups : list (Z * Z)) (length : Z) : option Z :=
  Z.of_nat <$> find_index (fun g => (g.1 <=? length) && (length <=? g.2)) groups.

Definition sameGroups (got want : list (Z * Z)) : bool :=
  negb (bool_decide (want = [])) && bool_decide (got = want) && (Z.of_nat (length got) =? LenGroupCount).

(** [HashText]: the digest of one word. *)
Definition HashText (dv : list string -> option string) (text : string) : option string := dv [text].

Fixpoint loadQuotes (dv : list string -> option string) (groups : list (Z * Z)) (seen : list Z)
    (l : list upstreamQuote) : option (list Incoming) :=
  match l with
  | [] => Some []
  | q :: l =>
    if bool_decide (uq_ID q ∈ seen) then None
    else if negb (Utf8.rune_count (uq_Text q) =? uq_Length q) then None
    else
      group ← groupOf groups (uq_Length q);
      hash ← HashText dv (uq_Text q);
      rest ← loadQuotes dv groups (uq_ID q :: seen) l;
      Some ({| in_UpstreamID := uq_ID q; in_Text := uq_Text q; in_Source := uq_Source q;
               in_Length := Int.int32 (uq_Length q); in_LenGroup := group; in_TextHash := hash |} :: rest)
  end.

(** [Load], the file read: [None] is any error. *)
Definition Load (dv : list string -> option string) (raw : json) (lang : Language) : option (list Incoming) :=
  doc ← Json.unmarshal dec_corpus {| cf_Language := ""; cf_Groups := []; cf_Quotes := [] |} raw;
  if negb (cf_Language doc =s? Strs.TrimSuffix ".json" (la_File lang)) then None
  else if negb (Z.of_nat (length (cf_Quotes doc)) =? la_Quotes lang) then None
  else if negb (sameGroups (cf_Groups doc) (la_Groups lang)) then None
  else loadQuotes dv (cf_Groups doc) [] (cf_Quotes doc).

Example trim_json : Strs.TrimSuffix ".json" "german.json" = "german" /\ Strs.TrimSuffix ".json" "german" = "german".
Proof. by split. Qed.

Example load_one :
  Load (fun w => Some (String.concat "" w))
    (JObj [("language", JStr "toy"); ("groups", JArr [JArr [JNum "0"; JNum "5"]; JArr [JNum "6"; JNum "9"];
            JArr [JNum "10"; JNum "20"]; JArr [JNum "21"; JNum "99"]]);
           ("quotes", JArr [JObj [("text", JStr "be quick"); ("source", JStr "x"); ("length", JNum "8"); ("id", JNum "7")]])])
    {| la_Lang := "toy"; la_File := "toy.json"; la_Quotes := 1; la_Groups := [(0, 5); (6, 9); (10, 20); (21, 99)] |}
  = Some [{| in_UpstreamID := 7; in_Text := "be quick"; in_Source := "x"; in_Length := 8; in_LenGroup := 1;
             in_TextHash := "be quick" |}].
Proof. vm_compute. reflexivity. Qed.
