(* ===== verification/QuoteProps.v ===== *)
(** * The corpus: what is published stays as it was published

    [quotes_ok], what the table always satisfies; that every statement and the import
    keep it, and never change the bytes of a row; what an import publishes. *)

From Stdlib Require Import Strings.Ascii.
From S2P Require Import Prelude GoStd Uuid Keyset Json AuthText AuthStore AuthFlow AuthInv QuoteStore.

Open Scope Z_scope.

Create HintDb quotes.

Section props.
Context `{Uuid} `{PgText} `{Argon2} `{!UuidOrder} `{!Collation}.

(** A nullable reference is to a row that exists. *)
Definition refs (L : UUID -> Prop) (r : option UUID) : Prop := forall k, r = Some k -> L k.

(** ** Well-formedness *)

Record quote_ok (L : UUID -> Prop) (k : UUID) (q : Quote) : Prop := {
  qo_key : qu_ID q = k;
  qo_length : qu_Length q = Utf8.rune_count (qu_Text q);
  qo_some : 0 < qu_Length q;
  qo_group : Valid (qu_LenGroup q) = true;
  qo_complete : qu_WithdrawnAt q = None <-> qu_WithdrawnReason q = None;
  qo_by : refs L (qu_WithdrawnBy q);
  qo_actor : qu_WithdrawnAt q = None -> qu_WithdrawnBy q = None }.

(** Revisions of one quote differ in their bytes, and one of them is current. *)
Definition one_revision (db : gmap UUID Quote) : Prop :=
  forall k k' q q', db !! k = Some q -> db !! k' = Some q' ->
    qu_Lang q = qu_Lang q' -> qu_UpstreamID q = qu_UpstreamID q' -> qu_TextHash q = qu_TextHash q' -> k = k'.
Definition one_current (db : gmap UUID Quote) : Prop :=
  forall k k' q q', db !! k = Some q -> db !! k' = Some q' ->
    qu_Superseded q = false -> qu_Superseded q' = false ->
    qu_Lang q = qu_Lang q' -> qu_UpstreamID q = qu_UpstreamID q' -> k = k'.

Record quotes_ok (L : UUID -> Prop) (db : gmap UUID Quote) : Prop := {
  qs_rows : map_Forall (quote_ok L) db;
  qs_revision : one_revision db;
  qs_current : one_current db }.

(** ** What does not change *)

(** What was published, whatever has become of the row. *)
Record same_bytes (q q' : Quote) : Prop := {
  sb_id : qu_ID q' = qu_ID q; sb_lang : qu_Lang q' = qu_Lang q; sb_upstream : qu_UpstreamID q' = qu_UpstreamID q;
  sb_text : qu_Text q' = qu_Text q; sb_source : qu_Source q' = qu_Source q; sb_length : qu_Length q' = qu_Length q;
  sb_group : qu_LenGroup q' = qu_LenGroup q; sb_hash : qu_TextHash q' = qu_TextHash q;
  sb_created : qu_CreatedAt q' = qu_CreatedAt q }.

Definition frozen (db db' : gmap UUID Quote) : Prop :=
  forall k q, db !! k = Some q -> exists q', db' !! k = Some q' /\ same_bytes q q'.

(** The moderators' columns. *)
Definition withdrawalOf (q : Quote) : option Z * option UUID * option string :=
  (qu_WithdrawnAt q, qu_WithdrawnBy q, qu_WithdrawnReason q).
Definition unmoderated (db db' : gmap UUID Quote) : Prop :=
  forall k q q', db !! k = Some q -> db' !! k = Some q' -> withdrawalOf q' = withdrawalOf q.

#[export] Instance same_bytes_preorder : PreOrder same_bytes.
Proof. split; [by intros q; split|]. intros q q' q'' [] []. split; congruence. Qed.

#[export] Instance frozen_preorder : PreOrder frozen.
Proof.
  split; [intros db k q Hk; by exists q|]. intros db1 db2 db3 H12 H23 k q Hk.
  destruct (H12 _ _ Hk) as (q2 & Hk2 & ?). destruct (H23 _ _ Hk2) as (q3 & ? & ?). exists q3. split; [done|by etrans].
Qed.

Lemma frozen_insert (db : gmap UUID Quote) k q :
  (forall q0, db !! k = Some q0 -> same_bytes q0 q) -> frozen db (<[k := q]> db).
Proof.
  intros Hq k' q0 Hk. destruct (decide (k = k')) as [<-|Hne].
  - exists q. split; [apply lookup_insert_eq|by apply Hq].
  - exists q0. by rewrite lookup_insert_ne.
Qed.

Lemma withSuperseded_bytes b q : same_bytes q (withSuperseded b q).
Proof. by split. Qed.
Lemma withWithdrawal_bytes a b r q : same_bytes q (withWithdrawal a b r q).
Proof. by split. Qed.

(** ** Withdrawing *)

Lemma set_row L (db : gmap UUID Quote) k q q' :
  quotes_ok L db -> db !! k = Some q -> same_bytes q q' -> qu_Superseded q' = qu_Superseded q -> quote_ok L k q' ->
  quotes_ok L (<[k := q']> db).
Proof.
  intros [] Hk [] Hs Hq. split.
  - by apply map_Forall_insert_2.
  - intros k1 k2 a b [[<- <-]|[N1 K1]]%lookup_insert_Some [[<- <-]|[N2 K2]]%lookup_insert_Some; [done| | |by eapply qs_revision0].
    + intros. eapply qs_revision0; [exact Hk|exact K2|congruence..].
    + intros. eapply qs_revision0; [exact K1|exact Hk|congruence..].
  - intros k1 k2 a b [[<- <-]|[N1 K1]]%lookup_insert_Some [[<- <-]|[N2 K2]]%lookup_insert_Some; [done| | |by eapply qs_current0].
    + intros. eapply qs_current0; [exact Hk|exact K2|congruence..].
    + intros. eapply qs_current0; [exact K1|exact Hk|congruence..].
Qed.

Lemma WithdrawQuote_ok now id actor reason auth db db' r :
  WithdrawQuote now id actor reason (db_users auth) db = inl (db', r) ->
  quotes_ok (live auth) db -> quotes_ok (live auth) db' /\ frozen db db'.
Proof.
  unfold WithdrawQuote. destruct (db !! id) as [q|] eqn:Ek; [|done].
  destruct (qu_WithdrawnAt q) as [at_|] eqn:Ea; [by intros [= <- _]|].
  destruct (bool_decide _) eqn:El; cbn; [|done]. intros [= <- _] Hdb. bool_to_prop. split.
  - eapply set_row; [done..|apply withWithdrawal_bytes|done|]. destruct (qs_rows _ _ Hdb _ _ Ek). split; try done.
    by intros k [= <-].
  - apply frozen_insert. intros q0. rewrite Ek. intros [= <-]. apply withWithdrawal_bytes.
Qed.

Lemma RestoreQuote_ok L id db : quotes_ok L db -> quotes_ok L (RestoreQuote id db).1 /\ frozen db (RestoreQuote id db).1.
Proof.
  intros Hdb. unfold RestoreQuote. destruct (db !! id) as [q|] eqn:Ek; [|done]. destruct (isWithdrawn q); [|done]. cbn. split.
  - eapply set_row; [done..|apply withWithdrawal_bytes|done|]. destruct (qs_rows _ _ Hdb _ _ Ek). by split.
  - apply frozen_insert. intros q0. rewrite Ek. intros [= <-]. apply withWithdrawal_bytes.
Qed.

(** ** Publishing one quote *)

(** All but the uniqueness of the current revision, and that for the other quotes. *)
Record almost_ok (L : UUID -> Prop) (lang : string) (upstream : Z) (db : gmap UUID Quote) : Prop := {
  al_rows : map_Forall (quote_ok L) db;
  al_revision : one_revision db;
  al_current : one_current (filter (fun kq => revisionOf lang upstream kq.2 = false) db) }.

Lemma revisionOf_spec lang upstream q : revisionOf lang upstream q = true <-> qu_Lang q = lang /\ qu_UpstreamID q = upstream.
Proof. unfold revisionOf. by rewrite andb_true_iff, String.eqb_eq, Z.eqb_eq. Qed.

Lemma sameRevision_spec lang upstream hash q :
  sameRevision lang upstream hash q = true <-> qu_Lang q = lang /\ qu_UpstreamID q = upstream /\ qu_TextHash q = hash.
Proof. unfold sameRevision. rewrite andb_true_iff, revisionOf_spec, String.eqb_eq. naive_solver. Qed.

Lemma ok_almost L lang upstream db : quotes_ok L db -> almost_ok L lang upstream db.
Proof.
  intros []. split; [done..|]. intros k k' q q' [Hk _]%map_lookup_filter_Some [Hk' _]%map_lookup_filter_Some. by eapply qs_current0.
Qed.

(** What the retiring statement does to a row. *)
Definition retired (lang : string) (upstream : Z) (keep : UUID) (q : Quote) : Quote :=
  if retires lang upstream keep q then withSuperseded true q else q.

Lemma retired_bytes lang upstream keep q : same_bytes q (retired lang upstream keep q).
Proof. unfold retired. case_match; [apply withSuperseded_bytes|done]. Qed.

Lemma retired_kept lang upstream keep q : withdrawalOf (retired lang upstream keep q) = withdrawalOf q.
Proof. unfold retired. by case_match. Qed.

Lemma retired_other lang upstream keep q : revisionOf lang upstream q = false -> retired lang upstream keep q = q.
Proof. unfold retired, retires. by intros ->. Qed.

Lemma retired_current lang upstream keep q :
  revisionOf lang upstream q = true -> qu_Superseded (retired lang upstream keep q) = false -> qu_ID q = keep.
Proof.
  unfold retired, retires. intros ->. destruct (bool_decide (qu_ID q = keep)) eqn:E; [by bool_to_prop|]. cbn.
  by destruct (qu_Superseded q) eqn:Es; cbn; rewrite ?Es.
Qed.

(** Retiring the others leaves the row that is kept, and only it, current. *)
Lemma supersede_ok L lang upstream keep q db :
  almost_ok L lang upstream db -> db !! keep = Some q -> revisionOf lang upstream q = true -> qu_Superseded q = false ->
  let db' := (SupersedeOtherRevisions lang upstream keep db).1 in
  quotes_ok L db' /\ frozen db db' /\ unmoderated db db' /\ db' !! keep = Some q
  /\ (forall k, revisionOf lang upstream <$> db !! k <> Some true -> db' !! k = db !! k).
Proof.
  intros [] Hq Hr Hs. cbn. fold (retired lang upstream keep).
  assert (forall k a, (retired lang upstream keep <$> db) !! k = Some a ->
    exists a0, db !! k = Some a0 /\ a = retired lang upstream keep a0) as Hl.
  { intros k a [a0 [<- Hk]]%lookup_fmap_Some. by exists a0. }
  assert (retired lang upstream keep q = q) as Eq.
  { unfold retired, retires. rewrite (qo_key _ _ _ (al_rows0 _ _ Hq)), bool_decide_eq_true_2 by done. by rewrite andb_false_r. }
  split_and!.
  - split.
    + intros k a (a0 & Hk & ->)%Hl. destruct (al_rows0 _ _ Hk), (retired_bytes lang upstream keep a0).
      pose proof (retired_kept lang upstream keep a0) as Ew. unfold withdrawalOf in Ew. injection Ew as E1 E2 E3.
      split; rewrite ?E1, ?E2, ?E3, ?sb_length0, ?sb_text0, ?sb_group0; first [done|congruence].
    + intros k k' a a' (a0 & Hk & ->)%Hl (a0' & Hk' & ->)%Hl.
      destruct (retired_bytes lang upstream keep a0), (retired_bytes lang upstream keep a0'). intros.
      eapply al_revision0; [exact Hk|exact Hk'|congruence..].
    + intros k k' a a' (a0 & Hk & ->)%Hl (a0' & Hk' & ->)%Hl Hc Hc' El Eu.
      destruct (retired_bytes lang upstream keep a0), (retired_bytes lang upstream keep a0').
      destruct (revisionOf lang upstream a0) eqn:E.
      * assert (revisionOf lang upstream a0' = true) as E' by (apply revisionOf_spec in E; apply revisionOf_spec; split; destruct E; congruence).
        apply retired_current in Hc, Hc'; [|done..]. rewrite <- (qo_key _ _ _ (al_rows0 _ _ Hk)), <- (qo_key _ _ _ (al_rows0 _ _ Hk')). congruence.
      * assert (revisionOf lang upstream a0' = false) as E'.
        { apply not_true_iff_false. intros [? ?]%revisionOf_spec. apply not_true_iff_false in E. apply E, revisionOf_spec. split; congruence. }
        rewrite retired_other in Hc, Hc' by done.
        eapply al_current0; [apply map_lookup_filter_Some; split; [exact Hk|done]|apply map_lookup_filter_Some; split; [exact Hk'|done]|congruence..].
  - intros k a Hk. exists (retired lang upstream keep a). split; [by rewrite lookup_fmap, Hk|apply retired_bytes].
  - intros k a a' Hk (a0 & Hk0 & ->)%Hl. rewrite Hk in Hk0. injection Hk0 as <-. apply retired_kept.
  - by rewrite lookup_fmap, Hq; cbn; rewrite Eq.
  - intros k Hk. rewrite lookup_fmap. destruct (db !! k) as [a|]; [|done]. cbn in *. f_equal. apply retired_other.
    destruct (revisionOf lang upstream a); congruence.
Qed.

Lemma supersede_still lang upstream keep (db : gmap UUID Quote) :
  (forall k q, db !! k = Some q -> retires lang upstream keep q = false) ->
  SupersedeOtherRevisions lang upstream keep db = (db, 0).
Proof.
  intros Hn. unfold SupersedeOtherRevisions. f_equal.
  - apply map_eq. intros k. rewrite lookup_fmap. destruct (db !! k) as [q|] eqn:Ek; [|done]. cbn. by rewrite (Hn _ _ Ek).
  - rewrite filter_none; [done|]. intros q [k Hk]%table_rows. by rewrite (Hn _ _ Hk).
Qed.

(** The incoming bytes are what is current. *)
Definition current (lang : string) (db : gmap UUID Quote) (i : Incoming) : Prop :=
  exists k q, db !! k = Some q /\ sameRevision lang (in_UpstreamID i) (in_TextHash i) q = true /\ qu_Superseded q = false.

(** What a row made for an incoming quote carries. *)
Definition made_for (lang : string) (i : Incoming) (q : Quote) : Prop :=
  qu_Lang q = lang /\ qu_UpstreamID q = in_UpstreamID i /\ qu_Text q = in_Text i /\ qu_Source q = in_Source i
  /\ qu_TextHash q = in_TextHash i /\ qu_LenGroup q = in_LenGroup i /\ qu_WithdrawnAt q = None.

(** What publishing the list does to the table. *)
Record imported (L : UUID -> Prop) (lang : string) (l : list Incoming) (db db' : gmap UUID Quote) : Prop := {
  ip_ok : quotes_ok L db';
  ip_frozen : frozen db db';
  ip_unmoderated : unmoderated db db';
  ip_others k q : db !! k = Some q -> Forall (fun i => revisionOf lang (in_UpstreamID i) q = false) l -> db' !! k = Some q;
  ip_new k q : db !! k = None -> db' !! k = Some q -> exists i, i ∈ l /\ made_for lang i q;
  ip_current : NoDup (in_UpstreamID <$> l) -> Forall (current lang db') l }.

(** The row that is kept, whatever it was before. *)
Lemma keep_imported L lang i keep q db db1 :
  quotes_ok L db -> almost_ok L lang (in_UpstreamID i) db1 ->
  db1 !! keep = Some q -> sameRevision lang (in_UpstreamID i) (in_TextHash i) q = true -> qu_Superseded q = false ->
  frozen db db1 -> unmoderated db db1 ->
  (forall k, k <> keep -> db1 !! k = db !! k) -> (forall q0, db !! keep = Some q0 -> revisionOf lang (in_UpstreamID i) q0 = true) ->
  (db !! keep = None -> made_for lang i q) ->
  imported L lang [i] db (SupersedeOtherRevisions lang (in_UpstreamID i) keep db1).1.
Proof.
  intros Hdb Ha Hq Hr Hs Hf Hu Ho Hk Hn.
  assert (revisionOf lang (in_UpstreamID i) q = true) as Hr' by (unfold sameRevision in Hr; by bool_to_prop).
  destruct (supersede_ok L lang (in_UpstreamID i) keep q db1) as (Hok & Hf' & Hu' & Hq' & Ho'); [done..|].
  split; [done|by etrans| | | |].
  - intros k a a' E E'. destruct (Hf _ _ E) as (a1 & E1 & _). etrans; [by eapply Hu'|by eapply Hu].
  - intros k a E Hl. rewrite Forall_singleton in Hl. assert (k <> keep) as Hne by (intros ->; pose proof (Hk _ E); congruence).
    rewrite Ho'; rewrite Ho by done; [done|]. rewrite E. cbn. congruence.
  - intros k a E E'. exists i. split; [left|]. destruct (decide (k = keep)) as [->|Hne].
    + rewrite Hq' in E'. injection E' as <-. by apply Hn.
    + rewrite Ho' in E'; rewrite Ho in * by done; rewrite E in *; [done|by cbn].
  - intros _. apply Forall_singleton. by exists keep, q.
Qed.

Lemma FindQuoteRevision_inl L lang upstream hash db q :
  quotes_ok L db -> FindQuoteRevision lang upstream hash db = inl q ->
  db !! qu_ID q = Some q /\ sameRevision lang upstream hash q = true.
Proof. intros Hdb (k & Hk & Hq)%one_inl. by rewrite (qo_key _ _ _ (qs_rows _ _ Hdb _ _ Hk)). Qed.

(** What an insert takes. *)
Definition incoming_ok (i : Incoming) : bool :=
  Valid (in_LenGroup i) && (in_Length i =? Utf8.rune_count (in_Text i)) && (0 <? in_Length i).

Lemma InsertQuoteRevision_inl id now lang i db db' :
  InsertQuoteRevision id now lang i db = inl db' ->
  db' = <[id := revision id now lang i]> db /\ db !! id = None /\ incoming_ok i = true.
Proof.
  unfold InsertQuoteRevision, incoming_ok. destruct (Valid _); [|done]. destruct (_ =? _); [|done]. cbn.
  destruct (_ <=? _) eqn:El; [done|]. case_bool_decide as Ei; [done|]. destruct (existsb _ _); [done|].
  intros [= <-]. split_and!; [done|by apply eq_None_not_Some|lia].
Qed.

Lemma InsertQuoteRevision_some id now lang i db :
  incoming_ok i = true -> db !! id = None ->
  (forall k q, db !! k = Some q -> sameRevision lang (in_UpstreamID i) (in_TextHash i) q = false) ->
  InsertQuoteRevision id now lang i db = inl (<[id := revision id now lang i]> db).
Proof.
  unfold InsertQuoteRevision, incoming_ok. intros Hi Hid Hn. bool_to_prop. rewrite H4, H6, Z.eqb_refl. cbn.
  destruct (_ <=? _) eqn:El; [lia|]. rewrite bool_decide_eq_false_2 by (by rewrite Hid; intros []).
  replace (existsb _ _) with false; [done|]. symmetry. apply not_true_iff_false. intros (q & Hq & Hs)%existsb_exists.
  apply list_elem_of_In, table_rows in Hq as [k Hk]. rewrite (Hn _ _ Hk) in Hs. done.
Qed.

Lemma revision_same id now lang i : sameRevision lang (in_UpstreamID i) (in_TextHash i) (revision id now lang i) = true.
Proof. unfold sameRevision, revisionOf. cbn. by rewrite !String.eqb_refl, Z.eqb_refl. Qed.

Lemma almost_insert L lang upstream k q db :
  quotes_ok L db -> quote_ok L k q -> revisionOf lang upstream q = true ->
  (forall k' q', k' <> k -> db !! k' = Some q' -> sameRevision lang upstream (qu_TextHash q) q' = false) ->
  almost_ok L lang upstream (<[k := q]> db).
Proof.
  intros [] Hq [El Eu]%revisionOf_spec Hn. split.
  - by apply map_Forall_insert_2.
  - assert (forall k' q', k <> k' -> db !! k' = Some q' -> qu_Lang q' = qu_Lang q -> qu_UpstreamID q' = qu_UpstreamID q ->
              qu_TextHash q' = qu_TextHash q -> False) as Ho.
    { intros k' q' Hne Hk ???. pose proof (Hn k' q' (not_eq_sym Hne) Hk) as Hf. apply not_true_iff_false in Hf.
      apply Hf, sameRevision_spec. split_and!; congruence. }
    intros k1 k2 a b [[<- <-]|[N1 K1]]%lookup_insert_Some [[<- <-]|[N2 K2]]%lookup_insert_Some; [done| | |by eapply qs_revision0].
    + intros. exfalso. by eapply (Ho k2 b).
    + intros. exfalso. by eapply (Ho k1 a).
  - intros k1 k2 a b [[[<- <-]|[N1 K1]]%lookup_insert_Some F1]%map_lookup_filter_Some
      [[[<- <-]|[N2 K2]]%lookup_insert_Some F2]%map_lookup_filter_Some; cbn in F1, F2; [done| | |by eapply qs_current0];
      by rewrite (proj2 (revisionOf_spec _ _ _) (conj El Eu)) in *.
Qed.

Lemma supersede_dom lang upstream keep (db : gmap UUID Quote) k :
  is_Some ((SupersedeOtherRevisions lang upstream keep db).1 !! k) <-> is_Some (db !! k).
Proof. cbn. by rewrite lookup_fmap, fmap_is_Some. Qed.

Lemma republish_imported L lang i q db :
  quotes_ok L db -> db !! qu_ID q = Some q -> sameRevision lang (in_UpstreamID i) (in_TextHash i) q = true ->
  imported L lang [i] db (SupersedeOtherRevisions lang (in_UpstreamID i) (qu_ID q) (<[qu_ID q := withSuperseded false q]> db)).1.
Proof.
  intros Hdb Hq Hr. pose proof (proj1 (sameRevision_spec _ _ _ _) Hr) as (El & Eu & Eh).
  eapply (keep_imported L lang i _ (withSuperseded false q)); try done.
  - apply almost_insert; [done| |by apply revisionOf_spec|].
    + destruct (qs_rows _ _ Hdb _ _ Hq). by split.
    + intros k' q' Hne Hk. apply not_true_iff_false. intros (? & ? & Eh')%sameRevision_spec. cbn in Eh'. apply Hne.
      eapply (qs_revision _ _ Hdb); [exact Hk|exact Hq|congruence..].
  - by rewrite lookup_insert_eq.
  - apply frozen_insert. intros q0. rewrite Hq. intros [= <-]. apply withSuperseded_bytes.
  - intros k a a' Hk [[<- <-]|[Hne Hk']]%lookup_insert_Some; [|congruence]. rewrite Hq in Hk. by injection Hk as <-.
  - intros k Hne. by rewrite lookup_insert_ne.
  - intros q0. rewrite Hq. intros [= <-]. by apply revisionOf_spec.
  - by rewrite Hq.
Qed.

Lemma insert_imported L id now lang i db :
  quotes_ok L db -> db !! id = None -> incoming_ok i = true ->
  FindQuoteRevision lang (in_UpstreamID i) (in_TextHash i) db = inr NoRows ->
  imported L lang [i] db (SupersedeOtherRevisions lang (in_UpstreamID i) id (<[id := revision id now lang i]> db)).1.
Proof.
  intros Hdb Hid Hi [_ Hn]%one_inr. unfold incoming_ok in Hi. bool_to_prop.
  eapply (keep_imported L lang i _ (revision id now lang i)); try done; [|by rewrite lookup_insert_eq|apply revision_same|..].
  - apply almost_insert; [done| |by apply revisionOf_spec|].
    + split; cbn; try done; lia.
    + intros k' q' _ Hk. by apply (Hn k').
  - apply frozen_insert. by rewrite Hid.
  - intros k a a' Hk [[<- <-]|[Hne Hk']]%lookup_insert_Some; congruence.
  - intros k Hne. by rewrite lookup_insert_ne.
  - intros q0. by rewrite Hid.
Qed.

(** Republishing a current revision writes what is there. *)
Lemma republish_cases q db :
  db !! qu_ID q = Some q -> (RepublishQuoteRevision (qu_ID q) db).1 = <[qu_ID q := withSuperseded false q]> db.
Proof.
  intros Hq. unfold RepublishQuoteRevision. rewrite Hq. destruct (qu_Superseded q) eqn:Es; [done|]. cbn.
  symmetry. apply insert_id. rewrite Hq. f_equal. destruct q; cbn in *. by subst.
Qed.

Lemma publish_imported L id now lang i db db' o :
  publish id now lang i db = inl (db', o) -> quotes_ok L db ->
  imported L lang [i] db db' /\ (forall k, is_Some (db' !! k) -> is_Some (db !! k) \/ k = id).
Proof.
  unfold publish. intros Hp Hdb. destruct (FindQuoteRevision _ _ _ _) as [q|e] eqn:Ef.
  - apply (FindQuoteRevision_inl L) in Ef as [Hq Hr]; [|done].
    pose proof (republish_cases q db Hq) as Er. destruct (RepublishQuoteRevision _ _) as [db1 restored]. cbn in Er. subst db1.
    destruct (SupersedeOtherRevisions _ _ _ _) as [db2 retired_] eqn:Es.
    pose proof (f_equal fst Es) as E2. cbn in E2. injection Hp as <- _. subst db2. split.
    + by apply republish_imported.
    + intros k Hk%supersede_dom. apply lookup_insert_is_Some' in Hk as [<-|?]; left; [by exists q|done].
  - destruct (InsertQuoteRevision _ _ _ _ _) as [db1|e'] eqn:Ei; [|done].
    apply InsertQuoteRevision_inl in Ei as (-> & Hid & Hi).
    destruct (SupersedeOtherRevisions _ _ _ _) as [db2 retired_] eqn:Es.
    pose proof (f_equal fst Es) as E2. cbn in E2. injection Hp as <- _. subst db2. split.
    + apply insert_imported; [done..|]. by apply one_inr in Ef as Ee; destruct Ee as [-> _].
    + intros k Hk%supersede_dom. apply lookup_insert_is_Some' in Hk as [<-|?]; [by right|by left].
Qed.

Lemma publish_total id now lang i db :
  incoming_ok i = true -> db !! id = None -> exists db' o, publish id now lang i db = inl (db', o).
Proof.
  intros Hi Hid. unfold publish. destruct (FindQuoteRevision _ _ _ _) as [q|e] eqn:Ef.
  - destruct (RepublishQuoteRevision _ _) as [db1 n1]. destruct (SupersedeOtherRevisions _ _ _ _) as [db2 n2]. eauto.
  - rewrite InsertQuoteRevision_some; [|done..|by eapply one_inr].
    destruct (SupersedeOtherRevisions _ _ _ _) as [db2 n2]. eauto.
Qed.

Lemma publish_same L id now lang i db :
  quotes_ok L db -> current lang db i -> publish id now lang i db = inl (db, outcomeUnchanged).
Proof.
  intros Hdb (k & q & Hk & Hr & Hs). unfold publish. destruct (FindQuoteRevision _ _ _ _) as [q'|e] eqn:Ef.
  - apply (FindQuoteRevision_inl L) in Ef as [Hq' Hr']; [|done].
    pose proof (proj1 (sameRevision_spec _ _ _ _) Hr) as (El & Eu & Eh).
    pose proof (proj1 (sameRevision_spec _ _ _ _) Hr') as (El' & Eu' & Eh').
    assert (qu_ID q' = k) as <- by (eapply (qs_revision _ _ Hdb); [exact Hq'|exact Hk|congruence..]).
    rewrite Hq' in Hk. injection Hk as ->. unfold RepublishQuoteRevision. rewrite Hq', Hs.
    rewrite supersede_still; [done|]. intros k' q' Hk'. unfold retires. apply not_true_iff_false. intros Ht.
    apply andb_true_iff in Ht as [[Ht Hne]%andb_true_iff Hs']. bool_to_prop. apply revisionOf_spec in Ht as [??]. apply Hne.
    rewrite (qo_key _ _ _ (qs_rows _ _ Hdb _ _ Hk')). eapply (qs_current _ _ Hdb); [exact Hk'|exact Hq'|congruence..].
  - apply one_inr in Ef as [_ Hn]. by rewrite (Hn _ _ Hk) in Hr.
Qed.

(** ** The import *)

Lemma imported_nil L lang db : quotes_ok L db -> imported L lang [] db db.
Proof.
  intros Hdb. split; try done.
  - intros k q q' Hk Hk'. congruence.
  - intros k q Hk Hk'. congruence.
Qed.

Lemma imported_cons L lang i l db1 db2 db3 :
  imported L lang [i] db1 db2 -> imported L lang l db2 db3 -> imported L lang (i :: l) db1 db3.
Proof.
  intros [] []. split; try done.
  - by etrans.
  - intros k q q' Hk Hk'. destruct (ip_frozen0 _ _ Hk) as (q2 & Hk2 & _). etrans; [by eapply ip_unmoderated1|by eapply ip_unmoderated0].
  - intros k q Hk [Hi Hl]%Forall_cons. apply ip_others1; [|done]. apply ip_others0; [done|]. by apply Forall_singleton.
  - intros k q Hk Hk'. destruct (db2 !! k) as [q2|] eqn:E2.
    + destruct (ip_new0 _ _ Hk E2) as (j & ->%list_elem_of_singleton & (?&?&?&?&?&?&?)). exists i. split; [left|].
      destruct (ip_frozen1 _ _ E2) as (q' & Hq' & []). rewrite Hk' in Hq'. injection Hq' as <-.
      pose proof (ip_unmoderated1 _ _ _ E2 Hk') as Ew. injection Ew as Ew _ _. split_and!; congruence.
    + destruct (ip_new1 _ _ E2 Hk') as (j & Hj & Hm). exists j. split; [by right|done].
  - rewrite fmap_cons. intros [Hi Hn]%NoDup_cons. apply Forall_cons. split; [|by apply ip_current1].
    destruct (Forall_inv (ip_current0 (NoDup_singleton _))) as (k & q & Hk & Hr & Hs). exists k, q.
    split; [|done]. apply ip_others1; [done|]. apply Forall_forall. intros j Hj. apply not_true_iff_false.
    intros [_ E]%revisionOf_spec. apply sameRevision_spec in Hr as (_ & E' & _). apply Hi, list_elem_of_fmap. exists j. split; [congruence|done].
Qed.

(** The ids an import of [k] quotes can generate are new, each only once. *)
Definition fresh_ids (ids : nat -> UUID) (n k : nat) (db : gmap UUID Quote) : Prop :=
  (forall m m', (n <= m < m' /\ m' < n + k)%nat -> ids m <> ids m')
  /\ forall m, (n <= m < n + k)%nat -> db !! ids m = None.

Lemma Import_imported L ids now lang l : forall n s db,
  quotes_ok L db -> Forall (fun i => incoming_ok i = true) l -> fresh_ids ids n (length l) db ->
  exists db' s', Import ids n now lang l s db = inl (db', s') /\ Total s' = Total s + Z.of_nat (length l)
    /\ imported L lang l db db'.
Proof.
  induction l as [|i l IH]; intros n s db Hdb Hl [Hinj Hf].
  { exists db, s. split_and!; [done|cbn; lia|by apply imported_nil]. }
  apply Forall_cons in Hl as [Hi Hl]. cbn [Import].
  cbn [length] in *.
  destruct (publish_total (ids n) now lang i db) as (db1 & o & Hp); [done|apply Hf; lia|]. rewrite Hp.
  destruct (publish_imported L _ _ _ _ _ _ _ Hp) as [Him Hd]; [done|].
  destruct (IH (S n) (counted o s) db1) as (db' & s' & HI & Ht & Him'); [by destruct Him|done|split|].
  - intros m m' Hm. apply Hinj. lia.
  - intros m Hm. apply eq_None_not_Some. intros [He|He]%Hd.
    + rewrite Hf in He by lia. by destruct He.
    + apply (Hinj n m); [lia|done].
  - exists db', s'. split_and!; [done| |by eapply imported_cons]. rewrite Ht. unfold Total. cbn [length].
    destruct o; cbn; lia.
Qed.

Lemma Import_same L ids now lang l : forall n s db,
  quotes_ok L db -> Forall (current lang db) l ->
  exists s', Import ids n now lang l s db = inl (db, s')
    /\ im_Inserted s' = im_Inserted s /\ im_Superseded s' = im_Superseded s
    /\ im_Unchanged s' = im_Unchanged s + Z.of_nat (length l).
Proof.
  induction l as [|i l IH]; intros n s db Hdb Hl; [exists s; split_and!; cbn; try done; lia|].
  apply Forall_cons in Hl as [Hi Hl]. cbn [Import]. rewrite (publish_same L) by done.
  destruct (IH (S n) (counted outcomeUnchanged s) db Hdb Hl) as (s' & HI & E1 & E2 & E3).
  exists s'. split_and!; [done..|]. rewrite E3. cbn [counted im_Unchanged length]. lia.
Qed.

Lemma Import_ok L ids now lang l : forall n s db db' s',
  Import ids n now lang l s db = inl (db', s') -> quotes_ok L db -> imported L lang l db db'.
Proof.
  induction l as [|i l IH]; intros n s db db' s'; cbn [Import].
  - intros [= <- _] Hdb. by apply imported_nil.
  - destruct (publish _ _ _ _ _) as [[db1 o]|e] eqn:Hp; [|done]. intros HI Hdb.
    destruct (publish_imported L _ _ _ _ _ _ _ Hp Hdb) as [Him _]. eapply imported_cons; [done|].
    eapply IH; [exact HI|by destruct Him].
Qed.

(** ** Every statement *)

Lemma quotes_ok_empty L : quotes_ok L ∅.
Proof. split; [apply map_Forall_empty|..]; intros ????; by rewrite lookup_empty. Qed.

Lemma quotes_ok_grow (L L' : UUID -> Prop) db : (forall k, L k -> L' k) -> quotes_ok L db -> quotes_ok L' db.
Proof.
  intros HL []. split; try done. eapply map_Forall_impl; [exact qs_rows0|]. intros k q []. split; try done.
  intros k' E. eauto.
Qed.

(** A change of rows in place that leaves what identifies them. *)
Lemma quotes_ok_fmap (L L' : UUID -> Prop) (f : Quote -> Quote) (db : gmap UUID Quote) :
  (forall k q, quote_ok L k q -> same_bytes q (f q) /\ qu_Superseded (f q) = qu_Superseded q /\ quote_ok L' k (f q)) ->
  quotes_ok L db -> quotes_ok L' (f <$> db) /\ frozen db (f <$> db).
Proof.
  intros Hf []. split.
  - split.
    + intros k q (q0 & <- & Hk)%lookup_fmap_Some. by apply Hf, qs_rows0.
    + intros k k' q q' (q0 & <- & Hk)%lookup_fmap_Some (q1 & <- & Hk')%lookup_fmap_Some.
      destruct (Hf _ _ (qs_rows0 _ _ Hk)) as [[] _], (Hf _ _ (qs_rows0 _ _ Hk')) as [[] _]. intros.
      eapply qs_revision0; [exact Hk|exact Hk'|congruence..].
    + intros k k' q q' (q0 & <- & Hk)%lookup_fmap_Some (q1 & <- & Hk')%lookup_fmap_Some.
      destruct (Hf _ _ (qs_rows0 _ _ Hk)) as ([] & ? & _), (Hf _ _ (qs_rows0 _ _ Hk')) as ([] & ? & _). intros.
      eapply qs_current0; [exact Hk|exact Hk'|congruence..].
  - intros k q Hk. exists (f q). split; [by rewrite lookup_fmap, Hk|by apply (Hf k), qs_rows0].
Qed.

Lemma exec_qquery_ok `{!Draws} {A} (q : qquery A) t now auth db :
  quotes_ok (live auth) db ->
  quotes_ok (live auth) (exec_qquery q t now (db_users auth) db).1
  /\ frozen db (exec_qquery q t now (db_users auth) db).1.
Proof.
  intros Hdb. unfold exec_qquery. destruct (forallb _ _); [|done]. destruct q; try done; cbn [exec_published].
  - destruct (WithdrawQuote _ _ _ _ _ _) as [[db' r]|] eqn:E; [|done]. by eapply WithdrawQuote_ok.
  - pose proof (RestoreQuote_ok _ id _ Hdb). by destruct (RestoreQuote id db).
  - destruct (Import _ _ _ _ _ _ _) as [[db' s]|] eqn:E; [|done]. apply (Import_ok (live auth)) in E as []; [|done].
    by split.
Qed.
End props.
