(* ===== verification/QuoteHandlers.v ===== *)
(** * internal/quote: the public registry and its moderation surface

    handler.go and admin.go as programs over the statements of QuoteStore.  The public
    routes ask for nothing; who may reach the others is decided in front of them
    (ModHandlers). *)

From Stdlib Require Import Strings.Ascii.
From S2P Require Import Prelude GoStd Effects Uuid Httpx Keyset Json AuthText AuthPassword AuthStore AuthFlow QuoteStore.

Open Scope Z_scope.

Section handlers.
Context `{Uuid} `{PgText} `{Argon2} `{!UuidOrder} `{!Env}.

Inductive qeff : Type -> Type :=
| Ask {A} (q : qquery A) : qeff (A + sqlError).
Definition qprog (A : Type) : Type := Effects.prog qeff A.
Definition ask {A} (q : qquery A) : qprog (A + sqlError) := Effects.trigger (Ask q).

(** ** What is answered *)

(** A row of the browse index: no text. *)
Record metaView := {
  mv_ID : UUID; mv_Lang : string; mv_UpstreamID : Z; mv_Source : string; mv_Length : Z;
  mv_LenGroup : string; mv_TextHash : string }.
Definition toMetaView (q : Quote) : metaView :=
  {| mv_ID := qu_ID q; mv_Lang := qu_Lang q; mv_UpstreamID := qu_UpstreamID q; mv_Source := qu_Source q;
     mv_Length := qu_Length q; mv_LenGroup := LenGroup_String (qu_LenGroup q); mv_TextHash := qu_TextHash q |}.

Record quoteView := { qv_Meta : metaView; qv_Text : string; qv_Superseded : bool }.
Definition toQuoteView (q : Quote) : quoteView :=
  {| qv_Meta := toMetaView q; qv_Text := qu_Text q; qv_Superseded := qu_Superseded q |}.

(** [Withdrawal]; no instant is "in circulation". *)
Record Withdrawal := { wi_At : option Z; wi_By : option UUID; wi_Reason : string }.
Definition toWithdrawal (q : Quote) : Withdrawal :=
  match qu_WithdrawnAt q with
  | None => {| wi_At := None; wi_By := None; wi_Reason := "" |}
  | Some t => {| wi_At := Some t; wi_By := qu_WithdrawnBy q; wi_Reason := default "" (qu_WithdrawnReason q) |}
  end.

Record withdrawalView := { wv_Withdrawn : bool; wv_At : option Z; wv_By : option UUID; wv_Reason : string }.
Definition inCirculation : withdrawalView := {| wv_Withdrawn := false; wv_At := None; wv_By := None; wv_Reason := "" |}.
Definition toWithdrawalView (w : Withdrawal) : withdrawalView :=
  match wi_At w with
  | None => inCirculation
  | Some t => {| wv_Withdrawn := true; wv_At := Some t; wv_By := wi_By w; wv_Reason := wi_Reason w |}
  end.

Record moderatedView := {
  ov_ID : UUID; ov_Lang : string; ov_UpstreamID : Z; ov_Text : string; ov_Source : string; ov_Length : Z;
  ov_LenGroup : string; ov_Superseded : bool; ov_CreatedAt : Z; ov_Withdrawal : withdrawalView }.
Definition toModeratedView (q : Quote) : moderatedView :=
  {| ov_ID := qu_ID q; ov_Lang := qu_Lang q; ov_UpstreamID := qu_UpstreamID q; ov_Text := qu_Text q;
     ov_Source := qu_Source q; ov_Length := qu_Length q; ov_LenGroup := LenGroup_String (qu_LenGroup q);
     ov_Superseded := qu_Superseded q; ov_CreatedAt := qu_CreatedAt q;
     ov_Withdrawal := toWithdrawalView (toWithdrawal q) |}.

Inductive qbody :=
| QuotesBody (l : list metaView) (nextCursor : string)
| QuoteBody (q : quoteView)
| ModeratedBody (q : moderatedView)
| WithdrawBody (id : UUID) (changed : bool) (w : withdrawalView)
| QuoteError (code message : string).
Record qanswer := { qa_status : Z; qa_body : qbody }.

Definition qreply (status : Z) (b : qbody) : qanswer := {| qa_status := status; qa_body := b |}.

(** errors.go *)
Definition apiErrNotFound : qanswer := qreply 404 (QuoteError "not_found" "no such quote").
Definition apiErrBadGroup : qanswer :=
  qreply 400 (QuoteError "bad_request" "group must be one of short, medium, long, thicc").
Definition apiErrBadCursor : qanswer := qreply 400 (QuoteError "bad_request" "invalid cursor").
Definition apiErrInternal : qanswer := qreply 500 (QuoteError "internal" "an unexpected error occurred").
Definition apiErrBadWithdrawal : qanswer :=
  qreply 400 (QuoteError "bad_request" "reason is required and must be at most 500 characters").

(** ** handler.go *)

Definition defaultLimit : Z := 50.
Definition maxLimit : Z := 200.

Definition encodeCursor (c : Cursor) : string :=
  EncodeCursor [cu_Lang c; Strconv.Itoa (Int.int16 (cu_Group c)); uuid_String (cu_ID c)].
Definition decodeCursor (token : string) : option Cursor :=
  match DecodeCursor token 3 with
  | Some [lang; group; id] =>
    group ← Strconv.ParseInt 16 group;
    if negb (Valid group) then None
    else id ← uuid_Parse id; Some {| cu_Lang := lang; cu_Group := group; cu_ID := id |}
  | _ => None
  end.

(** [filterParam]: [None] is the refusal. *)
Definition filterParam (lang group : string) : option Filter :=
  if group =s? "" then Some {| fi_Lang := lang; fi_Group := None |}
  else g ← ParseLenGroup group; Some {| fi_Lang := lang; fi_Group := Some g |}.

(** The [cursor] parameter: none, or one to refuse. *)
Definition cursorParam (raw : string) : option (option Cursor) :=
  if raw =s? "" then Some None else Some <$> decodeCursor raw.

Definition cursorAfter (q : Quote) : Cursor := {| cu_Lang := qu_Lang q; cu_Group := qu_LenGroup q; cu_ID := qu_ID q |}.

Definition handleList (lang group limit cursor : string) : qprog qanswer :=
  match filterParam lang group with
  | None => Ret apiErrBadGroup
  | Some f =>
    match cursorParam cursor with
    | None => Ret apiErrBadCursor
    | Some after =>
      let limit := ParseLimit limit defaultLimit maxLimit in
      let! rows := ask (qListQuotes f after (limit + 1)) in
      match rows with
      | inr _ => Ret apiErrInternal
      | inl rows =>
        let '(page, last) := cut_page (Z.to_nat limit) rows in
        Ret (qreply 200 (QuotesBody (toMetaView <$> page)
          (match last with Some q => encodeCursor (cursorAfter q) | None => "" end)))
      end
    end
  end.

(** [writeError] after a lookup. *)
Definition oneQuote (r : Quote + sqlError) : qanswer :=
  match r with
  | inl q => qreply 200 (QuoteBody (toQuoteView q))
  | inr (Pg NoRows) => apiErrNotFound
  | inr _ => apiErrInternal
  end.

Definition handleRandom (lang group : string) : qprog qanswer :=
  match filterParam lang group with
  | None => Ret apiErrBadGroup
  | Some f => let! q := ask (qPickRandomQuote f) in Ret (oneQuote q)
  end.

Definition handleByID (id : string) : qprog qanswer :=
  match uuid_Parse id with
  | None => Ret apiErrNotFound
  | Some id => let! q := ask (qGetQuote id) in Ret (oneQuote q)
  end.

(** ** admin.go *)

Definition maxWithdrawalReason : Z := 500.

(** [writeErr] *)
Definition writeErr (e : sqlError) : qanswer := match e with Pg NoRows => apiErrNotFound | _ => apiErrInternal end.

(** [quoteID]: the id in the path, or the refusal. *)
Definition withQuoteID (raw : string) (next : UUID -> qprog qanswer) : qprog qanswer :=
  match uuid_Parse raw with Some id => next id | None => Ret apiErrNotFound end.

Definition handleModerated (id : string) : qprog qanswer :=
  withQuoteID id (fun id =>
    let! q := ask (qGetQuoteWithdrawal id) in
    Ret (match q with inl q => qreply 200 (ModeratedBody (toModeratedView q)) | inr e => writeErr e end)).

Definition handleWithdraw (actor : UUID) (id : string) (r : request) : qprog qanswer :=
  withQuoteID id (fun id =>
    match decodeLenient ["reason"] r with
    | None => Ret apiErrBadWithdrawal
    | Some body =>
      let reason := Strs.TrimSpace (member body "reason") in
      if (reason =s? "") || (maxWithdrawalReason <? Utf8.rune_count reason) then Ret apiErrBadWithdrawal
      else
        let! w := ask (qWithdrawQuote id actor reason) in
        Ret (match w with
             | inl (q, changed) => qreply 200 (WithdrawBody id changed (toWithdrawalView (toWithdrawal q)))
             | inr e => writeErr e
             end)
    end).

Definition handleRestore (id : string) : qprog qanswer :=
  withQuoteID id (fun id =>
    let! n := ask (qRestoreQuote id) in
    Ret (match n with
         | inl n => qreply 200 (WithdrawBody id (0 <? n) inCirculation)
         | inr e => writeErr e
         end)).
End handlers.
