(* ===== verification/ModStore.v ===== *)
(** * internal/moderation/moderationdb: bans, reports and badge grants

    The three tables of migrations 00012, 00023, 00026 and 00029, one definition per
    statement with the constraints it can violate.  The accounts are AuthStore's, the
    quotes QuoteStore's; of runs a report's queue needs two columns.  Instants are microseconds;
    ids and instants the database chooses are arguments. *)

From Stdlib Require Import Strings.Ascii.
From S2P Require Import Prelude GoStd Effects Uuid Keyset AuthText AuthStore QuoteStore.

Open Scope Z_scope.

Section store.
Context `{Uuid} `{PgText} `{!UuidOrder}.

(** ** Rows *)

Record Ban := {
  bw_ID : UUID; bw_UserID : UUID; bw_Reason : string; bw_IssuedBy : option string;
  bw_IssuedAt : Z; bw_ExpiresAt : option Z; bw_RevokedAt : option Z;
  bw_IssuedByUser : option UUID; bw_RevokedByUser : option UUID }.

Record Report := {
  rp_ID : UUID; rp_SubjectType : string;
  rp_SubjectUser : option UUID; rp_SubjectQuote : option UUID; rp_SubjectRun : option UUID;
  rp_Reporter : UUID; rp_Reason : string; rp_Comment : option string;
  rp_Status : string; rp_CreatedAt : Z;
  rp_ResolvedAt : option Z; rp_ResolvedBy : option UUID; rp_Note : option string }.

Record Grant := {
  gr_ID : UUID; gr_UserID : UUID; gr_Code : string; gr_GrantedAt : Z; gr_GrantedBy : option UUID;
  gr_RevokedAt : option Z; gr_RevokedBy : option UUID; gr_Order : option Z }.

(** The columns of [runs] the report queue shows. *)
Record RunRow := { rn_UserID : UUID; rn_Status : string }.

Record modDB := {
  md_bans : gmap UUID Ban;
  md_reports : gmap UUID Report;
  md_grants : gmap UUID Grant;
  md_quotes : gmap UUID Quote;
  md_runs : gmap UUID RunRow }.

Definition setBans f db := {| md_bans := f (md_bans db); md_reports := md_reports db;
  md_grants := md_grants db; md_quotes := md_quotes db; md_runs := md_runs db |}.
Definition setReports f db := {| md_bans := md_bans db; md_reports := f (md_reports db);
  md_grants := md_grants db; md_quotes := md_quotes db; md_runs := md_runs db |}.
Definition setGrants f db := {| md_bans := md_bans db; md_reports := md_reports db;
  md_grants := f (md_grants db); md_quotes := md_quotes db; md_runs := md_runs db |}.
Definition setQuotes f db := {| md_bans := md_bans db; md_reports := md_reports db;
  md_grants := md_grants db; md_quotes := f (md_quotes db); md_runs := md_runs db |}.

(** A nullable reference is to a row that is there. *)
Definition refers {A} (t : gmap UUID A) (r : option UUID) : bool :=
  match r with Some k => bool_decide (is_Some (t !! k)) | None => true end.

Definition later_first (a b : Z) : bool := b <? a.

(** ** Accounts *)

Record modUser := { mu_ID : UUID; mu_DisplayName : string }.

Definition asModUser (u : User) : modUser := {| mu_ID := us_ID u; mu_DisplayName := us_DisplayName u |}.

Definition by_id (us : list User) : list User := order_by (fun u => uuid_key (us_ID u)) Z.ltb us.

Definition ResolveUserByID (id : UUID) (auth : authDB) : modUser + pgError :=
  match db_users auth !! id with Some u => inl (asModUser u) | None => inr NoRows end.

Definition ResolveUserByDisplayName (name : string) (auth : authDB) : list modUser :=
  asModUser <$> take 10 (by_id (filter (fun u => ci_eq (us_DisplayName u) name = true) (rows (db_users auth)))).

(** Any identity of the account, of any provider, verified or not. *)
Definition knownBy (email : string) (auth : authDB) (u : User) : bool :=
  existsb (fun i => bool_decide (id_UserID i = us_ID u)
    && match id_Email i with Some e => ci_eq e email | None => false end) (rows (db_identities auth)).

Definition ResolveUserByEmail (email : string) (auth : authDB) : list modUser :=
  asModUser <$> take 10 (by_id (filter (fun u => knownBy email auth u = true) (rows (db_users auth)))).

(** ** bans *)

(** The predicate of the [active_bans] view. *)
Definition inForce (now : Z) (b : Ban) : bool :=
  match bw_RevokedAt b with
  | Some _ => false
  | None => match bw_ExpiresAt b with None => true | Some t => now <? t end
  end.

Definition bannedNow (now : Z) (user : UUID) (b : Ban) : bool :=
  bool_decide (bw_UserID b = user) && inForce now b.

Definition IsRestricted (now : Z) (user : UUID) (db : modDB) : bool :=
  existsb (bannedNow now user) (rows (md_bans db)).

(** Among bans in force, which the code takes to be one, the last issued; the order of
    equal instants is the database's. *)
Definition ActiveBanFor (now : Z) (user : UUID) (db : modDB) : Ban + pgError :=
  match order_by bw_IssuedAt later_first (filter (fun b => bannedNow now user b = true) (rows (md_bans db))) with
  | b :: _ => inl b
  | [] => inr NoRows
  end.

Record BanParams := {
  bp_Reason : string; bp_IssuedBy : option string; bp_IssuedByUser : option UUID; bp_ExpiresAt : option Z }.

Definition issued (id : UUID) (now : Z) (user : UUID) (p : BanParams) : Ban :=
  {| bw_ID := id; bw_UserID := user; bw_Reason := bp_Reason p; bw_IssuedBy := bp_IssuedBy p;
     bw_IssuedAt := now; bw_ExpiresAt := bp_ExpiresAt p; bw_RevokedAt := None;
     bw_IssuedByUser := bp_IssuedByUser p; bw_RevokedByUser := None |}.

Definition InsertBan (id : UUID) (now : Z) (user : UUID) (p : BanParams) (auth : authDB) (db : modDB)
    : modDB * Ban + pgError :=
  if bool_decide (is_Some (md_bans db !! id)) then inr (Violates "bans_pkey")
  else if negb (bool_decide (is_Some (db_users auth !! user))) then inr (Violates "bans_user_id_fkey")
  else if negb (refers (db_users auth) (bp_IssuedByUser p)) then inr (Violates "bans_issued_by_user_fkey")
  else inl (setBans (insert id (issued id now user p)) db, issued id now user p).

Definition amended (now : Z) (p : BanParams) (b : Ban) : Ban :=
  {| bw_ID := bw_ID b; bw_UserID := bw_UserID b; bw_Reason := bp_Reason p; bw_IssuedBy := bp_IssuedBy p;
     bw_IssuedAt := now; bw_ExpiresAt := bp_ExpiresAt p; bw_RevokedAt := bw_RevokedAt b;
     bw_IssuedByUser := bp_IssuedByUser p; bw_RevokedByUser := bw_RevokedByUser b |}.

(** Whatever has become of the row since it was read. *)
Definition UpdateBan (now : Z) (id : UUID) (p : BanParams) (auth : authDB) (db : modDB)
    : modDB * Ban + pgError :=
  match md_bans db !! id with
  | None => inr NoRows
  | Some b =>
    if negb (refers (db_users auth) (bp_IssuedByUser p)) then inr (Violates "bans_issued_by_user_fkey")
    else inl (setBans (insert id (amended now p b)) db, amended now p b)
  end.

Definition revoked (now : Z) (by_ : option UUID) (b : Ban) : Ban :=
  {| bw_ID := bw_ID b; bw_UserID := bw_UserID b; bw_Reason := bw_Reason b; bw_IssuedBy := bw_IssuedBy b;
     bw_IssuedAt := bw_IssuedAt b; bw_ExpiresAt := bw_ExpiresAt b; bw_RevokedAt := Some now;
     bw_IssuedByUser := bw_IssuedByUser b; bw_RevokedByUser := by_ |}.

Definition RevokeBan (now : Z) (id : UUID) (by_ : option UUID) (auth : authDB) (db : modDB)
    : modDB * Ban + pgError :=
  match md_bans db !! id with
  | Some b =>
    match bw_RevokedAt b with
    | Some _ => inr NoRows
    | None =>
      if negb (refers (db_users auth) by_) then inr (Violates "bans_revoked_by_user_fkey")
      else inl (setBans (insert id (revoked now by_ b)) db, revoked now by_ b)
    end
  | None => inr NoRows
  end.

(** A ban with its account's name and whether the account is restricted now. *)
Definition listed (now : Z) (auth : authDB) (db : modDB) (b : Ban) : option (Ban * string * bool) :=
  u ← db_users auth !! bw_UserID b;
  Some (b, us_DisplayName u, IsRestricted now (bw_UserID b) db).

Definition ListBans (now : Z) (onlyActive : bool) (limit : Z) (auth : authDB) (db : modDB)
    : list (Ban * string * bool) :=
  take (Z.to_nat limit) (omap (listed now auth db)
    (order_by bw_IssuedAt later_first
      (filter (fun b => negb onlyActive || inForce now b = true) (rows (md_bans db))))).

Definition ListBansForUser (now : Z) (user : UUID) (auth : authDB) (db : modDB) : list (Ban * string * bool) :=
  omap (listed now auth db)
    (order_by bw_IssuedAt later_first (filter (fun b => bw_UserID b = user) (rows (md_bans db)))).

(** ** reports *)

Definition StatusOpen : string := "open".
Definition StatusActioned : string := "actioned".
Definition StatusDismissed : string := "dismissed".

(** The four columns that say what a report is about. *)
Record subjectCols := {
  sc_Type : string; sc_User : option UUID; sc_Quote : option UUID; sc_Run : option UUID }.

#[export] Instance subjectCols_eq : EqDecision subjectCols.
Proof. solve_decision. Defined.

Definition subjectOfRow (r : Report) : subjectCols :=
  {| sc_Type := rp_SubjectType r; sc_User := rp_SubjectUser r;
     sc_Quote := rp_SubjectQuote r; sc_Run := rp_SubjectRun r |}.

Definition isOpen (r : Report) : bool := rp_Status r =s? StatusOpen.

(** [reports_subject_exactly_one] *)
Definition exactlyOne (c : subjectCols) : bool :=
  let set (o : option UUID) := bool_decide (is_Some o) in
  (Z.b2z (set (sc_User c)) + Z.b2z (set (sc_Quote c)) + Z.b2z (set (sc_Run c)) =? 1)
  && (negb (sc_Type c =s? "user") || set (sc_User c))
  && (negb (sc_Type c =s? "quote") || set (sc_Quote c))
  && (negb (sc_Type c =s? "run") || set (sc_Run c)).

Definition reasonsOf (subjectType : string) : list string :=
  if subjectType =s? "user" then ["offensive_name"; "impersonation"; "cheating"; "other"]
  else if subjectType =s? "quote" then ["typo"; "wrong_language"; "offensive"; "other"]
  else if subjectType =s? "run" then ["cheating"; "impossible_score"; "other"]
  else [].

Definition oneOf (s : string) (l : list string) : bool := existsb (String.eqb s) l.

(** [reports_open_user_uniq], [reports_open_quote_uniq] and [reports_open_run_uniq]: an
    open report of one player on one row. *)
Definition sameRef (a b : option UUID) : bool := bool_decide (is_Some a) && bool_decide (a = b).
Definition openTwice (reporter : UUID) (c : subjectCols) (r : Report) : bool :=
  isOpen r && bool_decide (rp_Reporter r = reporter)
  && (sameRef (rp_SubjectUser r) (sc_User c) || sameRef (rp_SubjectQuote r) (sc_Quote c)
      || sameRef (rp_SubjectRun r) (sc_Run c)).

(** The statement inserts nothing, and answers no row, where it would repeat a unique
    key.  The CHECKs come first, the references last. *)
Definition CreateReport (id : UUID) (now : Z) (c : subjectCols) (reporter : UUID) (reason : string)
    (comment : option string) (auth : authDB) (db : modDB) : modDB * Report + pgError :=
  if negb (oneOf (sc_Type c) ["user"; "quote"; "run"]) then inr (Violates "reports_subject_type_check")
  else if negb (exactlyOne c) then inr (Violates "reports_subject_exactly_one")
  else if negb (oneOf reason (reasonsOf (sc_Type c))) then inr (Violates "reports_reason_matches_subject")
  else if match comment with
          | Some s => negb ((1 <=? Utf8.rune_count s) && (Utf8.rune_count s <=? 1000))
          | None => false
          end then inr (Violates "reports_comment_length")
  else if bool_decide (sc_User c = Some reporter) then inr (Violates "reports_no_self_report")
  else if bool_decide (is_Some (md_reports db !! id)) || existsb (openTwice reporter c) (rows (md_reports db))
  then inr NoRows
  else if negb (refers (db_users auth) (sc_User c)) then inr (Violates "reports_subject_user_id_fkey")
  else if negb (refers (md_quotes db) (sc_Quote c)) then inr (Violates "reports_subject_quote_id_fkey")
  else if negb (refers (md_runs db) (sc_Run c)) then inr (Violates "reports_subject_run_id_fkey")
  else if negb (bool_decide (is_Some (db_users auth !! reporter))) then inr (Violates "reports_reporter_id_fkey")
  else
    let r := {| rp_ID := id; rp_SubjectType := sc_Type c; rp_SubjectUser := sc_User c;
                rp_SubjectQuote := sc_Quote c; rp_SubjectRun := sc_Run c; rp_Reporter := reporter;
                rp_Reason := reason; rp_Comment := comment; rp_Status := StatusOpen; rp_CreatedAt := now;
                rp_ResolvedAt := None; rp_ResolvedBy := None; rp_Note := None |} in
    inl (setReports (insert id r) db, r).

Definition openOn (c : subjectCols) (r : Report) : bool := isOpen r && bool_decide (subjectOfRow r = c).

Definition FindOpenReport (reporter : UUID) (c : subjectCols) (db : modDB) : Report + pgError :=
  one (fun r => bool_decide (rp_Reporter r = reporter) && openOn c r) (md_reports db).

Definition CountOpenReportsBy (reporter : UUID) (db : modDB) : Z :=
  Z.of_nat (length (filter (fun r => bool_decide (rp_Reporter r = reporter) && isOpen r = true) (rows (md_reports db)))).

Definition resolved (now : Z) (status : string) (resolver : UUID) (note : option string) (r : Report) : Report :=
  {| rp_ID := rp_ID r; rp_SubjectType := rp_SubjectType r; rp_SubjectUser := rp_SubjectUser r;
     rp_SubjectQuote := rp_SubjectQuote r; rp_SubjectRun := rp_SubjectRun r; rp_Reporter := rp_Reporter r;
     rp_Reason := rp_Reason r; rp_Comment := rp_Comment r; rp_Status := status; rp_CreatedAt := rp_CreatedAt r;
     rp_ResolvedAt := Some now; rp_ResolvedBy := Some resolver; rp_Note := note |}.

Definition ResolveSubjectReports (now : Z) (c : subjectCols) (status : string) (resolver : UUID)
    (note : option string) (auth : authDB) (db : modDB) : modDB * Z + pgError :=
  let hit := filter (fun r => openOn c r = true) (rows (md_reports db)) in
  match hit with
  | [] => inl (db, 0)
  | _ =>
    if negb (oneOf status [StatusOpen; StatusActioned; StatusDismissed]) then inr (Violates "reports_status_check")
    else if status =s? StatusOpen then inr (Violates "reports_resolution_complete")
    else if negb (bool_decide (is_Some (db_users auth !! resolver))) then inr (Violates "reports_resolved_by_fkey")
    else inl (setReports (fmap (fun r => if openOn c r then resolved now status resolver note r else r)) db,
              Z.of_nat (length hit))
  end.

(** *** The queue *)

(** One row of the queue: a subject and what its open reports amount to. *)
Record queueRow := {
  qr_Subject : subjectCols; qr_Open : Z; qr_First : Z; qr_Last : Z; qr_Reasons : list string;
  qr_UserName : option string; qr_QuoteText : option string; qr_QuoteLang : option string;
  qr_QuoteWithdrawn : bool; qr_RunOwner : option string; qr_RunStatus : option string }.

Definition minimum (x : Z) (l : list Z) : Z := foldr Z.min x l.
Definition maximum (x : Z) (l : list Z) : Z := foldr Z.max x l.

Definition string_lt (a b : string) : bool := bool_decide (String.compare a b = Lt).

(** [array_agg(DISTINCT … ORDER BY …)]; the texts are ASCII words. *)
Definition distinct_sorted (l : list string) : list string := order_by id string_lt (remove_dups l).

Definition group (auth : authDB) (db : modDB) (open : list Report) (c : subjectCols) : queueRow :=
  let g := filter (fun r => subjectOfRow r = c) open in
  let at_ := rp_CreatedAt <$> g in
  let user := sc_User c ≫= (fun k => db_users auth !! k) in
  let quote := sc_Quote c ≫= (fun k => md_quotes db !! k) in
  let run := sc_Run c ≫= (fun k => md_runs db !! k) in
  {| qr_Subject := c; qr_Open := Z.of_nat (length g);
     qr_First := minimum (default 0 (head at_)) at_; qr_Last := maximum (default 0 (head at_)) at_;
     qr_Reasons := distinct_sorted (rp_Reason <$> g);
     qr_UserName := us_DisplayName <$> user;
     qr_QuoteText := qu_Text <$> quote; qr_QuoteLang := qu_Lang <$> quote;
     qr_QuoteWithdrawn := match quote with Some q => isWithdrawn q | None => false end;
     qr_RunOwner := us_DisplayName <$> (run ≫= (fun r => db_users auth !! rn_UserID r));
     qr_RunStatus := rn_Status <$> run |}.

(** Most reported first, then the one reported earliest. *)
Definition pressing (a b : Z * Z) : bool := (b.1 <? a.1) || ((a.1 =? b.1) && (a.2 <? b.2)).

Definition openReports (kind : option string) (db : modDB) : list Report :=
  filter (fun r => isOpen r && match kind with Some t => rp_SubjectType r =s? t | None => true end = true)
    (rows (md_reports db)).

Definition ListReportQueue (kind : option string) (limit : Z) (auth : authDB) (db : modDB) : list queueRow :=
  let open := openReports kind db in
  take (Z.to_nat limit) (order_by (fun q => (qr_Open q, qr_First q)) pressing
    (group auth db open <$> remove_dups (subjectOfRow <$> open))).

(** A report with its reporter's name and its resolver's. *)
Definition ListReportsForSubject (c : subjectCols) (limit : Z) (auth : authDB) (db : modDB)
    : list (Report * string * option string) :=
  take (Z.to_nat limit) (omap (fun r =>
      u ← db_users auth !! rp_Reporter r;
      Some (r, us_DisplayName u, us_DisplayName <$> (rp_ResolvedBy r ≫= (fun k => db_users auth !! k))))
    (order_by rp_CreatedAt later_first (filter (fun r => subjectOfRow r = c) (rows (md_reports db))))).

(** ** user_badges *)

(** [^\[a-z\]\[a-z0-9_\]{1,39}$] *)
Definition code_byte (b : Z) : bool := ((97 <=? b) && (b <=? 122)) || ((48 <=? b) && (b <=? 57)) || (b =? 95).
Definition badgeShape (code : string) : bool :=
  match bytes_of code with
  | b :: bs => ((97 <=? b) && (b <=? 122)) && forallb code_byte bs
               && (1 <=? Z.of_nat (length bs)) && (Z.of_nat (length bs) <=? 39)
  | [] => false
  end.

Definition liveGrant (user : UUID) (code : string) (g : Grant) : bool :=
  bool_decide (gr_UserID g = user) && (gr_Code g =s? code) && bool_decide (gr_RevokedAt g = None).

(** A live grant of the same badge is answered as it is. *)
Definition GrantBadge (id : UUID) (now : Z) (user : UUID) (code : string) (by_ : option UUID)
    (auth : authDB) (db : modDB) : modDB * Grant + pgError :=
  if negb (badgeShape code) then inr (Violates "user_badges_badge_code_check")
  else
    match one (liveGrant user code) (md_grants db) with
    | inl g => inl (db, g)
    | inr _ =>
      if bool_decide (is_Some (md_grants db !! id)) then inr (Violates "user_badges_pkey")
      else if negb (bool_decide (is_Some (db_users auth !! user))) then inr (Violates "user_badges_user_id_fkey")
      else if negb (refers (db_users auth) by_) then inr (Violates "user_badges_granted_by_fkey")
      else
        let g := {| gr_ID := id; gr_UserID := user; gr_Code := code; gr_GrantedAt := now; gr_GrantedBy := by_;
                    gr_RevokedAt := None; gr_RevokedBy := None; gr_Order := None |} in
        inl (setGrants (insert id g) db, g)
    end.

Definition withdrawn (now : Z) (by_ : option UUID) (g : Grant) : Grant :=
  {| gr_ID := gr_ID g; gr_UserID := gr_UserID g; gr_Code := gr_Code g; gr_GrantedAt := gr_GrantedAt g;
     gr_GrantedBy := gr_GrantedBy g; gr_RevokedAt := Some now; gr_RevokedBy := by_; gr_Order := gr_Order g |}.

Definition RevokeBadge (now : Z) (user : UUID) (code : string) (by_ : option UUID) (auth : authDB) (db : modDB)
    : modDB * Grant + pgError :=
  match one (liveGrant user code) (md_grants db) with
  | inr e => inr e
  | inl g =>
    if negb (refers (db_users auth) by_) then inr (Violates "user_badges_revoked_by_fkey")
    else inl (setGrants (insert (gr_ID g) (withdrawn now by_ g)) db, withdrawn now by_ g)
  end.

(** A grant with the names of who granted and who revoked it. *)
Definition ListBadgesOfUser (user : UUID) (auth : authDB) (db : modDB) : list (Grant * option string * option string) :=
  let name k := us_DisplayName <$> (k ≫= (fun k => db_users auth !! k)) in
  (fun g => (g, name (gr_GrantedBy g), name (gr_RevokedBy g)))
    <$> order_by gr_GrantedAt later_first (filter (fun g => gr_UserID g = user) (rows (md_grants db))).

Definition ListHoldersOfBadge (code : string) (limit : Z) (auth : authDB) (db : modDB) : list (UUID * string * Z) :=
  take (Z.to_nat limit) (omap (fun g =>
      u ← db_users auth !! gr_UserID g; Some (gr_UserID g, us_DisplayName u, gr_GrantedAt g))
    (order_by gr_GrantedAt later_first
      (filter (fun g => (gr_Code g =s? code) && bool_decide (gr_RevokedAt g = None) = true) (rows (md_grants db))))).

(** ** What an account's deletion takes with it, and what it only detaches *)

Definition forget (user : UUID) (r : option UUID) : option UUID :=
  if bool_decide (r = Some user) then None else r.

Definition aboutRunOf (user : UUID) (db : modDB) (r : Report) : bool :=
  match rp_SubjectRun r ≫= (fun k => md_runs db !! k) with
  | Some run => bool_decide (rn_UserID run = user)
  | None => false
  end.

Definition dropUser (user : UUID) (db : modDB) : modDB :=
  {| md_bans := fmap (fun b =>
       {| bw_ID := bw_ID b; bw_UserID := bw_UserID b; bw_Reason := bw_Reason b; bw_IssuedBy := bw_IssuedBy b;
          bw_IssuedAt := bw_IssuedAt b; bw_ExpiresAt := bw_ExpiresAt b; bw_RevokedAt := bw_RevokedAt b;
          bw_IssuedByUser := forget user (bw_IssuedByUser b); bw_RevokedByUser := forget user (bw_RevokedByUser b) |})
       (filter (fun kb => bw_UserID kb.2 <> user) (md_bans db));
     md_reports := fmap (fun r =>
       {| rp_ID := rp_ID r; rp_SubjectType := rp_SubjectType r; rp_SubjectUser := rp_SubjectUser r;
          rp_SubjectQuote := rp_SubjectQuote r; rp_SubjectRun := rp_SubjectRun r; rp_Reporter := rp_Reporter r;
          rp_Reason := rp_Reason r; rp_Comment := rp_Comment r; rp_Status := rp_Status r;
          rp_CreatedAt := rp_CreatedAt r; rp_ResolvedAt := rp_ResolvedAt r;
          rp_ResolvedBy := forget user (rp_ResolvedBy r); rp_Note := rp_Note r |})
       (filter (fun kr => rp_Reporter kr.2 <> user /\ rp_SubjectUser kr.2 <> Some user
                          /\ aboutRunOf user db kr.2 = false)
          (md_reports db));
     md_grants := fmap (fun g =>
       {| gr_ID := gr_ID g; gr_UserID := gr_UserID g; gr_Code := gr_Code g; gr_GrantedAt := gr_GrantedAt g;
          gr_GrantedBy := forget user (gr_GrantedBy g); gr_RevokedAt := gr_RevokedAt g;
          gr_RevokedBy := forget user (gr_RevokedBy g); gr_Order := gr_Order g |})
       (filter (fun kg => gr_UserID kg.2 <> user) (md_grants db));
     md_quotes := fmap (fun q =>
       withWithdrawal (qu_WithdrawnAt q) (forget user (qu_WithdrawnBy q)) (qu_WithdrawnReason q) q) (md_quotes db);
     md_runs := filter (fun kr => rn_UserID kr.2 <> user) (md_runs db) |}.
End store.
