(* ===== verification/ProfileStore.v ===== *)
(** * internal/profile: what a profile's owner writes, and finding players

    The texts and links a profile may hold (links.go, me_profile.go); the statements on the account's own columns (AuthStore), on [user_links] (migration
    00029), on the places of badges (ModStore's grants), and the player search. *)

From Stdlib Require Import Strings.Ascii.
From S2P Require Import Prelude GoStd Uuid Keyset AuthText AuthStore ModStore.

Open Scope Z_scope.

(** * internal/profile: the texts of a profile

    links.go's handle grammars, which migration 00029 repeats as CHECKs, and the
    normalisation of free text in me_profile.go: what it lets through fits the columns it
    is stored in. *)

(** ** links.go *)

Definition alnum (b : Z) : bool :=
  ((65 <=? b) && (b <=? 90)) || ((97 <=? b) && (b <=? 122)) || ((48 <=? b) && (b <=? 57)).

Definition within_ (lo hi : Z) (l : list Z) : bool := (lo <=? Z.of_nat (length l)) && (Z.of_nat (length l) <=? hi).

(** [^\[A-Za-z0-9\](\[A-Za-z0-9-\]{0,37}\[A-Za-z0-9\])?$] *)
Definition githubHandle (bs : list Z) : bool :=
  match bs with
  | [] => false
  | b :: rest =>
    alnum b &&
    match reverse rest with
    | [] => true
    | e :: middle => alnum e && forallb (fun b => alnum b || (b =? 45)) middle && within_ 0 37 middle
    end
  end.

(** [^\[A-Za-z0-9._-\]{3,30}$] *)
Definition youtubeHandle (bs : list Z) : bool :=
  forallb (fun b => alnum b || (b =? 46) || (b =? 95) || (b =? 45)) bs && within_ 3 30 bs.

(** [^\[A-Za-z0-9_\]{4,25}$] *)
Definition twitchHandle (bs : list Z) : bool := forallb (fun b => alnum b || (b =? 95)) bs && within_ 4 25 bs.

(** [linkPatterns] *)
Definition linkPattern (kind : string) : option (list Z -> bool) :=
  if kind =s? "github" then Some githubHandle
  else if kind =s? "youtube" then Some youtubeHandle
  else if kind =s? "twitch" then Some twitchHandle
  else None.

Definition LinkKinds : list string := ["github"; "twitch"; "youtube"].

Definition knownLinkKind (kind : string) : bool := bool_decide (is_Some (linkPattern kind)).

Inductive linkError := ErrUnknownLinkKind (kind : string) | ErrInvalidHandle (kind : string).

(** [None] is no error. *)
Definition ValidateLink (kind handle : string) : option linkError :=
  match linkPattern kind with
  | None => Some (ErrUnknownLinkKind kind)
  | Some pattern => if pattern (bytes_of handle) then None else Some (ErrInvalidHandle kind)
  end.

(** The table's CHECKs on [kind] and [handle]; its patterns are links.go's. *)
Definition linkChecks (kind handle : string) : bool :=
  match linkPattern kind with Some pattern => pattern (bytes_of handle) | None => false end.

(** ** normalizeText *)

Definition kept (r : Z) : bool := (r =? 10) || (r =? 9) || negb ((r <? 0x20) || (r =? 0x7F)).

(** [strings.Map] writes what it keeps anew, an invalid byte as [RuneError]. *)
Definition stripControls (value : string) : string :=
  Utf8.string_of_runes (filter (fun r => kept r = true) (Utf8.runes value)).

(** [inr] is "too long"; [inl None] clears the field. *)
Definition normalizeText (value : string) (maxLen : Z) : option string + unit :=
  let value := Strs.TrimSpace value in
  if value =s? "" then inl None
  else if maxLen <? Utf8.rune_count value then inr tt
  else
    let cleaned := Strs.TrimSpace (stripControls value) in
    inl (if cleaned =s? "" then None else Some cleaned).

(** ** What passes fits *)

Lemma drop_while_fmap {A B} (f : A -> B) (p : B -> bool) l :
  Strs.drop_while p (f <$> l) = f <$> Strs.drop_while (fun a => p (f a)) l.
Proof. induction l as [|x l IH]; [done|]. cbn. by destruct (p (f x)). Qed.

Lemma trim_fmap {A B} (f : A -> B) (p : B -> bool) l :
  Strs.trim p (f <$> l) = f <$> Strs.trim (fun a => p (f a)) l.
Proof. unfold Strs.trim. by rewrite drop_while_fmap, <- fmap_reverse, drop_while_fmap, <- fmap_reverse. Qed.

Lemma drop_while_sub {A} (p : A -> bool) l : Strs.drop_while p l `suffix_of` l.
Proof. induction l as [|x l IH]; cbn; [done|]. destruct (p x); [by apply suffix_cons_r|done]. Qed.

Lemma trim_sub {A} (p : A -> bool) l : (length (Strs.trim p l) <= length l)%nat /\ Strs.trim p l ⊆ l.
Proof.
  unfold Strs.trim. pose proof (drop_while_sub p l) as H1. pose proof (drop_while_sub p (reverse (Strs.drop_while p l))) as H2.
  split.
  - rewrite length_reverse. pose proof (suffix_length _ _ H1). pose proof (suffix_length _ _ H2). rewrite length_reverse in *. lia.
  - intros x Hx. rewrite elem_of_reverse in Hx. destruct H2 as [k2 E2]. assert (x ∈ Strs.drop_while p l) as Hx'.
    { rewrite <- elem_of_reverse, E2. apply elem_of_app. by right. }
    destruct H1 as [k1 ->]. apply elem_of_app. by right.
Qed.

(** Trimming a string written from runes trims the runes. *)
Lemma chunks_runes rs : Forall Utf8.valid_rune rs -> Utf8.chunks (rs ≫= Utf8.encode) = (fun r => (r, Utf8.encode r)) <$> rs.
Proof.
  induction 1 as [|r rs Hr Hrs IH]; [done|]. cbn [mbind list_bind fmap list_fmap].
  rewrite Utf8.chunks_encode, IH by done. done.
Qed.

Lemma encode_bytes r : Utf8.valid_rune r -> Forall is_byte (Utf8.encode r).
Proof.
  intros Hr. rewrite Utf8.encode_val by done. unfold Utf8.valid_rune in Hr.
  repeat case_match; bool_to_prop; rewrite ?Forall_cons; unfold is_byte; split_and!; try lia; apply Forall_nil_2.
Qed.

Lemma encodes_bytes rs : Forall Utf8.valid_rune rs -> Forall is_byte (rs ≫= Utf8.encode).
Proof. induction 1 as [|r rs Hr Hrs IH]; [done|]. apply Forall_app. split; [by apply encode_bytes|done]. Qed.

Lemma TrimSpace_runes rs :
  Forall Utf8.valid_rune rs ->
  Strs.TrimSpace (Utf8.string_of_runes rs) = Utf8.string_of_runes (Strs.trim Strs.is_space rs).
Proof.
  intros Hrs. unfold Strs.TrimSpace, Utf8.string_of_runes.
  rewrite bytes_of_string_of_bytes by by apply encodes_bytes.
  rewrite chunks_runes by done. rewrite trim_fmap. cbn [fst]. change (fun a : Z => Strs.is_space a) with Strs.is_space.
  f_equal. generalize (Strs.trim Strs.is_space rs). intros l. induction l as [|r l IH]; [done|]. cbn. by rewrite IH.
Qed.

Lemma encode_nonzero r : Utf8.valid_rune r -> r <> 0 -> Forall (fun b => b <> 0) (Utf8.encode r).
Proof.
  intros Hr Hz. rewrite Utf8.encode_val by done. unfold Utf8.valid_rune in Hr.
  repeat case_match; bool_to_prop; rewrite ?Forall_cons; split_and!; try lia; apply Forall_nil_2.
Qed.

(** The characters of a handle: nothing of a URL among them. *)
Definition handle_byte (b : Z) : bool := alnum b || (b =? 45) || (b =? 46) || (b =? 95).

Lemma handle_chars kind handle : linkChecks kind handle = true -> forallb handle_byte (bytes_of handle) = true.
Proof.
  assert (forall (p : Z -> bool) l, (forall b, p b = true -> handle_byte b = true) -> forallb p l = true ->
    forallb handle_byte l = true) as Himpl.
  { intros p l Hp. rewrite !forallb_forall. eauto. }
  unfold linkChecks, linkPattern. destruct (kind =s? "github"); [|destruct (kind =s? "youtube"); [|destruct (kind =s? "twitch"); [|done]]].
  - unfold githubHandle. destruct (bytes_of handle) as [|b rest]; [done|]. intros [Hb Hr]%andb_true_iff.
    cbn [forallb]. apply andb_true_iff. split; [unfold handle_byte; by rewrite Hb|].
    destruct (reverse rest) as [|e middle] eqn:E.
    { apply (f_equal reverse) in E. rewrite reverse_involutive in E. by rewrite E. }
    apply andb_true_iff in Hr as [[He Hm]%andb_true_iff _].
    assert (forallb handle_byte (e :: middle) = true) as Hall.
    { cbn. apply andb_true_iff. split; [unfold handle_byte; by rewrite He|].
      eapply Himpl; [|exact Hm]. intros x. unfold handle_byte. by intros ->. }
    rewrite <- E in Hall. rewrite forallb_forall in *. intros x Hx. apply Hall, list_elem_of_In, elem_of_reverse.
    by apply list_elem_of_In.
  - unfold youtubeHandle. intros [Hc _]%andb_true_iff. eapply Himpl; [|exact Hc]. unfold handle_byte. intros b.
    destruct (alnum b), (b =? 45), (b =? 46), (b =? 95); done.
  - unfold twitchHandle. intros [Hc _]%andb_true_iff. eapply Himpl; [|exact Hc]. unfold handle_byte. intros b.
    destruct (alnum b), (b =? 95); rewrite ?orb_true_r; done.
Qed.

Lemma ValidateLink_checks kind handle : ValidateLink kind handle = None <-> linkChecks kind handle = true.
Proof. unfold ValidateLink, linkChecks. destruct (linkPattern kind) as [p|]; [|done]. by destruct (p _). Qed.

Lemma handle_storable kind handle : ValidateLink kind handle = None -> storable handle = true.
Proof.
  intros Hc%ValidateLink_checks%handle_chars. unfold storable. rewrite forallb_forall in *.
  intros b Hb%Hc. apply negb_true_iff, Z.eqb_neq. by intros ->.
Qed.

(** A free text that passes is as long as asked at most, holds at least one character,
    and none that PostgreSQL does not store. *)
Lemma normalizeText_fits value maxLen s :
  normalizeText value maxLen = inl (Some s) -> textFits maxLen (Some s) = true.
Proof.
  unfold normalizeText, stripControls. cbv zeta. set (v := Strs.TrimSpace value).
  destruct (v =s? ""); [done|]. destruct (maxLen <? Utf8.rune_count v) eqn:El; [done|]. bool_to_prop.
  set (rs := filter (fun r => kept r = true) (Utf8.runes v)).
  assert (Forall Utf8.valid_rune rs) as Hrs.
  { apply Forall_forall. intros r [_ Hr]%list_elem_of_filter. by eapply Forall_forall in Hr; [|apply Utf8.runes_valid]. }
  destruct (trim_sub Strs.is_space rs) as [Hlen Hsub].
  assert (Forall Utf8.valid_rune (Strs.trim Strs.is_space rs)) as Ht.
  { apply Forall_forall. intros r Hr%Hsub. by eapply Forall_forall in Hr; [|exact Hrs]. }
  rewrite TrimSpace_runes by done. destruct (_ =s? "") eqn:Ee; [done|]. intros [= <-]. bool_to_prop.
  unfold textFits. rewrite !andb_true_iff, !Z.leb_le. split; [split|].
  - unfold storable, Utf8.string_of_runes. rewrite bytes_of_string_of_bytes by by apply encodes_bytes.
    apply forallb_forall. intros b Hb%list_elem_of_In. apply negb_true_iff, Z.eqb_neq.
    apply list_elem_of_bind in Hb as (r & Hb & Hr). pose proof Hr as Hv%Hsub. eapply Forall_forall in Hr; [|exact Ht].
    apply list_elem_of_filter in Hv as [Hk _]. unfold kept in Hk.
    assert (r <> 0) as Hz by (intros ->; done).
    by eapply Forall_forall in Hb; [|apply encode_nonzero].
  - assert (Utf8.rune_count (Utf8.string_of_runes (Strs.trim Strs.is_space rs)) <> 0) as Hne
      by (by intros ?%Utf8.rune_count_empty).
    unfold Utf8.rune_count in *. lia.
  - unfold Utf8.rune_count in *. rewrite Utf8.runes_string_of_runes by done.
    pose proof (length_filter (fun r => kept r = true) (Utf8.runes v)) as Hf. fold rs in Hf. lia.
Qed.

(** ** LIKE, on characters *)

(** What a pattern is made of; [\ ] takes the next character as it is. *)
Inductive like_token := Any | One | Lit (r : Z).

Definition backslash : Z := 92.
Definition percent : Z := 37.
Definition underscore : Z := 95.

Fixpoint like_tokens (p : list Z) : list like_token :=
  match p with
  | [] => []
  | r :: p' =>
    if r =? backslash then
      match p' with
      | [] => [Lit r]   (* an error in PostgreSQL; no pattern here ends so *)
      | c :: p'' => Lit c :: like_tokens p''
      end
    else (if r =? percent then Any else if r =? underscore then One else Lit r) :: like_tokens p'
  end.

Fixpoint like_match (p : list like_token) (s : list Z) : bool :=
  match p with
  | [] => match s with [] => true | _ => false end
  | Lit r :: p => match s with c :: s => (c =? r) && like_match p s | [] => false end
  | One :: p => match s with _ :: s => like_match p s | [] => false end
  | Any :: p =>
    (fix anywhere s := like_match p s || match s with [] => false | _ :: s => anywhere s end) s
  end.

Definition like (s pattern : string) : bool := like_match (like_tokens (Utf8.runes pattern)) (Utf8.runes s).

(** [likeEscaper]: the three bytes LIKE reads, each behind a backslash. *)
Definition likeEscape (s : string) : string :=
  string_of_bytes (bytes_of s ≫= fun b =>
    if (b =? backslash) || (b =? percent) || (b =? underscore) then [backslash; b] else [b]).

(** ORDER BY .. DESC on a boolean. *)
Definition true_first (a b : bool) : bool := a && negb b.

#[export] Instance true_first_total : StrictTotal true_first.
Proof.
  constructor; [by intros []|by intros [] [] []|]. intros [] [] Hne; [done|by left|by right|done].
Qed.

(** [user_links], by its primary key. *)
Abbreviation linksTable := (gmap (UUID * string) string).

Section store.
Context `{Uuid} `{PgText} `{!UuidOrder} `{!Collation}.

(** ** The account's own columns *)

Record PublicUser := {
  pu_ID : UUID; pu_DisplayName : string; pu_Joined : Z; pu_ProfilePublic : bool; pu_KeyboardPublic : bool }.

Definition asPublicUser (u : User) : PublicUser :=
  {| pu_ID := us_ID u; pu_DisplayName := us_DisplayName u; pu_Joined := us_CreatedAt u;
     pu_ProfilePublic := us_ProfilePublic u; pu_KeyboardPublic := us_KeyboardPublic u |}.

Definition GetPublicProfileUser (name : string) (auth : authDB) : PublicUser + pgError :=
  match one (fun u => ci_eq (us_DisplayName u) name) (db_users auth) with
  | inl u => inl (asPublicUser u)
  | inr e => inr e
  end.

Record Identity_ := { pi_Bio : option string; pi_Keyboard : option string }.

Definition GetPublicProfileIdentity (user : UUID) (auth : authDB) : Identity_ + pgError :=
  match db_users auth !! user with
  | Some u => inl {| pi_Bio := us_Bio u; pi_Keyboard := us_Keyboard u |}
  | None => inr NoRows
  end.

Definition GetProfileUser (user : UUID) (auth : authDB) : (string * Z) + pgError :=
  match db_users auth !! user with Some u => inl (us_DisplayName u, us_CreatedAt u) | None => inr NoRows end.

(** ** user_links *)

Record Link := { li_Kind : string; li_Handle : string }.

Definition linksOf (user : UUID) (links : linksTable) : list Link :=
  (fun kh => {| li_Kind := kh.1.2; li_Handle := kh.2 |})
    <$> filter (fun kh => kh.1.1 = user) (map_to_list links).

Definition ListUserLinks (user : UUID) (links : linksTable) : list Link :=
  order_by li_Kind text_lt (linksOf user links).

(** A kind the table's CASE does not name passes the second CHECK. *)
Definition UpsertUserLink (user : UUID) (kind handle : string) (auth : authDB) (links : linksTable)
    : linksTable + pgError :=
  if knownLinkKind kind && negb (linkChecks kind handle) then inr (Violates "user_links_handle_matches_kind")
  else if negb (knownLinkKind kind) then inr (Violates "user_links_kind_check")
  else if negb (bool_decide (is_Some (db_users auth !! user))) then inr (Violates "user_links_user_id_fkey")
  else inl (<[(user, kind) := handle]> links).

Definition DeleteUserLink (user : UUID) (kind : string) (links : linksTable) : linksTable :=
  delete (user, kind) links.

(** ON DELETE CASCADE *)
Definition dropLinks (user : UUID) (links : linksTable) : linksTable :=
  filter (fun kh => kh.1.1 <> user) links.

(** ** user_badges *)

Definition liveOf (user : UUID) (g : Grant) : bool :=
  bool_decide (gr_UserID g = user) && bool_decide (gr_RevokedAt g = None).

Definition withPlace (order : option Z) (g : Grant) : Grant :=
  {| gr_ID := gr_ID g; gr_UserID := gr_UserID g; gr_Code := gr_Code g; gr_GrantedAt := gr_GrantedAt g;
     gr_GrantedBy := gr_GrantedBy g; gr_RevokedAt := gr_RevokedAt g; gr_RevokedBy := gr_RevokedBy g;
     gr_Order := order |}.

Record GrantedBadge := { gb_Code : string; gb_GrantedAt : Z; gb_Order : option Z }.

Definition ListGrantedBadges (user : UUID) (db : modDB) : list GrantedBadge :=
  (fun g => {| gb_Code := gr_Code g; gb_GrantedAt := gr_GrantedAt g; gb_Order := gr_Order g |})
    <$> order_by (fun g => (gr_GrantedAt g, gr_Code g)) (lexicographic Z.ltb text_lt)
          (filter (fun g => liveOf user g = true) (rows (md_grants db))).

Record ShowcaseBadge := { sb_Code : string; sb_Order : Z }.

Definition shown (user : UUID) (g : Grant) : option ShowcaseBadge :=
  if liveOf user g then (fun n => {| sb_Code := gr_Code g; sb_Order := n |}) <$> gr_Order g else None.

Definition ListShowcaseBadges (user : UUID) (db : modDB) : list ShowcaseBadge :=
  order_by (fun b => (sb_Order b, sb_Code b)) (lexicographic Z.ltb text_lt) (omap (shown user) (rows (md_grants db))).

Definition ClearBadgeShowcase (user : UUID) : modDB -> modDB :=
  setGrants (fmap (fun g => if liveOf user g then withPlace None g else g)).

Definition PlaceBadgeInShowcase (user : UUID) (code : string) (order : Z) : modDB -> modDB :=
  setGrants (fmap (fun g => if liveGrant user code g then withPlace (Some order) g else g)).

(** The loop of [ApplyProfilePatch], from the place [i] on. *)
Fixpoint placeFrom (user : UUID) (i : Z) (codes : list string) (db : modDB) : modDB :=
  match codes with
  | [] => db
  | code :: codes => placeFrom user (i + 1) codes (PlaceBadgeInShowcase user code i db)
  end.

Definition arrange (user : UUID) (codes : list string) (db : modDB) : modDB :=
  placeFrom user 0 codes (ClearBadgeShowcase user db).

(** Nothing else of the database changes. *)
Lemma arrange_grants user codes db : exists f, arrange user codes db = setGrants f db.
Proof.
  unfold arrange, ClearBadgeShowcase. set (f0 := fmap _). generalize 0 as i. generalize f0 as f.
  induction codes as [|code codes IH]; intros f i; cbn; [by exists f|].
  destruct (IH (fun t => (fun g => if liveGrant user code g then withPlace (Some i) g else g) <$> f t) (i + 1)) as [f' E].
  by exists f'.
Qed.

(** ** The player search *)

Record SearchResult := { sr_DisplayName : string; sr_Joined : Z; sr_ProfilePublic : bool }.

Definition asResult (u : User) : SearchResult :=
  {| sr_DisplayName := us_DisplayName u; sr_Joined := us_CreatedAt u; sr_ProfilePublic := us_ProfilePublic u |}.

(** The ORDER BY of the search: an exact match, a prefix, the shorter name, the name. *)
Definition rank (pattern needle : string) (u : User) : (bool * bool) * (Z * string) :=
  let name := pg_lower (us_DisplayName u) in
  ((name =s? needle, like name (pattern +:+ "%")), (Utf8.rune_count (us_DisplayName u), us_DisplayName u)).


Definition ranked : (bool * bool) * (Z * string) -> (bool * bool) * (Z * string) -> bool :=
  lexicographic (lexicographic true_first true_first) (lexicographic Z.ltb text_lt).

#[export] Instance ranked_total : StrictTotal ranked.
Proof. unfold ranked. apply _. Qed.

Definition found (now : Z) (pattern : string) (mod_ : modDB) (u : User) : bool :=
  like (pg_lower (us_DisplayName u)) ("%" +:+ pattern +:+ "%") && negb (IsRestricted now (us_ID u) mod_).

Definition SearchUsersByName (now : Z) (pattern needle : string) (limit : Z) (auth : authDB) (mod_ : modDB)
    : list SearchResult :=
  asResult <$> take (Z.to_nat limit) (order_by (rank pattern needle) ranked
          (filter (fun u => found now pattern mod_ u = true) (rows (db_users auth)))).
End store.
