(* ===== verification/ModHandlers.v ===== *)
(** * internal/moderation: the store's operations and the two HTTP surfaces

    moderation.go, badges.go and reports_store.go as programs over the statements of
    ModStore, handler.go, badges_http.go and reports_http.go over those, behind the gates
    cmd/server puts in front of them.  The gates are AuthFlow's programs, whose effects
    are among this file's. *)

From Stdlib Require Import Strings.Ascii.
From S2P Require Import Prelude GoStd Effects Uuid Httpx Keyset Json AuthText AuthPassword AuthStore AuthFlow QuoteStore QuoteHandlers ModStore.

Open Scope Z_scope.

(** ** internal/badges *)

(** [knownBadges], as [Codes] lists them. *)
Definition knownBadges : list string :=
  ["beta_tester"; "bug_hunter"; "contributor"; "staff"; "tournament_winner"; "translator"].
Definition Known (code : string) : bool := oneOf code knownBadges.

Section handlers.
Context `{Uuid} `{PgText} `{Argon2} `{!UuidOrder} `{!Env}.

(** ** Effects *)

(** The statements, by the rows they answer. *)
Inductive mquery : Type -> Type :=
| qResolveUserByID (id : UUID) : mquery modUser
| qResolveUserByEmail (email : string) : mquery (list modUser)
| qResolveUserByDisplayName (name : string) : mquery (list modUser)
| qIsRestricted (user : UUID) : mquery bool
| qActiveBanFor (user : UUID) : mquery Ban
| qInsertBan (user : UUID) (p : BanParams) : mquery Ban
| qUpdateBan (id : UUID) (p : BanParams) : mquery Ban
| qRevokeBan (id : UUID) (by_ : option UUID) : mquery Ban
| qListBans (onlyActive : bool) (limit : Z) : mquery (list (Ban * string * bool))
| qListBansForUser (user : UUID) : mquery (list (Ban * string * bool))
| qCreateReport (c : subjectCols) (reporter : UUID) (reason : string) (comment : option string) : mquery Report
| qFindOpenReport (reporter : UUID) (c : subjectCols) : mquery Report
| qCountOpenReportsBy (reporter : UUID) : mquery Z
| qListReportQueue (kind : option string) (limit : Z) : mquery (list queueRow)
| qListReportsForSubject (c : subjectCols) (limit : Z) : mquery (list (Report * string * option string))
| qResolveSubjectReports (c : subjectCols) (status : string) (resolver : UUID) (note : option string) : mquery Z
| qGrantBadge (user : UUID) (code : string) (by_ : option UUID) : mquery Grant
| qRevokeBadge (user : UUID) (code : string) (by_ : option UUID) : mquery Grant
| qListBadgesOfUser (user : UUID) : mquery (list (Grant * option string * option string))
| qListHoldersOfBadge (code : string) (limit : Z) : mquery (list (UUID * string * Z)).

Inductive meff : Type -> Type :=
| Auth {X} (e : AuthFlow.eff X) : meff X
| Stmt {A} (q : mquery A) : meff (A + sqlError)
| Corpus {A} (q : qquery A) : meff (A + sqlError)  (* the quotes' statements *)
| Clock : meff Z                          (* time.Now(), in nanoseconds *)
| AllowReport (key : string) : meff bool.  (* the report surface's own limiter *)

Definition mprog (A : Type) : Type := Effects.prog meff A.

Definition meff_ {X} (e : meff X) : mprog X := Vis e Ret.
Definition stmt {A} (q : mquery A) : mprog (A + sqlError) := meff_ (Stmt q).

(** A program of the auth service, run by this one. *)
Fixpoint within {A} (p : AuthFlow.prog A) : mprog A :=
  match p with
  | Ret a => Ret a
  | Vis e k => Vis (Auth e) (fun x => within (k x))
  end.

(** A program of the quote service. *)
Fixpoint asking {A} (p : qprog A) : mprog A :=
  match p with
  | Ret a => Ret a
  | Vis e k => match e in qeff X return (X -> qprog A) -> mprog A with
               | Ask q => fun k => Vis (Corpus q) (fun x => asking (k x))
               end k
  end.

(** ** moderation.go *)

Inductive modError :=
| ErrNoSuchUser | ErrAmbiguousUser (candidates : list modUser) | ErrNotBanned | ErrUnknownBadge
| ErrSubjectMissing | ErrInternal.

(** [Actor]: the account and its name; the zero id is no account. *)
Record Actor := { ac_ID : UUID; ac_Name : string }.
Definition auditID (a : Actor) : option UUID := if bool_decide (ac_ID a = uuid_Nil) then None else Some (ac_ID a).

Definition byEmail (email : string) : mprog (list modUser + sqlError) := stmt (qResolveUserByEmail email).
Definition byDisplayName (name : string) : mprog (list modUser + sqlError) := stmt (qResolveUserByDisplayName name).

Definition ResolveUser (identifier : string) : mprog (modUser + modError) :=
  match uuid_Parse identifier with
  | Some id =>
    let! r := stmt (qResolveUserByID id) in
    match r with
    | inl u => Ret (inl u)
    | inr (Pg NoRows) => Ret (inr ErrNoSuchUser)
    | inr _ => Ret (inr ErrInternal)
    end
  | None =>
    let! r := byEmail identifier in
    match r with
    | inr _ => Ret (inr ErrInternal)
    | inl [u] => Ret (inl u)
    | inl (_ :: _ :: _ as found) => Ret (inr (ErrAmbiguousUser found))
    | inl [] =>
      let! r := byDisplayName identifier in
      match r with
      | inr _ => Ret (inr ErrInternal)
      | inl [u] => Ret (inl u)
      | inl (_ :: _ :: _ as found) => Ret (inr (ErrAmbiguousUser found))
      | inl [] => Ret (inr ErrNoSuchUser)
      end
    end
  end.

Record BanResult := { br_Ban : Ban; br_Amended : bool; br_Previous : option Ban }.

Definition banParams (reason : string) (by_ : Actor) (expiresAt : option Z) : BanParams :=
  {| bp_Reason := reason; bp_IssuedBy := Some (ac_Name by_); bp_IssuedByUser := auditID by_; bp_ExpiresAt := expiresAt |}.

(** [Store.Ban]: reads, then inserts or amends. *)
Definition BanUser (user : UUID) (reason : string) (by_ : Actor) (expiresAt : option Z) : mprog (BanResult + modError) :=
  let! existing := stmt (qActiveBanFor user) in
  match existing with
  | inr (Pg NoRows) =>
    let! row := stmt (qInsertBan user (banParams reason by_ expiresAt)) in
    match row with
    | inr _ => Ret (inr ErrInternal)
    | inl b => Ret (inl {| br_Ban := b; br_Amended := false; br_Previous := None |})
    end
  | inr _ => Ret (inr ErrInternal)
  | inl before =>
    let! row := stmt (qUpdateBan (bw_ID before) (banParams reason by_ expiresAt)) in
    match row with
    | inr _ => Ret (inr ErrInternal)
    | inl b => Ret (inl {| br_Ban := b; br_Amended := true; br_Previous := Some before |})
    end
  end.

Definition Unban (user : UUID) (by_ : Actor) : mprog (Ban + modError) :=
  let! existing := stmt (qActiveBanFor user) in
  match existing with
  | inr (Pg NoRows) => Ret (inr ErrNotBanned)
  | inr _ => Ret (inr ErrInternal)
  | inl before =>
    let! row := stmt (qRevokeBan (bw_ID before) (auditID by_)) in
    match row with
    | inr (Pg NoRows) => Ret (inr ErrNotBanned)
    | inr _ => Ret (inr ErrInternal)
    | inl b => Ret (inl b)
    end
  end.

(** [List] and [History] *)
Definition List_ (onlyActive : bool) (limit : Z) : mprog (list (Ban * string * bool) + sqlError) := stmt (qListBans onlyActive limit).
Definition History (user : UUID) : mprog (list (Ban * string * bool) + sqlError) := stmt (qListBansForUser user).
(** [Store.IsRestricted] *)
Definition restriction (user : UUID) : mprog (bool + sqlError) := stmt (qIsRestricted user).

(** ** badges.go *)

Definition GrantBadgeTo (user : UUID) (code : string) (by_ : option UUID) : mprog (Grant + modError) :=
  if negb (Known code) then Ret (inr ErrUnknownBadge)
  else
    let! r := stmt (qGrantBadge user code by_) in
    Ret (match r with inl g => inl g | inr _ => inr ErrInternal end).

Definition GrantBadgeBySystem (user : UUID) (code : string) : mprog (Grant + modError) := GrantBadgeTo user code None.

Definition RevokeBadgeOf (user : UUID) (code : string) (by_ : option UUID) : mprog (bool + modError) :=
  let! r := stmt (qRevokeBadge user code by_) in
  Ret (match r with inl _ => inl true | inr (Pg NoRows) => inl false | inr _ => inr ErrInternal end).

Definition BadgesOfUser (user : UUID) : mprog (list (Grant * option string * option string) + sqlError) :=
  stmt (qListBadgesOfUser user).
Definition HoldersOfBadge (code : string) (limit : Z) : mprog (list (UUID * string * Z) + sqlError) :=
  stmt (qListHoldersOfBadge code limit).

(** ** reports.go, reports_store.go *)

Record Subject := { sj_Type : string; sj_ID : UUID }.

Definition SubjectUser : string := "user".
Definition SubjectQuote : string := "quote".
Definition SubjectRun : string := "run".

Definition known_type (t : string) : bool := oneOf t [SubjectUser; SubjectQuote; SubjectRun].
Definition Validate (s : Subject) : bool := known_type (sj_Type s) && negb (bool_decide (sj_ID s = uuid_Nil)).
Definition ReasonValid (s : Subject) (reason : string) : bool := oneOf reason (reasonsOf (sj_Type s)).

Definition Columns (s : Subject) : subjectCols :=
  let when t := if sj_Type s =s? t then Some (sj_ID s) else None in
  {| sc_Type := sj_Type s; sc_User := when SubjectUser; sc_Quote := when SubjectQuote; sc_Run := when SubjectRun |}.

(** [subjectOf], the inverse. *)
Definition subjectOf (c : subjectCols) : option Subject :=
  let as_ (k : option UUID) := (fun k => {| sj_Type := sc_Type c; sj_ID := k |}) <$> k in
  if sc_Type c =s? SubjectUser then as_ (sc_User c)
  else if sc_Type c =s? SubjectQuote then as_ (sc_Quote c)
  else if sc_Type c =s? SubjectRun then as_ (sc_Run c)
  else None.

Definition nullableText (s : string) : option string := if s =s? "" then None else Some s.

Definition isForeignKeyViolation (e : sqlError) : bool :=
  match e with
  | Pg (Violates c) =>
    oneOf c ["reports_subject_user_id_fkey"; "reports_subject_quote_id_fkey"; "reports_subject_run_id_fkey";
             "reports_reporter_id_fkey"]
  | _ => false
  end.

(** [File]: the report and whether this call created it. *)
Definition File (s : Subject) (reporter : UUID) (reason comment : string) : mprog ((Report * bool) + modError) :=
  let! row := stmt (qCreateReport (Columns s) reporter reason (nullableText comment)) in
  match row with
  | inl r => Ret (inl (r, true))
  | inr e =>
    if isForeignKeyViolation e then Ret (inr ErrSubjectMissing)
    else
      match e with
      | Pg NoRows =>
        let! existing := stmt (qFindOpenReport reporter (Columns s)) in
        Ret (match existing with inl r => inl (r, false) | inr _ => inr ErrInternal end)
      | _ => Ret (inr ErrInternal)
      end
  end.

(** Rows of a type this build does not know are left out. *)
Definition Queue (kind : option string) (limit : Z) : mprog (list (Subject * queueRow) + modError) :=
  let! rows := stmt (qListReportQueue kind limit) in
  Ret (match rows with
       | inl rows => inl (omap (fun q => s ← subjectOf (qr_Subject q); Some (s, q)) rows)
       | inr _ => inr ErrInternal
       end).

Definition ForSubject (s : Subject) (limit : Z) : mprog (list (Report * string * option string) + sqlError) :=
  stmt (qListReportsForSubject (Columns s) limit).
Definition Resolve (s : Subject) (status : string) (resolver : UUID) (note : string) : mprog (Z + sqlError) :=
  stmt (qResolveSubjectReports (Columns s) status resolver (nullableText note)).
Definition OpenBy (reporter : UUID) : mprog (Z + sqlError) := stmt (qCountOpenReportsBy reporter).

(** ** What the surfaces answer *)

(** [Ban.Active], on the server's clock. *)
Definition Active (now : Z) (b : Ban) : bool :=
  match bw_RevokedAt b with
  | Some _ => false
  | None => match bw_ExpiresAt b with None => true | Some t => now <? 1000 * t end
  end.

Record banView := { bv_Ban : Ban; bv_DisplayName : string; bv_Active : bool }.
Definition toBanView (now : Z) (name : string) (b : Ban) : banView :=
  {| bv_Ban := b; bv_DisplayName := name; bv_Active := Active now b |}.
Definition listedViews (now : Z) (l : list (Ban * string * bool)) : list banView :=
  (fun x => toBanView now x.1.2 x.1.1) <$> l.

Record badgeGrantView := { gv_Grant : Grant; gv_GrantedBy : string; gv_RevokedBy : string; gv_Granted : bool; gv_Shown : bool }.
Definition toBadgeGrantView (g : Grant * option string * option string) : badgeGrantView :=
  {| gv_Grant := g.1.1; gv_GrantedBy := default "" g.1.2; gv_RevokedBy := default "" g.2;
     gv_Granted := bool_decide (gr_RevokedAt g.1.1 = None);
     gv_Shown := bool_decide (is_Some (gr_Order g.1.1)) |}.

Inductive mbody :=
| BansBody (l : list banView)
| UserBansBody (u : modUser) (restricted : bool) (l : list banView)
| BanBody (u : modUser) (b : banView) (amended : bool) (previous : option banView)
| UnbanBody (b : option banView)
| AmbiguousBody (candidates : list modUser)
| UserBadgesBody (u : modUser) (l : list badgeGrantView) (known : list string)
| HoldersBody (code : string) (l : list (UUID * string * Z))
| BadgeBody (u : modUser) (g : badgeGrantView)
| BadgeRevokedBody (u : modUser) (code : string) (revoked : bool)
| ReportBody (s : Subject) (r : Report)
| QueueBody (l : list (Subject * queueRow))
| SubjectBody (s : Subject) (l : list (Report * string * option string))
| ResolvedBody (s : Subject) (status : string) (n : Z)
| ErrorBody (code message : string).

(** [http.NotFound], an answer of this surface, of a gate of the auth service, or of the
    quote service. *)
Inductive manswer :=
| MNotFound | MReply (status : Z) (b : mbody) | FromAuth (a : AuthFlow.answer) | FromQuote (a : qanswer).

Definition mok (b : mbody) : manswer := MReply 200 b.
Definition writeErr (status : Z) (code message : string) : manswer := MReply status (ErrorBody code message).
Definition internalError : manswer := writeErr 500 "internal" "internal error".

(** ** handler.go *)

(** [resolve]: the account, or the refusal. *)
Definition resolve (identifier : string) (next : modUser -> mprog manswer) : mprog manswer :=
  let! u := ResolveUser identifier in
  match u with
  | inl u => next u
  | inr (ErrAmbiguousUser candidates) => Ret (MReply 409 (AmbiguousBody candidates))
  | inr ErrNoSuchUser => Ret MNotFound
  | inr _ => Ret internalError
  end.

(** [parseUntil]: [None] is an error, [Some None] no expiry; nanoseconds. *)
Definition parseUntil (until : string) (now : Z) : option (option Z) :=
  if until =s? "" then Some None
  else
    match Duration.ParseDuration until with
    | Some d => if d <=? 0 then None else Some (Some (now + d))
    | None =>
      match Calendar.ParseRFC3339 until with
      | Some t => if now <? t then Some (Some t) else None
      | None => None
      end
    end.

(** A [timestamptz] keeps microseconds. *)
Definition stored (t : option Z) : option Z := (fun t => t / 1000) <$> t.

Definition handleListBans (active limit : string) : mprog manswer :=
  let! bans := List_ (negb (active =s? "0")) (ParseLimit limit 100 500) in
  match bans with
  | inr _ => Ret internalError
  | inl bans => let! now := meff_ Clock in Ret (mok (BansBody (listedViews now bans)))
  end.

Definition handleUserBans (identifier : string) : mprog manswer :=
  resolve identifier (fun user =>
    let! history := History (mu_ID user) in
    match history with
    | inr _ => Ret internalError
    | inl history =>
      let! restricted := restriction (mu_ID user) in
      match restricted with
      | inr _ => Ret internalError
      | inl restricted =>
        let! now := meff_ Clock in Ret (mok (UserBansBody user restricted (listedViews now history)))
      end
    end).

Definition handleBan (actor : Actor) (r : request) : mprog manswer :=
  match decodeLenient ["user"; "reason"; "until"] r with
  | None => Ret (writeErr 400 "bad_request" "malformed JSON body")
  | Some req =>
    if member req "reason" =s? "" then Ret (writeErr 400 "reason_required" "a ban requires a reason")
    else
      let! now := meff_ Clock in
      match parseUntil (member req "until") now with
      | None => Ret (writeErr 400 "bad_until" "until must be a duration (72h) or an RFC3339 instant in the future")
      | Some expiresAt =>
        resolve (member req "user") (fun user =>
          let! res := BanUser (mu_ID user) (member req "reason") actor (stored expiresAt) in
          match res with
          | inr _ => Ret internalError
          | inl res =>
            let! now := meff_ Clock in
            Ret (mok (BanBody user (toBanView now "" (br_Ban res)) (br_Amended res) (toBanView now "" <$> br_Previous res)))
          end)
      end
  end.

Definition handleUnban (actor : Actor) (userID : string) : mprog manswer :=
  match uuid_Parse userID with
  | None => Ret (writeErr 400 "bad_user_id" "the unban target is a user uuid")
  | Some user =>
    let! ban := Unban user actor in
    match ban with
    | inr ErrNotBanned => Ret (mok (UnbanBody None))
    | inr _ => Ret internalError
    | inl ban => let! now := meff_ Clock in Ret (mok (UnbanBody (Some (toBanView now "" ban))))
    end
  end.

(** ** badges_http.go *)

Definition handleUserBadges (identifier : string) : mprog manswer :=
  resolve identifier (fun user =>
    let! grants := BadgesOfUser (mu_ID user) in
    match grants with
    | inr _ => Ret internalError
    | inl grants => Ret (mok (UserBadgesBody user (toBadgeGrantView <$> grants) knownBadges))
    end).

Definition handleBadgeHolders (code limit : string) : mprog manswer :=
  let! holders := HoldersOfBadge code (ParseLimit limit 100 500) in
  match holders with inr _ => Ret internalError | inl l => Ret (mok (HoldersBody code l)) end.

Definition handleGrantBadge (actor : Actor) (identifier : string) (r : request) : mprog manswer :=
  match decodeLenient ["code"] r with
  | None => Ret (writeErr 400 "bad_request" "malformed JSON body")
  | Some req =>
    resolve identifier (fun user =>
      let! grant := GrantBadgeTo (mu_ID user) (member req "code") (auditID actor) in
      match grant with
      | inr ErrUnknownBadge => Ret (writeErr 400 "unknown_badge" "no such badge code")
      | inr _ => Ret internalError
      | inl g => Ret (mok (BadgeBody user (toBadgeGrantView (g, None, None))))
      end)
  end.

Definition handleRevokeBadge (actor : Actor) (identifier code : string) : mprog manswer :=
  resolve identifier (fun user =>
    let! revoked := RevokeBadgeOf (mu_ID user) code (auditID actor) in
    match revoked with
    | inr _ => Ret internalError
    | inl revoked => Ret (mok (BadgeRevokedBody user code revoked))
    end).

(** ** reports_http.go *)

Definition maxComment : Z := 1000.
Definition maxResolutionNote : Z := 1000.
Definition queueDefaultLimit : Z := 50.
Definition queueMaxLimit : Z := 200.
Definition subjectReportsLimit : Z := 200.
Definition maxOpenReportsPerUser : Z := 20.

Record fileRequest := { fr_Type : string; fr_ID : string; fr_Reason : string; fr_Comment : string }.

Definition dec_subject : Json.decoder fileRequest :=
  Json.dec_struct ["type"; "id"] (fun f =>
    if f =s? "type"
    then Json.field fr_Type (fun s a => {| fr_Type := s; fr_ID := fr_ID a; fr_Reason := fr_Reason a; fr_Comment := fr_Comment a |}) Json.dec_string
    else Json.field fr_ID (fun s a => {| fr_Type := fr_Type a; fr_ID := s; fr_Reason := fr_Reason a; fr_Comment := fr_Comment a |}) Json.dec_string).

Definition dec_file : Json.decoder fileRequest :=
  Json.dec_struct ["subject"; "reason"; "comment"] (fun f =>
    if f =s? "subject" then dec_subject
    else if f =s? "reason"
    then Json.field fr_Reason (fun s a => {| fr_Type := fr_Type a; fr_ID := fr_ID a; fr_Reason := s; fr_Comment := fr_Comment a |}) Json.dec_string
    else Json.field fr_Comment (fun s a => {| fr_Type := fr_Type a; fr_ID := fr_ID a; fr_Reason := fr_Reason a; fr_Comment := s |}) Json.dec_string).

Definition decodeFile (r : request) : option fileRequest :=
  j ← rq_Body r; Json.unmarshal dec_file {| fr_Type := ""; fr_ID := ""; fr_Reason := ""; fr_Comment := "" |} j.

Definition parseSubject (subjectType subjectID : string) : option Subject :=
  id ← uuid_Parse subjectID;
  let s := {| sj_Type := subjectType; sj_ID := id |} in
  if Validate s then Some s else None.

Definition handleFile (reporter : UUID) (r : request) : mprog manswer :=
  let! allowed := meff_ (AllowReport (uuid_String reporter)) in
  if negb allowed then Ret (writeErr 429 "rate_limited" "too many reports, slow down")
  else
    match decodeFile r with
    | None => Ret (writeErr 400 "bad_request" "malformed body")
    | Some body =>
      match parseSubject (fr_Type body) (fr_ID body) with
      | None => Ret (writeErr 400 "bad_request" "unknown subject")
      | Some subject =>
        if negb (ReasonValid subject (fr_Reason body))
        then Ret (writeErr 400 "bad_request" "reason does not apply to that subject type")
        else
          let comment := Strs.TrimSpace (fr_Comment body) in
          if maxComment <? Utf8.rune_count comment then Ret (writeErr 400 "bad_request" "comment is too long")
          else
            let! restricted := restriction reporter in
            match restricted with
            | inr _ => Ret internalError
            | inl true => Ret (writeErr 403 "restricted" "this account is restricted")
            | inl false =>
              let! open := OpenBy reporter in
              match open with
              | inr _ => Ret internalError
              | inl open =>
                if maxOpenReportsPerUser <=? open
                then Ret (writeErr 429 "too_many_open_reports" "you have too many reports awaiting review")
                else
                  let! res := File subject reporter (fr_Reason body) comment in
                  match res with
                  | inr ErrSubjectMissing => Ret (writeErr 404 "not_found" "no such subject")
                  | inr _ => Ret internalError
                  | inl (rep, created) => Ret (MReply (if created : bool then 201 else 200) (ReportBody subject rep))
                  end
              end
            end
      end
    end.

Definition handleQueue (kind limit : string) : mprog manswer :=
  if negb (kind =s? "") && negb (known_type kind) then Ret (writeErr 400 "bad_request" "unknown subject type")
  else
    let! items := Queue (nullableText kind) (ParseLimit limit queueDefaultLimit queueMaxLimit) in
    match items with inr _ => Ret internalError | inl items => Ret (mok (QueueBody items)) end.

Definition handleSubject (subjectType subjectID : string) : mprog manswer :=
  match parseSubject subjectType subjectID with
  | None => Ret MNotFound
  | Some s =>
    let! reports := ForSubject s subjectReportsLimit in
    match reports with inr _ => Ret internalError | inl l => Ret (mok (SubjectBody s l)) end
  end.

Definition handleResolve (actor : Actor) (subjectType subjectID : string) (r : request) : mprog manswer :=
  match parseSubject subjectType subjectID with
  | None => Ret MNotFound
  | Some s =>
    match decodeLenient ["verdict"; "note"] r with
    | None => Ret (writeErr 400 "bad_request" "malformed body")
    | Some body =>
      let verdict := member body "verdict" in
      if negb (oneOf verdict [StatusActioned; StatusDismissed])
      then Ret (writeErr 400 "bad_request" "verdict must be actioned or dismissed")
      else
        let note := Strs.TrimSpace (member body "note") in
        if maxResolutionNote <? Utf8.rune_count note then Ret (writeErr 400 "bad_request" "note is too long")
        else
          let! n := Resolve s verdict (ac_ID actor) note in
          match n with
          | inr _ => Ret internalError
          | inl n => Ret (mok (ResolvedBody s verdict n))
          end
    end
  end.

(** ** The routes and their gates *)

Inductive mroute :=
| GetBans (active limit : string) | GetUserBans (identifier : string)
| GetUserBadges (identifier : string) | GetBadgeHolders (code limit : string)
| PostBan | DeleteBan (userID : string) | PostBadge (identifier : string) | DeleteBadge (identifier code : string)
| GetReports (kind limit : string) | GetSubject (subjectType subjectID : string)
| PostResolve (subjectType subjectID : string)
| PostReport.

Definition mmethod (t : mroute) : string :=
  match t with
  | PostBan | PostBadge _ | PostResolve _ _ | PostReport => "POST"
  | DeleteBan _ | DeleteBadge _ _ => "DELETE"
  | _ => "GET"
  end.

(** [PermBansRead] and the rest, by route; filing asks for none. *)
Definition permission (t : mroute) : option Permission :=
  match t with
  | GetBans _ _ | GetUserBans _ | GetUserBadges _ | GetBadgeHolders _ _ => Some "bans:read"
  | PostBan | DeleteBan _ | PostBadge _ | DeleteBadge _ _ => Some "bans:write"
  | GetReports _ _ | GetSubject _ _ => Some "reports:read"
  | PostResolve _ _ => Some "reports:write"
  | PostReport => None
  end.

Definition writes (t : mroute) : bool :=
  match t with PostBan | DeleteBan _ | PostBadge _ | DeleteBadge _ _ | PostResolve _ _ => true | _ => false end.

Definition originAllowed (method origin : string) : bool :=
  safeMethod method || (origin =s? cf_FrontendOrigin env_cfg).

(** OptionalAuth, RequirePermission and, for what writes, RequireOrigin. *)
Definition adminGate (p : Permission) (write : bool) (method : string) (r : request)
    (next : User -> mprog manswer) : mprog manswer :=
  let! u := within (authenticate r) in
  match u with
  | inl u =>
    if Can u p then
      if write && negb (originAllowed method (rq_Origin r)) then Ret (FromAuth (fail apiErrForbiddenOrigin))
      else next u
    else Ret MNotFound
  | inr _ => Ret MNotFound
  end.

(** RequireOrigin and RequireAuth. *)
Definition playerGate (method : string) (r : request) (next : User -> mprog manswer) : mprog manswer :=
  if negb (originAllowed method (rq_Origin r)) then Ret (FromAuth (fail apiErrForbiddenOrigin))
  else
    let! u := within (authenticate r) in
    match u with inl u => next u | inr e => Ret (FromAuth (authFailure e)) end.

Definition actorOf (u : User) : Actor := {| ac_ID := us_ID u; ac_Name := us_DisplayName u |}.

Definition mhandler (t : mroute) (u : User) (r : request) : mprog manswer :=
  match t with
  | GetBans active limit => handleListBans active limit
  | GetUserBans i => handleUserBans i
  | GetUserBadges i => handleUserBadges i
  | GetBadgeHolders code limit => handleBadgeHolders code limit
  | PostBan => handleBan (actorOf u) r
  | DeleteBan i => handleUnban (actorOf u) i
  | PostBadge i => handleGrantBadge (actorOf u) i r
  | DeleteBadge i code => handleRevokeBadge (actorOf u) i code
  | GetReports kind limit => handleQueue kind limit
  | GetSubject t i => handleSubject t i
  | PostResolve t i => handleResolve (actorOf u) t i r
  | PostReport => handleFile (us_ID u) r
  end.

Definition mserve (t : mroute) (r : request) : mprog manswer :=
  match permission t with
  | Some p => adminGate p (writes t) (mmethod t) r (fun u => mhandler t u r)
  | None => playerGate (mmethod t) r (fun u => mhandler t u r)
  end.

(** ** The quotes' routes *)

Inductive qroute :=
| GetQuotes (lang group limit cursor : string) | GetRandom (lang group : string) | GetByID (id : string)
| GetModerated (id : string) | PostWithdrawal (id : string) | DeleteWithdrawal (id : string).

(** [None]: public. *)
Definition qpermission (t : qroute) : option Permission :=
  match t with
  | GetModerated _ => Some "reports:read"
  | PostWithdrawal _ | DeleteWithdrawal _ => Some "quotes:write"
  | _ => None
  end.
Definition qmethod (t : qroute) : string :=
  match t with PostWithdrawal _ => "POST" | DeleteWithdrawal _ => "DELETE" | _ => "GET" end.
Definition qwrites (t : qroute) : bool := match t with PostWithdrawal _ | DeleteWithdrawal _ => true | _ => false end.

Definition fromQuote (p : qprog qanswer) : mprog manswer := bind (asking p) (fun a => Ret (FromQuote a)).

Definition qserve (t : qroute) (r : request) : mprog manswer :=
  let admin next := adminGate (default "" (qpermission t)) (qwrites t) (qmethod t) r next in
  match t with
  | GetQuotes lang group limit cursor => fromQuote (handleList lang group limit cursor)
  | GetRandom lang group => fromQuote (handleRandom lang group)
  | GetByID id => fromQuote (handleByID id)
  | GetModerated id => admin (fun _ => fromQuote (handleModerated id))
  | PostWithdrawal id => admin (fun u => fromQuote (handleWithdraw (us_ID u) id r))
  | DeleteWithdrawal id => admin (fun _ => fromQuote (handleRestore id))
  end.
End handlers.
