(* ===== verification/ModWorld.v ===== *)
(** * internal/moderation: the world its effects act on

    The interpreter of the moderation programs, over the accounts' world and the
    tables of ModStore; and any number of requests to accounts, quotes and
    moderation, interleaved
    effect at a time, with the faults a database connection has. *)

From Stdlib Require Import Strings.Ascii.
From S2P Require Import Prelude GoStd Effects Uuid Httpx Keyset Json AuthLimiter AuthText AuthPassword AuthStore AuthFlow AuthHandlers AuthInv AuthWorld QuoteStore QuoteHandlers ModStore ProfileStore ModHandlers.

Open Scope Z_scope.

(** [REPORT_RATE_EVERY] and [REPORT_RATE_BURST] *)
Class ReportLimits := { report_limits : limits }.

Section world.
Context `{Uuid} `{PgText} `{Argon2} `{!UuidOrder} `{!Collation} `{!Draws} `{!Env} `{!ReportLimits}.

Record mworld := { mw_auth : world; mw_db : modDB; mw_limiter : limiter }.

Definition withAuth (a : world) (w : mworld) : mworld := {| mw_auth := a; mw_db := mw_db w; mw_limiter := mw_limiter w |}.
Definition withMod (db : modDB) (w : mworld) : mworld := {| mw_auth := mw_auth w; mw_db := db; mw_limiter := mw_limiter w |}.
Definition mtick (w : mworld) : mworld := withAuth (tick (mw_auth w)) w.

Definition accounts (w : mworld) : authDB := wd_db (mw_auth w).
Definition mclock (w : mworld) : Z := wd_clock (mw_auth w).

(** A read, and a statement that changes rows. *)
Definition reads {A} (db : modDB) (a : A) : modDB * (A + sqlError) := (db, inl a).
Definition lookedUp {A} (db : modDB) (r : A + pgError) : modDB * (A + sqlError) :=
  (db, match r with inl a => inl a | inr e => inr (Pg e) end).
Definition changed {A} (db : modDB) (r : modDB * A + pgError) : modDB * (A + sqlError) :=
  match r with inl (db', a) => (db', inl a) | inr e => (db, inr (Pg e)) end.

(** The texts a statement is sent, none of which may hold a zero byte. *)
Definition texts {A} (q : mquery A) : list string :=
  match q with
  | qResolveUserByEmail s | qResolveUserByDisplayName s | qListHoldersOfBadge s _
  | qGrantBadge _ s _ | qRevokeBadge _ s _ => [s]
  | qInsertBan _ p | qUpdateBan _ p => bp_Reason p :: option_list (bp_IssuedBy p)
  | qCreateReport c _ reason comment => [sc_Type c; reason] ++ option_list comment
  | qResolveSubjectReports c status _ note => [sc_Type c; status] ++ option_list note
  | qFindOpenReport _ c | qListReportsForSubject c _ => [sc_Type c]
  | qListReportQueue kind _ => option_list kind
  | _ => []
  end.

Definition exec_stored {A} (q : mquery A) (id : UUID) (now : Z) (auth : authDB) (db : modDB)
    : modDB * (A + sqlError) :=
  match q with
  | qResolveUserByID i => lookedUp db (ResolveUserByID i auth)
  | qResolveUserByEmail e => reads db (ResolveUserByEmail e auth)
  | qResolveUserByDisplayName n => reads db (ResolveUserByDisplayName n auth)
  | ModHandlers.qIsRestricted u => reads db (ModStore.IsRestricted now u db)
  | qActiveBanFor u => lookedUp db (ActiveBanFor now u db)
  | qInsertBan u p => changed db (InsertBan id now u p auth db)
  | qUpdateBan i p => changed db (UpdateBan now i p auth db)
  | qRevokeBan i by_ => changed db (RevokeBan now i by_ auth db)
  | qListBans active limit => reads db (ListBans now active limit auth db)
  | qListBansForUser u => reads db (ListBansForUser now u auth db)
  | qCreateReport c u reason comment => changed db (CreateReport id now c u reason comment auth db)
  | qFindOpenReport u c => lookedUp db (FindOpenReport u c db)
  | qCountOpenReportsBy u => reads db (CountOpenReportsBy u db)
  | qListReportQueue kind limit => reads db (ListReportQueue kind limit auth db)
  | qListReportsForSubject c limit => reads db (ListReportsForSubject c limit auth db)
  | qResolveSubjectReports c status by_ note => changed db (ResolveSubjectReports now c status by_ note auth db)
  | qGrantBadge u code by_ => changed db (GrantBadge id now u code by_ auth db)
  | qRevokeBadge u code by_ => changed db (RevokeBadge now u code by_ auth db)
  | qListBadgesOfUser u => reads db (ListBadgesOfUser u auth db)
  | qListHoldersOfBadge code limit => reads db (ListHoldersOfBadge code limit auth db)
  end.

Definition exec_mquery {A} (q : mquery A) (id : UUID) (now : Z) (auth : authDB) (db : modDB)
    : modDB * (A + sqlError) :=
  if forallb storable (texts q) then exec_stored q id now auth db else (db, inr BadText).

(** The auth service asks this one whether an account is restricted. *)
Definition auth_effect {X} (e : AuthFlow.eff X) (w : mworld) : X * mworld :=
  match e in AuthFlow.eff X return X * mworld with
  | AuthFlow.IsRestricted u => (ModStore.IsRestricted (mclock w) u (mw_db w), mtick w)
  | e => let '(x, a) := auth_exec e (mw_auth w) in (x, withAuth a w)
  end.

Definition mod_exec {X} (e : meff X) (w : mworld) : X * mworld :=
  match e in meff X return X * mworld with
  | Auth e => auth_effect e w
  | Stmt q =>
    let '(db, r) := exec_mquery q (env_id (wd_tick (mw_auth w)) false) (mclock w) (accounts w) (mw_db w) in
    (r, mtick (withMod db w))
  | Corpus q =>
    let '(db, r) := exec_qquery q (wd_tick (mw_auth w)) (mclock w) (db_users (accounts w)) (md_quotes (mw_db w)) in
    (r, mtick (withMod (setQuotes (fun _ => db) (mw_db w)) w))
  | Clock => (1000 * mclock w, mtick w)
  | AllowReport key =>
    let '(ok, l) := AuthLimiter.Allow report_limits key (1000 * mclock w) (mw_limiter w) in
    (ok, mtick {| mw_auth := mw_auth w; mw_db := mw_db w; mw_limiter := l |})
  end.

#[export] Instance mod_interp : Interp meff mworld := {| exec X := @mod_exec X |}.

Lemma exec_storable {A} (q : mquery A) id now auth db :
  forallb storable (texts q) = true -> exec_mquery q id now auth db = exec_stored q id now auth db.
Proof. unfold exec_mquery. by intros ->. Qed.

(** A statement at the head of a program. *)
Lemma run_stmt {A B} (q : mquery A) (k : A + sqlError -> mprog B) w :
  run (let! x := stmt q in k x) w =
  let '(db, r) := exec_mquery q (env_id (wd_tick (mw_auth w)) false) (mclock w) (accounts w) (mw_db w) in
  run (k r) (mtick (withMod db w)).
Proof. cbn. by destruct (exec_mquery _ _ _ _ _). Qed.

(** ** Interleaved *)

(** A statement fails, with or without its effect; moderation's answer to the auth
    service is "not restricted" then. *)
Definition auth_faulty {X} (e : AuthFlow.eff X) (w w' : mworld) : X -> Prop :=
  match e in AuthFlow.eff X return X -> Prop with
  | AuthFlow.IsRestricted _ => fun x => x = false /\ w' = mtick w
  | e => fun x => exists a, faulty e (mw_auth w) x a /\ w' = withAuth a w
  end.

Definition mfaulty {X} (e : meff X) (w : mworld) (x : X) (w' : mworld) : Prop :=
  match e in meff X return X -> Prop with
  | Auth e => auth_faulty e w w'
  | Stmt q => fun x => x = inr Lost /\ (w' = mtick w \/ w' = (exec (Stmt q) w).2)
  | Corpus q => fun x => x = inr Lost /\ (w' = mtick w \/ w' = (exec (Corpus q) w).2)
  | _ => fun _ => False
  end x.

Definition mperforms (X : Type) (e : meff X) (w : mworld) (x : X) (w' : mworld) : Prop :=
  exec e w = (x, w') \/ mfaulty e w x w'.

(** Requests to the three services, the sweeper, the bootstrap of admins, badges the
    server grants by itself, and an import of quotes. *)
Definition settled {A} (p : mprog A) : mprog manswer := bind p (fun _ => Ret MNotFound).

Inductive marrives : mprog manswer -> Prop :=
| arrives_mod t r : marrives (mserve t r)
| arrives_quote t r : marrives (qserve t r)
| arrives_import lang l : marrives (settled (asking (ask (qImport lang l))))
| arrives_auth t r : marrives (bind (within (serve t r)) (fun a => Ret (FromAuth a)))
| arrives_sweep : marrives (settled (within sweepOnce))
| arrives_bootstrap emails : marrives (settled (within (BootstrapAdmins emails)))
| arrives_system user code : marrives (settled (GrantBadgeBySystem user code)).

(** What happens besides: time, an account dropped by hand, a run that appears or
    changes, its owner fixed; a profile edited, its two texts or its showcase. *)
Definition setRuns f (db : modDB) : modDB :=
  {| md_bans := md_bans db; md_reports := md_reports db; md_grants := md_grants db;
     md_quotes := md_quotes db; md_runs := f (md_runs db) |}.

Inductive mchanges : mworld -> mworld -> Prop :=
| change_time w d : 0 <= d -> mchanges w (withAuth (later d (mw_auth w)) w)
| change_drop w user :
    mchanges w (withAuth (withDB (dropAccount user (accounts w)) (mw_auth w)) (withMod (dropUser user (mw_db w)) w))
| change_new_run w k r :
    md_runs (mw_db w) !! k = None -> is_Some (db_users (accounts w) !! rn_UserID r) ->
    mchanges w (withMod (setRuns (insert k r) (mw_db w)) w)
| change_run w k r status :
    md_runs (mw_db w) !! k = Some r ->
    mchanges w (withMod (setRuns (insert k {| rn_UserID := rn_UserID r; rn_Status := status |}) (mw_db w)) w)
| change_profile w user now bio keyboard db :
    UpdateProfileIdentity user now bio keyboard (accounts w) = inl db ->
    mchanges w (withAuth (withDB db (mw_auth w)) w)
| change_showcase w user codes :
    mchanges w (withMod (arrange user codes (mw_db w)) w).

Definition mstep : mworld * list (mprog manswer) -> mworld * list (mprog manswer) -> Prop :=
  pool_step marrives mperforms mchanges MNotFound.

Definition emptyMod : modDB := {| md_bans := ∅; md_reports := ∅; md_grants := ∅; md_quotes := ∅; md_runs := ∅ |}.

Definition minitial (clock : Z) : mworld * list (mprog manswer) :=
  ({| mw_auth := {| wd_db := emptyDB; wd_clock := clock; wd_hashing := 0; wd_outbox := [];
                    wd_limiter := newLimiter; wd_tick := 0 |};
      mw_db := emptyMod; mw_limiter := newLimiter |}, []).

Definition mreachable (s : mworld * list (mprog manswer)) : Prop := exists clock, steps mstep (minitial clock) s.
End world.
