(* ===== verification/ModInv.v ===== *)
(** * internal/moderation: what its tables always satisfy

    [md_ok], the well-formedness of the ban, report, badge and quote tables over the
    accounts that exist; that every statement keeps it, and so every interleaving of requests. *)

From Stdlib Require Import Strings.Ascii.
From S2P Require Import Prelude GoStd Effects Uuid Httpx Keyset Json AuthLimiter AuthText AuthPassword AuthStore AuthFlow AuthHandlers AuthInv AuthWorld QuoteStore QuoteProps QuoteHandlers ModStore ProfileStore ModHandlers ModWorld.

Open Scope Z_scope.

Create HintDb mod_inv.

Section inv.
Context `{Uuid} `{PgText} `{Argon2} `{!UuidOrder} `{!Collation} `{!Draws} `{!Env} `{!ReportLimits}.

Implicit Types L : UUID -> Prop.

(** ** Well-formedness *)

Record ban_ok L (k : UUID) (b : Ban) : Prop := {
  bo_key : bw_ID b = k; bo_user : L (bw_UserID b);
  bo_issuer : refs L (bw_IssuedByUser b); bo_revoker : refs L (bw_RevokedByUser b) }.

(** Open, with nothing resolved; or closed with one of the two verdicts, and when. *)
Definition settledness (r : Report) : Prop :=
  (rp_Status r = StatusOpen /\ rp_ResolvedAt r = None /\ rp_ResolvedBy r = None /\ rp_Note r = None)
  \/ ((rp_Status r = StatusActioned \/ rp_Status r = StatusDismissed) /\ is_Some (rp_ResolvedAt r)).

Record report_ok L (runs : gmap UUID RunRow) (quotes : gmap UUID Quote) (k : UUID) (r : Report) : Prop := {
  ro_key : rp_ID r = k;
  ro_type : known_type (rp_SubjectType r) = true;
  ro_subject : exactlyOne (subjectOfRow r) = true;
  ro_reason : oneOf (rp_Reason r) (reasonsOf (rp_SubjectType r)) = true;
  ro_other : rp_SubjectUser r <> Some (rp_Reporter r);
  ro_settled : settledness r;
  ro_reporter : L (rp_Reporter r); ro_user : refs L (rp_SubjectUser r); ro_resolver : refs L (rp_ResolvedBy r);
  ro_run : refs (fun k => is_Some (runs !! k)) (rp_SubjectRun r);
  ro_quote : refs (fun k => is_Some (quotes !! k)) (rp_SubjectQuote r) }.

Definition one_open (t : gmap UUID Report) : Prop :=
  forall k k' r r', t !! k = Some r -> t !! k' = Some r' -> isOpen r = true -> isOpen r' = true ->
    rp_Reporter r = rp_Reporter r' -> subjectOfRow r = subjectOfRow r' -> k = k'.

Record grant_ok L (k : UUID) (g : Grant) : Prop := {
  go_key : gr_ID g = k; go_user : L (gr_UserID g); go_code : badgeShape (gr_Code g) = true;
  go_granter : refs L (gr_GrantedBy g); go_revoker : refs L (gr_RevokedBy g);
  go_order : forall n, gr_Order g = Some n -> 0 <= n }.

Definition one_live (t : gmap UUID Grant) : Prop :=
  forall k k' g g', t !! k = Some g -> t !! k' = Some g' -> gr_RevokedAt g = None -> gr_RevokedAt g' = None ->
    gr_UserID g = gr_UserID g' -> gr_Code g = gr_Code g' -> k = k'.

(** Two badges an account shows are never in one place. *)
Definition one_place (t : gmap UUID Grant) : Prop :=
  forall k k' g g' n, t !! k = Some g -> t !! k' = Some g' -> gr_RevokedAt g = None -> gr_RevokedAt g' = None ->
    gr_UserID g = gr_UserID g' -> gr_Order g = Some n -> gr_Order g' = Some n -> k = k'.

Record md_ok L (db : modDB) : Prop := {
  mo_bans : map_Forall (ban_ok L) (md_bans db);
  mo_reports : map_Forall (report_ok L (md_runs db) (md_quotes db)) (md_reports db);
  mo_open : one_open (md_reports db);
  mo_grants : map_Forall (grant_ok L) (md_grants db);
  mo_live : one_live (md_grants db);
  mo_place : one_place (md_grants db);
  mo_runs : map_Forall (fun _ r => L (rn_UserID r)) (md_runs db);
  mo_quotes : quotes_ok L (md_quotes db) }.

Lemma md_ok_empty L : md_ok L emptyMod.
Proof. split; cbn; try apply map_Forall_empty; try apply quotes_ok_empty; intros ????; by rewrite lookup_empty. Qed.

(** ** References *)

Lemma oneOf_elem s l : oneOf s l = true <-> s ∈ l.
Proof.
  unfold oneOf. rewrite existsb_exists. setoid_rewrite String.eqb_eq. setoid_rewrite <- list_elem_of_In.
  split; [by intros (x & ? & ->)|by exists s].
Qed.

Lemma refers_live (db : authDB) r : refers (db_users db) r = true -> refs (live db) r.
Proof. unfold refers, refs. intros Hr k ->. by bool_to_prop. Qed.

Lemma refers_in {A} (t : gmap UUID A) r : refers t r = true -> refs (fun k => is_Some (t !! k)) r.
Proof. unfold refers, refs. intros Hr k ->. by bool_to_prop. Qed.

Lemma refs_None L : refs L None.
Proof. done. Qed.

Lemma refs_mono L L' r : (forall k, L k -> L' k) -> refs L r -> refs L' r.
Proof. intros HL Hr k E. eauto. Qed.

Hint Resolve refers_live refers_in refs_None refs_mono : mod_inv.

(** More accounts. *)
Lemma md_ok_grow L L' db : (forall k, L k -> L' k) -> md_ok L db -> md_ok L' db.
Proof.
  intros HL []. split; try done.
  - eapply map_Forall_impl; [exact mo_bans0|]. intros k b []. split; eauto with mod_inv.
  - eapply map_Forall_impl; [exact mo_reports0|]. intros k r []. split; eauto with mod_inv.
  - eapply map_Forall_impl; [exact mo_grants0|]. intros k g []. split; eauto with mod_inv.
  - eapply map_Forall_impl; [exact mo_runs0|]. cbn. eauto.
  - by eapply quotes_ok_grow.
Qed.

(** ** Each statement *)

(** Past the refusals of a statement. *)
Ltac guards := repeat lazymatch goal with |- (if ?b then _ else _) = _ -> _ => destruct b eqn:?; [done|] end.

Lemma set_bans L db k b :
  md_ok L db -> ban_ok L k b -> md_ok L (setBans (insert k b) db).
Proof. intros [] Hb. split; cbn; try done. by apply map_Forall_insert_2. Qed.

Lemma InsertBan_inl id now user p auth db db' b :
  InsertBan id now user p auth db = inl (db', b) ->
  db' = setBans (insert id (issued id now user p)) db /\ b = issued id now user p.
Proof. unfold InsertBan. guards. by intros [= <- <-]. Qed.

Lemma InsertBan_ok id now user p auth db db' b :
  InsertBan id now user p auth db = inl (db', b) -> md_ok (live auth) db -> md_ok (live auth) db'.
Proof.
  unfold InsertBan. do 3 (case_match; [done|]). intros [= <- _] Hdb. bool_to_prop.
  apply set_bans; [done|]. split; cbn; eauto with mod_inv.
Qed.

Lemma UpdateBan_ok now id p auth db db' b :
  UpdateBan now id p auth db = inl (db', b) -> md_ok (live auth) db -> md_ok (live auth) db'.
Proof.
  unfold UpdateBan. destruct (md_bans db !! id) as [b0|] eqn:E; [|done]. case_match; [done|].
  intros [= <- _] Hdb. bool_to_prop. apply set_bans; [done|]. destruct (mo_bans _ _ Hdb _ _ E).
  split; cbn; eauto with mod_inv.
Qed.

Lemma RevokeBan_ok now id by_ auth db db' b :
  RevokeBan now id by_ auth db = inl (db', b) -> md_ok (live auth) db -> md_ok (live auth) db'.
Proof.
  unfold RevokeBan. destruct (md_bans db !! id) as [b0|] eqn:E; [|done]. do 2 (case_match; [done|]).
  intros [= <- _] Hdb. bool_to_prop. apply set_bans; [done|]. destruct (mo_bans _ _ Hdb _ _ E).
  split; cbn; eauto with mod_inv.
Qed.

(** Two subjects of the same columns name the same row. *)
Lemma exactlyOne_same c : exactlyOne c = true ->
  sameRef (sc_User c) (sc_User c) || sameRef (sc_Quote c) (sc_Quote c) || sameRef (sc_Run c) (sc_Run c) = true.
Proof.
  unfold exactlyOne, sameRef. rewrite !(bool_decide_eq_true_2 (_ = _)) by done. rewrite !andb_true_r.
  destruct (sc_User c), (sc_Quote c), (sc_Run c); cbn; try done.
Qed.

Lemma CreateReport_inl id now c reporter reason comment auth db db' r :
  CreateReport id now c reporter reason comment auth db = inl (db', r) ->
  db' = setReports (insert id r) db /\ md_reports db !! id = None
  /\ (forall k r', md_reports db !! k = Some r' -> openTwice reporter c r' = false)
  /\ rp_Reporter r = reporter /\ subjectOfRow r = c /\ isOpen r = true
  /\ report_ok (live auth) (md_runs db) (md_quotes db) id r.
Proof.
  unfold CreateReport. cbv zeta. guards. intros [= <- <-]. bool_to_prop.
  split_and!; try done.
  - by apply eq_None_not_Some.
  - by eapply existsb_rows.
  - by destruct c.
  - split; cbn; eauto with mod_inv; try done. by left.
Qed.

Lemma one_open_insert t id r :
  one_open t -> (forall k r', t !! k = Some r' -> isOpen r' = true -> rp_Reporter r = rp_Reporter r' ->
    subjectOfRow r = subjectOfRow r' -> k = id) ->
  one_open (<[id := r]> t).
Proof.
  intros Ht Hr k k' a a' [[<- <-]|[Hne Hk]]%lookup_insert_Some [[<- <-]|[Hne' Hk']]%lookup_insert_Some; try done.
  - intros. symmetry. eauto.
  - intros. eapply Hr; eauto.
  - intros. by eapply Ht.
Qed.

Lemma CreateReport_ok id now c reporter reason comment auth db db' r :
  CreateReport id now c reporter reason comment auth db = inl (db', r) ->
  md_ok (live auth) db -> md_ok (live auth) db'.
Proof.
  intros (-> & Hid & Htwice & Hrep & Hsub & Hopen & Hr)%CreateReport_inl []. split; cbn; try done.
  - by apply map_Forall_insert_2.
  - apply one_open_insert; [done|]. intros k r' Hk Ho Eu Es. exfalso.
    pose proof (Htwice _ _ Hk) as Hf. pose proof (exactlyOne_same _ (ro_subject _ _ _ _ _ Hr)) as Hsame.
    unfold openTwice in Hf. rewrite Ho in Hf. rewrite bool_decide_eq_true_2 in Hf by congruence.
    rewrite Hsub in Es, Hsame. rewrite Es in Hf, Hsame. cbn in Hf, Hsame. by rewrite Hf in Hsame.
Qed.

Lemma ResolveSubjectReports_ok now c status resolver note auth db db' n :
  ResolveSubjectReports now c status resolver note auth db = inl (db', n) ->
  md_ok (live auth) db -> md_ok (live auth) db'.
Proof.
  unfold ResolveSubjectReports. cbv zeta. destruct (filter _ _) as [|r l]; [by intros [= <- _]|].
  guards. generalize (Z.of_nat (length (r :: l))).
  intros m [= <- _] []. bool_to_prop. split; cbn; try done.
  - intros k r' [r0 [<- Hk]]%lookup_fmap_Some. destruct (mo_reports0 _ _ Hk). destruct (openOn c r0); [|done].
    split; cbn; try done.
    + right. split; [|done]. repeat match goal with E : oneOf _ _ = true |- _ => apply oneOf_elem in E end.
      set_solver.
    + by intros k' [= <-].
  - intros k k' a a' [a0 [<- Hk]]%lookup_fmap_Some [a1 [<- Hk']]%lookup_fmap_Some.
    assert (forall r0, isOpen (if openOn c r0 then resolved now status resolver note r0 else r0) = true ->
              isOpen r0 = true /\ openOn c r0 = false) as Hkept.
    { intros r0. destruct (openOn c r0) eqn:E; [|done]. unfold isOpen. cbn. intros E'%String.eqb_eq. congruence. }
    intros [Ha Ea]%Hkept [Ha' Ea']%Hkept. rewrite Ea, Ea'. by eapply mo_open0.
Qed.

Lemma GrantBadge_ok id now user code by_ auth db db' g :
  GrantBadge id now user code by_ auth db = inl (db', g) -> md_ok (live auth) db -> md_ok (live auth) db'.
Proof.
  unfold GrantBadge. case_match; [done|]. destruct (one _ _) as [g0|e] eqn:E; [by intros [= <- _]|].
  do 3 (case_match; [done|]). intros [= <- _] []. bool_to_prop. apply one_inr in E as [_ Hn]. split; cbn; try done.
  - apply map_Forall_insert_2; [|done]. split; cbn; eauto with mod_inv; done.
  - assert (forall k a, md_grants db !! k = Some a -> gr_RevokedAt a = None -> gr_UserID a = user ->
              gr_Code a = code -> False) as Hno.
    { intros k a Hk Hr Hu Hc. pose proof (Hn _ _ Hk) as Hf. unfold liveGrant in Hf.
      rewrite !bool_decide_eq_true_2, Hc, String.eqb_refl in Hf by done. done. }
    intros k k' a a' [[<- <-]|[Hne Hk]]%lookup_insert_Some [[<- <-]|[Hne' Hk']]%lookup_insert_Some; cbn; try done.
    + intros. exfalso. eauto.
    + intros. exfalso. eauto.
    + by eapply mo_live0.
  - intros k k' a a' n [[<- <-]|[Hne Hk]]%lookup_insert_Some [[<- <-]|[Hne' Hk']]%lookup_insert_Some; cbn; try done.
    by eapply mo_place0.
Qed.

Lemma RevokeBadge_ok now user code by_ auth db db' g :
  RevokeBadge now user code by_ auth db = inl (db', g) -> md_ok (live auth) db -> md_ok (live auth) db'.
Proof.
  unfold RevokeBadge. destruct (one _ _) as [g0|e] eqn:E; [|done]. case_match; [done|]. intros [= <- _] [].
  bool_to_prop. apply one_inl in E as (k0 & Hk0 & _). destruct (mo_grants0 _ _ Hk0). subst k0. split; cbn; try done.
  - apply map_Forall_insert_2; [|done]. split; cbn; eauto with mod_inv.
  - intros k k' a a' [[<- <-]|[Hne Hk]]%lookup_insert_Some [[<- <-]|[Hne' Hk']]%lookup_insert_Some; cbn; try done.
    by eapply mo_live0.
  - intros k k' a a' n [[<- <-]|[Hne Hk]]%lookup_insert_Some [[<- <-]|[Hne' Hk']]%lookup_insert_Some; cbn; try done.
    by eapply mo_place0.
Qed.

Lemma exec_stored_ok {A} (q : mquery A) id now auth db :
  md_ok (live auth) db -> md_ok (live auth) (exec_stored q id now auth db).1.
Proof.
  intros Hdb. destruct q; cbn [exec_stored reads lookedUp fst]; try done; unfold changed;
    lazymatch goal with |- context [match ?x with _ => _ end] => destruct x as [[db' a]|] eqn:E; [|done] end; cbn;
    eauto using InsertBan_ok, UpdateBan_ok, RevokeBan_ok, CreateReport_ok, ResolveSubjectReports_ok,
      GrantBadge_ok, RevokeBadge_ok.
Qed.

Lemma exec_mquery_ok {A} (q : mquery A) id now auth db :
  md_ok (live auth) db -> md_ok (live auth) (exec_mquery q id now auth db).1.
Proof. intros Hdb. unfold exec_mquery. destruct (forallb _ _); [by apply exec_stored_ok|done]. Qed.

(** ** Deleting an account *)

Lemma refs_forget L user r : refs L r -> refs (fun k => L k /\ k <> user) (forget user r).
Proof. intros Hr k. unfold forget. case_bool_decide; [done|]. intros ->. split; [eauto|congruence]. Qed.

Lemma dropUser_ok L user db : md_ok L db -> md_ok (fun k => L k /\ k <> user) (dropUser user db).
Proof.
  intros []. unfold dropUser. split; cbn.
  - intros k b [b0 [<- [Hk Hu]%map_lookup_filter_Some]]%lookup_fmap_Some. destruct (mo_bans0 _ _ Hk).
    split; cbn; auto using refs_forget.
  - intros k r [r0 [<- [Hk (Hr & Hs & Ha)]%map_lookup_filter_Some]]%lookup_fmap_Some. cbn in *.
    destruct (mo_reports0 _ _ Hk). split; cbn; auto using refs_forget.
    + destruct ro_settled0 as [(E1 & E2 & E3 & E4)|[E1 E2]]; [left|by right].
      unfold settledness. cbn. by rewrite E3.
    + intros k' E. split; [eauto|]. by intros ->.
    + intros k' E. destruct (ro_run0 _ E) as [run Hrun]. exists run. apply map_lookup_filter_Some. split; [done|].
      cbn. intros E'. unfold aboutRunOf in Ha. rewrite E in Ha. cbn in Ha. rewrite Hrun in Ha. by bool_to_prop.
    + intros k' E. rewrite lookup_fmap. apply fmap_is_Some. eauto.
  - intros k k' a a' [r0 [<- [Hk _]%map_lookup_filter_Some]]%lookup_fmap_Some
      [r1 [<- [Hk' _]%map_lookup_filter_Some]]%lookup_fmap_Some. exact (mo_open0 k k' r0 r1 Hk Hk').
  - intros k g [g0 [<- [Hk Hu]%map_lookup_filter_Some]]%lookup_fmap_Some. destruct (mo_grants0 _ _ Hk).
    split; cbn; auto using refs_forget.
  - intros k k' a a' [r0 [<- [Hk _]%map_lookup_filter_Some]]%lookup_fmap_Some
      [r1 [<- [Hk' _]%map_lookup_filter_Some]]%lookup_fmap_Some. exact (mo_live0 k k' r0 r1 Hk Hk').
  - intros k k' a a' n [r0 [<- [Hk _]%map_lookup_filter_Some]]%lookup_fmap_Some
      [r1 [<- [Hk' _]%map_lookup_filter_Some]]%lookup_fmap_Some. exact (mo_place0 k k' r0 r1 n Hk Hk').
  - intros k r [Hk Hu]%map_lookup_filter_Some. cbn in *. eauto.
  - eapply quotes_ok_fmap; [|exact mo_quotes0]. intros k q []. split_and!; [apply withWithdrawal_bytes|done|].
    split; cbn; auto using refs_forget. intros E. by rewrite qo_actor.
Qed.

(** ** Accounts stay until they are dropped *)

Lemma CreateUser_grows id now name db db' u k :
  CreateUser id now name db = inl (db', u) -> live db k -> live db' k.
Proof. unfold CreateUser. repeat case_match; try done. intros [= <- _]. unfold live. cbn. intros Hk. apply lookup_insert_is_Some'. by right. Qed.

Lemma CreateIdentity_users id now user p db db' i :
  CreateIdentity id now user p db = inl (db', i) -> db_users db' = db_users db.
Proof. unfold CreateIdentity. cbv zeta. repeat case_match; by intros [= <- _]. Qed.

Lemma UpsertCredential_users now user hash db db' :
  UpsertCredential now user hash db = inl db' -> db_users db' = db_users db.
Proof. unfold UpsertCredential. case_match; by intros [= <-]. Qed.

Lemma exec_query_grows {A} (q : query A) id id' now db k :
  live db k -> live (exec_query q id id' now db).1 k.
Proof.
  intros Hk. unfold live in *. destruct q; cbn [exec_query fst]; try done.
  - unfold CreateEmailAccount. destruct (CreateUser _ _ _ _) as [[db1 v]|] eqn:E1; [|done].
    destruct (CreateIdentity _ _ _ _ _) as [[db2 j]|] eqn:E2; [|done].
    destruct (UpsertCredential _ _ _ _) as [db3|] eqn:E3; cbn; [|done].
    rewrite (UpsertCredential_users _ _ _ _ _ E3), (CreateIdentity_users _ _ _ _ _ _ _ E2). by eapply CreateUser_grows.
  - unfold CreateOAuthAccount. destruct (CreateUser _ _ _ _) as [[db1 v]|] eqn:E1; [|done].
    destruct (CreateIdentity _ _ _ _ _) as [[db2 j]|] eqn:E2; cbn; [|done].
    rewrite (CreateIdentity_users _ _ _ _ _ _ _ E2). by eapply CreateUser_grows.
  - destruct (CreateIdentity _ _ _ _ _) as [[db2 j]|] eqn:E2; cbn; [|done].
    by rewrite (CreateIdentity_users _ _ _ _ _ _ _ E2).
  - unfold VerifyEmailIdentityByUser. by destruct (existsb _ _).
  - unfold UpdateUserSettings. destruct (db_users db !! user); [|done]. cbn. apply lookup_insert_is_Some'. by right.
  - unfold ChangeDisplayName. destruct (db_users db !! user); [|done].
    destruct (match _ with Some _ => _ | None => _ end); [|done].
    destruct (negb _); [done|]. destruct (nameHeld _ _ _); [done|]. cbn. apply lookup_insert_is_Some'. by right.
  - cbn. rewrite lookup_fmap. by apply fmap_is_Some.
  - destruct (UpsertCredential _ _ _ _) as [db'|] eqn:E; cbn; [|done]. by rewrite (UpsertCredential_users _ _ _ _ _ E).
  - unfold CreateEmailToken. repeat case_match; try done; simplify_eq; done.
  - unfold UseEmailToken. repeat case_match; try done; simplify_eq; done.
  - unfold CreateSession. repeat case_match; try done; simplify_eq; done.
Qed.

(** The quotes changed, none of them gone. *)
Lemma set_quotes L db quotes :
  md_ok L db -> quotes_ok L quotes -> frozen (md_quotes db) quotes -> md_ok L (setQuotes (fun _ => quotes) db).
Proof.
  intros [] Hq Hf. split; try done. cbn. eapply map_Forall_impl; [exact mo_reports0|]. intros k r []. split; try done.
  intros k' E. destruct (ro_quote0 _ E) as [q Hk]. destruct (Hf _ _ Hk) as (q' & ? & _). by exists q'.
Qed.

(** ** The showcase *)

(** Only places change. *)
Lemma setGrants_placed L (f : Grant -> Grant) db :
  (forall g, f g = withPlace (gr_Order (f g)) g) ->
  (forall g n, gr_Order (f g) = Some n -> (forall m, gr_Order g = Some m -> 0 <= m) -> 0 <= n) ->
  one_place (f <$> md_grants db) ->
  md_ok L db -> md_ok L (setGrants (fmap f) db).
Proof.
  intros Hf Hn Hp []. split; cbn; try done.
  - intros k g [g0 [<- Hk]]%lookup_fmap_Some. destruct (mo_grants0 _ _ Hk). rewrite Hf. split; cbn; try done. eauto.
  - intros k k' g g' [g0 [<- Hk]]%lookup_fmap_Some [g1 [<- Hk']]%lookup_fmap_Some. rewrite (Hf g0), (Hf g1).
    exact (mo_live0 k k' g0 g1 Hk Hk').
Qed.

(** The places an account's badges are in. *)
Definition places (user : UUID) (db : modDB) (n : Z) : Prop :=
  exists k g, md_grants db !! k = Some g /\ liveOf user g = true /\ gr_Order g = Some n.

Lemma Clear_ok L user db :
  md_ok L db -> md_ok L (ClearBadgeShowcase user db) /\ forall n, ~ places user (ClearBadgeShowcase user db) n.
Proof.
  intros Hdb. split.
  - apply setGrants_placed; [..|done].
    + intros g. destruct (liveOf user g); [done|by destruct g].
    + intros g n. destruct (liveOf user g); [done|eauto].
    + intros k k' g g' n [g0 [<- Hk]]%lookup_fmap_Some [g1 [<- Hk']]%lookup_fmap_Some.
      destruct (liveOf user g0), (liveOf user g1); cbn; try done. by eapply (mo_place _ _ Hdb).
  - intros n (k & g & [g0 [<- Hk]]%lookup_fmap_Some & Hl & Ho). destruct (liveOf user g0) eqn:E; [done|]. congruence.
Qed.

Lemma Place_ok L user code i db :
  0 <= i -> ~ places user db i -> md_ok L db -> md_ok L (PlaceBadgeInShowcase user code i db).
Proof.
  intros Hi Hfree Hdb. apply setGrants_placed; [..|done].
  - intros g. destruct (liveGrant user code g); [done|by destruct g].
  - intros g n. destruct (liveGrant user code g); cbn; [by intros [= <-]|eauto].
  - assert (forall k g g0, md_grants db !! k = Some g -> gr_RevokedAt g = None -> gr_Order g = Some i ->
      liveGrant user code g0 = true -> gr_UserID g = gr_UserID g0 -> False) as Hno.
    { intros k g g0 Hk Hr Ho Hl Hu. apply Hfree. exists k, g. split_and!; [done| |done].
      unfold liveGrant in Hl. bool_to_prop. unfold liveOf. by rewrite !bool_decide_eq_true_2 by congruence. }
    intros k k' g g' n [g0 [<- Hk]]%lookup_fmap_Some [g1 [<- Hk']]%lookup_fmap_Some.
    destruct (liveGrant user code g0) eqn:E0, (liveGrant user code g1) eqn:E1; cbn; intros Hr Hr' Hu.
    + intros _ _. unfold liveGrant in E0, E1. bool_to_prop. eapply (mo_live _ _ Hdb); eauto; congruence.
    + intros [= <-] Ho. exfalso. by eapply (Hno k' g1 g0).
    + intros Ho [= <-]. exfalso. by eapply (Hno k g0 g1).
    + by eapply (mo_place _ _ Hdb).
Qed.

Lemma Place_places user code i db n :
  places user (PlaceBadgeInShowcase user code i db) n -> n = i \/ places user db n.
Proof.
  intros (k & g & [g0 [<- Hk]]%lookup_fmap_Some & Hl & Ho).
  destruct (liveGrant user code g0) eqn:E; [left; cbn in Ho; congruence|right; by exists k, g0].
Qed.

Lemma placeFrom_ok L user i codes db :
  0 <= i -> (forall n, places user db n -> n < i) -> md_ok L db -> md_ok L (placeFrom user i codes db).
Proof.
  revert i db. induction codes as [|code codes IH]; intros i db Hi Hb Hdb; [done|]. cbn. apply IH; [lia| |].
  - intros n [->|Hn%Hb]%Place_places; lia.
  - apply Place_ok; [done| |done]. intros Hn%Hb. lia.
Qed.

Lemma arrange_ok L user codes db : md_ok L db -> md_ok L (arrange user codes db).
Proof.
  intros [Hdb Hn]%(Clear_ok L user). apply placeFrom_ok; [done| |done]. intros n Hp. by destruct (Hn n).
Qed.

Lemma UpdateProfileIdentity_live id now bio keyboard db db' k :
  UpdateProfileIdentity id now bio keyboard db = inl db' -> live db k -> live db' k.
Proof.
  unfold UpdateProfileIdentity, live. repeat case_match; intros [= <-]; [|done]. intros Hk. cbn.
  apply lookup_insert_is_Some'. by right.
Qed.

(** ** Every effect, every change *)

Definition world_ok (w : mworld) : Prop := db_ok (accounts w) /\ md_ok (live (accounts w)) (mw_db w).

Lemma withAuth_ok w a :
  world_ok w -> db_ok (wd_db a) -> (forall k, live (accounts w) k -> live (wd_db a) k) -> world_ok (withAuth a w).
Proof. intros [Ha Hm] Hok Hg. split; [done|]. by eapply md_ok_grow. Qed.

Lemma auth_exec_grows {X} (e : eff X) w k : live (wd_db w) k -> live (wd_db (auth_exec e w).2) k.
Proof.
  intros Hk. destruct e; cbn [auth_exec]; try done.
  - pose proof (exec_query_grows q (env_id (wd_tick w) false) (env_id (wd_tick w) true) (wd_clock w) (wd_db w) k Hk).
    by destruct (exec_query q _ _ _ _) as [db r].
  - by case_match.
  - by case_match.
  - by destruct (AuthLimiter.Allow _ _ _ _).
Qed.

Lemma auth_performs_ok {X} (e : eff X) w x a :
  performs e (mw_auth w) x a -> world_ok w -> world_ok (withAuth a w).
Proof.
  intros Hp Hw. apply withAuth_ok; [done|by eapply performs_ok, Hw|]. intros k Hk. destruct Hp as [E|Hf].
  - pose proof (auth_exec_grows e (mw_auth w) k Hk) as Hl. cbn in E. by rewrite E in Hl.
  - destruct e; try done; cbn in Hf.
    + destruct Hf as [_ [->| ->]]; [done|]. by apply (auth_exec_grows (Query q)).
    + by destruct Hf as [_ ->].
Qed.

Lemma auth_faulty_ok {X} (e : eff X) w w' x : auth_faulty e w w' x -> world_ok w -> world_ok w'.
Proof.
  intros Hf Hw. destruct e; cbn [auth_faulty] in Hf;
    first [destruct Hf as (a & Hf & ->); eapply auth_performs_ok; [right; exact Hf|exact Hw]
          |by destruct Hf as [_ ->]].
Qed.

Lemma mod_exec_ok {X} (e : meff X) w : world_ok w -> world_ok (exec e w).2.
Proof.
  intros Hw. destruct e as [X e|A q|A q| |key]; cbn [exec mod_interp mod_exec].
  - destruct e; try done; cbn [auth_effect];
      lazymatch goal with |- context [auth_exec ?e ?a] => destruct (auth_exec e a) as [x a'] eqn:E end;
      (eapply auth_performs_ok; [left; exact E|done]).
  - pose proof (exec_mquery_ok q (env_id (wd_tick (mw_auth w)) false) (mclock w) (accounts w) (mw_db w) (proj2 Hw)).
    destruct (exec_mquery q _ _ _ _) as [db r]. split; [apply Hw|done].
  - destruct (exec_qquery_ok q (wd_tick (mw_auth w)) (mclock w) (accounts w) (md_quotes (mw_db w)) (mo_quotes _ _ (proj2 Hw))) as [Hq Hf].
    destruct (exec_qquery q _ _ _ _) as [db r]. split; [apply Hw|]. by apply set_quotes; [apply Hw|..].
  - done.
  - by destruct (AuthLimiter.Allow _ _ _ _).
Qed.

Lemma run_ok {A} (p : mprog A) w : world_ok w -> world_ok (run p w).2.
Proof.
  revert w. induction p as [a|X e k IH]; intros w Hw; [done|]. cbn [run].
  pose proof (mod_exec_ok e w Hw) as Hok. destruct (exec e w) as [x w']. by apply IH.
Qed.

Lemma mperforms_ok X (e : meff X) w x w' : mperforms X e w x w' -> world_ok w -> world_ok w'.
Proof.
  intros [E|Hf] Hw.
  - pose proof (mod_exec_ok e w Hw) as Hok. by rewrite E in Hok.
  - destruct e as [X e|A q|A q| |key]; try done; cbn in Hf.
    + by eapply auth_faulty_ok.
    + destruct Hf as [_ [->| ->]]; [done|]. by apply (mod_exec_ok (Stmt q)).
    + destruct Hf as [_ [->| ->]]; [done|]. by apply (mod_exec_ok (Corpus q)).
Qed.

Lemma mchanges_ok w w' : mchanges w w' -> world_ok w -> world_ok w'.
Proof.
  intros Hc [Ha Hm]. destruct Hc as [w d Hd|w user|w k r Hk Hr|w k r status Hk|w user now bio keyboard db Hu|w user codes];
    (split; [try done|]).
  - done.
  - by apply dropAccount_ok.
  - eapply md_ok_grow; [|by apply dropUser_ok]. intros k [Hk Hne]. unfold live in *. cbn.
    by rewrite lookup_delete_ne by done.
  - destruct Hm. split; cbn; try done.
    + eapply map_Forall_impl; [exact mo_reports0|]. intros k' r' []. split; try done.
      intros k'' E. apply lookup_insert_is_Some'. right. eauto.
    + by apply map_Forall_insert_2.
  - destruct Hm. split; cbn; try done.
    + eapply map_Forall_impl; [exact mo_reports0|]. intros k' r' []. split; try done.
      intros k'' E. apply lookup_insert_is_Some'. right. eauto.
    + apply map_Forall_insert_2; [|done]. by apply (mo_runs0 _ _ Hk).
  - by eapply UpdateProfileIdentity_ok.
  - eapply md_ok_grow; [|done]. intros k. by eapply UpdateProfileIdentity_live.
  - by apply arrange_ok.
Qed.

Lemma mreachable_ok s : mreachable s -> world_ok s.1.
Proof.
  intros [clock Hs]. revert Hs. apply pool_invariant.
  - intros X e w x w'. apply mperforms_ok.
  - apply mchanges_ok.
  - split; [apply db_ok_empty|apply md_ok_empty].
Qed.

(** C16: the moderation tables are sound whatever the interleaving.  In every state that
    requests to both services, failing statements, account deletions and time can
    reach: a player has at most one open report on a row and never one on himself; a
    report is about one existing row of its kind, with a reason of that kind, and is
    either open with nothing resolved or closed with a verdict and an instant; an
    account holds at most one live grant of a badge, under a well-formed code, and shows
    no two in one place; and every ban, report and grant belongs to accounts that
    exist. *)
Theorem moderation_tables_ok s :
  mreachable s ->
  let L := live (accounts s.1) in
  let db := mw_db s.1 in
  one_open (md_reports db) /\ one_live (md_grants db) /\ one_place (md_grants db)
  /\ map_Forall (report_ok L (md_runs db) (md_quotes db)) (md_reports db)
  /\ map_Forall (grant_ok L) (md_grants db) /\ map_Forall (ban_ok L) (md_bans db).
Proof. intros Hs. by destruct (mreachable_ok s Hs) as [_ []]. Qed.
End inv.
