(* ===== verification/QuoteLife.v ===== *)
(** * The life of a published quote

    How the browse pages list the corpus; what no request, import or deletion ever does to a published quote; what an import
    publishes from a vendored file; what withdrawing and restoring one does. *)

From Stdlib Require Import Sorting.Sorted Strings.Ascii.
From S2P Require Import Prelude GoStd Effects Uuid Httpx Keyset Json AuthLimiter AuthText AuthPassword AuthStore AuthFlow AuthHandlers AuthInv AuthWorld QuoteStore QuoteProps QuoteHandlers ModStore ProfileStore ModHandlers ModWorld ModInv.

Open Scope Z_scope.

(** * Browsing the corpus

    What following the cursors of [GET /quotes] lists, on a corpus that does not change
    meanwhile. *)

Section pages.
Context `{Uuid} `{PgText} `{Argon2} `{!UuidOrder} `{!UuidLaws} `{!Collation} `{!Draws} `{!Env} `{!ReportLimits}.

(** ** The browse order *)

#[export] Instance browse_total : StrictTotal browse_lt.
Proof.
  unfold browse_lt. split.
  - intros p. by rewrite lt_irrefl, String.eqb_refl, !Z.ltb_irrefl, Z.eqb_refl.
  - intros [[l1 g1] k1] [[l2 g2] k2] [[l3 g3] k3]; cbn. rewrite !orb_true_iff, !andb_true_iff, !orb_true_iff, !andb_true_iff, !String.eqb_eq.
    intros [Hl|[<- Hg]] [Hl'|[<- Hg']]; [left; by eapply lt_trans|by left|by left|right; split; [done|lia]].
  - intros [[l1 g1] k1] [[l2 g2] k2] Hne; cbn. rewrite !orb_true_iff, !andb_true_iff, !orb_true_iff, !andb_true_iff, !String.eqb_eq.
    destruct (decide (l1 = l2)) as [<-|Hl].
    + destruct (Z.lt_total g1 g2) as [?|[<-|?]]; [left; right; split; [done|lia]| |right; right; split; [done|lia]].
      assert (k1 <> k2) by congruence.
      destruct (Z.lt_total k1 k2) as [?|[<-|?]]; [left; right; split; [done|lia]|done|right; right; split; [done|lia]].
    + destruct (lt_total (lt := text_lt) l1 l2 Hl); [left; by left|right; by left].
Qed.

(** What is offered, in order. *)
Definition catalogue (f : Filter) (db : gmap UUID Quote) : list Quote :=
  order_by placeOf browse_lt (filter (fun q => offered f q = true) (rows db)).

Section corpus.
Context (db : gmap UUID Quote) (L : UUID -> Prop) (Hdb : quotes_ok L db).

Lemma rows_ids : NoDup (qu_ID <$> rows db).
Proof.
  replace (qu_ID <$> rows db) with ((map_to_list db).*1); [apply NoDup_fst_map_to_list|].
  unfold rows. rewrite <- list_fmap_compose. apply list_fmap_ext. intros i [k q] Hi. cbn. symmetry.
  apply list_elem_of_lookup_2, elem_of_map_to_list in Hi. by apply (qo_key _ _ _ (qs_rows _ _ Hdb _ _ Hi)).
Qed.

Lemma rows_places : NoDup (placeOf <$> rows db).
Proof.
  apply (NoDup_fmap_1 snd). rewrite <- list_fmap_compose. change (snd ∘ placeOf) with (uuid_key ∘ qu_ID).
  rewrite list_fmap_compose. apply (NoDup_fmap_2 uuid_key), rows_ids.
Qed.

Lemma catalogue_elem f q : q ∈ catalogue f db <-> (exists k, db !! k = Some q) /\ offered f q = true.
Proof. unfold catalogue. rewrite order_by_perm, list_elem_of_filter, table_rows. naive_solver. Qed.

Lemma catalogue_sorted f : StronglySorted (before placeOf browse_lt) (catalogue f db).
Proof. apply (order_by_sorted placeOf browse_lt), (NoDup_filter_pos placeOf), rows_places. Qed.

Lemma catalogue_NoDup f : NoDup (catalogue f db).
Proof.
  unfold catalogue. rewrite order_by_perm. apply (NoDup_fmap_1 placeOf), (NoDup_filter_pos placeOf), rows_places.
Qed.

Lemma ListQuotes_from f after limit :
  ListQuotes f after limit db
  = take (Z.to_nat limit) match after with
      | Some c => rows_after placeOf browse_lt (cursorPlace c) (catalogue f db)
      | None => catalogue f db
      end.
Proof.
  unfold ListQuotes, catalogue. f_equal. destruct after as [c|].
  - rewrite (order_by_filter placeOf browse_lt) by apply (NoDup_filter_pos placeOf), rows_places. done.
  - by rewrite (filter_all (fun _ => true = true)).
Qed.

(** ** Cursors *)

(** Language ids are plain: the manifest's have neither colons nor zero bytes. *)
Definition plain (s : string) : Prop := no_colon s /\ storable s = true.

Lemma decode_browseCursor c : no_colon (cu_Lang c) -> Valid (cu_Group c) = true -> decodeCursor (encodeCursor c) = Some c.
Proof.
  intros Hl Hg. unfold decodeCursor, encodeCursor. pose proof Hg as Hr. unfold Valid, LenGroupCount in Hr.
  unfold Int.int16. rewrite Int.wrap_id by (unfold Int.in_range; lia).
  rewrite (DecodeCursor_Encode [_; _; _]); [|done|].
  - unfold Strconv.ParseInt. rewrite Strconv.Atoi_Itoa by lia. cbn [mbind option_bind].
    rewrite (proj2 (andb_true_iff _ _)) by (split; lia). cbn. rewrite Hg, Parse_String. by destruct c.
  - repeat constructor; [done|apply Itoa_no_colon|apply uuid_no_colon].
Qed.

Lemma encodeCursor_nonempty c : no_colon (cu_Lang c) -> Valid (cu_Group c) = true -> (encodeCursor c =s? "") = false.
Proof.
  intros Hl Hg. apply String.eqb_neq. intros E. pose proof (decode_browseCursor c Hl Hg) as Hd. rewrite E in Hd.
  by vm_compute in Hd.
Qed.

(** ** Pages *)

(** The rows of a page and its continuation. *)
Definition pageFrom (f : Filter) (lim : Z) (token : option string) : option (list Quote * option string) :=
  after ← cursorParam (default "" token);
  let '(page, last) := cut_page (Z.to_nat lim) (ListQuotes f after (lim + 1) db) in
  Some (page, encodeCursor ∘ cursorAfter <$> last).

Lemma cut_page_more {A} (lim : Z) (l : list A) :
  0 < lim -> cut_page (Z.to_nat lim) (take (Z.to_nat (lim + 1)) l) = cut_page (Z.to_nat lim) l.
Proof.
  intros Hl. unfold cut_page. rewrite length_take.
  destruct (Nat.ltb_spec (Z.to_nat lim) (length l)).
  - rewrite (proj2 (Nat.ltb_lt _ _)) by lia. by rewrite take_take, Nat.min_l by lia.
  - rewrite (proj2 (Nat.ltb_ge _ _)) by lia. by rewrite take_ge by lia.
Qed.

Hypothesis Hplain : forall k q, db !! k = Some q -> plain (qu_Lang q).

Lemma offered_row f q : q ∈ catalogue f db -> plain (qu_Lang q) /\ Valid (qu_LenGroup q) = true.
Proof. intros [[k Hk] _]%catalogue_elem. split; [by eapply Hplain|by destruct (qs_rows _ _ Hdb _ _ Hk)]. Qed.

Lemma pages_all f lim : 0 < lim ->
  exists pages, walk (S (length (catalogue f db))) (pageFrom f lim) None = Some pages
    /\ concat pages = catalogue f db
    /\ forall init p, pages = init ++ [p] -> Forall (fun q => length q = Z.to_nat lim) init.
Proof.
  intros Hl. apply (walk_all placeOf browse_lt (encodeCursor ∘ cursorAfter)); [lia|apply catalogue_sorted| |].
  - unfold pageFrom, cursorParam. cbn [default mbind option_bind]. cbn. rewrite ListQuotes_from, cut_page_more by done.
    by destruct (cut_page _ _).
  - intros q Hq rows_. destruct (offered_row f q Hq) as [[Hc _] Hg]. unfold pageFrom, cursorParam.
    change (default "" (Some ((encodeCursor ∘ cursorAfter) q))) with (encodeCursor (cursorAfter q)). rewrite encodeCursor_nonempty, decode_browseCursor by done.
    cbn [fmap option_fmap option_map mbind option_bind]. rewrite ListQuotes_from, cut_page_more by done.
    change (cursorPlace (cursorAfter q)) with (placeOf q). fold rows_. by destruct (cut_page _ _).
Qed.
End corpus.

(** ** What the route answers *)

Definition fetchQuotes (lang group limit : string) (r : request) (w : mworld) (token : option string)
    : option (list metaView * option string) :=
  match (run (qserve (GetQuotes lang group limit (default "" token)) r) w).1 with
  | FromQuote {| qa_status := 200; qa_body := QuotesBody l next |} => Some (l, if next =s? "" then None else Some next)
  | _ => None
  end.

(** A cursor a page can end with. *)
Definition issuedCursor (token : string) : Prop :=
  exists c, token = encodeCursor c /\ plain (cu_Lang c) /\ Valid (cu_Group c) = true.

Lemma run_ask {A} (q : qquery A) (k : A + sqlError -> qprog qanswer) w :
  run (fromQuote (let! x := ask q in k x)) w =
  let '(db, x) := exec_qquery q (wd_tick (mw_auth w)) (mclock w) (db_users (accounts w)) (md_quotes (mw_db w)) in
  run (fromQuote (k x)) (mtick (withMod (setQuotes (fun _ => db) (mw_db w)) w)).
Proof. cbn. by destruct (exec_qquery _ _ _ _ _). Qed.

Lemma fetchQuotes_page lang group limit r w f token :
  world_ok w -> (forall k q, md_quotes (mw_db w) !! k = Some q -> plain (qu_Lang q)) -> storable lang = true ->
  filterParam lang group = Some f -> match token with Some t => issuedCursor t | None => True end ->
  let page := pageFrom (md_quotes (mw_db w)) f (ParseLimit limit defaultLimit maxLimit) token in
  fetchQuotes lang group limit r w token = option_map (fun pc => (map toMetaView pc.1, pc.2)) page
  /\ forall l c, page = Some (l, Some c) -> issuedCursor c.
Proof.
  intros [Ha Hm] Hplain Hs Hf Ht page. set (db := md_quotes (mw_db w)) in *. set (lim := ParseLimit _ _ _) in *.
  assert (fi_Lang f = lang) as El.
  { unfold filterParam in Hf. destruct (group =s? ""); [by injection Hf as <-|].
    by apply bind_Some in Hf as (g & _ & [= <-]). }
  assert (exists after, cursorParam (default "" token) = Some after
    /\ forallb storable (qtexts (qListQuotes f after (lim + 1))) = true) as (after & Hafter & Htexts).
  { destruct token as [t|]; cbn -[storable].
    - destruct Ht as (c & -> & [Hc1 Hc2] & Hg). exists (Some c). unfold cursorParam.
      rewrite encodeCursor_nonempty, decode_browseCursor by done. cbn -[storable]. by rewrite El, Hs, Hc2.
    - exists None. cbn -[storable]. by rewrite El, Hs. }
  assert (forall rows_ last, cut_page (Z.to_nat lim) (ListQuotes f after (lim + 1) db) = (rows_, last) ->
    forall q, last = Some q -> plain (qu_Lang q) /\ Valid (qu_LenGroup q) = true) as Hlast.
  { intros rows_ last Hc q ->. apply (cut_page_spec placeOf) in Hc as [-> (init & Hi & _)].
    2: { enough (0 < lim) by lia. by apply ParseLimit_bounds. }
    apply (offered_row db _ (mo_quotes _ _ Hm) Hplain f). rewrite (ListQuotes_from db _ (mo_quotes _ _ Hm)) in Hi.
    assert (q ∈ init ++ [q]) as Hq by set_solver. rewrite <- Hi in Hq. apply elem_of_take in Hq as (i & Hq & _).
    apply list_elem_of_lookup_2, elem_of_take in Hq as (j & Hq & _). apply list_elem_of_lookup_2 in Hq.
    destruct after; [by apply list_elem_of_filter in Hq as [_ ?]|done]. }
  unfold page, pageFrom, fetchQuotes. rewrite Hafter. cbn [mbind option_bind].
  cbn [qserve]. unfold handleList. rewrite Hf, Hafter. fold lim.
  rewrite run_ask. unfold exec_qquery. rewrite Htexts. cbn [exec_published]. fold db.
  destruct (cut_page _ _) as [rows_ last] eqn:Ec. specialize (Hlast _ _ eq_refl). cbn -[encodeCursor]. split.
  - destruct last as [q|]; [|done]. destruct (Hlast q eq_refl) as [[Hl _] Hg]. cbn -[encodeCursor].
    by rewrite encodeCursor_nonempty.
  - intros l c [= _ E]. destruct last as [q|]; [|done]. destruct (Hlast q eq_refl). injection E as <-.
    by exists (cursorAfter q).
Qed.

(** C24: following the cursors lists the catalogue.  Whatever the filter and limit, on an
    unchanging corpus whose language ids are plain, the walk from the first page along
    the continuation tokens ends, and its pages put together are exactly the quotes on
    offer that the filter admits - current revisions, not withdrawn - each once, by
    language, length band and id, without their texts; all pages but the last are
    full. *)
Theorem catalogue_listed lang group limit r f w :
  world_ok w -> (forall k q, md_quotes (mw_db w) !! k = Some q -> plain (qu_Lang q)) -> storable lang = true ->
  filterParam lang group = Some f ->
  exists pages quotes,
    walk (S (length quotes)) (fetchQuotes lang group limit r w) None = Some pages
    /\ concat pages = toMetaView <$> quotes
    /\ NoDup (mv_ID <$> concat pages)
    /\ (forall q, q ∈ quotes <-> (exists k, md_quotes (mw_db w) !! k = Some q) /\ offered f q = true)
    /\ StronglySorted (before placeOf browse_lt) quotes
    /\ forall init p, pages = init ++ [p] ->
         Forall (fun q => length q = Z.to_nat (ParseLimit limit defaultLimit maxLimit)) init.
Proof.
  intros Hw Hplain Hs Hf. pose proof (mo_quotes _ _ (proj2 Hw)) as Hdb. set (db := md_quotes (mw_db w)) in *.
  assert (0 < ParseLimit limit defaultLimit maxLimit) as Hl by by apply ParseLimit_bounds.
  destruct (pages_all db _ Hdb Hplain f _ Hl) as (pages & Hwalk & Hc & Hfull).
  exists (map (map toMetaView) pages), (catalogue f db).
  assert (concat (map (map toMetaView) pages) = toMetaView <$> catalogue f db) as Ec.
  { rewrite <- Hc. clear. induction pages as [|p ps IH]; [done|]. cbn. by rewrite IH, fmap_app. }
  split_and!; [|done| |by intros q; apply catalogue_elem|by apply (catalogue_sorted db (live (accounts w)))|].
  - eapply walk_map; [|done|exact Hwalk]. intros c Hok. by apply fetchQuotes_page.
  - rewrite Ec, <- list_fmap_compose. change (mv_ID ∘ toMetaView) with qu_ID. unfold catalogue.
    rewrite order_by_perm. by eapply (NoDup_filter_pos qu_ID), rows_ids.
  - intros init p (l1 & l2 & -> & E2 & E)%fmap_app_inv. destruct l2 as [|p' [|]]; [done| |done].
    eapply Forall_fmap, Forall_impl; [by eapply Hfull|]. intros l. cbn. by rewrite length_fmap.
Qed.
End pages.

Section life.
Context `{Uuid} `{PgText} `{Argon2} `{!UuidOrder} `{!UuidLaws} `{!Collation} `{!Draws} `{!Env} `{!ReportLimits}.

Definition quotesOf (w : mworld) : gmap UUID Quote := md_quotes (mw_db w).

(** ** Nothing rewrites a published quote *)

Lemma exec_mquery_quotes {A} (q : mquery A) id now auth db : md_quotes (exec_mquery q id now auth db).1 = md_quotes db.
Proof.
  unfold exec_mquery. destruct (forallb _ _); [|done]. destruct q; cbn [exec_stored reads lookedUp fst]; try done.
  - unfold InsertBan. repeat case_match; simplify_eq; done.
  - unfold UpdateBan. repeat case_match; simplify_eq; done.
  - unfold RevokeBan. repeat case_match; simplify_eq; done.
  - unfold CreateReport. cbv zeta. repeat case_match; simplify_eq; done.
  - unfold ResolveSubjectReports. cbv zeta. repeat case_match; simplify_eq; done.
  - unfold GrantBadge. repeat case_match; simplify_eq; done.
  - unfold RevokeBadge. repeat case_match; simplify_eq; done.
Qed.

Lemma auth_effect_mod {X} (e : eff X) w : mw_db (auth_effect e w).2 = mw_db w.
Proof. destruct e; try done; cbn [auth_effect]; by lazymatch goal with |- context [auth_exec ?e ?a] => destruct (auth_exec e a) end. Qed.

Lemma mod_exec_frozen {X} (e : meff X) w : world_ok w -> frozen (quotesOf w) (quotesOf (exec e w).2).
Proof.
  intros Hw. unfold quotesOf. destruct e as [X e|A q|A q| |key]; cbn [exec mod_interp mod_exec].
  - by rewrite auth_effect_mod.
  - pose proof (exec_mquery_quotes q (env_id (wd_tick (mw_auth w)) false) (mclock w) (accounts w) (mw_db w)) as E.
    destruct (exec_mquery _ _ _ _ _) as [db r]. cbn in *. by rewrite E.
  - destruct (exec_qquery_ok q (wd_tick (mw_auth w)) (mclock w) (accounts w) (quotesOf w) (mo_quotes _ _ (proj2 Hw))) as [_ Hf].
    unfold quotesOf in Hf. by destruct (exec_qquery _ _ _ _ _) as [db r].
  - done.
  - by destruct (AuthLimiter.Allow _ _ _ _).
Qed.

Lemma mperforms_frozen X (e : meff X) w x w' : mperforms X e w x w' -> world_ok w -> frozen (quotesOf w) (quotesOf w').
Proof.
  intros [E|Hf] Hw.
  - pose proof (mod_exec_frozen e w Hw) as Hok. by rewrite E in Hok.
  - destruct e as [X e|A q|A q| |key]; try done; cbn in Hf.
    + destruct e; cbn [auth_faulty] in Hf; first [destruct Hf as (a & _ & ->)|destruct Hf as [_ ->]]; done.
    + destruct Hf as [_ [->| ->]]; [done|]. by apply (mod_exec_frozen (Stmt q)).
    + destruct Hf as [_ [->| ->]]; [done|]. by apply (mod_exec_frozen (Corpus q)).
Qed.

Lemma mchanges_frozen w w' : mchanges w w' -> world_ok w -> frozen (quotesOf w) (quotesOf w').
Proof.
  intros Hc [Ha Hm]. destruct Hc; try done.
  2: { unfold quotesOf. cbn. by destruct (arrange_grants user codes (mw_db w)) as [f ->]. }
  eapply (quotes_ok_fmap (live (accounts w)) (fun _ => True)); [|by destruct Hm].
  intros k q []. split_and!; [apply withWithdrawal_bytes|done|].
  split; cbn; try done. intros E. by rewrite qo_actor.
Qed.

Lemma steps_frozen s s' : world_ok s.1 -> steps mstep s s' -> world_ok s'.1 /\ frozen (quotesOf s.1) (quotesOf s'.1).
Proof.
  intros Hw Hs. apply (pool_invariant marrives mperforms mchanges MNotFound
    (fun w => world_ok w /\ frozen (quotesOf s.1) (quotesOf w)) s s'); [| |done|exact Hs].
  - intros X e w x w' Hp [Hok Hf]. split; [by eapply mperforms_ok|]. etrans; [done|by eapply mperforms_frozen].
  - intros w w' Hc [Hok Hf]. split; [by eapply mchanges_ok|]. etrans; [done|by eapply mchanges_frozen].
Qed.

Lemma run_GetByID id r w q :
  quotesOf w !! id = Some q ->
  (run (qserve (GetByID (uuid_String id)) r) w).1 = FromQuote (qreply 200 (QuoteBody (toQuoteView q))).
Proof.
  intros Hq. cbn [qserve]. unfold handleByID. rewrite Parse_String. rewrite run_ask. cbn.
  unfold GetQuote. unfold quotesOf in Hq. by rewrite Hq.
Qed.

(** C22: what is published is never rewritten.  From any reachable state, whatever
    requests, imports, withdrawals, failing statements and deleted accounts follow and
    however they interleave: every published quote is still there with the bytes,
    digest, language, length and id it was published with, and asking for it by id
    answers them, superseded and withdrawn or not; no two revisions of a quote carry
    the same bytes, and at most one of them is current. *)
Theorem quotes_never_rewritten s s' r :
  mreachable s -> steps mstep s s' ->
  frozen (quotesOf s.1) (quotesOf s'.1)
  /\ one_revision (quotesOf s'.1) /\ one_current (quotesOf s'.1)
  /\ forall id q, quotesOf s.1 !! id = Some q ->
       exists v, (run (qserve (GetByID (uuid_String id)) r) s'.1).1 = FromQuote (qreply 200 (QuoteBody v))
         /\ qv_Meta v = toMetaView q /\ qv_Text v = qu_Text q.
Proof.
  intros Hr Hs. destruct (steps_frozen s s' (mreachable_ok s Hr) Hs) as [[_ Hm] Hf].
  destruct (mo_quotes _ _ Hm). split_and!; [done..|]. intros id q Hq. destruct (Hf _ _ Hq) as (q' & Hq' & []).
  exists (toQuoteView q'). split; [by apply run_GetByID|]. cbn. unfold toMetaView. split; congruence.
Qed.

(** ** The import *)

Lemma loadQuotes_sound dv groups l : forall seen out,
  loadQuotes dv groups seen l = Some out ->
  NoDup (in_UpstreamID <$> out) /\ Forall (fun i => in_UpstreamID i ∉ seen) out
  /\ Forall (fun i => in_Length i = Int.int32 (Utf8.rune_count (in_Text i)) /\ 0 <= in_LenGroup i < Z.of_nat (length groups)
                 /\ dv [in_Text i] = Some (in_TextHash i)) out.
Proof.
  induction l as [|q l IH]; intros seen out; cbn [loadQuotes].
  - intros [= <-]. split_and!; constructor.
  - case_bool_decide as Hs; [done|]. destruct (Utf8.rune_count _ =? _) eqn:El; [|done]. cbn [negb].
    intros (g & Hg & (h & Hh & (rest & Hr & [= <-])%bind_Some)%bind_Some)%bind_Some. apply Z.eqb_eq in El.
    destruct (IH _ _ Hr) as (Hn & Hseen & Hf). split_and!.
    + rewrite fmap_cons. apply NoDup_cons. split; [|done]. intros (i & Ei & Hi)%list_elem_of_fmap.
      rewrite Forall_forall in Hseen. specialize (Hseen _ Hi). cbn in Ei. apply Hseen. rewrite <- Ei. left.
    + constructor; [done|]. eapply Forall_impl; [exact Hseen|]. cbn. intros i Hi Hin. apply Hi. by right.
    + constructor; [|done]. cbn. rewrite El. split_and!; [done|..|exact Hh].
      * unfold groupOf in Hg. apply fmap_Some in Hg as (n & _ & ->). lia.
      * unfold groupOf in Hg. apply fmap_Some in Hg as (n & Hn' & ->). apply find_index_Some in Hn' as (x & Hx & _).
        apply lookup_lt_Some in Hx. lia.
Qed.

Lemma Load_sound dv raw row l :
  Load dv raw row = Some l -> (forall i, i ∈ l -> in_Text i <> "" /\ Utf8.rune_count (in_Text i) < 2 ^ 31) ->
  NoDup (in_UpstreamID <$> l) /\ Forall (fun i => incoming_ok i = true) l
  /\ Forall (fun i => dv [in_Text i] = Some (in_TextHash i)) l.
Proof.
  unfold Load. intros (doc & _ & Hl)%bind_Some Ht. destruct (negb _); [done|]. destruct (negb _); [done|].
  destruct (sameGroups _ _) eqn:Eg; [|done]. cbn [negb] in Hl. unfold sameGroups, LenGroupCount in Eg.
  apply andb_true_iff in Eg as [_ Eg%Z.eqb_eq]. apply loadQuotes_sound in Hl as (Hn & _ & Hf).
  rewrite Forall_forall in Hf. split_and!; [done|..]; apply Forall_forall; intros i Hi;
    destruct (Hf _ Hi) as (El & Hg & Hd); [|done]. destruct (Ht _ Hi) as [Hne Hlt].
  assert (0 <= Utf8.rune_count (in_Text i)) by (unfold Utf8.rune_count; lia). unfold Int.int32 in El.
  rewrite Int.wrap_id in El by (unfold Int.in_range; lia).
  assert (Utf8.rune_count (in_Text i) <> 0) by (intros E; by apply Hne, Utf8.rune_count_empty).
  unfold incoming_ok, Valid, LenGroupCount. lia.
Qed.

(** A text the corpus did not have is on offer. *)
Lemma imported_offered L lang l db db' i :
  imported L lang l db db' -> NoDup (in_UpstreamID <$> l) -> i ∈ l ->
  (forall k q, db !! k = Some q -> sameRevision lang (in_UpstreamID i) (in_TextHash i) q = false) ->
  exists k q, db' !! k = Some q /\ qu_Text q = in_Text i /\ published q = true.
Proof.
  intros [] Hn Hi Hnew. pose proof (ip_current Hn) as Hc. rewrite Forall_forall in Hc.
  destruct (Hc _ Hi) as (k & q & Hk & Hr & Hs). exists k, q. split; [done|].
  assert (db !! k = None) as Hk0.
  { destruct (db !! k) as [q0|] eqn:E; [|done]. exfalso. destruct (ip_frozen _ _ E) as (q1 & Hk1 & []).
    rewrite Hk in Hk1. injection Hk1 as <-. pose proof (Hnew _ _ E) as Hf. apply not_true_iff_false in Hf. apply Hf.
    apply sameRevision_spec in Hr as (?&?&?). apply sameRevision_spec. split_and!; congruence. }
  destruct (ip_new _ _ Hk0 Hk) as (j & Hj & (E1 & E2 & E3 & _ & _ & _ & E4)).
  apply sameRevision_spec in Hr as (_ & E & _). assert (j = i) as ->.
  { rewrite E in E2. apply list_elem_of_lookup in Hi as [m Hm], Hj as [m' Hm'].
    assert (m = m') as <-; [|congruence]. eapply (NoDup_lookup _ _ _ (in_UpstreamID i) Hn); rewrite list_lookup_fmap.
    - by rewrite Hm.
    - by rewrite Hm', E2. }
  split; [done|]. unfold published. by rewrite Hs, E4.
Qed.

(** C23: an import publishes the vendored file, once.  For a file that loads, has no empty
    quote, and ids not yet used: the import succeeds and counts every quote; each
    quote's bytes, with the digest the game core gives them, are the current revision of
    their quote, and a text the corpus did not have is on offer, whether or not an older
    revision was withdrawn; older revisions stay with their bytes and their withdrawal,
    all other quotes as they were; and importing the file again counts every quote
    unchanged and writes nothing. *)
Theorem import_publishes L ids ids' now now' dv raw row l db :
  Load dv raw row = Some l -> (forall i, i ∈ l -> in_Text i <> "" /\ Utf8.rune_count (in_Text i) < 2 ^ 31) ->
  quotes_ok L db -> fresh_ids ids 0 (length l) db ->
  exists db' s,
    Import ids 0 now (la_Lang row) l noStats db = inl (db', s) /\ Total s = Z.of_nat (length l)
    /\ imported L (la_Lang row) l db db'
    /\ Forall (current (la_Lang row) db') l
    /\ Forall (fun i => dv [in_Text i] = Some (in_TextHash i)) l
    /\ (forall i, i ∈ l ->
          (forall k q, db !! k = Some q -> sameRevision (la_Lang row) (in_UpstreamID i) (in_TextHash i) q = false) ->
          exists k q, db' !! k = Some q /\ qu_Text q = in_Text i /\ published q = true)
    /\ Import ids' 0 now' (la_Lang row) l noStats db'
       = inl (db', {| im_Inserted := 0; im_Superseded := 0; im_Unchanged := Z.of_nat (length l) |}).
Proof.
  intros Hl Ht Hdb Hids. destruct (Load_sound _ _ _ _ Hl Ht) as (Hn & Hok & Hd).
  destruct (Import_imported L ids now (la_Lang row) l 0 noStats db Hdb Hok Hids) as (db' & s & Hi & Hs & Him).
  exists db', s. pose proof (ip_current _ _ _ _ _ Him Hn) as Hc.
  destruct (Import_same L ids' now' (la_Lang row) l 0 noStats db' (ip_ok _ _ _ _ _ Him) Hc) as (s' & Hi' & E1 & E2 & E3).
  split_and!; [done..| |].
  - intros i Hin. by eapply imported_offered.
  - rewrite Hi'. do 2 f_equal. destruct s'. cbn in *. by subst.
Qed.

(** ** Withdrawing and restoring *)

Lemma run_handleWithdraw actor id r body w :
  decodeLenient ["reason"] r = Some body ->
  let reason := Strs.TrimSpace (member body "reason") in
  reason <> "" -> Utf8.rune_count reason <= maxWithdrawalReason -> storable reason = true ->
  run (fromQuote (handleWithdraw actor (uuid_String id) r)) w =
  match WithdrawQuote (mclock w) id actor reason (db_users (accounts w)) (quotesOf w) with
  | inl (db', (q, changed)) =>
    (FromQuote (qreply 200 (WithdrawBody id changed (toWithdrawalView (toWithdrawal q)))),
     mtick (withMod (setQuotes (fun _ => db') (mw_db w)) w))
  | inr e => (FromQuote (QuoteHandlers.writeErr (Pg e)), mtick (withMod (setQuotes (fun _ => quotesOf w) (mw_db w)) w))
  end.
Proof.
  intros Hb reason Hne Hlen Hst. unfold handleWithdraw, withQuoteID. rewrite Parse_String, Hb. fold reason.
  rewrite (proj2 (String.eqb_neq reason "") Hne), (proj2 (Z.ltb_ge _ _) Hlen). cbn [orb]. rewrite run_ask.
  unfold exec_qquery. cbn [qtexts forallb exec_published]. rewrite Hst. cbn [andb]. fold (quotesOf w).
  by destruct (WithdrawQuote _ _ _ _ _ _) as [[db' [q changed]]|e].
Qed.

Lemma run_handleRestore id w :
  run (fromQuote (handleRestore (uuid_String id))) w =
  let '(db', n) := RestoreQuote id (quotesOf w) in
  (FromQuote (qreply 200 (WithdrawBody id (0 <? n) inCirculation)), mtick (withMod (setQuotes (fun _ => db') (mw_db w)) w)).
Proof.
  unfold handleRestore, withQuoteID. rewrite Parse_String, run_ask. unfold exec_qquery. cbn [qtexts forallb exec_published].
  fold (quotesOf w). by destruct (RestoreQuote id (quotesOf w)).
Qed.

Lemma withdrawn_not_offered f q t by_ reason : offered f (withWithdrawal (Some t) by_ reason q) = false.
Proof. unfold offered, published. cbn. by rewrite andb_false_r. Qed.

(** Only what is offered is listed or drawn. *)
Lemma not_offered_hidden f id (db : gmap UUID Quote) L :
  quotes_ok L db -> (forall q, db !! id = Some q -> offered f q = false) ->
  (forall x, x ∈ catalogue f db -> qu_ID x <> id)
  /\ forall d x, PickRandomQuote f d db = inl x -> qu_ID x <> id.
Proof.
  intros Hdb Hid. assert (forall x, (exists k, db !! k = Some x) /\ offered f x = true -> qu_ID x <> id) as Hx.
  { intros x [[k Hk] Ho] E. rewrite (qo_key _ _ _ (qs_rows _ _ Hdb _ _ Hk)) in E. subst k. by rewrite (Hid _ Hk) in Ho. }
  split; [by intros x Hin%catalogue_elem; apply Hx|].
  intros d x. unfold PickRandomQuote. cbv zeta. destruct (filter _ _ !! _) as [x'|] eqn:E; [|done]. intros [= ->]. apply Hx.
  apply list_elem_of_lookup_2, list_elem_of_filter in E as [Ho Hin]. split; [by apply table_rows in Hin|done].
Qed.

(** Withdrawing takes a quote off offer and nothing else, and restoring undoes it.  A
    moderator's withdrawal, with a reason of 1 to 500 characters, of a quote in
    circulation: the answer says it changed the quote, and when, by whom and why; no
    filter lists it and no draw yields it; by id it is served as before; the other quotes
    are untouched.  A later withdrawal by anybody keeps and answers the first record and
    says nothing changed; restoring puts the very row back. *)
Theorem withdraw_then_restore actor id q r body w :
  world_ok w -> live (accounts w) actor -> quotesOf w !! id = Some q -> qu_WithdrawnAt q = None ->
  decodeLenient ["reason"] r = Some body ->
  let reason := Strs.TrimSpace (member body "reason") in
  reason <> "" -> Utf8.rune_count reason <= maxWithdrawalReason -> storable reason = true ->
  let record := {| wv_Withdrawn := true; wv_At := Some (mclock w); wv_By := Some actor; wv_Reason := reason |} in
  exists w1,
    run (fromQuote (handleWithdraw actor (uuid_String id) r)) w
      = (FromQuote (qreply 200 (WithdrawBody id true record)), w1)
    /\ (forall f, (forall x, x ∈ catalogue f (quotesOf w1) -> qu_ID x <> id)
          /\ forall d x, PickRandomQuote f d (quotesOf w1) = inl x -> qu_ID x <> id)
    /\ (run (qserve (GetByID (uuid_String id)) r) w1).1 = FromQuote (qreply 200 (QuoteBody (toQuoteView q)))
    /\ (forall k, k <> id -> quotesOf w1 !! k = quotesOf w !! k)
    /\ (forall w2 actor2 r2 body2, quotesOf w2 = quotesOf w1 -> mclock w < mclock w2 ->
          decodeLenient ["reason"] r2 = Some body2 ->
          let reason2 := Strs.TrimSpace (member body2 "reason") in
          reason2 <> "" -> Utf8.rune_count reason2 <= maxWithdrawalReason -> storable reason2 = true ->
          exists w3, run (fromQuote (handleWithdraw actor2 (uuid_String id) r2)) w2
            = (FromQuote (qreply 200 (WithdrawBody id false record)), w3) /\ quotesOf w3 = quotesOf w1)
    /\ forall w2, quotesOf w2 = quotesOf w1 ->
          exists w3, run (fromQuote (handleRestore (uuid_String id))) w2
            = (FromQuote (qreply 200 (WithdrawBody id true inCirculation)), w3) /\ quotesOf w3 = quotesOf w.
Proof.
  intros [Ha Hm] Hlive Hq Hw Hb reason Hne Hlen Hst record.
  set (q1 := withWithdrawal (Some (mclock w)) (Some actor) (Some reason) q).
  assert (WithdrawQuote (mclock w) id actor reason (db_users (accounts w)) (quotesOf w)
    = inl (<[id := q1]> (quotesOf w), (q1, true))) as Ew.
  { unfold WithdrawQuote. rewrite Hq, Hw. by rewrite (bool_decide_eq_true_2 _ Hlive). }
  pose proof (WithdrawQuote_ok _ _ _ _ _ _ _ _ Ew (mo_quotes _ _ Hm)) as [Hok _].
  eexists. rewrite run_handleWithdraw with (body := body) by done. fold reason. rewrite Ew.
  split; [done|]. set (w1 := mtick _). change (quotesOf w1) with (<[id := q1]> (quotesOf w)).
  assert (<[id := q1]> (quotesOf w) !! id = Some q1) as Hq1 by apply lookup_insert_eq.
  split_and!.
  - intros f. eapply not_offered_hidden; [exact Hok|]. rewrite Hq1. intros ? [= <-]. apply withdrawn_not_offered.
  - by rewrite (run_GetByID id r w1 q1).
  - intros k Hk. by rewrite lookup_insert_ne.
  - intros w2 actor2 r2 body2 E2 Ht Hb2 reason2 Hne2 Hlen2 Hst2.
    rewrite run_handleWithdraw with (body := body2) by done. rewrite E2. unfold WithdrawQuote. rewrite Hq1. cbn [q1 qu_WithdrawnAt withWithdrawal].
    rewrite (proj2 (Z.eqb_neq _ _)) by lia. by eexists.
  - intros w2 E2. rewrite run_handleRestore, E2. unfold RestoreQuote. rewrite Hq1. cbn. eexists. split; [done|].
    cbn. rewrite insert_insert_eq. apply insert_id. rewrite Hq. f_equal.
    destruct (qs_rows _ _ (mo_quotes _ _ Hm) _ _ Hq). destruct q; cbn in *. subst.
    rewrite (qo_actor eq_refl). by rewrite (proj1 qo_complete eq_refl).
Qed.
End life.
