(* ===== verification/ModAuthority.v ===== *)
(** * Who may moderate, and what they may change

    Whatever the database answers, what a request to the moderation surfaces has
    observed before each of its statements; and the same for the quote routes. *)

From Stdlib Require Import Strings.Ascii.
From S2P Require Import Prelude GoStd Effects Uuid Httpx Keyset Json AuthText AuthPassword AuthStore AuthFlow AuthHandlers AuthAuthority QuoteStore QuoteHandlers ModStore ModHandlers.

Open Scope Z_scope.

Section authority.
Context `{Uuid} `{PgText} `{Argon2} `{!UuidOrder} `{!Env}.

Notation obs := (Effects.obs meff).

(** ** A program of the auth service among ours *)

(** The observations of the auth service, as ours. *)
Definition lift_obs (o : Effects.obs AuthFlow.eff) : obs := match o with Obs e x => Obs (Auth e) x end.
Definition lift (h : list (Effects.obs AuthFlow.eff)) : list obs := lift_obs <$> h.

Lemma lift_elem {X} (e : AuthFlow.eff X) (x : X) h : Obs e x ∈ h -> Obs (Auth e) x ∈ lift h.
Proof. intros Hin. apply list_elem_of_fmap. by exists (Obs e x). Qed.

Lemma within_paths {A} P (Q : A -> list (Effects.obs AuthFlow.eff) -> Prop) P' g (p : AuthFlow.prog A) h :
  (forall X (e : AuthFlow.eff X) h, P X e h -> P' X (Auth e) (lift h ++ g)) ->
  paths P Q h p -> paths P' (fun a h' => exists h0, h' = lift h0 ++ g /\ Q a h0) (lift h ++ g) (within p).
Proof.
  intros HP. revert h. induction p as [a|X e k IH]; intros h; cbn.
  - intros HQ. by exists h.
  - intros [Hp Hk]. split; [by apply HP|]. intros x. by apply (IH x (Obs e x :: h)).
Qed.

(** ** Grounds *)

(** The request's own live session is this account's. *)
Definition sessionFor (r : request) (h : list obs) (u : User) : Prop :=
  exists ha, lift ha ⊆ h /\ signedInAs r ha u.

(** What the gates of the route require of the account and of the request. *)
Definition passes (t : mroute) (r : request) (u : User) : Prop :=
  match permission t with
  | Some p => Can u p = true /\ (writes t = true -> originAllowed (mmethod t) (rq_Origin r) = true)
  | None => originAllowed (mmethod t) (rq_Origin r) = true
  end.

Definition acting (t : mroute) (r : request) (h : list obs) (u : User) : Prop := sessionFor r h u /\ passes t r u.

(** The request named this account, in one of the ways an account is found. *)
Definition named (h : list obs) (user : UUID) : Prop :=
  exists u, mu_ID u = user
    /\ ((exists i, Obs (Stmt (qResolveUserByID i)) (inl u) ∈ h)
        \/ (exists s, Obs (Stmt (qResolveUserByEmail s)) (inl [u]) ∈ h)
        \/ (exists s, Obs (Stmt (qResolveUserByDisplayName s)) (inl [u]) ∈ h)).

(** A ban in the actor's name, with a reason. *)
Definition signed (u : User) (p : BanParams) : Prop :=
  bp_IssuedBy p = Some (us_DisplayName u) /\ bp_IssuedByUser p = auditID (actorOf u) /\ bp_Reason p <> "".

(** The table: which route may perform a statement, on whose behalf, after what. *)
Definition stmtGround (t : mroute) (u : User) {A} (q : mquery A) (h : list obs) : Prop :=
  match q with
  | qInsertBan user p =>
    t = PostBan /\ signed u p /\ named h user /\ Obs (Stmt (qActiveBanFor user)) (inr (Pg NoRows)) ∈ h
  | qUpdateBan id p =>
    t = PostBan /\ signed u p
    /\ exists user b, named h user /\ Obs (Stmt (qActiveBanFor user)) (inl b) ∈ h /\ bw_ID b = id
  | qRevokeBan id by_ =>
    by_ = auditID (actorOf u)
    /\ exists i user b, t = DeleteBan i /\ uuid_Parse i = Some user
         /\ Obs (Stmt (qActiveBanFor user)) (inl b) ∈ h /\ bw_ID b = id
  | qGrantBadge user code by_ =>
    (exists i, t = PostBadge i) /\ by_ = auditID (actorOf u) /\ Known code = true /\ named h user
  | qRevokeBadge user code by_ =>
    (exists i, t = DeleteBadge i code) /\ by_ = auditID (actorOf u) /\ named h user
  | qResolveSubjectReports c status by_ note =>
    by_ = us_ID u /\ (status = StatusActioned \/ status = StatusDismissed)
    /\ exists ty i s, t = PostResolve ty i /\ parseSubject ty i = Some s /\ c = Columns s
  | qCreateReport c reporter reason comment =>
    t = PostReport /\ reporter = us_ID u
    /\ (exists s, Validate s = true /\ c = Columns s /\ ReasonValid s reason = true)
    /\ Obs (AllowReport (uuid_String reporter)) true ∈ h
    /\ Obs (Stmt (ModHandlers.qIsRestricted reporter)) (inl false) ∈ h
    /\ exists n, Obs (Stmt (qCountOpenReportsBy reporter)) (inl n) ∈ h /\ n < maxOpenReportsPerUser
  | _ => True
  end.

(** Before its session is known a request only reads and renews it. *)
Definition mground (t : mroute) (r : request) (X : Type) (e : meff X) (h : list obs) : Prop :=
  match e with
  | Auth e => exists ha, ground r _ e ha
  | Stmt q => exists u, acting t r h u /\ stmtGround t u q h
  | Corpus _ => False
  | Clock => True
  | AllowReport key => exists u, acting t r h u /\ key = uuid_String (us_ID u)
  end.

(** Whoever lacks the permission is answered as for a route that is not there. *)
Definition unseen (t : mroute) (r : request) (a : manswer) (h : list obs) : Prop :=
  forall p, permission t = Some p -> a <> MNotFound -> exists u, sessionFor r h u /\ Can u p = true.

(** ** Grounds last *)

Lemma sessionOf_mono r h h' u : h ⊆ h' -> sessionFor r h u -> sessionFor r h' u.
Proof. intros Hs (ha & Ha & Hi). exists ha. split; [by etrans|done]. Qed.

Lemma acting_mono t r h h' u : h ⊆ h' -> acting t r h u -> acting t r h' u.
Proof. intros Hs [Ha Hp]. split; [by eapply sessionOf_mono|done]. Qed.

Lemma named_mono h h' user : h ⊆ h' -> named h user -> named h' user.
Proof.
  intros Hs (u & Eu & Hn). exists u. split; [done|].
  destruct Hn as [[i Hi]|[[i Hi]|[i Hi]]]; [left|right; left|right; right]; eauto.
Qed.

Lemma acting_cons t r o h u : acting t r h u -> acting t r (o :: h) u.
Proof. apply acting_mono, sub_cons. Qed.
Lemma named_cons o h user : named h user -> named (o :: h) user.
Proof. apply named_mono, sub_cons. Qed.

Create HintDb mod_auth.
Hint Resolve acting_cons named_cons list_elem_of_here list_elem_of_further : mod_auth.

(** ** The pieces *)

Section route.
Context (t : mroute) (r : request).

(** Every answer to somebody acting is seen by somebody who may see it. *)
Notation allowed u := (paths (mground t r) (fun (_ : manswer) h => acting t r h u)).

(** Run one effect, its grounds the acting account's, and name its answer. *)
Ltac perform u x := cbn [bind stmt restriction OpenBy meff_ paths]; split; [first [exact I|exists u; split; [by auto with mod_auth|try done]]|intros x].

Lemma ResolveUser_paths u i h :
  acting t r h u ->
  paths (mground t r) (fun res h' => acting t r h' u /\ forall m, res = inl m -> named h' (mu_ID m)) h (ResolveUser i).
Proof.
  intros Hu. unfold ResolveUser, byEmail, byDisplayName. destruct (uuid_Parse i) as [id|].
  - perform u x. destruct x as [m|[[]| |]]; cbn [paths]; (split; [by auto with mod_auth|]); try done.
    intros ? [= <-]. exists m. split; [done|]. left. eexists. left.
  - perform u x. destruct x as [[|m [|m' l]]|]; cbn [paths]; try (split; [by auto with mod_auth|done]).
    + perform u y. destruct y as [[|m [|m' l]]|]; cbn [paths]; try (split; [by auto with mod_auth|done]).
      split; [by auto with mod_auth|]. intros ? [= <-]. exists m. split; [done|]. right. right. eexists. left.
    + split; [by auto with mod_auth|]. intros ? [= <-]. exists m. split; [done|]. right. left. eexists. left.
Qed.

Lemma resolve_paths u i next h :
  acting t r h u ->
  (forall m h', acting t r h' u -> named h' (mu_ID m) -> allowed u h' (next m)) ->
  allowed u h (resolve i next).
Proof.
  intros Hu Hn. unfold resolve. apply paths_bind. eapply paths_impl; [by apply ResolveUser_paths|].
  cbn beta. intros [m|e] h' _ [Hu' Hm]; [by apply Hn, Hm|]. by destruct e.
Qed.

Lemma ban_paths u user reason expiry h :
  t = PostBan -> acting t r h u -> named h user -> reason <> "" ->
  paths (mground t r) (fun _ h' => acting t r h' u) h (BanUser user reason (actorOf u) expiry).
Proof.
  intros Et Hu Hn Hr. unfold BanUser. perform u b. destruct b as [b|[[]| |]]; try (cbn [paths]; by auto with mod_auth).
  - perform u b'; [|destruct b'; cbn [paths]; by auto with mod_auth].
    split_and!; [done..|]. exists user, b. split_and!; [by auto with mod_auth|left|done].
  - perform u b'; [|destruct b'; cbn [paths]; by auto with mod_auth].
    split_and!; [done..|by auto with mod_auth|left].
Qed.

Lemma unban_paths u i user h :
  t = DeleteBan i -> uuid_Parse i = Some user -> acting t r h u ->
  paths (mground t r) (fun _ h' => acting t r h' u) h (Unban user (actorOf u)).
Proof.
  intros Et Ei Hu. unfold Unban. perform u b. destruct b as [b|[[]| |]]; try (cbn [paths]; by auto with mod_auth).
  perform u b'; [|destruct b' as [|[[]| |]]; cbn [paths]; by auto with mod_auth].
  split; [done|]. exists i, user, b. split_and!; [done..|left|done].
Qed.

(** *** The handlers *)

(** Every answer given, the account still acting. *)
Ltac answered := cbn [negb bind paths]; by auto with mod_auth.
(** After a piece whose result keeps the account acting. *)
Ltac after lem := apply paths_bind; eapply paths_impl; [eapply lem; eauto with mod_auth|cbn beta].

Lemma reads_ok u {A} (q : mquery A) (f : A -> mprog manswer) h :
  acting t r h u -> (forall h', stmtGround t u q h') ->
  (forall a h', acting t r h' u -> allowed u h' (f a)) ->
  allowed u h (let! x := stmt q in match x with inr _ => Ret internalError | inl a => f a end).
Proof.
  intros Hu Hq Hf. perform u x. destruct x as [a|e]; [|answered]. cbn [bind]. by apply Hf, acting_cons.
Qed.

Lemma clock_ok u (f : Z -> mprog manswer) h :
  acting t r h u -> (forall now h', acting t r h' u -> allowed u h' (f now)) ->
  allowed u h (let! now := meff_ Clock in f now).
Proof. intros Hu Hf. cbn. split; [done|]. intros now. by apply Hf, acting_cons. Qed.

Lemma handleListBans_ok u a l h : acting t r h u -> allowed u h (handleListBans a l).
Proof. intros Hu. unfold handleListBans. apply reads_ok; [done..|]. intros. by apply clock_ok. Qed.

Lemma handleUserBans_ok u i h : acting t r h u -> allowed u h (handleUserBans i).
Proof.
  intros Hu. unfold handleUserBans. apply resolve_paths; [done|]. intros m h' Hu' Hn.
  apply reads_ok; [done..|]. intros a h2 Hu2. apply reads_ok; [done..|]. intros. by apply clock_ok.
Qed.

Lemma handleBan_ok u h : t = PostBan -> acting t r h u -> allowed u h (handleBan (actorOf u) r).
Proof.
  intros Et Hu. unfold handleBan. destruct (decodeLenient _ _) as [req|]; [|answered].
  destruct (member req "reason" =s? "") eqn:Er; [answered|]. bool_to_prop. apply clock_ok; [done|]. intros now h1 Ha1.
  destruct (parseUntil _ _) as [expiry|]; [|answered]. apply resolve_paths; [done|]. intros m h2 Ha2 Hn.
  after ban_paths. intros [res|e] h3 _ Ha3; [|answered]. by apply clock_ok.
Qed.

Lemma handleUnban_ok u i h : t = DeleteBan i -> acting t r h u -> allowed u h (handleUnban (actorOf u) i).
Proof.
  intros Et Hu. unfold handleUnban. destruct (uuid_Parse i) as [user|] eqn:Ei; [|answered].
  after unban_paths. intros [b|[]] h' _ Hu'; try answered. by apply clock_ok.
Qed.

Lemma handleUserBadges_ok u i h : acting t r h u -> allowed u h (handleUserBadges i).
Proof. intros Hu. unfold handleUserBadges. apply resolve_paths; [done|]. intros. by apply reads_ok. Qed.

Lemma handleBadgeHolders_ok u c l h : acting t r h u -> allowed u h (handleBadgeHolders c l).
Proof. intros Hu. unfold handleBadgeHolders. by apply reads_ok. Qed.

Lemma handleGrantBadge_ok u i h : t = PostBadge i -> acting t r h u -> allowed u h (handleGrantBadge (actorOf u) i r).
Proof.
  intros Et Hu. unfold handleGrantBadge. destruct (decodeLenient _ _) as [req|]; [|answered].
  apply resolve_paths; [done|]. intros m h' Hu' Hn. unfold GrantBadgeTo.
  destruct (Known (member req "code")) eqn:Ek; [|answered]. cbn [negb].
  perform u g; [|destruct g as [g|e]; answered]. split_and!; eauto with mod_auth.
Qed.

Lemma handleRevokeBadge_ok u i c h :
  t = DeleteBadge i c -> acting t r h u -> allowed u h (handleRevokeBadge (actorOf u) i c).
Proof.
  intros Et Hu. unfold handleRevokeBadge. apply resolve_paths; [done|]. intros m h' Hu' Hn. unfold RevokeBadgeOf.
  perform u g; [|destruct g as [g|[[]| |]]; answered]. split_and!; eauto with mod_auth.
Qed.

Lemma handleQueue_ok u k l h : acting t r h u -> allowed u h (handleQueue k l).
Proof.
  intros Hu. unfold handleQueue, Queue. case_match; [answered|]. perform u q. destruct q as [q|e]; answered.
Qed.

Lemma handleSubject_ok u ty i h : acting t r h u -> allowed u h (handleSubject ty i).
Proof. intros Hu. unfold handleSubject. case_match; [|answered]. by apply reads_ok. Qed.

Lemma handleResolve_ok u ty i h :
  t = PostResolve ty i -> acting t r h u -> allowed u h (handleResolve (actorOf u) ty i r).
Proof.
  intros Et Hu. unfold handleResolve. destruct (parseSubject ty i) as [s|] eqn:Es; [|answered].
  destruct (decodeLenient _ _) as [req|]; [|answered]. destruct (oneOf _ _) eqn:Ev; [|answered].
  cbn [negb]. case_match; [answered|]. apply reads_ok; [done| |intros; answered].
  intros h'. split; [done|]. split; [|by exists ty, i, s]. cbn in Ev. rewrite orb_false_r in Ev.
  apply orb_true_iff in Ev as [E|E]; apply String.eqb_eq in E; auto.
Qed.

Lemma parseSubject_valid ty i s : parseSubject ty i = Some s -> Validate s = true.
Proof. unfold parseSubject. destruct (uuid_Parse i); cbn; [|done]. case_match; [|done]. by intros [= <-]. Qed.

Lemma file_paths u s reason comment h n :
  t = PostReport -> acting t r h u -> Validate s = true -> ReasonValid s reason = true ->
  Obs (AllowReport (uuid_String (us_ID u))) true ∈ h ->
  Obs (Stmt (ModHandlers.qIsRestricted (us_ID u))) (inl false) ∈ h ->
  Obs (Stmt (qCountOpenReportsBy (us_ID u))) (inl n) ∈ h -> n < maxOpenReportsPerUser ->
  paths (mground t r) (fun _ h' => acting t r h' u) h (File s (us_ID u) reason comment).
Proof.
  intros Et Hu Hs Hr Ha Hb Hc Hn. unfold File. perform u x; [split_and!; eauto 10|].
  destruct x as [x|e]; [answered|]. destruct (isForeignKeyViolation e); [answered|].
  destruct e as [[]| |]; try answered. perform u y. destruct y; answered.
Qed.

Lemma handleFile_ok u h : t = PostReport -> acting t r h u -> allowed u h (handleFile (us_ID u) r).
Proof.
  intros Et Hu. unfold handleFile. perform u passed. destruct passed; [|answered]. cbn [negb bind].
  destruct (decodeFile r) as [body|]; [|answered]. destruct (parseSubject _ _) as [s|] eqn:Es; [|answered].
  apply parseSubject_valid in Es. destruct (ReasonValid s _) eqn:Er; [|answered]. cbn [negb].
  case_match; [answered|]. perform u b. destruct b as [[|]|]; [answered| |answered]. cbn [bind].
  perform u n. destruct n as [n|]; [|answered]. cbn [bind]. destruct (_ <=? n) eqn:En; [answered|]. bool_to_prop.
  after file_paths. intros [[rep c]|[]] h' _ Hu'; answered.
Qed.
End route.

(** ** Behind the gates *)

(** Whatever else is grounded, the gates' effects are those of the auth service. *)
Lemma authenticate_within (G : forall X, meff X -> list obs -> Prop) r :
  (forall X (e : AuthFlow.eff X) h, (exists ha, ground r X e ha) -> G X (Auth e) h) ->
  paths G (fun res h => forall u, res = inl u -> sessionFor r h u) [] (within (authenticate r)).
Proof.
  intros HG. eapply paths_impl.
  - pose proof (within_paths (ground r) _ G [] (authenticate r) []
      (fun X e h He => HG X e _ (ex_intro _ h He)) (authenticate_paths r [])) as Hw. exact Hw.
  - cbn. intros res h' _ (h0 & -> & Hr) u E. exists h0. rewrite app_nil_r. auto.
Qed.

(** Past an admin gate somebody with the permission is signed in. *)
Lemma adminGate_paths (G : forall X, meff X -> list obs -> Prop) (Q : manswer -> list obs -> Prop) p write method r next :
  (forall X (e : AuthFlow.eff X) h, (exists ha, ground r X e ha) -> G X (Auth e) h) ->
  (forall h, Q MNotFound h) ->
  (forall u h a, sessionFor r h u -> Can u p = true -> a = FromAuth (fail apiErrForbiddenOrigin) -> Q a h) ->
  (forall u h, sessionFor r h u -> Can u p = true -> (write = true -> originAllowed method (rq_Origin r) = true) ->
    paths G Q h (next u)) ->
  paths G Q [] (adminGate p write method r next).
Proof.
  intros HG H404 H403 Hn. unfold adminGate. apply paths_bind. eapply paths_impl; [by apply authenticate_within|]. cbn beta.
  intros [u|e] h _ Hu; [|by apply H404]. specialize (Hu u eq_refl). destruct (Can u p) eqn:Ec; [|by apply H404].
  destruct (write && negb (originAllowed _ _)) eqn:Eo; [by eapply H403|].
  apply Hn; [done..|]. intros ->. by apply negb_false_iff in Eo.
Qed.

Lemma mhandler_ok t r u h :
  acting t r h u -> paths (mground t r) (fun _ h' => acting t r h' u) h (mhandler t u r).
Proof.
  intros Hu. destruct t; cbn [mhandler];
    eauto using handleListBans_ok, handleUserBans_ok, handleBan_ok, handleUnban_ok, handleUserBadges_ok,
      handleBadgeHolders_ok, handleGrantBadge_ok, handleRevokeBadge_ok, handleQueue_ok, handleSubject_ok,
      handleResolve_ok, handleFile_ok.
Qed.

(** C14: moderation is for moderators, and everything it writes is signed.  Whatever the
    database answers, a request to an admin route performs no statement, and is answered
    as a route that does not exist, unless its own live session belongs to an account
    whose role holds the route's permission; and writes nothing from another origin.
    Each write is the route's own: a ban has a reason, bears the actor's name and id and
    is for the account the request named; an unban revokes the ban it read; a badge
    is of a known code; a verdict closes reports in the actor's name.  A report is
    filed only in the name of the signed-in player, of a kind and reason that fit, after
    the limiter let it pass, while the player is not restricted and has fewer than twenty
    open reports. *)
Theorem moderation_grounded (t : mroute) (r : request) :
  paths (mground t r) (unseen t r) [] (mserve t r).
Proof.
  assert (forall u h, acting t r h u ->
    paths (mground t r) (unseen t r) h (mhandler t u r)) as Hhandler.
  { intros u h Hu. eapply paths_impl; [by apply mhandler_ok|]. cbn. intros a h' _ [Hs Hp] p Ep _.
    exists u. unfold passes in Hp. rewrite Ep in Hp. by destruct Hp. }
  unfold mserve. destruct (permission t) as [p|] eqn:Ep.
  - apply adminGate_paths; [done|by intros ? ? ?|..].
    + intros u h a Hs Hc _ p' Ep' _. rewrite Ep in Ep'. injection Ep' as <-. by exists u.
    + intros u h Hs Hc Ho. apply Hhandler. split; [done|]. unfold passes. by rewrite Ep.
  - unfold playerGate. destruct (originAllowed _ _) eqn:Eo; cbn [negb].
    + apply paths_bind. eapply paths_impl; [by apply authenticate_within|]. cbn beta. intros [u|e] h _ Hu.
      * apply Hhandler. split; [by apply Hu|]. unfold passes. by rewrite Ep.
      * intros p' Ep'. congruence.
    + intros p' Ep'. congruence.
Qed.
End authority.

(** * Who may do what to the corpus

    Whatever the database answers, what a request to the quote routes has observed
    before each of its statements. *)

Section authority.
Context `{Uuid} `{PgText} `{Argon2} `{!UuidOrder} `{!Env}.

Notation obs := (Effects.obs meff).

(** A moderator from the frontend, on one of the two routes that write. *)
Definition moderator (t : qroute) (r : request) (h : list obs) (u : User) : Prop :=
  sessionFor r h u /\ Can u "quotes:write" = true /\ originAllowed (qmethod t) (rq_Origin r) = true.

(** The table: which route may perform a statement, after what. *)
Definition corpusGround (t : qroute) (r : request) {A} (q : qquery A) (h : list obs) : Prop :=
  match q with
  | qListQuotes f after n =>
    exists lang group limit cursor, t = GetQuotes lang group limit cursor /\ filterParam lang group = Some f
      /\ cursorParam cursor = Some after /\ 0 < n <= maxLimit + 1
  | qPickRandomQuote f => exists lang group, t = GetRandom lang group /\ filterParam lang group = Some f
  | qGetQuote id => exists i, t = GetByID i /\ uuid_Parse i = Some id
  | qGetQuoteWithdrawal id =>
    exists i u, t = GetModerated i /\ uuid_Parse i = Some id /\ sessionFor r h u /\ Can u "reports:read" = true
  | qWithdrawQuote id actor reason =>
    exists i u, t = PostWithdrawal i /\ uuid_Parse i = Some id /\ moderator t r h u /\ actor = us_ID u
      /\ reason <> "" /\ Utf8.rune_count reason <= maxWithdrawalReason
  | qRestoreQuote id => exists i u, t = DeleteWithdrawal i /\ uuid_Parse i = Some id /\ moderator t r h u
  | qListWithdrawnQuoteIDs | qCountQuotes | qImport _ _ => False
  end.

Definition qground (t : qroute) (r : request) (X : Type) (e : meff X) (h : list obs) : Prop :=
  match e with
  | Auth e => qpermission t <> None /\ exists ha, ground r _ e ha
  | Corpus q => corpusGround t r q h
  | _ => False
  end.

(** Whoever lacks the permission is answered as for a route that is not there. *)
Definition qunseen (t : qroute) (r : request) (a : manswer) (h : list obs) : Prop :=
  forall p, qpermission t = Some p -> a <> MNotFound -> exists u, sessionFor r h u /\ Can u p = true.

Lemma sessionFor_cons r o h u : sessionFor r h u -> sessionFor r (o :: h) u.
Proof. apply sessionOf_mono, sub_cons. Qed.

(** One statement, and an answer that is seen by whoever may see it. *)
Lemma ask_paths t r h {A} (q : qquery A) (k : A + sqlError -> qanswer) :
  corpusGround t r q h -> (forall p, qpermission t = Some p -> exists u, sessionFor r h u /\ Can u p = true) ->
  paths (qground t r) (qunseen t r) h (fromQuote (let! x := ask q in Ret (k x))).
Proof.
  intros Hg Hu. cbn. split; [done|]. intros x p Ep _. destruct (Hu p Ep) as (u & Hs & Hc). exists u.
  split; [by apply sessionFor_cons|done].
Qed.

Lemma refuse_paths t r h a :
  (forall p, qpermission t = Some p -> exists u, sessionFor r h u /\ Can u p = true) ->
  paths (qground t r) (qunseen t r) h (fromQuote (Ret a)).
Proof. intros Hu p Ep _. by apply Hu. Qed.

Lemma admin_paths t r p next :
  qpermission t = Some p ->
  (forall u h, sessionFor r h u -> Can u p = true -> (qwrites t = true -> originAllowed (qmethod t) (rq_Origin r) = true) ->
    (forall p', qpermission t = Some p' -> exists u, sessionFor r h u /\ Can u p' = true) ->
    paths (qground t r) (qunseen t r) h (next u)) ->
  paths (qground t r) (qunseen t r) [] (adminGate (default "" (qpermission t)) (qwrites t) (qmethod t) r next).
Proof.
  intros Ep Hn. rewrite Ep. cbn [default]. apply adminGate_paths.
  - intros X e h Hg. split; [by rewrite Ep|done].
  - by intros h p' _.
  - intros u h a Hs Hc _ p' Ep' _. rewrite Ep in Ep'. injection Ep' as <-. by exists u.
  - intros u h Hs Hc Ho. apply (Hn u); [done..|]. intros p' Ep'. rewrite Ep in Ep'. injection Ep' as <-. by exists u.
Qed.

(** The public cannot touch the corpus, and moderators only put quotes off and on
    offer.  Whatever the database answers: the public routes look nobody up and perform
    one read of the corpus at most, of no more than 201 rows; only a request whose own
    live session holds reports:read sees a withdrawal record; only one whose session
    holds quotes:write, from the frontend's origin, withdraws a quote - the one named in
    its path, in its own account's name, with a reason of 1 to 500 characters - or
    restores one; everybody else is answered as for a route that is not there; and no
    route publishes, edits or deletes a quote. *)
Theorem quotes_grounded (t : qroute) (r : request) :
  paths (qground t r) (qunseen t r) [] (qserve t r).
Proof.
  destruct t as [lang group limit cursor|lang group|i|i|i|i]; cbn [qserve].
  - unfold handleList. destruct (filterParam lang group) as [f|] eqn:Ef; [|by apply refuse_paths].
    destruct (cursorParam cursor) as [after|] eqn:Ec; [|by apply refuse_paths].
    cbn. split; [|intros [rows|e]; cbn; [destruct (cut_page _ _)|]; by intros p].
    exists lang, group, limit, cursor. split_and!; [done..| |];
      pose proof (ParseLimit_bounds limit defaultLimit maxLimit ltac:(done)); lia.
  - unfold handleRandom. destruct (filterParam lang group) as [f|] eqn:Ef; [|by apply refuse_paths].
    apply ask_paths; [by exists lang, group|done].
  - unfold handleByID. destruct (uuid_Parse i) as [id|] eqn:Ei; [|by apply refuse_paths].
    apply ask_paths; [by exists i|done].
  - eapply (admin_paths (GetModerated i)); [done|]. intros u h Hs Hc _ Hp. unfold handleModerated, withQuoteID.
    destruct (uuid_Parse i) as [id|] eqn:Ei; [|by apply refuse_paths]. apply ask_paths; [by exists i, u|done].
  - eapply (admin_paths (PostWithdrawal i)); [done|]. intros u h Hs Hc Ho Hp. unfold handleWithdraw, withQuoteID.
    destruct (uuid_Parse i) as [id|] eqn:Ei; [|by apply refuse_paths].
    destruct (decodeLenient _ _) as [body|]; [|by apply refuse_paths].
    destruct (_ || _) eqn:Er; [by apply refuse_paths|]. apply orb_false_iff in Er as [Er El].
    apply ask_paths; [|done]. exists i, u. split_and!; [done|done|by split_and!; auto|done|..]; bool_to_prop; [done|lia].
  - eapply (admin_paths (DeleteWithdrawal i)); [done|]. intros u h Hs Hc Ho Hp. unfold handleRestore, withQuoteID.
    destruct (uuid_Parse i) as [id|] eqn:Ei; [|by apply refuse_paths].
    apply ask_paths; [|done]. exists i, u. split_and!; [done|done|]. by split_and!; auto.
Qed.
End authority.
