(* ===== verification/ModBans.v ===== *)
(** * Bans: what issuing and lifting one does

    The store's Ban and Unban run to the end with nobody in between, for any state of
    the ban table in which an account has at most one ban in force. *)

From Stdlib Require Import Strings.Ascii.
From S2P Require Import Prelude GoStd Effects Uuid Httpx Keyset Json AuthLimiter AuthText AuthPassword AuthStore AuthFlow AuthHandlers AuthInv AuthWorld QuoteStore QuoteProps QuoteHandlers ModStore ModHandlers ModWorld ModInv.

Open Scope Z_scope.

Section bans.
Context `{Uuid} `{PgText} `{Argon2} `{!UuidOrder} `{!Collation} `{!Draws} `{!Env} `{!ReportLimits}.

(** ** Reading the table *)

Lemma existsb_table {A} (p : A -> bool) (t : gmap UUID A) :
  existsb p (rows t) = true <-> exists k a, t !! k = Some a /\ p a = true.
Proof.
  rewrite existsb_exists. setoid_rewrite <- list_elem_of_In. setoid_rewrite table_rows. naive_solver.
Qed.

Lemma IsRestricted_spec now user db :
  ModStore.IsRestricted now user db = true <-> exists k b, md_bans db !! k = Some b /\ bannedNow now user b = true.
Proof. apply existsb_table. Qed.

Lemma ActiveBanFor_inl now user db b :
  ActiveBanFor now user db = inl b -> exists k, md_bans db !! k = Some b /\ bannedNow now user b = true.
Proof.
  unfold ActiveBanFor. destruct (order_by _ _ _) as [|b' l] eqn:E; [done|]. intros [= ->].
  assert (b ∈ b :: l) as Hb by left. rewrite <- E, order_by_perm in Hb.
  apply list_elem_of_filter in Hb as [Hb [k Hk]%table_rows]. by exists k.
Qed.

Lemma ActiveBanFor_inr now user db e :
  ActiveBanFor now user db = inr e -> e = NoRows /\ ModStore.IsRestricted now user db = false.
Proof.
  unfold ActiveBanFor. destruct (order_by _ _ _) as [|b' l] eqn:E; [|done]. intros [= <-]. split; [done|].
  apply not_true_iff_false. rewrite IsRestricted_spec. intros (k & b & Hk & Hb).
  assert (b ∈ order_by bw_IssuedAt later_first (filter (fun b => bannedNow now user b = true) (rows (md_bans db)))) as Hin.
  { rewrite order_by_perm. apply list_elem_of_filter. split; [done|]. apply table_rows. by exists k. }
  rewrite E in Hin. by apply elem_of_nil in Hin.
Qed.

(** A ban only ever ends. *)
Lemma inForce_since now t b : now <= t -> inForce t b = true -> inForce now b = true.
Proof. unfold inForce. intros Hle. repeat case_match; try done. intros E. bool_to_prop. apply Z.ltb_lt. lia. Qed.

(** At most one ban of the account is in force. *)
Definition sole (now : Z) (user : UUID) (db : modDB) : Prop :=
  forall k k' b b', md_bans db !! k = Some b -> md_bans db !! k' = Some b' ->
    bannedNow now user b = true -> bannedNow now user b' = true -> k = k'.

(** When every ban in force is the one at [k], what that row says is what holds. *)
Lemma restricted_by now user db k b t :
  md_bans db !! k = Some b -> bw_UserID b = user -> now <= t ->
  (forall k' b', k' <> k -> md_bans db !! k' = Some b' -> bannedNow now user b' = false) ->
  ModStore.IsRestricted t user db = inForce t b.
Proof.
  intros Hk Hu Ht Ho. apply eq_true_iff_eq. rewrite IsRestricted_spec. split.
  - intros (k' & b' & Hk' & Hb'). unfold bannedNow in Hb'. bool_to_prop. destruct (decide (k' = k)) as [->|Hne]; [congruence|].
    pose proof (Ho _ _ Hne Hk') as Hf. unfold bannedNow in Hf. rewrite bool_decide_eq_true_2 in Hf by done.
    by erewrite inForce_since in Hf.
  - intros Hf. exists k, b. split; [done|]. unfold bannedNow. by rewrite bool_decide_eq_true_2.
Qed.

(** The other accounts' bans are as before. *)
Definition others_kept (user : UUID) (db db' : modDB) : Prop :=
  forall t u, u <> user -> ModStore.IsRestricted t u db' = ModStore.IsRestricted t u db.

Lemma set_ban_others db k b user :
  bw_UserID b = user -> (forall b0, md_bans db !! k = Some b0 -> bw_UserID b0 = user) ->
  others_kept user db (setBans (insert k b) db).
Proof.
  intros Hb H0' t u Hne. apply eq_true_iff_eq. rewrite !IsRestricted_spec. cbn. split.
  - intros (k' & b' & [[<- <-]|[Hk Hk']]%lookup_insert_Some & Hb'); [|eauto].
    unfold bannedNow in Hb'. bool_to_prop. congruence.
  - intros (k' & b' & Hk' & Hb'). exists k', b'. split; [|done]. rewrite lookup_insert_ne; [done|].
    intros ->. unfold bannedNow in Hb'. bool_to_prop. apply H0' in Hk'. congruence.
Qed.

(** ** Ban, then unban *)

(** Ids the database has not used yet. *)
Definition fresh_bans (w : mworld) : Prop :=
  forall n, (wd_tick (mw_auth w) <= n)%nat -> md_bans (mw_db w) !! env_id n false = None.

(** The ban's own expiry, and nothing else, decides from now on. *)
Definition restricted_until (expires : option Z) (t : Z) : bool :=
  match expires with Some e => t <? e | None => true end.

Lemma refers_true L r (db : authDB) : (forall k, L k -> live db k) -> refs L r -> refers (db_users db) r = true.
Proof. unfold refers, refs. destruct r as [k|]; [|done]. intros HL Hr. by apply bool_decide_eq_true, HL, Hr. Qed.

(** Writing the row of the one ban in force. *)
Lemma set_ban_only now user db k b :
  bw_UserID b = user -> (forall b0, md_bans db !! k = Some b0 -> bw_UserID b0 = user) ->
  (forall k' b', k' <> k -> md_bans db !! k' = Some b' -> bannedNow now user b' = false) ->
  let db' := setBans (insert k b) db in
  sole now user db' /\ others_kept user db db'
  /\ forall t, now <= t -> ModStore.IsRestricted t user db' = inForce t b.
Proof.
  intros Hu H0' Ho db'. assert (forall k' b', k' <> k -> md_bans db' !! k' = Some b' -> bannedNow now user b' = false) as Ho'.
  { intros k' b' Hne. cbn. rewrite lookup_insert_ne by done. by apply Ho. }
  split_and!.
  - intros k1 k2 b1 b2 Hk1 Hk2 Hb1 Hb2. destruct (decide (k1 = k)) as [->|N1]; destruct (decide (k2 = k)) as [->|N2];
      [done|by rewrite (Ho' k2 b2) in Hb2|by rewrite (Ho' k1 b1) in Hb1..].
  - by apply set_ban_others.
  - intros t Ht. apply (restricted_by now _ _ k); [by apply lookup_insert_eq|done..].
Qed.

(** What the statements of a ban are sent. *)
Definition writable (reason : string) (by_ : Actor) : Prop := storable reason = true /\ storable (ac_Name by_) = true.

Lemma ban_run user reason by_ expires w :
  world_ok w -> live (accounts w) user -> refs (live (accounts w)) (auditID by_) -> writable reason by_ ->
  fresh_bans w -> sole (mclock w) user (mw_db w) ->
  exists r w', run (BanUser user reason by_ expires) w = (inl r, w')
    /\ br_Amended r = ModStore.IsRestricted (mclock w) user (mw_db w)
    /\ bw_Reason (br_Ban r) = reason /\ bw_UserID (br_Ban r) = user
    /\ mclock w' = mclock w /\ accounts w' = accounts w
    /\ sole (mclock w) user (mw_db w') /\ others_kept user (mw_db w) (mw_db w')
    /\ forall t, mclock w <= t -> ModStore.IsRestricted t user (mw_db w') = restricted_until expires t.
Proof.
  intros [Ha Hm] Hlive Hby [Hs1 Hs2] Hfresh Hsole.
  pose proof (refers_true _ _ (accounts w) (fun _ x => x) Hby) as Href. set (p := banParams reason by_ expires).
  unfold BanUser. rewrite run_stmt, exec_storable by done. cbn [exec_stored]. unfold lookedUp.
  destruct (ActiveBanFor (mclock w) user (mw_db w)) as [b|e] eqn:Eb.
  - destruct (ActiveBanFor_inl _ _ _ _ Eb) as (k & Hk & Hb). pose proof (mo_bans _ _ Hm _ _ Hk) as [<- _ _ _].
    assert (UpdateBan (mclock w) (bw_ID b) p (accounts w) (mw_db w)
      = inl (setBans (insert (bw_ID b) (amended (mclock w) p b)) (mw_db w), amended (mclock w) p b)) as Eu.
    { unfold UpdateBan. rewrite Hk. cbn [p bp_IssuedByUser banParams]. by rewrite Href. }
    rewrite run_stmt, exec_storable by (subst p; cbn -[storable]; by rewrite Hs1, Hs2).
    cbn [exec_stored]. change (UpdateBan _ _ _ _ _) with (UpdateBan (mclock w) (bw_ID b) p (accounts w) (mw_db w)).
    rewrite Eu. eexists _, _. split; [done|]. cbn.
    destruct (set_ban_only (mclock w) user (mw_db w) (bw_ID b) (amended (mclock w) p b)) as (Hs & Ho & Hr).
    + unfold bannedNow in Hb. by bool_to_prop.
    + intros b0 E. rewrite Hk in E. injection E as <-. unfold bannedNow in Hb. by bool_to_prop.
    + intros k' b' Hne Hk'. apply not_true_iff_false. intros Hb'. apply Hne. by eapply Hsole.
    + split_and!; try done.
      * symmetry. apply IsRestricted_spec. by exists (bw_ID b), b.
      * unfold bannedNow in Hb. by bool_to_prop.
      * intros t Ht. rewrite Hr by done. unfold inForce. cbn. unfold bannedNow, inForce in Hb.
        destruct (bw_RevokedAt b); [by rewrite andb_false_r in Hb|done].
  - destruct (ActiveBanFor_inr _ _ _ _ Eb) as [-> Hn]. set (id := env_id (S (wd_tick (mw_auth w))) false).
    assert (md_bans (mw_db w) !! id = None) as Hid by (apply Hfresh; lia).
    destruct (InsertBan id (mclock w) user p (accounts w) (mw_db w)) as [[db' b]|e] eqn:Ei.
    2: { unfold InsertBan in Ei. rewrite Hid, bool_decide_eq_false_2, (bool_decide_eq_true_2 _ Hlive) in Ei by by intros [? ?].
         cbn [p bp_IssuedByUser banParams] in Ei. by rewrite Href in Ei. }
    rewrite run_stmt, exec_storable by (subst p; cbn -[storable]; by rewrite Hs1, Hs2).
    cbn [exec_stored]. change (InsertBan _ _ _ _ _ _) with (InsertBan id (mclock w) user p (accounts w) (mw_db w)).
    rewrite Ei. apply InsertBan_inl in Ei as [-> ->]. eexists _, _. split; [done|]. cbn.
    destruct (set_ban_only (mclock w) user (mw_db w) id (issued id (mclock w) user p)) as (Hs & Ho & Hr);
      [done| | |by split_and!].
    + intros b0. by rewrite Hid.
    + intros k' b' _ Hk'. apply not_true_iff_false. intros Hb'. apply not_true_iff_false in Hn. apply Hn.
      apply IsRestricted_spec. by exists k', b'.
Qed.

Lemma unban_run user by_ w :
  world_ok w -> refs (live (accounts w)) (auditID by_) -> sole (mclock w) user (mw_db w) ->
  exists r w', run (Unban user by_) w = (r, w')
    /\ (ModStore.IsRestricted (mclock w) user (mw_db w) = false -> r = inr ErrNotBanned /\ mw_db w' = mw_db w)
    /\ (ModStore.IsRestricted (mclock w) user (mw_db w) = true -> exists b, r = inl b)
    /\ others_kept user (mw_db w) (mw_db w')
    /\ forall t, mclock w <= t -> ModStore.IsRestricted t user (mw_db w') = false.
Proof.
  intros [Ha Hm] Hby Hsole. pose proof (refers_true _ _ (accounts w) (fun _ x => x) Hby) as Href.
  unfold Unban. rewrite run_stmt, exec_storable by done. cbn [exec_stored]. unfold lookedUp.
  destruct (ActiveBanFor (mclock w) user (mw_db w)) as [b|e] eqn:Eb.
  - destruct (ActiveBanFor_inl _ _ _ _ Eb) as (k & Hk & Hb). pose proof (mo_bans _ _ Hm _ _ Hk) as [<- _ _ _].
    pose proof Hb as Hf. unfold bannedNow, inForce in Hf. destruct (bw_RevokedAt b) eqn:Er; [by rewrite andb_false_r in Hf|].
    apply andb_true_iff in Hf as [Hu _]. bool_to_prop.
    assert (RevokeBan (mclock w) (bw_ID b) (auditID by_) (accounts w) (mw_db w)
      = inl (setBans (insert (bw_ID b) (revoked (mclock w) (auditID by_) b)) (mw_db w), revoked (mclock w) (auditID by_) b)) as Eu.
    { unfold RevokeBan. by rewrite Hk, Er, Href. }
    rewrite run_stmt, exec_storable by done. cbn [exec_stored].
    change (RevokeBan _ _ _ _ _) with (RevokeBan (mclock w) (bw_ID b) (auditID by_) (accounts w) (mw_db w)).
    rewrite Eu. eexists _, _. split; [done|]. cbn.
    destruct (set_ban_only (mclock w) user (mw_db w) (bw_ID b) (revoked (mclock w) (auditID by_) b)) as (Hs & Ho & Hr);
      [done| | |].
    + intros b0 E. rewrite Hk in E. by injection E as <-.
    + intros k' b' Hne Hk'. apply not_true_iff_false. intros Hb'. apply Hne. by eapply Hsole.
    + split_and!; try done; [|by eexists]. intros E. apply not_true_iff_false in E. exfalso.
      apply E, IsRestricted_spec. by exists (bw_ID b), b.
  - destruct (ActiveBanFor_inr _ _ _ _ Eb) as [-> Hn].
    eexists _, _. split; [done|]. split_and!; try done.
    + by rewrite Hn.
    + intros t Ht. apply not_true_iff_false. intros Hr. apply not_true_iff_false in Hn. apply Hn.
      apply IsRestricted_spec in Hr as (k & b & Hk & Hb). apply IsRestricted_spec. exists k, b. split; [done|].
      unfold bannedNow in *. apply andb_true_iff in Hb as [-> Hb]. by erewrite inForce_since.
Qed.

(** C18: a ban restricts exactly until it expires, and an unban lifts it.  For an account
    with at most one ban in force, and nobody in between: after Ban the account is
    restricted at an instant exactly when the new expiry has not come (the earlier
    expiry and reason are replaced, and the answer says so exactly when there was a ban
    to amend); there is still at most one ban in force, so Unban, at any later instant,
    lifts the restriction for good, and answers that nobody was banned exactly when the
    ban had expired.  Nobody else's bans are touched. *)
Theorem ban_then_unban user reason by_ expires unbanner d w :
  world_ok w -> live (accounts w) user ->
  refs (live (accounts w)) (auditID by_) -> refs (live (accounts w)) (auditID unbanner) ->
  writable reason by_ -> fresh_bans w -> sole (mclock w) user (mw_db w) -> 0 <= d ->
  exists r w1 r' w2,
    run (BanUser user reason by_ expires) w = (inl r, w1)
    /\ br_Amended r = ModStore.IsRestricted (mclock w) user (mw_db w)
    /\ bw_Reason (br_Ban r) = reason
    /\ (forall t, mclock w <= t -> ModStore.IsRestricted t user (mw_db w1) = restricted_until expires t)
    /\ run (Unban user unbanner) (withAuth (later d (mw_auth w1)) w1) = (r', w2)
    /\ (r' = inr ErrNotBanned <-> restricted_until expires (mclock w + d) = false)
    /\ (forall t, mclock w + d <= t -> ModStore.IsRestricted t user (mw_db w2) = false)
    /\ others_kept user (mw_db w) (mw_db w2).
Proof.
  intros Hw Hlive Hby Hun Hwr Hfresh Hsole Hd.
  destruct (ban_run user reason by_ expires w Hw Hlive Hby Hwr Hfresh Hsole)
    as (r & w1 & Er & Ham & Hre & Hu & Hc & Hacc & Hsole1 & Hk1 & Hr1).
  assert (world_ok w1) as Hw1 by by (pose proof (run_ok (BanUser user reason by_ expires) w Hw) as Hw1; rewrite Er in Hw1).
  set (w1' := withAuth (later d (mw_auth w1)) w1).
  assert (mclock w1' = mclock w + d) as Hc' by by rewrite <- Hc.
  assert (sole (mclock w1') user (mw_db w1')) as Hsole1'.
  { intros k k' b b' Hk Hk' Hb Hb'. eapply Hsole1; [done..| |]; unfold bannedNow in *; bool_to_prop;
      rewrite bool_decide_eq_true_2 by done; (eapply inForce_since; [|done]); lia. }
  destruct (unban_run user unbanner w1') as (r' & w2 & Er' & Hf & Ht & Hk2 & Hr2); [by eapply mchanges_ok, Hw1; apply change_time|by change (accounts w1') with (accounts w1); rewrite Hacc|done|].
  exists r, w1, r', w2. rewrite Hc' in *. pose proof (Hr1 (mclock w + d) ltac:(lia)) as Hat.
  change (mw_db w1') with (mw_db w1) in *. split_and!; try done.
  - rewrite Hat in Hf, Ht. destruct (restricted_until expires (mclock w + d)); [|naive_solver].
    destruct Ht as [b ->]; [done|]. done.
  - intros t u Hne. by rewrite Hk2, Hk1.
Qed.
End bans.
