(* ===== verification/ModReports.v ===== *)
(** * Reports: filing one, and the queue

    What filing answers in every case, run with nobody in between; that the queue is the
    open reports, grouped. *)

From Stdlib Require Import Strings.Ascii Sorting.Sorted.
From stdpp Require Import sorting.
From S2P Require Import Prelude GoStd Effects Uuid Httpx Keyset Json AuthLimiter AuthText AuthPassword AuthStore AuthFlow AuthHandlers AuthInv AuthWorld QuoteStore QuoteProps QuoteHandlers ModStore ModHandlers ModWorld ModInv ModBans.

Open Scope Z_scope.

Section reports.
Context `{Uuid} `{PgText} `{Argon2} `{!UuidOrder} `{!Collation} `{!Draws} `{!Env} `{!ReportLimits}.

(** ** Subjects and their columns *)

Lemma known_type_cases ty : known_type ty = true <-> ty = SubjectUser \/ ty = SubjectQuote \/ ty = SubjectRun.
Proof. unfold known_type. rewrite oneOf_elem. set_solver. Qed.

Lemma exactlyOne_Columns s : known_type (sj_Type s) = true -> exactlyOne (Columns s) = true.
Proof. intros [E|[E|E]]%known_type_cases; unfold exactlyOne, Columns; rewrite E; reflexivity. Qed.

Lemma subjectOf_Columns s : known_type (sj_Type s) = true -> subjectOf (Columns s) = Some s.
Proof. destruct s as [ty i]. intros [E|[E|E]]%known_type_cases; cbn in E; subst ty; reflexivity. Qed.

Lemma subjectOf_known c s : subjectOf c = Some s -> known_type (sc_Type c) = true.
Proof.
  unfold subjectOf, known_type, oneOf. cbn. destruct (sc_Type c =s? SubjectUser), (sc_Type c =s? SubjectQuote),
    (sc_Type c =s? SubjectRun); done.
Qed.

Lemma Columns_subjectOf c :
  known_type (sc_Type c) = true -> exactlyOne c = true -> exists s, subjectOf c = Some s /\ Columns s = c.
Proof.
  destruct c as [ty u q r]. cbn. unfold exactlyOne. cbn.
  intros [E|[E|E]]%known_type_cases; subst ty; destruct u, q, r; try done; intros _; by eexists.
Qed.

(** Two subjects with a column in common are the same. *)
Lemma Columns_meet s s' :
  known_type (sj_Type s) = true -> known_type (sj_Type s') = true ->
  sameRef (sc_User (Columns s)) (sc_User (Columns s')) || sameRef (sc_Quote (Columns s)) (sc_Quote (Columns s'))
    || sameRef (sc_Run (Columns s)) (sc_Run (Columns s')) = bool_decide (Columns s = Columns s').
Proof.
  destruct s as [ty i], s' as [ty' i']. cbn. unfold Columns, sameRef. cbn.
  intros [E|[E|E]]%known_type_cases [E'|[E'|E']]%known_type_cases; subst ty ty'; cbn;
    repeat case_bool_decide; try done; exfalso; naive_solver.
Qed.

(** ** Filing *)

(** A report as it should be, from the body of a request: nothing else is looked at. *)
Definition wellFormed (r : request) : option (Subject * string * string) :=
  body ← decodeFile r;
  s ← parseSubject (fr_Type body) (fr_ID body);
  let comment := Strs.TrimSpace (fr_Comment body) in
  if ReasonValid s (fr_Reason body) && (Utf8.rune_count comment <=? maxComment)
  then Some (s, fr_Reason body, comment) else None.

Definition subjectThere (s : Subject) (auth : authDB) (db : modDB) : bool :=
  if sj_Type s =s? SubjectUser then bool_decide (is_Some (db_users auth !! sj_ID s))
  else if sj_Type s =s? SubjectQuote then bool_decide (is_Some (md_quotes db !! sj_ID s))
  else bool_decide (is_Some (md_runs db !! sj_ID s)).

Definition newReport (id : UUID) (now : Z) (s : Subject) (reporter : UUID) (reason comment : string) : Report :=
  {| rp_ID := id; rp_SubjectType := sj_Type s; rp_SubjectUser := sc_User (Columns s);
     rp_SubjectQuote := sc_Quote (Columns s); rp_SubjectRun := sc_Run (Columns s); rp_Reporter := reporter;
     rp_Reason := reason; rp_Comment := nullableText comment; rp_Status := StatusOpen; rp_CreatedAt := now;
     rp_ResolvedAt := None; rp_ResolvedBy := None; rp_Note := None |}.

(** The player's own open reports. *)
Definition openBy (reporter : UUID) (db : modDB) : list Report :=
  filter (fun r => bool_decide (rp_Reporter r = reporter) && isOpen r = true) (rows (md_reports db)).

(** The player's open report of this subject. *)
Definition already (reporter : UUID) (s : Subject) (db : modDB) : option Report :=
  find_first (fun r => bool_decide (subjectOfRow r = Columns s)) (openBy reporter db).

(** What filing answers and the report it adds, when the limiter let the request pass.
    A second report of the same row is answered with the first. *)
Definition filing (reporter id : UUID) (now : Z) (auth : authDB) (db : modDB) (r : request) : manswer * option Report :=
  match wellFormed r with
  | None => (writeErr 400 "bad_request" "", None)
  | Some (s, reason, comment) =>
    if ModStore.IsRestricted now reporter db then (writeErr 403 "restricted" "", None)
    else if maxOpenReportsPerUser <=? Z.of_nat (length (openBy reporter db)) then (writeErr 429 "too_many_open_reports" "", None)
    else if negb (storable comment) || bool_decide (sc_User (Columns s) = Some reporter)
    then (writeErr 500 "internal" "", None)
    else
      match already reporter s db with
      | Some r0 => (MReply 200 (ReportBody s r0), None)
      | None =>
        if subjectThere s auth db
        then let n := newReport id now s reporter reason comment in (MReply 201 (ReportBody s n), Some n)
        else (writeErr 404 "not_found" "", None)
      end
  end.

(** Answers up to the wording of an error. *)
Definition unworded (a : manswer) : manswer :=
  match a with MReply st (ErrorBody code _) => MReply st (ErrorBody code "") | a => a end.

(** *** The insert, case by case *)

Lemma fitting_comment comment :
  Utf8.rune_count comment <= maxComment ->
  match nullableText comment with
  | Some s => negb ((1 <=? Utf8.rune_count s) && (Utf8.rune_count s <=? 1000))
  | None => false
  end = false.
Proof.
  unfold nullableText. destruct (comment =s? "") eqn:E; [done|]. bool_to_prop. intros Hle. apply negb_false_iff.
  assert (Utf8.rune_count comment <> 0) by by intros ?%Utf8.rune_count_empty.
  assert (0 <= Utf8.rune_count comment) by (unfold Utf8.rune_count; lia).
  unfold maxComment in Hle. rewrite andb_true_iff, !Z.leb_le. lia.
Qed.

Lemma find_first_filter {A} (p q : A -> bool) (l : list A) :
  find_first p (filter (fun a => q a = true) l) = find_first (fun a => q a && p a) l.
Proof.
  induction l as [|a l IH]; [done|]. rewrite filter_cons. cbn. destruct (q a) eqn:E.
  - rewrite decide_True by done. cbn. by rewrite IH.
  - by rewrite decide_False by congruence.
Qed.

Lemma find_first_ext {A} (p q : A -> bool) l : (forall a, p a = q a) -> find_first p l = find_first q l.
Proof. intros E. induction l as [|a l IH]; [done|]. cbn. by rewrite E, IH. Qed.

Lemma find_first_existsb {A} (p : A -> bool) l : existsb p l = bool_decide (is_Some (find_first p l)).
Proof. induction l as [|a l IH]; [done|]. cbn. by destruct (p a). Qed.

Lemma existsb_ext_in {A} (p q : A -> bool) (l : list A) : (forall a, a ∈ l -> p a = q a) -> existsb p l = existsb q l.
Proof.
  induction l as [|a l IH]; [done|]. intros Hpq. cbn. rewrite Hpq by left. f_equal. apply IH. intros b Hb.
  apply Hpq. by right.
Qed.

(** As the statements look for it. *)
Lemma already_spec reporter s db :
  already reporter s db = find_first (fun r => bool_decide (rp_Reporter r = reporter) && openOn (Columns s) r) (rows (md_reports db)).
Proof.
  unfold already, openBy. rewrite find_first_filter. apply find_first_ext. intros r. unfold openOn. by rewrite andb_assoc.
Qed.

Lemma openTwice_already L runs quotes reporter s db :
  map_Forall (report_ok L runs quotes) (md_reports db) -> known_type (sj_Type s) = true ->
  existsb (openTwice reporter (Columns s)) (rows (md_reports db)) = bool_decide (is_Some (already reporter s db)).
Proof.
  intros Hdb Hs. rewrite already_spec, <- find_first_existsb. apply existsb_ext_in. intros r [k Hk]%table_rows.
  destruct (Hdb _ _ Hk). destruct (Columns_subjectOf (subjectOfRow r)) as (s0 & Hs0 & E); [done..|].
  assert (known_type (sj_Type s0) = true) as Hk0.
  { change (known_type (sc_Type (Columns s0)) = true). by rewrite E. }
  unfold openTwice, openOn. change (rp_SubjectUser r) with (sc_User (subjectOfRow r)).
  change (rp_SubjectQuote r) with (sc_Quote (subjectOfRow r)). change (rp_SubjectRun r) with (sc_Run (subjectOfRow r)).
  rewrite <- E, Columns_meet by done. by destruct (isOpen r), (bool_decide (rp_Reporter r = reporter)).
Qed.

(** A constraint that names a row that is not there. *)
Definition missing (e : pgError) : Prop := isForeignKeyViolation (Pg e) = true.

Lemma CreateReport_cases L id now s reporter reason comment auth db :
  map_Forall (report_ok L (md_runs db) (md_quotes db)) (md_reports db) -> live auth reporter -> md_reports db !! id = None ->
  known_type (sj_Type s) = true -> ReasonValid s reason = true -> Utf8.rune_count comment <= maxComment ->
  let result := CreateReport id now (Columns s) reporter reason (nullableText comment) auth db in
  let new := newReport id now s reporter reason comment in
  if bool_decide (sc_User (Columns s) = Some reporter) then result = inr (Violates "reports_no_self_report")
  else match already reporter s db with
       | Some _ => result = inr NoRows
       | None => if subjectThere s auth db then result = inl (setReports (insert id new) db, new)
                 else exists e, result = inr e /\ missing e
       end.
Proof.
  intros Hdb Hrep Hid Hs Hr Hc. cbv zeta. unfold CreateReport. cbv zeta.
  change (oneOf (sc_Type (Columns s)) ["user"; "quote"; "run"]) with (known_type (sj_Type s)).
  rewrite Hs, exactlyOne_Columns by done. change (oneOf reason _) with (ReasonValid s reason).
  rewrite Hr, fitting_comment by done. cbn [negb]. case_bool_decide as Hself; [done|].
  rewrite (bool_decide_eq_false_2 (is_Some _)) by (rewrite Hid; by intros [? ?]). rewrite orb_false_l.
  erewrite openTwice_already by done. destruct (already reporter s db) as [r0|]; [done|].
  rewrite (bool_decide_eq_false_2 (is_Some None)) by by intros [? ?].
  rewrite (bool_decide_eq_true_2 _ Hrep). unfold subjectThere, missing.
  apply known_type_cases in Hs as [E|[E|E]]; unfold Columns; rewrite E; cbn [String.eqb Ascii.eqb eqb SubjectUser SubjectQuote SubjectRun refers sc_User sc_Quote sc_Run];
    case_bool_decide; cbn [negb]; first [by (unfold newReport, Columns; rewrite E)|by eauto].
Qed.

(** ** What filing answers *)

Definition fresh_reports (w : mworld) : Prop :=
  forall n, (wd_tick (mw_auth w) <= n)%nat -> md_reports (mw_db w) !! env_id n false = None.

Lemma wellFormed_spec r s reason comment :
  wellFormed r = Some (s, reason, comment) ->
  known_type (sj_Type s) = true /\ ReasonValid s reason = true /\ Utf8.rune_count comment <= maxComment.
Proof.
  unfold wellFormed. destruct (decodeFile r) as [body|]; cbn; [|done]. unfold parseSubject.
  destruct (uuid_Parse _) as [i|]; cbn; [|done]. destruct (Validate _) eqn:Ev; cbn; [|done].
  case_match; [|done]. intros [= <- <- <-]. bool_to_prop. unfold Validate in Ev. by bool_to_prop.
Qed.

(** The reasons and types a statement is sent are words. *)
Lemma words_storable s reason :
  known_type (sj_Type s) = true -> ReasonValid s reason = true -> storable (sj_Type s) = true /\ storable reason = true.
Proof.
  unfold ReasonValid. intros [E|[E|E]]%known_type_cases; rewrite E; intros Hr%oneOf_elem; (split; [done|]);
    cbn in Hr; repeat (apply elem_of_cons in Hr as [->|Hr]; [done|]); by apply elem_of_nil in Hr.
Qed.

(** The part of filing that looks at the body, before the database. *)
Lemma handleFile_malformed reporter r w :
  wellFormed r = None -> fst (AuthLimiter.Allow report_limits (uuid_String reporter) (1000 * mclock w) (mw_limiter w)) = true ->
  exists m w', run (handleFile reporter r) w = (writeErr 400 "bad_request" m, w')
    /\ accounts w' = accounts w /\ mw_db w' = mw_db w.
Proof.
  intros Hf Ha. unfold handleFile. cbn -[AuthLimiter.Allow]. destruct (AuthLimiter.Allow _ _ _ _) as [ok l]. cbn in Ha. subst ok. cbn.
  unfold wellFormed in Hf. destruct (decodeFile r) as [body|]; [|by eexists _, _]. cbn in Hf.
  destruct (parseSubject _ _) as [s|]; [|by eexists _, _]. cbn in Hf.
  destruct (ReasonValid s (fr_Reason body)) eqn:Er; [|by eexists _, _].
  destruct (_ <? _) eqn:Ec; [by eexists _, _|]. bool_to_prop. cbn in Hf.
  rewrite (proj2 (Z.leb_le _ _)) in Hf by done. done.
Qed.

(** The database with the report added, if one was. *)
Definition added (n : option Report) (db : modDB) : modDB :=
  match n with Some n => setReports (insert (rp_ID n) n) db | None => db end.

Lemma File_run s reporter reason comment w :
  world_ok w -> live (accounts w) reporter -> fresh_reports w ->
  known_type (sj_Type s) = true -> ReasonValid s reason = true -> Utf8.rune_count comment <= maxComment ->
  let new := newReport (env_id (wd_tick (mw_auth w)) false) (mclock w) s reporter reason comment in
  exists res w', run (File s reporter reason comment) w = (res, w') /\ accounts w' = accounts w
    /\ (res, mw_db w') =
       (if negb (storable comment) || bool_decide (sc_User (Columns s) = Some reporter)
       then (inr ErrInternal, mw_db w)
       else match already reporter s (mw_db w) with
            | Some r0 => (inl (r0, false), mw_db w)
            | None => if subjectThere s (accounts w) (mw_db w) then (inl (new, true), added (Some new) (mw_db w))
                      else (inr ErrSubjectMissing, mw_db w)
            end).
Proof.
  intros [Ha Hm] Hrep Hfresh Hs Hr Hc new. destruct (words_storable s reason Hs Hr) as [Hw1 Hw2].
  unfold File. rewrite run_stmt. set (id := env_id _ _). set (q := qCreateReport _ _ _ _).
  assert (forallb storable (texts q) = storable comment) as Hq.
  { subst q. cbn -[storable]. change (sc_Type (Columns s)) with (sj_Type s). rewrite Hw1, Hw2. unfold nullableText.
    destruct (comment =s? "") eqn:E; bool_to_prop; [by subst comment|]. cbn -[storable]. by rewrite andb_true_r. }
  unfold exec_mquery. rewrite Hq. destruct (storable comment); [|by eexists _, _]. cbn [exec_stored q]. cbn [negb orb].
  pose proof (CreateReport_cases _ id (mclock w) s reporter reason comment (accounts w) (mw_db w) (mo_reports _ _ Hm)
    Hrep (Hfresh (wd_tick (mw_auth w)) ltac:(lia)) Hs Hr Hc) as Hcase. cbv zeta in Hcase. case_bool_decide as Hself.
  { rewrite Hcase. by eexists _, _. }
  destruct (already reporter s (mw_db w)) as [r0|] eqn:Ea.
  - rewrite Hcase. cbn [changed isForeignKeyViolation]. rewrite run_stmt, exec_storable; cbn -[storable].
    2: { change (sc_Type (Columns s)) with (sj_Type s). by rewrite Hw1. }
    unfold FindOpenReport, one. rewrite already_spec in Ea. rewrite Ea. by eexists _, _.
  - destruct (subjectThere s (accounts w) (mw_db w)).
    + rewrite Hcase. by eexists _, _.
    + destruct Hcase as (e & -> & He). unfold missing in He. cbn [changed]. rewrite He. by eexists _, _.
Qed.

Lemma handleFile_wellFormed reporter r w s reason comment :
  wellFormed r = Some (s, reason, comment) ->
  fst (AuthLimiter.Allow report_limits (uuid_String reporter) (1000 * mclock w) (mw_limiter w)) = true ->
  exists w1, accounts w1 = accounts w /\ mw_db w1 = mw_db w /\ mclock w1 = mclock w
    /\ wd_tick (mw_auth w1) = (3 + wd_tick (mw_auth w))%nat
    /\ exists m1 m2 w2, run (handleFile reporter r) w =
       (if ModStore.IsRestricted (mclock w) reporter (mw_db w) then (writeErr 403 "restricted" m1, w2)
       else if maxOpenReportsPerUser <=? CountOpenReportsBy reporter (mw_db w)
       then (writeErr 429 "too_many_open_reports" m2, w1)
       else run (let! res := File s reporter reason comment in
                 match res with
                 | inr ErrSubjectMissing => Ret (writeErr 404 "not_found" "no such subject")
                 | inr _ => Ret internalError
                 | inl (rep, created) => Ret (MReply (if created : bool then 201 else 200) (ReportBody s rep))
                 end) w1)
    /\ accounts w2 = accounts w /\ mw_db w2 = mw_db w.
Proof.
  intros Hf Ha. set (ok_l := AuthLimiter.Allow report_limits (uuid_String reporter) (1000 * mclock w) (mw_limiter w)) in *.
  set (w0 := {| mw_auth := tick (mw_auth w); mw_db := mw_db w; mw_limiter := ok_l.2 |}).
  set (w0' := mtick (withMod (mw_db w) w0)). exists (mtick (withMod (mw_db w) w0')). do 4 (split; [done|]).
  eexists _, _, w0'. split; [|done]. unfold handleFile. cbn [bind meff_ run exec mod_interp mod_exec].
  change (AuthLimiter.Allow _ _ _ _) with ok_l. destruct ok_l as [ok l]. cbn in Ha. subst ok. cbn [negb].
  unfold wellFormed in Hf. destruct (decodeFile r) as [body|]; cbn in Hf; [|done].
  destruct (parseSubject _ _) as [s0|]; cbn in Hf; [|done]. destruct (ReasonValid s0 _) eqn:Er; cbn in Hf; [|done].
  destruct (_ <=? maxComment) eqn:Ec; [|done]. injection Hf as -> <- <-. cbn [negb]. bool_to_prop.
  rewrite (proj2 (Z.ltb_ge _ _)) by done. unfold restriction, OpenBy. rewrite run_stmt, exec_storable by done. cbn [exec_stored reads].
  change (ModStore.IsRestricted (mclock _) reporter (mw_db _)) with (ModStore.IsRestricted (mclock w) reporter (mw_db w)).
  destruct (ModStore.IsRestricted (mclock w) reporter (mw_db w)); [done|].
  rewrite run_stmt, exec_storable by done. cbn [exec_stored reads].
  change (CountOpenReportsBy reporter (mw_db _)) with (CountOpenReportsBy reporter (mw_db w)).
  by destruct (_ <=? CountOpenReportsBy reporter (mw_db w)).
Qed.

(** C21: what filing a report answers and changes, in every case.  With nobody in between:
    a player over the rate, a malformed body, a subject or reason that does not fit, a
    restricted player and one with twenty open reports are refused; a report of oneself,
    which nothing above the database checks, is an internal error; a second report of a
    row answers the one still open; a report of a row that does not exist is not found;
    and anything else adds exactly one open report in the player's name.  The twenty are
    counted before a repetition is recognised. *)
Theorem report_answers reporter r w :
  world_ok w -> live (accounts w) reporter -> fresh_reports w ->
  let '(passed, _) := AuthLimiter.Allow report_limits (uuid_String reporter) (1000 * mclock w) (mw_limiter w) in
  let '(a, new) := if passed
                   then filing reporter (env_id (3 + wd_tick (mw_auth w)) false) (mclock w) (accounts w) (mw_db w) r
                   else (writeErr 429 "rate_limited" "", None) in
  exists a' w', run (handleFile reporter r) w = (a', w') /\ unworded a' = a
    /\ accounts w' = accounts w /\ mw_db w' = added new (mw_db w).
Proof.
  intros Hw Hrep Hfresh. destruct (AuthLimiter.Allow _ _ _ _) as [passed l] eqn:El. destruct passed.
  2: { unfold handleFile. cbn -[AuthLimiter.Allow]. rewrite El. by eexists _, _. }
  assert (fst (AuthLimiter.Allow report_limits (uuid_String reporter) (1000 * mclock w) (mw_limiter w)) = true) as Ha
    by by rewrite El.
  unfold filing. destruct (wellFormed r) as [[[s reason] comment]|] eqn:Ef.
  2: { destruct (handleFile_malformed reporter r w Ef Ha) as (m & w' & -> & ? & ?). by eexists _, _. }
  destruct (wellFormed_spec _ _ _ _ Ef) as (Hs & Hr & Hc).
  destruct (handleFile_wellFormed reporter r w s reason comment Ef Ha) as (w1 & Eacc & Edb & Ecl & Et & m1 & m2 & w2 & -> & E2 & E2').
  destruct (ModStore.IsRestricted _ _ _); [by eexists _, _|].
  change (CountOpenReportsBy reporter (mw_db w)) with (Z.of_nat (length (openBy reporter (mw_db w)))).
  destruct (maxOpenReportsPerUser <=? _); [by eexists _, _|].
  destruct (File_run s reporter reason comment w1) as (res & w' & Erun & Eacc' & Eres); try done.
  { unfold world_ok. by rewrite Eacc, Edb. }
  { by rewrite Eacc. }
  { intros n Hn. rewrite Edb. apply Hfresh. lia. }
  rewrite run_bind, Erun. rewrite Eacc, Edb, Ecl, Et in *. revert Eres.
  destruct (negb _ || _); [intros [= -> ?]; by eexists _, _|].
  destruct (already reporter s (mw_db w)) as [r0|]; [intros [= -> ?]; by eexists _, _|].
  destruct (subjectThere _ _ _); intros [= -> ?]; by eexists _, _.
Qed.

(** ** The queue *)

#[export] Instance pressing_total : StrictTotal pressing.
Proof.
  unfold pressing. constructor.
  - intros p. lia.
  - intros p q r. lia.
  - intros [a b] [a' b'] Hne. cbn. destruct (decide (a = a')) as [->|]; [|lia]. assert (b <> b') by congruence. lia.
Qed.

(** How pressing a subject is. *)
Definition urgency (q : queueRow) : Z * Z := (qr_Open q, qr_First q).

(** The open reports on a subject. *)
Definition reportsOn (c : subjectCols) (db : modDB) : list Report := filter (fun r => openOn c r = true) (rows (md_reports db)).

Lemma group_kind auth db kind c :
  match kind with Some t => sc_Type c = t | None => True end ->
  group auth db (openReports kind db) c = group auth db (reportsOn c db) c.
Proof.
  intros Hk. unfold group. assert (filter (fun r => subjectOfRow r = c) (openReports kind db)
    = filter (fun r => subjectOfRow r = c) (reportsOn c db)) as E; [|by rewrite E].
  unfold openReports, reportsOn. rewrite !list_filter_filter. apply list_filter_iff. intros r. unfold openOn.
  rewrite !andb_true_iff, bool_decide_eq_true. destruct kind as [t|]; [|naive_solver].
  split; [naive_solver|]. intros (E & ? & _). split_and!; try done. apply String.eqb_eq. by rewrite <- Hk, <- E.
Qed.

Lemma omap_annotated {A B} (f : A -> option B) (g : B -> A) (l : list A) :
  (forall a, a ∈ l -> exists b, f a = Some b /\ g b = a) -> g <$> omap f l = l.
Proof.
  induction l as [|a l IH]; [done|]. intros Hl. cbn. destruct (Hl a) as (b & -> & E); [left|]. cbn. rewrite E. f_equal.
  apply IH. intros a' Ha'. apply Hl. by right.
Qed.

Lemma openReports_elem kind db r :
  r ∈ openReports kind db <->
  (exists k, md_reports db !! k = Some r) /\ isOpen r = true
  /\ match kind with Some t => rp_SubjectType r = t | None => True end.
Proof.
  unfold openReports. rewrite list_elem_of_filter, table_rows, andb_true_iff. destruct kind as [t|]; [|naive_solver].
  rewrite String.eqb_eq. naive_solver.
Qed.

Section queue.
Context (kind : option string) (L : UUID -> Prop) (auth : authDB) (db : modDB).
Hypothesis Hdb : map_Forall (report_ok L (md_runs db) (md_quotes db)) (md_reports db).

Definition subjects : list subjectCols := remove_dups (subjectOfRow <$> openReports kind db).
Definition entries : list queueRow := order_by urgency pressing (group auth db (openReports kind db) <$> subjects).

Definition of_kind (c : subjectCols) : Prop := match kind with Some t => sc_Type c = t | None => True end.

Lemma subjects_elem c : c ∈ subjects <-> reportsOn c db <> [] /\ of_kind c.
Proof.
  unfold subjects, of_kind. rewrite elem_of_remove_dups, list_elem_of_fmap. split.
  - intros (r & -> & ((k & Hk) & Ho & Ht)%openReports_elem). split; [|by destruct kind]. intros E.
    assert (r ∈ reportsOn (subjectOfRow r) db) as Hin; [|rewrite E in Hin; by apply elem_of_nil in Hin].
    apply list_elem_of_filter. split; [|apply table_rows; by exists k]. unfold openOn. by rewrite Ho, bool_decide_eq_true_2.
  - intros [Hne Ht]. destruct (reportsOn c db) as [|r l] eqn:E; [done|]. assert (r ∈ reportsOn c db) as Hin by (rewrite E; left).
    apply list_elem_of_filter in Hin as [Ho Hr%table_rows]. unfold openOn in Ho. bool_to_prop. exists r. split; [done|].
    apply openReports_elem. split_and!; try done. destruct kind as [t|]; [|done]. by subst c.
Qed.

(** A subject of the queue reads back, and counts its open reports. *)
Lemma subjects_read c : c ∈ subjects ->
  (exists s, subjectOf c = Some s /\ Columns s = c)
  /\ group auth db (openReports kind db) c = group auth db (reportsOn c db) c
  /\ 0 < qr_Open (group auth db (reportsOn c db) c).
Proof.
  intros Hc. pose proof Hc as [Hne Ht]%subjects_elem. split_and!.
  - apply elem_of_remove_dups, list_elem_of_fmap in Hc as (r & -> & ((k & Hk) & _)%openReports_elem).
    destruct (Hdb _ _ Hk). by apply Columns_subjectOf.
  - by apply group_kind.
  - unfold group. cbn. assert (filter (fun r => subjectOfRow r = c) (reportsOn c db) = reportsOn c db) as ->.
    { apply filter_all. intros r [Ho _]%list_elem_of_filter. unfold openOn in Ho. by bool_to_prop. }
    destruct (reportsOn c db); [done|]. cbn. lia.
Qed.

Lemma entries_elem q : q ∈ entries <-> exists c, c ∈ subjects /\ q = group auth db (openReports kind db) c.
Proof. unfold entries. rewrite order_by_perm, list_elem_of_fmap. naive_solver. Qed.

Lemma page_elem n q : q ∈ take n entries -> exists c, c ∈ subjects /\ q = group auth db (openReports kind db) c.
Proof. intros Hq. apply entries_elem. by eapply elem_of_sublist, sublist_take. Qed.

Lemma entries_subjects : qr_Subject <$> entries ≡ₚ subjects.
Proof.
  unfold entries. rewrite order_by_perm, <- list_fmap_compose.
  rewrite (list_fmap_ext _ id); [by rewrite list_fmap_id|by intros].
Qed.

Lemma entries_NoDup n : NoDup (qr_Subject <$> take n entries).
Proof.
  rewrite fmap_take. eapply sublist_NoDup; [|apply sublist_take]. rewrite entries_subjects. apply NoDup_remove_dups.
Qed.

Lemma entries_sorted : StronglySorted (fun a b => pressing (urgency b) (urgency a) = false) entries.
Proof. apply (order_by_weak urgency pressing). Qed.

(** Past the page, nothing is more pressing. *)
Lemma entries_cut n q :
  q ∈ entries -> q ∈ take n entries
  \/ length (take n entries) = n /\ forall a, a ∈ take n entries -> pressing (urgency q) (urgency a) = false.
Proof.
  intros Hq. rewrite <- (take_drop n entries) in Hq. apply elem_of_app in Hq as [Hq|Hq]; [by left|right]. split.
  - apply length_take_le. destruct (drop n entries) eqn:E; [by apply elem_of_nil in Hq|].
    apply (f_equal length) in E. rewrite length_drop in E. cbn in E. lia.
  - intros a Ha. pose proof entries_sorted as Hs. rewrite <- (take_drop n entries) in Hs.
    by apply (StronglySorted_app_1_elem_of _ _ _ a q) in Hs.
Qed.
End queue.

Lemma sorted_along {A B} (f : A -> B) (R : B -> B -> Prop) (l : list A) :
  StronglySorted R (f <$> l) -> StronglySorted (fun a b => R (f a) (f b)) l.
Proof.
  induction l as [|a l IH]; cbn; [constructor|]. intros [Ha Hl]%StronglySorted_cons.
  constructor; [by apply IH|]. exact (proj1 (Forall_fmap _ _ _) Ha).
Qed.

Lemma sorted_taken {A} (R : A -> A -> Prop) n (l : list A) : StronglySorted R l -> StronglySorted R (take n l).
Proof. intros Hs. rewrite <- (take_drop n l) in Hs. by apply StronglySorted_app_1_l in Hs. Qed.

(** The queue is the open reports, by subject, most pressing first.  A moderator's
    page holds one entry per subject, each with the true number of open reports on it,
    when the first and the last were filed and why; entries come in the order of how
    many reports they have and how long they waited; and a subject with an open report
    is missing only from a page that is full, of entries none of which is less
    pressing.  Nothing is changed by looking. *)
Theorem queue_is_open_reports kind limit w :
  world_ok w -> kind = "" \/ known_type kind = true ->
  exists l w', run (handleQueue kind limit) w = (mok (QueueBody l), w') /\ mw_db w' = mw_db w
    /\ (forall s q, (s, q) ∈ l ->
          qr_Subject q = Columns s /\ q = group (accounts w) (mw_db w) (reportsOn (Columns s) (mw_db w)) (Columns s)
          /\ 0 < qr_Open q /\ (kind = "" \/ sj_Type s = kind))
    /\ NoDup l.*1
    /\ StronglySorted (fun a b => pressing (urgency b.2) (urgency a.2) = false) l
    /\ forall s, reportsOn (Columns s) (mw_db w) <> [] -> kind = "" \/ sj_Type s = kind ->
          s ∈ l.*1
          \/ Z.of_nat (length l) = ParseLimit limit queueDefaultLimit queueMaxLimit
             /\ forall a, a ∈ l -> pressing (urgency (group (accounts w) (mw_db w) (reportsOn (Columns s) (mw_db w)) (Columns s)))
                                        (urgency a.2) = false.
Proof.
  intros [Ha Hm] Hkind. set (k := nullableText kind). set (n := ParseLimit limit queueDefaultLimit queueMaxLimit).
  set (auth := accounts w). set (db := mw_db w). pose proof (mo_reports _ _ Hm) as Hdb.
  assert (forall s, of_kind k (Columns s) <-> kind = "" \/ sj_Type s = kind) as Hof.
  { intros s. unfold of_kind, k, nullableText. destruct (kind =s? "") eqn:E; bool_to_prop; cbn; naive_solver. }
  set (read := fun q : queueRow => s ← subjectOf (qr_Subject q); Some (s, q)).
  set (page := take (Z.to_nat n) (entries k auth db)). set (l := omap read page).
  assert (forall q, q ∈ page -> exists c s, q = group auth db (openReports k db) c /\ c ∈ subjects k db
            /\ read q = Some (s, q) /\ Columns s = c) as Hpage.
  { intros q [c [Hc ->]]%(page_elem k auth db).
    destruct (subjects_read k _ auth db Hdb c Hc) as ((s & Es & Ec) & _). exists c, s. split_and!; try done.
    unfold read. cbn. by rewrite Es. }
  assert (l.*2 = page) as Esnd.
  { apply omap_annotated. intros q (c & s & _ & _ & Er & _)%Hpage. by exists (s, q). }
  assert (forall s q, (s, q) ∈ l -> q ∈ page /\ qr_Subject q = Columns s) as Hl.
  { intros s q Hin. apply list_elem_of_omap in Hin as (q' & Hq' & Er).
    destruct (Hpage q' Hq') as (c & s' & -> & _ & Er' & Ec). rewrite Er' in Er. by injection Er as <- <-. }
  exists l, (mtick (withMod db w)). split_and!.
  - unfold handleQueue, Queue. destruct (negb (kind =s? "") && negb (known_type kind)) eqn:Ek.
    { bool_to_prop. destruct Hkind as [?|Hkt]; [done|congruence]. }
    rewrite run_bind. fold k n. rewrite run_stmt, exec_storable; [done|].
    unfold k, nullableText. destruct (kind =s? "") eqn:E; [done|]. bool_to_prop. destruct Hkind as [?|Hkt]; [done|].
    apply known_type_cases in Hkt as [->|[->| ->]]; done.
  - done.
  - intros s q [Hq Es]%Hl. destruct (Hpage q Hq) as (c & s' & E & Hc & _). subst q. cbn in Es. subst c.
    destruct (subjects_read k _ auth db Hdb _ Hc) as (_ & Eg & Hpos). rewrite Eg. split_and!; try done.
    apply Hof. by apply subjects_elem in Hc as [_ ?].
  - apply (NoDup_fmap_1 Columns). rewrite <- list_fmap_compose.
    rewrite (Forall_fmap_ext_1 _ (qr_Subject ∘ snd)); [|by apply Forall_forall; intros [s q] [_ ?]%Hl].
    rewrite list_fmap_compose, Esnd. apply entries_NoDup.
  - apply (sorted_along snd (fun a b => pressing (urgency b) (urgency a) = false)). rewrite Esnd.
    apply sorted_taken, entries_sorted.
  - intros s Hs Hk. assert (Columns s ∈ subjects k db) as Hc by (apply subjects_elem; split; [done|by apply Hof]).
    destruct (subjects_read k _ auth db Hdb _ Hc) as ((s' & Es' & Ec) & Eg & _).
    destruct (entries_cut k auth db (Z.to_nat n) (group auth db (openReports k db) (Columns s))) as [Hin|[Hlen Hall]].
    { apply entries_elem. by exists (Columns s). }
    + left. fold page in Hin. rewrite <- Esnd in Hin. apply list_elem_of_fmap in Hin as ([s0 q] & Eq & Hin). apply list_elem_of_fmap.
      exists (s0, q). split; [|done]. cbn in Eq. subst q. apply Hl in Hin as [_ E0]. cbn in E0.
      apply subjectOf_known in Es'. assert (Some s = Some s0) as [= ->]; [|done].
      rewrite <- !subjectOf_Columns; [by rewrite E0| |done]. change (known_type (sc_Type (Columns s0)) = true). by rewrite <- E0.
    + right. split; [rewrite <- (length_fmap snd l), Esnd; fold page in Hlen; rewrite Hlen; unfold n in *|].
      * pose proof (ParseLimit_bounds limit queueDefaultLimit queueMaxLimit ltac:(done)). lia.
      * intros [s0 q] [Hq _]%Hl. rewrite <- Eg. by apply Hall.
Qed.
End reports.
