(* ===== verification/ModScenes.v ===== *)
(** * internal/moderation at work

    A small concrete environment, the witnesses of the theorems about moderation, and
    two schedules of moderators who act at the same time; then the witnesses of the
    theorems about quotes. *)

From Stdlib Require Import Sorting.Sorted Strings.Ascii Strings.Byte.
From S2P Require Import Prelude GoStd Uuid Httpx Keyset Json AuthLimiter AuthText AuthPassword AuthStore AuthFlow AuthHandlers AuthInv AuthWorld AuthScenes Effects QuoteStore QuoteProps QuoteHandlers ModStore ModHandlers ModWorld ModInv QuoteLife ModAuthority ModBans ModReports.

Open Scope Z_scope.

(** ** The environment *)

(** A provider whose codes are the names of its accounts, each with a verified address. *)
Definition githubAccount (code : string) : oauthUser :=
  {| ou_Subject := code; ou_Email := code +:+ "@example.org"; ou_EmailVerified := true; ou_Name := code |}.

#[local] Instance modEnv : Env | 0 := {|
  env_cfg := sceneConfig;
  env_lower := fun r => r;
  env_bytes k n := string_of_bytes (fit n [Z.of_nat k mod 256]);
  env_id := sceneID : nat -> bool -> @UUID uuid16_Uuid;
  env_mailer _ := true;
  env_restricted _ _ := false;
  env_captcha _ _ _ := true;
  env_exchange _ _ code _ := Profile (githubAccount code) |}.

(** The C collation, the first candidate, and ids of its own for an import. *)
#[local] Instance bytewise_total : StrictTotal string_lt.
Proof.
  split; unfold string_lt.
  - intros a. apply bool_decide_eq_false. rewrite string_compare_OT. apply (StrictOrder_Irreflexive (R := OrdersEx.String_as_OT.lt)).
  - intros a b c Hab Hbc. bool_to_prop. apply bool_decide_eq_true. by eapply string_lt_trans.
  - intros a b Hne. rewrite !bool_decide_eq_true. destruct (String.compare a b) eqn:E; [|by left|right].
    + by apply String.compare_eq_iff in E.
    + rewrite String.compare_antisym, E. done.
Qed.
#[local] Instance bytewise : Collation := {| text_lt := string_lt |}.
#[local] Instance firstDraws : Draws := {|
  draw t n := 0; quoteID t n := sceneID (1000 * (t + 1) + n) true : @UUID uuid16_Uuid |}.

#[local] Instance modLimits : ReportLimits := {| report_limits := {| lm_every := 60000000000; lm_burst := 5 |} |}.

Definition callback (code : string) : request :=
  {| rq_Method := "GET"; rq_Origin := ""; rq_IP := "198.51.100.7"; rq_Body := None; rq_Session := None;
     rq_Provider := ProviderGitHub; rq_QueryState := "st"; rq_QueryCode := code;
     rq_State := Some "st"; rq_Verifier := Some "vf"; rq_Link := None |}.

Definition asAuth (t : route) (r : request) : mprog manswer := bind (within (serve t r)) (fun a => Ret (FromAuth a)).

(** The session an answered request was given. *)
Definition cookieOf (s : mworld * list (mprog manswer)) (i : nat) : option string :=
  match s.2 !! i with
  | Some (Ret (FromAuth (cs, _))) => head (omap (fun c => match c with SessionCookie t => Some t | _ => None end) cs)
  | _ => None
  end.

Definition signUps : list (move meff manswer) :=
  [Arrives (asAuth GetOAuthCallback (callback "root"))] ++ nexts 0 20
  ++ [Arrives (asAuth GetOAuthCallback (callback "bob"))] ++ nexts 1 20
  ++ [Arrives (settled (within (BootstrapAdmins ["root@example.org"])))] ++ nexts 2 5.

Definition opening : mworld * list (mprog manswer) := plays MNotFound signUps (minitial 0).

Definition root : UUID := sceneID 4 false.
Definition bob : UUID := sceneID 12 false.

(** A moderator's request, from the frontend. *)
Definition asRoot (fields : list (string * string)) : request := posting fields (cookieOf opening 0).
Definition asBob (body : json) : request :=
  {| rq_Method := "POST"; rq_Origin := "https://typemore.example"; rq_IP := "198.51.100.7"; rq_Body := Some body;
     rq_Session := cookieOf opening 1; rq_Provider := ""; rq_QueryState := ""; rq_QueryCode := "";
     rq_State := None; rq_Verifier := None; rq_Link := None |}.

Definition banBob (reason : string) : move meff manswer :=
  Arrives (mserve PostBan (asRoot [("user", uuid_String bob); ("reason", reason)])).
Definition unbanBob : move meff manswer := Arrives (mserve (DeleteBan (uuid_String bob)) (asRoot [])).

(** Two bans, each of which reads that there is none; then an unban. *)
Definition twoBans : list (move meff manswer) :=
  signUps ++ banBob "spam" :: banBob "cheating" :: nexts 3 6 ++ nexts 4 10 ++ nexts 3 4
  ++ unbanBob :: nexts 5 10.

(** A ban; then an amendment that has read it when an unban comes in between. *)
Definition lateAmendment : list (move meff manswer) :=
  signUps ++ banBob "spam" :: nexts 3 10 ++ banBob "cheating" :: nexts 4 6
  ++ unbanBob :: nexts 5 10 ++ nexts 4 4.

Definition twiceBanned := plays MNotFound twoBans (minitial 0).
Definition amendedLate := plays MNotFound lateAmendment (minitial 0).

(** What arrives in a schedule is a request or the start-up. *)
Definition arrival (m : move meff manswer) : Prop := match m with Arrives p => marrives p | _ => True end.

Lemma schedule_reachable ms : Forall arrival ms -> mreachable (plays MNotFound ms (minitial 0)).
Proof.
  intros Ha. exists 0. apply plays_steps.
  - intros p Hp. rewrite Forall_forall in Ha. apply (Ha _ Hp).
  - by left.
Qed.

Lemma nexts_arrive i n : Forall arrival (nexts i n).
Proof. apply Forall_replicate. exact I. Qed.

Ltac arrive :=
  lazymatch goal with
  | |- arrival (Arrives (mserve _ _)) => apply arrives_mod
  | |- arrival (Arrives (qserve _ _)) => apply arrives_quote
  | |- arrival (Arrives (asAuth _ _)) => apply arrives_auth
  | |- arrival (Arrives (settled (within (BootstrapAdmins _)))) => apply arrives_bootstrap
  | |- arrival (Arrives (settled (asking _))) => apply arrives_import
  end.
Ltac schedule :=
  repeat lazymatch goal with
  | |- Forall _ (nexts _ _) => apply nexts_arrive
  | |- Forall _ (_ ++ _) => apply Forall_app; split
  | |- Forall _ (_ :: _) => apply Forall_cons; split
  | |- Forall _ [] => apply Forall_nil_2
  | |- arrival _ => arrive
  end.

Lemma opening_reachable : mreachable opening.
Proof. apply schedule_reachable. unfold signUps. schedule. Qed.

Lemma twiceBanned_reachable : mreachable twiceBanned.
Proof. apply schedule_reachable. unfold twoBans, signUps, banBob, unbanBob. schedule. Qed.

Lemma amendedLate_reachable : mreachable amendedLate.
Proof. apply schedule_reachable. unfold lateAmendment, signUps, banBob, unbanBob. schedule. Qed.

(** The answers of a kind among the finished requests. *)
Definition unbans (s : mworld * list (mprog manswer)) : list banView :=
  omap (fun p => match p with Ret (MReply _ (UnbanBody (Some v))) => Some v | _ => None end) s.2.
Definition amendments (s : mworld * list (mprog manswer)) : list (modUser * banView) :=
  omap (fun p => match p with Ret (MReply _ (BanBody u v true _)) => Some (u, v) | _ => None end) s.2.

(** Every ban of the account is revoked. *)
Definition allLifted (user : UUID) (db : modDB) : bool :=
  forallb (fun b => negb (bool_decide (bw_UserID b = user)) || bool_decide (is_Some (bw_RevokedAt b))) (rows (md_bans db)).

Lemma allLifted_free user db t : allLifted user db = true -> ModStore.IsRestricted t user db = false.
Proof.
  intros Hall. apply not_true_iff_false. rewrite IsRestricted_spec. intros (k & b & Hk & Hb).
  unfold allLifted in Hall. rewrite forallb_forall in Hall.
  assert (b ∈ rows (md_bans db)) as Hin by (apply table_rows; by exists k).
  apply list_elem_of_In, Hall in Hin. unfold bannedNow, inForce in Hb. bool_to_prop.
  rewrite (bool_decide_eq_true_2 (bw_UserID b = user)) in Hin by done. cbn in Hin. bool_to_prop.
  destruct Hin as [r Er]. by rewrite Er in *.
Qed.

Definition stillBanned (s : mworld * list (mprog manswer)) (v : banView) : bool :=
  bool_decide (is_Some (bw_RevokedAt (bv_Ban v)))
  && ModStore.IsRestricted (mclock s.1) (bw_UserID (bv_Ban v)) (mw_db s.1).
Definition notBanned (s : mworld * list (mprog manswer)) (x : modUser * banView) : bool :=
  bool_decide (bw_UserID (bv_Ban x.2) = mu_ID x.1) && allLifted (mu_ID x.1) (mw_db s.1).

(** C20: moderators can lose each other's decisions.  Ban reads whether a ban is in force
    and then writes, two statements without a transaction.  Two bans at the same time
    both find none, and an unban, which ends one, answers that the ban is lifted while
    the account stays restricted.  And an amendment that read a ban which an unban then
    revokes rewrites the revoked row: it answers the ban as amended, and the account is
    not restricted, now or ever.  Both are reachable, with no statement failing. *)
Theorem moderators_race :
  (exists s v, mreachable s /\ v ∈ unbans s /\ bw_RevokedAt (bv_Ban v) <> None
     /\ ModStore.IsRestricted (mclock s.1) (bw_UserID (bv_Ban v)) (mw_db s.1) = true)
  /\ exists s u v, mreachable s /\ (u, v) ∈ amendments s /\ bw_UserID (bv_Ban v) = mu_ID u
     /\ forall t, ModStore.IsRestricted t (mu_ID u) (mw_db s.1) = false.
Proof.
  split.
  - assert (existsb (stillBanned twiceBanned) (unbans twiceBanned) = true) as Hb by (vm_compute; reflexivity).
    apply existsb_exists in Hb as (v & Hv%list_elem_of_In & Hb). unfold stillBanned in Hb. bool_to_prop.
    exists twiceBanned, v. split_and!; [apply twiceBanned_reachable|done|by apply not_eq_None_Some|done].
  - assert (existsb (notBanned amendedLate) (amendments amendedLate) = true) as Hb by (vm_compute; reflexivity).
    apply existsb_exists in Hb as ([u v] & Hv%list_elem_of_In & Hb). unfold notBanned in Hb. bool_to_prop.
    exists amendedLate, u, v. split_and!; [apply amendedLate_reachable|done..|]. intros t. by apply allLifted_free.
Qed.

(** ** Witnesses *)

Definition reportOf (subject : UUID) : json :=
  JObj [("subject", JObj [("type", JStr "user"); ("id", JStr (uuid_String subject))]);
        ("reason", JStr "cheating"); ("comment", JStr " look at these runs ")].

Definition filed : list (move meff manswer) :=
  signUps ++ Arrives (mserve PostReport (asBob (reportOf root))) :: nexts 3 12.
Definition reported := plays MNotFound filed (minitial 0).

Lemma reported_reachable : mreachable reported.
Proof. apply schedule_reachable. unfold filed, signUps. schedule. Qed.

Lemma opening_ok : world_ok opening.1.
Proof. apply mreachable_ok, opening_reachable. Qed.

Lemma bob_lives : live (accounts opening.1) bob.
Proof. refine (bool_decide_unpack _ _). vm_compute. exact I. Qed.

Lemma root_audited : refs (live (accounts opening.1)) (auditID {| ac_ID := root; ac_Name := "root" |}).
Proof. apply refers_live. vm_compute. reflexivity. Qed.

Lemma opening_blank : md_bans (mw_db opening.1) = ∅ /\ md_reports (mw_db opening.1) = ∅.
Proof. split; apply map_size_empty_inv; vm_compute; reflexivity. Qed.

Lemma blank_sole now user db : md_bans db = ∅ -> sole now user db.
Proof. intros E k k' b b' Hk. by rewrite E, lookup_empty in Hk. Qed.

Lemma blank_fresh w : md_bans (mw_db w) = ∅ -> fresh_bans w.
Proof. intros E n _. by rewrite E, lookup_empty. Qed.

Lemma blank_fresh_reports w : md_reports (mw_db w) = ∅ -> fresh_reports w.
Proof. intros E n _. by rewrite E, lookup_empty. Qed.

Lemma moderation_tables_ok_witness :
  length (rows (md_reports (mw_db reported.1))) = 1%nat /\ one_open (md_reports (mw_db reported.1)).
Proof. split; [vm_compute; reflexivity|]. exact (proj1 (moderation_tables_ok reported reported_reachable)). Defined.

Lemma ban_then_unban_witness :
  exists r w1, run (BanUser bob "spam" {| ac_ID := root; ac_Name := "root" |} (Some hour)) opening.1 = (inl r, w1)
    /\ ModStore.IsRestricted (hour - 1) bob (mw_db w1) = true /\ ModStore.IsRestricted hour bob (mw_db w1) = false.
Proof.
  destruct (ban_then_unban bob "spam" {| ac_ID := root; ac_Name := "root" |} (Some hour)
    {| ac_ID := root; ac_Name := "root" |} 0 opening.1) as (r & w1 & r' & w2 & Er & _ & _ & Ht & _).
  - apply opening_ok.
  - apply bob_lives.
  - apply root_audited.
  - apply root_audited.
  - by split.
  - apply blank_fresh, opening_blank.
  - apply blank_sole, opening_blank.
  - lia.
  - exists r, w1. split; [exact Er|]. rewrite !Ht by (vm_compute; done). by split; vm_compute.
Defined.

Lemma report_answers_witness :
  exists n w', (run (handleFile bob (asBob (reportOf root))) opening.1).2 = w'
    /\ mw_db w' = setReports (insert (rp_ID n) n) (mw_db opening.1).
Proof.
  pose proof (report_answers bob (asBob (reportOf root)) opening.1 opening_ok bob_lives
    (blank_fresh_reports _ (proj2 opening_blank))) as Hr.
  destruct (AuthLimiter.Allow _ _ _ _) as [passed l] eqn:Ea.
  assert (passed = true) as -> by (apply (f_equal fst) in Ea; symmetry; etrans; [|exact Ea]; vm_compute; reflexivity).
  clear Ea l. destruct (filing _ _ _ _ _ _) as [a new] eqn:Ef.
  assert (bool_decide (is_Some new) = true) as Hn
    by (apply (f_equal snd) in Ef; cbn [snd] in Ef; rewrite <- Ef; vm_compute; reflexivity).
  clear Ef. bool_to_prop. destruct Hn as [n ->]. destruct Hr as (a' & w' & Er & _ & _ & Hdb).
  exists n, w'. split; [by rewrite Er|exact Hdb].
Defined.

Lemma queue_is_open_reports_witness :
  exists l w', run (handleQueue "user" "") reported.1 = (mok (QueueBody l), w')
    /\ ({| sj_Type := "user"; sj_ID := root |} ∈ l.*1 \/ Z.of_nat (length l) = 50).
Proof.
  destruct (queue_is_open_reports "user" "" reported.1) as (l & w' & Er & _ & _ & _ & _ & Hall).
  - apply mreachable_ok, reported_reachable.
  - by right.
  - exists l, w'. split; [exact Er|].
    destruct (Hall {| sj_Type := "user"; sj_ID := root |}) as [Hin|[Hlen _]]; [| |by left|by right].
    + intros E. apply (f_equal length) in E. vm_compute in E. discriminate E.
    + by right.
Defined.

(** * The corpus at work

    A small corpus imported, corrected and moderated: the witnesses of the theorems about
    quotes. *)

#[local] Existing Instances modEnv modLimits bytewise_total bytewise firstDraws.

(** A digest that is the text. *)
Definition toyDigest (w : list string) : option string := Some (String.concat "" w).

Definition toyRow : Language :=
  {| la_Lang := "toy"; la_File := "toy.json"; la_Quotes := 2; la_Groups := [(0, 5); (6, 9); (10, 20); (21, 99)] |}.
Definition toyQuote (text id length : string) : json :=
  JObj [("text", JStr text); ("source", JStr "x"); ("length", JNum length); ("id", JNum id)].
Definition toyFile (first : json) : json :=
  JObj [("language", JStr "toy");
        ("groups", JArr [JArr [JNum "0"; JNum "5"]; JArr [JNum "6"; JNum "9"]; JArr [JNum "10"; JNum "20"]; JArr [JNum "21"; JNum "99"]]);
        ("quotes", JArr [first; toyQuote "hello" "8" "5"])].

Definition loaded (file : json) : list Incoming := default [] (Load toyDigest file toyRow).
Definition original : list Incoming := loaded (toyFile (toyQuote "be quikc" "7" "8")).
Definition corrected : list Incoming := loaded (toyFile (toyQuote "be quick" "7" "8")).

Definition importing (l : list Incoming) : move meff manswer := Arrives (settled (asking (ask (qImport "toy" l)))).

(** An import; then the first quote is withdrawn, and its correction imported. *)
Definition imports : list (move meff manswer) := signUps ++ importing original :: nexts 3 2.
Definition published_ := plays MNotFound imports (minitial 0).

Definition toyID (w : mworld) (text : string) : UUID :=
  default uuid_Nil (qu_ID <$> find_first (fun q => qu_Text q =s? text) (rows (quotesOf w))).
Definition typo : UUID := toyID published_.1 "be quikc".

Definition correction : list (move meff manswer) :=
  Arrives (qserve (PostWithdrawal (uuid_String typo)) (asRoot [("reason", "typo")])) :: nexts 4 10
  ++ importing corrected :: nexts 5 2.
Definition corrected_ := plays MNotFound correction published_.

Lemma published_reachable : mreachable published_.
Proof. apply schedule_reachable. unfold imports, signUps, importing. schedule. Qed.

Lemma published_ok : world_ok published_.1.
Proof. apply mreachable_ok, published_reachable. Qed.

Lemma correction_steps : steps mstep published_ corrected_.
Proof.
  apply plays_steps; [|by left]. intros p Hp.
  assert (Forall arrival correction) as Ha.
  { unfold correction, importing. schedule. }
  rewrite Forall_forall in Ha. apply (Ha _ Hp).
Qed.

(** The row of the table with an id, as a boolean test. *)
Definition showsTypo (v : option manswer) : bool :=
  match v with
  | Some (FromQuote {| qa_status := 200; qa_body := QuoteBody q |}) => qv_Text q =s? "be quikc"
  | _ => false
  end.

Lemma quotes_never_rewritten_witness :
  exists q, quotesOf published_.1 !! typo = Some q
    /\ exists v, (run (qserve (GetByID (uuid_String typo)) (asRoot [])) corrected_.1).1 = FromQuote (qreply 200 (QuoteBody v))
         /\ qv_Text v = qu_Text q.
Proof.
  assert (is_Some (quotesOf published_.1 !! typo)) as [q Hq] by (refine (bool_decide_unpack _ _); vm_compute; exact I).
  exists q. split; [exact Hq|].
  destruct (quotes_never_rewritten published_ corrected_ (asRoot []) published_reachable correction_steps) as (_ & _ & _ & Hv).
  destruct (Hv typo q Hq) as (v & E & _ & Ht). exists v. by split.
Defined.

Lemma import_publishes_witness :
  exists db' s, Import (quoteID 9) 0 0 "toy" original noStats (∅ : gmap (@UUID uuid16_Uuid) Quote) = inl (db', s) /\ Total s = 2.
Proof.
  destruct (import_publishes (fun _ => True) (quoteID 9) (quoteID 10) 0 0 toyDigest
    (toyFile (toyQuote "be quikc" "7" "8")) toyRow original (∅ : gmap (@UUID uuid16_Uuid) Quote)) as (db' & s & E & Ht & _).
  - vm_compute. reflexivity.
  - intros i Hi. assert (forallb (fun i => negb (in_Text i =s? "") && (Utf8.rune_count (in_Text i) <? 2 ^ 31)) original = true)
      as Hall by (vm_compute; reflexivity).
    rewrite forallb_forall in Hall. specialize (Hall i (proj1 (list_elem_of_In _ _) Hi)). bool_to_prop. split; [done|lia].
  - apply quotes_ok_empty.
  - split; [|intros; apply lookup_empty]. change (length original) with 2%nat. intros m m' Hm.
    assert (m = 0%nat) as -> by lia. assert (m' = 1%nat) as -> by lia.
    refine (bool_decide_unpack _ _). vm_compute. exact I.
  - exists db', s. split; [exact E|]. rewrite Ht. vm_compute. reflexivity.
Defined.

Definition allPlain (w : mworld) : bool :=
  forallb (fun q => Strs.str_forallb (fun c => negb (Ascii.eqb c ":"%char)) (qu_Lang q) && storable (qu_Lang q)) (rows (quotesOf w)).

Lemma allPlain_spec w : allPlain w = true -> forall k q, md_quotes (mw_db w) !! k = Some q -> plain (qu_Lang q).
Proof.
  unfold allPlain. rewrite forallb_forall. intros Hall k q Hk.
  assert (q ∈ rows (quotesOf w)) as Hin by (apply table_rows; by exists k).
  apply list_elem_of_In, Hall in Hin. bool_to_prop. by split.
Qed.

(** What a walk shows: the sources, page by page. *)
Definition shown (pages : option (list (list metaView))) : option (list string) := (fun ps => mv_Source <$> concat ps) <$> pages.

Lemma catalogue_listed_witness :
  exists pages n, walk n (fetchQuotes "toy" "" "1" (asRoot []) published_.1) None = Some pages
    /\ shown (walk 3 (fetchQuotes "toy" "" "1" (asRoot []) published_.1) None) = Some ["x"; "x"].
Proof.
  destruct (catalogue_listed "toy" "" "1" (asRoot []) {| fi_Lang := "toy"; fi_Group := None |} published_.1)
    as (pages & quotes & Hw & Hc & _ & Hq & _).
  - apply published_ok.
  - apply (allPlain_spec published_.1). vm_compute. reflexivity.
  - reflexivity.
  - reflexivity.
  - exists pages, (S (length quotes)). split; [exact Hw|vm_compute; reflexivity].
Defined.

Lemma withdraw_then_restore_witness :
  exists q w1, quotesOf published_.1 !! typo = Some q
    /\ (run (fromQuote (handleWithdraw root (uuid_String typo) (asRoot [("reason", " typo ")]))) published_.1).2 = w1
    /\ forall f x, x ∈ catalogue f (quotesOf w1) -> qu_ID x <> typo.
Proof.
  assert (bool_decide (is_Some (quotesOf published_.1 !! typo)) = true) as Hq by (vm_compute; reflexivity).
  assert ((quotesOf published_.1 !! typo) ≫= qu_WithdrawnAt = None) as Hw by (vm_compute; reflexivity).
  assert (bool_decide (is_Some (decodeLenient ["reason"] (asRoot [("reason", " typo ")]))) = true) as Hb by (vm_compute; reflexivity).
  assert ((fun b => Strs.TrimSpace (member b "reason")) <$> decodeLenient ["reason"] (asRoot [("reason", " typo ")]) = Some "typo")
    as Hr by (vm_compute; reflexivity).
  bool_to_prop. destruct Hq as [q Hq], Hb as [body Hb]. rewrite Hq in Hw. rewrite Hb in Hr. injection Hr as Hr.
  destruct (withdraw_then_restore root typo q (asRoot [("reason", " typo ")]) body published_.1) as (w1 & E & Hf & _).
  - apply published_ok.
  - refine (bool_decide_unpack _ _). vm_compute. exact I.
  - exact Hq.
  - exact Hw.
  - exact Hb.
  - by rewrite Hr.
  - by rewrite Hr.
  - by rewrite Hr.
  - exists q, w1. split; [exact Hq|]. split; [by rewrite E|]. intros f. apply Hf.
Defined.
