(* ===== verification/WsState.v ===== *)
(** * internal/ws: the state of the relay

    The records of room.go, room_match.go, session.go, registry.go and
    room_persist.go, the store they live in, and the sources of time and
    randomness the code reads.

    A Go pointer is a key: a session is a [nat], a room object a [nat], a seat a
    [seatref] (the allocator uses the allocating room and a serial as address).
    The registry's room map, the seats' list of a room, a match's roster and the
    account index all hold such keys, so they alias as the pointers do.

    [core] is what the locks protect; [world] adds the connections with their
    outbound queues, and the environment. *)

From S2P Require Import Prelude GoStd Json Protocol Ratelimit.

Open Scope Z_scope.

Abbreviation seatref := (nat * nat)%type.

(** ** Environment

    [tick] counts the readings: the k-th reading of a clock or of a generator is
    what the oracle answers at k, so two readings in one handler may differ and a
    wall clock may step back. *)
Record matchTiming := {
  t_grace : Z;
  t_deadlineSlackMs : Z;
  t_wordMsPerWord : Z;
  t_afkKickShare : F64.f64;
  t_afkWarmupMs : Z;
  t_afkTrailingMs : Z;
  t_finishWindow : Z }.

Class Env := {
  now_ms : nat -> Z;
  now_ns : nat -> Z;
  rand_intn : nat -> Z -> Z;
  rand_read : nat -> nat -> list Z;
  select_coin : nat -> bool;
  upper_table : Z -> Z;
  timing : matchTiming;
  has_store : bool;
  loop_fuel : nat }.

(** Constants of room.go, room_match.go, room_idle.go, registry.go, handler.go. *)
Definition seatActive := "active".
Definition guestNickLow : Z := 1000.
Definition guestNickCount : Z := 9000.
Definition countdownLeadMs : Z := 5000.
Definition deadlineSlackMsDefault : Z := 30000.
Definition wordModeMsPerWordDefault : Z := 3000.
Definition graceDurationDefault : Z := 15 * 1000000000.
Definition maxCapturedEvents : Z := 480000.
Definition roomCapacity : nat := 5.
Definition roomCodeLen : nat := 6.
Definition roomCodeAlphabet := "23456789ABCDEFGHJKLMNPQRSTUVWXYZ".
Definition roomIdleTimeout : Z := 3600000.
Definition roomIdleWarning : Z := 60000.
Definition outboundBuffer : nat := 256.
Definition eventBatchMaxBytes : Z := 1048576.
Definition StatusNormalClosure : Z := 1000.
Definition StatusPolicyViolation : Z := 1008.
Definition closeSeatTakenOver : Z := 4001.

Definition defaultTiming : matchTiming :=
  {| t_grace := graceDurationDefault; t_deadlineSlackMs := deadlineSlackMsDefault;
     t_wordMsPerWord := wordModeMsPerWordDefault; t_afkKickShare := AfkKickShare;
     t_afkWarmupMs := AfkWarmupMs; t_afkTrailingMs := AfkTrailingMs;
     t_finishWindow := FinishWindowMs * 1000000 |}.

(** ** Records *)

Record closeReason := { cr_code : Z; cr_reason : string }.

Record CapturedBatch := { b_batchSeq : Z; b_recvServerMs : Z; b_events : list json }.

Record seat := {
  st_sess : option nat;
  st_playerID : string;
  st_nick : string;
  st_isGuest : bool;
  st_userID : string;
  st_resumeToken : string;
  st_ready : bool;
  st_freemods : Freemods;
  st_joinSeq : Z;
  st_status : string;
  st_lastSeq : Z;
  st_batches : list CapturedBatch;
  st_eventCount : Z;
  st_finishedAtMs : Z;
  st_lastBatchMs : Z;
  st_activeBuckets : Z;
  st_lastBucket : Z;
  st_disconnected : bool;
  st_backlog : list frame;
  st_grace : bool }.

Record matchState := {
  m_id : string;
  m_seed : Z;
  m_goAtMs : Z;
  m_settings : Settings;
  m_players : list CountdownPlayer;
  m_roster : list seatref;
  m_deadline : option Z;
  m_finishWindow : option Z;
  m_afkSweep : bool;
  m_ended : bool }.

Record Room := {
  r_code : string;
  r_lastActivityMs : Z;
  r_idleWarned : bool;
  r_createdAt : Z;
  r_settings : Settings;
  r_seats : list seatref;
  r_hostID : string;
  r_inMatch : bool;
  r_match : option matchState;
  r_nextSeq : Z }.

Record session := {
  ss_authed : bool;
  ss_displayName : string;
  ss_userID : string;
  ss_helloDone : bool;
  ss_playerID : string;
  ss_resumeToken : string;
  ss_room : option nat;
  ss_commands : bucket;
  ss_batches : bucket;
  ss_chats : bucket;
  ss_displacedAs : option closeReason;
  ss_outbound : list frame;
  ss_written : list frame;
  ss_ctxDone : bool }.

Record graceEntry := { g_token : string; g_room : nat; g_seat : seatref }.

Record Registry := {
  reg_rooms : gmap string nat;
  reg_graces : list graceEntry;
  reg_users : gmap string (nat * seatref) }.

(** room_persist.go: what a match end hands to the store writer. *)
Record runSnapshot := {
  rsn_playerID : string; rsn_nick : string; rsn_userID : string; rsn_freemods : Freemods;
  rsn_status : string; rsn_batches : list CapturedBatch }.

Record matchSnapshot := {
  sn_id : string; sn_roomCode : string; sn_name : string; sn_settings : Settings;
  sn_players : list CountdownPlayer; sn_seed : Z; sn_dictHash : string; sn_lang : string;
  sn_goAtMs : Z; sn_endedAtMs : Z; sn_runs : list runSnapshot }.

Record core := {
  c_seats : gmap seatref seat;
  c_rooms : gmap nat Room;
  c_reg : Registry;
  c_nextSeat : nat;
  c_nextRoom : nat }.

Record world := {
  w_core : core;
  w_sess : gmap nat session;
  w_persists : list matchSnapshot;
  w_restricted : option (string -> bool);
  w_tick : nat }.

(** ** Zero values *)

Definition zero_seat : seat :=
  {| st_sess := None; st_playerID := ""; st_nick := ""; st_isGuest := false; st_userID := "";
     st_resumeToken := ""; st_ready := false; st_freemods := zero_Freemods; st_joinSeq := 0;
     st_status := ""; st_lastSeq := 0; st_batches := []; st_eventCount := 0;
     st_finishedAtMs := 0; st_lastBatchMs := 0; st_activeBuckets := 0; st_lastBucket := 0;
     st_disconnected := false; st_backlog := []; st_grace := false |}.
#[export] Instance seat_inhabited : Inhabited seat := populate zero_seat.

Definition zero_Room : Room :=
  {| r_code := ""; r_lastActivityMs := 0; r_idleWarned := false; r_createdAt := 0;
     r_settings := zero_Settings; r_seats := []; r_hostID := ""; r_inMatch := false;
     r_match := None; r_nextSeq := 0 |}.
#[export] Instance Room_inhabited : Inhabited Room := populate zero_Room.

Definition zero_session : session :=
  {| ss_authed := false; ss_displayName := ""; ss_userID := ""; ss_helloDone := false;
     ss_playerID := ""; ss_resumeToken := ""; ss_room := None; ss_commands := zero_bucket;
     ss_batches := zero_bucket; ss_chats := zero_bucket; ss_displacedAs := None;
     ss_outbound := []; ss_written := []; ss_ctxDone := false |}.
#[export] Instance session_inhabited : Inhabited session := populate zero_session.

(** [NewRegistry]: nothing yet. *)
Definition NewRegistry : Registry :=
  {| reg_rooms := empty; reg_graces := []; reg_users := empty |}.

Definition init_core : core :=
  {| c_seats := empty; c_rooms := empty; c_reg := NewRegistry; c_nextSeat := 0; c_nextRoom := 0 |}.

(** ** Field assignments *)

Definition set_st_sess (v : option nat) (r : seat) : seat :=
  {| st_sess := v; st_playerID := st_playerID r; st_nick := st_nick r; st_isGuest := st_isGuest
     r; st_userID := st_userID r; st_resumeToken := st_resumeToken r; st_ready := st_ready r;
     st_freemods := st_freemods r; st_joinSeq := st_joinSeq r; st_status := st_status r;
     st_lastSeq := st_lastSeq r; st_batches := st_batches r; st_eventCount := st_eventCount r;
     st_finishedAtMs := st_finishedAtMs r; st_lastBatchMs := st_lastBatchMs r; st_activeBuckets
     := st_activeBuckets r; st_lastBucket := st_lastBucket r; st_disconnected := st_disconnected
     r; st_backlog := st_backlog r; st_grace := st_grace r |}.
Definition set_st_playerID (v : string) (r : seat) : seat :=
  {| st_sess := st_sess r; st_playerID := v; st_nick := st_nick r; st_isGuest := st_isGuest r;
     st_userID := st_userID r; st_resumeToken := st_resumeToken r; st_ready := st_ready r;
     st_freemods := st_freemods r; st_joinSeq := st_joinSeq r; st_status := st_status r;
     st_lastSeq := st_lastSeq r; st_batches := st_batches r; st_eventCount := st_eventCount r;
     st_finishedAtMs := st_finishedAtMs r; st_lastBatchMs := st_lastBatchMs r; st_activeBuckets
     := st_activeBuckets r; st_lastBucket := st_lastBucket r; st_disconnected := st_disconnected
     r; st_backlog := st_backlog r; st_grace := st_grace r |}.
Definition set_st_nick (v : string) (r : seat) : seat :=
  {| st_sess := st_sess r; st_playerID := st_playerID r; st_nick := v; st_isGuest := st_isGuest
     r; st_userID := st_userID r; st_resumeToken := st_resumeToken r; st_ready := st_ready r;
     st_freemods := st_freemods r; st_joinSeq := st_joinSeq r; st_status := st_status r;
     st_lastSeq := st_lastSeq r; st_batches := st_batches r; st_eventCount := st_eventCount r;
     st_finishedAtMs := st_finishedAtMs r; st_lastBatchMs := st_lastBatchMs r; st_activeBuckets
     := st_activeBuckets r; st_lastBucket := st_lastBucket r; st_disconnected := st_disconnected
     r; st_backlog := st_backlog r; st_grace := st_grace r |}.
Definition set_st_isGuest (v : bool) (r : seat) : seat :=
  {| st_sess := st_sess r; st_playerID := st_playerID r; st_nick := st_nick r; st_isGuest := v;
     st_userID := st_userID r; st_resumeToken := st_resumeToken r; st_ready := st_ready r;
     st_freemods := st_freemods r; st_joinSeq := st_joinSeq r; st_status := st_status r;
     st_lastSeq := st_lastSeq r; st_batches := st_batches r; st_eventCount := st_eventCount r;
     st_finishedAtMs := st_finishedAtMs r; st_lastBatchMs := st_lastBatchMs r; st_activeBuckets
     := st_activeBuckets r; st_lastBucket := st_lastBucket r; st_disconnected := st_disconnected
     r; st_backlog := st_backlog r; st_grace := st_grace r |}.
Definition set_st_userID (v : string) (r : seat) : seat :=
  {| st_sess := st_sess r; st_playerID := st_playerID r; st_nick := st_nick r; st_isGuest :=
     st_isGuest r; st_userID := v; st_resumeToken := st_resumeToken r; st_ready := st_ready r;
     st_freemods := st_freemods r; st_joinSeq := st_joinSeq r; st_status := st_status r;
     st_lastSeq := st_lastSeq r; st_batches := st_batches r; st_eventCount := st_eventCount r;
     st_finishedAtMs := st_finishedAtMs r; st_lastBatchMs := st_lastBatchMs r; st_activeBuckets
     := st_activeBuckets r; st_lastBucket := st_lastBucket r; st_disconnected := st_disconnected
     r; st_backlog := st_backlog r; st_grace := st_grace r |}.
Definition set_st_resumeToken (v : string) (r : seat) : seat :=
  {| st_sess := st_sess r; st_playerID := st_playerID r; st_nick := st_nick r; st_isGuest :=
     st_isGuest r; st_userID := st_userID r; st_resumeToken := v; st_ready := st_ready r;
     st_freemods := st_freemods r; st_joinSeq := st_joinSeq r; st_status := st_status r;
     st_lastSeq := st_lastSeq r; st_batches := st_batches r; st_eventCount := st_eventCount r;
     st_finishedAtMs := st_finishedAtMs r; st_lastBatchMs := st_lastBatchMs r; st_activeBuckets
     := st_activeBuckets r; st_lastBucket := st_lastBucket r; st_disconnected := st_disconnected
     r; st_backlog := st_backlog r; st_grace := st_grace r |}.
Definition set_st_ready (v : bool) (r : seat) : seat :=
  {| st_sess := st_sess r; st_playerID := st_playerID r; st_nick := st_nick r; st_isGuest :=
     st_isGuest r; st_userID := st_userID r; st_resumeToken := st_resumeToken r; st_ready := v;
     st_freemods := st_freemods r; st_joinSeq := st_joinSeq r; st_status := st_status r;
     st_lastSeq := st_lastSeq r; st_batches := st_batches r; st_eventCount := st_eventCount r;
     st_finishedAtMs := st_finishedAtMs r; st_lastBatchMs := st_lastBatchMs r; st_activeBuckets
     := st_activeBuckets r; st_lastBucket := st_lastBucket r; st_disconnected := st_disconnected
     r; st_backlog := st_backlog r; st_grace := st_grace r |}.
Definition set_st_freemods (v : Freemods) (r : seat) : seat :=
  {| st_sess := st_sess r; st_playerID := st_playerID r; st_nick := st_nick r; st_isGuest :=
     st_isGuest r; st_userID := st_userID r; st_resumeToken := st_resumeToken r; st_ready :=
     st_ready r; st_freemods := v; st_joinSeq := st_joinSeq r; st_status := st_status r;
     st_lastSeq := st_lastSeq r; st_batches := st_batches r; st_eventCount := st_eventCount r;
     st_finishedAtMs := st_finishedAtMs r; st_lastBatchMs := st_lastBatchMs r; st_activeBuckets
     := st_activeBuckets r; st_lastBucket := st_lastBucket r; st_disconnected := st_disconnected
     r; st_backlog := st_backlog r; st_grace := st_grace r |}.
Definition set_st_joinSeq (v : Z) (r : seat) : seat :=
  {| st_sess := st_sess r; st_playerID := st_playerID r; st_nick := st_nick r; st_isGuest :=
     st_isGuest r; st_userID := st_userID r; st_resumeToken := st_resumeToken r; st_ready :=
     st_ready r; st_freemods := st_freemods r; st_joinSeq := v; st_status := st_status r;
     st_lastSeq := st_lastSeq r; st_batches := st_batches r; st_eventCount := st_eventCount r;
     st_finishedAtMs := st_finishedAtMs r; st_lastBatchMs := st_lastBatchMs r; st_activeBuckets
     := st_activeBuckets r; st_lastBucket := st_lastBucket r; st_disconnected := st_disconnected
     r; st_backlog := st_backlog r; st_grace := st_grace r |}.
Definition set_st_status (v : string) (r : seat) : seat :=
  {| st_sess := st_sess r; st_playerID := st_playerID r; st_nick := st_nick r; st_isGuest :=
     st_isGuest r; st_userID := st_userID r; st_resumeToken := st_resumeToken r; st_ready :=
     st_ready r; st_freemods := st_freemods r; st_joinSeq := st_joinSeq r; st_status := v;
     st_lastSeq := st_lastSeq r; st_batches := st_batches r; st_eventCount := st_eventCount r;
     st_finishedAtMs := st_finishedAtMs r; st_lastBatchMs := st_lastBatchMs r; st_activeBuckets
     := st_activeBuckets r; st_lastBucket := st_lastBucket r; st_disconnected := st_disconnected
     r; st_backlog := st_backlog r; st_grace := st_grace r |}.
Definition set_st_lastSeq (v : Z) (r : seat) : seat :=
  {| st_sess := st_sess r; st_playerID := st_playerID r; st_nick := st_nick r; st_isGuest :=
     st_isGuest r; st_userID := st_userID r; st_resumeToken := st_resumeToken r; st_ready :=
     st_ready r; st_freemods := st_freemods r; st_joinSeq := st_joinSeq r; st_status := st_status
     r; st_lastSeq := v; st_batches := st_batches r; st_eventCount := st_eventCount r;
     st_finishedAtMs := st_finishedAtMs r; st_lastBatchMs := st_lastBatchMs r; st_activeBuckets
     := st_activeBuckets r; st_lastBucket := st_lastBucket r; st_disconnected := st_disconnected
     r; st_backlog := st_backlog r; st_grace := st_grace r |}.
Definition set_st_batches (v : list CapturedBatch) (r : seat) : seat :=
  {| st_sess := st_sess r; st_playerID := st_playerID r; st_nick := st_nick r; st_isGuest :=
     st_isGuest r; st_userID := st_userID r; st_resumeToken := st_resumeToken r; st_ready :=
     st_ready r; st_freemods := st_freemods r; st_joinSeq := st_joinSeq r; st_status := st_status
     r; st_lastSeq := st_lastSeq r; st_batches := v; st_eventCount := st_eventCount r;
     st_finishedAtMs := st_finishedAtMs r; st_lastBatchMs := st_lastBatchMs r; st_activeBuckets
     := st_activeBuckets r; st_lastBucket := st_lastBucket r; st_disconnected := st_disconnected
     r; st_backlog := st_backlog r; st_grace := st_grace r |}.
Definition set_st_eventCount (v : Z) (r : seat) : seat :=
  {| st_sess := st_sess r; st_playerID := st_playerID r; st_nick := st_nick r; st_isGuest :=
     st_isGuest r; st_userID := st_userID r; st_resumeToken := st_resumeToken r; st_ready :=
     st_ready r; st_freemods := st_freemods r; st_joinSeq := st_joinSeq r; st_status := st_status
     r; st_lastSeq := st_lastSeq r; st_batches := st_batches r; st_eventCount := v;
     st_finishedAtMs := st_finishedAtMs r; st_lastBatchMs := st_lastBatchMs r; st_activeBuckets
     := st_activeBuckets r; st_lastBucket := st_lastBucket r; st_disconnected := st_disconnected
     r; st_backlog := st_backlog r; st_grace := st_grace r |}.
Definition set_st_finishedAtMs (v : Z) (r : seat) : seat :=
  {| st_sess := st_sess r; st_playerID := st_playerID r; st_nick := st_nick r; st_isGuest :=
     st_isGuest r; st_userID := st_userID r; st_resumeToken := st_resumeToken r; st_ready :=
     st_ready r; st_freemods := st_freemods r; st_joinSeq := st_joinSeq r; st_status := st_status
     r; st_lastSeq := st_lastSeq r; st_batches := st_batches r; st_eventCount := st_eventCount r;
     st_finishedAtMs := v; st_lastBatchMs := st_lastBatchMs r; st_activeBuckets :=
     st_activeBuckets r; st_lastBucket := st_lastBucket r; st_disconnected := st_disconnected r;
     st_backlog := st_backlog r; st_grace := st_grace r |}.
Definition set_st_lastBatchMs (v : Z) (r : seat) : seat :=
  {| st_sess := st_sess r; st_playerID := st_playerID r; st_nick := st_nick r; st_isGuest :=
     st_isGuest r; st_userID := st_userID r; st_resumeToken := st_resumeToken r; st_ready :=
     st_ready r; st_freemods := st_freemods r; st_joinSeq := st_joinSeq r; st_status := st_status
     r; st_lastSeq := st_lastSeq r; st_batches := st_batches r; st_eventCount := st_eventCount r;
     st_finishedAtMs := st_finishedAtMs r; st_lastBatchMs := v; st_activeBuckets :=
     st_activeBuckets r; st_lastBucket := st_lastBucket r; st_disconnected := st_disconnected r;
     st_backlog := st_backlog r; st_grace := st_grace r |}.
Definition set_st_activeBuckets (v : Z) (r : seat) : seat :=
  {| st_sess := st_sess r; st_playerID := st_playerID r; st_nick := st_nick r; st_isGuest :=
     st_isGuest r; st_userID := st_userID r; st_resumeToken := st_resumeToken r; st_ready :=
     st_ready r; st_freemods := st_freemods r; st_joinSeq := st_joinSeq r; st_status := st_status
     r; st_lastSeq := st_lastSeq r; st_batches := st_batches r; st_eventCount := st_eventCount r;
     st_finishedAtMs := st_finishedAtMs r; st_lastBatchMs := st_lastBatchMs r; st_activeBuckets
     := v; st_lastBucket := st_lastBucket r; st_disconnected := st_disconnected r; st_backlog :=
     st_backlog r; st_grace := st_grace r |}.
Definition set_st_lastBucket (v : Z) (r : seat) : seat :=
  {| st_sess := st_sess r; st_playerID := st_playerID r; st_nick := st_nick r; st_isGuest :=
     st_isGuest r; st_userID := st_userID r; st_resumeToken := st_resumeToken r; st_ready :=
     st_ready r; st_freemods := st_freemods r; st_joinSeq := st_joinSeq r; st_status := st_status
     r; st_lastSeq := st_lastSeq r; st_batches := st_batches r; st_eventCount := st_eventCount r;
     st_finishedAtMs := st_finishedAtMs r; st_lastBatchMs := st_lastBatchMs r; st_activeBuckets
     := st_activeBuckets r; st_lastBucket := v; st_disconnected := st_disconnected r; st_backlog
     := st_backlog r; st_grace := st_grace r |}.
Definition set_st_disconnected (v : bool) (r : seat) : seat :=
  {| st_sess := st_sess r; st_playerID := st_playerID r; st_nick := st_nick r; st_isGuest :=
     st_isGuest r; st_userID := st_userID r; st_resumeToken := st_resumeToken r; st_ready :=
     st_ready r; st_freemods := st_freemods r; st_joinSeq := st_joinSeq r; st_status := st_status
     r; st_lastSeq := st_lastSeq r; st_batches := st_batches r; st_eventCount := st_eventCount r;
     st_finishedAtMs := st_finishedAtMs r; st_lastBatchMs := st_lastBatchMs r; st_activeBuckets
     := st_activeBuckets r; st_lastBucket := st_lastBucket r; st_disconnected := v; st_backlog :=
     st_backlog r; st_grace := st_grace r |}.
Definition set_st_backlog (v : list frame) (r : seat) : seat :=
  {| st_sess := st_sess r; st_playerID := st_playerID r; st_nick := st_nick r; st_isGuest :=
     st_isGuest r; st_userID := st_userID r; st_resumeToken := st_resumeToken r; st_ready :=
     st_ready r; st_freemods := st_freemods r; st_joinSeq := st_joinSeq r; st_status := st_status
     r; st_lastSeq := st_lastSeq r; st_batches := st_batches r; st_eventCount := st_eventCount r;
     st_finishedAtMs := st_finishedAtMs r; st_lastBatchMs := st_lastBatchMs r; st_activeBuckets
     := st_activeBuckets r; st_lastBucket := st_lastBucket r; st_disconnected := st_disconnected
     r; st_backlog := v; st_grace := st_grace r |}.
Definition set_st_grace (v : bool) (r : seat) : seat :=
  {| st_sess := st_sess r; st_playerID := st_playerID r; st_nick := st_nick r; st_isGuest :=
     st_isGuest r; st_userID := st_userID r; st_resumeToken := st_resumeToken r; st_ready :=
     st_ready r; st_freemods := st_freemods r; st_joinSeq := st_joinSeq r; st_status := st_status
     r; st_lastSeq := st_lastSeq r; st_batches := st_batches r; st_eventCount := st_eventCount r;
     st_finishedAtMs := st_finishedAtMs r; st_lastBatchMs := st_lastBatchMs r; st_activeBuckets
     := st_activeBuckets r; st_lastBucket := st_lastBucket r; st_disconnected := st_disconnected
     r; st_backlog := st_backlog r; st_grace := v |}.

Definition set_m_id (v : string) (r : matchState) : matchState :=
  {| m_id := v; m_seed := m_seed r; m_goAtMs := m_goAtMs r; m_settings := m_settings r; m_players
     := m_players r; m_roster := m_roster r; m_deadline := m_deadline r; m_finishWindow :=
     m_finishWindow r; m_afkSweep := m_afkSweep r; m_ended := m_ended r |}.
Definition set_m_seed (v : Z) (r : matchState) : matchState :=
  {| m_id := m_id r; m_seed := v; m_goAtMs := m_goAtMs r; m_settings := m_settings r; m_players
     := m_players r; m_roster := m_roster r; m_deadline := m_deadline r; m_finishWindow :=
     m_finishWindow r; m_afkSweep := m_afkSweep r; m_ended := m_ended r |}.
Definition set_m_goAtMs (v : Z) (r : matchState) : matchState :=
  {| m_id := m_id r; m_seed := m_seed r; m_goAtMs := v; m_settings := m_settings r; m_players :=
     m_players r; m_roster := m_roster r; m_deadline := m_deadline r; m_finishWindow :=
     m_finishWindow r; m_afkSweep := m_afkSweep r; m_ended := m_ended r |}.
Definition set_m_settings (v : Settings) (r : matchState) : matchState :=
  {| m_id := m_id r; m_seed := m_seed r; m_goAtMs := m_goAtMs r; m_settings := v; m_players :=
     m_players r; m_roster := m_roster r; m_deadline := m_deadline r; m_finishWindow :=
     m_finishWindow r; m_afkSweep := m_afkSweep r; m_ended := m_ended r |}.
Definition set_m_players (v : list CountdownPlayer) (r : matchState) : matchState :=
  {| m_id := m_id r; m_seed := m_seed r; m_goAtMs := m_goAtMs r; m_settings := m_settings r;
     m_players := v; m_roster := m_roster r; m_deadline := m_deadline r; m_finishWindow :=
     m_finishWindow r; m_afkSweep := m_afkSweep r; m_ended := m_ended r |}.
Definition set_m_roster (v : list seatref) (r : matchState) : matchState :=
  {| m_id := m_id r; m_seed := m_seed r; m_goAtMs := m_goAtMs r; m_settings := m_settings r;
     m_players := m_players r; m_roster := v; m_deadline := m_deadline r; m_finishWindow :=
     m_finishWindow r; m_afkSweep := m_afkSweep r; m_ended := m_ended r |}.
Definition set_m_deadline (v : option Z) (r : matchState) : matchState :=
  {| m_id := m_id r; m_seed := m_seed r; m_goAtMs := m_goAtMs r; m_settings := m_settings r;
     m_players := m_players r; m_roster := m_roster r; m_deadline := v; m_finishWindow :=
     m_finishWindow r; m_afkSweep := m_afkSweep r; m_ended := m_ended r |}.
Definition set_m_finishWindow (v : option Z) (r : matchState) : matchState :=
  {| m_id := m_id r; m_seed := m_seed r; m_goAtMs := m_goAtMs r; m_settings := m_settings r;
     m_players := m_players r; m_roster := m_roster r; m_deadline := m_deadline r; m_finishWindow
     := v; m_afkSweep := m_afkSweep r; m_ended := m_ended r |}.
Definition set_m_afkSweep (v : bool) (r : matchState) : matchState :=
  {| m_id := m_id r; m_seed := m_seed r; m_goAtMs := m_goAtMs r; m_settings := m_settings r;
     m_players := m_players r; m_roster := m_roster r; m_deadline := m_deadline r; m_finishWindow
     := m_finishWindow r; m_afkSweep := v; m_ended := m_ended r |}.
Definition set_m_ended (v : bool) (r : matchState) : matchState :=
  {| m_id := m_id r; m_seed := m_seed r; m_goAtMs := m_goAtMs r; m_settings := m_settings r;
     m_players := m_players r; m_roster := m_roster r; m_deadline := m_deadline r; m_finishWindow
     := m_finishWindow r; m_afkSweep := m_afkSweep r; m_ended := v |}.

Definition set_r_code (v : string) (r : Room) : Room :=
  {| r_code := v; r_lastActivityMs := r_lastActivityMs r; r_idleWarned := r_idleWarned r;
     r_createdAt := r_createdAt r; r_settings := r_settings r; r_seats := r_seats r; r_hostID :=
     r_hostID r; r_inMatch := r_inMatch r; r_match := r_match r; r_nextSeq := r_nextSeq r |}.
Definition set_r_lastActivityMs (v : Z) (r : Room) : Room :=
  {| r_code := r_code r; r_lastActivityMs := v; r_idleWarned := r_idleWarned r; r_createdAt :=
     r_createdAt r; r_settings := r_settings r; r_seats := r_seats r; r_hostID := r_hostID r;
     r_inMatch := r_inMatch r; r_match := r_match r; r_nextSeq := r_nextSeq r |}.
Definition set_r_idleWarned (v : bool) (r : Room) : Room :=
  {| r_code := r_code r; r_lastActivityMs := r_lastActivityMs r; r_idleWarned := v; r_createdAt
     := r_createdAt r; r_settings := r_settings r; r_seats := r_seats r; r_hostID := r_hostID r;
     r_inMatch := r_inMatch r; r_match := r_match r; r_nextSeq := r_nextSeq r |}.
Definition set_r_createdAt (v : Z) (r : Room) : Room :=
  {| r_code := r_code r; r_lastActivityMs := r_lastActivityMs r; r_idleWarned := r_idleWarned r;
     r_createdAt := v; r_settings := r_settings r; r_seats := r_seats r; r_hostID := r_hostID r;
     r_inMatch := r_inMatch r; r_match := r_match r; r_nextSeq := r_nextSeq r |}.
Definition set_r_settings (v : Settings) (r : Room) : Room :=
  {| r_code := r_code r; r_lastActivityMs := r_lastActivityMs r; r_idleWarned := r_idleWarned r;
     r_createdAt := r_createdAt r; r_settings := v; r_seats := r_seats r; r_hostID := r_hostID r;
     r_inMatch := r_inMatch r; r_match := r_match r; r_nextSeq := r_nextSeq r |}.
Definition set_r_seats (v : list seatref) (r : Room) : Room :=
  {| r_code := r_code r; r_lastActivityMs := r_lastActivityMs r; r_idleWarned := r_idleWarned r;
     r_createdAt := r_createdAt r; r_settings := r_settings r; r_seats := v; r_hostID := r_hostID
     r; r_inMatch := r_inMatch r; r_match := r_match r; r_nextSeq := r_nextSeq r |}.
Definition set_r_hostID (v : string) (r : Room) : Room :=
  {| r_code := r_code r; r_lastActivityMs := r_lastActivityMs r; r_idleWarned := r_idleWarned r;
     r_createdAt := r_createdAt r; r_settings := r_settings r; r_seats := r_seats r; r_hostID :=
     v; r_inMatch := r_inMatch r; r_match := r_match r; r_nextSeq := r_nextSeq r |}.
Definition set_r_inMatch (v : bool) (r : Room) : Room :=
  {| r_code := r_code r; r_lastActivityMs := r_lastActivityMs r; r_idleWarned := r_idleWarned r;
     r_createdAt := r_createdAt r; r_settings := r_settings r; r_seats := r_seats r; r_hostID :=
     r_hostID r; r_inMatch := v; r_match := r_match r; r_nextSeq := r_nextSeq r |}.
Definition set_r_match (v : option matchState) (r : Room) : Room :=
  {| r_code := r_code r; r_lastActivityMs := r_lastActivityMs r; r_idleWarned := r_idleWarned r;
     r_createdAt := r_createdAt r; r_settings := r_settings r; r_seats := r_seats r; r_hostID :=
     r_hostID r; r_inMatch := r_inMatch r; r_match := v; r_nextSeq := r_nextSeq r |}.
Definition set_r_nextSeq (v : Z) (r : Room) : Room :=
  {| r_code := r_code r; r_lastActivityMs := r_lastActivityMs r; r_idleWarned := r_idleWarned r;
     r_createdAt := r_createdAt r; r_settings := r_settings r; r_seats := r_seats r; r_hostID :=
     r_hostID r; r_inMatch := r_inMatch r; r_match := r_match r; r_nextSeq := v |}.

Definition set_ss_authed (v : bool) (r : session) : session :=
  {| ss_authed := v; ss_displayName := ss_displayName r; ss_userID := ss_userID r; ss_helloDone
     := ss_helloDone r; ss_playerID := ss_playerID r; ss_resumeToken := ss_resumeToken r; ss_room
     := ss_room r; ss_commands := ss_commands r; ss_batches := ss_batches r; ss_chats := ss_chats
     r; ss_displacedAs := ss_displacedAs r; ss_outbound := ss_outbound r; ss_written :=
     ss_written r; ss_ctxDone := ss_ctxDone r |}.
Definition set_ss_displayName (v : string) (r : session) : session :=
  {| ss_authed := ss_authed r; ss_displayName := v; ss_userID := ss_userID r; ss_helloDone :=
     ss_helloDone r; ss_playerID := ss_playerID r; ss_resumeToken := ss_resumeToken r; ss_room :=
     ss_room r; ss_commands := ss_commands r; ss_batches := ss_batches r; ss_chats := ss_chats r;
     ss_displacedAs := ss_displacedAs r; ss_outbound := ss_outbound r; ss_written := ss_written
     r; ss_ctxDone := ss_ctxDone r |}.
Definition set_ss_userID (v : string) (r : session) : session :=
  {| ss_authed := ss_authed r; ss_displayName := ss_displayName r; ss_userID := v; ss_helloDone
     := ss_helloDone r; ss_playerID := ss_playerID r; ss_resumeToken := ss_resumeToken r; ss_room
     := ss_room r; ss_commands := ss_commands r; ss_batches := ss_batches r; ss_chats := ss_chats
     r; ss_displacedAs := ss_displacedAs r; ss_outbound := ss_outbound r; ss_written :=
     ss_written r; ss_ctxDone := ss_ctxDone r |}.
Definition set_ss_helloDone (v : bool) (r : session) : session :=
  {| ss_authed := ss_authed r; ss_displayName := ss_displayName r; ss_userID := ss_userID r;
     ss_helloDone := v; ss_playerID := ss_playerID r; ss_resumeToken := ss_resumeToken r; ss_room
     := ss_room r; ss_commands := ss_commands r; ss_batches := ss_batches r; ss_chats := ss_chats
     r; ss_displacedAs := ss_displacedAs r; ss_outbound := ss_outbound r; ss_written :=
     ss_written r; ss_ctxDone := ss_ctxDone r |}.
Definition set_ss_playerID (v : string) (r : session) : session :=
  {| ss_authed := ss_authed r; ss_displayName := ss_displayName r; ss_userID := ss_userID r;
     ss_helloDone := ss_helloDone r; ss_playerID := v; ss_resumeToken := ss_resumeToken r;
     ss_room := ss_room r; ss_commands := ss_commands r; ss_batches := ss_batches r; ss_chats :=
     ss_chats r; ss_displacedAs := ss_displacedAs r; ss_outbound := ss_outbound r; ss_written :=
     ss_written r; ss_ctxDone := ss_ctxDone r |}.
Definition set_ss_resumeToken (v : string) (r : session) : session :=
  {| ss_authed := ss_authed r; ss_displayName := ss_displayName r; ss_userID := ss_userID r;
     ss_helloDone := ss_helloDone r; ss_playerID := ss_playerID r; ss_resumeToken := v; ss_room
     := ss_room r; ss_commands := ss_commands r; ss_batches := ss_batches r; ss_chats := ss_chats
     r; ss_displacedAs := ss_displacedAs r; ss_outbound := ss_outbound r; ss_written :=
     ss_written r; ss_ctxDone := ss_ctxDone r |}.
Definition set_ss_room (v : option nat) (r : session) : session :=
  {| ss_authed := ss_authed r; ss_displayName := ss_displayName r; ss_userID := ss_userID r;
     ss_helloDone := ss_helloDone r; ss_playerID := ss_playerID r; ss_resumeToken :=
     ss_resumeToken r; ss_room := v; ss_commands := ss_commands r; ss_batches := ss_batches r;
     ss_chats := ss_chats r; ss_displacedAs := ss_displacedAs r; ss_outbound := ss_outbound r;
     ss_written := ss_written r; ss_ctxDone := ss_ctxDone r |}.
Definition set_ss_commands (v : bucket) (r : session) : session :=
  {| ss_authed := ss_authed r; ss_displayName := ss_displayName r; ss_userID := ss_userID r;
     ss_helloDone := ss_helloDone r; ss_playerID := ss_playerID r; ss_resumeToken :=
     ss_resumeToken r; ss_room := ss_room r; ss_commands := v; ss_batches := ss_batches r;
     ss_chats := ss_chats r; ss_displacedAs := ss_displacedAs r; ss_outbound := ss_outbound r;
     ss_written := ss_written r; ss_ctxDone := ss_ctxDone r |}.
Definition set_ss_batches (v : bucket) (r : session) : session :=
  {| ss_authed := ss_authed r; ss_displayName := ss_displayName r; ss_userID := ss_userID r;
     ss_helloDone := ss_helloDone r; ss_playerID := ss_playerID r; ss_resumeToken :=
     ss_resumeToken r; ss_room := ss_room r; ss_commands := ss_commands r; ss_batches := v;
     ss_chats := ss_chats r; ss_displacedAs := ss_displacedAs r; ss_outbound := ss_outbound r;
     ss_written := ss_written r; ss_ctxDone := ss_ctxDone r |}.
Definition set_ss_chats (v : bucket) (r : session) : session :=
  {| ss_authed := ss_authed r; ss_displayName := ss_displayName r; ss_userID := ss_userID r;
     ss_helloDone := ss_helloDone r; ss_playerID := ss_playerID r; ss_resumeToken :=
     ss_resumeToken r; ss_room := ss_room r; ss_commands := ss_commands r; ss_batches :=
     ss_batches r; ss_chats := v; ss_displacedAs := ss_displacedAs r; ss_outbound := ss_outbound
     r; ss_written := ss_written r; ss_ctxDone := ss_ctxDone r |}.
Definition set_ss_displacedAs (v : option closeReason) (r : session) : session :=
  {| ss_authed := ss_authed r; ss_displayName := ss_displayName r; ss_userID := ss_userID r;
     ss_helloDone := ss_helloDone r; ss_playerID := ss_playerID r; ss_resumeToken :=
     ss_resumeToken r; ss_room := ss_room r; ss_commands := ss_commands r; ss_batches :=
     ss_batches r; ss_chats := ss_chats r; ss_displacedAs := v; ss_outbound := ss_outbound r;
     ss_written := ss_written r; ss_ctxDone := ss_ctxDone r |}.
Definition set_ss_outbound (v : list frame) (r : session) : session :=
  {| ss_authed := ss_authed r; ss_displayName := ss_displayName r; ss_userID := ss_userID r;
     ss_helloDone := ss_helloDone r; ss_playerID := ss_playerID r; ss_resumeToken :=
     ss_resumeToken r; ss_room := ss_room r; ss_commands := ss_commands r; ss_batches :=
     ss_batches r; ss_chats := ss_chats r; ss_displacedAs := ss_displacedAs r; ss_outbound := v;
     ss_written := ss_written r; ss_ctxDone := ss_ctxDone r |}.
Definition set_ss_written (v : list frame) (r : session) : session :=
  {| ss_authed := ss_authed r; ss_displayName := ss_displayName r; ss_userID := ss_userID r;
     ss_helloDone := ss_helloDone r; ss_playerID := ss_playerID r; ss_resumeToken :=
     ss_resumeToken r; ss_room := ss_room r; ss_commands := ss_commands r; ss_batches :=
     ss_batches r; ss_chats := ss_chats r; ss_displacedAs := ss_displacedAs r; ss_outbound :=
     ss_outbound r; ss_written := v; ss_ctxDone := ss_ctxDone r |}.
Definition set_ss_ctxDone (v : bool) (r : session) : session :=
  {| ss_authed := ss_authed r; ss_displayName := ss_displayName r; ss_userID := ss_userID r;
     ss_helloDone := ss_helloDone r; ss_playerID := ss_playerID r; ss_resumeToken :=
     ss_resumeToken r; ss_room := ss_room r; ss_commands := ss_commands r; ss_batches :=
     ss_batches r; ss_chats := ss_chats r; ss_displacedAs := ss_displacedAs r; ss_outbound :=
     ss_outbound r; ss_written := ss_written r; ss_ctxDone := v |}.

Definition set_reg_rooms (v : gmap string nat) (r : Registry) : Registry :=
  {| reg_rooms := v; reg_graces := reg_graces r; reg_users := reg_users r |}.
Definition set_reg_graces (v : list graceEntry) (r : Registry) : Registry :=
  {| reg_rooms := reg_rooms r; reg_graces := v; reg_users := reg_users r |}.
Definition set_reg_users (v : gmap string (nat * seatref)) (r : Registry) : Registry :=
  {| reg_rooms := reg_rooms r; reg_graces := reg_graces r; reg_users := v |}.

Definition set_c_seats (v : gmap seatref seat) (r : core) : core :=
  {| c_seats := v; c_rooms := c_rooms r; c_reg := c_reg r; c_nextSeat := c_nextSeat r; c_nextRoom
     := c_nextRoom r |}.
Definition set_c_rooms (v : gmap nat Room) (r : core) : core :=
  {| c_seats := c_seats r; c_rooms := v; c_reg := c_reg r; c_nextSeat := c_nextSeat r; c_nextRoom
     := c_nextRoom r |}.
Definition set_c_reg (v : Registry) (r : core) : core :=
  {| c_seats := c_seats r; c_rooms := c_rooms r; c_reg := v; c_nextSeat := c_nextSeat r;
     c_nextRoom := c_nextRoom r |}.
Definition set_c_nextSeat (v : nat) (r : core) : core :=
  {| c_seats := c_seats r; c_rooms := c_rooms r; c_reg := c_reg r; c_nextSeat := v; c_nextRoom :=
     c_nextRoom r |}.
Definition set_c_nextRoom (v : nat) (r : core) : core :=
  {| c_seats := c_seats r; c_rooms := c_rooms r; c_reg := c_reg r; c_nextSeat := c_nextSeat r;
     c_nextRoom := v |}.

Definition set_w_core (v : core) (r : world) : world :=
  {| w_core := v; w_sess := w_sess r; w_persists := w_persists r; w_restricted := w_restricted r;
     w_tick := w_tick r |}.
Definition set_w_sess (v : gmap nat session) (r : world) : world :=
  {| w_core := w_core r; w_sess := v; w_persists := w_persists r; w_restricted := w_restricted r;
     w_tick := w_tick r |}.
Definition set_w_persists (v : list matchSnapshot) (r : world) : world :=
  {| w_core := w_core r; w_sess := w_sess r; w_persists := v; w_restricted := w_restricted r;
     w_tick := w_tick r |}.
Definition set_w_restricted (v : option (string -> bool)) (r : world) : world :=
  {| w_core := w_core r; w_sess := w_sess r; w_persists := w_persists r; w_restricted := v;
     w_tick := w_tick r |}.
Definition set_w_tick (v : nat) (r : world) : world :=
  {| w_core := w_core r; w_sess := w_sess r; w_persists := w_persists r; w_restricted :=
     w_restricted r; w_tick := v |}.

(** ** Dereferences and assignments through pointers *)

Definition getSeat (w : world) (s : seatref) : seat := c_seats (w_core w) !!! s.
Definition getRoom (w : world) (r : nat) : Room := c_rooms (w_core w) !!! r.
Definition getSess (w : world) (s : nat) : session := w_sess w !!! s.
Definition getReg (w : world) : Registry := c_reg (w_core w).

(** Updates of the protected state. *)
Definition c_updSeat (s : seatref) (f : seat -> seat) (c : core) : core :=
  set_c_seats (store_upd s f (c_seats c)) c.
Definition c_updRoom (r : nat) (f : Room -> Room) (c : core) : core :=
  set_c_rooms (store_upd r f (c_rooms c)) c.
Definition c_updReg (f : Registry -> Registry) (c : core) : core := set_c_reg (f (c_reg c)) c.

Definition updCore (f : core -> core) (w : world) : world := set_w_core (f (w_core w)) w.
Definition updSeat (s : seatref) (f : seat -> seat) : world -> world := updCore (c_updSeat s f).
Definition updRoom (r : nat) (f : Room -> Room) : world -> world := updCore (c_updRoom r f).
Definition updReg (f : Registry -> Registry) : world -> world := updCore (c_updReg f).
Definition updSess (s : nat) (f : session -> session) (w : world) : world :=
  set_w_sess (store_upd s f (w_sess w)) w.

(** ** Time and randomness *)

Section env.
Context `{Env}.

Definition ticked (w : world) : world := set_w_tick (S (w_tick w)) w.

Definition nowMs (w : world) : Z * world := (now_ms (w_tick w), ticked w).
Definition nowNs (w : world) : Z * world := (now_ns (w_tick w), ticked w).
Definition randRead (n : nat) (w : world) : list Z * world := (rand_read (w_tick w) n, ticked w).
End env.
