(* ===== verification/WsRoom.v ===== *)
(** * internal/ws: the room under its lock

    The locked helpers of room.go, the system chat, the touch of room_idle.go and
    the account index and grace list of registry.go they maintain.  A function
    takes the world and answers the new one; [room] is the receiver's pointer. *)

From S2P Require Import Prelude GoStd Json Protocol Ratelimit WsState.

Open Scope Z_scope.

Section room.
Context `{Env}.

(** ** session.trySend / session.send *)

(** The writer goroutine takes the oldest queued frame and writes it. *)
Definition writeOne (s : session) : session :=
  match ss_outbound s with
  | [] => s
  | f :: q => set_ss_outbound q (set_ss_written (ss_written s ++ [f]) s)
  end.

(** Non-blocking enqueue: a full queue drops the frame. *)
Definition trySend (sid : nat) (msg : frame) (w : world) : world :=
  updSess sid (fun s =>
    if (length (ss_outbound s) <? outboundBuffer)%nat
    then set_ss_outbound (ss_outbound s ++ [msg]) s else s) w.

(** Blocking enqueue: waits for the writer to make room, unless the connection's
    context is done, in which case the frame is dropped.  With both a free slot
    and a done context Go's [select] picks either. *)
Definition send (sid : nat) (msg : frame) (w : world) : world :=
  let s := getSess w sid in
  let full := (outboundBuffer <=? length (ss_outbound s))%nat in
  if ss_ctxDone s && (full || select_coin (w_tick w)) then ticked w
  else
    let w := ticked w in
    let w := if full then updSess sid writeOne w else w in
    updSess sid (fun s => set_ss_outbound (ss_outbound s ++ [msg]) s) w.

(** ** registry.go: the account index and the grace list *)

Definition indexSeat (room : nat) (st : seatref) (w : world) : world :=
  if st_userID (getSeat w st) =s? "" then w
  else updReg (fun g => set_reg_users
         (<[st_userID (getSeat w st) := (room, st)]> (reg_users g)) g) w.

Definition unindexSeat (st : seatref) (w : world) : world :=
  if st_userID (getSeat w st) =s? "" then w
  else match reg_users (getReg w) !! st_userID (getSeat w st) with
       | Some ref =>
         if decide (ref.2 = st)
         then updReg (fun g => set_reg_users (delete (st_userID (getSeat w st)) (reg_users g)) g) w
         else w
       | None => w
       end.

Definition seatOfUser (userID : string) (w : world) : option (nat * seatref) :=
  if userID =s? "" then None else reg_users (getReg w) !! userID.

Definition addGrace (token : string) (room : nat) (st : seatref) (w : world) : world :=
  updReg (fun g => set_reg_graces
    (reg_graces g ++ [{| g_token := token; g_room := room; g_seat := st |}]) g) w.

(** The first entry with the token is taken out and handed over. *)
Definition claimGrace (token : string) (w : world) : option (nat * seatref) * world :=
  match find_index (fun e => g_token e =s? token) (reg_graces (getReg w)) with
  | Some i =>
    match reg_graces (getReg w) !! i with
    | Some e =>
      (Some (g_room e, g_seat e),
       updReg (fun g => set_reg_graces (cut_at i (reg_graces g)) g) w)
    | None => (None, w)
    end
  | None => (None, w)
  end.

Definition removeGrace (token : string) (w : world) : world :=
  match find_index (fun e => g_token e =s? token) (reg_graces (getReg w)) with
  | Some i => updReg (fun g => set_reg_graces (cut_at i (reg_graces g)) g) w
  | None => w
  end.

(** ** room_idle.go *)

Definition touchLocked (room : nat) (w : world) : world :=
  let '(now, w) := nowMs w in
  updRoom room (fun r => set_r_idleWarned false (set_r_lastActivityMs now r)) w.

(** (warn, expire) *)
Definition idleStateLocked (r : Room) (now : Z) : bool * bool :=
  if r_inMatch r then (false, false)
  else
    let idle := now - r_lastActivityMs r in
    if roomIdleTimeout <=? idle then (false, true)
    else if (roomIdleTimeout - roomIdleWarning <=? idle) && negb (r_idleWarned r)
    then (true, false)
    else (false, false).

(** ** room.go: seats *)

Definition findSeatLocked (room : nat) (sess : nat) (w : world) : option seatref :=
  find_first (fun s => bool_decide (st_sess (getSeat w s) = Some sess)) (r_seats (getRoom w room)).

Definition findSeatByIDLocked (room : nat) (playerID : string) (w : world) : option seatref :=
  find_first (fun s => st_playerID (getSeat w s) =s? playerID) (r_seats (getRoom w room)).

Definition seatIndexByIDLocked (room : nat) (playerID : string) (w : world) : option nat :=
  find_index (fun s => st_playerID (getSeat w s) =s? playerID) (r_seats (getRoom w room)).

(** [idx] is in range at every call. *)
Definition removeSeatLocked (room : nat) (idx : nat) (w : world) : world :=
  match r_seats (getRoom w room) !! idx with
  | Some s =>
    updRoom room (fun r => set_r_seats (cut_at idx (r_seats r)) r) (unindexSeat s w)
  | None => w
  end.

Definition removeFromSeatsLocked (room : nat) (target : seatref) (w : world) : world :=
  match find_index (fun s => bool_decide (s = target)) (r_seats (getRoom w room)) with
  | Some i => removeSeatLocked room i w
  | None => w
  end.

Definition reassignHostLocked (room : nat) (w : world) : world :=
  match r_seats (getRoom w room) with
  | [] => updRoom room (set_r_hostID "") w
  | s :: _ => updRoom room (set_r_hostID (st_playerID (getSeat w s))) w
  end.

Definition hostNickLocked (room : nat) (w : world) : string :=
  match findSeatByIDLocked room (r_hostID (getRoom w room)) w with
  | Some s => st_nick (getSeat w s)
  | None => ""
  end.

(** ** room.go: frames *)

Definition deliverLocked (st : seatref) (msg : frame) (w : world) : world :=
  match st_sess (getSeat w st) with
  | Some sid => trySend sid msg w
  | None => w
  end.

Definition errLocked (sess : nat) (code message : string) (w : world) : world :=
  trySend sess (FError (NewError code message)) w.

Definition playerOf (w : world) (s : seatref) : Player :=
  let st := getSeat w s in
  {| pl_playerId := st_playerID st; pl_nick := st_nick st; pl_isGuest := st_isGuest st;
     pl_ready := st_ready st; pl_freemods := st_freemods st |}.

Definition stateLocked (room : nat) (w : world) : RoomState :=
  let r := getRoom w room in
  {| rs_type := TypeRoomState; rs_code := r_code r; rs_name := Name (r_settings r);
     rs_visibility := Visibility (r_settings r); rs_hostPlayerId := r_hostID r;
     rs_settings := r_settings r; rs_players := playerOf w <$> r_seats r;
     rs_match :=
       match r_match r with
       | Some m => if m_ended m then None
                   else Some {| rm_matchId := m_id m; rm_goAtServerMs := m_goAtMs m |}
       | None => None
       end |}.

(** Run a step for each seat in order. *)
Definition forSeats (l : list seatref) (f : seatref -> world -> world) (w : world) : world :=
  foldl (fun w s => f s w) w l.

Definition broadcastStateLocked (room : nat) (w : world) : world :=
  let state := stateLocked room w in
  forSeats (r_seats (getRoom w room)) (fun s => deliverLocked s (FRoomState state)) w.

(** [finished] is echoed to its subject; every other status goes to the peers. *)
Definition broadcastPeerStatusLocked (room : nat) (subjectID status : string) (w : world) : world :=
  match r_match (getRoom w room) with
  | None => w
  | Some m =>
    let msg := FPeerStatus {| ps_type := TypePeerStatus; ps_playerId := subjectID;
                              ps_status := status |} in
    let echoToSubject := status =s? StatusFinished in
    forSeats (m_roster m) (fun s w =>
      if (st_playerID (getSeat w s) =s? subjectID) && negb echoToSubject then w
      else match st_sess (getSeat w s) with
           | Some sid => if st_disconnected (getSeat w s) then w else trySend sid msg w
           | None => w
           end) w
  end.

(** room_chat.go *)
Definition systemChatLocked (room : nat) (kind text : string) (w : world) : world :=
  let '(ts, w) := nowMs w in
  let msg := FChat {| ch_type := TypeChat; ch_from := ChatFromSystem; ch_kind := kind;
                      ch_text := text; ch_ts := ts |} in
  forSeats (r_seats (getRoom w room)) (fun s => deliverLocked s msg) w.

(** ** room.go: identity *)

Definition nickTakenLocked (room : nat) (nick : string) (w : world) : bool :=
  existsb (fun s => st_nick (getSeat w s) =s? nick) (r_seats (getRoom w room)).

(** [fmt.Sprintf("Guest-%04d", n)]: the draws have four digits. *)
Definition guestNick (n : Z) : string := "Guest-" +:+ Strconv.Itoa n.

(** Draw until the nick is free; [fuel] bounds the draws. *)
Fixpoint uniqueGuestNickLocked (fuel : nat) (room : nat) (w : world) : option (string * world) :=
  match fuel with
  | O => None
  | S fuel =>
    let nick := guestNick (guestNickLow + rand_intn (w_tick w) guestNickCount) in
    let w := ticked w in
    if nickTakenLocked room nick w then uniqueGuestNickLocked fuel room w
    else Some (nick, w)
  end.

Definition identityLocked (room : nat) (sess : nat) (w : world) : option (string * bool * world) :=
  let s := getSess w sess in
  if ss_authed s && negb (ss_displayName s =s? "") then Some (ss_displayName s, false, w)
  else match uniqueGuestNickLocked loop_fuel room w with
       | Some (nick, w) => Some (nick, true, w)
       | None => None
       end.
End room.
