(* ===== verification/WsMatch.v ===== *)
(** * internal/ws: the match

    room_match.go, room_afk.go and room_persist.go: starting a match, relaying
    event batches, finishing, the deadline, the finish window, the AFK sweep and
    the end of a match, with the snapshot it hands to persistence. *)

From S2P Require Import Prelude GoStd Json Protocol Ratelimit WsState WsRoom.
From Stdlib Require Import Strings.Ascii.

Open Scope Z_scope.

(** [hex.EncodeToString] *)
Definition hex_digit (n : Z) : ascii :=
  Ascii.ascii_of_N (Z.to_N (if n <? 10 then 48 + n else 87 + n)).
Fixpoint hex_encode (bs : list Z) : string :=
  match bs with
  | [] => EmptyString
  | b :: bs => String (hex_digit (b / 16)) (String (hex_digit (b mod 16)) (hex_encode bs))
  end.

(** [binary.BigEndian.Uint32] *)
Definition be_uint32 (bs : list Z) : Z := foldl (fun acc b => acc * 256 + b) 0 (take 4 bs).

(** ** room_afk.go *)

(** Whole buckets of the window without an accepted batch, in ms, and their share. *)
Definition afkAtLocked (st : seat) (goAtMs endMs : Z) : Z * F64.f64 :=
  let buckets := Z.quot (endMs - goAtMs) AfkBucketMs in
  if buckets <=? 0 then (0, F64.zero)
  else
    let idle := buckets - st_activeBuckets st in
    let idle := if idle <? 0 then 0 else idle in
    (idle * AfkBucketMs, F64.div (F64.of_Z idle) (F64.of_Z buckets)).

Section match_ops.
Context `{Env}.

(** ** id.go, room_match.go: identifiers *)

Definition newID (w : world) : string * world :=
  let '(b, w) := randRead 16 w in (hex_encode b, w).
Definition newResumeToken (w : world) : string * world :=
  let '(b, w) := randRead 32 w in (hex_encode b, w).
Definition newMatchID (w : world) : string * world :=
  let '(b, w) := randRead 6 w in ("m_" +:+ hex_encode b, w).
Definition newSeed (w : world) : Z * world :=
  let '(b, w) := randRead 4 w in (be_uint32 b, w).

(** A match's nominal length. *)
Definition matchDurationMs (s : Settings) : Z :=
  if IsCounted (Mode s) then WordCount s * t_wordMsPerWord timing else DurationMs s.

(** ** room_persist.go *)

(** An unresolved seat is reported dnf. *)
Definition finalStatus (st : seat) : string :=
  if st_status st =s? seatActive then StatusDNF else st_status st.

Definition runSnapshotOf (w : world) (s : seatref) : runSnapshot :=
  let st := getSeat w s in
  {| rsn_playerID := st_playerID st; rsn_nick := st_nick st; rsn_userID := st_userID st;
     rsn_freemods := st_freemods st; rsn_status := finalStatus st; rsn_batches := st_batches st |}.

Definition snapshotLocked (room : nat) (m : matchState) (w : world) : matchSnapshot * world :=
  let '(now, w) := nowMs w in
  ({| sn_id := m_id m; sn_roomCode := r_code (getRoom w room); sn_name := Name (m_settings m);
      sn_settings := m_settings m; sn_players := m_players m; sn_seed := m_seed m;
      sn_dictHash := DictHash (m_settings m); sn_lang := Lang (m_settings m);
      sn_goAtMs := m_goAtMs m; sn_endedAtMs := now;
      sn_runs := runSnapshotOf w <$> m_roster m |}, w).

(** ** room_match.go: the end of a match *)

Definition allTerminalLocked (room : nat) (w : world) : bool :=
  match r_match (getRoom w room) with
  | None => false
  | Some m => forallb (fun s => negb (st_status (getSeat w s) =s? seatActive)) (m_roster m)
  end.

Definition resultOf (w : world) (goAtMs endedAtMs : Z) (s : seatref) : MatchResult :=
  let st := getSeat w s in
  let status := finalStatus st in
  let windowEnd :=
    if (status =s? StatusFinished) && (0 <? st_finishedAtMs st) then st_finishedAtMs st
    else endedAtMs in
  let '(afkMs, afkShare) := afkAtLocked st goAtMs windowEnd in
  {| mr_playerId := st_playerID st; mr_status := status;
     mr_finishedAtMs := if status =s? StatusFinished then Some (st_finishedAtMs st) else None;
     mr_batchCount := Z.of_nat (length (st_batches st)); mr_eventCount := st_eventCount st;
     mr_afkMs := afkMs; mr_afkShare := afkShare |}.

(** A live seat gets the frame; a graced one still in the room keeps it for its
    resumer; a departed one gets nothing. *)
Definition deliverEnd (room : nat) (e : frame) (s : seatref) (w : world) : world :=
  match st_sess (getSeat w s) with
  | Some sid => trySend sid e w
  | None =>
    if st_disconnected (getSeat w s)
       && bool_decide (is_Some (seatIndexByIDLocked room (st_playerID (getSeat w s)) w))
    then updSeat s (fun st => set_st_backlog (st_backlog st ++ [e]) st) w
    else w
  end.

Definition resetSeat (st : seat) : seat :=
  let st := set_st_batches [] (set_st_lastSeq 0 (set_st_status "" (set_st_ready false st))) in
  if st_disconnected st then st else set_st_backlog [] st.

(** Backwards over the first [n] seats, dropping those whose connection is gone
    for good. *)
Fixpoint reapSeats (n : nat) (room : nat) (w : world) : world :=
  match n with
  | O => w
  | S i =>
    let w :=
      match r_seats (getRoom w room) !! i with
      | Some s =>
        if bool_decide (st_sess (getSeat w s) = None) && negb (st_disconnected (getSeat w s))
        then removeSeatLocked room i w else w
      | None => w
      end in
    reapSeats i room w
  end.

Definition stopTimers (m : matchState) : matchState :=
  set_m_afkSweep false (set_m_finishWindow None (set_m_deadline None (set_m_ended true m))).

Definition endMatchLocked (room : nat) (reason : string) (w : world) : world :=
  match r_match (getRoom w room) with
  | None => w
  | Some m =>
    if m_ended m then w
    else
      let w := updRoom room (set_r_match (Some (stopTimers m))) w in
      let '(endedAtMs, w) := nowMs w in
      let '(snap, w) := snapshotLocked room m w in
      let w := if has_store then set_w_persists (w_persists w ++ [snap]) w else w in
      let e := FMatchEnd {| me_type := TypeMatchEnd; me_matchId := m_id m; me_reason := reason;
                            me_results := resultOf w (m_goAtMs m) endedAtMs <$> m_roster m |} in
      let w := forSeats (m_roster m) (deliverEnd room e) w in
      let w := updRoom room (fun r => set_r_inMatch false (set_r_match None r)) w in
      let w := forSeats (r_seats (getRoom w room)) (fun s => updSeat s resetSeat) w in
      let w := reapSeats (length (r_seats (getRoom w room))) room w in
      let w := match findSeatByIDLocked room (r_hostID (getRoom w room)) w with
               | None => reassignHostLocked room w
               | Some _ => w
               end in
      if bool_decide (r_seats (getRoom w room) = []) then w
      else broadcastStateLocked room w
  end.

(** ** registry.go: dropping an empty room *)

Definition removeIfEmpty (code : string) (w : world) : world :=
  match reg_rooms (getReg w) !! code with
  | Some room =>
    if bool_decide (r_seats (getRoom w room) = [])
    then updReg (fun g => set_reg_rooms (delete code (reg_rooms g)) g) w
    else w
  | None => w
  end.

(** ** room_match.go: the start *)

Definition armSeat (goAt : Z) (st : seat) : seat :=
  set_st_backlog []
  (set_st_disconnected (bool_decide (st_sess st = None))
  (set_st_lastBucket (-1)
  (set_st_activeBuckets 0
  (set_st_lastBatchMs goAt
  (set_st_finishedAtMs 0
  (set_st_eventCount 0
  (set_st_batches []
  (set_st_lastSeq 0
  (set_st_status seatActive st))))))))).

Definition countdownPlayerOf (w : world) (s : seatref) : CountdownPlayer :=
  {| cp_playerId := st_playerID (getSeat w s); cp_freemods := st_freemods (getSeat w s) |}.

Definition startMatch (room sess : nat) (force : bool) (w : world) : world :=
  match findSeatLocked room sess w with
  | None => errLocked sess CodeNotInRoom "not in a room" w
  | Some st =>
    let r := getRoom w room in
    if negb (st_playerID (getSeat w st) =s? r_hostID r)
    then errLocked sess CodeForbidden "only the host can start the match" w
    else if r_inMatch r then errLocked sess CodeForbidden "a match is already running" w
    else if (length (r_seats r) <? 2)%nat
    then errLocked sess CodeNotReady "need at least two players" w
    else if negb force
            && existsb (fun s => negb (st_playerID (getSeat w s) =s? r_hostID r)
                                 && negb (st_ready (getSeat w s))) (r_seats r)
    then errLocked sess CodeNotReady "all players must be ready" w
    else
      let settings := r_settings r in
      let '(now, w) := nowMs w in
      let goAt := now + countdownLeadMs in
      let w := forSeats (r_seats r) (fun s => updSeat s (armSeat goAt)) w in
      let players := countdownPlayerOf w <$> r_seats r in
      let roster := r_seats r in
      let w := touchLocked room w in
      let '(id, w) := newMatchID w in
      let '(seed, w) := newSeed w in
      let endBy := goAt + matchDurationMs settings + t_deadlineSlackMs timing in
      let '(now, w) := nowMs w in
      let m := {| m_id := id; m_seed := seed; m_goAtMs := goAt; m_settings := settings;
                  m_players := players; m_roster := roster; m_deadline := Some (endBy - now);
                  m_finishWindow := None; m_afkSweep := true; m_ended := false |} in
      let w := updRoom room (fun r => set_r_inMatch true (set_r_match (Some m) r)) w in
      let cd := FCountdown {| cd_type := TypeCountdown; cd_matchId := id; cd_goAtServerMs := goAt;
                              cd_seed := seed; cd_settings := settings; cd_players := players |} in
      forSeats (r_seats r) (fun s => deliverLocked s cd) w
  end.

(** ** room_match.go: the relay *)

Definition acceptBatch (goAtMs recvMs : Z) (eb : EventBatch) (st : seat) : seat :=
  let st :=
    set_st_lastBatchMs recvMs
    (set_st_eventCount (st_eventCount st + Z.of_nat (length (eb_events eb)))
    (set_st_batches (st_batches st ++ [{| b_batchSeq := eb_batchSeq eb; b_recvServerMs := recvMs;
                                          b_events := eb_events eb |}])
    (set_st_lastSeq (eb_batchSeq eb) st))) in
  let bucket := Z.quot (recvMs - goAtMs) AfkBucketMs in
  if st_lastBucket st <? bucket
  then set_st_activeBuckets (st_activeBuckets st + 1) (set_st_lastBucket bucket st)
  else st.

Definition relayTo (st : seatref) (pb : frame) (other : seatref) (w : world) : world :=
  if bool_decide (other = st) then w
  else if st_disconnected (getSeat w other)
  then updSeat other (fun o => set_st_backlog (st_backlog o ++ [pb]) o) w
  else match st_sess (getSeat w other) with
       | Some sid => trySend sid pb w
       | None => w
       end.

Definition relayEventBatch (room sess : nat) (eb : EventBatch) (recvMs : Z) (w : world) : world :=
  match findSeatLocked room sess w with
  | None => errLocked sess CodeNotInRoom "not in a room" w
  | Some st =>
    match r_match (getRoom w room) with
    | None => errLocked sess CodeBadMessage "no active match" w
    | Some m =>
      let s := getSeat w st in
      if negb (eb_matchId eb =s? m_id m) then errLocked sess CodeBadMessage "unknown match" w
      else if negb (st_status s =s? seatActive)
      then errLocked sess CodeBadMessage "not an active participant" w
      else if (length (eb_events eb) =? 0)%nat
      then errLocked sess CodeBadMessage "event_batch has no events" w
      else if negb (eb_batchSeq eb =? st_lastSeq s + 1)
      then errLocked sess CodeBadMessage
             ("batchSeq " +:+ Strconv.Itoa (eb_batchSeq eb) +:+ " out of order (expected "
              +:+ Strconv.Itoa (st_lastSeq s + 1) +:+ ")") w
      else if maxCapturedEvents <? st_eventCount s + Z.of_nat (length (eb_events eb))
      then errLocked sess CodeBadMessage "event capture limit exceeded" w
      else
        let w := touchLocked room w in
        let w := updSeat st (acceptBatch (m_goAtMs m) recvMs eb) w in
        let pb := FPeerBatch {| pb_type := TypePeerBatch; pb_playerId := st_playerID s;
                                pb_version := eb_version eb; pb_events := eb_events eb |} in
        forSeats (m_roster m) (relayTo st pb) w
    end
  end.

(** ** room_match.go: finishing *)

Definition finish (room sess : nat) (matchID : string) (forfeit : bool) (w : world) : world :=
  match findSeatLocked room sess w with
  | None => errLocked sess CodeNotInRoom "not in a room" w
  | Some st =>
    match r_match (getRoom w room) with
    | None => errLocked sess CodeBadMessage "unknown match" w
    | Some m =>
      if negb (matchID =s? m_id m) then errLocked sess CodeBadMessage "unknown match" w
      else if negb (st_status (getSeat w st) =s? seatActive)
      then errLocked sess CodeBadMessage "already finished" w
      else if forfeit then
        let w := updSeat st (set_st_status StatusDNF) w in
        let w := broadcastPeerStatusLocked room (st_playerID (getSeat w st)) StatusDNF w in
        if allTerminalLocked room w then endMatchLocked room ReasonAllFinished w else w
      else
        let w := updSeat st (set_st_status StatusFinished) w in
        let '(now, w) := nowMs w in
        let w := updSeat st (set_st_finishedAtMs now) w in
        let w := broadcastPeerStatusLocked room (st_playerID (getSeat w st)) StatusFinished w in
        if allTerminalLocked room w then endMatchLocked room ReasonAllFinished w
        else if IsCounted (Mode (m_settings m)) && bool_decide (m_finishWindow m = None)
        then updRoom room (set_r_match (Some (set_m_finishWindow (Some (t_finishWindow timing)) m))) w
        else w
    end
  end.

(** ** room_match.go: timers *)

(** Every roster seat still racing is dnf'd, and its peers told. *)
Definition dnfRacing (room : nat) (roster : list seatref) (w : world) : world :=
  forSeats roster (fun s w =>
    if st_status (getSeat w s) =s? seatActive
    then broadcastPeerStatusLocked room (st_playerID (getSeat w s)) StatusDNF
           (updSeat s (set_st_status StatusDNF) w)
    else w) w.

(** The critical section of [onDeadline] and [onFinishWindow]: nothing, unless the
    timer's match is the one running. *)
Definition forceEnd (room : nat) (matchID reason : string) (w : world) : option world :=
  match r_match (getRoom w room) with
  | None => None
  | Some m =>
    if negb (m_id m =s? matchID) || m_ended m then None
    else Some (endMatchLocked room reason (dnfRacing room (m_roster m) w))
  end.

Definition onDeadline (room : nat) (matchID : string) (w : world) : world :=
  match forceEnd room matchID ReasonDeadline w with
  | None => w
  | Some w => removeIfEmpty (r_code (getRoom w room)) w
  end.

Definition onFinishWindow (room : nat) (matchID : string) (w : world) : world :=
  match forceEnd room matchID ReasonFinishWindow w with
  | None => w
  | Some w => removeIfEmpty (r_code (getRoom w room)) w
  end.

(** ** room_afk.go: the sweep *)

(** Whether the sweep takes this racing seat out at [now]. *)
Definition sweptOut (m : matchState) (judgeShare : bool) (now : Z) (st : seat) : bool :=
  (t_afkTrailingMs timing <=? now - st_lastBatchMs st)
  || (judgeShare && F64.leb (t_afkKickShare timing) (afkAtLocked st (m_goAtMs m) now).2).

Definition sweepSeat (room : nat) (m : matchState) (judgeShare : bool) (now : Z)
    (s : seatref) (acc : bool * world) : bool * world :=
  let '(kicked, w) := acc in
  let st := getSeat w s in
  if negb (st_status st =s? seatActive) || st_disconnected st then (kicked, w)
  else if sweptOut m judgeShare now st
  then (true, broadcastPeerStatusLocked room (st_playerID st) StatusDNF
                (updSeat s (set_st_status StatusDNF) w))
  else (kicked, w).

(** The critical section: (stop, ended, world). *)
Definition sweepLocked (room : nat) (matchID : string) (w : world) : bool * bool * world :=
  match r_match (getRoom w room) with
  | None => (true, false, w)
  | Some m =>
    if negb (m_id m =s? matchID) || m_ended m then (true, false, w)
    else
      let '(now, w) := nowMs w in
      let windowOldEnough := t_afkWarmupMs timing <=? now - m_goAtMs m in
      let judgeShare := IsCounted (Mode (m_settings m)) && windowOldEnough in
      let '(kicked, w) :=
        foldl (fun acc s => sweepSeat room m judgeShare now s acc) (false, w) (m_roster m) in
      if kicked && allTerminalLocked room w
      then (true, true, endMatchLocked room ReasonAllFinished w)
      else (false, false, w)
  end.

Definition sweepAfk (room : nat) (matchID : string) (w : world) : bool * world :=
  let '(stop, ended, w) := sweepLocked room matchID w in
  (stop, if ended then removeIfEmpty (r_code (getRoom w room)) w else w).
End match_ops.
