(* ===== verification/WsLobby.v ===== *)
(** * internal/ws: membership

    The rest of room.go (seat, leave, disconnect, reattach, the lobby commands,
    the grace timer), room_chat.go, room_idle.go's reaper, registry.go's
    create/join, and lobby.go's public list.

    Where the code releases the room lock in the middle of an operation, each
    critical section is a definition of its own ([disconnectPark],
    [disconnectArm], [reattachBind], [reattachPoll], [leaveLocked],
    [onGraceExpireLocked], ...) and the operation composes them. *)

From S2P Require Import Prelude GoStd Json Protocol Ratelimit WsState WsRoom WsMatch.
From Stdlib Require Import Strings.Ascii Sorting.Sorted.

Open Scope Z_scope.

(** registry.go: the whole decision about one create/join. *)
Record seatOutcome := {
  so_room : option nat; so_reclaim : option seatref; so_errCode : string }.

Definition outcomeError (code : string) : seatOutcome :=
  {| so_room := None; so_reclaim := None; so_errCode := code |}.

(** lobby.go *)
Record roomSettingsView := {
  v_mode : string; v_durationMs : option Z; v_wordCount : option Z; v_lang : string }.
Record roomView := {
  v_code : string; v_name : string; v_playerCount : Z; v_maxPlayers : Z; v_inMatch : bool;
  v_settings : roomSettingsView }.
Record lobbyEntry := { le_view : roomView; le_created : Z }.

Section lobby.
Context `{Env}.

(** ** session.go: displace *)

(** Only the first displacement leaves a reason and an error frame behind. *)
Definition displace (sid : nat) (w : world) : world :=
  match ss_displacedAs (getSess w sid) with
  | Some _ => w
  | None =>
    let w := updSess sid (set_ss_displacedAs
      (Some {| cr_code := closeSeatTakenOver;
               cr_reason := "seat taken over by a newer connection" |})) w in
    trySend sid (FError (NewError CodeSeatTakenOver
                           "this account took the seat on another connection")) w
  end.

Definition displaceLocked (old : option nat) (w : world) : world :=
  match old with Some sid => displace sid w | None => w end.

(** ** room.go: seat, leave *)

(** [None]: still drawing nicks. *)
Definition seatRoom (room sess : nat) (asHost : bool) (w : world) : option (bool * world) :=
  if (roomCapacity <=? length (r_seats (getRoom w room)))%nat then Some (false, w)
  else
    match identityLocked room sess w with
    | None => None
    | Some (nick, isGuest, w) =>
      let s := getSess w sess in
      let joinSeq := r_nextSeq (getRoom w room) in
      let st : seatref := (room, c_nextSeat (w_core w)) in
      let w := updCore (fun c => set_c_nextSeat (S (c_nextSeat c)) c) w in
      let w := updSeat st (fun _ =>
        set_st_sess (Some sess) (set_st_playerID (ss_playerID s) (set_st_nick nick
        (set_st_isGuest isGuest (set_st_userID (ss_userID s)
        (set_st_resumeToken (ss_resumeToken s) (set_st_freemods DefaultFreemods
        (set_st_joinSeq joinSeq zero_seat)))))))) w in
      let w := updRoom room (fun r =>
        set_r_seats (r_seats r ++ [st]) (set_r_nextSeq (r_nextSeq r + 1) r)) w in
      let w := touchLocked room w in
      let w := indexSeat room st w in
      let w := if asHost then updRoom room (set_r_hostID (ss_playerID s)) w else w in
      let w := broadcastStateLocked room w in
      Some (true, if asHost then w else systemChatLocked room ChatKindJoin (nick +:+ " joined") w)
    end.

Definition leaveSeatLocked (room : nat) (st : seatref) (w : world) : world :=
  let midMatch := bool_decide (is_Some (r_match (getRoom w room)))
                  && (st_status (getSeat w st) =s? seatActive) in
  let w := if midMatch
           then updSeat st (fun s => set_st_sess None (set_st_status StatusLeft s)) w else w in
  let wasHost := st_playerID (getSeat w st) =s? r_hostID (getRoom w room) in
  let w := removeFromSeatsLocked room st w in
  let w := if wasHost then reassignHostLocked room w else w in
  let w := if midMatch
           then broadcastPeerStatusLocked room (st_playerID (getSeat w st)) StatusLeft w else w in
  let w :=
    if bool_decide (r_seats (getRoom w room) = []) then w
    else
      let w := broadcastStateLocked room w in
      let w := systemChatLocked room ChatKindLeave (st_nick (getSeat w st) +:+ " left") w in
      if wasHost
      then systemChatLocked room ChatKindHostChanged (hostNickLocked room w +:+ " is now host") w
      else w in
  if allTerminalLocked room w then endMatchLocked room ReasonAllFinished w else w.

(** The critical section of [leave]. *)
Definition leaveLocked (room sess : nat) (w : world) : option world :=
  match findSeatLocked room sess w with
  | None => None
  | Some st => Some (leaveSeatLocked room st w)
  end.

Definition leave (room sess : nat) (w : world) : world :=
  match leaveLocked room sess w with
  | None => w
  | Some w => removeIfEmpty (r_code (getRoom w room)) w
  end.

(** ** room.go: moving and reclaiming a seat *)

Definition detachSeat (room : nat) (st : seatref) (w : world) : world :=
  match seatIndexByIDLocked room (st_playerID (getSeat w st)) w, st_sess (getSeat w st) with
  | Some _, Some old =>
    let w := updSeat st (fun s => set_st_disconnected true (set_st_sess None s)) w in
    let w := if bool_decide (is_Some (r_match (getRoom w room)))
                && (st_status (getSeat w st) =s? seatActive)
             then broadcastPeerStatusLocked room (st_playerID (getSeat w st)) StatusDisconnected w
             else w in
    displaceLocked (Some old) w
  | _, _ => w
  end.

Definition releaseSeat (room : nat) (st : seatref) (w : world) : bool * world :=
  match seatIndexByIDLocked room (st_playerID (getSeat w st)) w with
  | None => (true, w)
  | Some _ =>
    if bool_decide (is_Some (r_match (getRoom w room)))
       && (st_status (getSeat w st) =s? seatActive)
    then (false, w)
    else
      let old := st_sess (getSeat w st) in
      let w := leaveSeatLocked room st w in
      (true, displaceLocked old w)
  end.

Definition full (room : nat) (w : world) : bool :=
  (roomCapacity <=? length (r_seats (getRoom w room)))%nat.

Definition hasSeat (room sess : nat) (w : world) : bool :=
  bool_decide (is_Some (findSeatLocked room sess w)).

(** ** room.go: disconnect *)

(** First critical section: the seat is parked. *)
Definition disconnectPark (room sess : nat) (w : world) : option seatref * world :=
  match findSeatLocked room sess w with
  | None => (None, w)
  | Some st =>
    let w := updSeat st (fun s => set_st_disconnected true (set_st_sess None s)) w in
    let w := if bool_decide (is_Some (r_match (getRoom w room)))
                && (st_status (getSeat w st) =s? seatActive)
             then broadcastPeerStatusLocked room (st_playerID (getSeat w st)) StatusDisconnected w
             else w in
    (Some st, w)
  end.

(** Last critical section: arm the grace timer unless the seat is back. *)
Definition disconnectArm (st : seatref) (w : world) : world :=
  if st_disconnected (getSeat w st) && bool_decide (st_sess (getSeat w st) = None)
  then updSeat st (set_st_grace true) w else w.

Definition disconnect (room sess : nat) (w : world) : bool * world :=
  match disconnectPark room sess w with
  | (None, w) => (false, w)
  | (Some st, w) =>
    let w := addGrace (st_resumeToken (getSeat w st)) room st w in
    (true, disconnectArm st w)
  end.

(** ** room.go: reattach *)

(** Binds the session; answers whether the resume is mid-match, and the snapshot. *)
Definition reattachBind (room sess : nat) (st : seatref) (w : world)
    : option (bool * RoomState) * world :=
  if negb (st_disconnected (getSeat w st))
     || bool_decide (seatIndexByIDLocked room (st_playerID (getSeat w st)) w = None)
  then (None, w)
  else
    let midMatch := bool_decide (is_Some (r_match (getRoom w room)))
                    && (st_status (getSeat w st) =s? seatActive) in
    let w := updSeat st (fun s => set_st_grace false (set_st_sess (Some sess) s)) w in
    (Some (midMatch, stateLocked room w), w).

(** One turn of the drain loop under the lock: [None] when the seat went live,
    else the frames to replay. *)
Definition reattachPoll (room : nat) (st : seatref) (midMatch : bool) (w : world)
    : option (list frame) * world :=
  match st_backlog (getSeat w st) with
  | [] =>
    let w := updSeat st (set_st_disconnected false) w in
    (None,
     if midMatch then
       let '(now, w) := nowMs w in
       let w := updSeat st (set_st_lastBatchMs now) w in
       broadcastPeerStatusLocked room (st_playerID (getSeat w st)) StatusReconnected w
     else w)
  | pending => (Some pending, updSeat st (set_st_backlog []) w)
  end.

Definition sendAll (sess : nat) (l : list frame) (w : world) : world :=
  foldl (fun w f => send sess f w) w l.

Fixpoint reattachDrain (fuel : nat) (room sess : nat) (st : seatref) (midMatch : bool) (w : world)
    : option world :=
  match fuel with
  | O => None
  | S fuel =>
    match reattachPoll room st midMatch w with
    | (None, w) => Some w
    | (Some pending, w) =>
      let w := sendAll sess pending w in
      if ss_ctxDone (getSess w sess) then Some w
      else reattachDrain fuel room sess st midMatch w
    end
  end.

(** [Some (true, w)]: reclaimed; [Some (false, w)]: not reclaimable; [None]: the
    drain did not end within [fuel] turns. *)
Definition reattach (fuel : nat) (room sess : nat) (st : seatref) (w : world)
    : option (bool * world) :=
  match reattachBind room sess st w with
  | (None, w) => Some (false, w)
  | (Some (midMatch, state), w) =>
    let s := getSeat w st in
    let w := send sess (FHelloOK {| ho_type := TypeHelloOK; ho_playerId := st_playerID s;
                                    ho_serverVersion := Version;
                                    ho_resumeToken := st_resumeToken s |}) w in
    let w := send sess (FRoomState state) w in
    match reattachDrain fuel room sess st midMatch w with
    | Some w => Some (true, w)
    | None => None
    end
  end.

(** ** room.go: the lobby commands *)

Definition ready (room sess : nat) (value : bool) (w : world) : world :=
  match findSeatLocked room sess w with
  | None => errLocked sess CodeNotInRoom "not in a room" w
  | Some st =>
    if r_inMatch (getRoom w room)
    then errLocked sess CodeBadMessage "cannot change readiness during a match" w
    else if Bool.eqb (st_ready (getSeat w st)) value then w
    else
      let w := updSeat st (set_st_ready value) w in
      let w := touchLocked room w in
      broadcastStateLocked room w
  end.

Definition updateSettings (room sess : nat) (ns : Settings) (w : world) : world :=
  match findSeatLocked room sess w with
  | None => errLocked sess CodeNotInRoom "not in a room" w
  | Some st =>
    let r := getRoom w room in
    if negb (st_playerID (getSeat w st) =s? r_hostID r)
    then errLocked sess CodeForbidden "only the host can change settings" w
    else if r_inMatch r
    then errLocked sess CodeBadMessage "cannot change settings during a match" w
    else
      let ns := put_Name (SanitizeRoomName (Name ns)) ns in
      match ValidateSettings ns with
      | Some err => errLocked sess CodeBadMessage err w
      | None =>
        let w := updRoom room (set_r_settings ns) w in
        let w := forSeats (r_seats r) (fun s => updSeat s (set_st_ready false)) w in
        let w := touchLocked room w in
        let w := broadcastStateLocked room w in
        systemChatLocked room ChatKindSettings "settings changed" w
      end
  end.

Definition setFreemods (room sess : nat) (fm : Freemods) (w : world) : world :=
  match findSeatLocked room sess w with
  | None => errLocked sess CodeNotInRoom "not in a room" w
  | Some st =>
    if r_inMatch (getRoom w room)
    then errLocked sess CodeBadMessage "cannot change freemods during a match" w
    else
      match ValidateFreemods fm with
      | Some err => errLocked sess CodeBadMessage err w
      | None =>
        let w := updSeat st (set_st_freemods fm) w in
        let w := touchLocked room w in
        broadcastStateLocked room w
      end
  end.

Definition kick (room sess : nat) (targetID : string) (w : world) : world :=
  match findSeatLocked room sess w with
  | None => errLocked sess CodeNotInRoom "not in a room" w
  | Some st =>
    let r := getRoom w room in
    if negb (st_playerID (getSeat w st) =s? r_hostID r)
    then errLocked sess CodeForbidden "only the host can kick" w
    else if r_inMatch r then errLocked sess CodeForbidden "cannot kick during a match" w
    else
      match seatIndexByIDLocked room targetID w with
      | None => errLocked sess CodeBadMessage "no such player" w
      | Some idx =>
        match r_seats r !! idx with
        | None => w
        | Some target =>
          if st_playerID (getSeat w target) =s? r_hostID r
          then errLocked sess CodeBadMessage "cannot kick yourself" w
          else
            let w := removeSeatLocked room idx w in
            let w := touchLocked room w in
            let w := deliverLocked target (FKicked {| ki_type := TypeKicked |}) w in
            let w := broadcastStateLocked room w in
            systemChatLocked room ChatKindLeave (st_nick (getSeat w target) +:+ " left") w
        end
      end
  end.

Definition transferHost (room sess : nat) (targetID : string) (w : world) : world :=
  match findSeatLocked room sess w with
  | None => errLocked sess CodeNotInRoom "not in a room" w
  | Some st =>
    let r := getRoom w room in
    if negb (st_playerID (getSeat w st) =s? r_hostID r)
    then errLocked sess CodeForbidden "only the host can transfer the host role" w
    else if r_inMatch r
    then errLocked sess CodeBadMessage "cannot transfer the host role during a match" w
    else
      match findSeatByIDLocked room targetID w with
      | None => errLocked sess CodeBadMessage "no such player" w
      | Some target =>
        if st_playerID (getSeat w target) =s? r_hostID r then broadcastStateLocked room w
        else
          let w := updRoom room (set_r_hostID (st_playerID (getSeat w target))) w in
          let w := touchLocked room w in
          let w := broadcastStateLocked room w in
          systemChatLocked room ChatKindHostChanged
            (st_nick (getSeat w target) +:+ " is now host") w
      end
  end.

(** room_chat.go.  The budget is the session's. *)
Definition chat (room sess : nat) (text : string) (w : world) : world :=
  match findSeatLocked room sess w with
  | None => errLocked sess CodeNotInRoom "not in a room" w
  | Some st =>
    let text := Strs.TrimSpace text in
    let n := Utf8.rune_count text in
    if (n <? ChatTextMinLen) || (ChatTextMaxLen <? n)
    then errLocked sess CodeBadMessage "chat text must be 1-200 characters" w
    else
      let '(now, w) := nowNs w in
      let '(ok, b) := allow (ss_chats (getSess w sess)) now chatBurst chatRefill in
      let w := updSess sess (set_ss_chats b) w in
      if negb ok then errLocked sess CodeRateLimited "chat rate limit exceeded" w
      else
        let w := touchLocked room w in
        let '(ts, w) := nowMs w in
        let msg := FChat {| ch_type := TypeChat; ch_from := st_playerID (getSeat w st);
                            ch_kind := ""; ch_text := text; ch_ts := ts |} in
        forSeats (r_seats (getRoom w room)) (fun s => deliverLocked s msg) w
  end.

(** ** room.go: the grace timer *)

Definition onGraceExpireLocked (room : nat) (st : seatref) (w : world) : world :=
  let s := getSeat w st in
  if bool_decide (st_sess s = None) && st_disconnected s
     && bool_decide (is_Some (seatIndexByIDLocked room (st_playerID s) w))
  then
    if bool_decide (is_Some (r_match (getRoom w room))) && (st_status s =s? seatActive) then
      let w := updSeat st (set_st_status StatusDNF) w in
      let w := broadcastPeerStatusLocked room (st_playerID s) StatusDNF w in
      let wasHost := st_playerID s =s? r_hostID (getRoom w room) in
      let w := removeFromSeatsLocked room st w in
      let w := if wasHost then reassignHostLocked room w else w in
      if allTerminalLocked room w then endMatchLocked room ReasonAllFinished w
      else if bool_decide (r_seats (getRoom w room) = []) then w
      else
        let w := broadcastStateLocked room w in
        if wasHost
        then systemChatLocked room ChatKindHostChanged (hostNickLocked room w +:+ " is now host") w
        else w
    else
      let w := updSeat st (set_st_disconnected false) w in
      let wasHost := st_playerID s =s? r_hostID (getRoom w room) in
      let w := removeFromSeatsLocked room st w in
      let w := if wasHost then reassignHostLocked room w else w in
      if bool_decide (r_seats (getRoom w room) = []) then w
      else
        let w := broadcastStateLocked room w in
        let w := systemChatLocked room ChatKindLeave (st_nick s +:+ " left") w in
        if wasHost
        then systemChatLocked room ChatKindHostChanged (hostNickLocked room w +:+ " is now host") w
        else w
  else w.

Definition onGraceExpire (room : nat) (st : seatref) (w : world) : world :=
  let w := onGraceExpireLocked room st w in
  let w := removeGrace (st_resumeToken (getSeat w st)) w in
  removeIfEmpty (r_code (getRoom w room)) w.

(** ** registry.go: create and join *)

(** [newRoomCode]: six bytes, each reduced modulo the 32 glyphs. *)
Definition codeGlyph (b : Z) : ascii :=
  default "000"%char (String.get (Z.to_nat (b mod slen roomCodeAlphabet)) roomCodeAlphabet).
Definition codeOf (bs : list Z) : string := String.string_of_list_ascii (codeGlyph <$> bs).
Definition newRoomCode (w : world) : string * world :=
  let '(b, w) := randRead roomCodeLen w in (codeOf b, w).

Fixpoint freeCodeLocked (fuel : nat) (w : world) : option (string * world) :=
  match fuel with
  | O => None
  | S fuel =>
    let '(code, w) := newRoomCode w in
    match reg_rooms (getReg w) !! code with
    | None => Some (code, w)
    | Some _ => freeCodeLocked fuel w
    end
  end.

Definition normalizeCode (code : string) : string :=
  Strs.ToUpper upper_table (Strs.TrimSpace code).

Definition newRoom (code : string) (w : world) : nat * world :=
  let '(now, w) := nowMs w in
  let '(created, w) := nowNs w in
  let room := c_nextRoom (w_core w) in
  let w := updCore (fun c => set_c_nextRoom (S (c_nextRoom c)) c) w in
  (room,
   updRoom room (fun _ =>
     set_r_code code (set_r_lastActivityMs now (set_r_createdAt created
     (set_r_settings (DefaultSettings "") zero_Room)))) w).

(** Give up the seat the account holds in another room: [false] when it races. *)
Definition moveOut (held : option (nat * seatref)) (w : world) : bool * world :=
  match held with
  | None => (true, w)
  | Some (cur, st) =>
    let '(ok, w) := releaseSeat cur st w in
    if ok then (true, removeIfEmpty (r_code (getRoom w cur)) w) else (false, w)
  end.

Definition create (host : nat) (w : world) : option (seatOutcome * world) :=
  let '(ok, w) := moveOut (seatOfUser (ss_userID (getSess w host)) w) w in
  if negb ok then Some (outcomeError CodeInMatchElsewhere, w)
  else
    match freeCodeLocked loop_fuel w with
    | None => None
    | Some (code, w) =>
      let '(room, w) := newRoom code w in
      let w := updReg (fun g => set_reg_rooms (<[code := room]> (reg_rooms g)) g) w in
      match seatRoom room host true w with
      | None => None
      | Some (_, w) =>
        Some ({| so_room := Some room; so_reclaim := None; so_errCode := "" |}, w)
      end
    end.

Definition join (code : string) (joiner : nat) (w : world) : option (seatOutcome * world) :=
  match reg_rooms (getReg w) !! normalizeCode code with
  | None => Some (outcomeError CodeRoomNotFound, w)
  | Some room =>
    let held := seatOfUser (ss_userID (getSess w joiner)) w in
    let here := match held with
                | Some (cur, st) => if bool_decide (cur = room) then Some st else None
                | None => None
                end in
    match here with
    | Some st =>
      Some ({| so_room := Some room; so_reclaim := Some st; so_errCode := "" |},
            detachSeat room st w)
    | None =>
      if full room w then Some (outcomeError CodeRoomFull, w)
      else
        let '(ok, w) := moveOut held w in
        if negb ok then Some (outcomeError CodeInMatchElsewhere, w)
        else
          match seatRoom room joiner false w with
          | None => None
          | Some (false, w) => Some (outcomeError CodeRoomFull, w)
          | Some (true, w) =>
            Some ({| so_room := Some room; so_reclaim := None; so_errCode := "" |}, w)
          end
    end
  end.

(** ** room_idle.go: the reaper *)

(** [for len(room.seats) > 0 { leaveSeatLocked(seats[0]) }]. *)
Fixpoint leaveAll (fuel : nat) (room : nat) (w : world) : world :=
  match fuel, r_seats (getRoom w room) with
  | S fuel, s :: _ => leaveAll fuel room (leaveSeatLocked room s w)
  | _, _ => w
  end.

(** One room's critical section: whether it was emptied, and the world. *)
Definition reapRoom (room : nat) (now : Z) (w : world) : bool * world :=
  match idleStateLocked (getRoom w room) now with
  | (true, _) =>
    let w := updRoom room (set_r_idleWarned true) w in
    (false, systemChatLocked room ChatKindLeave
              "this room has been idle for an hour and will close in a minute" w)
  | (false, true) => (true, leaveAll (length (r_seats (getRoom w room))) room w)
  | (false, false) => (false, w)
  end.

(** [rooms]: the copied room pointers, in the map's iteration order. *)
Definition reapIdleRooms (rooms : list nat) (now : Z) (w : world) : world :=
  let '(emptied, w) :=
    foldl (fun acc room =>
      let '(emptied, w) := acc in
      let '(e, w) := reapRoom room now w in
      (if e then emptied ++ [r_code (getRoom w room)] else emptied, w)) ([], w) rooms in
  foldl (fun w code => removeIfEmpty code w) w emptied.

(** ** lobby.go *)

Definition lobbyEntryOf (room : nat) (w : world) : option lobbyEntry :=
  let r := getRoom w room in
  if negb (Visibility (r_settings r) =s? VisibilityOpen)
     || bool_decide (r_seats r = []) then None
  else
    let s := r_settings r in
    Some {| le_view :=
      {| v_code := r_code r; v_name := Name s;
         v_playerCount := Z.of_nat (length (r_seats r));
         v_maxPlayers := Z.of_nat roomCapacity; v_inMatch := r_inMatch r;
         v_settings :=
           {| v_mode := Mode s;
              v_durationMs := if Mode s =s? ModeTime then Some (DurationMs s) else None;
              v_wordCount :=
                if Mode s =s? ModeTime then None
                else if IsCounted (Mode s) then Some (WordCount s) else None;
              v_lang := Lang s |} |};
      le_created := r_createdAt r |}.

(** The comparison of [openRooms]: fullest, then oldest, then the code. *)
Definition lobby_cmp (a b : lobbyEntry) : comparison :=
  match (v_playerCount (le_view b) ?= v_playerCount (le_view a)) with
  | Eq =>
    match (le_created a ?= le_created b) with
    | Eq => String.compare (v_code (le_view a)) (v_code (le_view b))
    | c => c
    end
  | c => c
  end.

Definition lobby_leb (a b : lobbyEntry) : bool :=
  match lobby_cmp a b with Gt => false | _ => true end.

(** [slices.SortFunc]; the order is total, so any sorting algorithm gives this. *)
Fixpoint insert_entry (e : lobbyEntry) (l : list lobbyEntry) : list lobbyEntry :=
  match l with
  | [] => [e]
  | x :: l' => if lobby_leb e x then e :: l else x :: insert_entry e l'
  end.
Definition sort_entries (l : list lobbyEntry) : list lobbyEntry := foldr insert_entry [] l.

(** [rooms]: the copied room pointers, in the map's iteration order. *)
Definition openRooms (rooms : list nat) (w : world) : list lobbyEntry :=
  sort_entries (omap (fun room => lobbyEntryOf room w) rooms).
End lobby.
