(* ===== verification/WsSession.v ===== *)
(** * internal/ws/session.go, handler.go: one connection

    [dispatch] takes an inbound frame through the hello gate, the rate limits and
    the message switch; the handlers call the room and registry operations of
    WsLobby and WsMatch.  [connect] and [teardown] are the ends of [serve].

    The answer is [None] when a redraw loop (a guest nick, a room code) did not
    end within [loop_fuel] draws; otherwise the close reason, if the frame ends
    the connection, and the world. *)

From S2P Require Import Prelude GoStd Json Protocol Ratelimit WsState WsRoom WsMatch WsLobby.

Open Scope Z_scope.

(** An inbound frame: a text frame of [in_len] bytes that parses as [in_json], if
    it does. *)
Record inbound := { in_text : bool; in_len : Z; in_json : option json }.

(** Sequentially, one turn empties the backlog and the next finds it empty. *)
Definition reattachFuel : nat := 2.

Section session.
Context `{Env}.

Definition sendErr (sid : nat) (code message : string) : world -> world :=
  send sid (FError (NewError code message)).

(** [decode]: the payload, or a bad_message. *)
Definition decode {A} (d : Json.decoder A) (zero : A) (sid : nat) (data : json) (w : world)
    : option A * world :=
  match Json.unmarshal d zero data with
  | Some m => (Some m, w)
  | None => (None, sendErr sid CodeBadMessage "invalid message payload" w)
  end.

Definition withRoom (sid : nat) (fn : nat -> world -> world) (w : world) : world :=
  match ss_room (getSess w sid) with
  | None => sendErr sid CodeNotInRoom "not in a room" w
  | Some room => fn room w
  end.

(** decode, then withRoom *)
Definition roomCommand {A} (d : Json.decoder A) (zero : A) (sid : nat) (data : json)
    (fn : A -> nat -> world -> world) (w : world) : world :=
  match decode d zero sid data w with
  | (None, w) => w
  | (Some m, w) => withRoom sid (fn m) w
  end.

Definition inRoom (sid : nat) (w : world) : bool :=
  match ss_room (getSess w sid) with
  | Some room => hasSeat room sid w
  | None => false
  end.

Definition isRestricted (sid : nat) (w : world) : bool :=
  ss_authed (getSess w sid)
  && match w_restricted w with
     | Some f => f (ss_userID (getSess w sid))
     | None => false
     end.

Definition seatErrorMessage (code : string) : string :=
  if code =s? CodeRoomFull then "room is full"
  else if code =s? CodeInMatchElsewhere then "this account is playing a match in another room"
  else "room not found".

(** [for range 2] over the attempt. *)
Fixpoint enterRoomLoop (n : nat) (sid : nat) (attempt : world -> option (seatOutcome * world))
    (w : world) : option world :=
  match n with
  | O => Some (sendErr sid CodeInternal "could not take a seat; try again" w)
  | S n =>
    match attempt w with
    | None => None
    | Some (out, w) =>
      if negb (so_errCode out =s? "")
      then Some (sendErr sid (so_errCode out) (seatErrorMessage (so_errCode out)) w)
      else
        match so_reclaim out, so_room out with
        | None, r => Some (updSess sid (set_ss_room r) w)
        | Some st, Some room =>
          match reattach reattachFuel room sid st w with
          | None => None
          | Some (false, w) => enterRoomLoop n sid attempt w
          | Some (true, w) =>
            let s := getSeat w st in
            let w := removeGrace (st_resumeToken s) w in
            Some (updSess sid (fun ss => set_ss_room (Some room)
              (set_ss_resumeToken (st_resumeToken s)
              (set_ss_playerID (st_playerID s) ss))) w)
          end
        | Some _, None => Some w
        end
    end
  end.

Definition enterRoom (sid : nat) (attempt : world -> option (seatOutcome * world)) (w : world)
    : option world := enterRoomLoop 2 sid attempt w.

Definition handleCreateRoom (sid : nat) (w : world) : option world :=
  if inRoom sid w then Some (sendErr sid CodeBadMessage "already in a room" w)
  else if isRestricted sid w
  then Some (sendErr sid CodeAccountRestricted "this account cannot create or join rooms" w)
  else enterRoom sid (create sid) w.

Definition handleJoinRoom (sid : nat) (data : json) (w : world) : option world :=
  match decode dec_JoinRoom {| j_code := "" |} sid data w with
  | (None, w) => Some w
  | (Some m, w) =>
    if inRoom sid w then Some (sendErr sid CodeBadMessage "already in a room" w)
    else if isRestricted sid w
    then Some (sendErr sid CodeAccountRestricted "this account cannot create or join rooms" w)
    else enterRoom sid (join (j_code m) sid) w
  end.

Definition handleLeave (sid : nat) (w : world) : world :=
  match ss_room (getSess w sid) with
  | None => sendErr sid CodeNotInRoom "not in a room" w
  | Some room => updSess sid (set_ss_room None) (leave room sid w)
  end.

Definition zero_Hello : Hello := {| h_protocolVersion := 0; h_nick := ""; h_resumeToken := "" |}.
Definition zero_EventBatch : EventBatch :=
  {| eb_matchId := ""; eb_playerId := ""; eb_batchSeq := 0; eb_version := 0; eb_events := [] |}.
Definition zero_Finish : Finish := {| f_matchId := ""; f_forfeit := false |}.

(** The end of a fresh hello: identity and acknowledgement. *)
Definition freshHello (sid : nat) (w : world) : world :=
  let '(id, w) := newID w in
  let '(token, w) := newResumeToken w in
  let w := updSess sid (fun s =>
    set_ss_resumeToken token (set_ss_playerID id (set_ss_helloDone true s))) w in
  send sid (FHelloOK {| ho_type := TypeHelloOK; ho_playerId := id; ho_serverVersion := Version;
                        ho_resumeToken := token |}) w.

Definition handleHello (sid : nat) (data : json) (w : world)
    : option (option closeReason * world) :=
  match Json.unmarshal dec_Hello zero_Hello data with
  | None => Some (None, sendErr sid CodeBadMessage "invalid hello payload" w)
  | Some h =>
    if negb (h_protocolVersion h =? Version) then
      let msg := "server speaks protocol " +:+ Strconv.Itoa Version +:+ ", client sent "
                 +:+ Strconv.Itoa (h_protocolVersion h) in
      Some (Some {| cr_code := StatusPolicyViolation; cr_reason := "protocol version mismatch" |},
            sendErr sid CodeVersionMismatch msg w)
    else if h_resumeToken h =s? "" then Some (None, freshHello sid w)
    else
      match claimGrace (h_resumeToken h) w with
      | (None, w) => Some (None, freshHello sid w)
      | (Some (room, st), w) =>
        match reattach reattachFuel room sid st w with
        | None => None
        | Some (false, w) => Some (None, freshHello sid w)
        | Some (true, w) =>
          let s := getSeat w st in
          Some (None, updSess sid (fun ss =>
            set_ss_room (Some room) (set_ss_resumeToken (st_resumeToken s)
            (set_ss_playerID (st_playerID s) (set_ss_helloDone true ss)))) w)
        end
      end
  end.

Definition handleNTPPing (sid : nat) (data : json) (recvMs : Z) (w : world) : world :=
  match Json.unmarshal dec_NTPPing {| p_t0 := 0 |} data with
  | None => sendErr sid CodeBadMessage "invalid ntp_ping payload" w
  | Some p =>
    let '(t2, w) := nowMs w in
    send sid (FNTPPong (NewNTPPong (p_t0 p) recvMs t2)) w
  end.

Definition handleEventBatch (sid : nat) (len : Z) (data : json) (recvMs : Z) (w : world) : world :=
  if eventBatchMaxBytes <? len
  then sendErr sid CodeBadMessage "event_batch exceeds 1 MiB" w
  else
    match decode dec_EventBatch zero_EventBatch sid data w with
    | (None, w) => w
    | (Some eb, w) =>
      match ss_room (getSess w sid) with
      | None => sendErr sid CodeNotInRoom "not in a room" w
      | Some room => relayEventBatch room sid eb recvMs w
      end
    end.

(** The two budgets, checked before the payload is decoded: the error's text when
    the frame is refused. *)
Definition rateLimit (sid : nat) (type : string) (w : world) : option string * world :=
  if (type =s? TypeFinish) || (type =s? TypeNTPPing) then (None, w)
  else if type =s? TypeEventBatch then
    let '(now, w) := nowNs w in
    let '(ok, b) := allow (ss_batches (getSess w sid)) now batchBurst batchRefill in
    let w := updSess sid (set_ss_batches b) w in
    (if ok then None else Some "event batch rate limit exceeded", w)
  else
    let '(now, w) := nowNs w in
    let '(ok, b) := allow (ss_commands (getSess w sid)) now commandBurst commandRefill in
    let w := updSess sid (set_ss_commands b) w in
    (if ok then None else Some "message rate limit exceeded", w).

(** The message switch of an established session. *)
Definition route (sid : nat) (type : string) (len : Z) (data : json) (recvMs : Z) (w : world)
    : option world :=
  if type =s? TypeHello then Some (sendErr sid CodeBadMessage "hello already completed" w)
  else if type =s? TypeNTPPing then Some (handleNTPPing sid data recvMs w)
  else if type =s? TypeCreateRoom then handleCreateRoom sid w
  else if type =s? TypeJoinRoom then handleJoinRoom sid data w
  else if type =s? TypeLeave then Some (handleLeave sid w)
  else if type =s? TypeReady then
    Some (roomCommand dec_Ready {| r_ready := None |} sid data
            (fun m room => ready room sid (default true (r_ready m))) w)
  else if type =s? TypeSettingsUpdate then
    Some (roomCommand dec_SettingsUpdate {| su_settings := zero_Settings |} sid data
            (fun m room => updateSettings room sid (su_settings m)) w)
  else if type =s? TypeSetFreemods then
    Some (roomCommand dec_SetFreemods {| sf_freemods := zero_Freemods |} sid data
            (fun m room => setFreemods room sid (sf_freemods m)) w)
  else if type =s? TypeStartMatch then
    Some (roomCommand dec_StartMatch {| sm_force := false |} sid data
            (fun m room => startMatch room sid (sm_force m)) w)
  else if type =s? TypeKick then
    Some (roomCommand dec_Kick {| k_playerId := "" |} sid data
            (fun m room => kick room sid (k_playerId m)) w)
  else if type =s? TypeTransferHost then
    Some (roomCommand dec_TransferHost {| t_playerId := "" |} sid data
            (fun m room => transferHost room sid (t_playerId m)) w)
  else if type =s? TypeChatSend then
    Some (roomCommand dec_ChatSend {| c_text := "" |} sid data
            (fun m room => chat room sid (c_text m)) w)
  else if type =s? TypeEventBatch then Some (handleEventBatch sid len data recvMs w)
  else if type =s? TypeFinish then
    Some (roomCommand dec_Finish zero_Finish sid data
            (fun m room => finish room sid (f_matchId m) (f_forfeit m)) w)
  else Some (sendErr sid CodeBadMessage ("unsupported message type: " +:+ type) w).

Definition dispatch (sid : nat) (data : inbound) (recvMs : Z) (w : world)
    : option (option closeReason * world) :=
  match (match in_json data with
         | Some j => (fun t => (t, j)) <$> Json.unmarshal dec_Envelope "" j
         | None => None
         end) with
  | None => Some (None, sendErr sid CodeBadMessage "frame is not valid JSON" w)
  | Some (type, j) =>
    if negb (ss_helloDone (getSess w sid)) then
      if negb (type =s? TypeHello)
      then Some (None, sendErr sid CodeBadMessage "hello must be the first message" w)
      else handleHello sid j w
    else
      match rateLimit sid type w with
      | (Some refusal, w) => Some (None, sendErr sid CodeRateLimited refusal w)
      | (None, w) => (fun w => (None, w)) <$> route sid type (in_len data) j recvMs w
      end
  end.

(** One turn of [readLoop]: the receive instant is read first. *)
Definition readFrame (sid : nat) (data : inbound) (w : world)
    : option (option closeReason * world) :=
  let '(recvMs, w) := nowMs w in
  if negb (in_text data)
  then Some (None, sendErr sid CodeBadMessage "expected a JSON text frame" w)
  else dispatch sid data recvMs w.

(** ** handler.go: the ends of [serve] *)

(** The session of an upgraded request, under a pointer not in use. *)
Definition connect (sid : nat) (displayName userID : string) (authed : bool) (w : world) : world :=
  updSess sid (fun _ =>
    set_ss_authed authed (set_ss_displayName displayName
    (set_ss_userID userID zero_session))) w.

(** After the read loop: the displacement reason wins, and the seat is handed to
    the room. *)
Definition teardown (sid : nat) (reason : closeReason) (w : world) : closeReason * world :=
  let reason := default reason (ss_displacedAs (getSess w sid)) in
  (reason,
   match ss_room (getSess w sid) with
   | Some room => (disconnect room sid w).2
   | None => w
   end).
End session.
