(* ===== verification/WsCore.v ===== *)
(** * internal/ws: what each helper does to the protected state

    Delivering frames, reading clocks and drawing random bytes leave the protected
    state alone; the lemmas here say so, and read the state back through the
    assignments.  [within] relates two states of which only one room, with the
    seats allocated in it, differs: every locked operation stays within its room. *)

From S2P Require Import Prelude GoStd Json Protocol Ratelimit WsState WsRoom WsMatch WsLobby.

Open Scope Z_scope.

(** ** Reading a state *)

Definition seatOf (c : core) (s : seatref) : seat := c_seats c !!! s.
Definition roomOf (c : core) (r : nat) : Room := c_rooms c !!! r.

Lemma seatOf_updSeat c s s' f :
  seatOf (c_updSeat s f c) s' = if decide (s = s') then f (seatOf c s) else seatOf c s'.
Proof. apply store_upd_case. Qed.

Lemma seatOf_updSeat_eq c s f : seatOf (c_updSeat s f c) s = f (seatOf c s).
Proof. apply store_upd_eq. Qed.

Lemma seatOf_updSeat_ne c s s' f : s <> s' -> seatOf (c_updSeat s f c) s' = seatOf c s'.
Proof. apply store_upd_ne. Qed.

Lemma roomOf_updRoom_eq c r f : roomOf (c_updRoom r f c) r = f (roomOf c r).
Proof. apply store_upd_eq. Qed.

Lemma roomOf_updRoom_ne c r r' f : r <> r' -> roomOf (c_updRoom r f c) r' = roomOf c r'.
Proof. apply store_upd_ne. Qed.

Lemma roomOf_updRoom c r r' f :
  roomOf (c_updRoom r f c) r' = if decide (r = r') then f (roomOf c r) else roomOf c r'.
Proof. apply store_upd_case. Qed.

Lemma roomOf_updSeat c s f r : roomOf (c_updSeat s f c) r = roomOf c r.
Proof. done. Qed.
Lemma seatOf_updRoom c r f s : seatOf (c_updRoom r f c) s = seatOf c s.
Proof. done. Qed.
Lemma roomOf_updReg c f r : roomOf (c_updReg f c) r = roomOf c r.
Proof. done. Qed.
Lemma seatOf_updReg c f s : seatOf (c_updReg f c) s = seatOf c s.
Proof. done. Qed.
Lemma c_reg_updSeat c s f : c_reg (c_updSeat s f c) = c_reg c.
Proof. done. Qed.
Lemma c_reg_updRoom c r f : c_reg (c_updRoom r f c) = c_reg c.
Proof. done. Qed.
Lemma c_reg_updReg c f : c_reg (c_updReg f c) = f (c_reg c).
Proof. done. Qed.

#[export] Hint Rewrite seatOf_updSeat_eq roomOf_updRoom_eq roomOf_updSeat seatOf_updRoom
  roomOf_updReg seatOf_updReg c_reg_updSeat c_reg_updRoom c_reg_updReg : tm_core.

Lemma getSeat_core w s : getSeat w s = seatOf (w_core w) s.
Proof. done. Qed.
Lemma getRoom_core w r : getRoom w r = roomOf (w_core w) r.
Proof. done. Qed.

(** ** What leaves the protected state alone *)

Section silent.
Context `{Env}.

Definition silent (f : world -> world) : Prop := forall w, w_core (f w) = w_core w.

Lemma core_updSess s f w : w_core (updSess s f w) = w_core w.
Proof. done. Qed.
Lemma core_ticked w : w_core (ticked w) = w_core w.
Proof. done. Qed.
Lemma core_trySend sid f w : w_core (trySend sid f w) = w_core w.
Proof. done. Qed.
Lemma core_send sid f w : w_core (send sid f w) = w_core w.
Proof. unfold send. repeat case_match; done. Qed.
Lemma core_errLocked sid c m w : w_core (errLocked sid c m w) = w_core w.
Proof. done. Qed.
Lemma core_deliverLocked s f w : w_core (deliverLocked s f w) = w_core w.
Proof. unfold deliverLocked. by case_match. Qed.

Lemma core_forSeats l f w :
  (forall s w, w_core (f s w) = w_core w) -> w_core (forSeats l f w) = w_core w.
Proof.
  intros Hf. unfold forSeats. revert w. induction l as [|s l IH]; intros w; simpl; [done|].
  by rewrite IH, Hf.
Qed.

Lemma core_broadcastStateLocked r w : w_core (broadcastStateLocked r w) = w_core w.
Proof. apply core_forSeats. intros. apply core_deliverLocked. Qed.

Lemma core_broadcastPeerStatusLocked r i s w :
  w_core (broadcastPeerStatusLocked r i s w) = w_core w.
Proof.
  unfold broadcastPeerStatusLocked. case_match; [|done].
  apply core_forSeats. intros. by repeat case_match.
Qed.

Lemma core_systemChatLocked r k t w : w_core (systemChatLocked r k t w) = w_core w.
Proof.
  unfold systemChatLocked. cbn -[forSeats]. rewrite core_forSeats; [done|].
  intros. apply core_deliverLocked.
Qed.

Lemma core_displace s w : w_core (displace s w) = w_core w.
Proof. unfold displace. by case_match. Qed.
Lemma core_displaceLocked o w : w_core (displaceLocked o w) = w_core w.
Proof. destruct o; [apply core_displace|done]. Qed.

Lemma core_sendAll sid l w : w_core (sendAll sid l w) = w_core w.
Proof.
  unfold sendAll. revert w. induction l as [|f l IH]; intros w; simpl; [done|].
  by rewrite IH, core_send.
Qed.

Lemma core_uniqueGuestNick fuel r w n w' :
  uniqueGuestNickLocked fuel r w = Some (n, w') ->
  w_core w' = w_core w /\ w_sess w' = w_sess w.
Proof.
  revert w. induction fuel as [|fuel IH]; intros w; simpl; [done|].
  case_match; [|intros; by simplify_eq]. intros Hw. by apply IH in Hw.
Qed.

Lemma core_identityLocked r s w n g w' :
  identityLocked r s w = Some (n, g, w') ->
  w_core w' = w_core w /\ w_sess w' = w_sess w.
Proof.
  unfold identityLocked. repeat case_match; intros; simplify_eq; [done|].
  by eapply core_uniqueGuestNick.
Qed.

Lemma core_freeCodeLocked fuel w code w' :
  freeCodeLocked fuel w = Some (code, w') ->
  w_core w' = w_core w /\ w_sess w' = w_sess w /\ reg_rooms (getReg w) !! code = None.
Proof.
  revert w. induction fuel as [|fuel IH]; intros w; simpl; [done|].
  unfold newRoomCode. simpl. case_match.
  - intros Hw. apply IH in Hw as (-> & -> & Hw). done.
  - intros [= <- <-]. done.
Qed.
End silent.

#[export] Hint Rewrite @core_updSess @core_ticked @core_trySend @core_send @core_errLocked
  @core_deliverLocked @core_broadcastStateLocked @core_broadcastPeerStatusLocked
  @core_systemChatLocked @core_displace @core_displaceLocked @core_sendAll : tm_core.

Lemma core_updCore f w : w_core (updCore f w) = f (w_core w).
Proof. done. Qed.
Lemma core_updSeat s f w : w_core (updSeat s f w) = c_updSeat s f (w_core w).
Proof. done. Qed.
Lemma core_updRoom r f w : w_core (updRoom r f w) = c_updRoom r f (w_core w).
Proof. done. Qed.
Lemma core_updReg f w : w_core (updReg f w) = c_updReg f (w_core w).
Proof. done. Qed.
#[export] Hint Rewrite core_updCore core_updSeat core_updRoom core_updReg : tm_core.

Lemma core_touchLocked `{Env} r w :
  w_core (touchLocked r w) =
  c_updRoom r (fun r => set_r_idleWarned false (set_r_lastActivityMs (now_ms (w_tick w)) r))
    (w_core w).
Proof. done. Qed.

(** ** One room at a time *)

Record within (rid : nat) (c c' : core) : Prop := {
  wi_room : forall r, r <> rid -> roomOf c' r = roomOf c r;
  wi_seat : forall s, s.1 <> rid -> seatOf c' s = seatOf c s;
  wi_code : r_code (roomOf c' rid) = r_code (roomOf c rid);
  wi_rooms : reg_rooms (c_reg c') = reg_rooms (c_reg c);
  wi_nextRoom : c_nextRoom c' = c_nextRoom c;
  wi_nextSeat : (c_nextSeat c <= c_nextSeat c')%nat;
}.

#[export] Instance within_refl rid : Reflexive (within rid).
Proof. by constructor. Qed.

#[export] Instance within_trans rid : Transitive (within rid).
Proof.
  intros c1 c2 c3 [] []. constructor; try congruence; [..|lia].
  - intros. rewrite wi_room1; auto.
  - intros. rewrite wi_seat1; auto.
Qed.

Lemma within_updSeat rid s f c : s.1 = rid -> within rid c (c_updSeat s f c).
Proof.
  intros Hs. constructor; try done. intros s' Hs'.
  rewrite seatOf_updSeat_ne; [done|]. by intros ->.
Qed.

Lemma within_updRoom rid f c :
  (forall r, r_code (f r) = r_code r) -> within rid c (c_updRoom rid f c).
Proof.
  intros Hf. constructor; try done.
  - intros r Hr. by rewrite roomOf_updRoom_ne.
  - by rewrite roomOf_updRoom_eq.
Qed.

Lemma within_updReg rid f c :
  (forall g, reg_rooms (f g) = reg_rooms g) -> within rid c (c_updReg f c).
Proof. intros Hf. constructor; try done. apply Hf. Qed.

Lemma within_nextSeat rid c : within rid c (set_c_nextSeat (S (c_nextSeat c)) c).
Proof. constructor; try done. cbn. lia. Qed.

#[export] Hint Resolve within_refl within_updSeat within_updRoom within_updReg within_nextSeat
  : typemore.

(** Peel the last assignment off the new state. *)
Ltac within_step :=
  autorewrite with tm_core;
  match goal with
  | |- within _ ?c ?c => reflexivity
  | |- within _ _ (c_updSeat _ _ _) => etrans; [|apply within_updSeat; auto]
  | |- within _ _ (c_updRoom _ _ _) => etrans; [|apply within_updRoom; done]
  | |- within _ _ (c_updReg _ _) => etrans; [|apply within_updReg; done]
  end.

Section within_ops.
Context `{Env}.

Lemma within_forSeats rid l f w :
  (forall s w, s ∈ l -> within rid (w_core w) (w_core (f s w))) ->
  within rid (w_core w) (w_core (forSeats l f w)).
Proof.
  intros Hf. unfold forSeats. revert w. induction l as [|s l IH]; intros w; simpl; [reflexivity|].
  etrans; [apply (Hf s); set_solver|]. apply IH. intros. apply Hf. set_solver.
Qed.

Lemma unindexSeat_within rid st w : within rid (w_core w) (w_core (unindexSeat st w)).
Proof. unfold unindexSeat. repeat case_match; repeat within_step. Qed.

Lemma indexSeat_within rid st w : within rid (w_core w) (w_core (indexSeat rid st w)).
Proof. unfold indexSeat. case_match; repeat within_step. Qed.

Lemma removeSeatLocked_within rid i w :
  within rid (w_core w) (w_core (removeSeatLocked rid i w)).
Proof.
  unfold removeSeatLocked. case_match; [|reflexivity]. within_step. apply unindexSeat_within.
Qed.

Lemma removeFromSeatsLocked_within rid st w :
  within rid (w_core w) (w_core (removeFromSeatsLocked rid st w)).
Proof. unfold removeFromSeatsLocked. case_match; [apply removeSeatLocked_within|reflexivity]. Qed.

Lemma reassignHostLocked_within rid w :
  within rid (w_core w) (w_core (reassignHostLocked rid w)).
Proof. unfold reassignHostLocked. case_match; repeat within_step. Qed.

Lemma reapSeats_within rid n w : within rid (w_core w) (w_core (reapSeats n rid w)).
Proof.
  revert w. induction n as [|n IH]; intros w; simpl; [reflexivity|].
  etrans; [|apply IH]. repeat case_match; try reflexivity. apply removeSeatLocked_within.
Qed.
End within_ops.
