(* ===== verification/WsInv.v ===== *)
(** * internal/ws: the invariant of the rooms, the seats and the registry

    [Base] is what holds at every point of every critical section up to one
    transient: while a seat leaves, its room may lack a host ([host_ok]) or a
    racing seat ([live_ok]) until the section has repaired that.  [Inv] is [Base]
    with both, between critical sections. *)

From S2P Require Import Prelude GoStd Json Protocol Ratelimit WsState WsRoom WsMatch WsLobby WsCore.

Open Scope Z_scope.

(** ** The authoritative capture of a participant *)

Definition event_total (l : list CapturedBatch) : Z :=
  sum_Z ((fun b => Z.of_nat (length (b_events b))) <$> l).

Record capture_ok (st : seat) : Prop := {
  cap_seqs : b_batchSeq <$> st_batches st = Z.of_nat <$> seq 1 (length (st_batches st));
  cap_last : st_lastSeq st = Z.of_nat (length (st_batches st));
  cap_count : st_eventCount st = event_total (st_batches st);
  cap_max : st_eventCount st <= maxCapturedEvents;
  cap_bucket : -1 <= st_lastBucket st;
  cap_afk : 0 <= st_activeBuckets st <= st_lastBucket st + 1 }.

(** ** One room *)

Definition racing (st : seat) : Prop := st_status st = seatActive.

Record match_base (c : core) (rid : nat) (seats : list seatref) (m : matchState) : Prop := {
  mb_nodup : NoDup (m_roster m);
  mb_two : (2 <= length (m_roster m))%nat;
  mb_ended : m_ended m = false;
  mb_addr : forall s, s ∈ m_roster m -> s.1 = rid /\ (s.2 < c_nextSeat c)%nat;
  mb_seated : forall s, s ∈ m_roster m -> racing (seatOf c s) -> s ∈ seats;
  mb_racing : forall s, s ∈ seats -> racing (seatOf c s) -> s ∈ m_roster m;
  mb_capture : forall s, s ∈ m_roster m -> capture_ok (seatOf c s) }.

Record room_base (c : core) (rid : nat) : Prop := {
  rb_nodup : NoDup (r_seats (roomOf c rid));
  rb_cap : (length (r_seats (roomOf c rid)) <= roomCapacity)%nat;
  rb_addr : forall s, s ∈ r_seats (roomOf c rid) -> s.1 = rid /\ (s.2 < c_nextSeat c)%nat;
  rb_in : r_inMatch (roomOf c rid) = bool_decide (is_Some (r_match (roomOf c rid)));
  rb_lobby : r_match (roomOf c rid) = None ->
    forall s, s ∈ r_seats (roomOf c rid) -> ~ racing (seatOf c s);
  rb_match : forall m, r_match (roomOf c rid) = Some m ->
    match_base c rid (r_seats (roomOf c rid)) m }.

(** The host id names a seated player, or nobody. *)
Definition host_ok (c : core) (rid : nat) : Prop :=
  r_hostID (roomOf c rid) = ""
  \/ exists s, s ∈ r_seats (roomOf c rid) /\ st_playerID (seatOf c s) = r_hostID (roomOf c rid).

(** A running match has a seat still racing. *)
Definition live_ok (c : core) (rid : nat) : Prop :=
  forall m, r_match (roomOf c rid) = Some m ->
  exists s, s ∈ m_roster m /\ racing (seatOf c s).

(** ** The whole *)

(** The account index holds exactly the accounts seated somewhere. *)
Definition users_ok (c : core) : Prop :=
  forall u rid s,
  reg_users (c_reg c) !! u = Some (rid, s)
  <-> u <> "" /\ s ∈ r_seats (roomOf c rid) /\ st_userID (seatOf c s) = u.

Record Base (c : core) : Prop := {
  ba_room : forall rid, room_base c rid;
  ba_users : users_ok c;
  ba_fresh : forall rid, (c_nextRoom c <= rid)%nat -> roomOf c rid = zero_Room;
  ba_codes : forall code rid, reg_rooms (c_reg c) !! code = Some rid ->
    (rid < c_nextRoom c)%nat /\ r_code (roomOf c rid) = code;
  ba_listed : forall rid, r_seats (roomOf c rid) <> [] ->
    reg_rooms (c_reg c) !! r_code (roomOf c rid) = Some rid;
  ba_graces : forall e, e ∈ reg_graces (c_reg c) -> (g_seat e).1 = g_room e }.

Record Inv (c : core) : Prop := {
  inv_base : Base c;
  inv_host : forall rid, host_ok c rid;
  inv_live : forall rid, live_ok c rid }.

(** All rooms but one are in order. *)
Definition others_ok (c : core) (rid : nat) : Prop :=
  forall r, r <> rid -> host_ok c r /\ live_ok c r.

(** ** The other rooms are not affected *)

Lemma room_base_within c c' rid r :
  within rid c c' -> r <> rid -> room_base c r -> room_base c' r.
Proof.
  intros [Hr Hs _ _ _ Hn] Hne [Hnd Hcap Haddr Hin Hlob Hm].
  assert (forall s, s.1 = r -> seatOf c' s = seatOf c s) as Heq.
  { intros s <-. by apply Hs. }
  constructor; rewrite ?Hr by done; try done.
  - intros s Hin'. destruct (Haddr s Hin'). split; [done|lia].
  - intros Hno s Hin'. rewrite Heq; [by apply Hlob|by apply Haddr].
  - intros m Hm'. destruct (Hm m Hm') as [H1 H2 H3 H4 H5 H6 H7].
    constructor; try done.
    + intros s Hin'. destruct (H4 s Hin'). split; [done|lia].
    + intros s Hin'. rewrite Heq; [by apply H5|by apply H4].
    + intros s Hin'. rewrite Heq; [by apply H6|by apply Haddr].
    + intros s Hin'. rewrite Heq; [by apply H7|by apply H4].
Qed.

Lemma host_ok_within c c' rid r :
  within rid c c' -> r <> rid -> room_base c r -> host_ok c r -> host_ok c' r.
Proof.
  intros [Hr Hs _ _ _ _] Hne Hb. unfold host_ok. rewrite !Hr by done.
  intros [?|(s & Hin & Hp)]; [by left|]. right. exists s. split; [done|].
  rewrite Hs; [done|]. apply (rb_addr _ _ Hb) in Hin as [? _]. congruence.
Qed.

Lemma live_ok_within c c' rid r :
  within rid c c' -> r <> rid -> room_base c r -> live_ok c r -> live_ok c' r.
Proof.
  intros [Hr Hs _ _ _ _] Hne Hb. unfold live_ok. rewrite !Hr by done.
  intros Hl m Hm. destruct (Hl m Hm) as (s & Hin & Hp). exists s. split; [done|].
  rewrite Hs; [done|].
  apply (mb_addr _ _ _ _ (rb_match _ _ Hb m Hm)) in Hin as [? _]. congruence.
Qed.

Lemma others_ok_within c c' rid :
  within rid c c' -> Base c -> others_ok c rid -> others_ok c' rid.
Proof.
  intros Hw Hb Ho r Hr. destruct (Ho r Hr). pose proof (ba_room _ Hb r).
  split; [by eapply host_ok_within|by eapply live_ok_within].
Qed.

Lemma Inv_others c rid : Inv c -> others_ok c rid.
Proof. intros [? Hh Hl] r _. split; auto. Qed.

Lemma Inv_intro c rid : Base c -> others_ok c rid -> host_ok c rid -> live_ok c rid -> Inv c.
Proof.
  intros Hb Ho Hh Hl. constructor; [done|..]; intros r;
    (destruct (decide (r = rid)) as [->|Hr]; [done|by apply Ho]).
Qed.

(** Close the invariant after an operation confined to a room. *)
Lemma Inv_within c c' rid :
  Inv c -> within rid c c' -> Base c' -> host_ok c' rid -> live_ok c' rid -> Inv c'.
Proof.
  intros Hi Hw Hb Hh Hl. eapply Inv_intro; [done| |done|done].
  eapply others_ok_within; [done|apply Hi|by apply Inv_others].
Qed.

(** [Base] after an operation confined to a room that kept its index in step. *)
Lemma Base_within c c' rid :
  Base c -> within rid c c' -> room_base c' rid -> users_ok c' ->
  (r_seats (roomOf c' rid) <> [] ->
     reg_rooms (c_reg c) !! r_code (roomOf c rid) = Some rid) ->
  ((rid < c_nextRoom c)%nat \/ roomOf c' rid = roomOf c rid) ->
  (forall e, e ∈ reg_graces (c_reg c') -> (g_seat e).1 = g_room e) ->
  Base c'.
Proof.
  intros [Hr Hu Hf Hc Hl Hg] Hw Hrid Hu' Hs Hn Hg'.
  pose proof Hw as [Wr Ws Wc Wrs Wnr Wns].
  constructor; [|done|..|done].
  - intros r. destruct (decide (r = rid)) as [->|]; [done|]. by eapply room_base_within.
  - rewrite Wnr. intros r Hge. destruct (decide (r = rid)) as [->|].
    + destruct Hn as [| ->]; [lia|auto].
    + rewrite Wr by done. auto.
  - rewrite Wrs, Wnr. intros code r Hcr. destruct (Hc _ _ Hcr) as [? <-].
    split; [done|]. destruct (decide (r = rid)) as [->|]; [done|by rewrite Wr].
  - intros r Hne. rewrite Wrs. destruct (decide (r = rid)) as [->|].
    + rewrite Wc. auto.
    + rewrite Wr in * by done. auto.
Qed.

(** ** Assignments to one seat *)

Lemma capture_ok_ext st st' :
  st_batches st' = st_batches st -> st_lastSeq st' = st_lastSeq st ->
  st_eventCount st' = st_eventCount st -> st_lastBucket st' = st_lastBucket st ->
  st_activeBuckets st' = st_activeBuckets st ->
  capture_ok st -> capture_ok st'.
Proof. intros H1 H2 H3 H4 H5 []. constructor; by rewrite ?H1, ?H2, ?H3, ?H4, ?H5. Qed.

(** An assignment that keeps the account, does not make the seat race, and keeps
    a participant's capture in order. *)
Lemma Base_updSeat c s f :
  Base c ->
  (forall st, st_userID (f st) = st_userID st) ->
  (racing (f (seatOf c s)) -> racing (seatOf c s)) ->
  (forall rid m, r_match (roomOf c rid) = Some m -> s ∈ m_roster m ->
     capture_ok (seatOf c s) -> capture_ok (f (seatOf c s))) ->
  Base (c_updSeat s f c).
Proof.
  intros [Hr Hu Hf Hc Hl Hg] Huid Hst Hcap.
  assert (forall s', racing (seatOf (c_updSeat s f c) s') -> racing (seatOf c s')) as Hrace.
  { intros s'. rewrite seatOf_updSeat. case_decide; subst; auto. }
  constructor; try done.
  - intros rid. destruct (Hr rid) as [Hnd Hcp Haddr Hin Hlob Hm].
    constructor; try done.
    + intros Hno s' Hin' Hra. by eapply Hlob, Hrace.
    + intros m Hm'. destruct (Hm m Hm') as [H1 H2 H3 H4 H5 H6 H7].
      constructor; try done; auto.
      intros s' Hin'. rewrite seatOf_updSeat. case_decide; subst; eauto.
  - intros u rid s'. rewrite (Hu u rid s'), roomOf_updSeat, seatOf_updSeat.
    case_decide; subst; by rewrite ?Huid.
Qed.

Lemma host_ok_updSeat c s f rid :
  (forall st, st_playerID (f st) = st_playerID st) ->
  host_ok c rid -> host_ok (c_updSeat s f c) rid.
Proof.
  intros Hf [?|(s' & ? & Hp)]; [by left|]. right. exists s'. split; [done|].
  rewrite seatOf_updSeat. case_decide; subst; by rewrite ?Hf.
Qed.

Lemma live_ok_updSeat c s f rid :
  (racing (seatOf c s) -> racing (f (seatOf c s))) ->
  live_ok c rid -> live_ok (c_updSeat s f c) rid.
Proof.
  intros Hf Hl m Hm. destruct (Hl m Hm) as (s' & ? & Hp). exists s'. split; [done|].
  rewrite seatOf_updSeat. case_decide; subst; auto.
Qed.

Ltac same_capture := apply capture_ok_ext; done.

(** ** Assignments to one room *)

Definition unseen_room (f : Room -> Room) : Prop :=
  forall r, r_code (f r) = r_code r /\ r_seats (f r) = r_seats r
    /\ r_inMatch (f r) = r_inMatch r /\ r_match (f r) = r_match r.

Lemma match_base_ext c c' rid seats m :
  (forall s, s.1 = rid -> seatOf c' s = seatOf c s) -> (c_nextSeat c <= c_nextSeat c')%nat ->
  (forall s, s ∈ seats -> s.1 = rid) ->
  match_base c rid seats m -> match_base c' rid seats m.
Proof.
  intros Heq Hn Ha [H1 H2 H3 H4 H5 H6 H7]. constructor; try done.
  - intros s Hin. destruct (H4 s Hin). split; [done|lia].
  - intros s Hin. rewrite Heq; [by apply H5|by apply H4].
  - intros s Hin. rewrite Heq; [by apply H6|by apply Ha].
  - intros s Hin. rewrite Heq; [by apply H7|by apply H4].
Qed.

Lemma room_base_ext c c' rid :
  (forall s, seatOf c' s = seatOf c s) -> roomOf c' rid = roomOf c rid ->
  (c_nextSeat c <= c_nextSeat c')%nat -> room_base c rid -> room_base c' rid.
Proof.
  intros Hs Hr Hn [Hnd Hcap Haddr Hin Hlob Hm]. constructor; rewrite ?Hr; try done.
  - intros s Hx. destruct (Haddr s Hx). split; [done|lia].
  - intros Hno s Hx. rewrite Hs. by apply Hlob.
  - intros m Hm'. eapply match_base_ext; [intros; apply Hs|done| |by apply Hm].
    intros s Hx. by apply Haddr.
Qed.

Lemma Base_updRoom c rid f :
  unseen_room f -> Base c -> (rid < c_nextRoom c)%nat -> Base (c_updRoom rid f c).
Proof.
  intros Hf Hb Hn. pose proof (ba_room _ Hb rid) as [Hnd Hcap Haddr Hin Hlob Hm].
  destruct (Hf (roomOf c rid)) as (F1 & F2 & F3 & F4).
  eapply Base_within; [done|apply within_updRoom; apply Hf|..].
  - constructor; rewrite roomOf_updRoom_eq, ?F2, ?F3, ?F4; try done.
    intros m Hm'. eapply match_base_ext; [..|by apply Hm]; try done.
    intros s Hs. by apply Haddr.
  - intros u r s. rewrite (ba_users _ Hb u r s), roomOf_updRoom.
    case_decide; subst; by rewrite ?F2.
  - rewrite roomOf_updRoom_eq, F2. apply (ba_listed _ Hb).
  - by left.
  - apply (ba_graces _ Hb).
Qed.

Lemma host_ok_updRoom c rid r f :
  unseen_room f -> (forall r, r_hostID (f r) = r_hostID r) ->
  host_ok c r -> host_ok (c_updRoom rid f c) r.
Proof.
  intros Hf Hh. unfold host_ok. rewrite roomOf_updRoom. case_decide; subst; [|exact id].
  destruct (Hf (roomOf c r)) as (_ & -> & _). by rewrite Hh.
Qed.

Lemma live_ok_updRoom c rid r f : unseen_room f -> live_ok c r -> live_ok (c_updRoom rid f c) r.
Proof.
  intros Hf. unfold live_ok. rewrite roomOf_updRoom. case_decide; subst; [|exact id].
  by destruct (Hf (roomOf c r)) as (_ & _ & _ & ->).
Qed.

Lemma Inv_updRoom c rid f :
  unseen_room f -> (forall r, r_hostID (f r) = r_hostID r) -> (rid < c_nextRoom c)%nat ->
  Inv c -> Inv (c_updRoom rid f c).
Proof.
  intros Hf Hh Hn [Hb Hho Hl]. constructor; [by apply Base_updRoom|..]; intros r.
  - by apply host_ok_updRoom.
  - by apply live_ok_updRoom.
Qed.

(** A room somebody sits in, or that runs a match, has been allocated. *)
Lemma allocated_seat c rid s : Base c -> s ∈ r_seats (roomOf c rid) -> (rid < c_nextRoom c)%nat.
Proof.
  intros Hb Hs. destruct (decide (rid < c_nextRoom c)%nat) as [|Hn]; [done|].
  rewrite (ba_fresh _ Hb) in Hs by lia. by apply elem_of_nil in Hs.
Qed.

Lemma allocated_match c rid m : Base c -> r_match (roomOf c rid) = Some m -> (rid < c_nextRoom c)%nat.
Proof.
  intros Hb Hm. destruct (decide (rid < c_nextRoom c)%nat) as [|Hn]; [done|].
  rewrite (ba_fresh _ Hb) in Hm by lia. done.
Qed.

(** ** States equal up to what no invariant sees *)

Record seat_eqv (a b : seat) : Prop := {
  se_user : st_userID a = st_userID b;
  se_player : st_playerID a = st_playerID b;
  se_status : st_status a = st_status b;
  se_batches : st_batches a = st_batches b;
  se_lastSeq : st_lastSeq a = st_lastSeq b;
  se_count : st_eventCount a = st_eventCount b;
  se_bucket : st_lastBucket a = st_lastBucket b;
  se_active : st_activeBuckets a = st_activeBuckets b }.

#[export] Instance seat_eqv_equiv : Equivalence seat_eqv.
Proof.
  split.
  - by intros a.
  - intros a b []. constructor; congruence.
  - intros a b c [] []. constructor; congruence.
Qed.

Record core_eqv (c c' : core) : Prop := {
  ce_room : forall r, roomOf c r = roomOf c' r;
  ce_seat : forall s, seat_eqv (seatOf c s) (seatOf c' s);
  ce_reg : c_reg c = c_reg c';
  ce_nextRoom : c_nextRoom c = c_nextRoom c';
  ce_nextSeat : c_nextSeat c = c_nextSeat c' }.

#[export] Instance core_eqv_equiv : Equivalence core_eqv.
Proof.
  split.
  - intros c. constructor; try done.
  - intros c c' []. constructor; intros; (symmetry; auto).
  - intros a b c [] []. constructor; intros; (etrans; [eauto|eauto]).
Qed.

Lemma capture_ok_eqv a b : seat_eqv a b -> capture_ok a -> capture_ok b.
Proof. intros [_ _ _ H1 H2 H3 H4 H5]. by apply capture_ok_ext. Qed.

Lemma racing_eqv a b : seat_eqv a b -> racing a <-> racing b.
Proof. intros []. unfold racing. by rewrite se_status0. Qed.

Lemma Base_eqv c c' : core_eqv c c' -> Base c -> Base c'.
Proof.
  intros [Er Es Eg En Ens] [Hr Hu Hf Hc Hl Hg].
  constructor; try (intros; rewrite <- ?Eg, <- ?En, <- ?Er in *; auto; fail).
  - intros rid. destruct (Hr rid) as [Hnd Hcp Haddr Hin Hlob Hm].
    constructor; rewrite <- ?Er, <- ?Ens; try done.
    + intros Hno s Hs. rewrite <- (racing_eqv _ _ (Es s)). by apply Hlob.
    + intros m Hm'. destruct (Hm m Hm') as [H1 H2 H3 H4 H5 H6 H7].
      constructor; rewrite <- ?Ens; try done.
      * intros s Hs. rewrite <- (racing_eqv _ _ (Es s)). by apply H5.
      * intros s Hs. rewrite <- (racing_eqv _ _ (Es s)). by apply H6.
      * intros s Hs. eapply capture_ok_eqv; [apply Es|by apply H7].
  - intros u rid s. rewrite <- Eg, <- Er, <- (se_user _ _ (Es s)). apply Hu.
Qed.

Lemma host_ok_eqv c c' r : core_eqv c c' -> host_ok c r -> host_ok c' r.
Proof.
  intros [Er Es _ _ _]. unfold host_ok. rewrite <- Er.
  intros [?|(s & ? & Hp)]; [by left|]. right. exists s. split; [done|].
  by rewrite <- (se_player _ _ (Es s)).
Qed.

Lemma live_ok_eqv c c' r : core_eqv c c' -> live_ok c r -> live_ok c' r.
Proof.
  intros [Er Es _ _ _] Hl m. rewrite <- Er. intros Hm. destruct (Hl m Hm) as (s & ? & ?).
  exists s. by rewrite <- (racing_eqv _ _ (Es s)).
Qed.

Lemma Inv_eqv c c' : core_eqv c c' -> Inv c -> Inv c'.
Proof.
  intros He [Hb Hh Hl]. constructor; [by eapply Base_eqv|..]; intros r.
  - by eapply host_ok_eqv.
  - by eapply live_ok_eqv.
Qed.

#[export] Instance Base_proper : Proper (core_eqv ==> iff) Base.
Proof. intros c c' He. split; apply Base_eqv; [done|by symmetry]. Qed.
#[export] Instance Inv_proper : Proper (core_eqv ==> iff) Inv.
Proof. intros c c' He. split; apply Inv_eqv; [done|by symmetry]. Qed.
#[export] Instance host_ok_proper : Proper (core_eqv ==> eq ==> iff) host_ok.
Proof. intros c c' He r _ <-. split; apply host_ok_eqv; [done|by symmetry]. Qed.
#[export] Instance live_ok_proper : Proper (core_eqv ==> eq ==> iff) live_ok.
Proof. intros c c' He r _ <-. split; apply live_ok_eqv; [done|by symmetry]. Qed.

Lemma eqv_updSeat c s f : (forall st, seat_eqv (f st) st) -> core_eqv (c_updSeat s f c) c.
Proof.
  intros Hf. constructor; try done. intros s'. rewrite seatOf_updSeat.
  case_decide; subst; [apply Hf|done].
Qed.

Lemma eqv_updRoom c c' r f : core_eqv c c' -> core_eqv (c_updRoom r f c) (c_updRoom r f c').
Proof.
  intros [Er Es Eg En Ens]. constructor; try done. intros r'. rewrite !roomOf_updRoom.
  case_decide; by rewrite Er.
Qed.

(** A later assignment to the room hides an earlier one it overwrites. *)
Lemma eqv_updRoom_absorb c r f g :
  (forall x, f (g x) = f x) -> core_eqv (c_updRoom r f (c_updRoom r g c)) (c_updRoom r f c).
Proof.
  intros Hfg. constructor; try done. intros r'. destruct (decide (r = r')) as [<-|Hr].
  - by rewrite !roomOf_updRoom_eq.
  - by rewrite !roomOf_updRoom_ne.
Qed.

Lemma eqv_forSeats l f w :
  (forall s w, s ∈ l -> core_eqv (w_core (f s w)) (w_core w)) ->
  core_eqv (w_core (forSeats l f w)) (w_core w).
Proof.
  intros Hf. unfold forSeats. revert w. induction l as [|s l IH]; intros w; simpl; [reflexivity|].
  etrans; [apply IH; set_solver|]. apply Hf. set_solver.
Qed.
