(* ===== verification/WsOps.v ===== *)
(** * internal/ws: the critical sections keep the invariant

    First the primitive changes (a seat removed, the host reassigned, a match
    ended), then every locked operation of room.go, room_match.go, room_afk.go and
    room_idle.go: each takes a state satisfying [Inv] to one satisfying [Inv]. *)

From S2P Require Import Prelude GoStd Json Protocol Ratelimit WsState WsRoom WsMatch WsLobby WsCore WsInv.

Open Scope Z_scope.

Section ops.
Context `{Env}.

(** ** Loops over seats *)

Lemma forSeats_inv (P : world -> Prop) l f w :
  (forall s w, s ∈ l -> P w -> P (f s w)) -> P w -> P (forSeats l f w).
Proof.
  intros Hf. unfold forSeats. revert w. induction l as [|s l IH]; intros w HP; simpl; [done|].
  apply IH; [intros; apply Hf; set_solver|]. apply Hf; [set_solver|done].
Qed.

(** A loop that assigns through each of some distinct pointers. *)
Lemma forSeats_updSeat_seatOf l f w s :
  NoDup l ->
  seatOf (w_core (forSeats l (fun s => updSeat s f) w)) s
  = if decide (s ∈ l) then f (seatOf (w_core w) s) else seatOf (w_core w) s.
Proof.
  unfold forSeats. revert w. induction l as [|s' l IH]; intros w Hnd; cbn [foldl].
  { case_decide; set_solver. }
  apply NoDup_cons in Hnd as [Hni Hnd]. rewrite IH by done. autorewrite with tm_core.
  rewrite seatOf_updSeat. repeat case_decide; subst; set_solver.
Qed.

Lemma forSeats_updSeat_rest l f w :
  let c' := w_core (forSeats l (fun s => updSeat s f) w) in
  c_rooms c' = c_rooms (w_core w) /\ c_reg c' = c_reg (w_core w)
  /\ c_nextRoom c' = c_nextRoom (w_core w) /\ c_nextSeat c' = c_nextSeat (w_core w).
Proof.
  intros c'. subst c'. pattern (forSeats l (fun s => updSeat s f) w).
  apply forSeats_inv; [|done]. intros s w' _ Hw. exact Hw.
Qed.

(** ** Removing a seat *)

Lemma unindexSeat_core st w :
  exists users, w_core (unindexSeat st w) = c_updReg (set_reg_users users) (w_core w)
    /\ users = (let u := st_userID (seatOf (w_core w) st) in
               let us := reg_users (c_reg (w_core w)) in
               if u =s? "" then us
               else match us !! u with
                    | Some ref => if decide (ref.2 = st) then delete u us else us
                    | None => us
                    end).
Proof.
  eexists. split; [|reflexivity]. unfold unindexSeat. fold (seatOf (w_core w) st).
  rewrite getSeat_core. unfold getReg.
  assert (forall c, c = c_updReg (set_reg_users (reg_users (c_reg c))) c) as Hid.
  { by intros [? ? [] ? ?]. }
  repeat case_match; simplify_eq/=; try apply Hid; done.
Qed.

Lemma users_removed c rid s seats' us :
  Base c -> s ∈ r_seats (roomOf c rid) ->
  (forall x, x ∈ seats' <-> x ∈ r_seats (roomOf c rid) /\ x <> s) ->
  us = (let u := st_userID (seatOf c s) in
        if u =s? "" then reg_users (c_reg c)
        else match reg_users (c_reg c) !! u with
             | Some ref => if decide (ref.2 = s) then delete u (reg_users (c_reg c))
                           else reg_users (c_reg c)
             | None => reg_users (c_reg c)
             end) ->
  us !! st_userID (seatOf c s) = None /\
  forall u r x, us !! u = Some (r, x) <->
    u <> "" /\ x ∈ (if decide (rid = r) then seats' else r_seats (roomOf c r))
    /\ st_userID (seatOf c x) = u.
Proof.
  intros Hb Hs Hx ->. pose proof (ba_users _ Hb) as Hu. cbv zeta.
  assert (forall r x, x ∈ (if decide (rid = r) then seats' else r_seats (roomOf c r)) <->
    x ∈ r_seats (roomOf c r) /\ (r = rid -> x <> s)) as Hmem.
  { intros r x. case_decide; subst; [rewrite Hx|]; naive_solver. }
  case_match eqn:Eu; bool_to_prop.
  - split.
    { rewrite Eu. destruct (_ !! "") as [[r x]|] eqn:E; [|done]. by apply Hu in E as []. }
    intros u r x. rewrite (Hu u r x), Hmem. split; [|naive_solver].
    intros (? & ? & ?). split_and!; try done. intros -> ->. congruence.
  - assert (reg_users (c_reg c) !! st_userID (seatOf c s) = Some (rid, s)) as E by by apply Hu.
    rewrite E. cbn [snd]. rewrite decide_True by done.
    split; [apply lookup_delete_eq|].
    intros u r x. rewrite Hmem. destruct (decide (st_userID (seatOf c s) = u)) as [<-|Hne].
    + rewrite lookup_delete_eq. split; [done|]. intros (? & [Hin Hxs] & Hxu).
      assert (reg_users (c_reg c) !! st_userID (seatOf c s) = Some (r, x)) as E' by by apply Hu.
      rewrite E in E'. simplify_eq. by destruct Hxs.
    + rewrite lookup_delete_ne by done. rewrite (Hu u r x). split; [|naive_solver].
      intros (? & ? & Hxu). split_and!; try done. intros -> ->. congruence.
Qed.

Record removed (rid : nat) (s : seatref) (c c' : core) : Prop := {
  rm_base : Base c';
  rm_within : within rid c c';
  rm_seat : forall x, seatOf c' x = seatOf c x;
  rm_seats : forall x, x ∈ r_seats (roomOf c' rid) <-> x ∈ r_seats (roomOf c rid) /\ x <> s;
  rm_length : length (r_seats (roomOf c' rid)) = pred (length (r_seats (roomOf c rid)));
  rm_match : r_match (roomOf c' rid) = r_match (roomOf c rid);
  rm_host : r_hostID (roomOf c' rid) = r_hostID (roomOf c rid);
  rm_next : c_nextRoom c' = c_nextRoom c;
  rm_users : reg_users (c_reg c') !! st_userID (seatOf c s) = None;
  rm_sub : reg_users (c_reg c') ⊆ reg_users (c_reg c) }.

Lemma removeSeatLocked_removed rid i s w :
  Base (w_core w) -> r_seats (roomOf (w_core w) rid) !! i = Some s ->
  ~ racing (seatOf (w_core w) s) ->
  removed rid s (w_core w) (w_core (removeSeatLocked rid i w)).
Proof.
  intros Hb Hi Hra. set (c := w_core w) in *.
  pose proof (ba_room _ Hb rid) as [Hnd Hcap Haddr Hin Hlob Hm].
  assert (s ∈ r_seats (roomOf c rid)) as Hs by by eapply list_elem_of_lookup_2.
  assert (forall x, x ∈ cut_at i (r_seats (roomOf c rid))
            <-> x ∈ r_seats (roomOf c rid) /\ x <> s) as Hx.
  { intros x. by apply cut_at_elem. }
  unfold removeSeatLocked. rewrite getRoom_core. fold c. rewrite Hi. autorewrite with tm_core.
  destruct (unindexSeat_core s w) as (us & -> & Hus). fold c in Hus |- *.
  destruct (users_removed c rid s _ us Hb Hs Hx Hus) as [Hnone Husers].
  set (c' := c_updRoom _ _ _).
  assert (roomOf c' rid = set_r_seats (cut_at i (r_seats (roomOf c rid))) (roomOf c rid)) as Hr.
  { subst c'. by rewrite roomOf_updRoom_eq. }
  assert (within rid c c') as Hw.
  { subst c'. repeat within_step. }
  constructor; try done; rewrite ?Hr; cbn [set_r_seats r_seats]; try done.
  - eapply Base_within; [done|done|..].
    + constructor; rewrite Hr; cbn [set_r_seats r_seats r_match r_inMatch].
      * by apply cut_at_NoDup.
      * pose proof (cut_at_length_le i (r_seats (roomOf c rid))). lia.
      * intros x [? _]%Hx. by apply Haddr.
      * done.
      * intros Hno x [? _]%Hx. by apply Hlob.
      * intros m Hm'. destruct (Hm m Hm') as [H1 H2 H3 H4 H5 H6 H7]. constructor; try done.
        -- intros x Hxr Hxa. apply Hx. split; [by apply H5|]. by intros ->.
        -- intros x [? _]%Hx. by apply H6.
    + intros u r x. subst c'. autorewrite with tm_core. rewrite roomOf_updRoom.
      rewrite (Husers u r x). case_decide; subst; done.
    + intros _. apply (ba_listed _ Hb). by intros E; rewrite E in Hs; apply elem_of_nil in Hs.
    + left. by eapply allocated_seat.
    + apply (ba_graces _ Hb).
  - by eapply cut_at_length.
  - subst c'. cbn. rewrite Hus. cbv zeta. repeat case_match; try done. apply delete_subseteq.
Qed.

Lemma removeFromSeatsLocked_removed rid s w :
  Base (w_core w) -> s ∈ r_seats (roomOf (w_core w) rid) -> ~ racing (seatOf (w_core w) s) ->
  removed rid s (w_core w) (w_core (removeFromSeatsLocked rid s w)).
Proof.
  intros Hb Hs Hra. unfold removeFromSeatsLocked. rewrite getRoom_core.
  destruct (find_index _ _) as [i|] eqn:Hi.
  - apply find_index_Some in Hi as (x & Hx & Heq). bool_to_prop. subst x.
    by apply removeSeatLocked_removed.
  - eapply find_index_None in Hi; [|done]. by rewrite bool_decide_eq_true_2 in Hi.
Qed.

(** ** The host *)

Lemma findSeatByID_spec rid p w s :
  findSeatByIDLocked rid p w = Some s ->
  s ∈ r_seats (roomOf (w_core w) rid) /\ st_playerID (seatOf (w_core w) s) = p.
Proof. intros [? Hp]%find_first_Some. by bool_to_prop. Qed.

Lemma findSeat_spec rid sid w s :
  findSeatLocked rid sid w = Some s ->
  s ∈ r_seats (roomOf (w_core w) rid) /\ st_sess (seatOf (w_core w) s) = Some sid.
Proof. intros [? Hp]%find_first_Some. by bool_to_prop. Qed.

Lemma seatIndexByID_spec rid p w i :
  seatIndexByIDLocked rid p w = Some i ->
  exists s, r_seats (roomOf (w_core w) rid) !! i = Some s
    /\ st_playerID (seatOf (w_core w) s) = p.
Proof.
  intros (s & Hs & Hp)%find_index_Some. bool_to_prop. by exists s.
Qed.

Lemma unseen_hostID h : unseen_room (set_r_hostID h).
Proof. by intros []. Qed.

(** What [reassignHostLocked] leaves behind. *)
Lemma reassignHostLocked_spec rid w :
  Base (w_core w) -> (rid < c_nextRoom (w_core w))%nat ->
  let c' := w_core (reassignHostLocked rid w) in
  Base c' /\ host_ok c' rid /\ within rid (w_core w) c'
  /\ (forall s, seatOf c' s = seatOf (w_core w) s)
  /\ r_seats (roomOf c' rid) = r_seats (roomOf (w_core w) rid)
  /\ r_match (roomOf c' rid) = r_match (roomOf (w_core w) rid)
  /\ c_reg c' = c_reg (w_core w).
Proof.
  intros Hb Hn. cbv zeta. pose proof (reassignHostLocked_within rid w) as Hw.
  revert Hw. unfold reassignHostLocked. rewrite getRoom_core.
  destruct (r_seats _) as [|s l] eqn:Hs; autorewrite with tm_core; intros Hw; split_and!;
    try done; try (by rewrite roomOf_updRoom_eq, ?Hs);
    try (apply Base_updRoom; [apply unseen_hostID|done|done]).
  - left. by rewrite roomOf_updRoom_eq.
  - right. exists s. rewrite roomOf_updRoom_eq. cbn. rewrite Hs. split; [set_solver|done].
Qed.

Lemma host_ok_removed rid s c c' :
  removed rid s c c' -> st_playerID (seatOf c s) <> r_hostID (roomOf c rid) ->
  host_ok c rid -> host_ok c' rid.
Proof.
  intros [_ _ Hseat Hin _ _ Hh _ _ _] Hne [Hno|(x & Hx & Hp)]; unfold host_ok; rewrite Hh;
    [by left|right]. exists x. rewrite Hin, Hseat. split_and!; try done. by intros ->.
Qed.

(** ** The end of a match *)

Lemma allTerminal_false rid w m :
  allTerminalLocked rid w = false -> r_match (roomOf (w_core w) rid) = Some m ->
  exists s, s ∈ m_roster m /\ racing (seatOf (w_core w) s).
Proof.
  unfold allTerminalLocked. rewrite getRoom_core. intros Ht Hm. rewrite Hm in Ht.
  apply forallb_false in Ht as (s & ? & Hs). exists s. by bool_to_prop.
Qed.

Lemma allTerminal_true rid w :
  allTerminalLocked rid w = true ->
  exists m, r_match (roomOf (w_core w) rid) = Some m
    /\ forall s, s ∈ m_roster m -> ~ racing (seatOf (w_core w) s).
Proof.
  unfold allTerminalLocked. rewrite getRoom_core. intros Ht.
  destruct (r_match _) as [m|] eqn:Hm; [|done]. exists m. split; [done|].
  intros s Hs. eapply forallb_elem in Ht; [|done]. by bool_to_prop.
Qed.

(** The room once the match is taken down, its seats not yet reset. *)
Definition cleared (rid : nat) (c : core) : core :=
  c_updRoom rid (fun r => set_r_inMatch false (set_r_match None r)) c.

Lemma cleared_within rid c : within rid c (cleared rid c).
Proof. apply within_updRoom. by intros []. Qed.

Lemma cleared_Base rid c m :
  Base c -> r_match (roomOf c rid) = Some m ->
  (forall s, s ∈ m_roster m -> ~ racing (seatOf c s)) -> Base (cleared rid c).
Proof.
  intros Hb Hm Hdone. pose proof (ba_room _ Hb rid) as [Hnd Hcap Haddr Hin Hlob Hmb].
  eapply Base_within; [done|apply cleared_within|..].
  - unfold cleared. constructor; rewrite roomOf_updRoom_eq; cbn; try done.
    intros _ s Hs Hra. eapply Hdone; [|done]. by apply (mb_racing _ _ _ _ (Hmb m Hm)).
  - intros u r s. rewrite (ba_users _ Hb u r s). unfold cleared. rewrite roomOf_updRoom.
    case_decide; by subst.
  - unfold cleared. rewrite roomOf_updRoom_eq. apply (ba_listed _ Hb).
  - left. by eapply allocated_match.
  - apply (ba_graces _ Hb).
Qed.

Lemma deliverEnd_eqv rid e s w : core_eqv (w_core (deliverEnd rid e s w)) (w_core w).
Proof. unfold deliverEnd. repeat case_match; try reflexivity. by apply eqv_updSeat. Qed.

(** Between the end of a match and the last check of its room. *)
Record lobby_phase (rid : nat) (c0 c : core) : Prop := {
  lp_base : Base c;
  lp_within : within rid c0 c;
  lp_match : r_match (roomOf c rid) = None;
  lp_sub : reg_users (c_reg c) ⊆ reg_users (c_reg c0) }.

Lemma lobby_resetSeat rid c0 c s :
  s.1 = rid -> lobby_phase rid c0 c -> lobby_phase rid c0 (c_updSeat s resetSeat c).
Proof.
  intros Hs [Hb Hw Hm Hu]. constructor; [|etrans; [done|by apply within_updSeat]|done|done].
  apply Base_updSeat; [done|..].
  - intros st. unfold resetSeat. by case_match.
  - unfold racing, resetSeat. by case_match.
  - intros r m Hr Hin. pose proof (mb_addr _ _ _ _ (rb_match _ _ (ba_room _ Hb r) m Hr) s Hin) as [].
    congruence.
Qed.

Lemma lobby_removed rid c0 c c' s :
  removed rid s c c' -> lobby_phase rid c0 c -> lobby_phase rid c0 c'.
Proof.
  intros [] [Hb Hw Hm Hu]. constructor; [done|by etrans|congruence|by etrans].
Qed.

Lemma lobby_reapSeats rid n c0 w :
  lobby_phase rid c0 (w_core w) -> lobby_phase rid c0 (w_core (reapSeats n rid w)).
Proof.
  revert w. induction n as [|n IH]; intros w Hw; simpl; [done|]. apply IH.
  rewrite getRoom_core. destruct (_ !! n) as [s|] eqn:Hs; [|done].
  case_match; [|done]. eapply lobby_removed; [|done].
  apply removeSeatLocked_removed; [apply Hw|done|].
  apply (rb_lobby _ _ (ba_room _ (lp_base _ _ _ Hw) rid)); [apply Hw|].
  by eapply list_elem_of_lookup_2.
Qed.

(** A lobby whose host is gone gets the seat at the front. *)
Lemma lobby_host rid c0 w :
  lobby_phase rid c0 (w_core w) -> (rid < c_nextRoom c0)%nat ->
  let w' := match findSeatByIDLocked rid (r_hostID (getRoom w rid)) w with
            | Some _ => w
            | None => reassignHostLocked rid w
            end in
  lobby_phase rid c0 (w_core w') /\ host_ok (w_core w') rid.
Proof.
  intros Hp Hn. cbv zeta. destruct (findSeatByIDLocked _ _ w) as [s|] eqn:Hf.
  { split; [done|]. right. exists s. by apply findSeatByID_spec in Hf. }
  destruct (reassignHostLocked_spec rid w) as (? & ? & ? & _ & _ & Hm & Hg); [apply Hp|..].
  { by rewrite (wi_nextRoom _ _ _ (lp_within _ _ _ Hp)). }
  split; [|done]. destruct Hp. constructor; [done|by etrans|congruence|by rewrite Hg].
Qed.

Lemma endMatchLocked_spec rid reason w m :
  Base (w_core w) -> r_match (roomOf (w_core w) rid) = Some m ->
  (forall s, s ∈ m_roster m -> ~ racing (seatOf (w_core w) s)) ->
  let c' := w_core (endMatchLocked rid reason w) in
  lobby_phase rid (w_core w) c' /\ host_ok c' rid.
Proof.
  intros Hb Hm Hdone. cbv zeta. unfold endMatchLocked. rewrite getRoom_core, Hm.
  pose proof (rb_match _ _ (ba_room _ Hb rid) m Hm) as Hmb.
  rewrite (mb_ended _ _ _ _ Hmb). cbn -[forSeats reapSeats].
  set (w0 := if has_store then _ else _).
  assert (w_core w0 = c_updRoom rid (set_r_match (Some (stopTimers m))) (w_core w)) as Hw0.
  { subst w0. by destruct has_store. }
  clearbody w0.
  set (w1 := forSeats (m_roster m) _ w0).
  assert (core_eqv (cleared rid (w_core w1)) (cleared rid (w_core w))) as Heqv.
  { etrans; [apply eqv_updRoom, eqv_forSeats; intros; apply deliverEnd_eqv|].
    rewrite Hw0. by apply eqv_updRoom_absorb. }
  assert (within rid (w_core w0) (w_core w1)) as Hw1.
  { apply within_forSeats. intros s w' Hs. unfold deliverEnd. repeat case_match; try reflexivity.
    apply within_updSeat. by apply (mb_addr _ _ _ _ Hmb). }
  clearbody w1.
  change (updRoom rid _ w1) with (updCore (cleared rid) w1).
  set (w2 := updCore (cleared rid) w1).
  assert (lobby_phase rid (w_core w) (w_core w2)) as Hp2.
  { constructor.
    - unfold w2. rewrite core_updCore, Heqv. by eapply cleared_Base.
    - unfold w2. rewrite core_updCore. etrans; [|apply cleared_within].
      etrans; [|exact Hw1]. rewrite Hw0. by apply within_updRoom.
    - unfold w2, cleared. by rewrite core_updCore, roomOf_updRoom_eq.
    - unfold w2. rewrite core_updCore, (ce_reg _ _ Heqv). done. }
  clearbody w2. rewrite getRoom_core.
  set (w3 := forSeats _ _ w2).
  assert (lobby_phase rid (w_core w) (w_core w3)) as Hp3.
  { apply (forSeats_inv (fun w' => lobby_phase rid (w_core w) (w_core w'))); [|done].
    intros s w' Hs Hp. apply lobby_resetSeat; [|done].
    by apply (rb_addr _ _ (ba_room _ (lp_base _ _ _ Hp2) rid)). }
  clearbody w3.
  set (w4 := reapSeats _ rid w3).
  assert (lobby_phase rid (w_core w) (w_core w4)) as Hp4 by by apply lobby_reapSeats.
  clearbody w4. set (w5 := match findSeatByIDLocked rid (r_hostID (getRoom w4 rid)) w4 with
    | Some _ => w4 | None => reassignHostLocked rid w4 end).
  assert (lobby_phase rid (w_core w) (w_core w5) /\ host_ok (w_core w5) rid).
  { apply lobby_host; [done|]. by eapply allocated_match. }
  clearbody w5. case_match; [done|]. by rewrite core_broadcastStateLocked.
Qed.
(** ** Inside a section of a room *)

(** The room may still lack a racing seat; the rest is in order. *)
Record section_ok (rid : nat) (c0 c : core) : Prop := {
  so_base : Base c;
  so_within : within rid c0 c;
  so_host : host_ok c rid;
  so_sub : reg_users (c_reg c) ⊆ reg_users (c_reg c0) }.

Lemma section_Inv rid c0 c : Inv c0 -> section_ok rid c0 c -> live_ok c rid -> Inv c.
Proof. intros Hi []. by eapply Inv_within. Qed.

Lemma lobby_section rid c0 c : lobby_phase rid c0 c -> host_ok c rid -> section_ok rid c0 c.
Proof. by intros []. Qed.

Lemma lobby_live rid c0 c : lobby_phase rid c0 c -> live_ok c rid.
Proof. intros [_ _ Hm _] m. by rewrite Hm. Qed.

(** What follows when nobody races any more. *)
Lemma settle_true rid reason c0 w :
  Inv c0 -> section_ok rid c0 (w_core w) -> allTerminalLocked rid w = true ->
  Inv (w_core (endMatchLocked rid reason w))
  /\ section_ok rid c0 (w_core (endMatchLocked rid reason w))
  /\ reg_users (c_reg (w_core (endMatchLocked rid reason w))) ⊆ reg_users (c_reg (w_core w)).
Proof.
  intros Hi Hs Ht. apply allTerminal_true in Ht as (m & Hm & Hd).
  destruct (endMatchLocked_spec rid reason w m) as [Hp Hh]; [apply Hs|done|done|].
  assert (section_ok rid c0 (w_core (endMatchLocked rid reason w))) as Hso.
  { destruct (lobby_section _ _ _ Hp Hh), Hs. constructor; [done|by etrans|done|by etrans]. }
  split_and!; [|done|apply Hp]. eapply section_Inv; [done|done|by eapply lobby_live].
Qed.

Lemma settle_false rid c0 w :
  Inv c0 -> section_ok rid c0 (w_core w) -> allTerminalLocked rid w = false -> Inv (w_core w).
Proof.
  intros Hi Hs Ht. eapply section_Inv; [done|done|].
  intros m Hm. exact (allTerminal_false rid w m Ht Hm).
Qed.

Lemma settle rid reason c0 w :
  Inv c0 -> section_ok rid c0 (w_core w) ->
  let w' := if allTerminalLocked rid w then endMatchLocked rid reason w else w in
  Inv (w_core w') /\ section_ok rid c0 (w_core w')
  /\ reg_users (c_reg (w_core w')) ⊆ reg_users (c_reg (w_core w)).
Proof.
  intros Hi Hs. cbv zeta. destruct (allTerminalLocked rid w) eqn:Ht.
  - by apply settle_true.
  - split_and!; [by eapply settle_false|done|done].
Qed.

(** A section that only touched the seat [s] of the room, and not its account. *)
Lemma section_updSeat rid c s f :
  Base c -> host_ok c rid -> s.1 = rid ->
  (forall st, st_userID (f st) = st_userID st /\ st_playerID (f st) = st_playerID st) ->
  (racing (f (seatOf c s)) -> racing (seatOf c s)) ->
  (forall m, r_match (roomOf c rid) = Some m -> s ∈ m_roster m ->
     capture_ok (seatOf c s) -> capture_ok (f (seatOf c s))) ->
  section_ok rid c (c_updSeat s f c).
Proof.
  intros Hb Hh Hs Hid Hr Hc. constructor; [|by apply within_updSeat| |done].
  - apply Base_updSeat; [done|apply Hid|done|]. intros r m Hm Hin.
    pose proof (mb_addr _ _ _ _ (rb_match _ _ (ba_room _ Hb r) m Hm) s Hin) as [Hr' _].
    replace r with rid in * by congruence. eauto.
  - apply host_ok_updSeat; [apply Hid|done].
Qed.

Lemma section_trans rid c0 c1 c2 :
  section_ok rid c0 c1 -> section_ok rid c1 c2 -> section_ok rid c0 c2.
Proof. intros [] []. constructor; [done|by etrans|done|by etrans]. Qed.

Lemma section_refl rid c : Inv c -> section_ok rid c c.
Proof. intros []. by constructor. Qed.

(** A participant reaches a terminal status. *)
Lemma section_terminal rid c0 c s x :
  section_ok rid c0 c -> s.1 = rid -> x <> seatActive ->
  section_ok rid c0 (c_updSeat s (set_st_status x) c).
Proof.
  intros Hso Hs Hx. eapply section_trans; [done|]. destruct Hso.
  apply section_updSeat; try done. intros m _ _. by apply capture_ok_ext.
Qed.

(** Assignments no invariant reads. *)
Lemma section_eqv rid c0 c c' :
  core_eqv c' c -> within rid c c' -> section_ok rid c0 c -> section_ok rid c0 c'.
Proof.
  intros He Hw [Hb Hw0 Hh Hu]. symmetry in He. constructor.
  - by eapply Base_eqv.
  - by etrans.
  - by eapply host_ok_eqv.
  - by rewrite <- (ce_reg _ _ He).
Qed.

Lemma section_unseen rid c0 c s f :
  (forall st, seat_eqv (f st) st) -> s.1 = rid ->
  section_ok rid c0 c -> section_ok rid c0 (c_updSeat s f c).
Proof. intros. eapply section_eqv; [by apply eqv_updSeat|by apply within_updSeat|done]. Qed.

(** ** A seat leaves *)

(** [removeFromSeatsLocked], then a new host if the old one left. *)
Definition dropSeat (rid : nat) (st : seatref) (wasHost : bool) (w : world) : world :=
  let w := removeFromSeatsLocked rid st w in
  if wasHost then reassignHostLocked rid w else w.

Lemma dropSeat_spec rid st wasHost w :
  Base (w_core w) -> host_ok (w_core w) rid -> st ∈ r_seats (roomOf (w_core w) rid) ->
  ~ racing (seatOf (w_core w) st) ->
  wasHost = (st_playerID (seatOf (w_core w) st) =s? r_hostID (roomOf (w_core w) rid)) ->
  let c' := w_core (dropSeat rid st wasHost w) in
  section_ok rid (w_core w) c'
  /\ r_match (roomOf c' rid) = r_match (roomOf (w_core w) rid)
  /\ (forall s, seatOf c' s = seatOf (w_core w) s)
  /\ reg_users (c_reg c') !! st_userID (seatOf (w_core w) st) = None
  /\ length (r_seats (roomOf c' rid)) = pred (length (r_seats (roomOf (w_core w) rid))).
Proof.
  intros Hb Hh Hst Hra ->. cbv zeta. unfold dropSeat.
  pose proof (removeFromSeatsLocked_removed rid st w Hb Hst Hra) as Hrm.
  pose proof (allocated_seat _ _ _ Hb Hst) as Hn.
  destruct (_ =s? _) eqn:Ehost; bool_to_prop.
  - destruct (reassignHostLocked_spec rid (removeFromSeatsLocked rid st w))
      as (? & ? & ? & Hseat & Hseats & Hm & Hg); [apply Hrm| |].
    { by rewrite (rm_next _ _ _ _ Hrm). }
    destruct Hrm. split_and!.
    + constructor; [done|by etrans|done|by rewrite Hg].
    + congruence.
    + intros s. by rewrite Hseat.
    + by rewrite Hg.
    + by rewrite Hseats.
  - pose proof (host_ok_removed _ _ _ _ Hrm Ehost Hh). destruct Hrm. split_and!; try done.
Qed.

Lemma not_racing_seat c rid s :
  Base c -> s ∈ r_seats (roomOf c rid) ->
  bool_decide (is_Some (r_match (roomOf c rid))) && (st_status (seatOf c s) =s? seatActive) = false ->
  ~ racing (seatOf c s).
Proof.
  intros Hb Hs [Hm|Hst]%andb_false_iff; bool_to_prop; [|done].
  apply (rb_lobby _ _ (ba_room _ Hb rid)); [|done]. by apply eq_None_not_Some.
Qed.

Lemma dropSeat_section rid c0 st wasHost w :
  section_ok rid c0 (w_core w) -> (rid < c_nextRoom (w_core w))%nat ->
  (st ∈ r_seats (roomOf (w_core w) rid) -> ~ racing (seatOf (w_core w) st)) ->
  wasHost = (st_playerID (seatOf (w_core w) st) =s? r_hostID (roomOf (w_core w) rid)) ->
  section_ok rid c0 (w_core (dropSeat rid st wasHost w))
  /\ (live_ok (w_core w) rid -> live_ok (w_core (dropSeat rid st wasHost w)) rid).
Proof.
  intros Hso Hn Hra Hwas.
  assert (forall c', r_match (roomOf c' rid) = r_match (roomOf (w_core w) rid) ->
    (forall s, seatOf c' s = seatOf (w_core w) s) ->
    live_ok (w_core w) rid -> live_ok c' rid) as Hlive.
  { intros c' Hm Hs Hl m. rewrite Hm. intros Hm'. destruct (Hl m Hm') as (x & ? & ?).
    exists x. by rewrite Hs. }
  destruct (decide (st ∈ r_seats (roomOf (w_core w) rid))) as [Hin|Hin].
  - destruct (dropSeat_spec rid st wasHost w) as (? & ? & ? & _ & _);
      [apply Hso|apply Hso|done|auto|done|].
    split; [by eapply section_trans|by apply Hlive].
  - unfold dropSeat, removeFromSeatsLocked. rewrite getRoom_core.
    destruct (find_index _ _) as [i|] eqn:Hi.
    { apply find_index_Some in Hi as (x & Hx & Heq). bool_to_prop. subst x.
      by apply list_elem_of_lookup_2 in Hx. }
    destruct wasHost; [|done].
    destruct (reassignHostLocked_spec rid w) as (? & ? & ? & ? & _ & ? & Hg); [apply Hso|done|].
    split; [|by apply Hlive].
    destruct Hso. constructor; [done|by etrans|done|by rewrite Hg].
Qed.

Lemma leaveSeatLocked_spec rid st w :
  Inv (w_core w) -> st.1 = rid -> (rid < c_nextRoom (w_core w))%nat ->
  let c' := w_core (leaveSeatLocked rid st w) in
  Inv c' /\ section_ok rid (w_core w) c'
  /\ (st ∈ r_seats (roomOf (w_core w) rid) ->
      reg_users (c_reg c') !! st_userID (seatOf (w_core w) st) = None).
Proof.
  intros Hi Ha Hn. cbv zeta. unfold leaveSeatLocked. rewrite getRoom_core, getSeat_core.
  set (mid := bool_decide _ && _).
  set (w1 := if mid then _ else w).
  assert (section_ok rid (w_core w) (w_core w1)
    /\ (st ∈ r_seats (roomOf (w_core w) rid) -> ~ racing (seatOf (w_core w1) st))
    /\ c_rooms (w_core w1) = c_rooms (w_core w) /\ c_nextRoom (w_core w1) = c_nextRoom (w_core w)
    /\ st_userID (seatOf (w_core w1) st) = st_userID (seatOf (w_core w) st))
    as (Hs1 & Hr1 & Hrooms & Hnr & Hu1).
  { subst w1. destruct mid eqn:Em; autorewrite with tm_core.
    - split_and!; [|done..].
      apply section_updSeat; try done; [apply Hi|apply Hi|]. intros m _ _. by apply capture_ok_ext.
    - split_and!; [by apply section_refl| |done|done|done]. intros Hst.
      by eapply not_racing_seat; [apply Hi|..]. }
  assert (forall r, roomOf (w_core w1) r = roomOf (w_core w) r) as Hroom.
  { intros r. unfold roomOf. by rewrite Hrooms. }
  clearbody w1 mid. set (h := st_playerID (getSeat w1 st) =s? r_hostID (getRoom w1 rid)).
  fold (dropSeat rid st h w1).
  assert (st ∈ r_seats (roomOf (w_core w) rid) ->
    reg_users (c_reg (w_core (dropSeat rid st h w1))) !! st_userID (seatOf (w_core w) st) = None)
    as Hu2.
  { intros Hst. rewrite <- Hu1. apply dropSeat_spec; try done; [apply Hs1|apply Hs1|by rewrite Hroom|auto]. }
  destruct (dropSeat_section rid (w_core w) st h w1) as [Hs2 _];
    [done|by rewrite Hnr|by rewrite Hroom|done|].
  set (w2 := dropSeat _ _ _ _) in *. clearbody w2 h.
  match goal with |- context [if allTerminalLocked rid ?w3 then _ else _] => set (w3' := w3) end.
  assert (w_core w3' = w_core w2) as H3.
  { subst w3'. repeat case_match; by autorewrite with tm_core. }
  clearbody w3'.
  destruct (settle rid ReasonAllFinished (w_core w) w3') as (? & ? & Hsub); [done|by rewrite H3|].
  split_and!; [done|done|]. rewrite H3 in Hsub. intros Hst.
  eapply lookup_weaken_None; [|done]. auto.
Qed.

Lemma leaveSeatLocked_seated rid st w :
  Inv (w_core w) -> st ∈ r_seats (roomOf (w_core w) rid) ->
  Inv (w_core (leaveSeatLocked rid st w))
  /\ section_ok rid (w_core w) (w_core (leaveSeatLocked rid st w))
  /\ reg_users (c_reg (w_core (leaveSeatLocked rid st w))) !! st_userID (seatOf (w_core w) st)
     = None.
Proof.
  intros Hi Hst. pose proof (rb_addr _ _ (ba_room _ (inv_base _ Hi) rid) _ Hst) as [Ha _].
  destruct (leaveSeatLocked_spec rid st w Hi Ha) as (? & ? & Hu).
  { by eapply allocated_seat; [apply Hi|]. }
  auto.
Qed.

Lemma leaveLocked_Inv rid sid w w' :
  Inv (w_core w) -> leaveLocked rid sid w = Some w' -> Inv (w_core w').
Proof.
  unfold leaveLocked. intros Hi. destruct (findSeatLocked rid sid w) as [st|] eqn:Hf; [|done].
  intros [= <-]. apply findSeat_spec in Hf as [Hst _].
  by destruct (leaveSeatLocked_seated rid st w Hi Hst) as [? _].
Qed.

Lemma onGraceExpireLocked_Inv rid st w :
  Inv (w_core w) -> st.1 = rid -> Inv (w_core (onGraceExpireLocked rid st w)).
Proof.
  intros Hi Ha. unfold onGraceExpireLocked. rewrite !getSeat_core.
  destruct (bool_decide _ && _ && _) eqn:Hg; [|done]. bool_to_prop.
  destruct (seatIndexByIDLocked _ _ _) as [i|] eqn:Hidx;
    [|by match goal with H : is_Some None |- _ => destruct H end].
  apply seatIndexByID_spec in Hidx as (x & Hx & _). apply list_elem_of_lookup_2 in Hx.
  pose proof (allocated_seat _ _ _ (inv_base _ Hi) Hx) as Hn.
  rewrite (getRoom_core w). destruct (bool_decide _ && _) eqn:Hmid.
  - set (w1 := broadcastPeerStatusLocked _ _ _ _).
    assert (w_core w1 = c_updSeat st (set_st_status StatusDNF) (w_core w)) as Hw1.
    { subst w1. by autorewrite with tm_core. }
    clearbody w1.
    assert (section_ok rid (w_core w) (w_core w1)) as Hs1.
    { rewrite Hw1. apply section_terminal; [by apply section_refl|done|done]. }
    set (h := _ =s? _). fold (dropSeat rid st h w1).
    assert (section_ok rid (w_core w) (w_core (dropSeat rid st h w1))) as Hs2.
    { apply dropSeat_section; [done|by rewrite Hw1|..].
      - rewrite Hw1, seatOf_updSeat_eq. done.
      - subst h. rewrite getRoom_core, Hw1. by autorewrite with tm_core. }
    destruct (allTerminalLocked _ _) eqn:Ht; [by eapply settle_true|].
    apply (settle_false _ _ _ Hi Hs2) in Ht.
    repeat case_match; autorewrite with tm_core; done.
  - set (w1 := updSeat _ _ _).
    assert (section_ok rid (w_core w) (w_core w1)) as Hs1.
    { apply section_unseen; [done|done|by apply section_refl]. }
    assert (seatOf (w_core w1) st = set_st_disconnected false (seatOf (w_core w) st)) as Hst.
    { subst w1. by autorewrite with tm_core. }
    assert (roomOf (w_core w1) rid = roomOf (w_core w) rid) as Hroom by done.
    assert (live_ok (w_core w1) rid) as Hl1 by by apply live_ok_updSeat, Hi.
    assert (c_nextRoom (w_core w1) = c_nextRoom (w_core w)) as Hnext by done.
    clearbody w1. set (h := _ =s? _). fold (dropSeat rid st h w1).
    destruct (dropSeat_section rid (w_core w) st h w1) as [Hs2 Hl2]; [done|by rewrite Hnext|..].
    { rewrite Hroom, Hst. intros Hin. apply (not_racing_seat _ _ _ (inv_base _ Hi) Hin Hmid). }
    { subst h. by rewrite getRoom_core, Hst. }
    assert (Inv (w_core (dropSeat rid st h w1))) as Hi2 by (eapply section_Inv; eauto).
    repeat case_match; autorewrite with tm_core; done.
Qed.
(** ** Refusals and touches *)

Lemma core_touch_eq rid w :
  exists f, unseen_room f /\ (forall r, r_hostID (f r) = r_hostID r)
    /\ w_core (touchLocked rid w) = c_updRoom rid f (w_core w).
Proof. eexists. split_and!; [| |apply core_touchLocked]; done. Qed.

Lemma touchLocked_Inv rid w :
  Inv (w_core w) -> (rid < c_nextRoom (w_core w))%nat -> Inv (w_core (touchLocked rid w)).
Proof.
  intros Hi Hn. destruct (core_touch_eq rid w) as (f & ? & ? & ->). by apply Inv_updRoom.
Qed.

Lemma Inv_unseen_seat c s f : (forall st, seat_eqv (f st) st) -> Inv c -> Inv (c_updSeat s f c).
Proof. intros Hf. apply Inv_eqv. symmetry. by apply eqv_updSeat. Qed.

Lemma Inv_forSeats l f w :
  (forall s w', s ∈ l -> core_eqv (w_core (f s w')) (w_core w')) ->
  Inv (w_core w) -> Inv (w_core (forSeats l f w)).
Proof. intros Hf. apply Inv_eqv. symmetry. by apply eqv_forSeats. Qed.

(** ** The lobby commands *)

Lemma ready_Inv rid sid v w : Inv (w_core w) -> Inv (w_core (ready rid sid v w)).
Proof.
  intros Hi. unfold ready. destruct (findSeatLocked _ _ _) as [st|] eqn:Hf; [|done].
  apply findSeat_spec in Hf as [Hst _]. pose proof (allocated_seat _ _ _ (inv_base _ Hi) Hst).
  repeat case_match; autorewrite with tm_core; try done.
  apply touchLocked_Inv; [by apply Inv_unseen_seat|done].
Qed.

Lemma setFreemods_Inv rid sid fm w : Inv (w_core w) -> Inv (w_core (setFreemods rid sid fm w)).
Proof.
  intros Hi. unfold setFreemods. destruct (findSeatLocked _ _ _) as [st|] eqn:Hf; [|done].
  apply findSeat_spec in Hf as [Hst _]. pose proof (allocated_seat _ _ _ (inv_base _ Hi) Hst).
  repeat case_match; autorewrite with tm_core; try done.
  apply touchLocked_Inv; [by apply Inv_unseen_seat|done].
Qed.

Lemma updateSettings_Inv rid sid ns w :
  Inv (w_core w) -> Inv (w_core (updateSettings rid sid ns w)).
Proof.
  intros Hi. unfold updateSettings. destruct (findSeatLocked _ _ _) as [st|] eqn:Hf; [|done].
  apply findSeat_spec in Hf as [Hst _]. pose proof (allocated_seat _ _ _ (inv_base _ Hi) Hst).
  case_match; [done|]. case_match; [done|]. case_match; [done|].
  rewrite core_systemChatLocked, core_broadcastStateLocked.
  apply touchLocked_Inv.
  - apply Inv_forSeats; [by intros; apply eqv_updSeat|]. by apply Inv_updRoom.
  - match goal with |- context [forSeats ?l _ ?w1] =>
      destruct (forSeats_updSeat_rest l (set_st_ready false) w1) as (_ & _ & -> & _) end. done.
Qed.

Lemma kick_Inv rid sid tid w : Inv (w_core w) -> Inv (w_core (kick rid sid tid w)).
Proof.
  intros Hi. unfold kick. destruct (findSeatLocked _ _ _) as [st|] eqn:Hf; [|done].
  apply findSeat_spec in Hf as [Hst _]. pose proof (allocated_seat _ _ _ (inv_base _ Hi) Hst) as Hn.
  case_match; [done|]. rewrite getRoom_core. case_match eqn:Hin; [done|].
  destruct (seatIndexByIDLocked _ _ _) as [i|]; [|done].
  destruct (r_seats _ !! i) as [target|] eqn:Ht; [|done].
  case_match eqn:Hh; [done|]. bool_to_prop. autorewrite with tm_core.
  rewrite (rb_in _ _ (ba_room _ (inv_base _ Hi) rid)) in Hin. bool_to_prop.
  assert (r_match (roomOf (w_core w) rid) = None) as Hm by by apply eq_None_not_Some.
  assert (removed rid target (w_core w) (w_core (removeSeatLocked rid i w))) as Hrm.
  { apply removeSeatLocked_removed; [apply Hi|done|].
    apply (rb_lobby _ _ (ba_room _ (inv_base _ Hi) rid)); [done|].
    by eapply list_elem_of_lookup_2. }
  apply touchLocked_Inv; [|by rewrite (rm_next _ _ _ _ Hrm)].
  eapply Inv_within; [done|apply Hrm|apply Hrm|..].
  - by eapply host_ok_removed, Hi.
  - intros m. by rewrite (rm_match _ _ _ _ Hrm), Hm.
Qed.

Lemma transferHost_Inv rid sid tid w :
  Inv (w_core w) -> Inv (w_core (transferHost rid sid tid w)).
Proof.
  intros Hi. unfold transferHost. destruct (findSeatLocked _ _ _) as [st|] eqn:Hf; [|done].
  apply findSeat_spec in Hf as [Hst _]. pose proof (allocated_seat _ _ _ (inv_base _ Hi) Hst) as Hn.
  case_match; [done|]. case_match; [done|].
  destruct (findSeatByIDLocked _ _ _) as [target|] eqn:Ht; [|done].
  apply findSeatByID_spec in Ht as [Ht _].
  case_match; autorewrite with tm_core; [done|].
  apply touchLocked_Inv; [|done]. autorewrite with tm_core.
  eapply Inv_within; [done|by apply within_updRoom|..].
  - apply Base_updRoom; [apply unseen_hostID|apply Hi|done].
  - right. exists target. by rewrite roomOf_updRoom_eq.
  - apply live_ok_updRoom; [apply unseen_hostID|apply Hi].
Qed.

Lemma chat_Inv rid sid text w : Inv (w_core w) -> Inv (w_core (chat rid sid text w)).
Proof.
  intros Hi. unfold chat. destruct (findSeatLocked _ _ _) as [st|] eqn:Hf; [|done].
  apply findSeat_spec in Hf as [Hst _]. pose proof (allocated_seat _ _ _ (inv_base _ Hi) Hst) as Hn.
  case_match; [done|]. destruct (nowNs w) as [now w1] eqn:Hw1. injection Hw1 as _ <-.
  destruct (allow _ _ _ _) as [ok b]. destruct ok; cbn -[touchLocked forSeats]; [|done].
  rewrite core_forSeats by (intros; apply core_deliverLocked). rewrite core_ticked.
  by apply touchLocked_Inv.
Qed.
(** ** Finishing, the timers and the sweep *)

(** The running match may get other timers. *)
Lemma section_rematch rid c0 c m m' :
  section_ok rid c0 c -> r_match (roomOf c rid) = Some m ->
  m_roster m' = m_roster m -> m_ended m' = m_ended m ->
  section_ok rid c0 (c_updRoom rid (set_r_match (Some m')) c).
Proof.
  intros [Hb Hw Hh Hu] Hm Hr He. pose proof (ba_room _ Hb rid) as [Hnd Hcap Haddr Hin Hlob Hmb].
  assert (within rid c (c_updRoom rid (set_r_match (Some m')) c)) as Hw' by by apply within_updRoom.
  constructor; [|by etrans| |done].
  - eapply Base_within; [done|done|..].
    + constructor; rewrite roomOf_updRoom_eq; cbn; try done.
      * by rewrite Hin, Hm.
      * intros m0 [= <-]. destruct (Hmb m Hm).
        constructor; rewrite ?Hr, ?He; done.
    + intros u r s. rewrite (ba_users _ Hb u r s), roomOf_updRoom. case_decide; by subst.
    + rewrite roomOf_updRoom_eq. apply (ba_listed _ Hb).
    + left. by eapply allocated_match.
    + apply (ba_graces _ Hb).
  - revert Hh. unfold host_ok. rewrite roomOf_updRoom_eq. done.
Qed.

Lemma finish_Inv rid sid mid ff w : Inv (w_core w) -> Inv (w_core (finish rid sid mid ff w)).
Proof.
  intros Hi. unfold finish. destruct (findSeatLocked _ _ _) as [st|] eqn:Hf; [|done].
  apply findSeat_spec in Hf as [Hst _].
  pose proof (rb_addr _ _ (ba_room _ (inv_base _ Hi) rid) _ Hst) as [Ha _].
  rewrite getRoom_core. destruct (r_match _) as [m|] eqn:Hm; [|done].
  case_match; [done|]. case_match; [done|]. destruct ff.
  - set (w1 := broadcastPeerStatusLocked _ _ _ _).
    destruct (settle rid ReasonAllFinished (w_core w) w1) as [? _]; [done| |done].
    subst w1. autorewrite with tm_core.
    apply section_terminal; [by apply section_refl|done|done].
  - destruct (nowMs _) as [now w0] eqn:Hw0. injection Hw0 as _ <-.
    set (w1 := broadcastPeerStatusLocked _ _ _ _).
    assert (section_ok rid (w_core w) (w_core w1)) as Hs1.
    { subst w1. autorewrite with tm_core. apply section_unseen; [done|done|].
      apply section_terminal; [by apply section_refl|done|done]. }
    assert (r_match (roomOf (w_core w1) rid) = Some m) as Hm1.
    { subst w1. by autorewrite with tm_core. }
    clearbody w1. destruct (allTerminalLocked _ _) eqn:Ht; [by eapply settle_true|].
    case_match; [|by eapply settle_false].
    eapply section_Inv; [done|by eapply section_rematch|].
    intros m' Hm'. autorewrite with tm_core in *. cbn in Hm'. injection Hm' as <-.
    destruct (allTerminal_false rid w1 m Ht Hm1) as (x & ? & ?). by exists x.
Qed.

(** After the loop nobody of the roster races. *)
Lemma dnfRacing_spec rid c0 roster w :
  section_ok rid c0 (w_core w) -> (forall s, s ∈ roster -> s.1 = rid) ->
  let c' := w_core (dnfRacing rid roster w) in
  section_ok rid c0 c' /\ c_rooms c' = c_rooms (w_core w)
  /\ (forall s, racing (seatOf c' s) -> racing (seatOf (w_core w) s) /\ s ∉ roster).
Proof.
  cbv zeta. unfold dnfRacing, forSeats. revert w. induction roster as [|x l IH]; intros w Hs Ha; cbn [foldl].
  { split_and!; [done|done|]. set_solver. }
  set (w1 := if st_status _ =s? _ then _ else w).
  assert (section_ok rid c0 (w_core w1) /\ c_rooms (w_core w1) = c_rooms (w_core w)
    /\ (forall s, racing (seatOf (w_core w1) s) -> racing (seatOf (w_core w) s) /\ s <> x))
    as (Hs1 & Hr1 & Hx1).
  { subst w1. rewrite getSeat_core. destruct (_ =s? _) eqn:Hx; bool_to_prop; autorewrite with tm_core.
    - split_and!; [apply section_terminal; [done|apply Ha; set_solver|done]|done|].
      intros s. rewrite seatOf_updSeat. case_decide; subst; [done|]. naive_solver.
    - split_and!; try done. intros s Hra. split; [done|]. by intros ->. }
  clearbody w1. destruct (IH w1) as (? & ? & Hl); [done|set_solver|].
  split_and!; [done|congruence|]. intros s Hra. apply Hl in Hra as [[??]%Hx1 ?]. set_solver.
Qed.

Lemma forceEnd_Inv rid mid reason w w' :
  Inv (w_core w) -> forceEnd rid mid reason w = Some w' -> Inv (w_core w').
Proof.
  intros Hi. unfold forceEnd. rewrite getRoom_core.
  destruct (r_match _) as [m|] eqn:Hm; [|done]. case_match; [done|]. intros [= <-].
  pose proof (rb_match _ _ (ba_room _ (inv_base _ Hi) rid) m Hm) as Hmb.
  destruct (dnfRacing_spec rid (w_core w) (m_roster m) w) as (Hs & Hr & Hx).
  { by apply section_refl. }
  { intros s Hin. by apply (mb_addr _ _ _ _ Hmb). }
  destruct (endMatchLocked_spec rid reason (dnfRacing rid (m_roster m) w) m) as [Hp Hh].
  { apply Hs. }
  { unfold roomOf in *. by rewrite Hr. }
  { intros s Hin Hra. by apply Hx in Hra as []. }
  eapply section_Inv; [done|eapply section_trans; [done|by apply lobby_section]|].
  by eapply lobby_live.
Qed.

Lemma sweepSeats_spec rid m judge now l acc c0 :
  section_ok rid c0 (w_core acc.2) -> (forall s, s ∈ l -> s.1 = rid) ->
  let acc' := foldl (fun acc s => sweepSeat rid m judge now s acc) acc l in
  section_ok rid c0 (w_core acc'.2)
  /\ (acc'.1 = false -> acc.1 = false /\ w_core acc'.2 = w_core acc.2).
Proof.
  cbv zeta. revert acc. induction l as [|x l IH]; intros [k w] Hs Ha; [done|].
  cbn [foldl]. set (acc1 := sweepSeat _ _ _ _ _ _).
  assert (section_ok rid c0 (w_core acc1.2) /\ (acc1.1 = false -> k = false /\ w_core acc1.2 = w_core w))
    as [Hs1 Hk1].
  { subst acc1. unfold sweepSeat. case_match; [done|]. case_match; [|done]. cbn [fst snd].
    autorewrite with tm_core. split; [|done].
    apply section_terminal; [done|apply Ha; set_solver|done]. }
  clearbody acc1. destruct (IH acc1) as [? Hk]; [done|set_solver|].
  split; [done|]. intros Hf. destruct (Hk Hf) as [Hf1 ->]. by apply Hk1.
Qed.

Lemma sweepLocked_Inv rid mid w : Inv (w_core w) -> Inv (w_core (sweepLocked rid mid w).2).
Proof.
  intros Hi. unfold sweepLocked. rewrite getRoom_core.
  destruct (r_match _) as [m|] eqn:Hm; [|done]. case_match; [done|].
  destruct (nowMs w) as [now w1] eqn:Hw1. injection Hw1 as <- <-.
  pose proof (rb_match _ _ (ba_room _ (inv_base _ Hi) rid) m Hm) as Hmb.
  set (judge := IsCounted _ && _).
  destruct (sweepSeats_spec rid m judge (now_ms (w_tick w)) (m_roster m) (false, ticked w) (w_core w))
    as [Hs Hk].
  { by apply section_refl. }
  { intros s Hin. by apply (mb_addr _ _ _ _ Hmb). }
  destruct (foldl _ _ _) as [kicked w2]; cbn [fst snd] in *.
  destruct kicked; cbn [andb].
  - destruct (allTerminalLocked rid w2) eqn:Ht; [by eapply settle_true|by eapply settle_false].
  - cbn [snd]. destruct (Hk eq_refl) as [_ ->]. done.
Qed.
(** ** The relay *)

Lemma event_total_app l b :
  event_total (l ++ [b]) = event_total l + Z.of_nat (length (b_events b)).
Proof. unfold event_total. rewrite fmap_app, sum_Z_app. cbn. lia. Qed.

Lemma acceptBatch_capture goAt recv eb st :
  eb_batchSeq eb = st_lastSeq st + 1 ->
  st_eventCount st + Z.of_nat (length (eb_events eb)) <= maxCapturedEvents ->
  capture_ok st -> capture_ok (acceptBatch goAt recv eb st).
Proof.
  intros Hseq Hmax [H1 H2 H3 H4 H5 H6]. unfold acceptBatch.
  set (bucket := Z.quot _ _). set (st0 := set_st_lastBatchMs _ _).
  assert (capture_ok st0) as Hc0.
  { subst st0. constructor; cbn -[maxCapturedEvents event_total]; try done.
    - rewrite fmap_app, length_app, H1. cbn [length]. rewrite Nat.add_1_r, seq_S, fmap_app. cbn.
      do 2 f_equal. lia.
    - rewrite length_app. cbn. lia.
    - rewrite event_total_app. cbn. lia. }
  cbv zeta. case_match; bool_to_prop; [|done].
  assert (st_lastBucket st0 = st_lastBucket st /\ st_activeBuckets st0 = st_activeBuckets st)
    as [Hlb Hab] by done.
  destruct Hc0. constructor; cbn -[maxCapturedEvents event_total]; try done; lia.
Qed.

Lemma relayTo_eqv st pb o w : core_eqv (w_core (relayTo st pb o w)) (w_core w).
Proof. unfold relayTo. repeat case_match; try reflexivity. by apply eqv_updSeat. Qed.

Lemma acceptBatch_ids goAt recv eb st :
  st_userID (acceptBatch goAt recv eb st) = st_userID st
  /\ st_playerID (acceptBatch goAt recv eb st) = st_playerID st
  /\ st_status (acceptBatch goAt recv eb st) = st_status st.
Proof. unfold acceptBatch. cbv zeta. by case_match. Qed.

Lemma relayEventBatch_Inv rid sid eb recv w :
  Inv (w_core w) -> Inv (w_core (relayEventBatch rid sid eb recv w)).
Proof.
  intros Hi. unfold relayEventBatch. destruct (findSeatLocked _ _ _) as [st|] eqn:Hf; [|done].
  apply findSeat_spec in Hf as [Hst _].
  pose proof (rb_addr _ _ (ba_room _ (inv_base _ Hi) rid) _ Hst) as [Ha _].
  pose proof (allocated_seat _ _ _ (inv_base _ Hi) Hst) as Hn.
  rewrite getRoom_core. destruct (r_match _) as [m|] eqn:Hm; [|done].
  rewrite getSeat_core. repeat (case_match; [done|]). bool_to_prop.
  apply Inv_forSeats; [intros; apply relayTo_eqv|].
  assert (Inv (w_core (touchLocked rid w))) as Hit by by apply touchLocked_Inv.
  assert (seatOf (w_core (touchLocked rid w)) st = seatOf (w_core w) st) as Hseat by done.
  set (w1 := touchLocked rid w) in *. clearbody w1. autorewrite with tm_core.
  pose proof (acceptBatch_ids (m_goAtMs m) recv eb) as Hid.
  eapply section_Inv; [exact Hit| |].
  - apply (section_updSeat rid); [apply Hit|apply Hit|done|naive_solver|..].
    + unfold racing. by destruct (Hid (seatOf (w_core w1) st)) as (_ & _ & ->).
    + intros _ _ _. rewrite Hseat. by apply acceptBatch_capture.
  - apply live_ok_updSeat; [|apply Hit]. unfold racing.
    by destruct (Hid (seatOf (w_core w1) st)) as (_ & _ & ->).
Qed.

(** ** The start *)

Lemma armSeat_capture goAt st : capture_ok (armSeat goAt st).
Proof. constructor; cbn; try done; lia. Qed.

Lemma c_updRoom_twice rid f g c :
  c_updRoom rid f (c_updRoom rid g c) = c_updRoom rid (fun r => f (g r)) c.
Proof.
  unfold c_updRoom, store_upd, set_c_rooms. cbn [c_rooms c_seats c_reg c_nextSeat c_nextRoom].
  rewrite lookup_total_insert_eq, insert_insert_eq. done.
Qed.

(** The seats armed and the room in match, at once. *)
Lemma started_Inv rid c c1 f m goAt :
  Inv c -> r_match (roomOf c rid) = None -> (2 <= length (r_seats (roomOf c rid)))%nat ->
  (forall s, seatOf c1 s = if decide (s ∈ r_seats (roomOf c rid)) then armSeat goAt (seatOf c s)
                           else seatOf c s) ->
  c_rooms c1 = c_rooms c /\ c_reg c1 = c_reg c
    /\ c_nextRoom c1 = c_nextRoom c /\ c_nextSeat c1 = c_nextSeat c ->
  (forall r, r_code (f r) = r_code r /\ r_seats (f r) = r_seats r /\ r_hostID (f r) = r_hostID r
    /\ r_inMatch (f r) = true /\ r_match (f r) = Some m) ->
  m_roster m = r_seats (roomOf c rid) -> m_ended m = false ->
  Inv (c_updRoom rid f c1).
Proof.
  intros Hi Hno Htwo Hseat (Hrooms & Hreg & Hnr & Hns) Hf Hros Hend.
  pose proof (ba_room _ (inv_base _ Hi) rid) as [Hnd Hcap Haddr Hin Hlob Hmb].
  assert (forall r, roomOf c1 r = roomOf c r) as Hroom by (intros; unfold roomOf; by rewrite Hrooms).
  set (c' := c_updRoom rid f c1).
  assert (roomOf c' rid = f (roomOf c rid)) as Hr.
  { subst c'. by rewrite roomOf_updRoom_eq, Hroom. }
  assert (forall r, r <> rid -> roomOf c' r = roomOf c r) as Hne.
  { intros r Hx. subst c'. by rewrite roomOf_updRoom_ne, Hroom. }
  assert (forall s, seatOf c' s = seatOf c1 s) as Hs' by done.
  destruct (Hf (roomOf c rid)) as (Fc & Fs & Fh & Fi & Fm).
  assert (within rid c c') as Hw.
  { constructor; rewrite ?Hr; try done; [|by cbn; rewrite Hreg|by cbn; rewrite Hns].
    intros s Hx. rewrite Hs', Hseat, decide_False; [done|]. by intros [? _]%Haddr. }
  assert (forall s, st_userID (seatOf c' s) = st_userID (seatOf c s)
                 /\ st_playerID (seatOf c' s) = st_playerID (seatOf c s)) as Hid.
  { intros s. rewrite Hs', Hseat. by case_decide. }
  eapply Inv_within; [done|done|..].
  - eapply Base_within; [apply Hi|done|..].
    + constructor; rewrite Hr, ?Fs, ?Fi, ?Fm; try done; [by cbn; rewrite Hns|].
      intros m0 [= <-]. constructor; rewrite ?Hros; try done; [by cbn; rewrite Hns|].
      intros s Hx. rewrite Hs', Hseat, decide_True by done. apply armSeat_capture.
    + intros u r s. cbn. rewrite Hreg. destruct (Hid s) as [-> _].
      rewrite (ba_users _ (inv_base _ Hi) u r s).
      destruct (decide (r = rid)) as [->|]; [by rewrite Hr, Fs|by rewrite Hne].
    + rewrite Hr, Fs. apply (ba_listed _ (inv_base _ Hi)).
    + left. destruct (r_seats (roomOf c rid)) as [|s l] eqn:E; [cbn in Htwo; lia|].
      eapply (allocated_seat _ _ s); [apply Hi|rewrite E; set_solver].
    + cbn. rewrite Hreg. apply (ba_graces _ (inv_base _ Hi)).
  - pose proof (inv_host _ Hi rid) as Hh. unfold host_ok in *. rewrite Hr, Fh, Fs.
    destruct Hh as [?|(s & ? & Hp)]; [by left|right]. exists s. by destruct (Hid s) as [_ ->].
  - intros m0. rewrite Hr, Fm. intros [= <-]. rewrite Hros.
    destruct (r_seats (roomOf c rid)) as [|s l] eqn:E; [cbn in Htwo; lia|].
    exists s. split; [set_solver|]. rewrite Hs', Hseat, decide_True by set_solver. done.
Qed.

Lemma startMatch_Inv rid sid force w : Inv (w_core w) -> Inv (w_core (startMatch rid sid force w)).
Proof.
  intros Hi. unfold startMatch. destruct (findSeatLocked _ _ _) as [st|] eqn:Hf; [|done].
  case_match; [done|]. case_match eqn:Hin; [done|]. case_match eqn:Htwo; [done|].
  case_match; [done|]. rewrite (getRoom_core w) in *. bool_to_prop.
  rewrite (rb_in _ _ (ba_room _ (inv_base _ Hi) rid)) in Hin. bool_to_prop.
  unfold nowMs, newMatchID, newSeed, randRead.
  rewrite core_forSeats by (intros; apply core_deliverLocked).
  rewrite core_updRoom, !core_ticked, core_touchLocked, c_updRoom_twice.
  eapply started_Inv; [exact Hi|by apply eq_None_not_Some|done|..].
  - intros s. apply (forSeats_updSeat_seatOf _ _ (ticked w)). apply (ba_room _ (inv_base _ Hi) rid).
  - apply (forSeats_updSeat_rest _ _ (ticked w)).
  - done.
  - done.
  - done.
Qed.
End ops.
