(* ===== verification/WsCalm.v ===== *)
(** * internal/ws: what a section of one room leaves of the registry

    Whatever a goroutine does under a room's lock, the accounts of the connections
    stay, the room map stays, and the account index only loses entries.  This is
    what a create or join in progress, which holds the registry's lock across
    several sections, relies on. *)

From S2P Require Import Prelude GoStd Json Protocol Ratelimit WsState WsRoom WsMatch WsLobby WsCore.

Open Scope Z_scope.

Section calm.
Context `{Env}.

Record calm (w w' : world) : Prop := {
  ca_user : forall s, ss_userID (getSess w' s) = ss_userID (getSess w s);
  ca_sub : reg_users (getReg w') ⊆ reg_users (getReg w);
  ca_rooms : reg_rooms (getReg w') = reg_rooms (getReg w);
  ca_next : c_nextRoom (w_core w') = c_nextRoom (w_core w);
  ca_code : forall r, r_code (getRoom w' r) = r_code (getRoom w r);
  ca_settings : forall r, r_settings (getRoom w' r) = r_settings (getRoom w r)
    \/ ValidateSettings (r_settings (getRoom w' r)) = None }.

#[export] Instance calm_refl : Reflexive calm.
Proof. intros w. constructor; auto. Qed.
#[export] Instance calm_trans : Transitive calm.
Proof.
  intros a b c [] []. constructor; intros; try congruence; [by etrans|].
  destruct (ca_settings1 r) as [-> |]; [apply ca_settings0|by right].
Qed.

(** ** The primitive changes *)

Lemma calm_core w w' :
  w_sess w' = w_sess w -> c_reg (w_core w') = c_reg (w_core w) ->
  c_nextRoom (w_core w') = c_nextRoom (w_core w) -> c_rooms (w_core w') = c_rooms (w_core w) ->
  calm w w'.
Proof.
  intros Es Er En Ec. constructor; unfold getSess, getReg, getRoom; rewrite ?Es, ?Er, ?Ec; auto.
Qed.

Lemma calm_updRoom' rid f w :
  (forall r, r_code (f r) = r_code r) ->
  (forall r, r_settings (f r) = r_settings r \/ ValidateSettings (r_settings (f r)) = None) ->
  calm w (updRoom rid f w).
Proof.
  intros Hf Hs. constructor; try done; intros r;
    rewrite !getRoom_core, core_updRoom, roomOf_updRoom; case_decide; subst; auto.
Qed.

Lemma calm_updRoom rid f w :
  (forall r, r_code (f r) = r_code r /\ r_settings (f r) = r_settings r) ->
  calm w (updRoom rid f w).
Proof. intros Hf. apply calm_updRoom'; intros r; [|left]; apply Hf. Qed.

Lemma calm_updSess sid f w :
  (forall x, ss_userID (f x) = ss_userID x) -> calm w (updSess sid f w).
Proof.
  intros Hf. constructor; try done; [|by left]. intros s. unfold getSess, updSess. cbn.
  rewrite store_upd_case. case_decide; subst; [apply Hf|done].
Qed.

Lemma calm_trySend sid f w : calm w (trySend sid f w).
Proof. apply calm_updSess. intros x. by case_match. Qed.

Lemma calm_forSeats l f w : (forall s w', calm w' (f s w')) -> calm w (forSeats l f w).
Proof.
  intros Hf. unfold forSeats. revert w. induction l as [|s l IH]; intros w; cbn; [reflexivity|].
  etrans; [apply Hf|apply IH].
Qed.

Lemma calm_unindex st w : calm w (unindexSeat st w).
Proof.
  unfold unindexSeat. case_match; [reflexivity|]. case_match; [|reflexivity].
  case_match; [|reflexivity]. constructor; try done; [|by left]. apply delete_subseteq.
Qed.

(** Peel the last change off the new world. *)
Ltac calm_step :=
  match goal with
  | |- calm ?w ?w => reflexivity
  | |- calm _ (trySend _ _ _) => etrans; [|apply calm_trySend]
  | |- calm _ (forSeats _ _ _) => etrans; [|apply calm_forSeats; intros]
  | |- calm _ (unindexSeat _ _) => etrans; [|apply calm_unindex]
  | |- calm _ (updSess _ _ ?w) => transitivity w; [|apply calm_updSess; done]
  | |- calm _ (updSeat _ _ ?w) => transitivity w; [|by apply calm_core]
  | |- calm _ (updRoom _ _ ?w) => transitivity w; [|apply calm_updRoom; done]
  | |- calm _ (set_w_persists _ ?w) => transitivity w; [|by apply calm_core]
  | |- calm _ (ticked ?w) => transitivity w; [|by apply calm_core]
  | |- calm _ (match ?x with _ => _ end) => destruct x
  | |- calm _ (match ?x with _ => _ end).2 => destruct x
  | |- calm _ (_, _).2 => cbn [snd]
  | |- calm _ (let (_, _) := ?x in _).2 => destruct x
  end.
Ltac calm_tac := repeat calm_step.

(** ** The locked helpers *)

Lemma calm_errLocked s c m w : calm w (errLocked s c m w).
Proof. apply calm_trySend. Qed.
Lemma calm_deliver s f w : calm w (deliverLocked s f w).
Proof. unfold deliverLocked. calm_tac. Qed.
Lemma calm_broadcastState r w : calm w (broadcastStateLocked r w).
Proof. apply calm_forSeats. intros. apply calm_deliver. Qed.
Lemma calm_broadcastPeer r i x w : calm w (broadcastPeerStatusLocked r i x w).
Proof. unfold broadcastPeerStatusLocked. calm_tac. Qed.
Lemma calm_systemChat r k x w : calm w (systemChatLocked r k x w).
Proof. unfold systemChatLocked, nowMs, deliverLocked. calm_tac. Qed.
Lemma calm_touch r w : calm w (touchLocked r w).
Proof. unfold touchLocked, nowMs. calm_tac. Qed.
Lemma calm_removeSeat r i w : calm w (removeSeatLocked r i w).
Proof. unfold removeSeatLocked. calm_tac. Qed.
Lemma calm_removeFromSeats r s w : calm w (removeFromSeatsLocked r s w).
Proof. unfold removeFromSeatsLocked. case_match; [apply calm_removeSeat|reflexivity]. Qed.
Lemma calm_reassign r w : calm w (reassignHostLocked r w).
Proof. unfold reassignHostLocked. calm_tac. Qed.
Lemma calm_reapSeats n r w : calm w (reapSeats n r w).
Proof.
  revert w. induction n as [|n IH]; intros w; cbn [reapSeats]; [reflexivity|].
  etrans; [|apply IH]. repeat case_match; try reflexivity. apply calm_removeSeat.
Qed.
Lemma calm_displaceLocked o w : calm w (displaceLocked o w).
Proof. unfold displaceLocked, displace. calm_tac. Qed.

(** The tactic with the helpers known. *)
Ltac calm_op :=
  first
  [ calm_step
  | match goal with
    | |- calm _ (errLocked _ _ _ _) => etrans; [|apply calm_errLocked]
    | |- calm _ (deliverLocked _ _ _) => etrans; [|apply calm_deliver]
    | |- calm _ (broadcastStateLocked _ _) => etrans; [|apply calm_broadcastState]
    | |- calm _ (broadcastPeerStatusLocked _ _ _ _) => etrans; [|apply calm_broadcastPeer]
    | |- calm _ (systemChatLocked _ _ _ _) => etrans; [|apply calm_systemChat]
    | |- calm _ (touchLocked _ _) => etrans; [|apply calm_touch]
    | |- calm _ (removeSeatLocked _ _ _) => etrans; [|apply calm_removeSeat]
    | |- calm _ (removeFromSeatsLocked _ _ _) => etrans; [|apply calm_removeFromSeats]
    | |- calm _ (reassignHostLocked _ _) => etrans; [|apply calm_reassign]
    | |- calm _ (reapSeats _ _ _) => etrans; [|apply calm_reapSeats]
    | |- calm _ (displaceLocked _ _) => etrans; [|apply calm_displaceLocked]
    end ].
Ltac calm_ops := repeat calm_op.

(** ** The operations *)

Lemma calm_deliverEnd r e s w : calm w (deliverEnd r e s w).
Proof. unfold deliverEnd. calm_tac. Qed.

Lemma calm_endMatch r x w : calm w (endMatchLocked r x w).
Proof.
  unfold endMatchLocked, nowMs, snapshotLocked, nowMs. calm_ops. all: apply calm_deliverEnd.
Qed.

Lemma calm_settle r x w w1 :
  calm w w1 -> calm w (if allTerminalLocked r w1 then endMatchLocked r x w1 else w1).
Proof. intros Hw. case_match; [|done]. etrans; [exact Hw|apply calm_endMatch]. Qed.

Lemma calm_leaveSeat r s w : calm w (leaveSeatLocked r s w).
Proof. unfold leaveSeatLocked. apply calm_settle. calm_ops. Qed.

Lemma calm_releaseSeat r s w : calm w (releaseSeat r s w).2.
Proof.
  unfold releaseSeat. destruct (seatIndexByIDLocked _ _ _); [|reflexivity].
  destruct (bool_decide _ && _); cbn [snd]; [reflexivity|].
  etrans; [apply calm_leaveSeat|apply calm_displaceLocked].
Qed.

Lemma calm_ready r s v w : calm w (ready r s v w).
Proof. unfold ready. calm_ops. Qed.
Lemma calm_setFreemods r s v w : calm w (setFreemods r s v w).
Proof. unfold setFreemods. calm_ops. Qed.
Lemma calm_updateSettings r s v w : calm w (updateSettings r s v w).
Proof.
  unfold updateSettings. destruct (findSeatLocked _ _ _); [|calm_ops].
  do 2 (case_match; [calm_ops|]). case_match eqn:Hv; [calm_ops|].
  calm_ops. apply calm_updRoom'; [done|by right].
Qed.
Lemma calm_kick r s v w : calm w (kick r s v w).
Proof. unfold kick. calm_ops. Qed.
Lemma calm_transferHost r s v w : calm w (transferHost r s v w).
Proof. unfold transferHost. calm_ops. Qed.
Lemma calm_chat r s v w : calm w (chat r s v w).
Proof. unfold chat, nowNs, nowMs. destruct (findSeatLocked _ _ _); [|calm_ops]. calm_ops. Qed.
Lemma calm_startMatch r s f w : calm w (startMatch r s f w).
Proof. unfold startMatch, nowMs, newMatchID, newSeed, randRead. calm_ops. Qed.
Lemma calm_relay r s e t w : calm w (relayEventBatch r s e t w).
Proof. unfold relayEventBatch, relayTo. calm_ops. Qed.
Lemma calm_finish r s m f w : calm w (finish r s m f w).
Proof.
  unfold finish, nowMs. destruct (findSeatLocked _ _ _) as [st|]; [|calm_ops].
  destruct (r_match _) as [m0|]; [|calm_ops]. do 2 (case_match; [calm_ops|]). destruct f.
  - apply calm_settle. calm_ops.
  - destruct (allTerminalLocked _ _); [etrans; [|apply calm_endMatch]|]; calm_ops.
Qed.
Lemma calm_dnfRacing r l w : calm w (dnfRacing r l w).
Proof. unfold dnfRacing. calm_ops. Qed.
Lemma calm_forceEnd r m x w w' : forceEnd r m x w = Some w' -> calm w w'.
Proof.
  unfold forceEnd. repeat case_match; try done. intros [= <-].
  etrans; [apply calm_dnfRacing|apply calm_endMatch].
Qed.
Lemma calm_sweepSeat r m j t s acc : calm acc.2 (sweepSeat r m j t s acc).2.
Proof. unfold sweepSeat. destruct acc as [k w]. calm_ops. Qed.
Lemma calm_sweepLocked r m w : calm w (sweepLocked r m w).2.
Proof.
  unfold sweepLocked, nowMs. case_match; [|reflexivity]. case_match; [reflexivity|].
  set (f := fun acc s => sweepSeat _ _ _ _ s acc).
  assert (forall l acc, calm acc.2 (foldl f acc l).2) as Hf.
  { induction l as [|s l IH]; intros acc; cbn; [reflexivity|].
    etrans; [|apply IH]. apply calm_sweepSeat. }
  specialize (Hf (m_roster m0) (false, ticked w)). destruct (foldl _ _ _) as [k w1].
  cbn [snd] in Hf. assert (calm w w1) as Hw1 by (etrans; [|exact Hf]; by apply calm_core).
  case_match; cbn [snd]; [|done]. etrans; [exact Hw1|apply calm_endMatch].
Qed.
Lemma calm_detachSeat r s w : calm w (detachSeat r s w).
Proof. unfold detachSeat. calm_ops. Qed.
Lemma calm_disconnectPark r s w : calm w (disconnectPark r s w).2.
Proof. unfold disconnectPark. calm_ops. Qed.
Lemma calm_disconnectArm s w : calm w (disconnectArm s w).
Proof. unfold disconnectArm. calm_ops. Qed.
Lemma calm_reattachBind r s t w : calm w (reattachBind r s t w).2.
Proof. unfold reattachBind. calm_ops. Qed.
Lemma calm_reattachPoll r s m w : calm w (reattachPoll r s m w).2.
Proof. unfold reattachPoll, nowMs. calm_ops. Qed.
Lemma calm_onGraceExpireLocked r s w : calm w (onGraceExpireLocked r s w).
Proof.
  unfold onGraceExpireLocked. destruct (_ && _); [|reflexivity]. destruct (_ && _).
  - repeat first
      [ match goal with |- calm _ (endMatchLocked _ _ _) => etrans; [|apply calm_endMatch] end
      | calm_op ].
  - calm_ops.
Qed.
Lemma calm_leaveAll n r w : calm w (leaveAll n r w).
Proof.
  revert w. induction n as [|n IH]; intros w; cbn [leaveAll]; [reflexivity|].
  case_match; [reflexivity|]. etrans; [apply calm_leaveSeat|apply IH].
Qed.
Lemma calm_reapRoom r t w : calm w (reapRoom r t w).2.
Proof. unfold reapRoom. calm_ops. apply calm_leaveAll. Qed.
End calm.
