(* ===== verification/WsMember.v ===== *)
(** * internal/ws: membership keeps the invariant

    The reconnect window, the grace list, leaving for another room, create and
    join, the reaper.  [create_Inv] and [join_Inv] carry one further fact: an
    account that is about to be seated holds no seat any more. *)

From S2P Require Import Prelude GoStd Json Protocol Ratelimit WsState WsRoom WsMatch WsLobby WsCore WsInv WsOps WsCalm.

Open Scope Z_scope.

Section member.
Context `{Env}.

(** ** Sections no invariant sees *)

Lemma detachSeat_eqv rid st w : core_eqv (w_core (detachSeat rid st w)) (w_core w).
Proof.
  unfold detachSeat. repeat case_match; autorewrite with tm_core; try reflexivity;
    by apply eqv_updSeat.
Qed.

Lemma disconnectPark_eqv rid sid w : core_eqv (w_core (disconnectPark rid sid w).2) (w_core w).
Proof.
  unfold disconnectPark. repeat case_match; simplify_eq/=; autorewrite with tm_core;
    try reflexivity; by apply eqv_updSeat.
Qed.

Lemma disconnectArm_eqv st w : core_eqv (w_core (disconnectArm st w)) (w_core w).
Proof.
  unfold disconnectArm. case_match; [|reflexivity]. by apply eqv_updSeat.
Qed.

Lemma reattachBind_eqv rid sid st w : core_eqv (w_core (reattachBind rid sid st w).2) (w_core w).
Proof.
  unfold reattachBind. case_match; [reflexivity|]. by apply eqv_updSeat.
Qed.

Lemma reattachPoll_eqv rid st mid w : core_eqv (w_core (reattachPoll rid st mid w).2) (w_core w).
Proof.
  unfold reattachPoll. case_match; [|by apply eqv_updSeat].
  case_match; cbn [snd]; [|by apply eqv_updSeat].
  unfold nowMs. autorewrite with tm_core.
  etrans; by apply eqv_updSeat.
Qed.

Lemma reattachDrain_eqv fuel rid sid st mid w w' :
  reattachDrain fuel rid sid st mid w = Some w' -> core_eqv (w_core w') (w_core w).
Proof.
  revert w. induction fuel as [|fuel IH]; intros w; cbn [reattachDrain]; [done|].
  pose proof (reattachPoll_eqv rid st mid w) as He.
  destruct (reattachPoll rid st mid w) as [[l|] w1]; cbn [snd] in He.
  - case_match.
    + intros [= <-]. by rewrite core_sendAll.
    + intros Hw%IH. etrans; [exact Hw|]. by rewrite core_sendAll.
  - by intros [= <-].
Qed.

Lemma reattach_eqv fuel rid sid st w b w' :
  reattach fuel rid sid st w = Some (b, w') -> core_eqv (w_core w') (w_core w).
Proof.
  unfold reattach. pose proof (reattachBind_eqv rid sid st w) as He.
  destruct (reattachBind rid sid st w) as [[[mid state]|] w1]; cbn [snd] in He.
  - case_match eqn:Hd; [|done]. intros [= _ <-]. apply reattachDrain_eqv in Hd.
    etrans; [exact Hd|]. by rewrite !core_send.
  - by intros [= _ <-].
Qed.

(** ** The grace list *)

Lemma Inv_graces c l :
  Inv c -> (forall e, e ∈ l -> (g_seat e).1 = g_room e) ->
  Inv (c_updReg (set_reg_graces l) c).
Proof.
  intros [[] ? ?] Hl. constructor; [constructor|..]; try done.
  intros rid. by apply (room_base_ext c).
Qed.

Lemma addGrace_Inv tok rid st w :
  Inv (w_core w) -> st.1 = rid -> Inv (w_core (addGrace tok rid st w)).
Proof.
  intros Hi Hs. apply (Inv_graces (w_core w)); [done|].
  intros e [He|He]%elem_of_app; [by apply (ba_graces _ (inv_base _ Hi))|].
  apply list_elem_of_singleton in He. by subst.
Qed.

Lemma removeGrace_Inv tok w : Inv (w_core w) -> Inv (w_core (removeGrace tok w)).
Proof.
  intros Hi. unfold removeGrace. case_match; [|done]. apply (Inv_graces (w_core w)); [done|].
  intros e He%cut_at_subset. by apply (ba_graces _ (inv_base _ Hi)).
Qed.

Lemma claimGrace_Inv tok w :
  Inv (w_core w) ->
  Inv (w_core (claimGrace tok w).2)
  /\ (forall rid st, (claimGrace tok w).1 = Some (rid, st) -> st.1 = rid).
Proof.
  intros Hi. unfold claimGrace. case_match; [|done]. case_match eqn:He; [|done]. cbn [fst snd].
  split.
  - apply (Inv_graces (w_core w)); [done|].
    intros e He'%cut_at_subset. by apply (ba_graces _ (inv_base _ Hi)).
  - intros rid st [= <- <-]. apply (ba_graces _ (inv_base _ Hi)). by eapply list_elem_of_lookup_2.
Qed.

(** ** Empty rooms *)

Lemma removeIfEmpty_core code w :
  w_core (removeIfEmpty code w) = w_core w
  \/ exists room, reg_rooms (c_reg (w_core w)) !! code = Some room
     /\ r_seats (roomOf (w_core w) room) = []
     /\ w_core (removeIfEmpty code w)
        = c_updReg (fun g => set_reg_rooms (delete code (reg_rooms g)) g) (w_core w).
Proof.
  unfold removeIfEmpty. fold (c_reg (w_core w)). unfold getReg.
  destruct (_ !! code) as [room|] eqn:Hc; [|by left].
  case_bool_decide; [|by left]. right. by exists room.
Qed.

Lemma removeIfEmpty_Inv code w : Inv (w_core w) -> Inv (w_core (removeIfEmpty code w)).
Proof.
  intros Hi. destruct (removeIfEmpty_core code w) as [-> |(room & Hc & He & ->)]; [done|].
  destruct Hi as [Hb Hh Hl]. constructor; [|exact Hh|exact Hl]. pose proof Hb as Hb0.
  destruct Hb as [Hr Hu Hf Hcd Hli Hg]. constructor; try done.
  - intros r. by apply (room_base_ext (w_core w)).
  - intros code' r. cbn. intros [_ ?]%lookup_delete_Some. by apply Hcd.
  - intros r Hne. cbn. apply lookup_delete_Some. split; [|by apply Hli].
    intros E. pose proof (Hli r Hne) as Hlr. change (code = r_code (roomOf (w_core w) r)) in E.
    rewrite <- E, Hc in Hlr. injection Hlr as ->. done.
Qed.

(** ** Giving up a seat elsewhere *)

Lemma displaceLocked_Inv o w : Inv (w_core w) -> Inv (w_core (displaceLocked o w)).
Proof. by rewrite core_displaceLocked. Qed.

Lemma releaseSeat_spec rid st w :
  Inv (w_core w) -> st ∈ r_seats (roomOf (w_core w) rid) ->
  let '(ok, w') := releaseSeat rid st w in
  Inv (w_core w') /\ section_ok rid (w_core w) (w_core w')
  /\ (ok = true -> reg_users (c_reg (w_core w')) !! st_userID (seatOf (w_core w) st) = None)
  /\ (ok = false -> w_core w' = w_core w).
Proof.
  intros Hi Hst. unfold releaseSeat.
  destruct (seatIndexByIDLocked _ _ _) as [i|] eqn:Hidx.
  - destruct (bool_decide _ && _).
    + split_and!; try done. by apply section_refl.
    + destruct (leaveSeatLocked_seated rid st w Hi Hst) as (Hi' & Hs & Hu).
      rewrite !core_displaceLocked. done.
  - eapply find_index_None in Hidx; [|done].
    by rewrite getSeat_core, String.eqb_refl in Hidx.
Qed.

(** What is true of an account that may be seated. *)
Definition unseated (u : string) (c : core) : Prop := reg_users (c_reg c) !! u = None.

Lemma seatOfUser_spec u w rid st :
  Base (w_core w) -> seatOfUser u w = Some (rid, st) ->
  st ∈ r_seats (roomOf (w_core w) rid) /\ st_userID (seatOf (w_core w) st) = u.
Proof.
  intros Hb. unfold seatOfUser. case_match; [done|]. intros Hu%(ba_users _ Hb). naive_solver.
Qed.

Lemma seatOfUser_None u w : Base (w_core w) -> seatOfUser u w = None -> unseated u (w_core w).
Proof.
  intros Hb. unfold seatOfUser, unseated. case_match; bool_to_prop; [|done]. intros _. subst.
  destruct (_ !! "") as [[r s]|] eqn:E; [|done]. by apply (ba_users _ Hb) in E as [].
Qed.

(** Moving out touches at most the room the account sat in, and the registry entry
    of that room. *)
Lemma moveOut_spec u w :
  Inv (w_core w) ->
  let '(ok, w') := moveOut (seatOfUser u w) w in
  Inv (w_core w') /\ (ok = true -> unseated u (w_core w'))
  /\ (ok = false -> w_core w' = w_core w)
  /\ (forall rid code, reg_rooms (c_reg (w_core w)) !! code = Some rid ->
        (forall cur st, seatOfUser u w = Some (cur, st) -> cur <> rid) ->
        reg_rooms (c_reg (w_core w')) !! code = Some rid
        /\ roomOf (w_core w') rid = roomOf (w_core w) rid).
Proof.
  intros Hi. unfold moveOut. destruct (seatOfUser u w) as [[cur st]|] eqn:Hu.
  - apply seatOfUser_spec in Hu as [Hst Hus]; [|apply Hi].
    pose proof (releaseSeat_spec cur st w Hi Hst) as Hr.
    destruct (releaseSeat cur st w) as [ok w1]. destruct Hr as (Hi1 & Hs1 & Hok & Hno).
    rewrite Hus in Hok. destruct ok.
    + split_and!; [by apply removeIfEmpty_Inv| |done|].
      * intros _. specialize (Hok eq_refl). unfold unseated.
        destruct (removeIfEmpty_core (r_code (getRoom w1 cur)) w1) as [-> |(? & _ & _ & ->)]; done.
      * intros rid code Hc Hcur. specialize (Hcur _ _ eq_refl).
        destruct Hs1 as [_ [Wr _ Wc Wrs _ _] _ _].
        destruct (removeIfEmpty_core (r_code (getRoom w1 cur)) w1) as [-> |(room & Hroom & He & ->)].
        { split; [by rewrite Wrs|by apply Wr]. }
        split; [|by apply Wr]. cbn. apply lookup_delete_Some.
        rewrite Wrs in *. split; [|done]. intros E. rewrite getRoom_core, Wc in E.
        assert (reg_rooms (c_reg (w_core w)) !! r_code (roomOf (w_core w) cur) = Some cur) as Hcur'.
        { apply (ba_listed _ (inv_base _ Hi)). intros E'. rewrite E' in Hst.
          by apply elem_of_nil in Hst. }
        congruence.
    + specialize (Hno eq_refl). rewrite Hno. split_and!; try done; by rewrite Hno.
  - split_and!; try done. intros _. apply seatOfUser_None; [apply Hi|done].
Qed.
(** ** Taking a seat *)

(** The state after [st], the account [u]'s new seat, went to the back of the room. *)
Record seated (rid : nat) (st : seatref) (u : string) (c c' : core) : Prop := {
  sd_fresh : st = (rid, c_nextSeat c);
  sd_seat : forall s, s <> st -> seatOf c' s = seatOf c s;
  sd_new : ~ racing (seatOf c' st);
  sd_user : st_userID (seatOf c' st) = u;
  sd_room : forall r, r <> rid -> roomOf c' r = roomOf c r;
  sd_seats : r_seats (roomOf c' rid) = r_seats (roomOf c rid) ++ [st];
  sd_code : r_code (roomOf c' rid) = r_code (roomOf c rid);
  sd_settings : r_settings (roomOf c' rid) = r_settings (roomOf c rid);
  sd_match : r_match (roomOf c' rid) = r_match (roomOf c rid);
  sd_in : r_inMatch (roomOf c' rid) = r_inMatch (roomOf c rid);
  sd_host : r_hostID (roomOf c' rid) = r_hostID (roomOf c rid)
            \/ r_hostID (roomOf c' rid) = st_playerID (seatOf c' st);
  sd_nextSeat : c_nextSeat c' = S (c_nextSeat c);
  sd_nextRoom : c_nextRoom c' = c_nextRoom c;
  sd_rooms : reg_rooms (c_reg c') = reg_rooms (c_reg c);
  sd_graces : reg_graces (c_reg c') = reg_graces (c_reg c);
  sd_users : reg_users (c_reg c')
             = if u =s? "" then reg_users (c_reg c)
               else <[u := (rid, st)]> (reg_users (c_reg c)) }.

Lemma seated_within rid st u c c' : seated rid st u c c' -> within rid c c'.
Proof.
  intros []. constructor; try done; [|lia]. intros s Hs. apply sd_seat0. by intros ->; subst.
Qed.

Lemma seated_room_base rid st u c c' :
  Base c -> (length (r_seats (roomOf c rid)) < roomCapacity)%nat ->
  seated rid st u c c' -> room_base c' rid.
Proof.
  intros Hb Hlen Hsd. pose proof (ba_room _ Hb rid) as [Hnd Hcap Haddr Hin Hlob Hm].
  destruct Hsd as [Hst Hseat Hnew _ _ Hseats _ _ Hmatch Hinm _ Hns _ _ _ _].
  assert (forall s, s.1 = rid /\ (s.2 < c_nextSeat c)%nat -> s <> st) as Hold.
  { intros s [_ Hlt] ->. subst st. cbn in Hlt. lia. }
  constructor; rewrite ?Hseats, ?Hmatch, ?Hinm; try done.
  - apply NoDup_app. split_and!; [done| |apply NoDup_singleton].
    intros s Hs Heq%list_elem_of_singleton. by apply Haddr, Hold in Hs.
  - rewrite length_app. cbn. lia.
  - intros s [Hs|Hs]%elem_of_app; rewrite Hns.
    + destruct (Haddr s Hs). split; [done|lia].
    + apply list_elem_of_singleton in Hs. subst. cbn. split; [done|lia].
  - intros Hno s [Hs|Hs]%elem_of_app.
    + rewrite Hseat by auto. by apply Hlob.
    + apply list_elem_of_singleton in Hs. by subst s.
  - intros m Hm'. destruct (Hm m Hm') as [H1 H2 H3 H4 H5 H6 H7]. constructor; try done.
    + intros s Hs. destruct (H4 s Hs). split; [done|lia].
    + intros s Hs. rewrite Hseat by auto. intros Hra. apply elem_of_app. left. auto.
    + intros s [Hs|Hs]%elem_of_app; [rewrite Hseat by auto; auto|].
      apply list_elem_of_singleton in Hs. by subst s.
    + intros s Hs. rewrite Hseat by auto. auto.
Qed.

Lemma seated_users rid st u c c' :
  Base c -> unseated u c -> seated rid st u c c' -> users_ok c'.
Proof.
  intros Hb Hun [Hst Hseat _ Huser Hroom Hseats _ _ _ _ _ _ _ _ _ Hus].
  assert (forall r s, s ∈ r_seats (roomOf c' r) <->
    (s ∈ r_seats (roomOf c r) /\ s <> st) \/ (r = rid /\ s = st)) as Hmem.
  { assert (forall r s, s ∈ r_seats (roomOf c r) -> s <> st) as Hne.
    { intros r s Hs ->. apply (rb_addr _ _ (ba_room _ Hb r)) in Hs as [_ Hlt].
      subst st. cbn in Hlt. lia. }
    intros r s. destruct (decide (r = rid)) as [->|Hr].
    - rewrite Hseats, elem_of_app, list_elem_of_singleton. naive_solver.
    - rewrite Hroom by done. naive_solver. }
  intros u' r s. rewrite Hus, Hmem.
  assert (reg_users (c_reg c) !! u' = Some (r, s) <->
    u' <> "" /\ s ∈ r_seats (roomOf c r) /\ s <> st /\ st_userID (seatOf c' s) = u') as Hold.
  { rewrite (ba_users _ Hb u' r s). split.
    - intros (? & Hs & ?). assert (s <> st) as Hne.
      { intros ->. apply (rb_addr _ _ (ba_room _ Hb r)) in Hs as [_ Hlt].
        subst st. cbn in Hlt. lia. }
      by rewrite Hseat.
    - intros (? & ? & ? & Hu'). by rewrite Hseat in Hu'. }
  case_match eqn:Eu; bool_to_prop.
  - rewrite Hold. split; [naive_solver|]. intros (? & [[??]|[-> ->]] & ?); [naive_solver|congruence].
  - rewrite lookup_insert_Some, Hold. split; [naive_solver|].
    intros (? & [[??]|[-> ->]] & <-); [right|left; naive_solver].
    split; [|done]. intros ->. unfold unseated in Hun.
    assert (reg_users (c_reg c) !! st_userID (seatOf c' s) = Some (r, s)) by by apply Hold.
    congruence.
Qed.

Lemma seated_Inv rid st u c c' :
  Inv c -> unseated u c -> reg_rooms (c_reg c) !! r_code (roomOf c rid) = Some rid ->
  (length (r_seats (roomOf c rid)) < roomCapacity)%nat ->
  seated rid st u c c' -> Inv c'.
Proof.
  intros Hi Hun Hlist Hlen Hsd. pose proof (seated_within _ _ _ _ _ Hsd) as Hw.
  pose proof (rb_addr _ _ (ba_room _ (inv_base _ Hi) rid)) as Haddr.
  eapply Inv_within; [done|done|..].
  - eapply Base_within; [apply Hi|done|..].
    + eapply seated_room_base; [apply Hi|done|done].
    + eapply seated_users; [apply Hi|done|done].
    + done.
    + left. by apply (ba_codes _ (inv_base _ Hi)) in Hlist as [].
    + rewrite (sd_graces _ _ _ _ _ Hsd). apply (ba_graces _ (inv_base _ Hi)).
  - unfold host_ok. rewrite (sd_seats _ _ _ _ _ Hsd).
    destruct (sd_host _ _ _ _ _ Hsd) as [-> | ->].
    + destruct (inv_host _ Hi rid) as [?|(s & Hs & Hp)]; [by left|right]. exists s.
      split; [set_solver|]. rewrite (sd_seat _ _ _ _ _ Hsd); [done|].
      apply Haddr in Hs as [_ Hlt]. intros ->. rewrite (sd_fresh _ _ _ _ _ Hsd) in Hlt.
      cbn in Hlt. lia.
    + right. exists st. set_solver.
  - intros m. rewrite (sd_match _ _ _ _ _ Hsd). intros Hm.
    destruct (inv_live _ Hi rid m Hm) as (s & Hs & Hra). exists s. split; [done|].
    rewrite (sd_seat _ _ _ _ _ Hsd); [done|].
    apply (mb_addr _ _ _ _ (rb_match _ _ (ba_room _ (inv_base _ Hi) rid) m Hm)) in Hs as [_ Hlt].
    intros ->. rewrite (sd_fresh _ _ _ _ _ Hsd) in Hlt. cbn in Hlt. lia.
Qed.
Lemma indexSeat_core rid st w :
  w_core (indexSeat rid st w)
  = if st_userID (seatOf (w_core w) st) =s? "" then w_core w
    else c_updReg (fun g => set_reg_users
           (<[st_userID (seatOf (w_core w) st) := (rid, st)]> (reg_users g)) g) (w_core w).
Proof. unfold indexSeat. rewrite getSeat_core. by case_match. Qed.

Lemma identityLocked_sess rid sid w n g w' s :
  identityLocked rid sid w = Some (n, g, w') -> getSess w' s = getSess w s.
Proof. intros [_ Hs]%core_identityLocked. unfold getSess. by rewrite Hs. Qed.

(** Indexing the new seat and naming the host, on top of the room's new list. *)
Lemma seated_intro rid st u (asHost : bool) pid (f : Room -> Room) c c2 c' :
  c' = (if asHost then c_updRoom rid (set_r_hostID pid) else id)
         (let c3 := c_updRoom rid f c2 in
          if u =s? "" then c3
          else c_updReg (fun g => set_reg_users (<[u := (rid, st)]> (reg_users g)) g) c3) ->
  st = (rid, c_nextSeat c) ->
  (forall x, x <> st -> seatOf c2 x = seatOf c x) ->
  st_playerID (seatOf c2 st) = pid -> st_userID (seatOf c2 st) = u -> ~ racing (seatOf c2 st) ->
  unseen_room f -> (forall r, r_hostID (f r) = r_hostID r /\ r_settings (f r) = r_settings r) ->
  (forall r, r <> rid -> roomOf c2 r = roomOf c r) ->
  (exists seq, roomOf c2 rid = set_r_seats (r_seats (roomOf c rid) ++ [st])
                         (set_r_nextSeq seq (roomOf c rid))) ->
  c_reg c2 = c_reg c /\ c_nextSeat c2 = S (c_nextSeat c) /\ c_nextRoom c2 = c_nextRoom c ->
  seated rid st u c c' /\ seatOf c' st = seatOf c2 st
  /\ r_hostID (roomOf c' rid) = (if asHost then pid else r_hostID (roomOf c rid)).
Proof.
  intros Hc' Hst Hseat Hpid Hu Hra Hf Hfh Hne [sq Hroom] (Hreg & Hns & Hnr).
  assert ((forall x, seatOf c' x = seatOf c2 x)
    /\ (forall r, r <> rid -> roomOf c' r = roomOf c2 r)
    /\ r_hostID (roomOf c' rid) = (if asHost then pid else r_hostID (roomOf c2 rid))
    /\ r_seats (roomOf c' rid) = r_seats (roomOf c2 rid)
    /\ r_code (roomOf c' rid) = r_code (roomOf c2 rid)
    /\ r_settings (roomOf c' rid) = r_settings (roomOf c2 rid)
    /\ r_match (roomOf c' rid) = r_match (roomOf c2 rid)
    /\ r_inMatch (roomOf c' rid) = r_inMatch (roomOf c2 rid)
    /\ c_nextSeat c' = c_nextSeat c2 /\ c_nextRoom c' = c_nextRoom c2
    /\ reg_rooms (c_reg c') = reg_rooms (c_reg c2)
    /\ reg_graces (c_reg c') = reg_graces (c_reg c2)
    /\ reg_users (c_reg c') = if u =s? "" then reg_users (c_reg c2)
                              else <[u := (rid, st)]> (reg_users (c_reg c2)))
    as (Gs & Gn & Gh & Gl & Gc & Gset & Gm & Gi & Gns & Gnr & Grs & Ggr & Gus).
  { destruct (Hf (roomOf c2 rid)) as (F1 & F2 & F3 & F4), (Hfh (roomOf c2 rid)) as [F5 F6]. subst c'.
    destruct asHost, (u =s? ""); cbn [id]; split_and!; intros; autorewrite with tm_core; cbn;
      rewrite ?roomOf_updRoom_ne, ?roomOf_updReg by done; autorewrite with tm_core;
      rewrite ?roomOf_updRoom_ne by done; try done. }
  split_and!; [|by rewrite Gs|rewrite Gh, Hroom; by destruct asHost].
  rewrite Hroom in *. cbn in *.
  constructor; rewrite ?Gs, ?Gl, ?Gc, ?Gset, ?Gm, ?Gi, ?Gns, ?Gnr, ?Grs, ?Ggr, ?Gus, ?Hreg; try done.
  - intros s Hs. rewrite Gs. auto.
  - intros r Hr. rewrite Gn by done. auto.
  - rewrite Gh. destruct asHost; [right; congruence|by left].
Qed.

(** [Room.seat] seats the caller exactly when there is room. *)
Lemma seatRoom_seated rid sid asHost w b w' :
  seatRoom rid sid asHost w = Some (b, w') ->
  if b then (length (r_seats (roomOf (w_core w) rid)) < roomCapacity)%nat
       /\ exists st, seated rid st (ss_userID (getSess w sid)) (w_core w) (w_core w')
            /\ st_sess (seatOf (w_core w') st) = Some sid
            /\ st_playerID (seatOf (w_core w') st) = ss_playerID (getSess w sid)
            /\ r_hostID (roomOf (w_core w') rid)
               = (if asHost then ss_playerID (getSess w sid) else r_hostID (roomOf (w_core w) rid))
  else w' = w /\ (roomCapacity <= length (r_seats (roomOf (w_core w) rid)))%nat.
Proof.
  unfold seatRoom. rewrite getRoom_core. destruct (_ <=? _)%nat eqn:Hfull; bool_to_prop.
  { by intros [= <- <-]. }
  destruct (identityLocked rid sid w) as [[[nick g] w1]|] eqn:Hid; [|done].
  pose proof (identityLocked_sess _ _ _ _ _ _ sid Hid) as Hsess.
  apply core_identityLocked in Hid as [Hc _]. rewrite Hsess, (getRoom_core w1), Hc.
  set (st := (rid, c_nextSeat (w_core w))). set (s := getSess w sid) in *.
  set (w2 := updRoom rid _ (updSeat st _ _)). intros Heq. injection Heq as <- Heq.
  split; [lia|]. exists st.
  assert (w_core w' = (if asHost then c_updRoom rid (set_r_hostID (ss_playerID s)) else id)
            (w_core (indexSeat rid st (touchLocked rid w2)))) as Hw'.
  { subst w'. destruct asHost; by autorewrite with tm_core. }
  clear Heq. rewrite indexSeat_core, core_touchLocked in Hw'. autorewrite with tm_core in Hw'.
  assert (forall x, seatOf (w_core w2) x = if decide (st = x)
    then seatOf (w_core w2) st else seatOf (w_core w) x) as Hseat.
  { intros x. subst w2. autorewrite with tm_core. rewrite seatOf_updSeat, Hc. case_decide; subst; done. }
  assert (st_sess (seatOf (w_core w2) st) = Some sid /\ st_playerID (seatOf (w_core w2) st) = ss_playerID s
    /\ st_userID (seatOf (w_core w2) st) = ss_userID s /\ st_status (seatOf (w_core w2) st) = "")
    as (Hss & Hsp & Hsu & Hst).
  { subst w2. autorewrite with tm_core. done. }
  assert (roomOf (w_core w2) rid = set_r_seats (r_seats (roomOf (w_core w) rid) ++ [st])
    (set_r_nextSeq (r_nextSeq (roomOf (w_core w) rid) + 1) (roomOf (w_core w) rid))) as Hroom.
  { subst w2. autorewrite with tm_core. by rewrite Hc. }
  assert (forall r, r <> rid -> roomOf (w_core w2) r = roomOf (w_core w) r) as Hne.
  { intros r Hr. subst w2. rewrite core_updRoom, roomOf_updRoom_ne by done. cbn. by rewrite Hc. }
  assert (c_reg (w_core w2) = c_reg (w_core w) /\ c_nextSeat (w_core w2) = S (c_nextSeat (w_core w))
    /\ c_nextRoom (w_core w2) = c_nextRoom (w_core w)) as (Hreg & Hns & Hnr).
  { subst w2. cbn. by rewrite Hc. }
  clearbody w2. rewrite Hsu in Hw'.
  destruct (seated_intro rid st (ss_userID s) asHost (ss_playerID s)
    (fun r => set_r_idleWarned false (set_r_lastActivityMs (now_ms (w_tick w2)) r))
    (w_core w) (w_core w2) (w_core w')) as (Hsd & Hsn & Hh); try done.
  - intros x Hx. by rewrite Hseat, decide_False.
  - unfold racing. by rewrite Hst.
  - by eexists.
  - by rewrite Hsn.
Qed.
Lemma moveOut_users held w s : ss_userID (getSess (moveOut held w).2 s) = ss_userID (getSess w s).
Proof.
  unfold moveOut. destruct held as [[cur st]|]; [|done].
  pose proof (calm_releaseSeat cur st w) as Hr.
  destruct (releaseSeat cur st w) as [[] w1]; cbn [snd] in *; [|apply Hr].
  rewrite <- (ca_user _ _ Hr). unfold removeIfEmpty. by repeat case_match.
Qed.

(** ** create and join *)

(** A new room under an unused code, listed. *)
Lemma opened_Inv code f c :
  Inv c -> reg_rooms (c_reg c) !! code = None ->
  (forall r, r_code (f r) = code /\ r_seats (f r) = [] /\ r_match (f r) = None
    /\ r_inMatch (f r) = false /\ r_hostID (f r) = "") ->
  Inv (c_updReg (fun g => set_reg_rooms (<[code := c_nextRoom c]> (reg_rooms g)) g)
        (c_updRoom (c_nextRoom c) f (set_c_nextRoom (S (c_nextRoom c)) c))).
Proof.
  intros Hi Hcode Hf. set (rid := c_nextRoom c).
  set (c' := c_updReg _ _).
  destruct (Hf (roomOf c rid)) as (Fc & Fs & Fm & Fi & Fh).
  assert (roomOf c' rid = f (roomOf c rid)) as Hr.
  { subst c'. by rewrite roomOf_updReg, roomOf_updRoom_eq. }
  assert (forall r, r <> rid -> roomOf c' r = roomOf c r) as Hne.
  { intros r Hr'. subst c'. by rewrite roomOf_updReg, roomOf_updRoom_ne. }
  assert (forall s, seatOf c' s = seatOf c s) as Hs by done.
  destruct Hi as [Hb Hh Hl]. pose proof (ba_fresh _ Hb rid (le_n _)) as Hz.
  constructor; [constructor|..].
  - intros r. destruct (decide (r = rid)) as [->|Hr'].
    + constructor; rewrite Hr, ?Fs, ?Fm, ?Fi; try done.
      * constructor.
      * cbn. lia.
      * by intros s ?%elem_of_nil.
      * by intros _ s ?%elem_of_nil.
    + apply (room_base_ext c); auto. by apply (ba_room _ Hb).
  - intros u r s. change (reg_users (c_reg c')) with (reg_users (c_reg c)).
    rewrite (ba_users _ Hb u r s). destruct (decide (r = rid)) as [->|]; [|by rewrite Hne].
    by rewrite Hr, Fs, Hz.
  - intros r Hge. cbn in Hge. rewrite Hne by (subst rid; lia). apply (ba_fresh _ Hb). lia.
  - intros code' r. cbn. intros [[<- <-]|[? Hc]]%lookup_insert_Some.
    + split; [subst rid; lia|]. by rewrite <- Fc, <- Hr.
    + apply (ba_codes _ Hb) in Hc as [Hlt <-]. split; [lia|]. rewrite <- Hne; [done|subst rid; lia].
  - intros r Hocc. cbn. destruct (decide (r = rid)) as [->|Hr'].
    + by rewrite Hr, Fs in Hocc.
    + rewrite Hne in * by done. apply (ba_listed _ Hb) in Hocc. apply lookup_insert_Some.
      right. split; [|done]. intros E. congruence.
  - apply (ba_graces _ Hb).
  - intros r. destruct (decide (r = rid)) as [->|Hr']; [left; by rewrite Hr|].
    unfold host_ok. rewrite Hne by done. apply Hh.
  - intros r m. destruct (decide (r = rid)) as [->|Hr']; [by rewrite Hr, Fm|].
    rewrite Hne by done. apply Hl.
Qed.

(** What [create] and [join] answer, and where the caller sits. *)
Lemma create_Inv sid w out w' :
  Inv (w_core w) -> create sid w = Some (out, w') -> Inv (w_core w').
Proof.
  intros Hi. unfold create. pose proof (moveOut_spec (ss_userID (getSess w sid)) w Hi) as Hmo.
  pose proof (moveOut_users (seatOfUser (ss_userID (getSess w sid)) w) w sid) as Huid.
  destruct (moveOut _ w) as [ok w1]. destruct Hmo as (Hi1 & Hun & Hno & _).
  cbn [snd] in Huid. destruct ok; cbn [negb]; [|intros [= _ <-]; by rewrite Hno].
  destruct (freeCodeLocked loop_fuel w1) as [[code w2]|] eqn:Hfree; [|done].
  apply core_freeCodeLocked in Hfree as (Hc2 & Hs2 & Hcode). unfold newRoom, nowMs, nowNs.
  set (w3 := updReg _ _).
  assert (Inv (w_core w3)) as Hi3.
  { subst w3. autorewrite with tm_core. cbn [c_nextRoom w_core ticked set_w_tick]. rewrite Hc2.
    by apply opened_Inv. }
  assert (unseated (ss_userID (getSess w3 sid)) (w_core w3)) as Hun3.
  { unfold unseated. subst w3. cbn. rewrite Hc2. specialize (Hun eq_refl).
    unfold getSess in *. cbn. by rewrite Hs2, Huid. }
  assert (reg_rooms (c_reg (w_core w3)) !! r_code (roomOf (w_core w3) (c_nextRoom (w_core w2)))
          = Some (c_nextRoom (w_core w2))) as Hl3.
  { subst w3. autorewrite with tm_core. cbn. by rewrite lookup_insert_eq. }
  clearbody w3. destruct (seatRoom _ sid true w3) as [[b w4]|] eqn:Hseat; [|done].
  intros [= _ <-]. apply seatRoom_seated in Hseat. destruct b; [|destruct Hseat as [-> _]; done].
  destruct Hseat as (Hlen & st & Hsd & _). by eapply seated_Inv.
Qed.

Lemma join_Inv code sid w out w' :
  Inv (w_core w) -> join code sid w = Some (out, w') -> Inv (w_core w').
Proof.
  intros Hi. unfold join. unfold getReg.
  destruct (reg_rooms _ !! _) as [rid|] eqn:Hcode; [|by intros [= _ <-]].
  pose proof (moveOut_spec (ss_userID (getSess w sid)) w Hi) as Hmo.
  pose proof (moveOut_users (seatOfUser (ss_userID (getSess w sid)) w) w sid) as Huid.
  set (held := seatOfUser _ w) in *.
  set (here := match held with Some _ => _ | None => _ end).
  assert (here = None -> forall cur st, held = Some (cur, st) -> cur <> rid) as Hhere.
  { subst here. intros Hh cur st E. rewrite E in Hh. case_bool_decide; done. }
  destruct here as [st|].
  { intros [= _ <-]. by rewrite (detachSeat_eqv rid st w). }
  destruct (full rid w); [by intros [= _ <-]|].
  destruct (moveOut held w) as [ok w1]. destruct Hmo as (Hi1 & Hun & Hno & Hother).
  destruct ok; cbn [negb]; [|intros [= _ <-]; by rewrite Hno].
  destruct (Hother rid _ Hcode (Hhere eq_refl)) as [Hcode1 Hroom1]. cbn [snd] in Huid.
  destruct (seatRoom rid sid false w1) as [[b w2]|] eqn:Hseat; [|done].
  apply seatRoom_seated in Hseat. destruct b; [|by destruct Hseat as [-> _]; intros [= _ <-]].
  intros [= _ <-]. destruct Hseat as (Hlen & st & Hsd & _).
  eapply seated_Inv; [exact Hi1| | |exact Hlen|exact Hsd].
  - rewrite Huid. auto.
  - pose proof (ba_codes _ (inv_base _ Hi1) _ _ Hcode1) as [_ ->]. done.
Qed.

(** ** The reaper *)

Lemma leaveAll_Inv n rid w : Inv (w_core w) -> Inv (w_core (leaveAll n rid w)).
Proof.
  revert w. induction n as [|n IH]; intros w Hi; [done|]. cbn [leaveAll].
  rewrite getRoom_core. destruct (r_seats _) as [|s l] eqn:Hs; [done|]. apply IH.
  destruct (leaveSeatLocked_seated rid s w Hi) as [? _]; [rewrite Hs; set_solver|done].
Qed.

Lemma reapRoom_Inv rid now w :
  Inv (w_core w) -> (rid < c_nextRoom (w_core w))%nat -> Inv (w_core (reapRoom rid now w).2).
Proof.
  intros Hi Hn. unfold reapRoom. destruct (idleStateLocked _ _) as [[] []]; cbn [snd];
    autorewrite with tm_core; try done; try (by apply Inv_updRoom).
  by apply leaveAll_Inv.
Qed.
End member.
