(* ===== verification/WsStep.v ===== *)
(** * internal/ws: every interleaving

    The goroutines of the package (a read loop and a writer per connection, the
    timers of the rooms, the idle reaper) share the rooms, the registry and the
    seats.  [section] is what one goroutine may do while it holds one room's lock,
    or no lock at all; [step] adds the sections under the registry's lock.  A create
    or join holds that lock across several room sections: the second component of a
    [config] is the one in progress, and while it is there no other create or join
    and no [removeIfEmpty] takes a step, but any [section] may.

    A section is allowed at any time with any arguments the code could pass (a seat
    is passed with the room that allocated it), so every schedule of the program is
    a path of [step]. *)

From S2P Require Import Prelude GoStd Json Protocol Ratelimit WsState WsRoom WsMatch WsLobby WsSession WsCore WsInv WsOps WsCalm WsMember.

Open Scope Z_scope.

Section steps.
Context `{Env}.

(** Frames queued or written, clocks and random bytes read, a connection's own
    fields assigned by its read loop. *)
Record local (w w' : world) : Prop := {
  lo_core : w_core w' = w_core w;
  lo_users : forall s, ss_userID (getSess w' s) = ss_userID (getSess w s) }.

Inductive section : world -> world -> Prop :=
| sec_local w w' : local w w' -> section w w'
(* room.go, room_chat.go: the lobby commands *)
| sec_ready rid sid v w : section w (ready rid sid v w)
| sec_settings rid sid ns w : section w (updateSettings rid sid ns w)
| sec_freemods rid sid fm w : section w (setFreemods rid sid fm w)
| sec_kick rid sid tid w : section w (kick rid sid tid w)
| sec_transfer rid sid tid w : section w (transferHost rid sid tid w)
| sec_chat rid sid text w : section w (chat rid sid text w)
| sec_leave rid sid w w' : leaveLocked rid sid w = Some w' -> section w w'
(* room_match.go *)
| sec_start rid sid force w : section w (startMatch rid sid force w)
| sec_relay rid sid eb recv w : section w (relayEventBatch rid sid eb recv w)
| sec_finish rid sid mid ff w : section w (finish rid sid mid ff w)
| sec_timer rid mid reason w w' : forceEnd rid mid reason w = Some w' -> section w w'
(* room_afk.go, room_idle.go *)
| sec_sweep rid mid w : section w (sweepLocked rid mid w).2
| sec_reap rid now w : (rid < c_nextRoom (w_core w))%nat -> section w (reapRoom rid now w).2
(* room.go: the reconnect window *)
| sec_detach rid st w : section w (detachSeat rid st w)
| sec_park rid sid w : section w (disconnectPark rid sid w).2
| sec_arm st w : section w (disconnectArm st w)
| sec_bind rid sid st w : section w (reattachBind rid sid st w).2
| sec_poll rid st mid w : section w (reattachPoll rid st mid w).2
| sec_expire rid st w : st.1 = rid -> section w (onGraceExpireLocked rid st w)
(* registry.go: the grace list, under its own lock *)
| sec_addGrace tok rid st w : st.1 = rid -> section w (addGrace tok rid st w)
| sec_claimGrace tok w : section w (claimGrace tok w).2
| sec_removeGrace tok w : section w (removeGrace tok w).

(** A create or join in progress: whose, the seat still to give up, the code of a
    room left behind and to be dropped if empty, and the room to sit in (a create's
    once it is open). *)
Record job := {
  jb_sid : nat;
  jb_held : option (nat * seatref);
  jb_drop : option string;
  jb_room : option nat;
  jb_host : bool }.

Definition config : Type := world * option job.

Definition openRoom (code : string) (w : world) : nat * world :=
  let '(room, w) := newRoom code w in
  (room, updReg (fun g => set_reg_rooms (<[code := room]> (reg_rooms g)) g) w).

Inductive step : config -> config -> Prop :=
| st_section w w' j : section w w' -> step (w, j) (w', j)
| st_connect sid name uid authed w j :
    (forall b, j = Some b -> jb_sid b <> sid) -> step (w, j) (connect sid name uid authed w, j)
| st_dropEmpty code w : step (w, None) (removeIfEmpty code w, None)
| st_create sid w :
    step (w, None)
      (w, Some {| jb_sid := sid; jb_held := seatOfUser (ss_userID (getSess w sid)) w;
                  jb_drop := None; jb_room := None; jb_host := true |})
| st_join sid code room w :
    reg_rooms (getReg w) !! normalizeCode code = Some room ->
    (forall cur st, seatOfUser (ss_userID (getSess w sid)) w = Some (cur, st) -> cur <> room) ->
    step (w, None)
      (w, Some {| jb_sid := sid; jb_held := seatOfUser (ss_userID (getSess w sid)) w;
                  jb_drop := None; jb_room := Some room; jb_host := false |})
| st_giveUp w j : step (w, Some j) (w, None)
| st_release cur st w w' j :
    jb_held j = Some (cur, st) -> releaseSeat cur st w = (true, w') ->
    step (w, Some j)
      (w', Some {| jb_sid := jb_sid j; jb_held := None; jb_drop := Some (r_code (getRoom w' cur));
                   jb_room := jb_room j; jb_host := jb_host j |})
| st_refuse cur st w w' j :
    jb_held j = Some (cur, st) -> releaseSeat cur st w = (false, w') -> step (w, Some j) (w', None)
| st_drop code w j :
    jb_drop j = Some code ->
    step (w, Some j)
      (removeIfEmpty code w,
       Some {| jb_sid := jb_sid j; jb_held := jb_held j; jb_drop := None;
               jb_room := jb_room j; jb_host := jb_host j |})
| st_open code room w w1 w2 j :
    jb_held j = None -> jb_drop j = None -> jb_room j = None -> jb_host j = true ->
    freeCodeLocked loop_fuel w = Some (code, w1) -> openRoom code w1 = (room, w2) ->
    step (w, Some j)
      (w2, Some {| jb_sid := jb_sid j; jb_held := None; jb_drop := None;
                   jb_room := Some room; jb_host := true |})
| st_seat room b w w' j :
    jb_held j = None -> jb_drop j = None -> jb_room j = Some room ->
    seatRoom room (jb_sid j) (jb_host j) w = Some (b, w') -> step (w, Some j) (w', None).

(** ** What a section keeps *)

Lemma section_calm w w' : Inv (w_core w) -> section w w' -> calm w w'.
Proof.
  intros Hi Hs. destruct Hs as [w w' [Hc Hu]| | | | | | |rid sid w w' Hl| | | | | | | | | | | | | | |].
  - constructor; unfold getReg, getRoom; rewrite ?Hc; auto.
  - apply calm_ready.
  - apply calm_updateSettings.
  - apply calm_setFreemods.
  - apply calm_kick.
  - apply calm_transferHost.
  - apply calm_chat.
  - unfold leaveLocked in Hl. destruct (findSeatLocked _ _ _); simplify_eq. apply calm_leaveSeat.
  - apply calm_startMatch.
  - apply calm_relay.
  - apply calm_finish.
  - by eapply calm_forceEnd.
  - apply calm_sweepLocked.
  - apply calm_reapRoom.
  - apply calm_detachSeat.
  - apply calm_disconnectPark.
  - apply calm_disconnectArm.
  - apply calm_reattachBind.
  - apply calm_reattachPoll.
  - apply calm_onGraceExpireLocked.
  - constructor; auto.
  - unfold claimGrace. repeat case_match; constructor; auto.
  - unfold removeGrace. case_match; constructor; auto.
Qed.

Lemma section_keeps w w' : section w w' -> Inv (w_core w) -> Inv (w_core w').
Proof.
  intros Hs Hi. destruct Hs as [w w' [Hc Hu]| | | | | | |rid sid w w' Hl| | | | | | | | | | | | | | |].
  - by rewrite Hc.
  - by apply ready_Inv.
  - by apply updateSettings_Inv.
  - by apply setFreemods_Inv.
  - by apply kick_Inv.
  - by apply transferHost_Inv.
  - by apply chat_Inv.
  - by eapply leaveLocked_Inv.
  - by apply startMatch_Inv.
  - by apply relayEventBatch_Inv.
  - by apply finish_Inv.
  - by eapply forceEnd_Inv.
  - by apply sweepLocked_Inv.
  - by apply reapRoom_Inv.
  - by rewrite detachSeat_eqv.
  - by rewrite disconnectPark_eqv.
  - by rewrite disconnectArm_eqv.
  - by rewrite reattachBind_eqv.
  - by rewrite reattachPoll_eqv.
  - by apply onGraceExpireLocked_Inv.
  - by apply addGrace_Inv.
  - by apply claimGrace_Inv.
  - by apply removeGrace_Inv.
Qed.

(** ** The create or join in progress *)

Record job_ok (w : world) (j : job) : Prop := {
  jo_free : jb_held j = None -> unseated (ss_userID (getSess w (jb_sid j))) (w_core w);
  jo_held : forall cur st, jb_held j = Some (cur, st) ->
    st.1 = cur /\ (cur < c_nextRoom (w_core w))%nat
    /\ (reg_users (getReg w) !! ss_userID (getSess w (jb_sid j)) = Some (cur, st)
        \/ unseated (ss_userID (getSess w (jb_sid j))) (w_core w))
    /\ (forall room, jb_room j = Some room -> r_code (getRoom w cur) <> r_code (getRoom w room));
  jo_drop : forall code room, jb_drop j = Some code -> jb_room j = Some room ->
    code <> r_code (getRoom w room);
  jo_room : forall room, jb_room j = Some room ->
    reg_rooms (getReg w) !! r_code (getRoom w room) = Some room }.

(** Every room there is has settings a host could have sent. *)
Definition settings_valid (c : core) : Prop :=
  forall rid, (rid < c_nextRoom c)%nat -> ValidateSettings (r_settings (roomOf c rid)) = None.

Record ok (c : config) : Prop := {
  ok_inv : Inv (w_core c.1);
  ok_settings : settings_valid (w_core c.1);
  ok_job : forall j, c.2 = Some j -> job_ok c.1 j }.

Lemma job_calm w w' j : calm w w' -> job_ok w j -> job_ok w' j.
Proof.
  intros [Hu Hs Hr Hn Hc _] [Jf Jh Jd Jr]. unfold unseated in *. constructor; rewrite ?Hu.
  - intros Hh. eapply lookup_weaken_None; [|exact Hs]. auto.
  - intros cur st Hh. destruct (Jh _ _ Hh) as (? & ? & Hus & Hne). rewrite Hn.
    split_and!; [done|done| |].
    + unfold getReg in *. destruct (reg_users (c_reg (w_core w')) !! _) as [x|] eqn:E; [|by right].
      left. rewrite (lookup_weaken _ _ _ _ E Hs) in Hus. destruct Hus; congruence.
    + intros room Hroom. rewrite !Hc. auto.
  - intros code room Hd Hroom. rewrite Hc. eauto.
  - intros room Hroom. rewrite Hr, Hc. auto.
Qed.

Lemma releaseSeat_job w j cur st b w' :
  Inv (w_core w) -> job_ok w j -> jb_held j = Some (cur, st) -> releaseSeat cur st w = (b, w') ->
  Inv (w_core w') /\ calm w w'
  /\ (b = true -> unseated (ss_userID (getSess w' (jb_sid j))) (w_core w')).
Proof.
  intros Hi Hj Hh Hr. destruct (jo_held _ _ Hj _ _ Hh) as (Ha & Hn & Hus & _).
  pose proof (calm_releaseSeat cur st w) as Hcalm. rewrite Hr in Hcalm. cbn [snd] in Hcalm.
  rewrite (ca_user _ _ Hcalm). destruct Hus as [Hus|Hus].
  - apply (ba_users _ (inv_base _ Hi)) in Hus as (_ & Hst & Hu).
    pose proof (releaseSeat_spec cur st w Hi Hst) as Hspec. rewrite Hr in Hspec.
    destruct Hspec as (? & _ & Hok & _). rewrite Hu in Hok. done.
  - split_and!; [|done|].
    + revert Hr. unfold releaseSeat. destruct (seatIndexByIDLocked _ _ _); [|by intros [= _ <-]].
      destruct (bool_decide _ && _); intros [= _ <-]; [done|]. rewrite core_displaceLocked.
      by destruct (leaveSeatLocked_spec cur st w Hi Ha Hn).
    + intros _. eapply lookup_weaken_None; [exact Hus|apply Hcalm].
Qed.

Lemma removeIfEmpty_job code w j :
  (forall room, jb_room j = Some room -> code <> r_code (getRoom w room)) ->
  job_ok w j -> job_ok (removeIfEmpty code w) j.
Proof.
  intros Hne [Jf Jh Jd Jr].
  assert (w_sess (removeIfEmpty code w) = w_sess w) as Hs.
  { unfold removeIfEmpty. by repeat case_match. }
  destruct (removeIfEmpty_core code w) as [Hc|(room & _ & _ & Hc)].
  - constructor; unfold getReg, getRoom, getSess in *; rewrite ?Hs, ?Hc; auto.
  - constructor; unfold getReg, getRoom, getSess, unseated in *; rewrite ?Hs, ?Hc; cbn; auto.
    intros r Hr. apply lookup_delete_Some. auto.
Qed.

Lemma getSess_connect sid name uid authed w s :
  s <> sid -> getSess (connect sid name uid authed w) s = getSess w s.
Proof. intros Hs. unfold connect, updSess, getSess. cbn. by rewrite store_upd_ne. Qed.

(** ** Every step *)

Lemma seatOfUser_index u w cur st :
  Inv (w_core w) -> seatOfUser u w = Some (cur, st) ->
  reg_users (getReg w) !! u = Some (cur, st)
  /\ st ∈ r_seats (roomOf (w_core w) cur) /\ st.1 = cur /\ (cur < c_nextRoom (w_core w))%nat
  /\ reg_rooms (getReg w) !! r_code (getRoom w cur) = Some cur.
Proof.
  intros Hi Hu. pose proof (seatOfUser_spec _ _ _ _ (inv_base _ Hi) Hu) as [Hst _].
  split_and!; try done.
  - revert Hu. unfold seatOfUser. by case_match.
  - by apply (rb_addr _ _ (ba_room _ (inv_base _ Hi) cur)) in Hst as [].
  - by eapply allocated_seat; [apply Hi|].
  - apply (ba_listed _ (inv_base _ Hi)). intros E. rewrite E in Hst. by apply elem_of_nil in Hst.
Qed.

Lemma begun_ok sid w room host :
  Inv (w_core w) ->
  (forall r, room = Some r -> reg_rooms (getReg w) !! r_code (getRoom w r) = Some r
     /\ forall cur st, seatOfUser (ss_userID (getSess w sid)) w = Some (cur, st) -> cur <> r) ->
  job_ok w {| jb_sid := sid; jb_held := seatOfUser (ss_userID (getSess w sid)) w;
              jb_drop := None; jb_room := room; jb_host := host |}.
Proof.
  intros Hi Hr. constructor; cbn [jb_sid jb_held jb_drop jb_room].
  - apply seatOfUser_None, Hi.
  - intros cur st Hu. destruct (seatOfUser_index _ _ _ _ Hi Hu) as (Hus & _ & ? & ? & Hl).
    split_and!; [done|done|by left|]. intros r E. destruct (Hr r E) as [Hlr Hne].
    intros Ecode. rewrite Ecode, Hlr in Hl. injection Hl as ->. by eapply Hne.
  - done.
  - intros r E. by apply Hr.
Qed.

Lemma openRoom_ok code w room w2 :
  Inv (w_core w) -> reg_rooms (getReg w) !! code = None -> openRoom code w = (room, w2) ->
  Inv (w_core w2) /\ w_sess w2 = w_sess w
  /\ reg_users (getReg w2) = reg_users (getReg w)
  /\ reg_rooms (getReg w2) !! r_code (getRoom w2 room) = Some room.
Proof.
  intros Hi Hc. unfold openRoom, newRoom, nowMs, nowNs. intros [= <- <-]. split_and!; try done.
  - by apply opened_Inv.
  - rewrite getRoom_core. autorewrite with tm_core. unfold getReg. cbn. by rewrite lookup_insert_eq.
Qed.

Lemma calm_settings w w' : calm w w' -> settings_valid (w_core w) -> settings_valid (w_core w').
Proof.
  intros Hc Hs r. rewrite (ca_next _ _ Hc). intros Hr.
  destruct (ca_settings _ _ Hc r) as [E|E]; rewrite !getRoom_core in E; [rewrite E; auto|done].
Qed.

Lemma removeIfEmpty_settings code w :
  settings_valid (w_core w) -> settings_valid (w_core (removeIfEmpty code w)).
Proof. destruct (removeIfEmpty_core code w) as [-> |(? & _ & _ & ->)]; done. Qed.

Lemma openRoom_settings code w :
  settings_valid (w_core w) -> settings_valid (w_core (openRoom code w).2).
Proof.
  intros Hs r. unfold openRoom, newRoom, nowMs, nowNs. cbn [snd]. autorewrite with tm_core.
  rewrite roomOf_updRoom. cbn [c_nextRoom c_updReg c_updRoom set_c_reg set_c_rooms
    set_c_nextRoom w_core ticked set_w_tick].
  intros Hr. case_decide as Hd; [cbn [r_settings set_r_code set_r_lastActivityMs set_r_createdAt
    set_r_settings]; apply ValidateSettings_ok, default_settings_ok|].
  apply Hs. lia.
Qed.

Lemma seated_settings rid st u c c' :
  seated rid st u c c' -> settings_valid c -> settings_valid c'.
Proof.
  intros Hsd Hs r. rewrite (sd_nextRoom _ _ _ _ _ Hsd). intros Hr.
  destruct (decide (r = rid)) as [->|Hne].
  - rewrite (sd_settings _ _ _ _ _ Hsd). auto.
  - rewrite (sd_room _ _ _ _ _ Hsd) by done. auto.
Qed.

(** What a step under the registry's lock does. *)
Lemma step_ok c c' : ok c -> step c c' -> ok c'.
Proof.
  intros [Hi Hse Hj] Hs.
  destruct Hs as [w w' j Hsec|sid name uid authed w j Hnew|code w|sid w|sid code room w Hroom Hne
    |w j|cur st w w' j Hh Hr|cur st w w' j Hh Hr|code w j Hd|code room w w1 w2 j Hh Hd Hro Hho Hfree Hopen
    |room b w w' j Hh Hd Hro Hseat]; cbn [fst snd] in *.
  - pose proof (section_calm _ _ Hi Hsec) as Hcalm.
    constructor; [by eapply section_keeps|by eapply calm_settings|].
    intros j' E. eapply job_calm; [exact Hcalm|auto].
  - constructor; [done|done|]. intros b E. specialize (Hj b E). specialize (Hnew b E). destruct Hj.
    cbn [fst]. constructor; rewrite ?getSess_connect by done; done.
  - constructor; [by apply removeIfEmpty_Inv|by apply removeIfEmpty_settings|done].
  - constructor; [done|done|]. intros j [= <-]. by apply begun_ok.
  - constructor; [done|done|]. intros j [= <-]. apply begun_ok; [done|]. intros r [= <-].
    split; [|done].
    destruct (ba_codes _ (inv_base _ Hi) _ _ Hroom) as [_ Hc]. by rewrite <- Hc in Hroom.
  - by constructor.
  - destruct (releaseSeat_job _ _ _ _ _ _ Hi (Hj _ eq_refl) Hh Hr) as (Hi' & Hcalm & Hun).
    constructor; [done|by eapply calm_settings|]. intros j' [= <-]. pose proof (Hj _ eq_refl) as Hjo.
    destruct (job_calm _ _ _ Hcalm Hjo) as [Jf Jh Jd Jr].
    constructor; cbn [jb_sid jb_held jb_drop jb_room fst]; try done; [auto|].
    intros code r [= <-] E. by destruct (Jh _ _ Hh) as (_ & _ & _ & Hcode); apply Hcode.
  - destruct (releaseSeat_job _ _ _ _ _ _ Hi (Hj _ eq_refl) Hh Hr) as (Hi' & Hcalm & _).
    constructor; [done|by eapply calm_settings|done].
  - constructor; [by apply removeIfEmpty_Inv|by apply removeIfEmpty_settings|].
    intros j' [= <-]. pose proof (Hj _ eq_refl) as Hjo.
    cbn [fst]. apply (removeIfEmpty_job code) in Hjo; [|intros; by eapply jo_drop].
    destruct Hjo. by constructor.
  - apply core_freeCodeLocked in Hfree as (Hc & Hs & Hcode).
    destruct (openRoom_ok code w1 room w2) as (Hi2 & Hs2 & Hu2 & Hl2); [by rewrite Hc| |done|].
    { unfold getReg in *. by rewrite Hc. }
    assert (settings_valid (w_core w2)) as Hse2.
    { pose proof (openRoom_settings code w1) as Ho. rewrite Hopen, Hc in Ho. auto. }
    constructor; [done|done|]. intros j' [= <-]. pose proof (jo_free _ _ (Hj _ eq_refl) Hh) as Hun.
    constructor; cbn [jb_sid jb_held jb_drop jb_room fst]; try done.
    + intros _. unfold unseated, getSess, getReg in *. rewrite Hs2, Hs, Hu2, Hc. done.
    + intros r [= <-]. done.
  - cbn [fst]. pose proof (Hj _ eq_refl) as Hjo.
    apply seatRoom_seated in Hseat. destruct b; [|by destruct Hseat as [-> _]].
    destruct Hseat as (Hlen & st & Hsd & _).
    constructor; [|by eapply seated_settings|done].
    eapply seated_Inv; [exact Hi| | |exact Hlen|exact Hsd].
    + by apply (jo_free _ _ Hjo).
    + by apply (jo_room _ _ Hjo).
Qed.

Lemma Inv_init : Inv init_core.
Proof.
  assert (forall r, roomOf init_core r = zero_Room) as Hr by done.
  constructor; [constructor|..].
  - intros r. constructor; rewrite Hr; cbn; try done; [constructor|lia|..];
      intros; by match goal with H : _ ∈ [] |- _ => apply elem_of_nil in H end.
  - intros u r s. rewrite Hr. cbn. rewrite lookup_empty. split; [done|].
    intros (_ & Hs & _). by apply elem_of_nil in Hs.
  - done.
  - intros code r. cbn. by rewrite lookup_empty.
  - intros r. by rewrite Hr.
  - intros e He. by apply elem_of_nil in He.
  - intros r. by left.
  - intros r m. by rewrite Hr.
Qed.

(** The server at start: no room, no connection, nothing in progress. *)
Definition initial (c : config) : Prop := w_core c.1 = init_core /\ c.2 = None.

Definition reachable (c : config) : Prop := exists c0, initial c0 /\ steps step c0 c.

Lemma reachable_ok c : reachable c -> ok c.
Proof.
  intros (c0 & [Hc Hj] & Hs). eapply (steps_invariant step ok); [| |exact Hs].
  - apply step_ok.
  - constructor; [rewrite Hc; apply Inv_init| |by rewrite Hj]. rewrite Hc. intros r Hr. cbn in Hr. lia.
Qed.
End steps.
