(* ===== verification/WsPath.v ===== *)
(** * internal/ws: the handlers are made of these steps

    A frame dispatched, a connection torn down, a timer fired or a reaper sweep,
    run without interference, is a path of [step]: the relation of WsStep leaves no
    handler out, so its invariants cover the code of session.go and of the
    goroutines. *)

From S2P Require Import Prelude GoStd Json Protocol Ratelimit WsState WsRoom WsMatch WsLobby WsSession WsCore WsInv WsOps WsCalm WsMember WsStep.

Open Scope Z_scope.

Section paths.
Context `{Env}.

(** From one world to another with nothing in progress at either end. *)
Definition path (w w' : world) : Prop := steps step (w, None) (w', None).

#[export] Instance path_refl : Reflexive path.
Proof. intros w. apply steps_refl. Qed.
#[export] Instance path_trans : Transitive path.
Proof. intros a b c. apply steps_trans. Qed.

Lemma path_sec w w' : section w w' -> path w w'.
Proof. intros Hs. eapply steps_step; [by apply st_section|apply steps_refl]. Qed.

Lemma path_local w w' : local w w' -> path w w'.
Proof. intros Hl. by apply path_sec, sec_local. Qed.

Lemma path_drop code w : path w (removeIfEmpty code w).
Proof. eapply steps_step; [apply st_dropEmpty|apply steps_refl]. Qed.

Lemma path_ok w w' : path w w' -> ok (w, None) -> ok (w', None).
Proof. intros Hp Hi. eapply (steps_invariant step ok); [apply step_ok|exact Hi|exact Hp]. Qed.

(** ** What a connection does to itself *)

#[export] Instance local_refl : Reflexive local.
Proof. by constructor. Qed.
#[export] Instance local_trans : Transitive local.
Proof. intros a b c [] []. constructor; intros; congruence. Qed.

Lemma local_updSess sid f w :
  (forall x, ss_userID (f x) = ss_userID x) -> local w (updSess sid f w).
Proof.
  intros Hf. constructor; [done|]. intros s. unfold getSess, updSess. cbn.
  rewrite store_upd_case. case_decide; subst; [apply Hf|done].
Qed.

Lemma local_ticked w : local w (ticked w).
Proof. by constructor. Qed.

Lemma local_send sid f w : local w (send sid f w).
Proof.
  unfold send. case_match; [apply local_ticked|].
  etrans; [|by apply local_updSess].
  etrans; [apply local_ticked|]. case_match; [|reflexivity].
  apply local_updSess. intros x. unfold writeOne. by case_match.
Qed.

Lemma local_sendErr sid c m w : local w (sendErr sid c m w).
Proof. apply local_send. Qed.

Lemma local_sendAll sid l w : local w (sendAll sid l w).
Proof.
  unfold sendAll. revert w. induction l as [|f l IH]; intros w; cbn; [reflexivity|].
  etrans; [apply local_send|apply IH].
Qed.

Hint Resolve path_local path_sec local_sendErr local_send local_updSess local_ticked
  local_sendAll path_drop : core.
Hint Constructors section : core.

(** ** Reconnecting *)

Lemma reattachDrain_path fuel rid sid st mid w w' :
  reattachDrain fuel rid sid st mid w = Some w' -> path w w'.
Proof.
  revert w. induction fuel as [|fuel IH]; intros w; cbn [reattachDrain]; [done|].
  assert (path w (reattachPoll rid st mid w).2) as Hp by auto.
  destruct (reattachPoll rid st mid w) as [[l|] w1]; cbn [snd] in Hp.
  - case_match.
    + intros [= <-]. etrans; [exact Hp|auto].
    + intros Hw%IH. etrans; [exact Hp|]. etrans; [|exact Hw]. auto.
  - by intros [= <-].
Qed.

Lemma reattach_path fuel rid sid st w b w' :
  reattach fuel rid sid st w = Some (b, w') -> path w w'.
Proof.
  unfold reattach. assert (path w (reattachBind rid sid st w).2) as Hp by auto.
  destruct (reattachBind rid sid st w) as [[[mid state]|] w1]; cbn [snd] in Hp.
  - case_match eqn:Hd; [|done]. intros [= _ <-]. apply reattachDrain_path in Hd.
    etrans; [exact Hp|]. etrans; [|exact Hd]. apply path_local.
    etrans; apply local_send.
  - by intros [= _ <-].
Qed.

Lemma disconnect_path rid sid w : Inv (w_core w) -> path w (disconnect rid sid w).2.
Proof.
  intros Hi. unfold disconnect. assert (path w (disconnectPark rid sid w).2) as Hp by auto.
  assert (forall st, (disconnectPark rid sid w).1 = Some st -> st.1 = rid) as Hst.
  { unfold disconnectPark. destruct (findSeatLocked _ _ _) as [s|] eqn:Hf; cbn; [|done].
    intros st [= <-]. apply findSeat_spec in Hf as [Hin _].
    by apply (rb_addr _ _ (ba_room _ (inv_base _ Hi) rid)) in Hin as []. }
  destruct (disconnectPark rid sid w) as [[st|] w1]; cbn [fst snd] in *; [|done].
  etrans; [exact Hp|]. etrans; [|apply path_sec, sec_arm].
  apply path_sec, sec_addGrace. auto.
Qed.

(** ** Leaving, the timers and the reaper *)

Lemma leave_path rid sid w : path w (leave rid sid w).
Proof.
  unfold leave. destruct (leaveLocked rid sid w) as [w1|] eqn:Hl; [|reflexivity].
  etrans; [by eapply path_sec, sec_leave|apply path_drop].
Qed.

Lemma onTimer_path rid mid reason w :
  path w (match forceEnd rid mid reason w with
          | None => w
          | Some w => removeIfEmpty (r_code (getRoom w rid)) w
          end).
Proof.
  destruct (forceEnd rid mid reason w) as [w1|] eqn:Hf; [|reflexivity].
  etrans; [by eapply path_sec, sec_timer|apply path_drop].
Qed.

Lemma sweepAfk_path rid mid w : path w (sweepAfk rid mid w).2.
Proof.
  unfold sweepAfk. assert (path w (sweepLocked rid mid w).2) as Hp by auto.
  destruct (sweepLocked rid mid w) as [[stop ended] w1]. cbn [snd] in *.
  destruct ended; [|done]. etrans; [exact Hp|apply path_drop].
Qed.

Lemma onGraceExpire_path rid st w : st.1 = rid -> path w (onGraceExpire rid st w).
Proof.
  intros Hs. unfold onGraceExpire. etrans; [by apply path_sec, sec_expire|].
  etrans; [|apply path_drop]. auto.
Qed.

Lemma reapIdleRooms_path rooms now w :
  Inv (w_core w) -> (forall r, r ∈ rooms -> (r < c_nextRoom (w_core w))%nat) ->
  path w (reapIdleRooms rooms now w).
Proof.
  intros Hi Hr. unfold reapIdleRooms.
  set (f := fun (acc : list string * world) room => _).
  assert (forall l acc, (forall r, r ∈ l -> (r < c_nextRoom (w_core acc.2))%nat) -> Inv (w_core acc.2) ->
    path acc.2 (foldl f acc l).2) as Hf.
  { induction l as [|r l IH]; intros acc Hl Hia; cbn [foldl]; [reflexivity|].
    assert (section acc.2 (f acc r).2) as Hsec.
    { subst f. cbn. destruct acc as [e w1]. cbn [snd].
      pose proof (sec_reap r now w1) as Hs. destruct (reapRoom r now w1) as [b w2]. cbn [snd] in *.
      apply Hs, Hl. set_solver. }
    etrans; [by apply path_sec|]. apply IH; [|by eapply section_keeps].
    intros r' Hr'. rewrite (ca_next _ _ (section_calm _ _ Hia Hsec)). apply Hl. set_solver. }
  specialize (Hf rooms ([], w) Hr Hi). destruct (foldl f _ rooms) as [emptied w1]. cbn [snd] in Hf.
  etrans; [exact Hf|]. clear Hf. generalize dependent w1. intros w1.
  revert w1. induction emptied as [|c l IH]; intros w1; cbn; [reflexivity|].
  etrans; [apply path_drop|apply IH].
Qed.
(** ** create and join *)

Definition begun (sid : nat) (held : option (nat * seatref)) (room : option nat) (host : bool) : job :=
  {| jb_sid := sid; jb_held := held; jb_drop := None; jb_room := room; jb_host := host |}.

Lemma moveOut_steps sid held room host w b w' :
  moveOut held w = (b, w') ->
  steps step (w, Some (begun sid held room host))
    (w', if b then Some (begun sid None room host) else None).
Proof.
  unfold moveOut. destruct held as [[cur st]|]; [|intros [= <- <-]; apply steps_refl].
  destruct (releaseSeat cur st w) as [ok w1] eqn:Hr. destruct ok; intros [= <- <-].
  - eapply steps_step; [by eapply st_release|].
    eapply steps_step; [by eapply st_drop|apply steps_refl].
  - eapply steps_step; [by eapply st_refuse|apply steps_refl].
Qed.

Lemma create_path sid w out w' : create sid w = Some (out, w') -> path w w'.
Proof.
  unfold create, path. set (held := seatOfUser _ w).
  destruct (moveOut held w) as [b w1] eqn:Hm. pose proof (moveOut_steps sid _ None true _ _ _ Hm) as Hs.
  intros Hc. eapply steps_step; [apply (st_create sid)|].
  eapply steps_trans; [exact Hs|]. destruct b; cbn [negb] in Hc; [|by simplify_eq; apply steps_refl].
  destruct (freeCodeLocked loop_fuel w1) as [[code w2]|] eqn:Hfree; [|done].
  destruct (newRoom code w2) as [room w3] eqn:Hnew.
  assert (openRoom code w2 = (room, updReg (fun g => set_reg_rooms (<[code := room]> (reg_rooms g)) g) w3))
    as Hopen by (unfold openRoom; by rewrite Hnew).
  destruct (seatRoom room sid true _) as [[b w4]|] eqn:Hseat; [|done]. simplify_eq.
  eapply steps_step.
  - eapply st_open; [done..|exact Hfree|exact Hopen].
  - eapply steps_step; [by eapply st_seat|apply steps_refl].
Qed.

Lemma join_path code sid w out w' : join code sid w = Some (out, w') -> path w w'.
Proof.
  unfold join. destruct (reg_rooms _ !! _) as [room|] eqn:Hroom; [|intros; by simplify_eq].
  set (held := seatOfUser _ w). set (here := match held with Some _ => _ | None => _ end).
  assert (here = None -> forall cur st, held = Some (cur, st) -> cur <> room) as Hhere.
  { subst here. intros Hh cur st E. rewrite E in Hh. case_bool_decide; done. }
  destruct here as [st|]; [intros; simplify_eq; auto|].
  destruct (full room w); [intros; by simplify_eq|].
  destruct (moveOut held w) as [b w1] eqn:Hm.
  pose proof (moveOut_steps sid _ (Some room) false _ _ _ Hm) as Hs. intros Hc.
  eapply steps_step; [eapply (st_join sid); [exact Hroom|by apply Hhere]|].
  eapply steps_trans; [exact Hs|]. destruct b; cbn [negb] in Hc; [|by simplify_eq; apply steps_refl].
  destruct (seatRoom room sid false w1) as [[b w2]|] eqn:Hseat; [|done].
  eapply steps_step; [by eapply st_seat|]. destruct b; simplify_eq; apply steps_refl.
Qed.

(** ** session.go *)

Lemma enterRoomLoop_path n sid attempt w w' :
  (forall w out w', attempt w = Some (out, w') -> path w w') ->
  enterRoomLoop n sid attempt w = Some w' -> path w w'.
Proof.
  intros Ha. revert w. induction n as [|n IH]; intros w; cbn [enterRoomLoop].
  { intros [= <-]. auto. }
  destruct (attempt w) as [[out w1]|] eqn:Hw1; [|done]. apply Ha in Hw1.
  case_match; [intros [= <-]; etrans; [exact Hw1|auto]|].
  destruct (so_reclaim out) as [st|]; [|intros [= <-]; etrans; [exact Hw1|auto]].
  destruct (so_room out) as [room|]; [|by intros [= <-]].
  destruct (reattach _ room sid st w1) as [[b w2]|] eqn:Hr; [|done].
  apply reattach_path in Hr. destruct b.
  - intros [= <-]. etrans; [exact Hw1|]. etrans; [exact Hr|].
    transitivity (removeGrace (st_resumeToken (getSeat w2 st)) w2); [auto|].
    by apply path_local, local_updSess.
  - intros Hw%IH. etrans; [exact Hw1|]. by etrans.
Qed.

Lemma decode_local {A} (d : Json.decoder A) zero sid data w :
  local w (decode d zero sid data w).2.
Proof. unfold decode. case_match; cbn [snd]; [reflexivity|apply local_sendErr]. Qed.

Lemma handleCreateRoom_path sid w w' : handleCreateRoom sid w = Some w' -> path w w'.
Proof.
  unfold handleCreateRoom. case_match; [intros [= <-]; auto|].
  case_match; [intros [= <-]; auto|]. apply enterRoomLoop_path. intros. by eapply create_path.
Qed.

Lemma handleJoinRoom_path sid data w w' : handleJoinRoom sid data w = Some w' -> path w w'.
Proof.
  unfold handleJoinRoom. pose proof (decode_local dec_JoinRoom {| j_code := "" |} sid data w) as Hd.
  destruct (decode _ _ _ _ w) as [[m|] w1]; cbn [snd] in Hd; [|intros [= <-]; auto].
  intros Hw. etrans; [by apply path_local|]. revert Hw.
  case_match; [intros [= <-]; auto|]. case_match; [intros [= <-]; auto|].
  apply enterRoomLoop_path. intros. by eapply join_path.
Qed.

Lemma withRoom_path sid fn w :
  (forall room w, path w (fn room w)) -> path w (withRoom sid fn w).
Proof. intros Hf. unfold withRoom. case_match; [apply Hf|auto]. Qed.

Lemma roomCommand_path {A} (d : Json.decoder A) zero sid data fn w :
  (forall m room w, path w (fn m room w)) -> path w (roomCommand d zero sid data fn w).
Proof.
  intros Hf. unfold roomCommand. pose proof (decode_local d zero sid data w) as Hd.
  destruct (decode d zero sid data w) as [[m|] w1]; cbn [snd] in Hd; [|auto].
  etrans; [by apply path_local|]. by apply withRoom_path.
Qed.

Lemma handleLeave_path sid w : path w (handleLeave sid w).
Proof.
  unfold handleLeave. case_match; [|auto]. etrans; [apply leave_path|]. auto.
Qed.

Lemma freshHello_path sid w : path w (freshHello sid w).
Proof.
  unfold freshHello, newID, newResumeToken, randRead. apply path_local.
  etrans; [|apply local_send]. etrans; [|by apply local_updSess]. by constructor.
Qed.

Lemma handleHello_path sid data w r w' : handleHello sid data w = Some (r, w') -> path w w'.
Proof.
  unfold handleHello. case_match; [|intros; simplify_eq; auto].
  case_match; [intros; simplify_eq; auto|].
  case_match; [intros; simplify_eq; apply freshHello_path|].
  assert (path w (claimGrace (h_resumeToken h) w).2) as Hc by auto.
  destruct (claimGrace _ w) as [[[room st]|] w1]; cbn [snd] in Hc.
  - destruct (reattach _ room sid st w1) as [[b w2]|] eqn:Hr; [|done]. apply reattach_path in Hr.
    intros Hw. etrans; [exact Hc|]. etrans; [exact Hr|]. destruct b; simplify_eq; auto using freshHello_path.
  - intros [= _ <-]. etrans; [exact Hc|apply freshHello_path].
Qed.

Lemma handleNTPPing_path sid data t w : path w (handleNTPPing sid data t w).
Proof.
  unfold handleNTPPing, nowMs. case_match; [|auto]. apply path_local.
  etrans; [apply local_ticked|apply local_send].
Qed.

Lemma handleEventBatch_path sid len data t w : path w (handleEventBatch sid len data t w).
Proof.
  unfold handleEventBatch. case_match; [auto|].
  pose proof (decode_local dec_EventBatch zero_EventBatch sid data w) as Hd.
  destruct (decode _ _ _ _ w) as [[m|] w1]; cbn [snd] in Hd; [|auto].
  etrans; [by apply path_local|]. case_match; auto.
Qed.

Lemma rateLimit_local sid type w : local w (rateLimit sid type w).2.
Proof.
  unfold rateLimit, nowNs. case_match; [reflexivity|].
  case_match; destruct (allow _ _ _ _) as [ok b]; cbn [snd];
    (etrans; [apply local_ticked|by apply local_updSess]).
Qed.

Lemma route_path sid type len data t w w' : route sid type len data t w = Some w' -> path w w'.
Proof.
  unfold route.
  repeat (match goal with |- (if ?b then _ else _) = _ -> _ => destruct b end;
    [first [ apply handleCreateRoom_path | apply handleJoinRoom_path
           | intros [= <-];
             first [ apply handleNTPPing_path | apply handleLeave_path
                   | apply handleEventBatch_path | apply roomCommand_path; auto | auto ] ]|]).
  intros [= <-]. auto.
Qed.

Lemma dispatch_path sid data t w r w' : dispatch sid data t w = Some (r, w') -> path w w'.
Proof.
  unfold dispatch. case_match; [|intros; simplify_eq; auto]. destruct p as [type j].
  destruct (negb (ss_helloDone _)).
  - destruct (negb _); [intros; simplify_eq; auto|apply handleHello_path].
  - pose proof (rateLimit_local sid type w) as Hl.
    destruct (rateLimit sid type w) as [[refusal|] w1]; cbn [snd] in Hl.
    + intros; simplify_eq. etrans; [by apply path_local|auto].
    + destruct (route _ _ _ _ _ w1) as [w2|] eqn:Hr; [|done]. intros; simplify_eq/=.
      etrans; [by apply path_local|by eapply route_path].
Qed.

Lemma teardown_path sid reason w : Inv (w_core w) -> path w (teardown sid reason w).2.
Proof.
  intros Hi. unfold teardown. cbn [snd]. case_match; [by apply disconnect_path|reflexivity].
Qed.
End paths.
