(* ===== verification/WsProps.v ===== *)
(** * internal/ws: what holds in every reachable state

    The server under any interleaving of its connections, timers and reaper
    ([reachable], WsStep).  First whole runs of the server, which the witnesses use;
    last two interleavings that leave a room or a seat stuck. *)

From S2P Require Import Prelude GoStd Json Protocol Ratelimit WsState WsRoom WsMatch WsLobby WsSession WsCore WsInv WsOps WsCalm WsMember WsStep WsPath.

Open Scope Z_scope.

(** * internal/ws: whole runs of the server

    A run is a list of events: a connection opened, a frame received, a connection
    gone, a timer fired, a reaper sweep.  [run] executes it with the definitions of
    the other files; whatever it reaches is reachable by [step] (WsStep).  The
    concrete environment and the frames below serve the examples. *)

Inductive event :=
| EvConnect (sid : nat) (displayName userID : string) (authed : bool)
| EvFrame (sid : nat) (data : inbound)
| EvGone (sid : nat)
| EvGrace (st : seatref)
| EvDeadline (room : nat) (matchID : string)
| EvFinishWindow (room : nat) (matchID : string)
| EvSweep (room : nat) (matchID : string)
| EvReap (now : Z).

Definition listedRooms (w : world) : list nat := (map_to_list (reg_rooms (getReg w))).*2.

Definition init_world : world :=
  {| w_core := init_core; w_sess := empty; w_persists := []; w_restricted := None; w_tick := 0 |}.

Section run.
Context `{Env}.

Definition runEvent (e : event) (w : world) : option world :=
  match e with
  | EvConnect sid name uid authed => Some (connect sid name uid authed w)
  | EvFrame sid data => snd <$> readFrame sid data w
  | EvGone sid => Some (teardown sid {| cr_code := StatusNormalClosure; cr_reason := "" |} w).2
  | EvGrace st => Some (onGraceExpire st.1 st w)
  | EvDeadline room mid => Some (onDeadline room mid w)
  | EvFinishWindow room mid => Some (onFinishWindow room mid w)
  | EvSweep room mid => Some (sweepAfk room mid w).2
  | EvReap now => Some (reapIdleRooms (listedRooms w) now w)
  end.

Fixpoint run (l : list event) (w : world) : option world :=
  match l with
  | [] => Some w
  | e :: l => match runEvent e w with Some w => run l w | None => None end
  end.

Lemma connect_path sid name uid authed w : path w (connect sid name uid authed w).
Proof. eapply steps_step; [by apply st_connect|apply steps_refl]. Qed.

Lemma runEvent_path e w w' : ok (w, None) -> runEvent e w = Some w' -> path w w'.
Proof.
  intros [Hi _ _] He. cbn [fst] in Hi. destruct e; cbn [runEvent] in He; simplify_eq.
  - apply connect_path.
  - apply fmap_Some in He as ([r w1] & He & ->). unfold readFrame, nowMs in He.
    assert (path w (ticked w)) as Hp by apply path_local, local_ticked.
    etrans; [exact Hp|]. destruct (negb _); simplify_eq; [apply path_local, local_sendErr|].
    by eapply dispatch_path.
  - by apply teardown_path.
  - by apply onGraceExpire_path.
  - apply onTimer_path.
  - apply onTimer_path.
  - apply sweepAfk_path.
  - apply reapIdleRooms_path; [done|].
    unfold listedRooms. intros r ([code r'] & -> & Hr%elem_of_map_to_list)%list_elem_of_fmap.
    by apply (ba_codes _ (inv_base _ Hi)) in Hr as [].
Qed.

Lemma run_path l w w' : ok (w, None) -> run l w = Some w' -> path w w'.
Proof.
  revert w. induction l as [|e l IH]; intros w Hw; cbn [run]; [by intros [= <-]|].
  destruct (runEvent e w) as [w1|] eqn:He; [|done]. intros Hl.
  pose proof (runEvent_path _ _ _ Hw He) as Hp. etrans; [exact Hp|]. apply IH; [|done].
  by eapply path_ok.
Qed.

Lemma run_reachable l w : run l init_world = Some w -> reachable (w, None).
Proof.
  intros Hl. exists (init_world, None). split; [done|]. eapply run_path; [|exact Hl].
  apply reachable_ok. exists (init_world, None). split; [done|apply steps_refl].
Qed.
End run.

(** ** A concrete environment, frames and a run *)

Definition testEnv : Env :=
  {| now_ms := fun k => 1000000 + Z.of_nat k;
     now_ns := fun k => (1000000 + Z.of_nat k) * millisecond * 1000;
     rand_intn := fun k n => (Z.of_nat k * 7919) mod n;
     rand_read := fun k n => (fun i => (Z.of_nat k * 37 + Z.of_nat i * 11) mod 256) <$> seq 0 n;
     select_coin := fun _ => false;
     upper_table := id;
     timing := defaultTiming;
     has_store := true;
     loop_fuel := 10 |}.

Definition textFrame (fields : list (string * json)) : inbound :=
  {| in_text := true; in_len := 200; in_json := Some (JObj fields) |}.

Definition fHello := textFrame [("type", JStr TypeHello); ("protocolVersion", JNum "1")].
Definition fResume (token : string) :=
  textFrame [("type", JStr TypeHello); ("protocolVersion", JNum "1"); ("resumeToken", JStr token)].
Definition fCreate := textFrame [("type", JStr TypeCreateRoom)].
Definition fJoin (code : string) := textFrame [("type", JStr TypeJoinRoom); ("code", JStr code)].
Definition fReady := textFrame [("type", JStr TypeReady)].
Definition fStart := textFrame [("type", JStr TypeStartMatch)].
Definition fLeave := textFrame [("type", JStr TypeLeave)].
Definition fBatch (mid : string) (seq : string) (n : nat) :=
  textFrame [("type", JStr TypeEventBatch); ("matchId", JStr mid); ("batchSeq", JNum seq);
             ("events", JArr (replicate n (JObj [])))].
Definition fFinish (mid : string) := textFrame [("type", JStr TypeFinish); ("matchId", JStr mid)].

Definition codeIn (w : option world) (room : nat) : string :=
  match w with Some w => r_code (getRoom w room) | None => "" end.
Definition matchIn (w : option world) (room : nat) : string :=
  match w with
  | Some w => match r_match (getRoom w room) with Some m => m_id m | None => "" end
  | None => ""
  end.

Section props.
Context `{Env}.

(** C1: one seat per account.  Whatever the interleaving, two seated seats of the
    same (non-guest) account are the same seat of the same room, and the account
    index points at it. *)
Theorem one_seat_per_account (c : config) (r1 r2 : nat) (s1 s2 : seatref) :
  reachable c ->
  s1 ∈ r_seats (roomOf (w_core c.1) r1) -> s2 ∈ r_seats (roomOf (w_core c.1) r2) ->
  st_userID (seatOf (w_core c.1) s1) <> "" ->
  st_userID (seatOf (w_core c.1) s1) = st_userID (seatOf (w_core c.1) s2) ->
  r1 = r2 /\ s1 = s2
  /\ reg_users (getReg c.1) !! st_userID (seatOf (w_core c.1) s1) = Some (r1, s1).
Proof.
  intros [[Hb _ _] _ _]%reachable_ok H1 H2 Hu Heq.
  assert (forall r s, s ∈ r_seats (roomOf (w_core c.1) r) ->
    st_userID (seatOf (w_core c.1) s) = st_userID (seatOf (w_core c.1) s1) ->
    reg_users (c_reg (w_core c.1)) !! st_userID (seatOf (w_core c.1) s1) = Some (r, s)) as Hi.
  { intros r s Hs E. by apply (ba_users _ Hb). }
  pose proof (Hi r1 s1 H1 eq_refl) as E1. pose proof (Hi r2 s2 H2 (eq_sym Heq)) as E2.
  rewrite E1 in E2. by simplify_eq.
Qed.

(** C3: every room is well formed.  At most five seats and no seat twice; the host
    is nobody or a player seated there; "in match" is set exactly while a match
    exists; a room somebody sits in is listed under its code, so it can be
    joined and is not lost. *)
Theorem rooms_well_formed (c : config) (r : nat) :
  reachable c ->
  let room := roomOf (w_core c.1) r in
  NoDup (r_seats room) /\ (length (r_seats room) <= roomCapacity)%nat
  /\ (r_hostID room = ""
      \/ exists s, s ∈ r_seats room /\ st_playerID (seatOf (w_core c.1) s) = r_hostID room)
  /\ (r_inMatch room = true <-> is_Some (r_match room))
  /\ (r_seats room <> [] -> reg_rooms (getReg c.1) !! r_code room = Some r).
Proof.
  intros [[Hb Hh _] _ _]%reachable_ok. cbv zeta. destruct (ba_room _ Hb r). split_and!; try done.
  - apply Hh.
  - rewrite rb_in. apply bool_decide_eq_true.
  - apply (ba_listed _ Hb).
Qed.

(** C2: a running match is never stuck and its captures are complete.  It has two
    or more distinct participants, at least one of which still races; a racing
    participant is still seated and a racing seat is a participant; each
    participant's capture holds the batches 1, 2, ..., n without a gap, its event
    count is the number of events captured, and never exceeds 480000. *)
Theorem running_match_ok (c : config) (r : nat) (m : matchState) :
  reachable c -> r_match (roomOf (w_core c.1) r) = Some m ->
  let st := seatOf (w_core c.1) in
  (2 <= length (m_roster m))%nat /\ NoDup (m_roster m)
  /\ (exists s, s ∈ m_roster m /\ st_status (st s) = seatActive)
  /\ (forall s, st_status (st s) = seatActive ->
        s ∈ m_roster m <-> s ∈ r_seats (roomOf (w_core c.1) r))
  /\ (forall s, s ∈ m_roster m ->
        b_batchSeq <$> st_batches (st s) = Z.of_nat <$> seq 1 (length (st_batches (st s)))
        /\ st_eventCount (st s) = event_total (st_batches (st s))
        /\ st_eventCount (st s) <= maxCapturedEvents).
Proof.
  intros [[Hb _ Hl] _ _]%reachable_ok Hm. cbv zeta.
  destruct (rb_match _ _ (ba_room _ Hb r) m Hm). split_and!; try done.
  - exact (Hl r m Hm).
  - intros s Hs. split; [by intros; apply mb_seated|by intros; apply mb_racing].
  - intros s Hs. by destruct (mb_capture s Hs).
Qed.

(** Whatever clients send, the settings of every room that exists pass
    [ValidateSettings]: they are those of a fresh room or of an accepted update. *)
Theorem room_settings_valid (c : config) (r : nat) :
  reachable c -> (r < c_nextRoom (w_core c.1))%nat ->
  ValidateSettings (r_settings (roomOf (w_core c.1) r)) = None.
Proof. intros [_ Hs _]%reachable_ok. apply Hs. Qed.

End props.

(** ** Witnesses: two accounts in one room, racing *)

Definition lobbyEvents : list event :=
  [EvConnect 1 "Ann" "u1" true; EvConnect 2 "Bob" "u2" true; EvFrame 1 fHello; EvFrame 2 fHello;
   EvFrame 1 fCreate].
Definition lobbyWorld : option world := @run testEnv lobbyEvents init_world.
Definition startEvents : list event :=
  lobbyEvents ++ [EvFrame 2 (fJoin (codeIn lobbyWorld 0)); EvFrame 2 fReady; EvFrame 1 fStart].
Definition startWorld : option world := @run testEnv startEvents init_world.
Definition raceEvents : list event :=
  startEvents ++ [EvFrame 1 (fBatch (matchIn startWorld 0) "1" 3);
                  EvFrame 1 (fBatch (matchIn startWorld 0) "2" 2)].
Definition raceWorld : world :=
  default init_world (@run testEnv raceEvents init_world).

Lemma raceWorld_reachable : @reachable testEnv (raceWorld, None).
Proof. apply (@run_reachable testEnv raceEvents). vm_compute. reflexivity. Qed.

Lemma raceWorld_Inv : Inv (w_core raceWorld).
Proof. by destruct (reachable_ok _ raceWorld_reachable). Qed.

(** The match of [raceWorld]. *)
Definition raceMatch : matchState :=
  match r_match (getRoom raceWorld 0) with
  | Some m => m
  | None => {| m_id := ""; m_seed := 0; m_goAtMs := 0; m_settings := zero_Settings;
               m_players := []; m_roster := []; m_deadline := None; m_finishWindow := None;
               m_afkSweep := false; m_ended := false |}
  end.

Lemma raceMatch_eq : r_match (getRoom raceWorld 0) = Some raceMatch.
Proof. by vm_compute. Qed.

Lemma one_seat_per_account_witness :
  seatOf (w_core raceWorld) (0, 1)%nat = seatOf (w_core raceWorld) (0, 1)%nat
  /\ reg_users (getReg raceWorld) !! "u2" = Some (0, (0, 1))%nat.
Proof.
  split; [reflexivity|].
  apply (@one_seat_per_account testEnv (raceWorld, None) 0 0 (0, 1)%nat (0, 1)%nat).
  - exact raceWorld_reachable.
  - by vm_compute; apply list_elem_of_further, list_elem_of_here.
  - by vm_compute; apply list_elem_of_further, list_elem_of_here.
  - by vm_compute.
  - reflexivity.
Defined.

Lemma rooms_well_formed_witness :
  length (r_seats (roomOf (w_core raceWorld) 0)) = 2%nat
  /\ reg_rooms (getReg raceWorld) !! codeIn lobbyWorld 0 = Some 0%nat.
Proof.
  split; [reflexivity|].
  apply (@rooms_well_formed testEnv (raceWorld, None) 0 raceWorld_reachable). by vm_compute.
Defined.

Lemma running_match_ok_witness :
  exists m, r_match (roomOf (w_core raceWorld) 0) = Some m
  /\ st_eventCount (seatOf (w_core raceWorld) (0, 0)%nat) = 5
  /\ exists s, s ∈ m_roster m /\ st_status (seatOf (w_core raceWorld) s) = seatActive.
Proof.
  eexists. split; [vm_compute; reflexivity|]. split; [reflexivity|].
  apply (@running_match_ok testEnv (raceWorld, None) 0); [exact raceWorld_reachable|].
  vm_compute. reflexivity.
Defined.

Lemma room_settings_valid_witness :
  ValidateSettings (r_settings (roomOf (w_core raceWorld) 0)) = None.
Proof.
  apply (@room_settings_valid testEnv (raceWorld, None) 0); [exact raceWorld_reachable|].
  vm_compute. lia.
Defined.


(** * internal/ws: two interleavings worth knowing

    Both are paths of [step]: every single section is one the program runs, only
    the schedule is unlucky.  A room can end up occupied without a host, and a seat
    can end up neither connected nor reclaimable. *)

Section stuck.
Context `{Env}.

(** A seat nobody is connected to, that is not marked disconnected either: no grace
    timer runs for it and no resume token names it. *)
Record orphaned (room : nat) (st : seatref) (w : world) : Prop := {
  or_seated : st ∈ r_seats (getRoom w room);
  or_sess : st_sess (getSeat w st) = None;
  or_live : st_disconnected (getSeat w st) = false;
  or_grace : st_grace (getSeat w st) = false;
  or_token : forall e, e ∈ reg_graces (getReg w) -> g_seat e <> st }.

Lemma orphaned_detach room st w : orphaned room st w -> detachSeat room st w = w.
Proof.
  intros [_ Hs _ _ _]. unfold detachSeat. rewrite Hs. by destruct (seatIndexByIDLocked _ _ _).
Qed.

Lemma orphaned_reattach fuel sid room st w :
  orphaned room st w -> reattach fuel room sid st w = Some (false, w).
Proof. intros [_ _ Hd _ _]. unfold reattach, reattachBind. by rewrite Hd. Qed.

(** Both turns of [enterRoom] find the orphaned seat and fail to take it. *)
Lemma orphaned_join room st code sid w :
  orphaned room st w -> reg_rooms (getReg w) !! normalizeCode code = Some room ->
  seatOfUser (ss_userID (getSess w sid)) w = Some (room, st) ->
  enterRoom sid (join code sid) w
  = Some (sendErr sid CodeInternal "could not take a seat; try again" w).
Proof.
  intros Ho Hc Hu.
  assert (join code sid w
    = Some ({| so_room := Some room; so_reclaim := Some st; so_errCode := "" |}, w)) as Hj.
  { unfold join. rewrite Hc, Hu. cbv zeta. rewrite bool_decide_eq_true_2 by done.
    by rewrite orphaned_detach. }
  unfold enterRoom. cbn [enterRoomLoop]. rewrite Hj. cbn [so_errCode so_reclaim so_room].
  cbn [String.eqb negb]. rewrite (orphaned_reattach _ _ _ _ _ Ho). cbv beta iota. rewrite Hj.
  cbn [so_errCode so_reclaim so_room String.eqb negb].
  by rewrite (orphaned_reattach _ _ _ _ _ Ho).
Qed.

(** Without a host nobody passes the host check. *)
Lemma hostless_start room sid force w :
  r_hostID (getRoom w room) = "" ->
  (forall s, s ∈ r_seats (getRoom w room) -> st_playerID (getSeat w s) <> "") ->
  exists code message, startMatch room sid force w = trySend sid (FError (NewError code message)) w.
Proof.
  intros Hh Hid. unfold startMatch, errLocked.
  destruct (findSeatLocked room sid w) as [st|] eqn:Hf; [|by eexists _, _].
  apply findSeat_spec in Hf as [Hin _]. rewrite Hh.
  rewrite (proj2 (String.eqb_neq _ _)) by (by apply Hid). by eexists _, _.
Qed.
End stuck.

(** ** A room without a host

    Ann alone in her room leaves; before she has dropped the empty room Bob joins
    it by its code. *)

Definition aloneEvents : list event :=
  [EvConnect 1 "Ann" "u1" true; EvConnect 2 "Bob" "u2" true; EvFrame 1 fHello; EvFrame 2 fHello;
   EvFrame 1 fCreate].
Definition aloneWorld : world := default init_world (@run testEnv aloneEvents init_world).
Definition emptiedWorld : world := default init_world (@leaveLocked testEnv 0 1 aloneWorld).
Definition hostlessWorld : world :=
  match @seatRoom testEnv 0 2 false emptiedWorld with Some (_, w) => w | None => init_world end.

Lemma hostlessWorld_reachable : @reachable testEnv (hostlessWorld, None).
Proof.
  assert (@run testEnv aloneEvents init_world = Some aloneWorld) as Ha by by vm_compute.
  destruct (@run_reachable testEnv _ _ Ha) as (c0 & H0 & Hp).
  exists c0. split; [exact H0|]. eapply steps_trans; [exact Hp|]. clear Hp Ha.
  eapply steps_step; [apply (@st_section testEnv), (@sec_leave testEnv 0 1 _ emptiedWorld)|].
  { by vm_compute. }
  eapply steps_step.
  { apply (@st_join testEnv 2 (r_code (getRoom aloneWorld 0)) 0 emptiedWorld).
    - by vm_compute.
    - intros cur st E. exfalso. revert E. by vm_compute. }
  eapply steps_step; [|apply steps_refl].
  eapply (@st_seat testEnv 0 true); [by vm_compute|reflexivity|reflexivity|].
  by vm_compute.
Qed.

(** ** A seat neither connected nor reclaimable

    Bob's connection drops in the lobby; connection 3 resumes his seat and, between
    binding it and draining the backlog, connection 4 of the same account joins. *)

Definition goneWorld : world :=
  default init_world (@run testEnv
    (lobbyEvents ++ [EvFrame 2 (fJoin (codeIn lobbyWorld 0)); EvGone 2; EvConnect 3 "Bob" "u2" true;
                     EvConnect 4 "Bob" "u2" true; EvFrame 4 fHello]) init_world).
Definition bobSeat : seatref := (0, 1)%nat.
Definition claimedWorld : world :=
  (claimGrace (st_resumeToken (getSeat goneWorld bobSeat)) goneWorld).2.
Definition boundWorld : world := (reattachBind 0 3 bobSeat claimedWorld).2.
Definition takenWorld : world := detachSeat 0 bobSeat boundWorld.
Definition orphanWorld : world := (@reattachPoll testEnv 0 bobSeat false takenWorld).2.

Lemma orphanWorld_reachable : @reachable testEnv (orphanWorld, None).
Proof.
  assert (@run testEnv
    (lobbyEvents ++ [EvFrame 2 (fJoin (codeIn lobbyWorld 0)); EvGone 2; EvConnect 3 "Bob" "u2" true;
                     EvConnect 4 "Bob" "u2" true; EvFrame 4 fHello]) init_world = Some goneWorld)
    as Hg by by vm_compute.
  destruct (@run_reachable testEnv _ _ Hg) as (c0 & H0 & Hp). clear Hg.
  exists c0. split; [exact H0|]. eapply steps_trans; [exact Hp|]. clear Hp.
  assert (forall w w' c, @section testEnv w w' -> steps (@step testEnv) (w', None) c ->
    steps (@step testEnv) (w, None) c) as Hsec.
  { intros w w' c Hs Hw. by eapply steps_step; [apply st_section|]. }
  apply (Hsec _ claimedWorld); [exact (sec_claimGrace _ _)|].
  apply (Hsec _ boundWorld); [exact (sec_bind 0 3 bobSeat _)|].
  apply (Hsec _ takenWorld); [exact (sec_detach 0 bobSeat _)|].
  apply (Hsec _ orphanWorld); [exact (sec_poll 0 bobSeat false _)|].
  exact (steps_refl _ _).
Qed.

(** ** The two findings *)

(** A room can be left without a host.  The last player's leave and another
    player's join can interleave so that the newcomer sits in the listed room with
    the host role vacant; from then on every start request there is refused. *)
Theorem hostless_room_reachable :
  exists w : world, @reachable testEnv (w, None)
    /\ r_seats (getRoom w 0) = [(0, 1)%nat] /\ r_hostID (getRoom w 0) = ""
    /\ reg_rooms (getReg w) !! r_code (getRoom w 0) = Some 0%nat
    /\ forall sid force, exists code message,
         @startMatch testEnv 0 sid force w = trySend sid (FError (NewError code message)) w.
Proof.
  exists hostlessWorld. split; [apply hostlessWorld_reachable|].
  split_and!; [by vm_compute..|]. intros sid force. apply hostless_start; [by vm_compute|].
  intros s. replace (r_seats (getRoom hostlessWorld 0)) with [(0, 1)%nat] by by vm_compute.
  intros ->%list_elem_of_singleton. by vm_compute.
Qed.

(** A seat can be lost to its account.  When a resume is overtaken by a join of
    the same account between binding the seat and draining its backlog, the seat
    ends up seated, without a connection, not disconnected, with no grace timer
    and no resume token; the account index still names it, so every later join of
    that account to that room fails with an internal error. *)
Theorem orphaned_seat_reachable :
  exists w : world, @reachable testEnv (w, None)
    /\ orphaned 0 bobSeat w
    /\ forall sid, ss_userID (getSess w sid) = "u2" ->
         @enterRoom testEnv sid (@join testEnv (r_code (getRoom w 0)) sid) w
         = Some (@sendErr testEnv sid CodeInternal "could not take a seat; try again" w).
Proof.
  exists orphanWorld. split; [apply orphanWorld_reachable|].
  assert (orphaned 0 bobSeat orphanWorld) as Ho.
  { constructor; [|by vm_compute..|].
    - vm_compute. apply list_elem_of_further, list_elem_of_here.
    - replace (reg_graces (getReg orphanWorld)) with (@nil graceEntry) by by vm_compute.
      by intros e Hin%elem_of_nil. }
  split; [exact Ho|]. intros sid Hu. apply (@orphaned_join testEnv 0 bobSeat); [exact Ho|by vm_compute|].
  rewrite Hu. by vm_compute.
Qed.
