(* ===== verification/WsFunc.v ===== *)
(** * internal/ws: what the operations do

    The functional behaviour of the match operations: the start gate, the relay and
    its capture, the end of a match with its results and its persisted snapshot,
    the AFK accounting, the reconnect replay. *)

From S2P Require Import Prelude GoStd Json Protocol Ratelimit WsState WsRoom WsMatch WsLobby WsSession WsCore WsInv WsOps WsCalm WsMember WsStep WsPath WsProps.

Open Scope Z_scope.

(** ** Queues *)

(** [k] non-blocking sends of one frame. *)
Fixpoint pushes (k : nat) (f : frame) (q : list frame) : list frame :=
  match k with
  | O => q
  | S k => pushes k f (if (length q <? outboundBuffer)%nat then q ++ [f] else q)
  end.

Lemma pushes_S k f q :
  pushes (S k) f q = pushes k f (if (length q <? outboundBuffer)%nat then q ++ [f] else q).
Proof. done. Qed.

Lemma pushes_fit k f q :
  (length q + k <= outboundBuffer)%nat -> pushes k f q = q ++ replicate k f.
Proof.
  revert q. induction k as [|k IH]; intros q Hk; cbn [pushes replicate]; [by rewrite app_nil_r|].
  rewrite (proj2 (Nat.ltb_lt _ _)) by lia. rewrite IH.
  - by rewrite <- app_assoc.
  - rewrite length_app. cbn. lia.
Qed.

Section func.
Context `{Env}.

Lemma outbound_trySend sid f w s :
  ss_outbound (getSess (trySend sid f w) s)
  = if decide (s = sid) then pushes 1 f (ss_outbound (getSess w s)) else ss_outbound (getSess w s).
Proof.
  unfold trySend, updSess, getSess. cbn -[Nat.ltb outboundBuffer]. rewrite store_upd_case.
  destruct (decide (s = sid)) as [->|Hs].
  - rewrite decide_True by done. by case_match.
  - by rewrite decide_False by done.
Qed.

(** ** The relay *)

(** The connections of the other participants that are reading live. *)
Definition liveOn (w : world) (st : seatref) (sid : nat) (o : seatref) : bool :=
  negb (bool_decide (o = st)) && negb (st_disconnected (getSeat w o))
  && bool_decide (st_sess (getSeat w o) = Some sid).

Definition sameLink (w w' : world) : Prop :=
  forall o, st_disconnected (getSeat w' o) = st_disconnected (getSeat w o)
    /\ st_sess (getSeat w' o) = st_sess (getSeat w o).

Lemma relayTo_link st pb o w : sameLink w (relayTo st pb o w).
Proof.
  unfold relayTo. intros o'. repeat case_match; try done.
  rewrite !getSeat_core, core_updSeat, seatOf_updSeat. destruct (decide (o = o')); by subst.
Qed.

Lemma relayTo_outbound st pb o w sid :
  ss_outbound (getSess (relayTo st pb o w) sid)
  = pushes (if liveOn w st sid o then 1 else 0) pb (ss_outbound (getSess w sid)).
Proof.
  unfold relayTo, liveOn. repeat case_bool_decide; subst; cbn [negb andb]; try done.
  - destruct (st_disconnected _); cbn [negb andb]; [done|].
    rewrite H1, outbound_trySend. by rewrite decide_True.
  - destruct (st_disconnected _); cbn [negb andb]; [done|].
    case_match; [|done]. rewrite outbound_trySend, decide_False; [done|]. congruence.
Qed.

Lemma pushes_add a b f q : pushes (a + b) f q = pushes b f (pushes a f q).
Proof. revert q. induction a as [|a IH]; intros q; [done|]. apply IH. Qed.

Lemma forRelay_outbound l st pb w sid :
  ss_outbound (getSess (forSeats l (relayTo st pb) w) sid)
  = pushes (length (List.filter (liveOn w st sid) l)) pb (ss_outbound (getSess w sid)).
Proof.
  unfold forSeats. revert w. induction l as [|o l IH]; intros w; cbn [foldl List.filter]; [done|].
  rewrite IH, relayTo_outbound.
  assert (List.filter (liveOn (relayTo st pb o w) st sid) l = List.filter (liveOn w st sid) l) as ->.
  { apply List.filter_ext. intros x. unfold liveOn.
    by destruct (relayTo_link st pb o w x) as [-> ->]. }
  destruct (liveOn w st sid o); [|done]. cbn [length]. by rewrite <- pushes_add.
Qed.

Lemma forRelay_backlog l st pb w o :
  NoDup l ->
  seatOf (w_core (forSeats l (relayTo st pb) w)) o
  = if decide (o ∈ l /\ o <> st /\ st_disconnected (getSeat w o) = true)
    then set_st_backlog (st_backlog (getSeat w o) ++ [pb]) (getSeat w o) else getSeat w o.
Proof.
  unfold forSeats. revert w. induction l as [|x l IH]; intros w Hnd; cbn [foldl].
  { by rewrite decide_False by set_solver. }
  apply NoDup_cons in Hnd as [Hx Hnd]. rewrite IH by done.
  assert (getSeat (relayTo st pb x w) o
    = if decide (o = x /\ o <> st /\ st_disconnected (getSeat w o) = true)
      then set_st_backlog (st_backlog (getSeat w o) ++ [pb]) (getSeat w o) else getSeat w o) as ->.
  { unfold relayTo. case_bool_decide; subst.
    { by rewrite decide_False by naive_solver. }
    destruct (st_disconnected (getSeat w x)) eqn:Hd.
    - rewrite !getSeat_core, core_updSeat, seatOf_updSeat. destruct (decide (x = o)) as [<-|].
      + rewrite decide_True; done.
      + rewrite decide_False; [done|]. by intros [-> _].
    - rewrite decide_False by (intros (-> & _ & ?); congruence).
      destruct (st_sess _); done. }
  destruct (decide (o = x)) as [->|Hox].
  - rewrite (decide_False (P := x ∈ l /\ _)) by naive_solver.
    destruct (decide (x = x /\ _)) as [Hc|Hc].
    + rewrite decide_True; [done|set_solver].
    + rewrite decide_False; [done|set_solver].
  - rewrite (decide_False (P := o = x /\ _)) by naive_solver.
    destruct (decide (o ∈ l /\ _)) as [Hc|Hc].
    + rewrite decide_True; [done|set_solver].
    + rewrite decide_False; [done|set_solver].
Qed.

Definition peerBatch (st : seat) (eb : EventBatch) : frame :=
  FPeerBatch {| pb_type := TypePeerBatch; pb_playerId := st_playerID st;
                pb_version := eb_version eb; pb_events := eb_events eb |}.

(** The state the relay loop starts from. *)
Lemma relay_unfold room sid eb recv w st m :
  findSeatLocked room sid w = Some st -> r_match (getRoom w room) = Some m ->
  eb_matchId eb = m_id m -> st_status (getSeat w st) = seatActive -> eb_events eb <> [] ->
  eb_batchSeq eb = st_lastSeq (getSeat w st) + 1 ->
  st_eventCount (getSeat w st) + Z.of_nat (length (eb_events eb)) <= maxCapturedEvents ->
  relayEventBatch room sid eb recv w
  = forSeats (m_roster m) (relayTo st (peerBatch (getSeat w st) eb))
      (updSeat st (acceptBatch (m_goAtMs m) recv eb) (touchLocked room w)).
Proof.
  intros Hf Hm Hid Hst Hev Hseq Hmax. unfold relayEventBatch. rewrite Hf, Hm, Hid, Hst, Hseq.
  rewrite !String.eqb_refl, Z.eqb_refl. cbn [negb].
  destruct (eb_events eb) as [|e l] eqn:He; [done|]. rewrite <- He in *.
  rewrite (proj2 (Nat.eqb_neq _ _)) by (rewrite He; done).
  by rewrite (proj2 (Z.ltb_ge _ _)) by lia.
Qed.

(** C39: an accepted event batch.  A racing participant's next batch, within the
    capture limit, is appended to its capture with the receive instant; every
    graced participant keeps the peer_batch in its backlog; every connection gets
    one copy per other participant reading live on it, and nothing else is queued
    anywhere. *)
Theorem relay_accepts room sid eb recv w st m :
  Inv (w_core w) ->
  findSeatLocked room sid w = Some st -> r_match (getRoom w room) = Some m ->
  eb_matchId eb = m_id m -> st_status (getSeat w st) = seatActive -> eb_events eb <> [] ->
  eb_batchSeq eb = st_lastSeq (getSeat w st) + 1 ->
  st_eventCount (getSeat w st) + Z.of_nat (length (eb_events eb)) <= maxCapturedEvents ->
  let w' := relayEventBatch room sid eb recv w in
  let pb := peerBatch (getSeat w st) eb in
  st_batches (getSeat w' st)
    = st_batches (getSeat w st)
      ++ [{| b_batchSeq := eb_batchSeq eb; b_recvServerMs := recv; b_events := eb_events eb |}]
  /\ st_lastSeq (getSeat w' st) = eb_batchSeq eb
  /\ (forall o, o ∈ m_roster m -> o <> st ->
        st_backlog (getSeat w' o)
        = st_backlog (getSeat w o) ++ (if st_disconnected (getSeat w o) then [pb] else []))
  /\ (forall s, ss_outbound (getSess w' s)
        = pushes (length (List.filter (liveOn w st s) (m_roster m))) pb
            (ss_outbound (getSess w s))).
Proof.
  intros Hi Hf Hm Hid Hst Hev Hseq Hmax. cbv zeta. erewrite relay_unfold by done.
  set (w2 := updSeat st _ _).
  pose proof (mb_nodup _ _ _ _ (rb_match _ _ (ba_room _ (inv_base _ Hi) room) m Hm)) as Hnd.
  assert (getSeat w2 st = acceptBatch (m_goAtMs m) recv eb (getSeat w st)) as H2.
  { subst w2. by rewrite !getSeat_core, core_updSeat, seatOf_updSeat_eq. }
  assert (forall o, o <> st -> getSeat w2 o = getSeat w o) as H2o.
  { intros o Ho. subst w2. by rewrite !getSeat_core, core_updSeat, seatOf_updSeat_ne. }
  assert (w_sess w2 = w_sess w) as H2s by done.
  assert (forall l s, List.filter (liveOn w2 st s) l = List.filter (liveOn w st s) l) as Hlive.
  { intros l s. apply List.filter_ext. intros o. unfold liveOn.
    case_bool_decide as Ho; [done|]. by rewrite H2o. }
  clearbody w2. set (pb := peerBatch _ _).
  assert (forall x, st_batches (acceptBatch (m_goAtMs m) recv eb x)
      = st_batches x ++ [{| b_batchSeq := eb_batchSeq eb; b_recvServerMs := recv;
                            b_events := eb_events eb |}]
    /\ st_lastSeq (acceptBatch (m_goAtMs m) recv eb x) = eb_batchSeq eb) as Hacc.
  { intros x. unfold acceptBatch. by case_match. }
  split_and!; rewrite ?getSeat_core, ?forRelay_backlog by done.
  - rewrite decide_False by naive_solver. rewrite H2. apply Hacc.
  - rewrite decide_False by naive_solver. rewrite H2. apply Hacc.
  - intros o Ho Hne. rewrite getSeat_core, forRelay_backlog, H2o by done.
    destruct (st_disconnected (getSeat w o)) eqn:Hd.
    + by rewrite decide_True.
    + rewrite decide_False by naive_solver. by rewrite app_nil_r.
  - intros s. rewrite forRelay_outbound, Hlive. unfold getSess. by rewrite H2s.
Qed.

(** What is not the next batch of a racing participant of this match leaves the
    captures alone and reaches nobody: the sender gets one error frame. *)
Theorem relay_refuses room sid eb recv w :
  let w' := relayEventBatch room sid eb recv w in
  (forall st m, findSeatLocked room sid w = Some st -> r_match (getRoom w room) = Some m ->
     eb_matchId eb <> m_id m \/ st_status (getSeat w st) <> seatActive \/ eb_events eb = []
     \/ eb_batchSeq eb <> st_lastSeq (getSeat w st) + 1
     \/ maxCapturedEvents < st_eventCount (getSeat w st) + Z.of_nat (length (eb_events eb))) ->
  exists code message, w' = trySend sid (FError (NewError code message)) w.
Proof.
  cbv zeta. intros Hbad. unfold relayEventBatch, errLocked.
  destruct (findSeatLocked room sid w) as [st|]; [|by eexists _, _].
  destruct (r_match (getRoom w room)) as [m|]; [|by eexists _, _].
  repeat match goal with |- context [if ?b then _ else _] =>
    destruct b eqn:?; [by eexists _, _|] end.
  exfalso. specialize (Hbad st m eq_refl eq_refl). bool_to_prop.
  destruct Hbad as [?|[?|[He|[?|?]]]]; try done; [by rewrite He in *|lia].
Qed.

(** ** Frames are only added *)

Record grows (w w' : world) : Prop := {
  gr_out : forall s, ss_outbound (getSess w s) `prefix_of` ss_outbound (getSess w' s);
  gr_persists : w_persists w' = w_persists w }.

#[local] Instance grows_refl : Reflexive grows.
Proof. intros w. constructor; [intros s; reflexivity|done]. Qed.
#[local] Instance grows_trans : Transitive grows.
Proof. intros a b c [] []. constructor; [intros s; etrans; eauto|congruence]. Qed.

Lemma grows_same w w' : w_sess w' = w_sess w -> w_persists w' = w_persists w -> grows w w'.
Proof. intros Es Ep. constructor; [|done]. intros s. unfold getSess. rewrite Es. reflexivity. Qed.

Lemma grows_trySend sid f w : grows w (trySend sid f w).
Proof.
  constructor; [|done]. intros s. rewrite outbound_trySend. case_decide; [|reflexivity].
  cbn [pushes]. case_match; [by exists [f]|reflexivity].
Qed.

Lemma grows_forSeats l f w : (forall s w', grows w' (f s w')) -> grows w (forSeats l f w).
Proof.
  intros Hf. unfold forSeats. revert w. induction l as [|s l IH]; intros w; cbn; [reflexivity|].
  etrans; [apply Hf|apply IH].
Qed.

Lemma grows_deliver s f w : grows w (deliverLocked s f w).
Proof. unfold deliverLocked. case_match; [apply grows_trySend|reflexivity]. Qed.

Lemma grows_removeSeat r i w : grows w (removeSeatLocked r i w).
Proof.
  unfold removeSeatLocked, unindexSeat. repeat case_match; try reflexivity; by apply grows_same.
Qed.

Lemma grows_reapSeats n r w : grows w (reapSeats n r w).
Proof.
  revert w. induction n as [|n IH]; intros w; cbn [reapSeats]; [reflexivity|].
  etrans; [|apply IH]. repeat case_match; try reflexivity. apply grows_removeSeat.
Qed.

Lemma grows_broadcastState r w : grows w (broadcastStateLocked r w).
Proof. apply grows_forSeats. intros. apply grows_deliver. Qed.

Lemma grows_updSeat s f w : grows w (updSeat s f w).
Proof. by apply grows_same. Qed.
Lemma grows_updRoom r f w : grows w (updRoom r f w).
Proof. by apply grows_same. Qed.
Lemma grows_reassign r w : grows w (reassignHostLocked r w).
Proof. unfold reassignHostLocked. case_match; apply grows_updRoom. Qed.

(** ** The end of a match *)

(** The part of [endMatchLocked] after the match_end frames are out. *)
Definition toLobby (room : nat) (w : world) : world :=
  let w := updRoom room (fun r => set_r_inMatch false (set_r_match None r)) w in
  let w := forSeats (r_seats (getRoom w room)) (fun s => updSeat s resetSeat) w in
  let w := reapSeats (length (r_seats (getRoom w room))) room w in
  let w := match findSeatByIDLocked room (r_hostID (getRoom w room)) w with
           | None => reassignHostLocked room w
           | Some _ => w
           end in
  if bool_decide (r_seats (getRoom w room) = []) then w else broadcastStateLocked room w.

Lemma toLobby_grows room w : grows w (toLobby room w).
Proof.
  unfold toLobby.
  set (w1 := updRoom _ _ w). set (w2 := forSeats _ _ w1). set (w3 := reapSeats _ _ w2).
  set (w4 := match findSeatByIDLocked _ _ w3 with Some _ => w3 | None => reassignHostLocked room w3 end).
  assert (grows w w4) as Hw4.
  { transitivity w1; [apply grows_updRoom|]. transitivity w2.
    { apply grows_forSeats. intros. apply grows_updSeat. }
    transitivity w3; [apply grows_reapSeats|]. subst w4. case_match; [reflexivity|apply grows_reassign]. }
  clearbody w4. case_match; [done|]. etrans; [exact Hw4|apply grows_broadcastState].
Qed.

Definition matchEnd (w : world) (m : matchState) (reason : string) (endedAt : Z) : frame :=
  FMatchEnd {| me_type := TypeMatchEnd; me_matchId := m_id m; me_reason := reason;
               me_results := resultOf w (m_goAtMs m) endedAt <$> m_roster m |}.

Lemma matchEnd_ext w w' m reason t :
  (forall s, getSeat w' s = getSeat w s) -> matchEnd w' m reason t = matchEnd w m reason t.
Proof.
  intros Hs. unfold matchEnd. do 2 f_equal. apply list_fmap_ext. intros i s _.
  unfold resultOf. by rewrite Hs.
Qed.

(** The world with the snapshot handed to the store, the frames not yet out. *)
Definition endSnap (room : nat) (m : matchState) (w : world) : matchSnapshot :=
  (snapshotLocked room m (ticked (updRoom room (set_r_match (Some (stopTimers m))) w))).1.
Definition endPersisted (room : nat) (m : matchState) (w : world) : world :=
  let w2 := ticked (ticked (updRoom room (set_r_match (Some (stopTimers m))) w)) in
  if has_store then set_w_persists (w_persists w2 ++ [endSnap room m w]) w2 else w2.

Lemma endPersisted_same room m w :
  w_sess (endPersisted room m w) = w_sess w
  /\ (forall s, getSeat (endPersisted room m w) s = getSeat w s)
  /\ r_seats (getRoom (endPersisted room m w) room) = r_seats (getRoom w room)
  /\ w_persists (endPersisted room m w)
     = w_persists w ++ (if has_store then [endSnap room m w] else []).
Proof.
  assert (r_seats (getRoom (updRoom room (set_r_match (Some (stopTimers m))) w) room)
          = r_seats (getRoom w room)) as Hr.
  { by rewrite !getRoom_core, core_updRoom, roomOf_updRoom_eq. }
  unfold endPersisted. destruct has_store; (split_and!; [done|done|exact Hr|]); [done|].
  by rewrite app_nil_r.
Qed.

(** [endMatchLocked] of a running match, its stages named. *)
Lemma endMatch_unfold room reason w m :
  r_match (getRoom w room) = Some m -> m_ended m = false ->
  endMatchLocked room reason w
  = toLobby room (forSeats (m_roster m)
      (deliverEnd room (matchEnd w m reason (now_ms (w_tick w)))) (endPersisted room m w)).
Proof.
  intros Hm He. rewrite <- (matchEnd_ext _ (endPersisted room m w)) by apply endPersisted_same.
  unfold endMatchLocked. rewrite Hm, He. done.
Qed.

Definition onLink (w : world) (sid : nat) (s : seatref) : bool :=
  bool_decide (st_sess (getSeat w s) = Some sid).

Lemma deliverEnd_sess room e s w o : st_sess (getSeat (deliverEnd room e s w) o) = st_sess (getSeat w o).
Proof.
  unfold deliverEnd. repeat (case_match; try done).
  rewrite !getSeat_core, core_updSeat, seatOf_updSeat. destruct (decide (s = o)); by subst.
Qed.

Lemma deliverEnd_outbound l room e w sid :
  ss_outbound (getSess (forSeats l (deliverEnd room e) w) sid)
  = pushes (length (List.filter (onLink w sid) l)) e (ss_outbound (getSess w sid)).
Proof.
  unfold forSeats. revert w. induction l as [|o l IH]; intros w; cbn [foldl List.filter]; [done|].
  rewrite IH.
  assert (List.filter (onLink (deliverEnd room e o w) sid) l = List.filter (onLink w sid) l) as ->.
  { apply List.filter_ext. intros x. unfold onLink. by rewrite deliverEnd_sess. }
  assert (ss_outbound (getSess (deliverEnd room e o w) sid)
    = pushes (if onLink w sid o then 1 else 0) e (ss_outbound (getSess w sid))) as ->.
  { unfold deliverEnd, onLink. destruct (st_sess (getSeat w o)) as [s|] eqn:Hs.
    - rewrite outbound_trySend. destruct (decide (s = sid)) as [->|Hne].
      + by rewrite bool_decide_eq_true_2, decide_True by done.
      + by rewrite bool_decide_eq_false_2, decide_False by congruence.
    - case_match; done. }
  destruct (onLink w sid o); [|done]. cbn [length]. by rewrite <- pushes_add.
Qed.

Lemma pushes_elem k f q : (0 < k)%nat -> (length q < outboundBuffer)%nat -> f ∈ pushes k f q.
Proof.
  intros Hk Hq. destruct k as [|k]; [lia|]. cbn [pushes].
  rewrite (proj2 (Nat.ltb_lt _ _)) by done.
  assert (forall k q, f ∈ q -> f ∈ pushes k f q) as Hin.
  { clear. induction k as [|k IH]; intros q Hq; cbn [pushes]; [done|].
    apply IH. case_match; set_solver. }
  apply Hin. set_solver.
Qed.

(** C40: the end of a match.  Once nobody races, [endMatchLocked] puts one match_end
    on every live participant's connection that has room for it, with one result
    per participant in roster order, none of them still racing; with a store it
    hands over exactly one snapshot, with every participant's capture, in the same
    order; and the room is back in the lobby with a host. *)
Theorem match_end_reports room reason w m :
  Base (w_core w) -> r_match (getRoom w room) = Some m ->
  (forall s, s ∈ m_roster m -> st_status (getSeat w s) <> seatActive) ->
  let w' := endMatchLocked room reason w in
  let results := resultOf w (m_goAtMs m) (now_ms (w_tick w)) <$> m_roster m in
  let e := FMatchEnd {| me_type := TypeMatchEnd; me_matchId := m_id m; me_reason := reason;
                        me_results := results |} in
  (forall s sid, s ∈ m_roster m -> st_sess (getSeat w s) = Some sid ->
     (length (ss_outbound (getSess w sid)) < outboundBuffer)%nat ->
     e ∈ ss_outbound (getSess w' sid))
  /\ mr_playerId <$> results = (fun s => st_playerID (getSeat w s)) <$> m_roster m
  /\ Forall (fun r => mr_status r <> seatActive) results
  /\ (has_store = true -> exists snap, w_persists w' = w_persists w ++ [snap]
        /\ sn_id snap = m_id m /\ sn_runs snap = runSnapshotOf w <$> m_roster m)
  /\ r_match (getRoom w' room) = None
  /\ (forall s, s ∈ r_seats (getRoom w' room) -> st_status (getSeat w' s) <> seatActive)
  /\ host_ok (w_core w') room.
Proof.
  intros Hi Hm Hd. cbv zeta.
  destruct (endMatchLocked_spec room reason w m Hi Hm Hd) as [[Hb _ Hno _] Hh].
  pose proof (mb_ended _ _ _ _ (rb_match _ _ (ba_room _ Hi room) m Hm)) as He.
  rewrite (endMatch_unfold room reason w m Hm He) in *.
  set (e := matchEnd w m reason _) in *.
  destruct (endPersisted_same room m w) as (Es & Eg & _ & Ep). set (w3 := endPersisted _ _ _) in *.
  set (w4 := forSeats _ _ w3) in *.
  assert (w_persists w4 = w_persists w3) as Hp4.
  { apply (forSeats_inv (fun x => w_persists x = w_persists w3)); [|done].
    intros s' w' _ <-. unfold deliverEnd. by repeat case_match. }
  destruct (toLobby_grows room w4) as [Hg Hgp].
  split_and!; try done.
  - intros s sid Hs Hsess Hlen. fold (matchEnd w m reason (now_ms (w_tick w))). fold e.
    eapply elem_of_prefix; [|apply Hg]. subst w4. rewrite deliverEnd_outbound.
    unfold getSess in *. rewrite Es. apply pushes_elem; [|done].
    assert (s ∈ List.filter (onLink w3 sid) (m_roster m)) as Hin.
    { apply list_elem_of_In, List.filter_In. split; [by apply list_elem_of_In|].
      unfold onLink. rewrite Eg. by apply bool_decide_eq_true. }
    destruct (List.filter _ _); [by apply elem_of_nil in Hin|cbn; lia].
  - rewrite <- list_fmap_compose. apply list_fmap_ext. intros i s _. cbn. unfold resultOf.
    by destruct (afkAtLocked _ _ _).
  - apply Forall_fmap, Forall_forall. intros s Hs. cbn. unfold resultOf.
    destruct (afkAtLocked _ _ _). cbn. unfold finalStatus.
    destruct (_ =s? seatActive) eqn:E; bool_to_prop; done.
  - intros Hst. rewrite Hgp, Hp4, Ep, Hst. eexists. split_and!; try done.
  - apply (rb_lobby _ _ (ba_room _ Hb room) Hno).
Qed.

(** ** AFK accounting *)

(** The idle time reported for a participant.  Never negative, never more than
    the window, a whole number of buckets; nothing when every bucket of the window
    carried a batch, all of the window's whole buckets when none did; an empty or
    backwards window counts as no idle time, with no division by zero. *)
Theorem afk_bounds (st : seat) (goAtMs endMs : Z) :
  0 <= st_activeBuckets st ->
  let afk := (afkAtLocked st goAtMs endMs).1 in
  let buckets := Z.quot (endMs - goAtMs) AfkBucketMs in
  0 <= afk <= Z.max 0 (endMs - goAtMs) /\ afk mod AfkBucketMs = 0
  /\ (endMs - goAtMs < AfkBucketMs -> afkAtLocked st goAtMs endMs = (0, F64.zero))
  /\ (buckets <= st_activeBuckets st -> afk = 0)
  /\ (st_activeBuckets st = 0 -> AfkBucketMs <= endMs - goAtMs ->
      afk = AfkBucketMs * ((endMs - goAtMs) / AfkBucketMs)).
Proof.
  intros Ha. cbv zeta. unfold afkAtLocked. unfold AfkBucketMs in *.
  set (d := endMs - goAtMs). set (b := Z.quot d 1000).
  assert (0 <= d -> b = d / 1000) as Hq by (intros; by apply Z.quot_div_nonneg).
  assert (d < 0 -> b <= 0) as Hneg.
  { intros. subst b. rewrite <- (Z.opp_involutive d), Z.quot_opp_l by lia.
    rewrite Z.quot_div_nonneg by lia. lia. }
  destruct (b <=? 0) eqn:Hb; bool_to_prop; cbn [fst].
  { split_and!; try lia; done. }
  assert (0 <= d) by (destruct (decide (d < 0)); lia). specialize (Hq ltac:(done)).
  case_match; bool_to_prop; cbn [fst]; split_and!; try lia; try done.
Qed.

(** ** The start of a match *)

(** The start_match gate. *)
Definition canStart (room sess : nat) (force : bool) (w : world) : bool :=
  match findSeatLocked room sess w with
  | None => false
  | Some st =>
    let r := getRoom w room in
    (st_playerID (getSeat w st) =s? r_hostID r)
    && negb (r_inMatch r) && (2 <=? length (r_seats r))%nat
    && (force || forallb (fun s => (st_playerID (getSeat w s) =s? r_hostID r) || st_ready (getSeat w s))
                   (r_seats r))
  end.

Lemma existsb_negb_forallb {A} (p q : A -> bool) l :
  existsb (fun x => negb (p x) && negb (q x)) l = negb (forallb (fun x => p x || q x) l).
Proof.
  induction l as [|x l IH]; cbn; [done|]. rewrite IH. by destruct (p x), (q x).
Qed.

(** The start_match gate.  A match starts exactly when the sender hosts the room,
    no match is running, two or more are seated and, unless forced, every other seat
    is ready.  It freezes the seats as the roster with their freemods and the
    room's settings, sets go five seconds ahead, and every participant starts
    racing with an empty capture.  Otherwise nothing changes but one error frame. *)
Theorem start_gate (room sess : nat) (force : bool) (w : world) :
  Inv (w_core w) ->
  let w' := startMatch room sess force w in
  if canStart room sess force w then
    exists m, r_match (getRoom w' room) = Some m
      /\ m_roster m = r_seats (getRoom w room) /\ m_settings m = r_settings (getRoom w room)
      /\ m_players m = countdownPlayerOf w <$> r_seats (getRoom w room)
      /\ m_goAtMs m = now_ms (w_tick w) + countdownLeadMs
      /\ (forall s, s ∈ m_roster m ->
            getSeat w' s = armSeat (m_goAtMs m) (getSeat w s)
            /\ st_status (getSeat w' s) = seatActive /\ st_batches (getSeat w' s) = []
            /\ st_lastSeq (getSeat w' s) = 0)
  else exists code message, w' = trySend sess (FError (NewError code message)) w.
Proof.
  intros Hi. cbv zeta. unfold canStart, startMatch, errLocked.
  destruct (findSeatLocked room sess w) as [st|]; [|by eexists _, _].
  destruct (st_playerID (getSeat w st) =s? r_hostID (getRoom w room)); cbn [negb andb];
    [|by eexists _, _].
  destruct (r_inMatch (getRoom w room)); cbn [negb andb]; [by eexists _, _|].
  destruct (length (r_seats (getRoom w room)) <? 2)%nat eqn:Htwo; bool_to_prop.
  { rewrite (proj2 (Nat.leb_gt _ _)) by done. by eexists _, _. }
  rewrite (proj2 (Nat.leb_le _ _)) by done. cbn [andb].
  rewrite (existsb_negb_forallb (fun s => st_playerID (getSeat w s) =s? r_hostID (getRoom w room))
             (fun s => st_ready (getSeat w s))).
  destruct (force || forallb _ _) eqn:Hready.
  2:{ rewrite orb_false_iff in Hready. destruct Hready as [-> ->]. by eexists _, _. }
  assert (negb force && negb (forallb (fun s => (st_playerID (getSeat w s) =s? r_hostID (getRoom w room))
    || st_ready (getSeat w s)) (r_seats (getRoom w room))) = false) as ->.
  { rewrite <- negb_orb. by rewrite Hready. }
  unfold nowMs, newMatchID, newSeed, randRead.
  set (l := r_seats (getRoom w room)). set (goAt := now_ms (w_tick w) + countdownLeadMs).
  set (w1 := forSeats l (fun s => updSeat s (armSeat goAt)) (ticked w)).
  assert (forall s, s ∈ l -> getSeat w1 s = armSeat goAt (getSeat w s)) as H1.
  { intros s Hs. subst w1. rewrite getSeat_core, forSeats_updSeat_seatOf.
    - by rewrite decide_True.
    - apply (ba_room _ (inv_base _ Hi) room). }
  assert (forall s, countdownPlayerOf w1 s = countdownPlayerOf w s) as H2.
  { intros s. unfold countdownPlayerOf. subst w1. rewrite getSeat_core, forSeats_updSeat_seatOf.
    - case_decide; done.
    - apply (ba_room _ (inv_base _ Hi) room). }
  set (w2 := updRoom room _ _).
  set (cd := FCountdown _).
  assert (w_core (forSeats l (fun s => deliverLocked s cd) w2) = w_core w2) as Hc.
  { apply core_forSeats. intros. apply core_deliverLocked. }
  eexists. rewrite !getRoom_core, Hc. split_and!.
  - subst w2. rewrite core_updRoom, roomOf_updRoom_eq. done.
  - done.
  - done.
  - cbn [m_players]. apply list_fmap_ext. intros i s _. apply H2.
  - done.
  - cbn [m_roster m_goAtMs]. intros s Hs.
    assert (getSeat (forSeats l (fun s => deliverLocked s cd) w2) s = armSeat goAt (getSeat w s)) as ->.
    { rewrite !getSeat_core, Hc. by apply H1. }
    done.
Qed.

(** ** The reconnect replay *)

(** Everything queued on a connection so far, in order. *)
Definition stream (w : world) (sid : nat) : list frame :=
  ss_written (getSess w sid) ++ ss_outbound (getSess w sid).

Lemma send_stream sid f w :
  ss_ctxDone (getSess w sid) = false ->
  stream (send sid f w) sid = stream w sid ++ [f]
  /\ ss_ctxDone (getSess (send sid f w) sid) = false.
Proof.
  intros Hd. unfold send, stream. rewrite Hd. cbn [andb].
  set (w1 := if (_ <=? _)%nat then _ else ticked w).
  assert (ss_written (getSess w1 sid) ++ ss_outbound (getSess w1 sid)
          = ss_written (getSess w sid) ++ ss_outbound (getSess w sid)
          /\ ss_ctxDone (getSess w1 sid) = false) as [H1 H2].
  { subst w1. case_match; [|done]. unfold updSess, getSess. cbn. rewrite store_upd_eq.
    unfold getSess in Hd. unfold writeOne.
    destruct (ss_outbound (w_sess w !!! sid)) as [|g q] eqn:Hq; [by rewrite Hq|].
    cbn. rewrite <- app_assoc. done. }
  clearbody w1. unfold updSess, getSess in *. cbn. rewrite store_upd_eq. cbn.
  split; [|done]. by rewrite app_assoc, H1.
Qed.

Lemma sendAll_stream sid l w :
  ss_ctxDone (getSess w sid) = false ->
  stream (sendAll sid l w) sid = stream w sid ++ l
  /\ ss_ctxDone (getSess (sendAll sid l w) sid) = false.
Proof.
  unfold sendAll. revert w. induction l as [|f l IH]; intros w Hd; cbn [foldl].
  { by rewrite app_nil_r. }
  destruct (send_stream sid f w Hd) as [Hs Hd']. destruct (IH _ Hd') as [-> ?].
  by rewrite Hs, <- app_assoc.
Qed.

Definition extends (w w' : world) : Prop :=
  forall s, exists rest, stream w' s = stream w s ++ rest.

Lemma extends_trySend sid f w : extends w (trySend sid f w).
Proof.
  intros s. unfold stream. rewrite outbound_trySend.
  assert (ss_written (getSess (trySend sid f w) s) = ss_written (getSess w s)) as ->.
  { unfold trySend, updSess, getSess. cbn. rewrite store_upd_case. case_decide; subst; [|done].
    by case_match. }
  destruct (decide (s = sid)); [|exists []; by rewrite app_nil_r].
  cbn [pushes]. case_match; [exists [f]; by rewrite app_assoc|exists []; by rewrite app_nil_r].
Qed.

Lemma extends_broadcastPeer r i x w : extends w (broadcastPeerStatusLocked r i x w).
Proof.
  unfold broadcastPeerStatusLocked. case_match; [|intros s; exists []; by rewrite app_nil_r].
  apply (forSeats_inv (extends w)); [|intros s; exists []; by rewrite app_nil_r].
  intros o w' _ Hw. repeat (case_match; try done).
  intros s. destruct (Hw s) as [r1 E1], (extends_trySend n (FPeerStatus
    {| ps_type := TypePeerStatus; ps_playerId := i; ps_status := x |}) w' s) as [r2 E2].
  exists (r1 ++ r2). by rewrite E2, E1, app_assoc.
Qed.

(** Binding changes nothing the room's snapshot shows. *)
Lemma bind_state room st f w :
  (forall x, playerOf w x = playerOf (updSeat st f w) x) ->
  stateLocked room (updSeat st f w) = stateLocked room w.
Proof.
  intros Hp. unfold stateLocked. change (getRoom (updSeat st f w) room) with (getRoom w room).
  f_equal. apply list_fmap_ext. intros i x _. by rewrite <- Hp.
Qed.

(** One turn of the loop empties the backlog, the next goes live. *)
Lemma drain_live room sid st mid w :
  ss_ctxDone (getSess w sid) = false ->
  exists w' rest, reattachDrain reattachFuel room sid st mid w = Some w'
  /\ stream w' sid = stream w sid ++ st_backlog (getSeat w st) ++ rest
  /\ (mid = false -> rest = [])
  /\ st_backlog (getSeat w' st) = [] /\ st_disconnected (getSeat w' st) = false
  /\ st_sess (getSeat w' st) = st_sess (getSeat w st).
Proof.
  intros Hd.
  assert (forall w1, st_backlog (getSeat w1 st) = [] -> exists w2 rest,
    reattachPoll room st mid w1 = (None, w2) /\ stream w2 sid = stream w1 sid ++ rest
    /\ (mid = false -> rest = [])
    /\ st_backlog (getSeat w2 st) = [] /\ st_disconnected (getSeat w2 st) = false
    /\ st_sess (getSeat w2 st) = st_sess (getSeat w1 st)) as Hlive.
  { intros w1 Hb. unfold reattachPoll, nowMs. rewrite Hb. destruct mid.
    - match goal with |- context [broadcastPeerStatusLocked ?r ?i ?x ?w2] =>
        destruct (extends_broadcastPeer r i x w2 sid) as [rest Hr];
        pose proof (core_broadcastPeerStatusLocked r i x w2) as Hc end.
      eexists _, rest. split; [done|]. split; [exact Hr|]. split; [done|].
      rewrite (getSeat_core (broadcastPeerStatusLocked _ _ _ _)), Hc.
      autorewrite with tm_core. done.
    - eexists _, []. split; [done|]. split; [by rewrite app_nil_r|]. split; [done|].
      rewrite (getSeat_core (updSeat _ _ _)). autorewrite with tm_core. done. }
  unfold reattachFuel. cbn [reattachDrain].
  destruct (st_backlog (getSeat w st)) as [|f q] eqn:Hb.
  { destruct (Hlive w Hb) as (w2 & rest & -> & ? & ? & ? & ? & ?). exists w2, rest. by rewrite app_nil_l. }
  unfold reattachPoll at 1. rewrite Hb. set (w1 := updSeat st _ w).
  assert (stream w1 sid = stream w sid) as Hs1 by done.
  destruct (sendAll_stream sid (f :: q) w1 Hd) as [Hs2 Hd2]. rewrite Hd2.
  destruct (Hlive (sendAll sid (f :: q) w1)) as (w2 & rest & -> & Hs3 & Hm & ? & ? & Hse).
  { rewrite getSeat_core, core_sendAll. subst w1. by autorewrite with tm_core. }
  exists w2, rest. split_and!; try done.
  - by rewrite Hs3, Hs2, Hs1, <- app_assoc.
  - rewrite Hse, !getSeat_core, core_sendAll. subst w1. by autorewrite with tm_core.
Qed.

(** A resumed seat misses nothing.  On a live connection [reattach] always
    succeeds, within two turns of its drain loop: the connection is sent hello_ok,
    the room's snapshot and then the whole backlog in order, ahead of anything
    else; the seat is live again, bound to the connection, its backlog empty and
    its grace timer stopped. *)
Theorem reattach_replays (room sid : nat) (st : seatref) (w : world) :
  st_disconnected (getSeat w st) = true ->
  is_Some (seatIndexByIDLocked room (st_playerID (getSeat w st)) w) ->
  ss_ctxDone (getSess w sid) = false ->
  exists w' rest, reattach reattachFuel room sid st w = Some (true, w')
  /\ stream w' sid = stream w sid
      ++ [FHelloOK {| ho_type := TypeHelloOK; ho_playerId := st_playerID (getSeat w st);
                      ho_serverVersion := Version;
                      ho_resumeToken := st_resumeToken (getSeat w st) |};
          FRoomState (stateLocked room w)]
      ++ st_backlog (getSeat w st) ++ rest
  /\ (r_match (getRoom w room) = None -> rest = [])
  /\ st_backlog (getSeat w' st) = [] /\ st_disconnected (getSeat w' st) = false
  /\ st_sess (getSeat w' st) = Some sid.
Proof.
  intros Hdis Hidx Hd. unfold reattach, reattachBind. rewrite Hdis.
  rewrite bool_decide_eq_false_2 by (intros E; rewrite E in Hidx; by destruct Hidx).
  cbn [negb orb]. set (mid := bool_decide _ && _). set (w1 := updSeat st _ w).
  assert (stateLocked room w1 = stateLocked room w) as ->.
  { apply bind_state. intros x. unfold playerOf. subst w1.
    rewrite !getSeat_core, core_updSeat, seatOf_updSeat. case_decide; by subst. }
  assert (getSeat w1 st = set_st_grace false (set_st_sess (Some sid) (getSeat w st))) as E1.
  { subst w1. rewrite !getSeat_core. by autorewrite with tm_core. }
  assert (mid = true -> r_match (getRoom w room) <> None) as Hmid.
  { subst mid. intros [Hm _]%andb_true_iff. bool_to_prop. by intros E; rewrite E in Hm; destruct Hm. }
  assert (stream w1 sid = stream w sid) as Hs1 by done.
  assert (ss_ctxDone (getSess w1 sid) = false) as Hd1 by done.
  clearbody w1 mid. rewrite E1. cbn [st_playerID st_resumeToken set_st_grace set_st_sess].
  set (h := FHelloOK _). set (f := FRoomState _).
  destruct (send_stream sid h w1 Hd1) as [Hs2 Hd2].
  destruct (send_stream sid f _ Hd2) as [Hs3 Hd3].
  destruct (drain_live room sid st mid _ Hd3) as (w' & rest & -> & Hs4 & Hr & Hb & Hdd & Hse).
  rewrite !getSeat_core, !core_send, <- !getSeat_core, E1 in *. cbn in Hs4, Hse.
  exists w', rest. split_and!; try done.
  - by rewrite Hs4, Hs3, Hs2, Hs1, <- !app_assoc.
  - intros Hno. apply Hr. destruct mid; [by destruct Hmid|done].
Qed.
End func.

(** ** Witnesses *)

(** Ann's third batch in [raceWorld]. *)
Definition thirdBatch : EventBatch :=
  {| eb_matchId := m_id raceMatch; eb_playerId := ""; eb_batchSeq := 3; eb_version := 1;
     eb_events := [JNull; JNull] |}.

Lemma relay_accepts_witness :
  st_lastSeq (getSeat (@relayEventBatch testEnv 0 1 thirdBatch 5 raceWorld) (0, 0)%nat) = 3.
Proof.
  destruct (@relay_accepts testEnv 0 1 thirdBatch 5 raceWorld (0, 0)%nat raceMatch raceWorld_Inv)
    as (_ & Hseq & _); [by vm_compute..|]. exact Hseq.
Defined.

Lemma relay_refuses_witness :
  exists code message,
    @relayEventBatch testEnv 0 2 thirdBatch 5 raceWorld
    = trySend 2 (FError (NewError code message)) raceWorld.
Proof.
  apply (@relay_refuses testEnv 0 2 thirdBatch 5 raceWorld).
  intros st m Hf Hm. do 3 right. left. vm_compute in Hf. injection Hf as <-. by vm_compute.
Defined.

(** [raceWorld] with both participants done, the match not yet taken down. *)
Definition doneWorld : world :=
  updSeat (0, 0)%nat (set_st_status StatusFinished)
    (updSeat (0, 1)%nat (set_st_status StatusDNF) raceWorld).

Lemma doneWorld_Base : Base (w_core doneWorld).
Proof.
  enough (section_ok 0 (w_core raceWorld) (w_core doneWorld)) as [] by done.
  unfold doneWorld. autorewrite with tm_core.
  do 2 (apply section_terminal; [|done|done]). apply section_refl, raceWorld_Inv.
Qed.

Lemma match_end_reports_witness :
  r_match (getRoom (@endMatchLocked testEnv 0 ReasonAllFinished doneWorld) 0) = None.
Proof.
  destruct (@match_end_reports testEnv 0 ReasonAllFinished doneWorld raceMatch doneWorld_Base)
    as (_ & _ & _ & _ & Hno & _); [by vm_compute| |exact Hno].
  vm_compute. intros s Hs. repeat (apply elem_of_cons in Hs as [->|Hs]; [done|]).
  by apply elem_of_nil in Hs.
Defined.

Lemma afk_bounds_witness :
  (afkAtLocked (getSeat raceWorld (0, 0)%nat) 0 10500).1 mod AfkBucketMs = 0.
Proof. apply (afk_bounds (getSeat raceWorld (0, 0)%nat) 0 10500). by vm_compute. Defined.

Definition readyWorld : world :=
  default init_world (@run testEnv (removelast startEvents) init_world).

Lemma start_gate_witness :
  @canStart 0 1 false readyWorld = true
  /\ exists m, r_match (getRoom (@startMatch testEnv 0 1 false readyWorld) 0) = Some m
      /\ m_roster m = r_seats (getRoom readyWorld 0).
Proof.
  assert (Inv (w_core readyWorld)) as Hi.
  { destruct (@reachable_ok testEnv (readyWorld, None)) as [Hi _ _]; [|exact Hi].
    apply (@run_reachable testEnv (removelast startEvents)). by vm_compute. }
  pose proof (@start_gate testEnv 0 1 false readyWorld Hi) as Hg. cbv zeta in Hg.
  split; [by vm_compute|]. replace (canStart 0 1 false readyWorld) with true in Hg by by vm_compute.
  destruct Hg as (m & H1 & H2 & _). exists m. split; [exact H1|exact H2].
Defined.

(** Bob's connection is gone; a new one is about to resume his seat. *)
Definition droppedWorld : world :=
  default init_world (@run testEnv
    (raceEvents ++ [EvGone 2; EvFrame 1 (fBatch (matchIn startWorld 0) "3" 1);
                    EvConnect 3 "Bob" "u2" true]) init_world).

Lemma reattach_replays_witness :
  exists w', @reattach testEnv reattachFuel 0 3 (0, 1)%nat droppedWorld = Some (true, w')
    /\ st_sess (getSeat w' (0, 1)%nat) = Some 3%nat
    /\ length (st_backlog (getSeat droppedWorld (0, 1)%nat)) = 1%nat.
Proof.
  destruct (@reattach_replays testEnv 0 3 (0, 1)%nat droppedWorld) as (w' & rest & Hr & _ & _ & _ & _ & Hs).
  - by vm_compute.
  - vm_compute. by eexists.
  - by vm_compute.
  - exists w'. split; [exact Hr|]. split; [exact Hs|by vm_compute].
Defined.
