(* ===== verification/WsLobbyProps.v ===== *)
(** * internal/ws: what membership does

    The hello gate, the outcomes of a join, the succession of the host, the grace
    list, the room codes, the redraw loops, the reaper and the public lobby list. *)

From stdpp Require Import sorting.
From S2P Require Import Prelude GoStd Json Protocol Ratelimit WsState WsRoom WsMatch WsLobby WsSession WsCore WsInv WsOps WsCalm WsMember WsStep WsPath WsProps WsFunc.
From Stdlib Require Import Strings.Ascii Sorting.Sorted Sorting.Permutation.

Open Scope Z_scope.

Section lobbyprops.
Context `{Env}.

(** ** session.go: the gate *)

(** Nothing before hello, and one protocol version.  On a connection that has
    not said hello, any other message is answered with bad_message and changes
    nothing; a hello of another version is answered with version_mismatch and ends
    the connection; only then may a room be entered. *)
Theorem hello_gate (sid : nat) (data : inbound) (recvMs : Z) (w : world) (j : json) (type : string) :
  ss_helloDone (getSess w sid) = false ->
  in_json data = Some j -> Json.unmarshal dec_Envelope "" j = Some type ->
  (type <> TypeHello ->
     dispatch sid data recvMs w
     = Some (None, send sid (FError (NewError CodeBadMessage "hello must be the first message")) w))
  /\ (type = TypeHello -> forall h, Json.unmarshal dec_Hello zero_Hello j = Some h ->
       h_protocolVersion h <> Version ->
       exists r message, dispatch sid data recvMs w
         = Some (Some r, send sid (FError (NewError CodeVersionMismatch message)) w)
         /\ cr_code r = StatusPolicyViolation).
Proof.
  intros Hd Hj Ht. unfold dispatch. rewrite Hj, Ht, Hd. cbn [fmap option_fmap option_map negb].
  split.
  - intros Hne. rewrite (proj2 (String.eqb_neq _ _)) by done. done.
  - intros -> h Hh Hv. rewrite String.eqb_refl. cbn [negb]. unfold handleHello. rewrite Hh.
    rewrite (proj2 (Z.eqb_neq _ _)) by done. by eexists _, _.
Qed.

(** ** registry.go: what a join answers *)

(** The outcomes of join.  An unknown code, a full room and a racing seat
    elsewhere are refused and leave every room, seat and index as they were.  A
    join of the room where the account already sits hands that seat over, unbound
    from the older connection.  Otherwise the caller sits at the back of the room
    it asked for, and nowhere else. *)
Theorem join_outcome (code : string) (sid : nat) (w : world) (out : seatOutcome) (w' : world) :
  Inv (w_core w) -> join code sid w = Some (out, w') ->
  (so_errCode out <> "" -> w_core w' = w_core w
     /\ (so_errCode out = CodeRoomNotFound \/ so_errCode out = CodeRoomFull
         \/ so_errCode out = CodeInMatchElsewhere))
  /\ (so_errCode out = "" -> exists room,
        so_room out = Some room /\ reg_rooms (getReg w) !! normalizeCode code = Some room
        /\ match so_reclaim out with
           | Some st => seatOfUser (ss_userID (getSess w sid)) w = Some (room, st)
               /\ st_sess (getSeat w' st) = None
           | None => exists st, r_seats (getRoom w' room) = r_seats (getRoom w room) ++ [st]
               /\ st_sess (getSeat w' st) = Some sid
               /\ st_userID (getSeat w' st) = ss_userID (getSess w sid)
           end).
Proof.
  intros Hi. unfold join, getReg.
  destruct (reg_rooms _ !! _) as [room|] eqn:Hcode; [|intros [= <- <-]; split; [auto|done]].
  pose proof (moveOut_spec (ss_userID (getSess w sid)) w Hi) as Hmo.
  pose proof (moveOut_users (seatOfUser (ss_userID (getSess w sid)) w) w sid) as Huid.
  set (held := seatOfUser _ w) in *.
  set (here := match held with Some _ => _ | None => _ end).
  assert (match here with
          | Some st => held = Some (room, st)
          | None => forall cur st, held = Some (cur, st) -> cur <> room
          end) as Hhere.
  { subst here. destruct held as [[cur st]|]; [|done]. case_bool_decide; subst; [done|].
    by intros ? ? [= <- <-]. }
  destruct here as [st|].
  { intros [= <- <-]. split; [done|]. intros _. exists room. cbn. split_and!; try done.
    apply seatOfUser_spec in Hhere as [Hst _]; [|apply Hi].
    unfold detachSeat. destruct (seatIndexByIDLocked _ _ _) as [i|] eqn:Hidx.
    - destruct (st_sess (getSeat w st)) as [old|] eqn:Hold; [|exact Hold].
      rewrite getSeat_core, core_displaceLocked.
      destruct (bool_decide _ && _); by autorewrite with tm_core.
    - eapply find_index_None in Hidx; [|exact Hst]. by rewrite getSeat_core, String.eqb_refl in Hidx. }
  destruct (full room w) eqn:Hfull; [intros [= <- <-]; split; [auto|done]|].
  destruct (moveOut held w) as [ok w1]. destruct Hmo as (Hi1 & _ & Hno & Hother).
  destruct ok; cbn [negb]; [|intros [= <- <-]; split; [rewrite Hno by done; auto|done]].
  destruct (Hother room _ Hcode Hhere) as [_ Hroom1]. cbn [snd] in Huid.
  destruct (seatRoom room sid false w1) as [[b w2]|] eqn:Hseat; [|done].
  apply seatRoom_seated in Hseat. rewrite Hroom1 in Hseat. destruct b.
  - intros [= <- <-]. split; [done|]. intros _. exists room. split_and!; try done. cbn.
    destruct Hseat as (_ & st & Hsd & Hs & _). exists st. rewrite !getRoom_core, getSeat_core.
    rewrite (sd_seats _ _ _ _ _ Hsd), Hroom1, (sd_user _ _ _ _ _ Hsd), Huid. done.
  - destruct Hseat as [_ Hge]. unfold full in Hfull. bool_to_prop. rewrite getRoom_core in Hfull. lia.
Qed.

(** ** registry.go: the grace list *)

(** A resume token is redeemed once.  What [claimGrace] hands over was parked
    under that token; afterwards, if no two entries share a token, the token is
    unknown and every other entry is still there. *)
Theorem claim_grace_once (tok : string) (w : world) (room : nat) (st : seatref) :
  NoDup (g_token <$> reg_graces (getReg w)) ->
  (claimGrace tok w).1 = Some (room, st) ->
  let w' := (claimGrace tok w).2 in
  {| g_token := tok; g_room := room; g_seat := st |} ∈ reg_graces (getReg w)
  /\ (claimGrace tok w').1 = None
  /\ (forall e, e ∈ reg_graces (getReg w') <-> e ∈ reg_graces (getReg w) /\ g_token e <> tok).
Proof.
  intros Hnd. unfold claimGrace at 1 2. cbv zeta.
  destruct (find_index _ _) as [i|] eqn:Hi; [|done].
  apply find_index_Some in Hi as (e & He & Ht). rewrite He. cbn [fst snd]. bool_to_prop.
  intros [= <- <-].
  assert (forall x, x ∈ cut_at i (reg_graces (getReg w)) <-> x ∈ reg_graces (getReg w) /\ g_token x <> tok)
    as Hx.
  { intros x. rewrite (cut_at_elem i _ e x); [|by eapply NoDup_fmap_1|done].
    split; intros [Hin Hne]; (split; [done|]).
    - intros E. apply Hne. apply list_elem_of_lookup in Hin as [j Hj].
      assert (i = j) as <-; [|congruence].
      eapply (NoDup_lookup _ i j (g_token e)); [exact Hnd| |]; rewrite list_lookup_fmap, ?He, ?Hj;
        cbn; congruence.
    - by intros ->. }
  split_and!.
  - destruct e. cbn in *. subst. by eapply list_elem_of_lookup_2.
  - unfold claimGrace. cbn [reg_graces getReg set_reg_graces].
    destruct (find_index _ _) as [k|] eqn:Hk; [|done].
    apply find_index_Some in Hk as (y & Hy & Hty). bool_to_prop.
    apply list_elem_of_lookup_2 in Hy. by apply Hx in Hy as [].
  - exact Hx.
Qed.

(** ** room.go: the host leaves *)

Lemma removeFromSeats_filter rid st w :
  NoDup (r_seats (roomOf (w_core w) rid)) -> st ∈ r_seats (roomOf (w_core w) rid) ->
  r_seats (roomOf (w_core (removeFromSeatsLocked rid st w)) rid)
  = filter (fun s => s <> st) (r_seats (roomOf (w_core w) rid)).
Proof.
  intros Hnd Hst. unfold removeFromSeatsLocked. rewrite getRoom_core.
  destruct (find_index _ _) as [i|] eqn:Hi.
  2:{ eapply find_index_None in Hi; [|exact Hst]. by rewrite bool_decide_eq_true_2 in Hi. }
  apply find_index_Some in Hi as (x & Hx & E). bool_to_prop. subst x.
  unfold removeSeatLocked. rewrite getRoom_core, Hx. autorewrite with tm_core.
  destruct (unindexSeat_core st w) as (us & -> & _). autorewrite with tm_core. cbn [r_seats set_r_seats].
  generalize dependent (r_seats (roomOf (w_core w) rid)). intros l Hnd Hst Hx. clear us.
  revert i Hx Hst. induction Hnd as [|y l Hy Hnd IH]; intros i Hx Hst; [done|].
  destruct i as [|i]; cbn in Hx.
  - injection Hx as ->. rewrite filter_cons_False by naive_solver. unfold cut_at. cbn.
    rewrite drop_0. symmetry. clear IH Hst Hnd. induction l as [|z l IH]; [done|].
    rewrite filter_cons_True by set_solver. f_equal. apply IH. set_solver.
  - pose proof (list_elem_of_lookup_2 _ _ _ Hx) as Hin.
    rewrite filter_cons_True by set_solver. change (cut_at (S i) (y :: l)) with (y :: cut_at i l).
    f_equal. by apply IH.
Qed.

(** Succession.  When a seat leaves a room between matches, the others keep
    their order; if it was the host's, the seat that joined earliest among those
    left is the new host, and with nobody left there is none; otherwise the host
    stays. *)
Theorem host_succession (rid : nat) (st : seatref) (w : world) :
  Inv (w_core w) -> r_match (getRoom w rid) = None -> st ∈ r_seats (getRoom w rid) ->
  let w' := leaveSeatLocked rid st w in
  let rest := filter (fun s => s <> st) (r_seats (getRoom w rid)) in
  r_seats (getRoom w' rid) = rest
  /\ r_hostID (getRoom w' rid)
     = if st_playerID (getSeat w st) =s? r_hostID (getRoom w rid)
       then match rest with [] => "" | s :: _ => st_playerID (getSeat w s) end
       else r_hostID (getRoom w rid).
Proof.
  intros Hi Hm Hst. cbv zeta. rewrite !getRoom_core in *.
  pose proof (rb_nodup _ _ (ba_room _ (inv_base _ Hi) rid)) as Hnd.
  pose proof (removeFromSeats_filter rid st w Hnd Hst) as Hf.
  assert (removed rid st (w_core w) (w_core (removeFromSeatsLocked rid st w))) as Hrm.
  { apply removeFromSeatsLocked_removed; [apply Hi|done|].
    by apply (rb_lobby _ _ (ba_room _ (inv_base _ Hi) rid)). }
  unfold leaveSeatLocked. rewrite !(getRoom_core w), Hm.
  rewrite (bool_decide_eq_false_2 (is_Some None)) by (by intros [??]). cbn [andb].
  set (w1 := removeFromSeatsLocked rid st w) in *.
  set (w2 := if _ =s? _ then reassignHostLocked rid w1 else w1).
  assert (r_seats (roomOf (w_core w2) rid) = filter (fun s => s <> st) (r_seats (roomOf (w_core w) rid))
    /\ r_match (roomOf (w_core w2) rid) = None
    /\ r_hostID (roomOf (w_core w2) rid)
     = if st_playerID (getSeat w st) =s? r_hostID (roomOf (w_core w) rid)
       then match filter (fun s => s <> st) (r_seats (roomOf (w_core w) rid)) with
            | [] => "" | s :: _ => st_playerID (getSeat w s) end
       else r_hostID (roomOf (w_core w) rid)) as (H1 & H2 & H3).
  { subst w2. destruct (_ =s? _).
    - unfold reassignHostLocked. rewrite getRoom_core, Hf.
      destruct (filter _ _) as [|s l]; autorewrite with tm_core; cbn [r_seats r_match r_hostID set_r_hostID];
        rewrite ?Hf, (rm_match _ _ _ _ Hrm); [done|]. rewrite getSeat_core, (rm_seat _ _ _ _ Hrm). done.
    - by rewrite Hf, (rm_match _ _ _ _ Hrm), (rm_host _ _ _ _ Hrm). }
  clearbody w2.
  match goal with |- context [if allTerminalLocked rid ?w3 then _ else _] => set (w3' := w3) end.
  assert (w_core w3' = w_core w2) as Hc3.
  { subst w3'. repeat case_match; by autorewrite with tm_core. }
  clearbody w3'. assert (allTerminalLocked rid w3' = false) as ->.
  { unfold allTerminalLocked. by rewrite getRoom_core, Hc3, H2. }
  by rewrite Hc3.
Qed.

(** ** The redraw loops *)

(** The guest-nick loop ends.  If, among the next draws, more distinct names
    come up than the room has seats, the loop takes a free one; with a room of at
    most five seats, six distinct draws are enough. *)
Theorem guest_nick_terminates (fuel rid : nat) (w : world) :
  (length (r_seats (getRoom w rid))
   < length (remove_dups ((fun k => guestNick (guestNickLow + rand_intn (w_tick w + k) guestNickCount))
                            <$> seq 0 fuel)))%nat ->
  exists nick w', uniqueGuestNickLocked fuel rid w = Some (nick, w')
    /\ nickTakenLocked rid nick w = false /\ w_core w' = w_core w.
Proof.
  set (draw := fun k => guestNick (guestNickLow + rand_intn k guestNickCount)).
  intros Hlen.
  assert (exists k, (k < fuel)%nat /\ nickTakenLocked rid (draw (w_tick w + k)%nat) w = false) as (k & Hk & Hfree).
  { destruct (decide (Forall (fun n => n ∈ (fun s => st_nick (getSeat w s)) <$> r_seats (getRoom w rid))
      (remove_dups ((fun k => draw (w_tick w + k)%nat) <$> seq 0 fuel)))) as [Hall|Hnot].
    - exfalso. rewrite Forall_forall in Hall.
      assert (remove_dups ((fun k => draw (w_tick w + k)%nat) <$> seq 0 fuel)
              ⊆+ (fun s => st_nick (getSeat w s)) <$> r_seats (getRoom w rid)) as Hsub.
      { apply NoDup_submseteq; [apply NoDup_remove_dups|exact Hall]. }
      apply submseteq_length in Hsub. rewrite length_fmap in Hsub. unfold draw in Hsub. lia.
    - apply not_Forall_Exists in Hnot; [|intros x; apply _].
      apply Exists_exists in Hnot as (n & Hn & Hnt). rewrite elem_of_remove_dups in Hn.
      apply list_elem_of_fmap in Hn as (k & -> & Hk%elem_of_seq). exists k. split; [lia|].
      unfold nickTakenLocked. destruct (existsb _ _) eqn:He; [|done].
      exfalso. apply Hnt. apply existsb_exists in He as (s & Hs & E). bool_to_prop.
      apply list_elem_of_fmap. exists s. split; [done|]. by apply list_elem_of_In. }
  clear Hlen. assert (forall w0, nickTakenLocked rid (draw (w_tick w0 + k)%nat) w0 = false ->
    exists nick w', uniqueGuestNickLocked fuel rid w0 = Some (nick, w')
      /\ nickTakenLocked rid nick w0 = false /\ w_core w' = w_core w0) as Hloop; [|by apply Hloop].
  clear w Hfree. revert k Hk. induction fuel as [|fuel IH]; intros k Hk w Hfree; [lia|].
  cbn [uniqueGuestNickLocked]. fold (draw (w_tick w)).
  change (nickTakenLocked rid (draw (w_tick w)) (ticked w)) with (nickTakenLocked rid (draw (w_tick w)) w).
  destruct (nickTakenLocked rid (draw (w_tick w)) w) eqn:Ht; [|by eexists _, _].
  destruct k as [|k]; [rewrite Nat.add_0_r in Hfree; congruence|].
  destruct (IH k ltac:(lia) (ticked w)) as (nick & w' & E & Hn & Hc).
  { cbn [w_tick ticked set_w_tick]. by replace (S (w_tick w) + k)%nat with (w_tick w + S k)%nat by lia. }
  exists nick, w'. done.
Qed.

(** ** Room codes *)

Lemma codeGlyph_elem b : In (codeGlyph b) (String.list_ascii_of_string roomCodeAlphabet).
Proof.
  unfold codeGlyph. assert (0 <= b mod slen roomCodeAlphabet < 32) as Hb.
  { change (slen roomCodeAlphabet) with 32. apply Z.mod_pos_bound. lia. }
  set (n := Z.to_nat _). assert (n < 32)%nat as Hn by lia. clearbody n. clear Hb.
  do 32 (destruct n as [|n]; [cbn; tauto|]). lia.
Qed.

Definition code_char (c : ascii) : Prop := In c (String.list_ascii_of_string roomCodeAlphabet).

Lemma code_char_plain (table : Z -> Z) c :
  code_char c ->
  let b := Z.of_N (Ascii.N_of_ascii c) in
  0 <= b < 0x80 /\ Strs.is_space b = false /\ Strs.upper_rune table b = b.
Proof.
  unfold code_char. cbn. intros Hc. by repeat (destruct Hc as [<-|Hc]; [by vm_compute|]).
Qed.

Lemma bytes_of_codeOf bs :
  bytes_of (codeOf bs) = (fun b => Z.of_N (Ascii.N_of_ascii (codeGlyph b))) <$> bs.
Proof.
  unfold codeOf, bytes_of. rewrite String.list_ascii_of_string_of_list_ascii.
  by rewrite <- list_fmap_compose.
Qed.

(** Room codes.  Whatever six random bytes are drawn, the code has six glyphs of
    the 32-glyph alphabet, and typing it with blanks around it finds the same
    room: [normalizeCode] maps every minted code to itself. *)
Theorem room_code_spec (bs : list Z) :
  length bs = roomCodeLen ->
  String.length (codeOf bs) = roomCodeLen
  /\ Forall code_char (String.list_ascii_of_string (codeOf bs))
  /\ normalizeCode (codeOf bs) = codeOf bs.
Proof.
  intros Hlen. split_and!.
  - unfold codeOf. rewrite <- Hlen, <- (length_fmap codeGlyph).
    generalize (codeGlyph <$> bs). intros l. induction l as [|c l IH]; cbn; [done|]. by rewrite IH.
  - unfold codeOf. rewrite String.list_ascii_of_string_of_list_ascii.
    apply Forall_fmap, Forall_forall. intros b _. apply codeGlyph_elem.
  - unfold normalizeCode.
    assert (Forall (fun x => 0 <= x < 0x80 /\ Strs.is_space x = false
              /\ Strs.upper_rune upper_table x = x) (bytes_of (codeOf bs))) as Hall.
    { rewrite bytes_of_codeOf. apply Forall_fmap, Forall_forall. intros b _. cbn.
      apply code_char_plain, codeGlyph_elem. }
    rewrite Strs.TrimSpace_ascii; [|by eapply Forall_impl; [exact Hall|]; naive_solver].
    rewrite Strs.ToUpper_ascii; [done|by eapply Forall_impl; [exact Hall|]; naive_solver].
Qed.

(** ** The reaper *)

Lemma reapSeats_length n rid w :
  (length (r_seats (roomOf (w_core (reapSeats n rid w)) rid))
   <= length (r_seats (roomOf (w_core w) rid)))%nat.
Proof.
  revert w. induction n as [|n IH]; intros w; cbn [reapSeats]; [done|].
  etrans; [apply IH|]. rewrite getRoom_core. destruct (_ !! n) as [s|]; [|done].
  case_match; [|done]. unfold removeSeatLocked. rewrite getRoom_core.
  destruct (_ !! n) as [x|]; [|done]. autorewrite with tm_core.
  destruct (unindexSeat_core x w) as (us & -> & _). autorewrite with tm_core. apply cut_at_length_le.
Qed.

Lemma toLobby_length rid w :
  (length (r_seats (roomOf (w_core (toLobby rid w)) rid))
   <= length (r_seats (roomOf (w_core w) rid)))%nat.
Proof.
  unfold toLobby. set (w1 := updRoom _ _ w). set (w2 := forSeats _ _ w1). set (w3 := reapSeats _ _ w2).
  set (w4 := match findSeatByIDLocked _ _ w3 with Some _ => w3 | None => reassignHostLocked rid w3 end).
  assert (r_seats (roomOf (w_core w4) rid) = r_seats (roomOf (w_core w3) rid)) as E4.
  { subst w4. case_match; [done|]. unfold reassignHostLocked.
    case_match; autorewrite with tm_core; done. }
  assert (r_seats (roomOf (w_core w2) rid) = r_seats (roomOf (w_core w) rid)) as E2.
  { subst w2. destruct (forSeats_updSeat_rest (r_seats (getRoom w1 rid)) resetSeat w1) as [E _].
    unfold roomOf at 1. rewrite E. subst w1. fold (roomOf (w_core (updRoom rid
      (fun r => set_r_inMatch false (set_r_match None r)) w)) rid). by autorewrite with tm_core. }
  assert (r_seats (roomOf (w_core (if bool_decide (r_seats (getRoom w4 rid) = []) then w4
    else broadcastStateLocked rid w4)) rid) = r_seats (roomOf (w_core w4) rid)) as ->.
  { case_match; [done|by rewrite core_broadcastStateLocked]. }
  rewrite E4, <- E2. apply reapSeats_length.
Qed.

Lemma endMatch_length rid reason w :
  (length (r_seats (roomOf (w_core (endMatchLocked rid reason w)) rid))
   <= length (r_seats (roomOf (w_core w) rid)))%nat.
Proof.
  destruct (r_match (getRoom w rid)) as [m|] eqn:Hm.
  2:{ unfold endMatchLocked. by rewrite Hm. }
  destruct (m_ended m) eqn:He.
  { unfold endMatchLocked. by rewrite Hm, He. }
  rewrite (endMatch_unfold rid reason w m Hm He). etrans; [apply toLobby_length|].
  destruct (endPersisted_same rid m w) as (_ & _ & Er & _). rewrite !getRoom_core in Er.
  rewrite <- Er. apply Nat.eq_le_incl. do 2 f_equal.
  apply (forSeats_inv (fun x => roomOf (w_core x) rid = roomOf (w_core (endPersisted rid m w)) rid)); [|done].
  intros s w' _ <-. unfold deliverEnd. by repeat case_match.
Qed.

Lemma leaveSeat_shorter rid st w :
  Inv (w_core w) -> st ∈ r_seats (roomOf (w_core w) rid) ->
  (length (r_seats (roomOf (w_core (leaveSeatLocked rid st w)) rid))
   < length (r_seats (roomOf (w_core w) rid)))%nat.
Proof.
  intros Hi Hst. unfold leaveSeatLocked. rewrite (getRoom_core w), (getSeat_core w).
  set (mid := bool_decide _ && _). set (w1 := if mid then _ else w).
  assert (Base (w_core w1) /\ ~ racing (seatOf (w_core w1) st)
    /\ roomOf (w_core w1) rid = roomOf (w_core w) rid) as (Hb1 & Hr1 & Hroom).
  { subst w1. destruct mid eqn:Em; autorewrite with tm_core.
    - split_and!; [|done..]. apply Base_updSeat; [apply Hi|done|done|].
      intros r m _ _. by apply capture_ok_ext.
    - split_and!; [apply Hi| |done]. by eapply not_racing_seat; [apply Hi|..]. }
  clearbody w1 mid. set (h := st_playerID (getSeat w1 st) =s? r_hostID (getRoom w1 rid)).
  fold (dropSeat rid st h w1).
  assert (length (r_seats (roomOf (w_core (dropSeat rid st h w1)) rid))
          = pred (length (r_seats (roomOf (w_core w) rid)))) as Hlen.
  { rewrite <- Hroom. unfold dropSeat.
    assert (removed rid st (w_core w1) (w_core (removeFromSeatsLocked rid st w1))) as [].
    { apply removeFromSeatsLocked_removed; [done|by rewrite Hroom|done]. }
    destruct h; [|done]. unfold reassignHostLocked. rewrite getRoom_core.
    destruct (r_seats (roomOf (w_core (removeFromSeatsLocked rid st w1)) rid)) eqn:E;
      autorewrite with tm_core; cbn [r_seats set_r_hostID]; rewrite E; done. }
  set (w2 := dropSeat _ _ _ _) in *. clearbody w2 h.
  assert (0 < length (r_seats (roomOf (w_core w) rid)))%nat as Hpos.
  { destruct (r_seats (roomOf (w_core w) rid)); [by apply elem_of_nil in Hst|cbn; lia]. }
  match goal with |- context [if allTerminalLocked rid ?w3 then _ else _] => set (w3' := w3) end.
  assert (w_core w3' = w_core w2) as H3.
  { subst w3'. repeat case_match; by autorewrite with tm_core. }
  clearbody w3'. rewrite <- H3 in Hlen. destruct (allTerminalLocked rid w3'); [|lia].
  pose proof (endMatch_length rid ReasonAllFinished w3'). lia.
Qed.

Lemma leaveAll_empty n rid w :
  Inv (w_core w) -> (length (r_seats (roomOf (w_core w) rid)) <= n)%nat ->
  r_seats (roomOf (w_core (leaveAll n rid w)) rid) = [].
Proof.
  revert w. induction n as [|n IH]; intros w Hi Hn; cbn [leaveAll].
  { by apply nil_length_inv; lia. }
  rewrite getRoom_core. destruct (r_seats _) as [|s l] eqn:Hs; [done|].
  assert (s ∈ r_seats (roomOf (w_core w) rid)) as Hin by (rewrite Hs; set_solver).
  apply IH; [by destruct (leaveSeatLocked_seated rid s w Hi Hin) as [? _]|].
  pose proof (leaveSeat_shorter rid s w Hi Hin). rewrite Hs in *. cbn in *. lia.
Qed.

(** The idle reaper.  A room in a match, or touched within the last 59 minutes,
    is left alone; a room idle for an hour is emptied, every seat through the
    ordinary leave, and the loop that does it ends. *)
Theorem reaper_spec (rid : nat) (now : Z) (w : world) :
  Inv (w_core w) ->
  let idle := now - r_lastActivityMs (getRoom w rid) in
  (r_inMatch (getRoom w rid) = true \/ idle < roomIdleTimeout - roomIdleWarning ->
     reapRoom rid now w = (false, w))
  /\ (r_inMatch (getRoom w rid) = false -> roomIdleTimeout <= idle ->
     (reapRoom rid now w).1 = true /\ r_seats (getRoom (reapRoom rid now w).2 rid) = []).
Proof.
  intros Hi. cbv zeta. unfold reapRoom, idleStateLocked. split.
  - intros [-> | Hlt]; [done|]. destruct (r_inMatch _); [done|].
    unfold roomIdleTimeout, roomIdleWarning in *.
    rewrite (proj2 (Z.leb_gt _ _)), (proj2 (Z.leb_gt 3540000 _)) by lia. done.
  - intros -> Hge. rewrite (proj2 (Z.leb_le _ _)) by done. split; [done|].
    cbn [snd]. rewrite !getRoom_core. by apply leaveAll_empty.
Qed.

(** ** lobby.go *)

Lemma lobby_cmp_antisym a b : lobby_cmp b a = CompOpp (lobby_cmp a b).
Proof.
  unfold lobby_cmp. rewrite (Z.compare_antisym (v_playerCount (le_view b))).
  destruct (v_playerCount (le_view b) ?= v_playerCount (le_view a)); cbn; [|done..].
  rewrite (Z.compare_antisym (le_created a)). destruct (le_created a ?= le_created b); cbn; [|done..].
  apply String.compare_antisym.
Qed.

(** [a] goes before [b] in the list. *)
Definition before (a b : lobbyEntry) : Prop := lobby_cmp a b = Lt.

Lemma before_case a b :
  before a b <->
  v_playerCount (le_view b) < v_playerCount (le_view a)
  \/ v_playerCount (le_view b) = v_playerCount (le_view a)
     /\ (le_created a < le_created b
         \/ le_created a = le_created b
            /\ String.compare (v_code (le_view a)) (v_code (le_view b)) = Lt).
Proof.
  unfold before, lobby_cmp.
  destruct (Z.compare_spec (v_playerCount (le_view b)) (v_playerCount (le_view a))); [|naive_solver lia..].
  destruct (Z.compare_spec (le_created a) (le_created b)); naive_solver lia.
Qed.

#[local] Instance before_trans : Transitive before.
Proof.
  intros a b c. rewrite !before_case. intros Hab Hbc.
  pose proof (string_lt_trans (v_code (le_view a)) (v_code (le_view b)) (v_code (le_view c))).
  intuition lia.
Qed.

#[local] Instance before_antisym : AntiSymm (=) before.
Proof. intros a b. unfold before. rewrite (lobby_cmp_antisym a b). by intros ->. Qed.

Lemma lobby_total a b :
  v_code (le_view a) <> v_code (le_view b) -> lobby_leb a b = true /\ before a b
  \/ lobby_leb a b = false /\ before b a.
Proof.
  intros Hne. unfold before. rewrite (lobby_cmp_antisym a b). unfold lobby_leb.
  destruct (lobby_cmp a b) eqn:Hc; cbn; [|by left|by right].
  exfalso. revert Hc. unfold lobby_cmp. destruct (_ ?= _); try done. destruct (_ ?= _); try done.
  intros Hs. by apply String.compare_eq_iff in Hs.
Qed.

Definition entry_code (e : lobbyEntry) : string := v_code (le_view e).

Lemma insert_entry_perm e l : insert_entry e l ≡ₚ e :: l.
Proof.
  induction l as [|x l IH]; cbn; [done|]. case_match; [done|]. rewrite IH. apply Permutation_swap.
Qed.

Lemma sort_entries_perm l : sort_entries l ≡ₚ l.
Proof. induction l as [|e l IH]; cbn; [done|]. by rewrite insert_entry_perm, IH. Qed.

Lemma insert_entry_sorted e l :
  entry_code e ∉ entry_code <$> l -> StronglySorted before l ->
  StronglySorted before (insert_entry e l).
Proof.
  intros Hne Hs. induction Hs as [|x l Hs IH Hx]; cbn; [repeat constructor|].
  cbn in Hne. apply not_elem_of_cons in Hne as [Hne1 Hne2].
  destruct (lobby_total e x Hne1) as [[-> Hb]|[-> Hb]].
  - constructor; [by constructor|]. constructor; [done|].
    eapply Forall_impl; [exact Hx|]. intros y Hy. by etrans.
  - constructor; [by apply IH|]. rewrite insert_entry_perm. by constructor.
Qed.

Lemma sort_entries_sorted l : NoDup (entry_code <$> l) -> StronglySorted before (sort_entries l).
Proof.
  induction l as [|e l IH]; cbn; [constructor|]. intros [Hne Hnd]%NoDup_cons.
  apply insert_entry_sorted; [|by apply IH]. by rewrite sort_entries_perm.
Qed.

(** The public lobby list.  It shows exactly the open rooms somebody sits in,
    fullest first, older first among equally full ones, and does not depend on the
    order in which Go's map hands the rooms over. *)
Theorem lobby_list_spec (rooms1 rooms2 : list nat) (w : world) :
  NoDup ((fun r => r_code (getRoom w r)) <$> rooms1) -> rooms1 ≡ₚ rooms2 ->
  openRooms rooms1 w = openRooms rooms2 w
  /\ StronglySorted before (openRooms rooms1 w)
  /\ (forall e, e ∈ openRooms rooms1 w <-> exists r, r ∈ rooms1
        /\ Visibility (r_settings (getRoom w r)) = VisibilityOpen
        /\ r_seats (getRoom w r) <> [] /\ lobbyEntryOf r w = Some e).
Proof.
  intros Hnd Hp. unfold openRooms.
  assert (forall l, NoDup ((fun r => r_code (getRoom w r)) <$> l) ->
    NoDup (entry_code <$> omap (fun r => lobbyEntryOf r w) l)) as Hcodes.
  { assert (forall r e, lobbyEntryOf r w = Some e -> entry_code e = r_code (getRoom w r)) as Hc.
    { intros r e. unfold lobbyEntryOf. case_match; [done|]. by intros [= <-]. }
    induction l as [|r l IH]; cbn; [done|]. intros [Hne Hd]%NoDup_cons.
    destruct (lobbyEntryOf r w) as [e|] eqn:He; [|by apply IH]. cbn. constructor; [|by apply IH].
    rewrite (Hc _ _ He). intros (e' & E & Hin)%list_elem_of_fmap.
    apply list_elem_of_omap in Hin as (r' & Hr' & He'). rewrite (Hc _ _ He') in E.
    apply Hne, list_elem_of_fmap. by exists r'. }
  split_and!.
  - apply (StronglySorted_unique before).
    + by apply sort_entries_sorted, Hcodes.
    + apply sort_entries_sorted, Hcodes. by rewrite <- Hp.
    + by rewrite !sort_entries_perm, Hp.
  - by apply sort_entries_sorted, Hcodes.
  - intros e. rewrite sort_entries_perm, list_elem_of_omap.
    split; intros (r & Hr & He); exists r; [|naive_solver].
    split; [done|]. revert He. unfold lobbyEntryOf.
    destruct (_ =s? _) eqn:Ev; cbn [negb orb]; [|done]. case_bool_decide; [done|]. by bool_to_prop.
Qed.
End lobbyprops.

(** ** Witnesses *)

Definition lobbyW : world := default init_world lobbyWorld.

Lemma lobbyW_Inv : Inv (w_core lobbyW).
Proof.
  destruct (@reachable_ok testEnv (lobbyW, None)) as [Hi _ _]; [|exact Hi].
  apply (@run_reachable testEnv lobbyEvents). by vm_compute.
Qed.

Lemma hello_gate_witness :
  @dispatch testEnv 7 fCreate 0 lobbyW
  = Some (None, @send testEnv 7
      (FError (NewError CodeBadMessage "hello must be the first message")) lobbyW).
Proof.
  destruct (@hello_gate testEnv 7 fCreate 0 lobbyW (JObj [("type", JStr TypeCreateRoom)]) TypeCreateRoom)
    as [Hg _]; [reflexivity..|]. apply Hg. discriminate.
Defined.

Lemma join_outcome_witness :
  exists out w', @join testEnv (codeIn lobbyWorld 0) 2 lobbyW = Some (out, w')
    /\ exists room, so_room out = Some room.
Proof.
  assert (option_map fst (@join testEnv (codeIn lobbyWorld 0) 2 lobbyW)
    = Some {| so_room := Some 0%nat; so_reclaim := None; so_errCode := "" |}) as Hout
    by (vm_compute; reflexivity).
  destruct (@join testEnv (codeIn lobbyWorld 0) 2 lobbyW) as [[out w']|] eqn:Hj; [|discriminate Hout].
  injection Hout as ->. eexists _, w'. split; [reflexivity|].
  destruct (@join_outcome testEnv (codeIn lobbyWorld 0) 2 lobbyW _ w' lobbyW_Inv Hj) as [_ Hok].
  destruct (Hok eq_refl) as (room & Hr & _). exists room. exact Hr.
Defined.

Lemma claim_grace_once_witness :
  (claimGrace (st_resumeToken (getSeat droppedWorld (0, 1)%nat)) droppedWorld).1
  = Some (0, (0, 1))%nat
  /\ (claimGrace (st_resumeToken (getSeat droppedWorld (0, 1)%nat))
       (claimGrace (st_resumeToken (getSeat droppedWorld (0, 1)%nat)) droppedWorld).2).1 = None.
Proof.
  assert ((claimGrace (st_resumeToken (getSeat droppedWorld (0, 1)%nat)) droppedWorld).1
    = Some (0, (0, 1))%nat) as Hc by (vm_compute; reflexivity).
  split; [exact Hc|].
  pose proof (claim_grace_once (st_resumeToken (getSeat droppedWorld (0, 1)%nat)) droppedWorld
    0 (0, 1)%nat) as Hw.
  assert (NoDup (g_token <$> reg_graces (getReg droppedWorld))) as Hnd.
  { apply (bool_decide_unpack _). by vm_compute. }
  specialize (Hw Hnd Hc). destruct Hw as (_ & Hn & _). exact Hn.
Defined.

Lemma host_succession_witness :
  r_hostID (getRoom (@leaveSeatLocked testEnv 0 (0, 0)%nat readyWorld) 0)
  = st_playerID (getSeat readyWorld (0, 1)%nat).
Proof.
  assert (Inv (w_core readyWorld)) as Hi.
  { destruct (@reachable_ok testEnv (readyWorld, None)) as [Hi _ _]; [|exact Hi].
    apply (@run_reachable testEnv (removelast startEvents)). by vm_compute. }
  destruct (@host_succession testEnv 0 (0, 0)%nat readyWorld Hi) as [_ Hh].
  - by vm_compute.
  - vm_compute. apply list_elem_of_here.
  - rewrite Hh. by vm_compute.
Defined.

Lemma guest_nick_terminates_witness :
  exists nick w', @uniqueGuestNickLocked testEnv 10 0 lobbyW = Some (nick, w').
Proof.
  destruct (@guest_nick_terminates testEnv 10 0 lobbyW) as (nick & w' & E & _).
  - apply Nat.ltb_lt. by vm_compute.
  - by exists nick, w'.
Defined.

Lemma room_code_spec_witness : @normalizeCode testEnv (codeOf [0; 31; 32; 255; 77; 8]) = codeOf [0; 31; 32; 255; 77; 8].
Proof. apply (@room_code_spec testEnv [0; 31; 32; 255; 77; 8]). reflexivity. Defined.

Lemma reaper_spec_witness :
  r_seats (getRoom (@reapRoom testEnv 0 9000000 lobbyW).2 0) = [].
Proof.
  destruct (@reaper_spec testEnv 0 9000000 lobbyW lobbyW_Inv) as [_ Hr].
  apply Hr; [by vm_compute|]. vm_compute. discriminate.
Defined.

Lemma lobby_list_spec_witness : openRooms [0%nat] lobbyW = openRooms [0%nat] lobbyW.
Proof. apply (lobby_list_spec [0%nat] [0%nat] lobbyW); [by apply (bool_decide_unpack _)|done]. Defined.
