(* ===== verification/Bucket.v ===== *)
(** * internal/leaderboard/bucket.go: the identity of a leaderboard

    A bucket names one board; its key is the string stored in the database and
    linked to.  The errors are the code's, one constructor per [fmt.Errorf] (all of
    them wrap [ErrInvalidBucket]). *)

From S2P Require Import Prelude GoStd Uuid Protocol.
From Stdlib Require Import Strings.Ascii.

Open Scope Z_scope.

Definition ModeTime := "time".
Definition ModeWords := "words".
Definition TextSourceSeeded := "seeded".
Definition TextSourceQuote := "quote".
Definition quoteKeyPrefix := "quote:".
Definition maxDurationMs : Z := Runlimits.MaxDurationMs.
Definition maxWordCount : Z := Runlimits.MaxWordCount.
Definition maxLangLen : Z := 32.
Definition maxSourceLen : Z := 16.
Definition RankedDurationsMs : list Z := [15000; 30000; 60000].
Definition RankedWordCounts : list Z := [25; 50; 100].

Fixpoint contains (set : list Z) (v : Z) : bool :=
  match set with
  | [] => false
  | x :: set => if x =? v then true else contains set v
  end.

Definition IsRankedShape (mode : string) (dimension : Z) : bool :=
  if mode =s? ModeTime then contains RankedDurationsMs dimension
  else if mode =s? ModeWords then contains RankedWordCounts dimension
  else false.

Inductive bucketError :=
| ErrNoDimension (mode : string)
| ErrQuoteNotUuid (rest : string)
| ErrQuoteNotCanonical (rest : string)
| ErrShape
| ErrNotANumber (part : string)
| ErrHybridQuote
| ErrUnknownMode (mode : string)
| ErrDimensionRange (dimension : Z) (mode : string)
| ErrNotRanked (mode : string) (dimension : Z)
| ErrComponentLength (field : string) (maxLen : Z)
| ErrComponentRune (field : string) (r : Z)
| ErrQuoteSource.

Definition component_rune (r : Z) : bool :=
  ((97 <=? r) && (r <=? 122)) || ((65 <=? r) && (r <=? 90)) || ((48 <=? r) && (r <=? 57))
  || (r =? 95) || (r =? 45) || (r =? 46).

Definition validComponent (field v : string) (maxLen : Z) : option bucketError :=
  if (v =s? "") || (maxLen <? slen v) then Some (ErrComponentLength field maxLen)
  else match find_first (fun r => negb (component_rune r)) (Utf8.runes v) with
       | Some r => Some (ErrComponentRune field r)
       | None => None
       end.

Section bucket.
Context `{Uuid}.

Record Bucket := {
  Mode : string;
  Dimension : Z;
  Lang : string;
  TextSource : string;
  QuoteID : UUID }.

#[export] Instance Bucket_eq : EqDecision Bucket.
Proof. solve_decision. Defined.

Definition IsQuote (b : Bucket) : bool := negb (bool_decide (QuoteID b = uuid_Nil)).

Definition validate (b : Bucket) : option bucketError :=
  if IsQuote b then
    if negb (Mode b =s? "") || negb (Dimension b =? 0) || negb (Lang b =s? "")
       || negb (TextSource b =s? "")
    then Some ErrHybridQuote else None
  else
    let limit := if Mode b =s? ModeTime then Some maxDurationMs
                 else if Mode b =s? ModeWords then Some maxWordCount else None in
    match limit with
    | None => Some (ErrUnknownMode (Mode b))
    | Some limit =>
      if (Dimension b <=? 0) || (limit <? Dimension b)
      then Some (ErrDimensionRange (Dimension b) (Mode b))
      else if negb (IsRankedShape (Mode b) (Dimension b))
      then Some (ErrNotRanked (Mode b) (Dimension b))
      else match validComponent "lang" (Lang b) maxLangLen with
           | Some err => Some err
           | None =>
             match validComponent "textSource" (TextSource b) maxSourceLen with
             | Some err => Some err
             | None => if TextSource b =s? TextSourceQuote then Some ErrQuoteSource else None
             end
           end
    end.

(** A validated bucket, or the error. *)
Definition checked (b : Bucket) : Bucket + bucketError :=
  match validate b with Some err => inr err | None => inl b end.

Definition NewQuoteBucket (quoteID : UUID) : Bucket + bucketError :=
  checked {| Mode := ""; Dimension := 0; Lang := ""; TextSource := ""; QuoteID := quoteID |}.

(** The [switch] of [NewBucket]: the column that matches the mode. *)
Definition newDimension (mode : string) (durationMs wordCount : option Z) : option Z :=
  match (if mode =s? ModeTime then durationMs else None) with
  | Some d => Some d
  | None => if mode =s? ModeWords then wordCount else None
  end.

Definition NewBucket (mode : string) (durationMs wordCount : option Z) (lang textSource : string)
    : Bucket + bucketError :=
  match newDimension mode durationMs wordCount with
  | None => inr (ErrNoDimension mode)
  | Some d =>
    checked {| Mode := mode; Dimension := d; Lang := lang; TextSource := textSource;
               QuoteID := uuid_Nil |}
  end.

Definition Key (b : Bucket) : string :=
  if IsQuote b then quoteKeyPrefix +:+ uuid_String (QuoteID b)
  else Mode b +:+ ":" +:+ Strconv.Itoa (Dimension b) +:+ ":" +:+ Lang b +:+ ":" +:+ TextSource b.

Definition ParseBucketKey (key : string) : Bucket + bucketError :=
  match Strs.CutPrefix quoteKeyPrefix key with
  | Some rest =>
    match uuid_Parse rest with
    | None => inr (ErrQuoteNotUuid rest)
    | Some id =>
      if negb (uuid_String id =s? rest) then inr (ErrQuoteNotCanonical rest)
      else NewQuoteBucket id
    end
  | None =>
    match Strs.Split ":"%char key with
    | [mode; dim; lang; textSource] =>
      match Strconv.Atoi dim with
      | None => inr (ErrNotANumber dim)
      | Some d =>
        checked {| Mode := mode; Dimension := Int.int32 d; Lang := lang; TextSource := textSource;
                   QuoteID := uuid_Nil |}
      end
    | _ => inr ErrShape
    end
  end.
End bucket.

Arguments Bucket {_}.

(** ** What a bucket names *)

Definition name_char (c : ascii) : bool := component_rune (Z.of_N (N_of_ascii c)).

(** A key component: ASCII letters, digits, [_], [-] and [.] only, so no colon. *)
Definition component_ok (v : string) (maxLen : Z) : Prop :=
  v <> "" /\ slen v <= maxLen /\ Strs.str_forallb name_char v = true.

Lemma byte_of_char c v : Z.of_N (N_of_ascii c) ∈ bytes_of (String c v).
Proof. unfold bytes_of. cbn. apply list_elem_of_here. Qed.

(** Every byte of an accepted component is one of the accepted ASCII characters: a
    byte of a longer UTF-8 form never is, and neither is what it decodes to. *)
Lemma component_bytes v :
  (forall r, r ∈ Utf8.runes v -> component_rune r = true) -> Strs.str_forallb name_char v = true.
Proof.
  intros Hr.
  assert (Forall (fun b => 0 <= b < 0x80) (bytes_of v)) as Ha.
  { apply Utf8.runes_small. apply Forall_forall. intros r Hin. specialize (Hr r Hin).
    unfold component_rune in Hr. lia. }
  rewrite Strs.runes_ascii in Hr by done. clear Ha. induction v as [|c v IH]; [done|].
  cbn [Strs.str_forallb]. apply andb_true_iff. split.
  - apply Hr, byte_of_char.
  - apply IH. intros r Hin. apply Hr. unfold bytes_of in *. cbn. by apply list_elem_of_further.
Qed.

Lemma component_runes v :
  Strs.str_forallb name_char v = true -> forall r, r ∈ Utf8.runes v -> component_rune r = true.
Proof.
  intros Hv.
  assert (Forall (fun b => component_rune b = true) (bytes_of v)) as Hb.
  { induction v as [|c v IH]; [constructor|]. cbn in Hv. apply andb_true_iff in Hv as [Hc Hv].
    unfold bytes_of. cbn. constructor; [done|by apply IH]. }
  rewrite Strs.runes_ascii.
  - intros r Hr. rewrite Forall_forall in Hb. by apply Hb.
  - eapply Forall_impl; [exact Hb|]. intros b. cbn. unfold component_rune. lia.
Qed.

Lemma validComponent_spec field v maxLen :
  validComponent field v maxLen = None <-> component_ok v maxLen.
Proof.
  unfold validComponent, component_ok. destruct (_ || _) eqn:Hl.
  - split; [done|]. intros (Hv & Hlen & _). apply orb_true_iff in Hl as [Hl|Hl]; bool_to_prop; [|lia].
    done.
  - bool_to_prop. destruct (find_first _ _) as [r|] eqn:Hf.
    + split; [done|]. intros (_ & _ & Hv). apply find_first_Some in Hf as [Hr Hn].
      by rewrite (component_runes _ Hv r Hr) in Hn.
    + split; [|done]. intros _. split_and!; [done|lia|]. apply component_bytes. intros r Hr.
      by apply negb_false_iff, (find_first_None _ _ _ Hf).
Qed.

Lemma name_no_colon v :
  Strs.str_forallb name_char v = true ->
  Strs.str_forallb (fun c => negb (Ascii.eqb c ":")) v = true.
Proof.
  apply Strs.str_forallb_impl. intros c Hc. apply negb_true_iff, Ascii.eqb_neq. by intros ->.
Qed.

(** The six sizes that rank, by mode. *)
Definition ranked (mode : string) (dimension : Z) : Prop :=
  (mode = ModeTime /\ dimension ∈ RankedDurationsMs)
  \/ (mode = ModeWords /\ dimension ∈ RankedWordCounts).

Lemma contains_spec set v : contains set v = true <-> v ∈ set.
Proof.
  induction set as [|x set IH]; cbn; [set_solver|]. rewrite elem_of_cons, <- IH.
  destruct (Z.eqb_spec x v); naive_solver.
Qed.

Lemma IsRankedShape_spec mode dimension : IsRankedShape mode dimension = true <-> ranked mode dimension.
Proof.
  unfold IsRankedShape, ranked.
  destruct (String.eqb_spec mode ModeTime) as [->|Ht].
  { rewrite contains_spec. split; [auto|]. by intros [[_ ?]|[? _]]. }
  destruct (String.eqb_spec mode ModeWords) as [->|Hw]; [|naive_solver].
  rewrite contains_spec. split; [auto|]. by intros [[? _]|[_ ?]].
Qed.

Lemma ranked_cases mode d :
  ranked mode d ->
  (mode = ModeTime /\ (d = 15000 \/ d = 30000 \/ d = 60000))
  \/ (mode = ModeWords /\ (d = 25 \/ d = 50 \/ d = 100)).
Proof. unfold ranked, RankedDurationsMs, RankedWordCounts. set_solver. Qed.

Section facts.
Context `{Uuid}.

(** A board: a quote and nothing else, or a ranked size in one language over one
    text origin that is not a quote. *)
Inductive board : Bucket -> Prop :=
| board_quote id :
    id <> uuid_Nil ->
    board {| Mode := ""; Dimension := 0; Lang := ""; TextSource := ""; QuoteID := id |}
| board_language mode d lang src :
    ranked mode d -> component_ok lang maxLangLen -> component_ok src maxSourceLen ->
    src <> TextSourceQuote ->
    board {| Mode := mode; Dimension := d; Lang := lang; TextSource := src; QuoteID := uuid_Nil |}.

Lemma validate_board b : validate b = None <-> board b.
Proof.
  unfold validate, IsQuote. destruct b as [mode d lang src id]. cbn. split.
  - case_bool_decide as Hid; cbn [negb].
    + subst id. destruct (if mode =s? ModeTime then _ else _) as [limit|] eqn:Hl; [|done].
      destruct (_ || _); [done|]. destruct (IsRankedShape mode d) eqn:Hr; cbn [negb]; [|done].
      destruct (validComponent "lang" lang _) eqn:Hlang; [done|].
      destruct (validComponent "textSource" src _) eqn:Hsrc; [done|].
      destruct (String.eqb_spec src TextSourceQuote); [done|]. intros _.
      apply IsRankedShape_spec in Hr. apply validComponent_spec in Hlang, Hsrc. by constructor.
    + destruct (_ || _) eqn:Ho; [done|]. intros _. bool_to_prop. subst. by constructor.
  - inversion 1 as [id' Hid|mode' d' lang' src' Hr Hlang Hsrc Hq]; subst.
    + by rewrite bool_decide_eq_false_2.
    + rewrite bool_decide_eq_true_2 by done. cbn [negb].
      pose proof (proj2 (IsRankedShape_spec mode d) Hr) as ->.
      apply (validComponent_spec "lang") in Hlang as ->.
      apply (validComponent_spec "textSource") in Hsrc as ->.
      apply String.eqb_neq in Hq as ->.
      by apply ranked_cases in Hr as [[-> [->|[->| ->]]]|[-> [->|[->| ->]]]].
Qed.

Lemma checked_inl b b' : checked b = inl b' <-> b' = b /\ board b.
Proof.
  unfold checked. pose proof (validate_board b). destruct (validate b); naive_solver.
Qed.
(** Four components without a colon are split as they were joined. *)
Lemma Split_key mode dim lang src :
  let plain v := Strs.str_forallb (fun c => negb (Ascii.eqb c ":")) v = true in
  plain mode -> plain dim -> plain lang -> plain src ->
  Strs.Split ":" (mode +:+ ":" +:+ dim +:+ ":" +:+ lang +:+ ":" +:+ src) = [mode; dim; lang; src].
Proof.
  cbv zeta. intros Hm Hd Hl Hs.
  assert (forall s, ":" +:+ s = String ":" s) as Hc by done. rewrite !Hc.
  by rewrite !Strs.Split_app, Strs.Split_none.
Qed.

Lemma parse_language mode d lang src :
  ranked mode d -> component_ok lang maxLangLen -> component_ok src maxSourceLen ->
  ParseBucketKey (mode +:+ ":" +:+ Strconv.Itoa d +:+ ":" +:+ lang +:+ ":" +:+ src)
  = checked {| Mode := mode; Dimension := d; Lang := lang; TextSource := src; QuoteID := uuid_Nil |}.
Proof.
  intros Hr (_ & _ & Hlang%name_no_colon) (_ & _ & Hsrc%name_no_colon). unfold ParseBucketKey.
  assert (Strs.CutPrefix quoteKeyPrefix
    (mode +:+ ":" +:+ Strconv.Itoa d +:+ ":" +:+ lang +:+ ":" +:+ src) = None) as ->.
  { by apply ranked_cases in Hr as [[-> _]|[-> _]]. }
  rewrite Split_key; [|by apply ranked_cases in Hr as [[-> _]|[-> _]]
    |by apply ranked_cases in Hr as [[_ [->|[->| ->]]]|[_ [->|[->| ->]]]]|done|done].
  rewrite Strconv.Atoi_Itoa by (apply ranked_cases in Hr; lia).
  by apply ranked_cases in Hr as [[_ [->|[->| ->]]]|[_ [->|[->| ->]]]].
Qed.

Lemma parse_Key `{!UuidLaws} b : board b -> ParseBucketKey (Key b) = inl b.
Proof.
  intros Hb. inversion Hb as [id Hid|mode d lang src Hr Hlang Hsrc Hq]; subst b; unfold Key, IsQuote; cbn.
  - rewrite bool_decide_eq_false_2 by done. cbn [negb]. unfold ParseBucketKey.
    rewrite (proj2 (Strs.CutPrefix_Some _ _ _) eq_refl), Parse_String, String.eqb_refl. cbn [negb].
    by apply checked_inl.
  - rewrite bool_decide_eq_true_2 by done. cbn [negb].
    rewrite parse_language by done. by apply checked_inl.
Qed.
End facts.

(** ** The properties *)

Section properties.
Context `{Uuid}.

(** The constructors build the boards, all of them and nothing else.  A bucket
    from raw columns, from a quote id or from a key is a board; every board comes
    out of the constructor for its shape; and a size that is legal to play but not
    ranked is refused. *)
Theorem buckets_are_boards (mode lang src key : string) (dur words : option Z) (id : UUID) b :
  (NewBucket mode dur words lang src = inl b -> board b /\ IsQuote b = false)
  /\ (NewQuoteBucket id = inl b <-> board b /\ QuoteID b = id /\ IsQuote b = true)
  /\ (ParseBucketKey key = inl b -> board b)
  /\ (board b -> IsQuote b = false ->
      NewBucket (Mode b) (Some (Dimension b)) (Some (Dimension b)) (Lang b) (TextSource b) = inl b)
  /\ (forall d, ~ ranked mode d -> exists err, NewBucket mode (Some d) (Some d) lang src = inr err).
Proof.
  split_and!.
  - unfold NewBucket. destruct (newDimension mode dur words); [|done].
    intros [-> Hb]%checked_inl. split; [done|]. unfold IsQuote. by rewrite bool_decide_eq_true_2.
  - unfold NewQuoteBucket. rewrite checked_inl. split.
    + intros [-> Hb]. split_and!; [done..|]. unfold IsQuote. cbn.
      inversion Hb as [? Hid|? ? ? ? Hr]; subst; [by rewrite bool_decide_eq_false_2|].
      by apply ranked_cases in Hr as [[? _]|[? _]].
    + intros (Hb & <- & Hq). unfold IsQuote in Hq. inversion Hb; subst; [done|].
      cbn in Hq. by rewrite bool_decide_eq_true_2 in Hq.
  - unfold ParseBucketKey. destruct (Strs.CutPrefix quoteKeyPrefix key) as [rest|].
    + destruct (uuid_Parse rest); [|done]. destruct (negb _); [done|]. by intros [-> Hb]%checked_inl.
    + destruct (Strs.Split ":" key) as [|? [|dim [|? [|? [|]]]]]; try done.
      destruct (Strconv.Atoi dim); [|done]. by intros [-> Hb]%checked_inl.
  - intros Hb Hq. unfold IsQuote in Hq.
    inversion Hb as [id' Hid|mode' d lang' src' Hr ? ? ?]; subst b; [by rewrite bool_decide_eq_false_2 in Hq|].
    unfold NewBucket. cbn. apply ranked_cases in Hr as [[-> _]|[-> _]]; by apply checked_inl.
  - intros d Hd. destruct (NewBucket _ _ _ _ _) as [b'|err] eqn:E; [|by eexists]. exfalso.
    unfold NewBucket in E. destruct (newDimension mode _ _) as [d'|] eqn:Hd'; [|done]. unfold newDimension in Hd'.
    assert (d' = d) as ->. { by repeat case_match; simplify_eq. }
    apply checked_inl in E as [_ Hb]. inversion Hb; subst; [|done].
    by repeat case_match; simplify_eq.
Qed.

(** A board's key reads back as the board, so no two boards share a key. *)
Theorem key_roundtrip `{!UuidLaws} b :
  board b -> ParseBucketKey (Key b) = inl b /\ (forall b', board b' -> Key b' = Key b -> b' = b).
Proof.
  intros Hb. split; [by apply parse_Key|]. intros b' Hb' Hk.
  apply parse_Key in Hb, Hb'. rewrite Hk in Hb'. congruence.
Qed.

(** What a parsed key can look like.  A quote key is the one [Key] writes; a
    language key has the bucket's four components, but its size may be any decimal
    spelling of a number that agrees with the size modulo 2^32. *)
Theorem parse_key_spelling (key : string) b :
  ParseBucketKey key = inl b ->
  if IsQuote b then key = Key b
  else exists dim d, key = Mode b +:+ ":" +:+ dim +:+ ":" +:+ Lang b +:+ ":" +:+ TextSource b
    /\ Strconv.Atoi dim = Some d /\ Int.int32 d = Dimension b.
Proof.
  unfold ParseBucketKey. destruct (Strs.CutPrefix quoteKeyPrefix key) as [rest|] eqn:Hc.
  - destruct (uuid_Parse rest) as [id|]; [|done].
    destruct (String.eqb_spec (uuid_String id) rest) as [<-|]; cbn [negb]; [|done].
    intros [-> Hb]%checked_inl. apply Strs.CutPrefix_Some in Hc as ->. unfold Key, IsQuote. cbn.
    inversion Hb as [? Hid|? ? ? ? Hr]; subst; [by rewrite bool_decide_eq_false_2|].
    by apply ranked_cases in Hr as [[? _]|[? _]].
  - destruct (Strs.Split ":" key) as [|mode [|dim [|lang [|src [|]]]]] eqn:Hs; try done.
    destruct (Strconv.Atoi dim) as [d|] eqn:Hd; [|done]. intros [-> Hb]%checked_inl.
    unfold IsQuote. cbn. rewrite bool_decide_eq_true_2 by done. cbn [negb].
    exists dim, d. split_and!; [|done..]. by rewrite <- (Strs.join_Split ":" key), Hs.
Qed.

(** One board has several keys.  A sign, a leading zero and a number that wraps
    around 32 bits all parse to the board [time:15000:en:seeded], whose key is none
    of them. *)
Theorem key_spellings_accepted key :
  key ∈ ["time:+15000:en:seeded"; "time:015000:en:seeded"; "time:4294982296:en:seeded"] ->
  exists b, ParseBucketKey key = inl b /\ Key b = "time:15000:en:seeded" /\ Key b <> key.
Proof.
  set (b := {| Mode := ModeTime; Dimension := 15000; Lang := "en"; TextSource := TextSourceSeeded;
               QuoteID := uuid_Nil |}).
  assert (checked b = inl b) as Hb.
  { apply checked_inl. split; [done|]. apply board_language; [left; split; [done|unfold RankedDurationsMs; set_solver]|by repeat split..|done]. }
  assert (Key b = "time:15000:en:seeded") as Hk.
  { unfold Key, IsQuote. by rewrite bool_decide_eq_true_2. }
  intros Hin. exists b. rewrite Hk. split_and!; [|done|].
  - repeat (apply elem_of_cons in Hin as [->|Hin]; [exact Hb|]). by apply elem_of_nil in Hin.
  - intros <-. repeat (apply elem_of_cons in Hin as [?|Hin]; [done|]). by apply elem_of_nil in Hin.
Qed.
End properties.

(** ** Witnesses *)

Definition time15 : @Bucket uuid16_Uuid :=
  {| Mode := ModeTime; Dimension := 15000; Lang := "en"; TextSource := TextSourceSeeded;
     QuoteID := uuid_Nil |}.

Lemma time15_board : board time15.
Proof.
  apply board_language; [left; split; [done|unfold RankedDurationsMs; set_solver]|by repeat split..|done].
Qed.

Lemma buckets_are_boards_witness :
  exists err, @NewBucket uuid16_Uuid "words" (Some 3000) (Some 3000) "en" "seeded" = inr err.
Proof.
  apply (@buckets_are_boards uuid16_Uuid "words" "en" "seeded" "" None None uuid_Nil time15).
  intros [[? _]|[_ Hin]]; [done|]. unfold RankedWordCounts in Hin. set_solver.
Defined.

Lemma key_roundtrip_witness : ParseBucketKey "time:15000:en:seeded" = inl time15.
Proof. exact (proj1 (key_roundtrip time15 time15_board)). Defined.

Lemma parse_key_spelling_witness :
  exists dim d, "time:015000:en:seeded" = "time" +:+ ":" +:+ dim +:+ ":" +:+ "en" +:+ ":" +:+ "seeded"
    /\ Strconv.Atoi dim = Some d /\ Int.int32 d = 15000.
Proof.
  apply (@parse_key_spelling uuid16_Uuid "time:015000:en:seeded" time15).
  apply checked_inl. split; [reflexivity|exact time15_board].
Defined.

Lemma key_spellings_accepted_witness :
  exists b, @ParseBucketKey uuid16_Uuid "time:4294982296:en:seeded" = inl b
    /\ Key b = "time:15000:en:seeded" /\ Key b <> "time:4294982296:en:seeded".
Proof.
  apply key_spellings_accepted.
  apply list_elem_of_further, list_elem_of_further, list_elem_of_here.
Defined.
