(* ===== verification/Runs.v ===== *)
(** * internal/runs/validate.go: what a submitted run must look like

    Ingestion checks structure and nothing else; what passes is stored verbatim.
    The opaque snapshots are [json.RawMessage]s: a parsed value with the length of
    its text, [None] when the field is absent.  [gzip] is the standard library's
    compressor, of which only "decompressing gives the input back" is used. *)

From S2P Require Import Prelude GoStd Uuid Json Protocol.
From Stdlib Require Import Strings.Ascii Sorting.Sorted.

Open Scope Z_scope.

(** ** errors.go *)

Record apiError := { ae_status : Z; ae_Code : string; ae_Message : string }.

Definition apiErrUnauthorized :=
  {| ae_status := 401; ae_Code := "unauthorized"; ae_Message := "authentication required" |}.
Definition apiErrRateLimited :=
  {| ae_status := 429; ae_Code := "rate_limited";
     ae_Message := "too many runs submitted; slow down and try again shortly" |}.
Definition apiErrPayloadTooLarge :=
  {| ae_status := 413; ae_Code := "payload_too_large";
     ae_Message := "run payload exceeds the 6.5 MiB limit" |}.
Definition apiErrNotFound :=
  {| ae_status := 404; ae_Code := "not_found"; ae_Message := "run not found" |}.
Definition apiErrRestricted :=
  {| ae_status := 403; ae_Code := "account_restricted";
     ae_Message := "this account is restricted; the run was not counted" |}.
Definition apiErrInternal :=
  {| ae_status := 500; ae_Code := "internal"; ae_Message := "an unexpected error occurred" |}.
Definition apiErrConflict (message : string) :=
  {| ae_status := 409; ae_Code := "conflict"; ae_Message := message |}.
Definition apiErrUnavailable :=
  {| ae_status := 503; ae_Code := "unavailable";
     ae_Message := "this deployment does not have the operator surface wired" |}.
Definition apiErrBadRequest (message : string) :=
  {| ae_status := 400; ae_Code := "bad_request"; ae_Message := message |}.
Definition apiErrUnprocessable (code message : string) :=
  {| ae_status := 422; ae_Code := code; ae_Message := message |}.

(** ** Bounds and codes *)

Definition minEvents : Z := 1.
Definition maxEvents : Z := 120000.
Definition maxEventsV2 : Z := 480000.
Definition maxLogBytesV1 : Z := Z.shiftl 13 19.
Definition seedMax : Z := 2 ^ 32 - 1.
Definition maxDurationMs : Z := Int.int32 Runlimits.MaxDurationMs.
Definition maxWordCount : Z := Int.int32 Runlimits.MaxWordCount.
Definition maxModeLen : Z := 32.
Definition maxLangLen : Z := 32.
Definition maxDictHashLen : Z := 64.
Definition maxRestarts : Z := 10000.

Definition KnownScoreVersions : list Z := [1; 2; 3].
Definition KnownLogVersions : list Z := [1; 2].
Definition logVersionTelemetry : Z := 2.

Definition isKnownLogVersion (v : Z) : bool := existsb (Z.eqb v) KnownLogVersions.
Definition isKnownScoreVersion (v : Z) : bool := existsb (Z.eqb v) KnownScoreVersions.

Definition codeUnsupportedScoreVersion := "unsupported_score_version".
Definition codeUnsupportedLogVersion := "unsupported_log_version".
Definition codeEmptyLog := "empty_log".
Definition codeTooManyEvents := "too_many_events".
Definition codeNonMonotonicSeq := "non_monotonic_seq".
Definition codeMalformedLog := "malformed_log".
Definition codeInvalidDimensions := "invalid_dimensions".
Definition codeWordCountTooLarge := "word_count_too_large".
Definition codeDurationTooLong := "duration_too_long".
Definition codeSeedOutOfRange := "seed_out_of_range".
Definition codeInvalidTextSource := "invalid_text_source".
Definition codeQuoteTextSubmitted := "quote_text_submitted".
Definition codeLogTooLarge := "log_too_large".
Definition codeInvalidRestarts := "invalid_restarts".
Definition codeInvalidAdoptedFrom := "invalid_adopted_from".

Definition textSourceSeeded := "seeded".
Definition textSourceQuote := "quote".

(** ** The request and the slivers of it that are parsed *)

Record ingestRequest := {
  rq_Mode : string;
  rq_DurationMs : option Z;
  rq_WordCount : option Z;
  rq_Lang : string;
  rq_Seed : option Z;
  rq_DictHash : string;
  rq_Setup : option RawMessage;
  rq_Log : option RawMessage;
  rq_ClientMetrics : option RawMessage;
  rq_ClientScore : option RawMessage;
  rq_ScoreVersion : option Z;
  rq_RestartsSinceLastSubmit : option Z }.

(** [len] of a raw message: zero when absent. *)
Definition rawLen (r : option RawMessage) : Z :=
  match r with Some r => raw_len r | None => 0 end.
Definition rawVal (r : option RawMessage) : json :=
  match r with Some r => raw_val r | None => JNull end.

Record setupTextSource := {
  ts_Kind : string; ts_QuoteID : string; ts_QuoteHash : string; ts_Text : option json }.
Record setupGeneration := { sg_TextSource : option setupTextSource }.
Record setupEnvelope := {
  se_AdoptedFromRunID : option json;
  se_Generation : option setupGeneration }.

Definition zero_textSource : setupTextSource :=
  {| ts_Kind := ""; ts_QuoteID := ""; ts_QuoteHash := ""; ts_Text := None |}.
Definition zero_setup : setupEnvelope := {| se_AdoptedFromRunID := None; se_Generation := None |}.

Definition dec_setupTextSource : Json.decoder setupTextSource :=
  Json.dec_struct ["kind"; "quoteId"; "quoteHash"; "text"] (fun f =>
    if f =s? "kind" then
      Json.field ts_Kind (fun v s => {| ts_Kind := v; ts_QuoteID := ts_QuoteID s;
        ts_QuoteHash := ts_QuoteHash s; ts_Text := ts_Text s |}) Json.dec_string
    else if f =s? "quoteId" then
      Json.field ts_QuoteID (fun v s => {| ts_Kind := ts_Kind s; ts_QuoteID := v;
        ts_QuoteHash := ts_QuoteHash s; ts_Text := ts_Text s |}) Json.dec_string
    else if f =s? "quoteHash" then
      Json.field ts_QuoteHash (fun v s => {| ts_Kind := ts_Kind s; ts_QuoteID := ts_QuoteID s;
        ts_QuoteHash := v; ts_Text := ts_Text s |}) Json.dec_string
    else
      Json.field ts_Text (fun v s => {| ts_Kind := ts_Kind s; ts_QuoteID := ts_QuoteID s;
        ts_QuoteHash := ts_QuoteHash s; ts_Text := v |}) Json.dec_raw).

Definition dec_setupGeneration : Json.decoder setupGeneration :=
  Json.dec_struct ["textSource"] (fun _ =>
    Json.field sg_TextSource (fun v _ => {| sg_TextSource := v |})
      (Json.dec_ptr zero_textSource dec_setupTextSource)).

Definition dec_setupEnvelope : Json.decoder setupEnvelope :=
  Json.dec_struct ["adoptedFromRunId"; "generation"] (fun f =>
    if f =s? "adoptedFromRunId" then
      Json.field se_AdoptedFromRunID
        (fun v s => {| se_AdoptedFromRunID := v; se_Generation := se_Generation s |}) Json.dec_raw
    else
      Json.field se_Generation
        (fun v s => {| se_AdoptedFromRunID := se_AdoptedFromRunID s; se_Generation := v |})
        (Json.dec_ptr {| sg_TextSource := None |} dec_setupGeneration)).

Record logEvent := { le_Seq : option Z; le_Kind : string; le_Code : string }.
Record logEnvelope := { lg_Version : option Z; lg_Events : list logEvent }.

Definition zero_event : logEvent := {| le_Seq := None; le_Kind := ""; le_Code := "" |}.

Definition dec_logEvent : Json.decoder logEvent :=
  Json.dec_struct ["seq"; "kind"; "code"] (fun f =>
    if f =s? "seq" then
      Json.field le_Seq (fun v e => {| le_Seq := v; le_Kind := le_Kind e; le_Code := le_Code e |})
        (Json.dec_ptr 0 (Json.dec_int 64))
    else if f =s? "kind" then
      Json.field le_Kind (fun v e => {| le_Seq := le_Seq e; le_Kind := v; le_Code := le_Code e |})
        Json.dec_string
    else
      Json.field le_Code (fun v e => {| le_Seq := le_Seq e; le_Kind := le_Kind e; le_Code := v |})
        Json.dec_string).

Definition dec_logEnvelope : Json.decoder logEnvelope :=
  Json.dec_struct ["version"; "events"] (fun f =>
    if f =s? "version" then
      Json.field lg_Version (fun v l => {| lg_Version := v; lg_Events := lg_Events l |})
        (Json.dec_ptr 0 (Json.dec_int 64))
    else
      Json.field lg_Events (fun v l => {| lg_Version := lg_Version l; lg_Events := v |})
        (Json.dec_list dec_logEvent zero_event)).

(** ** The checks: [None] is nil, i.e. no error *)

Definition validateOpaqueField (name value : string) (maxLen : Z) : option apiError :=
  if value =s? "" then Some (apiErrBadRequest (name +:+ " is required"))
  else if maxLen <? slen value then Some (apiErrBadRequest (name +:+ " is too long"))
  else None.

Definition parseSetupEnvelope (setup : json) : setupEnvelope + apiError :=
  match Json.unmarshal dec_setupEnvelope zero_setup setup with
  | Some env => inl env
  | None => inr (apiErrUnprocessable codeInvalidTextSource "setup.generation is not an object")
  end.

Definition validateDimensions (req : ingestRequest) (textSource : string) : option apiError :=
  if textSource =s? textSourceQuote then
    match rq_DurationMs req, rq_WordCount req with
    | None, None => None
    | _, _ => Some (apiErrUnprocessable codeInvalidDimensions
                      "a quote run carries neither durationMs nor wordCount")
    end
  else
    match rq_DurationMs req, rq_WordCount req with
    | Some _, Some _ =>
      Some (apiErrUnprocessable codeInvalidDimensions
              "exactly one of durationMs or wordCount must be set, not both")
    | Some d, None =>
      if d <=? 0 then Some (apiErrUnprocessable codeInvalidDimensions "durationMs must be positive")
      else if maxDurationMs <? d
      then Some (apiErrUnprocessable codeDurationTooLong
                   ("a run may last at most " +:+ Strconv.Itoa maxDurationMs +:+ " ms"))
      else None
    | None, Some n =>
      if n <=? 0 then Some (apiErrUnprocessable codeInvalidDimensions "wordCount must be positive")
      else if maxWordCount <? n
      then Some (apiErrUnprocessable codeWordCountTooLarge
                   ("a run may ask for at most " +:+ Strconv.Itoa maxWordCount +:+ " words"))
      else None
    | None, None =>
      Some (apiErrUnprocessable codeInvalidDimensions
              "exactly one of durationMs or wordCount must be set")
    end.

Definition key_char (c : ascii) : bool :=
  let b := Z.of_N (N_of_ascii c) in
  ((97 <=? b) && (b <=? 122)) || ((65 <=? b) && (b <=? 90)) || ((48 <=? b) && (b <=? 57)).

Definition isKeyCode (s : string) : bool :=
  if (slen s <? 1) || (32 <? slen s) then false else Strs.str_forallb key_char s.

(** The scan over the events; [prev] is the sequence number before. *)
Fixpoint scanEvents (telemetryAllowed : bool) (prev : Z) (l : list logEvent) : option apiError :=
  match l with
  | [] => None
  | e :: l =>
    match le_Seq e with
    | None => Some (apiErrUnprocessable codeNonMonotonicSeq "an event is missing its seq")
    | Some seq =>
      if seq <=? prev
      then Some (apiErrUnprocessable codeNonMonotonicSeq
                   "event seq is not strictly increasing from a non-negative start")
      else if (le_Kind e =s? "down") || (le_Kind e =s? "up") then
        if negb telemetryAllowed
        then Some (apiErrUnprocessable codeMalformedLog
                     "telemetry events (down/up) require log version 2")
        else if negb (isKeyCode (le_Code e))
        then Some (apiErrUnprocessable codeMalformedLog
                     "a telemetry event's code must be 1-32 characters of the KeyboardEvent.code charset")
        else scanEvents telemetryAllowed seq l
      else scanEvents telemetryAllowed seq l
    end
  end.

Definition validateLog (raw : RawMessage) : option apiError :=
  match Json.unmarshal dec_logEnvelope {| lg_Version := None; lg_Events := [] |} (raw_val raw) with
  | None => Some (apiErrUnprocessable codeMalformedLog "log is not a valid EventLog envelope")
  | Some env =>
    match lg_Version env with
    | Some version =>
      if negb (isKnownLogVersion version)
      then Some (apiErrUnprocessable codeUnsupportedLogVersion
                   "unsupported log version; accepted versions are [1 2]")
      else
        let telemetryAllowed := version =? logVersionTelemetry in
        if negb telemetryAllowed && (maxLogBytesV1 <? raw_len raw)
        then Some (apiErrUnprocessable codeLogTooLarge
                     ("a version-1 log may be at most " +:+ Strconv.Itoa maxLogBytesV1 +:+ " bytes"))
        else
          let n := Z.of_nat (length (lg_Events env)) in
          if n <? minEvents then Some (apiErrUnprocessable codeEmptyLog "log has no events")
          else
            let eventCap := if telemetryAllowed then maxEventsV2 else maxEvents in
            if eventCap <? n
            then Some (apiErrUnprocessable codeTooManyEvents
                         ("log exceeds the maximum of " +:+ Strconv.Itoa eventCap +:+ " events"))
            else scanEvents telemetryAllowed (-1) (lg_Events env)
    | None => Some (apiErrUnprocessable codeUnsupportedLogVersion
                      "unsupported log version; accepted versions are [1 2]")
    end
  end.

(** [compress/gzip], as log.go uses it: bytes in, bytes out. *)
Class Gzip := {
  gzipLog : RawMessage -> option (list Z);
  gunzipLog : list Z -> option RawMessage }.

(** Documented: reading back what a closed writer produced gives the input. *)
Class GzipLaws `{Gzip} := {
  gunzip_gzip raw gz : gzipLog raw = Some gz -> gunzipLog gz = Some raw }.

Section validate.
Context `{Uuid} `{Gzip}.

Record CreateRunParams := {
  cp_UserID : UUID;
  cp_Mode : string;
  cp_DurationMs : option Z;
  cp_WordCount : option Z;
  cp_Lang : string;
  cp_Seed : Z;
  cp_DictHash : string;
  cp_Setup : json;
  cp_ClientMetrics : json;
  cp_ClientScore : json;
  cp_ScoreVersion : Z;
  cp_Log : list Z;
  cp_LogBytes : Z;
  cp_RestartsSinceLastSubmit : Z }.

Definition isCanonicalUUID (s : string) : bool :=
  match uuid_Parse s with
  | Some parsed => uuid_String parsed =s? s
  | None => false
  end.

Definition validateAdoptedFrom (env : setupEnvelope) : option apiError :=
  match se_AdoptedFromRunID env with
  | None | Some JNull => None
  | Some j =>
    let refused := Some (apiErrUnprocessable codeInvalidAdoptedFrom
      "setup.adoptedFromRunId must be a canonical lowercase dashed uuid when present") in
    match Json.unmarshal Json.dec_string "" j with
    | Some value => if isCanonicalUUID value then None else refused
    | None => refused
    end
  end.

Definition validateTextSource (env : setupEnvelope) : string + apiError :=
  match se_Generation env with
  | Some {| sg_TextSource := Some src |} =>
    if ts_Kind src =s? textSourceSeeded then inl textSourceSeeded
    else if negb (ts_Kind src =s? textSourceQuote)
    then inr (apiErrUnprocessable codeInvalidTextSource
                "setup.generation.textSource.kind must be 'seeded' or 'quote'")
    else
      match ts_Text src with
      | Some _ =>
        inr (apiErrUnprocessable codeQuoteTextSubmitted
               "setup.generation.textSource must not carry text; the server resolves it from quoteId")
      | None =>
        if negb (isCanonicalUUID (ts_QuoteID src))
        then inr (apiErrUnprocessable codeInvalidTextSource
                    "setup.generation.textSource.quoteId must be a canonical lowercase dashed uuid")
        else if (ts_QuoteHash src =s? "") || (maxDictHashLen <? slen (ts_QuoteHash src))
        then inr (apiErrUnprocessable codeInvalidTextSource
                    "setup.generation.textSource.quoteHash is required and must be short")
        else inl textSourceQuote
      end
  | _ => inl textSourceSeeded
  end.

(** The required payloads, in the order they are looked at. *)
Definition missingPayload (req : ingestRequest) : option apiError :=
  if rawLen (rq_Setup req) =? 0 then Some (apiErrBadRequest "setup is required")
  else if rawLen (rq_ClientMetrics req) =? 0 then Some (apiErrBadRequest "clientMetrics is required")
  else if rawLen (rq_ClientScore req) =? 0 then Some (apiErrBadRequest "clientScore is required")
  else if rawLen (rq_Log req) =? 0 then Some (apiErrBadRequest "log is required")
  else None.

Definition validateScoreVersion (req : ingestRequest) : option apiError :=
  match rq_ScoreVersion req with
  | Some v => if isKnownScoreVersion v then None
              else Some (apiErrUnprocessable codeUnsupportedScoreVersion
                           "unsupported score version; accepted versions are [1 2 3]")
  | None => Some (apiErrUnprocessable codeUnsupportedScoreVersion
                    "unsupported score version; accepted versions are [1 2 3]")
  end.

Definition validateSeed (req : ingestRequest) : option apiError :=
  match rq_Seed req with
  | None => Some (apiErrBadRequest "seed is required")
  | Some s => if (s <? 0) || (seedMax <? s)
              then Some (apiErrUnprocessable codeSeedOutOfRange "seed must be an integer in [0, 2^32-1]")
              else None
  end.

Definition validateRestarts (req : ingestRequest) : option apiError :=
  match rq_RestartsSinceLastSubmit req with
  | None => None
  | Some r => if (r <? 0) || (maxRestarts <? r)
              then Some (apiErrUnprocessable codeInvalidRestarts
                           ("restartsSinceLastSubmit must be an integer in [0, "
                            +:+ Strconv.Itoa maxRestarts +:+ "]"))
              else None
  end.

(** The setup's checks together: the text source's kind, once its shape, the
    provenance marker and the dimensions it implies are all in order. *)
Definition validateSetup (req : ingestRequest) : option apiError :=
  match parseSetupEnvelope (rawVal (rq_Setup req)) with
  | inr err => Some err
  | inl env =>
    match validateTextSource env with
    | inr err => Some err
    | inl kind =>
      match validateAdoptedFrom env with
      | Some err => Some err
      | None => validateDimensions req kind
      end
    end
  end.

Definition paramsOf (userID : UUID) (req : ingestRequest) (gz : list Z) : CreateRunParams :=
  {| cp_UserID := userID;
     cp_Mode := rq_Mode req;
     cp_DurationMs := rq_DurationMs req;
     cp_WordCount := rq_WordCount req;
     cp_Lang := rq_Lang req;
     cp_Seed := default 0 (rq_Seed req);
     cp_DictHash := rq_DictHash req;
     cp_Setup := rawVal (rq_Setup req);
     cp_ClientMetrics := rawVal (rq_ClientMetrics req);
     cp_ClientScore := rawVal (rq_ClientScore req);
     cp_ScoreVersion := Int.int16 (default 0 (rq_ScoreVersion req));
     cp_Log := gz;
     cp_LogBytes := Int.int32 (rawLen (rq_Log req));
     cp_RestartsSinceLastSubmit := default 0 (rq_RestartsSinceLastSubmit req) |}.

(** The first check that fails decides. *)
Definition firstError (checks : list (option apiError)) : option apiError :=
  find_first (fun c => bool_decide (is_Some c)) checks ≫= id.

Definition validateIngest (userID : UUID) (req : ingestRequest) : CreateRunParams + apiError :=
  let raw := default {| raw_len := 0; raw_val := JNull |} (rq_Log req) in
  match firstError
    [ missingPayload req;
      validateScoreVersion req;
      validateOpaqueField "mode" (rq_Mode req) maxModeLen;
      validateOpaqueField "lang" (rq_Lang req) maxLangLen;
      validateOpaqueField "dictHash" (rq_DictHash req) maxDictHashLen;
      validateSeed req;
      validateSetup req;
      validateRestarts req;
      validateLog raw ] with
  | Some err => inr err
  | None =>
    match gzipLog raw with
    | None => inr apiErrInternal
    | Some gz => inl (paramsOf userID req gz)
    end
  end.
End validate.

(** ** What an acceptable submission is *)

(** Sequence numbers never negative and strictly increasing. *)
Definition seqs_ok (l : list logEvent) : Prop :=
  exists seqs, le_Seq <$> l = Some <$> seqs /\ StronglySorted Z.lt seqs /\ Forall (fun s => 0 <= s) seqs.

Definition keyCode_ok (s : string) : Prop := 1 <= slen s <= 32 /\ Strs.str_forallb key_char s = true.

Definition is_telemetry (e : logEvent) : Prop := le_Kind e = "down" \/ le_Kind e = "up".

Record log_ok (raw : RawMessage) (version : Z) (events : list logEvent) : Prop := {
  lo_decodes : Json.unmarshal dec_logEnvelope {| lg_Version := None; lg_Events := [] |} (raw_val raw)
    = Some {| lg_Version := Some version; lg_Events := events |};
  lo_version : version = 1 \/ version = 2;
  lo_size : version = 1 -> raw_len raw <= maxLogBytesV1;
  lo_count : 1 <= Z.of_nat (length events) <= (if version =? 2 then maxEventsV2 else maxEvents);
  lo_seqs : seqs_ok events;
  lo_telemetry : forall e, e ∈ events -> is_telemetry e -> version = 2 /\ keyCode_ok (le_Code e) }.

Lemma isKeyCode_spec s : isKeyCode s = true <-> keyCode_ok s.
Proof.
  unfold isKeyCode, keyCode_ok. destruct (_ || _) eqn:E.
  - split; [done|]. intros [? _]. apply orb_true_iff in E as [E|E]; bool_to_prop; lia.
  - bool_to_prop. split; [intros ?; split; [lia|done]|by intros [_ ?]].
Qed.

(** The scan, with the sequence number it starts from. *)
Lemma scanEvents_spec tele prev l :
  scanEvents tele prev l = None <->
  (exists seqs, le_Seq <$> l = Some <$> seqs /\ StronglySorted Z.lt seqs /\ Forall (fun s => prev < s) seqs)
  /\ (forall e, e ∈ l -> is_telemetry e -> tele = true /\ keyCode_ok (le_Code e)).
Proof.
  revert prev. induction l as [|e l IH]; intros prev.
  { cbn. split; [|done]. intros _. split; [exists []; split_and!; constructor|set_solver]. }
  cbn [scanEvents]. destruct (le_Seq e) as [seq|] eqn:Hseq.
  2:{ split; [done|]. intros [([|s seqs] & Hs & _) _]; [done|]. cbn in Hs. congruence. }
  assert (seq <= prev -> ~ exists seqs, le_Seq <$> e :: l = Some <$> seqs
    /\ StronglySorted Z.lt seqs /\ Forall (fun s => prev < s) seqs) as Hlow.
  { intros Hle ([|s seqs] & Hs & _ & Hf); [done|]. cbn in Hs. rewrite Hseq in Hs.
    injection Hs as <- _. apply Forall_cons in Hf as [? _]. lia. }
  destruct (seq <=? prev) eqn:Hp; bool_to_prop; [split; [done|naive_solver]|].
  assert ((exists seqs, le_Seq <$> e :: l = Some <$> seqs /\ StronglySorted Z.lt seqs
      /\ Forall (fun s => prev < s) seqs)
    <-> exists seqs, le_Seq <$> l = Some <$> seqs /\ StronglySorted Z.lt seqs
      /\ Forall (fun s => seq < s) seqs) as ->.
  { split.
    - intros ([|s seqs] & Hs & Ho & _); [done|]. cbn in Hs. rewrite Hseq in Hs.
      injection Hs as <- Hs. inversion Ho; subst. by exists seqs.
    - intros (seqs & Hs & Ho & Hf). exists (seq :: seqs). cbn. rewrite Hseq. split_and!; [congruence|by constructor|].
      constructor; [lia|]. eapply Forall_impl; [exact Hf|]. cbn. lia. }
  assert (forall P : Prop, (P -> tele = true /\ keyCode_ok (le_Code e)) ->
    (is_telemetry e -> P) ->
    scanEvents tele seq l = None <->
    (exists seqs, le_Seq <$> l = Some <$> seqs /\ StronglySorted Z.lt seqs
      /\ Forall (fun s => seq < s) seqs)
    /\ (forall x, x ∈ e :: l -> is_telemetry x -> tele = true /\ keyCode_ok (le_Code x))) as Hnext.
  { intros P HP Ht. rewrite IH. apply and_iff_compat_l. split.
    - intros Hl x [->|Hx]%elem_of_cons ?; [by apply HP, Ht|by apply Hl].
    - intros Hl x Hx. apply Hl. by right. }
  unfold is_telemetry in Hnext.
  destruct ((le_Kind e =s? "down") || (le_Kind e =s? "up")) eqn:Hk.
  - assert (is_telemetry e) as Hte.
    { unfold is_telemetry. apply orb_true_iff in Hk as [Hk|Hk]; bool_to_prop; auto. }
    destruct tele; cbn [negb].
    + destruct (isKeyCode (le_Code e)) eqn:Hc; cbn [negb].
      * apply isKeyCode_spec in Hc. by apply (Hnext True).
      * split; [done|]. intros [_ Hl]. destruct (Hl e) as [_ Hc']; [set_solver|done|].
        apply isKeyCode_spec in Hc'. congruence.
    + split; [done|]. intros [_ Hl]. destruct (Hl e) as [? _]; [set_solver|done|done].
  - apply (Hnext False); [done|]. bool_to_prop. naive_solver.
Qed.

Lemma isKnownLogVersion_spec v : isKnownLogVersion v = true <-> v = 1 \/ v = 2.
Proof. unfold isKnownLogVersion. cbn. lia. Qed.
Lemma isKnownScoreVersion_spec v : isKnownScoreVersion v = true <-> v = 1 \/ v = 2 \/ v = 3.
Proof. unfold isKnownScoreVersion. cbn. lia. Qed.

Lemma validateLog_spec raw : validateLog raw = None <-> exists version events, log_ok raw version events.
Proof.
  unfold validateLog. destruct (Json.unmarshal _ _ _) as [[version events]|] eqn:Hd.
  2:{ split; [done|]. intros (v & l & [Hd' _ _ _ _ _]). congruence. }
  cbn [lg_Version lg_Events]. destruct version as [v|].
  2:{ split; [done|]. intros (v & l & [Hd' _ _ _ _ _]). congruence. }
  assert ((exists version events0, log_ok raw version events0) <-> log_ok raw v events) as ->.
  { split; [|by eauto]. intros (v' & l' & Hl). pose proof (lo_decodes _ _ _ Hl). by simplify_eq. }
  destruct (isKnownLogVersion v) eqn:Hv; cbn [negb].
  2:{ split; [done|]. intros [_ Hv' _ _ _ _]. apply isKnownLogVersion_spec in Hv'. congruence. }
  apply isKnownLogVersion_spec in Hv. unfold logVersionTelemetry, minEvents.
  destruct (negb (v =? 2) && (maxLogBytesV1 <? raw_len raw)) eqn:Hsz.
  { bool_to_prop. split; [done|]. intros [_ _ Hs _ _ _]. lia. }
  destruct (Z.of_nat (length events) <? 1) eqn:Hlo; bool_to_prop.
  { split; [done|]. intros [_ _ _ Hn _ _]. lia. }
  destruct ((if v =? 2 then maxEventsV2 else maxEvents) <? _) eqn:Hhi; bool_to_prop.
  { split; [done|]. intros [_ _ _ Hn _ _]. lia. }
  rewrite scanEvents_spec. split.
  - intros [(seqs & Hs & Ho & Hf) Ht]. constructor; try done.
    + intros ->. cbn in Hsz. by apply Z.ltb_ge in Hsz.
    + exists seqs. split_and!; [done..|]. eapply Forall_impl; [exact Hf|]. cbn. lia.
    + intros e He Hk. destruct (Ht e He Hk) as [Hv2 ?]. by apply Z.eqb_eq in Hv2.
  - intros [_ _ _ _ (seqs & Hs & Ho & Hf) Ht]. split.
    + exists seqs. split_and!; [done..|]. eapply Forall_impl; [exact Hf|]. cbn. lia.
    + intros e He Hk. destruct (Ht e He Hk) as [-> ?]. done.
Qed.

Section facts.
Context `{Uuid} `{Gzip}.

Definition opaque_ok (value : string) (maxLen : Z) : Prop := value <> "" /\ slen value <= maxLen.

Definition provenance_ok (env : setupEnvelope) : Prop :=
  se_AdoptedFromRunID env = None \/ se_AdoptedFromRunID env = Some JNull
  \/ exists id, se_AdoptedFromRunID env = Some (JStr id) /\ isCanonicalUUID id = true.

(** A fixed text: a reference to a quote, and no text of its own. *)
Definition quote_ok (src : setupTextSource) : Prop :=
  ts_Kind src = textSourceQuote /\ ts_Text src = None /\ isCanonicalUUID (ts_QuoteID src) = true
  /\ opaque_ok (ts_QuoteHash src) maxDictHashLen.

Definition text_source (env : setupEnvelope) : option setupTextSource :=
  se_Generation env ≫= sg_TextSource.

(** Generated text: no source named, or the seeded one. *)
Definition seeded_ok (env : setupEnvelope) : Prop :=
  text_source env = None \/ exists src, text_source env = Some src /\ ts_Kind src = textSourceSeeded.

(** Exactly one size, in range. *)
Definition one_dimension (dur words : option Z) : Prop :=
  (exists d, dur = Some d /\ words = None /\ 0 < d <= Runlimits.MaxDurationMs)
  \/ (exists n, dur = None /\ words = Some n /\ 0 < n <= Runlimits.MaxWordCount).

Definition setup_ok (req : ingestRequest) : Prop :=
  exists env, Json.unmarshal dec_setupEnvelope zero_setup (rawVal (rq_Setup req)) = Some env
    /\ provenance_ok env
    /\ ((seeded_ok env /\ one_dimension (rq_DurationMs req) (rq_WordCount req))
        \/ (exists src, text_source env = Some src /\ quote_ok src
            /\ rq_DurationMs req = None /\ rq_WordCount req = None)).

Record ingest_ok (req : ingestRequest) : Prop := {
  ok_setup_present : rawLen (rq_Setup req) <> 0;
  ok_metrics_present : rawLen (rq_ClientMetrics req) <> 0;
  ok_score_present : rawLen (rq_ClientScore req) <> 0;
  ok_log_present : rawLen (rq_Log req) <> 0;
  ok_score_version : rq_ScoreVersion req = Some 1 \/ rq_ScoreVersion req = Some 2
    \/ rq_ScoreVersion req = Some 3;
  ok_mode : opaque_ok (rq_Mode req) maxModeLen;
  ok_lang : opaque_ok (rq_Lang req) maxLangLen;
  ok_dictHash : opaque_ok (rq_DictHash req) maxDictHashLen;
  ok_seed : exists s, rq_Seed req = Some s /\ 0 <= s < 2 ^ 32;
  ok_setup : setup_ok req;
  ok_restarts : forall r, rq_RestartsSinceLastSubmit req = Some r -> 0 <= r <= maxRestarts;
  ok_log : exists raw version events, rq_Log req = Some raw /\ log_ok raw version events }.

Lemma validateOpaqueField_spec name value maxLen :
  validateOpaqueField name value maxLen = None <-> opaque_ok value maxLen.
Proof.
  unfold validateOpaqueField, opaque_ok. destruct (String.eqb_spec value ""); [naive_solver|].
  destruct (maxLen <? slen value) eqn:E; bool_to_prop; [split; [done|lia]|by split].
Qed.

Lemma missingPayload_spec req :
  missingPayload req = None <->
  rawLen (rq_Setup req) <> 0 /\ rawLen (rq_ClientMetrics req) <> 0
  /\ rawLen (rq_ClientScore req) <> 0 /\ rawLen (rq_Log req) <> 0.
Proof. unfold missingPayload. repeat case_match; bool_to_prop; naive_solver. Qed.

Lemma validateScoreVersion_spec req :
  validateScoreVersion req = None <->
  rq_ScoreVersion req = Some 1 \/ rq_ScoreVersion req = Some 2 \/ rq_ScoreVersion req = Some 3.
Proof.
  unfold validateScoreVersion. destruct (rq_ScoreVersion req) as [v|]; [|naive_solver].
  destruct (isKnownScoreVersion v) eqn:E.
  - apply isKnownScoreVersion_spec in E. split; [|done]. intros _. naive_solver.
  - split; [done|]. intros Hv. rewrite (proj2 (isKnownScoreVersion_spec v)) in E; [done|naive_solver].
Qed.

Lemma validateSeed_spec req :
  validateSeed req = None <-> exists s, rq_Seed req = Some s /\ 0 <= s < 2 ^ 32.
Proof.
  unfold validateSeed, seedMax. destruct (rq_Seed req) as [s|]; [|naive_solver].
  destruct (_ || _) eqn:E.
  - split; [done|]. intros (s' & [= <-] & Hs). lia.
  - bool_to_prop. split; [|done]. intros _. exists s. split; [done|lia].
Qed.

Lemma validateRestarts_spec req :
  validateRestarts req = None <->
  forall r, rq_RestartsSinceLastSubmit req = Some r -> 0 <= r <= maxRestarts.
Proof.
  unfold validateRestarts. destruct (rq_RestartsSinceLastSubmit req) as [r|]; [|naive_solver].
  destruct (_ || _) eqn:E.
  - split; [done|]. intros Hr. specialize (Hr r eq_refl). lia.
  - bool_to_prop. split; [|done]. intros _ r' [= <-]. lia.
Qed.

Lemma validateDimensions_seeded req :
  validateDimensions req textSourceSeeded = None <-> one_dimension (rq_DurationMs req) (rq_WordCount req).
Proof.
  unfold validateDimensions, one_dimension. cbn [String.eqb].
  change maxDurationMs with Runlimits.MaxDurationMs. change maxWordCount with Runlimits.MaxWordCount.
  replace (textSourceSeeded =s? textSourceQuote) with false by done.
  destruct (rq_DurationMs req) as [d|], (rq_WordCount req) as [n|]; try naive_solver.
  - destruct (d <=? 0) eqn:Hd; bool_to_prop; [split; [done|]; intros [(? & [= <-] & _ & ?)|(? & ? & _)]; [lia|done]|].
    destruct (Runlimits.MaxDurationMs <? d) eqn:Hm; bool_to_prop.
    + split; [done|]. intros [(? & [= <-] & _ & ?)|(? & ? & _)]; [lia|done].
    + split; [|done]. intros _. left. exists d. repeat split; done || lia.
  - destruct (n <=? 0) eqn:Hd; bool_to_prop; [split; [done|]; intros [(? & ? & _)|(? & _ & [= <-] & ?)]; [done|lia]|].
    destruct (Runlimits.MaxWordCount <? n) eqn:Hm; bool_to_prop.
    + split; [done|]. intros [(? & ? & _)|(? & _ & [= <-] & ?)]; [done|lia].
    + split; [|done]. intros _. right. exists n. repeat split; done || lia.
Qed.

Lemma validateDimensions_quote req :
  validateDimensions req textSourceQuote = None <-> rq_DurationMs req = None /\ rq_WordCount req = None.
Proof.
  unfold validateDimensions. replace (textSourceQuote =s? textSourceQuote) with true by done.
  destruct (rq_DurationMs req), (rq_WordCount req); naive_solver.
Qed.

Lemma validateAdoptedFrom_spec env : validateAdoptedFrom env = None <-> provenance_ok env.
Proof.
  unfold validateAdoptedFrom, provenance_ok. destruct (se_AdoptedFromRunID env) as [j|]; [|naive_solver].
  destruct j as [| | |s| |]; cbn [Json.unmarshal Json.dec_string]; try naive_solver.
  destruct (isCanonicalUUID s) eqn:E.
  - split; [|done]. intros _. right. right. by exists s.
  - split; [done|]. intros [?|[?|(id & [= <-] & ?)]]; congruence.
Qed.

Lemma validateTextSource_spec env kind :
  validateTextSource env = inl kind <->
  (kind = textSourceSeeded /\ seeded_ok env)
  \/ (kind = textSourceQuote /\ exists src, text_source env = Some src /\ quote_ok src).
Proof.
  unfold validateTextSource, seeded_ok, text_source.
  destruct (se_Generation env) as [[[src|]]|]; cbn; [|naive_solver..].
  destruct (String.eqb_spec (ts_Kind src) textSourceSeeded) as [Hk|Hk].
  { split; [intros [= <-]; left; eauto|].
    intros [[-> _]|(_ & src' & [= <-] & Hq & _)]; [done|]. by rewrite Hk in Hq. }
  destruct (String.eqb_spec (ts_Kind src) textSourceQuote) as [Hq|Hq]; cbn [negb]; [|unfold quote_ok; naive_solver].
  assert (forall err : apiError, ~ quote_ok src -> @inr string apiError err = inl kind <->
    kind = textSourceSeeded
      /\ (Some src = None \/ exists s, Some src = Some s /\ ts_Kind s = textSourceSeeded)
    \/ kind = textSourceQuote /\ exists s, Some src = Some s /\ quote_ok s) as Hno.
  { intros err Hn. split; [done|]. intros [[_ [?|(? & [= <-] & ?)]]|(_ & ? & [= <-] & ?)]; done. }
  destruct (ts_Text src) as [|] eqn:Ht; [apply Hno; intros (_ & ? & _); congruence|].
  destruct (isCanonicalUUID (ts_QuoteID src)) eqn:Hc; cbn [negb];
    [|apply Hno; intros (_ & _ & ? & _); congruence].
  destruct (_ || _) eqn:Hl.
  { apply Hno. intros (_ & _ & _ & Hne & Hlen). apply orb_true_iff in Hl as [Hl|Hl]; bool_to_prop; [done|lia]. }
  bool_to_prop. split; [intros [= <-]; right; split; [done|]; exists src; by repeat split|].
  by intros [[_ [?|(? & [= <-] & ?)]]|(-> & _)].
Qed.

Lemma validateSetup_spec req : validateSetup req = None <-> setup_ok req.
Proof.
  unfold validateSetup, parseSetupEnvelope, setup_ok. destruct (Json.unmarshal _ _ _) as [env|]; [|naive_solver].
  destruct (validateTextSource env) as [kind|err] eqn:Hk.
  - pose proof (proj1 (validateTextSource_spec env kind) Hk) as Hk'.
    destruct (validateAdoptedFrom env) as [err|] eqn:Ha.
    + split; [done|]. intros (env' & [= <-] & Hp & _). apply validateAdoptedFrom_spec in Hp. congruence.
    + apply validateAdoptedFrom_spec in Ha. destruct Hk' as [[-> Hs]|(-> & src & Hsrc & Hq)].
      * rewrite validateDimensions_seeded. split; [intros; exists env; auto|].
        intros (env' & [= <-] & _ & [[_ ?]|(src & Hsrc & [Hq _] & _)]); [done|].
        destruct Hs as [Hs|(src' & Hs & Hk')]; [congruence|]. rewrite Hsrc in Hs. injection Hs as <-.
        by rewrite Hq in Hk'.
      * rewrite validateDimensions_quote. split; [intros []; exists env; eauto 10|].
        intros (env' & [= <-] & _ & [[[Hs|(src' & Hs & Hk')] _]|(? & _ & _ & ? & ?)]); [congruence| |done].
        rewrite Hsrc in Hs. injection Hs as <-. destruct Hq as [Hq _]. by rewrite Hq in Hk'.
  - split; [done|]. intros (env' & [= <-] & _ & Hs). exfalso.
    assert (exists kind, validateTextSource env = inl kind) as [k Hk']; [|congruence].
    destruct Hs as [[Hs _]|(src & Hsrc & Hq & _)].
    + exists textSourceSeeded. apply validateTextSource_spec. auto.
    + exists textSourceQuote. apply validateTextSource_spec. eauto.
Qed.

Lemma firstError_None l : firstError l = None <-> Forall (fun c => c = None) l.
Proof.
  unfold firstError. induction l as [|c l IH]; cbn; [split; [constructor|done]|].
  rewrite Forall_cons. destruct c; cbn; [naive_solver|]. rewrite IH. naive_solver.
Qed.

Lemma firstError_elem l err : firstError l = Some err -> Some err ∈ l.
Proof.
  unfold firstError. intros (c & Hc & Hid)%bind_Some. apply find_first_Some in Hc as [Hc _].
  cbn in Hid. by subst c.
Qed.

Definition checksOf (req : ingestRequest) : list (option apiError) :=
  [ missingPayload req; validateScoreVersion req;
    validateOpaqueField "mode" (rq_Mode req) maxModeLen;
    validateOpaqueField "lang" (rq_Lang req) maxLangLen;
    validateOpaqueField "dictHash" (rq_DictHash req) maxDictHashLen;
    validateSeed req; validateSetup req; validateRestarts req;
    validateLog (default {| raw_len := 0; raw_val := JNull |} (rq_Log req)) ].

Lemma checks_ok req : Forall (fun c => c = None) (checksOf req) <-> ingest_ok req.
Proof.
  unfold checksOf. rewrite !Forall_cons, missingPayload_spec, validateScoreVersion_spec,
    !validateOpaqueField_spec, validateSeed_spec, validateSetup_spec, validateRestarts_spec, validateLog_spec.
  split.
  - intros ((? & ? & ? & Hlog) & ? & ? & ? & ? & ? & ? & ? & (version & events & Hl) & _).
    constructor; try done. destruct (rq_Log req) as [raw|]; [by exists raw, version, events|done].
  - intros [? ? ? ? ? ? ? ? ? ? ? (raw & version & events & Hr & Hl)]. rewrite Hr. cbn.
    rewrite Hr in *. split_and!; eauto.
Qed.

(** A refusal is the client's fault: 400 for a payload that is not there or not
    shaped, 422 for one that breaks a rule. *)
Definition client_error (err : apiError) : Prop := ae_status err = 400 \/ ae_status err = 422.

Lemma scanEvents_client tele prev l err : scanEvents tele prev l = Some err -> ae_status err = 422.
Proof.
  revert prev. induction l as [|e l IH]; cbn; intros prev; [done|].
  repeat case_match; intros E; simplify_eq; try done; by eapply IH.
Qed.

Lemma validateSetup_client req err : validateSetup req = Some err -> ae_status err = 422.
Proof.
  unfold validateSetup, parseSetupEnvelope, validateTextSource, validateAdoptedFrom, validateDimensions.
  repeat (case_match; simplify_eq; try by intros [= <-]).
Qed.

Lemma checks_client req err : Some err ∈ checksOf req -> client_error err.
Proof.
  unfold client_error, checksOf. intros Hin.
  repeat (apply elem_of_cons in Hin; destruct Hin as [E|Hin]; [symmetry in E|]);
    [..|by apply elem_of_nil in Hin].
  - unfold missingPayload in E. repeat case_match; simplify_eq; auto.
  - unfold validateScoreVersion in E. repeat case_match; simplify_eq; auto.
  - unfold validateOpaqueField in E. repeat case_match; simplify_eq; auto.
  - unfold validateOpaqueField in E. repeat case_match; simplify_eq; auto.
  - unfold validateOpaqueField in E. repeat case_match; simplify_eq; auto.
  - unfold validateSeed in E. repeat case_match; simplify_eq; auto.
  - right. by eapply validateSetup_client.
  - unfold validateRestarts in E. repeat case_match; simplify_eq; auto.
  - right. unfold validateLog in E. repeat case_match; simplify_eq; try done; by eapply scanEvents_client.
Qed.

(** ** The properties *)


(** What comes out of [validateIngest] is the row of a well-formed request. *)
Lemma ingested (userID : UUID) (req : ingestRequest) (p : CreateRunParams) :
  validateIngest userID req = inl p <->
  ingest_ok req /\ exists raw gz, rq_Log req = Some raw /\ gzipLog raw = Some gz /\ p = paramsOf userID req gz.
Proof.
  unfold validateIngest. fold (checksOf req). split.
  - destruct (firstError (checksOf req)) as [err|] eqn:Hf; [done|].
    apply firstError_None, checks_ok in Hf. destruct (ok_log _ Hf) as (raw & ? & ? & Hr & _). rewrite Hr. cbn.
    destruct (gzipLog raw) as [gz|] eqn:Hg; [|done]. intros [= <-]. split; [done|]. by exists raw, gz.
  - intros (Hok%checks_ok%firstError_None & raw & gz & Hr & Hg & ->). rewrite Hok, Hr. cbn. by rewrite Hg.
Qed.

(** The stored log is the submitted one. *)
Lemma ingested_log `{!GzipLaws} (userID : UUID) (req : ingestRequest) (p : CreateRunParams) :
  validateIngest userID req = inl p -> gunzipLog (cp_Log p) = rq_Log req.
Proof. intros (_ & raw & gz & -> & Hg & ->)%ingested. by apply gunzip_gzip. Qed.

(** Never two sizes. *)
Lemma ingested_one_size (userID : UUID) (req : ingestRequest) (p : CreateRunParams) :
  validateIngest userID req = inl p -> cp_DurationMs p = None \/ cp_WordCount p = None.
Proof.
  intros (Hok & raw & gz & _ & _ & ->)%ingested. cbn.
  destruct (ok_setup _ Hok) as (env & _ & _ & [[_ Hd]|(_ & _ & _ & ? & _)]); [|by left].
  destruct Hd as [(? & _ & ? & _)|(? & ? & _)]; auto.
Qed.

(** The stored row.  It has one dimension in range, or none for a quote; the
    version and the seed fit their columns unchanged; and decompressing the stored
    log gives back the submitted one. *)
Theorem ingest_row `{!GzipLaws} (userID : UUID) (req : ingestRequest) (p : CreateRunParams) :
  validateIngest userID req = inl p ->
  (one_dimension (cp_DurationMs p) (cp_WordCount p)
   \/ (cp_DurationMs p = None /\ cp_WordCount p = None))
  /\ rq_ScoreVersion req = Some (cp_ScoreVersion p)
  /\ rq_Seed req = Some (cp_Seed p) /\ 0 <= cp_Seed p < 2 ^ 32
  /\ 0 <= cp_RestartsSinceLastSubmit p <= maxRestarts
  /\ gunzipLog (cp_Log p) = rq_Log req.
Proof.
  intros (Hf & raw & gz & Hr & Hg & ->)%ingested. unfold paramsOf. cbn. rewrite Hr.
  destruct (ok_seed _ Hf) as (s & Hs & ?). rewrite Hs. cbn. split_and!.
  - destruct (ok_setup _ Hf) as (env & _ & _ & [[_ ?]|(_ & _ & _ & ? & ?)]); auto.
  - by destruct (ok_score_version _ Hf) as [E|[E|E]]; rewrite E.
  - done.
  - lia.
  - lia.
  - destruct (rq_RestartsSinceLastSubmit req) eqn:E; cbn; [by apply (ok_restarts _ Hf) in E as []|done].
  - destruct (rq_RestartsSinceLastSubmit req) eqn:E; cbn; [by apply (ok_restarts _ Hf) in E as []|done].
  - by apply gunzip_gzip.
Qed.
End facts.

(** A match's settings are always ingestible.  A run played under settings the
    room accepted carries one size within the ingest bounds, or, on a quote, a
    source that names it. *)
Theorem settings_dimensions_ingestible (s : Settings) :
  ValidateSettings s = None ->
  if Mode s =s? ModeQuote then Kind (TextSource s) = TextSourceQuote
  else one_dimension (if Mode s =s? ModeTime then Some (DurationMs s) else None)
         (if Mode s =s? ModeTime then None else Some (WordCount s)).
Proof.
  intros (_ & _ & Hd & _ & Hq & _)%ValidateSettings_ok. unfold one_dimension.
  destruct (String.eqb_spec (Mode s) ModeQuote) as [E|Hne]; [by apply Hq|].
  destruct (String.eqb_spec (Mode s) ModeTime) as [Ht|Ht].
  - left. destruct Hd as [[_ Hd]|[[Hw|Hw] _]]; [by exists (DurationMs s)|by rewrite Ht in Hw..].
  - right. destruct Hd as [[? _]|[_ Hd]]; [done|]. by exists (WordCount s).
Qed.

(** ** Witnesses *)

(** A one-event log and a compressor that knows logs of that shape. *)
Definition tinyLog (len : Z) : RawMessage :=
  {| raw_len := len;
     raw_val := JObj [("version", JNum "1"); ("events", JArr [JObj [("seq", JNum "0")]])] |}.

#[export] Instance tinyGzip : Gzip := {
  gzipLog raw :=
    match raw_val raw with
    | JObj [(a, JNum b); (c, JArr [JObj [(d, JNum e)]])] =>
      if (a =s? "version") && (b =s? "1") && (c =s? "events") && (d =s? "seq") && (e =s? "0")
      then Some [raw_len raw] else None
    | _ => None
    end;
  gunzipLog gz := match gz with [n] => Some (tinyLog n) | _ => None end }.

#[export] Instance tinyGzip_laws : GzipLaws.
Proof.
  constructor. intros [n j] gz. cbn.
  repeat (case_match; try done). bool_to_prop. subst. by intros [= <-].
Qed.

Definition tinyReq : ingestRequest :=
  {| rq_Mode := "time"; rq_DurationMs := Some 15000; rq_WordCount := None; rq_Lang := "en";
     rq_Seed := Some 7; rq_DictHash := "abc";
     rq_Setup := Some {| raw_len := 2; raw_val := JObj [] |};
     rq_Log := Some (tinyLog 40);
     rq_ClientMetrics := Some {| raw_len := 2; raw_val := JObj [] |};
     rq_ClientScore := Some {| raw_len := 2; raw_val := JObj [] |};
     rq_ScoreVersion := Some 3; rq_RestartsSinceLastSubmit := None |}.

Lemma ingest_row_witness :
  exists p, @validateIngest uuid16_Uuid tinyGzip uuid_Nil tinyReq = inl p
    /\ gunzipLog (cp_Log p) = Some (tinyLog 40).
Proof.
  exists (@paramsOf uuid16_Uuid uuid_Nil tinyReq [40]).
  assert (@validateIngest uuid16_Uuid tinyGzip uuid_Nil tinyReq
    = inl (@paramsOf uuid16_Uuid uuid_Nil tinyReq [40])) as E by reflexivity.
  split; [exact E|]. exact (proj2 (proj2 (proj2 (proj2 (proj2
    (@ingest_row uuid16_Uuid tinyGzip tinyGzip_laws uuid_Nil tinyReq _ E)))))).
Defined.

Lemma settings_dimensions_ingestible_witness :
  one_dimension (Some (DurationMs (DefaultSettings "x"))) None.
Proof.
  exact (settings_dimensions_ingestible (DefaultSettings "x")
    (proj2 (ValidateSettings_ok _) (default_settings_ok "x"))).
Defined.
