(* ===== verification/Policy.v ===== *)
(** * internal/replay/policy: the judge behind replay's verdicts

    A judge turns the flags the core raised into a routing decision.  [Noop] is the
    open default; [reviewPolicy] is the one built under the anticheat tag.  Scores
    and weights are float64; sums round after every operation, as Go's do. *)

From S2P Require Import Prelude GoStd Json.
From Stdlib Require Import Strings.Ascii Floats.SpecFloat Sorting.Sorted.

Open Scope Z_scope.

Record Flag := { fl_Code : string; fl_Score : F64.f64; fl_Detail : string }.
Record RunMeta := { rm_DurationSec : F64.f64; rm_ScoreVersion : Z }.

(** [policy.Decision]: a judge's answer. *)
Record JudgeDecision := {
  jd_Suspicion : F64.f64;
  jd_NeedsReview : bool;
  jd_Reasons : list string;
  jd_Threshold : F64.f64;
  jd_UnknownFlags : list string }.

(** The interface [policy.Judge]. *)
Record Judge := {
  jg_Judge : list Flag -> RunMeta -> JudgeDecision;
  jg_Version : string }.

Definition VersionNone := "none".

Definition Noop : Judge := {|
  jg_Judge _ _ := {| jd_Suspicion := F64.zero; jd_NeedsReview := false; jd_Reasons := [];
                     jd_Threshold := F64.zero; jd_UnknownFlags := [] |};
  jg_Version := VersionNone |}.

Definition IsNoop (j : option Judge) : bool :=
  match j with None => true | Some j => jg_Version j =s? VersionNone end.

(** ** version.go *)

Definition ColumnNone : Z := 0.
Definition MaxInt16 : Z := 32767.

Inductive versionError := ErrVersionEmpty | ErrVersionNotDecimal (v : string) | ErrVersionRange (v : string).

Definition ParseVersion (v : string) : Z + versionError :=
  if v =s? VersionNone then inl ColumnNone
  else if v =s? "" then inr ErrVersionEmpty
  else
    match Strconv.Atoi v with
    | None => inr (ErrVersionNotDecimal v)
    | Some n => if (n <=? 0) || (MaxInt16 <? n) then inr (ErrVersionRange v) else inl (Int.int16 n)
    end.

(** ** review_anticheat.go *)

Definition currentVersion : Z := 4.

Definition FlagMultiGraphemeInsert := "multi-grapheme-insert".
Definition FlagPaste := "paste".
Definition FlagMinInterval := "min-interval".
Definition FlagUniformIntervals := "uniform-intervals".
Definition FlagZeroVariance := "zero-variance".
Definition FlagSuperhumanBurst := "superhuman-burst".
Definition FlagAfkHeavy := "afk-heavy".
Definition FlagTrailingAfk := "trailing-afk".
Definition FlagUnpairedKeyup := "unpaired-keyup".
Definition FlagCanaryGrapheme := "canary-grapheme".
Definition FlagCanaryCommit := "canary-commit".

Definition TelemetryOnlyFlags : list string := [FlagUnpairedKeyup].

Definition defaultFlagWeights : gmap string F64.f64 := list_to_map
  [(FlagZeroVariance, F64.of_dec 100 (-2));
   (FlagCanaryGrapheme, F64.of_dec 100 (-2));
   (FlagUniformIntervals, F64.of_dec 90 (-2));
   (FlagSuperhumanBurst, F64.of_dec 80 (-2));
   (FlagPaste, F64.of_dec 80 (-2));
   (FlagCanaryCommit, F64.of_dec 60 (-2));
   (FlagMultiGraphemeInsert, F64.of_dec 50 (-2));
   (FlagMinInterval, F64.of_dec 30 (-2));
   (FlagAfkHeavy, F64.of_dec 2 (-2));
   (FlagTrailingAfk, F64.of_dec 2 (-2));
   (FlagUnpairedKeyup, F64.of_dec 0 (-2))].

Definition defaultReviewThreshold : F64.f64 := F64.of_dec 1 0.
Definition defaultSustainedBurstSec : F64.f64 := F64.of_dec 10 0.

Definition ruleBotCadence := "bot_cadence".
Definition ruleSustainedSuperhuman := "sustained_superhuman".

Record reviewPolicy := {
  rp_version : Z;
  rp_weights : gmap string F64.f64;
  rp_reviewThreshold : F64.f64;
  rp_sustainedBurstSec : F64.f64 }.

(** provider.go *)
Record Config := {
  cf_FlagWeights : string;
  cf_ReviewThreshold : F64.f64;
  cf_SustainedBurstSec : F64.f64 }.

Definition Config_IsZero (c : Config) : bool :=
  (cf_FlagWeights c =s? "") && F64.eqb (cf_ReviewThreshold c) F64.zero
  && F64.eqb (cf_SustainedBurstSec c) F64.zero.

(** [strings.Cut] at a one-byte separator. *)
Fixpoint Cut (sep : ascii) (s : string) : option (string * string) :=
  match s with
  | EmptyString => None
  | String c s =>
    if Ascii.eqb c sep then Some (EmptyString, s)
    else match Cut sep s with
         | Some (a, b) => Some (String c a, b)
         | None => None
         end
  end.

Inductive weightError :=
| ErrNotCodeWeight (part : string)
| ErrUnknownCode (code : string)
| ErrWeightSyntax (code : string)
| ErrWeightNegative (code : string).

Section provide.
(** [strconv.ParseFloat(s, 64)]. *)
Context (ParseFloat : string -> option F64.f64).

Fixpoint applyParts (parts : list string) (weights : gmap string F64.f64)
    : gmap string F64.f64 + weightError :=
  match parts with
  | [] => inl weights
  | part :: parts =>
    let part := Strs.TrimSpace part in
    if part =s? "" then applyParts parts weights
    else
      match Cut "=" part with
      | None => inr (ErrNotCodeWeight part)
      | Some (code, raw) =>
        let code := Strs.TrimSpace code in
        match weights !! code with
        | None => inr (ErrUnknownCode code)
        | Some _ =>
          match ParseFloat (Strs.TrimSpace raw) with
          | None => inr (ErrWeightSyntax code)
          | Some w =>
            if F64.ltb w F64.zero then inr (ErrWeightNegative code)
            else applyParts parts (<[code := w]> weights)
          end
        end
      end
  end.

Definition applyWeightOverrides (spec : string) (p : reviewPolicy) : reviewPolicy + weightError :=
  match applyParts (Strs.Split "," spec) (rp_weights p) with
  | inl weights => inl {| rp_version := rp_version p; rp_weights := weights;
                          rp_reviewThreshold := rp_reviewThreshold p;
                          rp_sustainedBurstSec := rp_sustainedBurstSec p |}
  | inr err => inr err
  end.

(** [Provide], the policy itself. *)
Definition providePolicy (cfg : Config) : reviewPolicy + weightError :=
  applyWeightOverrides (cf_FlagWeights cfg)
    {| rp_version := currentVersion;
       rp_weights := defaultFlagWeights;
       rp_reviewThreshold := if F64.ltb F64.zero (cf_ReviewThreshold cfg)
                             then cf_ReviewThreshold cfg else defaultReviewThreshold;
       rp_sustainedBurstSec := if F64.ltb F64.zero (cf_SustainedBurstSec cfg)
                               then cf_SustainedBurstSec cfg else defaultSustainedBurstSec |}.
End provide.

(** The [Provide] of a build without the tag: the judge, and whether the operator
    is told that the knobs tune nothing. *)
Definition Provide_off (cfg : Config) : Judge * bool := (Noop, negb (Config_IsZero cfg)).

Definition suspicion (p : reviewPolicy) (flags : list Flag) : F64.f64 :=
  foldl (fun total f => F64.add total (F64.mul (default F64.zero (rp_weights p !! fl_Code f)) (fl_Score f)))
    F64.zero flags.

(** [sort.Strings]. *)
Fixpoint insertString (s : string) (l : list string) : list string :=
  match l with
  | [] => [s]
  | t :: l' => if Strs.str_ltb t s then t :: insertString s l' else s :: l
  end.
Definition sortStrings (l : list string) : list string := foldr insertString [] l.

(** [slices.Compact]: equal neighbours collapse. *)
Fixpoint Compact (l : list string) : list string :=
  match l with
  | [] => []
  | x :: l' =>
    match Compact l' with
    | [] => [x]
    | y :: r => if x =s? y then y :: r else x :: y :: r
    end
  end.

Definition unknownFlagCodes (p : reviewPolicy) (flags : list Flag) : list string :=
  Compact (sortStrings
    (fl_Code <$> filter (fun f => rp_weights p !! fl_Code f = None) flags)).

Definition present (flags : list Flag) (code : string) : bool :=
  existsb (fun f => fl_Code f =s? code) flags.

Definition combinations (p : reviewPolicy) (flags : list Flag) (meta : RunMeta) : list string :=
  (if present flags FlagUniformIntervals && present flags FlagZeroVariance
   then [ruleBotCadence] else [])
  ++ (if present flags FlagSuperhumanBurst && F64.leb (rp_sustainedBurstSec p) (rm_DurationSec meta)
      then [ruleSustainedSuperhuman] else []).

Definition forcesReview (rule : string) : bool := rule =s? ruleBotCadence.

Definition review (p : reviewPolicy) (flags : list Flag) (meta : RunMeta) : JudgeDecision :=
  let s := suspicion p flags in
  let reasons := combinations p flags meta in
  let forced := existsb forcesReview reasons in
  {| jd_Suspicion := s;
     jd_NeedsReview := forced || F64.leb (rp_reviewThreshold p) s;
     jd_Reasons := reasons;
     jd_Threshold := rp_reviewThreshold p;
     jd_UnknownFlags := unknownFlagCodes p flags |}.

Definition policyVersion (p : reviewPolicy) : string := Strconv.Itoa (rp_version p).

Definition reviewJudge (p : reviewPolicy) : Judge :=
  {| jg_Judge := review p; jg_Version := policyVersion p |}.

Definition defaultPolicy : reviewPolicy :=
  {| rp_version := currentVersion; rp_weights := defaultFlagWeights;
     rp_reviewThreshold := defaultReviewThreshold;
     rp_sustainedBurstSec := defaultSustainedBurstSec |}.

(** ** Lemmas *)

Lemma str_ltb_compare a b : Strs.str_ltb a b = true <-> String.compare a b = Lt.
Proof. unfold Strs.str_ltb. destruct (String.compare a b); naive_solver. Qed.

Lemma str_ltb_false a b : Strs.str_ltb a b = false -> a = b \/ String.compare b a = Lt.
Proof.
  unfold Strs.str_ltb. destruct (String.compare a b) eqn:E; [|done|].
  - intros _. left. by apply String.compare_eq_iff.
  - intros _. right. by rewrite String.compare_antisym, E.
Qed.

(** Bytewise before, or equal. *)
Definition str_le (a b : string) : Prop := a = b \/ String.compare a b = Lt.

#[export] Instance str_le_trans : Transitive str_le.
Proof.
  intros a b c [->|Hab] [->|Hbc]; unfold str_le; auto. right. by eapply string_lt_trans.
Qed.

Lemma insertString_perm s l : insertString s l ≡ₚ s :: l.
Proof.
  induction l as [|t l IH]; cbn; [done|]. destruct (Strs.str_ltb t s); [|done].
  rewrite IH. apply Permutation_swap.
Qed.

Lemma sortStrings_perm l : sortStrings l ≡ₚ l.
Proof. induction l as [|s l IH]; cbn; [done|]. by rewrite insertString_perm, IH. Qed.

Lemma insertString_sorted s l : StronglySorted str_le l -> StronglySorted str_le (insertString s l).
Proof.
  induction 1 as [|t l Hl IH Ht]; cbn; [by repeat constructor|].
  destruct (Strs.str_ltb t s) eqn:E.
  - constructor; [done|]. apply Forall_forall. intros x Hx.
    rewrite insertString_perm in Hx. apply elem_of_cons in Hx as [->|Hx].
    + right. by apply str_ltb_compare.
    + rewrite Forall_forall in Ht. by apply Ht.
  - assert (str_le s t) as Hst.
    { destruct (str_ltb_false _ _ E) as [->|?]; [by left|by right]. }
    constructor; [by constructor|]. constructor; [done|].
    eapply Forall_impl; [exact Ht|]. cbn. intros x Hx. by etransitivity.
Qed.

Lemma sortStrings_sorted l : StronglySorted str_le (sortStrings l).
Proof. induction l as [|s l IH]; cbn; [constructor|]. by apply insertString_sorted. Qed.

(** Compacting a sorted list makes it strictly sorted without losing anything. *)
Lemma Compact_spec l :
  StronglySorted str_le l ->
  StronglySorted (fun a b => String.compare a b = Lt) (Compact l) /\ (forall x, x ∈ Compact l <-> x ∈ l).
Proof.
  induction 1 as [|x l Hl [IHs IHe] Hx]; [split; [constructor|done]|]. cbn.
  destruct (Compact l) as [|y r] eqn:Hc.
  { split; [by repeat constructor|]. intros z. rewrite !elem_of_cons. specialize (IHe z). naive_solver. }
  destruct (String.eqb_spec x y) as [->|Hne].
  - split; [done|]. intros z. rewrite IHe, elem_of_cons. specialize (IHe y). set_solver.
  - split.
    + constructor; [done|]. inversion IHs as [|? ? Hr Hy]; subst.
      assert (String.compare x y = Lt) as Hxy.
      { rewrite Forall_forall in Hx. destruct (Hx y) as [?|?]; [|done|done].
        apply IHe. by left. }
      constructor; [done|]. eapply Forall_impl; [exact Hy|]. cbn. intros z Hz.
      by eapply string_lt_trans.
    + intros z. split; (intros [->|Hz]%elem_of_cons; [by left|right; by apply IHe]).
Qed.

Lemma present_spec flags code : present flags code = true <-> exists f, f ∈ flags /\ fl_Code f = code.
Proof.
  unfold present. rewrite existsb_exists. split; intros (f & Hf & Hc).
  - exists f. rewrite list_elem_of_In. split; [done|]. by apply String.eqb_eq.
  - exists f. rewrite list_elem_of_In in Hf. split; [done|]. by apply String.eqb_eq.
Qed.

(** ** Zeroes in a sum

    Adding a zero changes a float by at most the sign of a zero, which no
    comparison sees. *)

Definition sim (a b : F64.f64) : Prop :=
  a = b \/ exists s t, a = S754_zero s /\ b = S754_zero t.

Lemma sim_add_zero a s : sim (F64.add a (S754_zero s)) a.
Proof. destruct a as [[]|[]| |]; destruct s; cbn; unfold sim; eauto. Qed.

Lemma sim_add a b y : sim a b -> sim (F64.add a y) (F64.add b y).
Proof.
  intros [->|(s & t & -> & ->)]; [by left|].
  destruct y as [z| | |]; [|by left..]. right. destruct s, t, z; cbn; eauto.
Qed.

#[export] Instance sim_refl : Reflexive sim.
Proof. by left. Qed.
#[export] Instance sim_trans : Transitive sim.
Proof. intros a b c [->|(s & t & -> & ->)] [<-|(s' & t' & E & ->)]; unfold sim; eauto 10. Qed.

Lemma sim_leb x a b : sim a b -> F64.leb x a = F64.leb x b.
Proof. intros [->|(s & t & -> & ->)]; [done|]. by destruct x. Qed.

Definition finite (x : F64.f64) : Prop :=
  match x with S754_zero _ | S754_finite _ _ _ => True | _ => False end.

Lemma mul_zero x : finite x -> exists s, F64.mul F64.zero x = S754_zero s.
Proof. destruct x; cbn; [eauto|done|done|eauto]. Qed.

Definition flag_term (p : reviewPolicy) (f : Flag) : F64.f64 :=
  F64.mul (default F64.zero (rp_weights p !! fl_Code f)) (fl_Score f).

(** The codes a policy gives no weight at all. *)
Definition weightless (p : reviewPolicy) (f : Flag) : Prop :=
  rp_weights p !! fl_Code f = Some F64.zero /\ finite (fl_Score f).

Lemma weightless_term p f : weightless p f -> exists s, flag_term p f = S754_zero s.
Proof. intros [Hz Hf]. unfold flag_term. rewrite Hz. exact (mul_zero _ Hf). Qed.

Lemma suspicion_filter p (keep : Flag -> bool) flags a b :
  (forall f, f ∈ flags -> keep f = false -> weightless p f) -> sim a b ->
  sim (foldl (fun t f => F64.add t (flag_term p f)) a flags)
      (foldl (fun t f => F64.add t (flag_term p f)) b (List.filter keep flags)).
Proof.
  revert a b. induction flags as [|f flags IH]; intros a b Hw Hs; cbn; [done|].
  destruct (keep f) eqn:Hk; cbn.
  - apply IH; [set_solver|by apply sim_add].
  - apply IH; [set_solver|].
    destruct (weightless_term p f) as [s ->]; [apply Hw; [by left|done]|]. etransitivity; [apply sim_add_zero|done].
Qed.

(** ** The properties *)

(** What the judge routes to review.  A run goes to review exactly when the
    machine-cadence shape is present or its weighted suspicion reaches the
    threshold; a sustained superhuman speed is recorded as a reason but, below the
    threshold, never routes by itself; and every code without a weight is
    surfaced, once and in order. *)
Theorem review_spec (p : reviewPolicy) (flags : list Flag) (meta : RunMeta) :
  let d := review p flags meta in
  let has code := exists f, f ∈ flags /\ fl_Code f = code in
  (jd_NeedsReview d = true <->
    (has FlagUniformIntervals /\ has FlagZeroVariance)
    \/ F64.leb (rp_reviewThreshold p) (suspicion p flags) = true)
  /\ (jd_Reasons d = [ruleSustainedSuperhuman] -> F64.leb (rp_reviewThreshold p) (suspicion p flags) = false ->
      jd_NeedsReview d = false)
  /\ StronglySorted (fun a b => String.compare a b = Lt) (jd_UnknownFlags d)
  /\ (forall code, code ∈ jd_UnknownFlags d <-> has code /\ rp_weights p !! code = None).
Proof.
  cbv zeta. unfold review. cbn [jd_NeedsReview jd_Reasons jd_UnknownFlags]. unfold unknownFlagCodes.
  destruct (Compact_spec _ (sortStrings_sorted (fl_Code <$> filter (fun f => rp_weights p !! fl_Code f = None) flags)))
    as [Hs Hin].
  split_and!; [| |done|].
  - rewrite orb_true_iff. apply or_iff_compat_r. rewrite <- !present_spec, <- andb_true_iff.
    unfold combinations. destruct (present _ _ && present _ _), (present _ FlagSuperhumanBurst && _); cbn; by split.
  - intros Hr Hl. unfold combinations in *. rewrite Hl, orb_false_r.
    destruct (present _ FlagUniformIntervals && _); [done|].
    by destruct (present _ FlagSuperhumanBurst && _).
  - intros code. rewrite Hin, sortStrings_perm, list_elem_of_fmap. split.
    + intros (f & -> & [Hn Hf]%list_elem_of_filter). eauto.
    + intros [(f & Hf & <-) Hn]. exists f. split; [done|]. by apply list_elem_of_filter.
Qed.

(** A flag without weight decides nothing.  Dropping any of the flags a policy
    gives weight zero, as long as it is not part of a shape, changes neither
    whether a run is routed to review nor the reasons recorded. *)
Theorem weightless_flags_inert (p : reviewPolicy) (flags : list Flag) (meta : RunMeta)
    (keep : Flag -> bool) :
  (forall f, f ∈ flags -> keep f = false ->
    weightless p f /\ fl_Code f ∉ [FlagUniformIntervals; FlagZeroVariance; FlagSuperhumanBurst]) ->
  let d := review p flags meta in
  let d' := review p (List.filter keep flags) meta in
  jd_NeedsReview d' = jd_NeedsReview d /\ jd_Reasons d' = jd_Reasons d.
Proof.
  intros Hw. cbv zeta. unfold review. cbn [jd_NeedsReview jd_Reasons].
  assert (forall code, code ∈ [FlagUniformIntervals; FlagZeroVariance; FlagSuperhumanBurst] ->
    present (List.filter keep flags) code = present flags code) as Hp.
  { intros code Hc. apply eq_true_iff_eq. rewrite !present_spec.
    split; intros (f & Hf & <-); exists f; (split; [|done]).
    - apply list_elem_of_In, filter_In in Hf as [Hf _]. by apply list_elem_of_In.
    - apply list_elem_of_In, filter_In. split; [by apply list_elem_of_In|].
      destruct (keep f) eqn:E; [done|]. by destruct (Hw f Hf E) as [_ []]. }
  assert (combinations p (List.filter keep flags) meta = combinations p flags meta) as ->.
  { unfold combinations. rewrite !Hp; [done|set_solver..]. }
  split; [|done]. f_equal. apply sim_leb.
  assert (sim (suspicion p flags) (suspicion p (List.filter keep flags))) as Hs.
  { apply (suspicion_filter p keep); [|done]. intros f Hf E. by apply Hw. }
  destruct Hs as [<-|(s & t & -> & ->)]; [done|]. right. eauto.
Qed.

(** The version column.  A judge's version is stored as 0 for a judge that does
    not judge and as a number from 1 to 32767 otherwise; every such number is the
    version of some judge. *)
Theorem version_column (v : string) (n : Z) :
  (ParseVersion v = inl n -> 0 <= n <= 32767 /\ (n = ColumnNone <-> v = VersionNone))
  /\ (1 <= n <= 32767 -> ParseVersion (Strconv.Itoa n) = inl n).
Proof.
  split.
  - unfold ParseVersion, ColumnNone. destruct (String.eqb_spec v VersionNone) as [->|Hv].
    { intros [= <-]. split; [lia|done]. }
    destruct (v =s? ""); [done|]. destruct (Strconv.Atoi v) as [k|]; [|done].
    destruct (_ || _) eqn:E; [done|]. intros [= <-]. unfold MaxInt16 in E.
    assert (Int.int16 k = k) as -> by (apply Int.wrap_id; unfold Int.in_range; lia).
    split; [lia|]. split; [lia|done].
  - intros Hn. unfold ParseVersion.
    assert (Strconv.Atoi (Strconv.Itoa n) = Some n) as Ha by (apply Strconv.Atoi_Itoa; lia).
    destruct (String.eqb_spec (Strconv.Itoa n) VersionNone) as [E|_]; [by rewrite E in Ha|].
    destruct (String.eqb_spec (Strconv.Itoa n) "") as [E|_]; [by rewrite E in Ha|].
    rewrite Ha. replace ((n <=? 0) || (MaxInt16 <? n)) with false by (unfold MaxInt16; lia).
    f_equal. apply Int.wrap_id; unfold Int.in_range; lia.
Qed.

(** What the operator's tuning can do to the table of weights. *)
Record weights_ok (weights : gmap string F64.f64) : Prop := {
  wo_codes : dom weights = dom defaultFlagWeights;
  wo_weights : forall code w, weights !! code = Some w -> F64.ltb w F64.zero = false }.

Lemma applyParts_ok ParseFloat parts weights weights' :
  weights_ok weights -> applyParts ParseFloat parts weights = inl weights' -> weights_ok weights'.
Proof.
  revert weights. induction parts as [|part parts IH]; intros weights Hw; cbn; [by intros [= <-]|].
  destruct (Strs.TrimSpace part =s? ""); [by apply IH|].
  destruct (Cut "=" (Strs.TrimSpace part)) as [[code raw]|]; [|done].
  destruct (weights !! Strs.TrimSpace code) as [w0|] eqn:Hc; [|done].
  destruct (ParseFloat (Strs.TrimSpace raw)) as [w|]; [|done].
  destruct (F64.ltb w F64.zero) eqn:Hneg; [done|]. apply IH. destruct Hw as [Hd Hnn]. constructor.
  - rewrite dom_insert_L, <- Hd. apply elem_of_dom_2 in Hc. set_solver.
  - intros c w' [[_ <-]|[_ Hl]]%lookup_insert_Some; [done|by eapply Hnn].
Qed.

Lemma defaultFlagWeights_ok : weights_ok defaultFlagWeights.
Proof.
  constructor; [done|]. apply (map_Forall_lookup (fun _ w => F64.ltb w F64.zero = false)).
  apply (bool_decide_unpack _). by vm_compute.
Qed.

(** Tuning cannot break the table.  Whatever overrides the operator gives, a
    policy that starts knows exactly the codes of the default table, none with a
    negative weight, and a threshold that is either the default or positive. *)
Theorem tuned_policy_ok (ParseFloat : string -> option F64.f64) (cfg : Config) (p : reviewPolicy) :
  providePolicy ParseFloat cfg = inl p ->
  weights_ok (rp_weights p) /\ rp_version p = currentVersion
  /\ (rp_reviewThreshold p = defaultReviewThreshold \/ F64.ltb F64.zero (rp_reviewThreshold p) = true).
Proof.
  unfold providePolicy, applyWeightOverrides. cbn.
  destruct (applyParts _ _ _) as [weights|] eqn:E; [|done]. intros [= <-]. cbn. split_and!; [|done|].
  - eapply applyParts_ok; [|exact E]. apply defaultFlagWeights_ok.
  - destruct (F64.ltb F64.zero (cf_ReviewThreshold cfg)) eqn:Ht; auto.
Qed.

(** ** Witnesses *)

Definition keyupFlag : Flag :=
  {| fl_Code := FlagUnpairedKeyup; fl_Score := F64.of_dec 7 (-1); fl_Detail := "" |}.
Definition burstFlag : Flag :=
  {| fl_Code := FlagSuperhumanBurst; fl_Score := F64.of_dec 65 (-2); fl_Detail := "336 wpm" |}.
Definition minuteRun : RunMeta := {| rm_DurationSec := F64.of_dec 60 0; rm_ScoreVersion := 3 |}.

Example fast_minute_not_reviewed :
  jd_NeedsReview (review defaultPolicy [burstFlag] minuteRun) = false
  /\ jd_Reasons (review defaultPolicy [burstFlag] minuteRun) = [ruleSustainedSuperhuman].
Proof. by vm_compute. Qed.

Lemma weightless_flags_inert_witness :
  jd_NeedsReview (review defaultPolicy [burstFlag] minuteRun)
  = jd_NeedsReview (review defaultPolicy [keyupFlag; burstFlag] minuteRun).
Proof.
  refine (proj1 (weightless_flags_inert defaultPolicy [keyupFlag; burstFlag] minuteRun
    (fun f => negb (fl_Code f =s? FlagUnpairedKeyup)) _)).
  intros f Hf Hk. apply negb_false_iff, String.eqb_eq in Hk.
  apply elem_of_cons in Hf as [->|Hf].
  - split; [split; by vm_compute|]. apply (bool_decide_unpack _). by vm_compute.
  - apply elem_of_cons in Hf as [->|Hf]; [discriminate Hk|by apply elem_of_nil in Hf].
Defined.

Lemma version_column_witness : ParseVersion "4" = inl 4.
Proof. apply (version_column "" 4). lia. Defined.

Lemma tuned_policy_ok_witness :
  exists p, providePolicy Json.parse_float
    {| cf_FlagWeights := "paste=0.5, min-interval = 0.25"; cf_ReviewThreshold := F64.zero;
       cf_SustainedBurstSec := F64.zero |} = inl p
  /\ rp_weights p !! FlagPaste = Some (F64.of_dec 5 (-1)) /\ weights_ok (rp_weights p).
Proof.
  eexists. split; [vm_compute; reflexivity|]. split; [by vm_compute|].
  refine (proj1 (tuned_policy_ok Json.parse_float
    {| cf_FlagWeights := "paste=0.5, min-interval = 0.25"; cf_ReviewThreshold := F64.zero;
       cf_SustainedBurstSec := F64.zero |} _ _)). vm_compute. reflexivity.
Defined.
