(* ===== verification/Core.v ===== *)
(** * internal/replay/core.go: one run through the vendored game core

    The game core is a JavaScript bundle run by an engine that is not part of the
    repository: its exports are parameters ([GameCore]) on plain JSON objects, and
    a call of one returns a value, throws, or is interrupted.  What the Go code
    does around them, which object it assembles and which answers it accepts, is
    modelled in full. *)

From S2P Require Import Prelude GoStd Json Policy.

Open Scope Z_scope.

(** ** What went wrong, as the decision path tells it apart *)

Inductive replayError :=
| ErrUnknownDict
| ErrUnknownQuote (detail : string)
| ErrReplayTimeout
| ErrReplay (detail : string).

(** ** JavaScript values crossing the boundary *)

(** Property lookup: the exact name, and of repeated members the last one. *)
Definition js_get (k : string) (o : json) : option json :=
  match o with
  | JObj m => snd <$> find_first (fun kv => kv.1 =s? k) (rev m)
  | _ => None
  end.

(** Assignment of a property: in place if it is there, else at the end. *)
Fixpoint set_member (k : string) (v : json) (m : list (string * json)) : list (string * json) :=
  match m with
  | [] => [(k, v)]
  | (a, b) :: m =>
    if a =s? k then (k, v) :: filter (fun kv => kv.1 <> k) m else (a, b) :: set_member k v m
  end.

Definition js_set (k : string) (v : json) (o : json) : option json :=
  match o with JObj m => Some (JObj (set_member k v m)) | _ => None end.

Definition is_object (o : json) : bool := match o with JObj _ => true | _ => false end.

(** How a call ends: [None] is [undefined]. *)
Inductive callResult (A : Type) :=
| Returned (v : A)
| Threw (message : string)
| Interrupted.
Arguments Returned {A}. Arguments Threw {A}. Arguments Interrupted {A}.

(** A neverthrow [Result]. *)
Inductive jsResult :=
| JsOk (value : option json)
| JsErr (kind message : string)
| JsOther.

Class GameCore := {
  bundleSHA : string;
  js_parse_dictionary : list Z -> callResult json;
  js_parse_input : json -> callResult json;
  js_validateLog : json -> callResult jsResult;
  js_generateWords : json -> json -> callResult jsResult;
  js_scoreOfLog : option json -> json -> callResult (option json);
  js_scoreV2OfLog : option json -> json -> option json -> callResult (option json);
  js_scoreV3OfLog : option json -> json -> option json -> callResult (option json);
  js_charObservationsOf : json -> option json -> callResult (option json) }.

(** Parsing the assembled document gives the document. *)
Class GameCoreLaws `{GameCore} := {
  parse_input_value doc v : js_parse_input doc = Returned v -> v = doc }.

(** ** The pieces of core.go *)

Record QuoteText := { qt_Text : string; qt_Hash : string }.

Record Input := {
  in_Seed : Z;
  in_DictHash : string;
  in_DictBody : list Z;
  in_Quote : option QuoteText;
  in_Setup : json;
  in_Log : json;
  in_ScoreVersion : Z;
  in_CanariesArmed : bool }.

Record CharObservation := {
  co_Char : string; co_Presses : Z; co_Errors : Z; co_IntervalSumMs : F64.f64; co_IntervalCount : Z }.

Record Result := {
  rs_Verdict : string;
  rs_Reason : string;
  rs_Flags : list Flag;
  rs_Metrics : option json;
  rs_Score : option json;
  rs_CharObservations : list CharObservation }.

Definition verdictValid := "valid".
Definition verdictInvalid := "invalid".
Definition verdictError := "error".

Definition scoreVersionV1 : Z := 1.
Definition scoreVersionV2 : Z := 2.
Definition scoreVersionV3 : Z := 3.

Definition TextSourceQuote := "quote".

Record setupParts := {
  sp_Config : option json; sp_Generation : option json; sp_Declaration : option json }.

Definition dec_setupParts : Json.decoder setupParts :=
  Json.dec_struct ["config"; "generation"; "declaration"] (fun f =>
    if f =s? "config" then
      Json.field sp_Config (fun v s => {| sp_Config := v; sp_Generation := sp_Generation s;
        sp_Declaration := sp_Declaration s |}) Json.dec_raw
    else if f =s? "generation" then
      Json.field sp_Generation (fun v s => {| sp_Config := sp_Config s; sp_Generation := v;
        sp_Declaration := sp_Declaration s |}) Json.dec_raw
    else
      Json.field sp_Declaration (fun v s => {| sp_Config := sp_Config s;
        sp_Generation := sp_Generation s; sp_Declaration := v |}) Json.dec_raw).

Definition dec_Flag : Json.decoder Flag :=
  Json.dec_struct ["code"; "score"; "detail"] (fun f =>
    if f =s? "code" then
      Json.field fl_Code (fun v x => {| fl_Code := v; fl_Score := fl_Score x; fl_Detail := fl_Detail x |})
        Json.dec_string
    else if f =s? "score" then
      Json.field fl_Score (fun v x => {| fl_Code := fl_Code x; fl_Score := v; fl_Detail := fl_Detail x |})
        Json.dec_float
    else
      Json.field fl_Detail (fun v x => {| fl_Code := fl_Code x; fl_Score := fl_Score x; fl_Detail := v |})
        Json.dec_string).

Definition zero_Flag : Flag := {| fl_Code := ""; fl_Score := F64.zero; fl_Detail := "" |}.
Definition zero_Result : Result :=
  {| rs_Verdict := ""; rs_Reason := ""; rs_Flags := []; rs_Metrics := None; rs_Score := None;
     rs_CharObservations := [] |}.

(** The fields of [Result] with a JSON name; the rest are tagged "-". *)
Definition dec_Result : Json.decoder Result :=
  Json.dec_struct ["verdict"; "reason"; "flags"] (fun f =>
    let put v r fs x := {| rs_Verdict := v; rs_Reason := r; rs_Flags := fs; rs_Metrics := rs_Metrics x;
      rs_Score := rs_Score x; rs_CharObservations := rs_CharObservations x |} in
    if f =s? "verdict" then
      Json.field rs_Verdict (fun v x => put v (rs_Reason x) (rs_Flags x) x) Json.dec_string
    else if f =s? "reason" then
      Json.field rs_Reason (fun v x => put (rs_Verdict x) v (rs_Flags x) x) Json.dec_string
    else
      Json.field rs_Flags (fun v x => put (rs_Verdict x) (rs_Reason x) v x)
        (Json.dec_list dec_Flag zero_Flag)).

Definition zero_CharObservation : CharObservation :=
  {| co_Char := ""; co_Presses := 0; co_Errors := 0; co_IntervalSumMs := F64.zero;
     co_IntervalCount := 0 |}.

Definition dec_CharObservation : Json.decoder CharObservation :=
  Json.dec_struct ["char"; "presses"; "errors"; "intervalSumMs"; "intervalCount"] (fun f =>
    let put c p e s n := {| co_Char := c; co_Presses := p; co_Errors := e; co_IntervalSumMs := s;
                            co_IntervalCount := n |} in
    if f =s? "char" then
      Json.field co_Char (fun v x => put v (co_Presses x) (co_Errors x) (co_IntervalSumMs x)
        (co_IntervalCount x)) Json.dec_string
    else if f =s? "presses" then
      Json.field co_Presses (fun v x => put (co_Char x) v (co_Errors x) (co_IntervalSumMs x)
        (co_IntervalCount x)) (Json.dec_int 64)
    else if f =s? "errors" then
      Json.field co_Errors (fun v x => put (co_Char x) (co_Presses x) v (co_IntervalSumMs x)
        (co_IntervalCount x)) (Json.dec_int 64)
    else if f =s? "intervalSumMs" then
      Json.field co_IntervalSumMs (fun v x => put (co_Char x) (co_Presses x) (co_Errors x) v
        (co_IntervalCount x)) Json.dec_float
    else
      Json.field co_IntervalCount (fun v x => put (co_Char x) (co_Presses x) (co_Errors x)
        (co_IntervalSumMs x) v) (Json.dec_int 64)).

(** An answer or an error. *)
Definition M (A : Type) : Type := A + replayError.
Definition bindM {A B} (m : M A) (k : A -> M B) : M B :=
  match m with inl a => k a | inr e => inr e end.
Notation "'let?' x := m 'in' k" := (bindM m (fun x => k))
  (at level 200, x pattern, m at level 100, k at level 200) : typemore_scope.

Definition failM {A} (message : string) : M A := inr (ErrReplay message).

(** [callOn] around a call. *)
Definition callOn {A} (r : callResult A) : M A :=
  match r with
  | Returned v => inl v
  | Threw message => failM ("replay: core threw: " +:+ message)
  | Interrupted => inr ErrReplayTimeout
  end.

(** [stringifyJSON]. *)
Definition stringifyJSON (v : option json) : M json :=
  match v with
  | None => failM "replay: core returned a non-serialisable value"
  | Some j => inl j
  end.

Definition unwrapResult (r : jsResult) : M (option json) :=
  match r with
  | JsOk v => inl v
  | JsErr kind message => failM ("replay: core error " +:+ kind +:+ ": " +:+ message)
  | JsOther => failM "replay: value is not a neverthrow Result (no isErr)"
  end.

(** A property that must hold an object. *)
Definition objectAt (k : string) (o : json) (message : string) : M json :=
  match js_get k o with
  | Some v => if is_object v then inl v else failM message
  | None => failM message
  end.

Definition setJS (k : string) (v : json) (o : json) : M json :=
  match js_set k v o with Some o => inl o | None => failM "replay: not an object" end.

(** The quote stand-in: a name and no words. *)
Definition quoteDict : json := JObj [("name", JStr "quote"); ("words", JArr [])].

(** A property copied onto a fresh object: [undefined] leaves nothing to see. *)
Definition member (k : string) (v : option json) : list (string * json) :=
  match v with Some v => [(k, v)] | None => [] end.

(** The parsed dictionaries a runtime keeps, by hash. *)
Notation dictCache := (gmap string json).

Section core.
Context `{GameCore}.

Definition dictionaryValue (dictHash : string) (body : list Z) (dicts : dictCache)
    : M (json * dictCache) :=
  match dicts !! dictHash with
  | Some v => inl (v, dicts)
  | None =>
    let? v := callOn (js_parse_dictionary body) in
    inl (v, <[dictHash := v]> dicts)
  end.

(** The document handed to the engine's [JSON.parse]. *)
Definition inputDoc (input : Input) (dictVersion : string) (setup : setupParts)
    (config generation : json) : json :=
  JObj [("seed", JNum (Strconv.Itoa (in_Seed input)));
        ("dictVersion", JStr dictVersion);
        ("configSnapshot", JObj [("config", config); ("generation", generation)]);
        ("declaration", default (JObj []) (sp_Declaration setup));
        ("log", in_Log input);
        ("canariesArmed", JBool (in_CanariesArmed input))].

Definition setQuoteText (input : json) (text : string) : M json :=
  let? snapshot := objectAt "configSnapshot" input "replay: configSnapshot is not an object" in
  let? generation := objectAt "generation" snapshot "replay: setup.generation is not an object" in
  let? source := objectAt "textSource" generation
                   "replay: setup.generation.textSource is not an object" in
  let? source := setJS "text" (JStr text) source in
  let? generation := setJS "textSource" source generation in
  let? snapshot := setJS "generation" generation snapshot in
  setJS "configSnapshot" snapshot input.

Definition validate (input : json) : M Result :=
  let? res := callOn (js_validateLog input) in
  let? value := unwrapResult res in
  match value with
  | Some report =>
    if is_object report then
      let? raw := stringifyJSON (Some report) in
      match Json.unmarshal dec_Result zero_Result raw with
      | None => failM "replay: decode validation report"
      | Some out =>
        if rs_Verdict out =s? verdictValid then
          let? metrics := stringifyJSON (js_get "metrics" report) in
          inl {| rs_Verdict := rs_Verdict out; rs_Reason := rs_Reason out; rs_Flags := rs_Flags out;
                 rs_Metrics := Some metrics; rs_Score := None; rs_CharObservations := [] |}
        else inl out
      end
    else failM "replay: validateLog returned a non-object report"
  | None => failM "replay: validateLog returned a non-object report"
  end.

(** What the words are regenerated from. *)
Definition seedContext (input snapshot : json) : json :=
  JObj (member "seed" (js_get "seed" input) ++ member "dictVersion" (js_get "dictVersion" input)
        ++ member "generation" (js_get "generation" snapshot)).

(** The words, as a value that never crosses into Go. *)
Definition generatedWords (input snapshot dictionary : json) : M (option json) :=
  let? generated := callOn (js_generateWords dictionary (seedContext input snapshot)) in
  let? value := unwrapResult generated in
  match value with
  | Some gen =>
    if is_object gen then inl (js_get "words" gen)
    else failM "replay: generateWords returned a non-object"
  | None => failM "replay: generateWords returned a non-object"
  end.

Definition score (input : json) (scoreVersion : Z) (dictionary : json) : M json :=
  let? snapshot := objectAt "configSnapshot" input "replay: configSnapshot is not an object" in
  let? words := generatedWords input snapshot dictionary in
  let? log := objectAt "log" input "replay: log is not an object" in
  let events := js_get "events" log in
  let base := member "config" (js_get "config" snapshot) ++ member "words" words in
  let setup := JObj base in
  let withGeneration := JObj (base ++ member "generation" (js_get "generation" snapshot)) in
  let? result :=
    if scoreVersion =? scoreVersionV1 then callOn (js_scoreOfLog events setup)
    else if scoreVersion =? scoreVersionV2
    then callOn (js_scoreV2OfLog events withGeneration (js_get "declaration" input))
    else if scoreVersion =? scoreVersionV3
    then callOn (js_scoreV3OfLog events withGeneration (js_get "declaration" input))
    else failM ("replay: unsupported score version " +:+ Strconv.Itoa scoreVersion) in
  stringifyJSON result.

Definition charObservations (input dictionary : json) : M (list CharObservation) :=
  let? snapshot := objectAt "configSnapshot" input "replay: configSnapshot is not an object" in
  let? words := generatedWords input snapshot dictionary in
  let? log := objectAt "log" input "replay: log is not an object" in
  let? rows := callOn (js_charObservationsOf
    (JObj (member "config" (js_get "config" snapshot) ++ member "words" words))
    (js_get "events" log)) in
  let? raw := stringifyJSON rows in
  match Json.unmarshal (Json.dec_list dec_CharObservation zero_CharObservation) [] raw with
  | Some out => inl out
  | None => failM "replay: decode char observations"
  end.

Definition zero_setupParts : setupParts :=
  {| sp_Config := None; sp_Generation := None; sp_Declaration := None |}.

(** The object the core judges, and the dictionary it regenerates words from. *)
Definition assemble (input : Input) (dicts : dictCache) : M (json * json * dictCache) :=
  match Json.unmarshal dec_setupParts zero_setupParts (in_Setup input) with
  | None => failM "replay: setup is not an object"
  | Some setup =>
    match sp_Config setup, sp_Generation setup with
    | Some config, Some generation =>
      let? (dictionary, dictVersion, dicts) :=
        match in_Quote input with
        | Some q => inl (quoteDict, qt_Hash q, dicts)
        | None =>
          let? (v, dicts) := dictionaryValue (in_DictHash input) (in_DictBody input) dicts in
          inl (v, in_DictHash input, dicts)
        end in
      let? parsed := callOn (js_parse_input (inputDoc input dictVersion setup config generation)) in
      if is_object parsed then
        let? obj := setJS "dictionary" dictionary parsed in
        match in_Quote input with
        | Some q => let? obj := setQuoteText obj (qt_Text q) in inl (obj, dictionary, dicts)
        | None => inl (obj, dictionary, dicts)
        end
      else failM "replay: assembled input did not parse to an object"
    | _, _ => failM "replay: setup is missing config or generation"
    end
  end.

Definition Replay (input : Input) (dicts : dictCache) : M Result :=
  let? (obj, dictionary, _) := assemble input dicts in
  let? report := validate obj in
  if negb (rs_Verdict report =s? verdictValid) then inl report
  else
    let? sc := score obj (in_ScoreVersion input) dictionary in
    let? observations := charObservations obj dictionary in
    inl {| rs_Verdict := rs_Verdict report; rs_Reason := rs_Reason report; rs_Flags := rs_Flags report;
           rs_Metrics := rs_Metrics report; rs_Score := Some sc; rs_CharObservations := observations |}.

(** What the runtime has cached afterwards, however the call ended. *)
Definition cacheAfter (input : Input) (dicts : dictCache) : dictCache :=
  match Json.unmarshal dec_setupParts zero_setupParts (in_Setup input), in_Quote input with
  | Some {| sp_Config := Some _; sp_Generation := Some _ |}, None =>
    match dictionaryValue (in_DictHash input) (in_DictBody input) dicts with
    | inl (_, dicts) => dicts
    | inr _ => dicts
    end
  | _, _ => dicts
  end.

(** ** Lemmas *)

Lemma bind_inl {A B} (m : M A) (k : A -> M B) b :
  bindM m k = inl b -> exists a, m = inl a /\ k a = inl b.
Proof. destruct m as [a|e]; cbn; [by exists a|done]. Qed.

Lemma find_rev_filter (k : string) (m : list (string * json)) :
  find_first (fun kv => kv.1 =s? k) (rev (filter (fun kv => kv.1 <> k) m)) = None.
Proof.
  destruct (find_first _ _) as [kv|] eqn:Hf; [|done].
  apply find_first_Some in Hf as [Hin Hk]. bool_to_prop.
  apply list_elem_of_In, in_rev, list_elem_of_In, list_elem_of_filter in Hin as [? _]. done.
Qed.

Lemma find_first_app {A} (p : A -> bool) l1 l2 :
  find_first p (l1 ++ l2) = match find_first p l1 with Some x => Some x | None => find_first p l2 end.
Proof. induction l1 as [|x l1 IH]; cbn; [done|]. by destruct (p x). Qed.

(** What was assigned is read back, and nothing else moves. *)
Lemma js_get_set k v o o' : js_set k v o = Some o' -> js_get k o' = Some v.
Proof.
  destruct o as [| | | | |m]; try done. intros [= <-]. cbn.
  assert (find_first (fun kv => kv.1 =s? k) (rev (set_member k v m)) = Some (k, v)) as ->; [|done].
  induction m as [|[a b] m IH]; cbn; [by rewrite String.eqb_refl|].
  destruct (String.eqb_spec a k) as [->|Hne]; cbn; rewrite find_first_app.
  - rewrite find_rev_filter. cbn. by rewrite String.eqb_refl.
  - by rewrite IH.
Qed.

Lemma find_rev_filter_ne (k k' : string) (m : list (string * json)) :
  k' <> k ->
  find_first (fun kv => kv.1 =s? k') (rev (filter (fun kv => kv.1 <> k) m))
  = find_first (fun kv => kv.1 =s? k') (rev m).
Proof.
  intros Hne. induction m as [|[a b] m IH]; [done|]. rewrite filter_cons. cbn [fst].
  case_decide as Ha; cbn [rev]; rewrite !find_first_app, IH; [done|].
  assert (a = k) as -> by (by destruct (decide (a = k))).
  destruct (find_first _ (rev m)); [done|]. cbn.
  by rewrite (proj2 (String.eqb_neq _ _)).
Qed.

Lemma js_get_set_ne k k' v o o' : k' <> k -> js_set k v o = Some o' -> js_get k' o' = js_get k' o.
Proof.
  intros Hne. destruct o as [| | | | |m]; try done. intros [= <-]. cbn. f_equal.
  induction m as [|[a b] m IH]; cbn; [by rewrite (proj2 (String.eqb_neq _ _))|].
  destruct (String.eqb_spec a k) as [->|Ha]; cbn; rewrite !find_first_app.
  - rewrite find_rev_filter_ne by done. destruct (find_first _ (rev m)); [done|]. cbn.
    by rewrite (proj2 (String.eqb_neq _ _)).
  - by rewrite IH.
Qed.

Lemma setJS_get k v o o' : setJS k v o = inl o' -> js_get k o' = Some v.
Proof. unfold setJS. destruct (js_set k v o) eqn:E; [|done]. intros [= <-]. by eapply js_get_set. Qed.
Lemma setJS_get_ne k k' v o o' : k' <> k -> setJS k v o = inl o' -> js_get k' o' = js_get k' o.
Proof.
  unfold setJS. intros Hne. destruct (js_set k v o) eqn:E; [|done]. intros [= <-].
  by eapply js_get_set_ne.
Qed.

Lemma objectAt_get k o msg v : objectAt k o msg = inl v -> js_get k o = Some v.
Proof. unfold objectAt. repeat case_match; intros; by simplify_eq. Qed.

(** Follow a path of property names. *)
Definition js_path (path : list string) (o : json) : option json :=
  foldl (fun o k => o ≫= js_get k) (Some o) path.

Definition generationPath : list string := ["configSnapshot"; "generation"].
Definition textPath : list string := ["configSnapshot"; "generation"; "textSource"; "text"].

Lemma setQuoteText_path input text obj :
  setQuoteText input text = inl obj ->
  js_path textPath obj = Some (JStr text) /\ js_get "dictVersion" obj = js_get "dictVersion" input.
Proof.
  unfold setQuoteText.
  intros (snap & Hs & (gen & Hg & (src & Ht & (src' & H1 & (gen' & H2 & (snap' & H3 & H4)%bind_inl)%bind_inl)%bind_inl)%bind_inl)%bind_inl)%bind_inl.
  split; [|by eapply setJS_get_ne; [|exact H4]]. unfold js_path, textPath. cbn.
  rewrite (setJS_get _ _ _ _ H4). cbn. rewrite (setJS_get _ _ _ _ H3). cbn.
  rewrite (setJS_get _ _ _ _ H2). cbn. exact (setJS_get _ _ _ _ H1).
Qed.
End core.

(** The untagged fields of a decoded report stay empty. *)
Lemma dec_Result_untagged raw out :
  Json.unmarshal dec_Result zero_Result raw = Some out ->
  rs_Metrics out = None /\ rs_Score out = None /\ rs_CharObservations out = [].
Proof.
  apply (Json.dec_struct_keeps
    (fun r => rs_Metrics r = None /\ rs_Score r = None /\ rs_CharObservations r = [])); [|done].
  intros f x v y Hx. unfold Json.field.
  destruct (f =s? "verdict"); [|destruct (f =s? "reason")]; by intros (z & _ & ->)%fmap_Some.
Qed.

(** ** The properties *)

Section properties.
Context `{GameCore}.

(** A quote run is judged on the registry's text.  Whatever the submitted
    setup and dictionary hash say, the object the core is given carries the
    registry's text as its text source's text and the registry's hash as the
    version to check, and the dictionary has no words. *)
Theorem quote_text_is_registrys `{!GameCoreLaws} (input : Input) (dicts : dictCache) (q : QuoteText)
    (obj dictionary : json) (dicts' : dictCache) :
  in_Quote input = Some q ->
  assemble input dicts = inl (obj, dictionary, dicts') ->
  js_path textPath obj = Some (JStr (qt_Text q))
  /\ js_get "dictVersion" obj = Some (JStr (qt_Hash q))
  /\ dictionary = quoteDict /\ dicts' = dicts.
Proof.
  intros Hq. unfold assemble. rewrite Hq. destruct (Json.unmarshal _ _ _) as [setup|]; [|done].
  destruct (sp_Config setup) as [config|]; [|done]. destruct (sp_Generation setup) as [gen|]; [|done].
  cbn [bindM]. intros (doc & Hdoc & Hrest)%bind_inl.
  destruct (js_parse_input _) as [v| |] eqn:Hp; [|done..]. injection Hdoc as ->.
  apply parse_input_value in Hp as ->.
  destruct (is_object _); [|done]. apply bind_inl in Hrest as (obj1 & H1 & (obj2 & H2 & [= <- <- <-])%bind_inl).
  apply setQuoteText_path in H2 as [Ht Hv]. split_and!; [exact Ht| |done|done].
  rewrite Hv. by rewrite (setJS_get_ne "dictionary" "dictVersion" _ _ _ ltac:(done) H1).
Qed.

(** Numbers and verdicts agree.  A replay that succeeds carries recomputed
    metrics and a score exactly when the core found the log valid; a log it refused
    leaves none, nor keyboard observations. *)
Lemma replay_numbers (input : Input) (dicts : dictCache) (r : Result) :
  Replay input dicts = inl r ->
  if rs_Verdict r =s? verdictValid then is_Some (rs_Metrics r) /\ is_Some (rs_Score r)
  else rs_Metrics r = None /\ rs_Score r = None /\ rs_CharObservations r = [].
Proof.
  unfold Replay. intros ([[obj dictionary] ?] & _ & (report & Hv & Hr)%bind_inl)%bind_inl.
  assert (if rs_Verdict report =s? verdictValid then is_Some (rs_Metrics report)
    else rs_Metrics report = None /\ rs_Score report = None /\ rs_CharObservations report = []) as Hrep.
  { revert Hv. unfold validate. intros (res & _ & (value & _ & Hv)%bind_inl)%bind_inl.
    destruct value as [v|]; [|done]. destruct (is_object v); [|done].
    apply bind_inl in Hv as (raw & _ & Hv).
    destruct (Json.unmarshal dec_Result zero_Result raw) as [out|] eqn:Hd; [|done].
    destruct (rs_Verdict out =s? verdictValid) eqn:E.
    - apply bind_inl in Hv as (metrics & _ & [= <-]). cbn. rewrite E. eauto.
    - injection Hv as <-. rewrite E. by apply (dec_Result_untagged _ _ Hd). }
  destruct (rs_Verdict report =s? verdictValid) eqn:E; cbn [negb] in Hr.
  - apply bind_inl in Hr as (sc & _ & (obs & _ & [= <-])%bind_inl). cbn. rewrite E. split; [done|eauto].
  - injection Hr as <-. by rewrite E.
Qed.

(** The dictionary cache is invisible.  As long as it holds what parsing the
    registry's bodies gives, a replay answers as with an empty cache, and the
    cache it leaves holds that again. *)
Lemma dict_cache_transparent (body : string -> list Z) (input : Input) (dicts : dictCache) :
  let cache_ok (d : dictCache) := forall h v, d !! h = Some v -> js_parse_dictionary (body h) = Returned v in
  cache_ok dicts -> (in_Quote input = None -> in_DictBody input = body (in_DictHash input)) ->
  Replay input dicts = Replay input empty /\ cache_ok (cacheAfter input dicts).
Proof.
  cbv zeta. intros Hc Hb.
  split.
  - unfold Replay, assemble. destruct (Json.unmarshal _ _ _) as [setup|]; [|done].
    destruct (sp_Config setup) as [config|]; [|done]. destruct (sp_Generation setup) as [gen|]; [|done].
    destruct (in_Quote input) as [q|]; cbn [bindM].
    { destruct (callOn _) as [parsed|]; cbn [bindM]; [|done]. destruct (is_object parsed); [|done].
      destruct (setJS _ _ _) as [obj|]; cbn [bindM]; [|done]. by destruct (setQuoteText _ _). }
    unfold dictionaryValue. rewrite lookup_empty, (Hb eq_refl).
    destruct (dicts !! in_DictHash input) as [v|] eqn:Hl.
    + rewrite (Hc _ _ Hl). cbn [callOn bindM].
      destruct (callOn _) as [parsed|]; cbn [bindM]; [|done]. destruct (is_object parsed); [|done].
      by destruct (setJS _ _ _).
    + destruct (callOn (js_parse_dictionary _)) as [v|]; cbn [bindM]; [|done].
      destruct (callOn _) as [parsed|]; cbn [bindM]; [|done]. destruct (is_object parsed); [|done].
      by destruct (setJS _ _ _).
  - unfold cacheAfter. destruct (Json.unmarshal _ _ _) as [[[config|] [gen|] ?]|]; try done.
    destruct (in_Quote input); [done|]. unfold dictionaryValue. rewrite (Hb eq_refl).
    destruct (dicts !! in_DictHash input) as [v|] eqn:Hl; [done|].
    destruct (js_parse_dictionary (body (in_DictHash input))) as [v| |] eqn:Hp; cbn; [|done..].
    intros h w [[<- <-]|[_ Hw]]%lookup_insert_Some; [done|by apply Hc].
Qed.
End properties.

(** ** Witnesses: an engine that finds every log valid *)

Definition toyMetrics : json :=
  JObj [("wpm", JNum "60.5"); ("raw", JNum "62"); ("accuracy", JNum "0.97"); ("durationSec", JNum "15")].

#[export] Instance toyCore : GameCore := {
  bundleSHA := "c0de";
  js_parse_dictionary body := Returned (JObj [("name", JStr "toy"); ("words", JArr (JNum ∘ Strconv.Itoa <$> body))]);
  js_parse_input doc := Returned doc;
  js_validateLog _ := Returned (JsOk (Some (JObj [("verdict", JStr "valid"); ("flags", JArr []);
                                                 ("metrics", toyMetrics)])));
  js_generateWords dictionary _ := Returned (JsOk (Some (JObj (member "words" (js_get "words" dictionary)))));
  js_scoreOfLog _ _ := Returned (Some (JObj [("total", JNum "120")]));
  js_scoreV2OfLog _ _ _ := Returned (Some (JObj [("total", JNum "120")]));
  js_scoreV3OfLog _ _ _ := Returned (Some (JObj [("total", JNum "130")]));
  js_charObservationsOf _ _ := Returned (Some (JArr [])) }.

#[export] Instance toyCore_laws : GameCoreLaws.
Proof. constructor. by intros doc v [= ->]. Qed.

Definition toyInput (quote : option QuoteText) : Input :=
  {| in_Seed := 7; in_DictHash := "d1"; in_DictBody := [1; 2]; in_Quote := quote;
     in_Setup := JObj [("config", JObj []);
                       ("generation", JObj [("mode", JStr "time");
                          ("textSource", JObj [("kind", JStr "quote"); ("text", JStr "mine")])])];
     in_Log := JObj [("version", JNum "1"); ("events", JArr [])];
     in_ScoreVersion := 3; in_CanariesArmed := false |}.

Lemma quote_text_is_registrys_witness :
  exists obj, assemble (toyInput (Some {| qt_Text := "to be"; qt_Hash := "h1" |})) empty
    = inl (obj, quoteDict, empty) /\ js_path textPath obj = Some (JStr "to be").
Proof.
  eexists. split; [vm_compute; reflexivity|].
  refine (proj1 (quote_text_is_registrys (toyInput (Some {| qt_Text := "to be"; qt_Hash := "h1" |}))
    empty {| qt_Text := "to be"; qt_Hash := "h1" |} _ quoteDict empty eq_refl _)).
  vm_compute. reflexivity.
Defined.

Definition toyResult : Result :=
  match Replay (toyInput None) empty with inl r => r | inr _ => zero_Result end.
