(* ===== verification/DisplayNames.v ===== *)
(** * internal/replay/registry.go: the catalogue's display names

    The table [displayNames], row by row in the order of the source. *)

From S2P Require Import Prelude.

Definition displayNames : gmap string string := list_to_map [
  ("afrikaans", "Afrikaans");
  ("afrikaans_10k", "Afrikaans (10k)");
  ("afrikaans_1k", "Afrikaans (1k)");
  ("albanian", "Albanian");
  ("albanian_1k", "Albanian (1k)");
  ("amharic", "Amharic");
  ("amharic_1k", "Amharic (1k)");
  ("amharic_5k", "Amharic (5k)");
  ("arabian", "Arabic");
  ("arabian_10k", "Arabic (10k)");
  ("arabian_egypt", "Arabic (Egyptian)");
  ("arabian_egypt_1k", "Arabic (Egyptian, 1k)");
  ("arabian_morocco", "Arabic (Moroccan)");
  ("armenian", "Armenian");
  ("armenian_1k", "Armenian (1k)");
  ("armenian_western", "Armenian (Western)");
  ("armenian_western_1k", "Armenian (Western, 1k)");
  ("azerbaijani", "Azerbaijani");
  ("azerbaijani_1k", "Azerbaijani (1k)");
  ("bangla", "Bangla");
  ("bangla_10k", "Bangla (10k)");
  ("bangla_letters", "Bangla (letters)");
  ("bashkir", "Bashkir");
  ("belarusian", "Belarusian");
  ("belarusian_100k", "Belarusian (100k)");
  ("belarusian_10k", "Belarusian (10k)");
  ("belarusian_1k", "Belarusian (1k)");
  ("belarusian_25k", "Belarusian (25k)");
  ("belarusian_50k", "Belarusian (50k)");
  ("belarusian_5k", "Belarusian (5k)");
  ("belarusian_lacinka", "Belarusian (Łacinka)");
  ("belarusian_lacinka_1k", "Belarusian (Łacinka, 1k)");
  ("bemba", "Bemba");
  ("bemba_10k", "Bemba (10k)");
  ("bemba_1k", "Bemba (1k)");
  ("bosnian", "Bosnian");
  ("bosnian_4k", "Bosnian (4k)");
  ("bulgarian", "Bulgarian");
  ("bulgarian_1k", "Bulgarian (1k)");
  ("bulgarian_latin", "Bulgarian (Latin)");
  ("bulgarian_latin_1k", "Bulgarian (Latin, 1k)");
  ("catalan", "Catalan");
  ("catalan_1k", "Catalan (1k)");
  ("chinese", "Chinese (simplified)");
  ("chinese_10k", "Chinese (simplified, 10k)");
  ("chinese_1k", "Chinese (simplified, 1k)");
  ("chinese_50k", "Chinese (simplified, 50k)");
  ("chinese_5k", "Chinese (simplified, 5k)");
  ("code_6502_assembly", "6502 assembly (code)");
  ("code_abap", "ABAP (code)");
  ("code_abap_1k", "ABAP (code, 1k)");
  ("code_arduino", "Arduino (code)");
  ("code_assembly", "Assembly (code)");
  ("code_bash", "Bash (code)");
  ("code_c", "C (code)");
  ("code_clojure", "Clojure (code)");
  ("code_cobol", "COBOL (code)");
  ("code_cpp", "C++ (code)");
  ("code_csharp", "C# (code)");
  ("code_css", "CSS (code)");
  ("code_dart", "Dart (code)");
  ("code_elixir", "Elixir (code)");
  ("code_erlang", "Erlang (code)");
  ("code_fortran", "Fortran (code)");
  ("code_fsharp", "F# (code)");
  ("code_gdscript", "GDScript (code)");
  ("code_gdscript_2", "GDScript 2 (code)");
  ("code_go", "Go (code)");
  ("code_haskell", "Haskell (code)");
  ("code_html", "HTML (code)");
  ("code_java", "Java (code)");
  ("code_javascript", "JavaScript (code)");
  ("code_javascript_1k", "JavaScript (code, 1k)");
  ("code_javascript_react", "JavaScript React (code)");
  ("code_jule", "Jule (code)");
  ("code_julia", "Julia (code)");
  ("code_kotlin", "Kotlin (code)");
  ("code_lua", "Lua (code)");
  ("code_luau", "Luau (code)");
  ("code_matlab", "MATLAB (code)");
  ("code_nim", "Nim (code)");
  ("code_nix", "Nix (code)");
  ("code_ocaml", "OCaml (code)");
  ("code_odin", "Odin (code)");
  ("code_ook", "Ook! (code)");
  ("code_opencl", "OpenCL (code)");
  ("code_pascal", "Pascal (code)");
  ("code_perl", "Perl (code)");
  ("code_php", "PHP (code)");
  ("code_python", "Python (code)");
  ("code_python_1k", "Python (code, 1k)");
  ("code_python_2k", "Python (code, 2k)");
  ("code_python_5k", "Python (code, 5k)");
  ("code_r", "R (code)");
  ("code_r_2k", "R (code, 2k)");
  ("code_rockstar", "Rockstar (code)");
  ("code_ruby", "Ruby (code)");
  ("code_rust", "Rust (code)");
  ("code_scala", "Scala (code)");
  ("code_sql", "SQL (code)");
  ("code_swift", "Swift (code)");
  ("code_systemverilog", "SystemVerilog (code)");
  ("code_typescript", "TypeScript (code)");
  ("code_typst", "Typst (code)");
  ("code_v", "V (code)");
  ("code_vhdl", "VHDL (code)");
  ("code_vim", "Vim (code)");
  ("code_vimscript", "Vimscript (code)");
  ("code_visual_basic", "Visual Basic (code)");
  ("code_yoptascript", "YoptaScript (code)");
  ("code_zig", "Zig (code)");
  ("croatian", "Croatian");
  ("croatian_1k", "Croatian (1k)");
  ("czech", "Czech");
  ("czech_10k", "Czech (10k)");
  ("czech_1k", "Czech (1k)");
  ("danish", "Danish");
  ("danish_10k", "Danish (10k)");
  ("danish_1k", "Danish (1k)");
  ("docker_file", "Dockerfile (code)");
  ("dutch", "Dutch");
  ("dutch_1k", "Dutch (1k)");
  ("english", "English");
  ("english_10k", "English (10k)");
  ("english_1k", "English (1k)");
  ("english_25k", "English (25k)");
  ("english_5k", "English (5k)");
  ("english_commonly_misspelled", "English (commonly misspelled)");
  ("english_contractions", "English (contractions)");
  ("english_doubleletter", "English (double letters)");
  ("english_medical", "English (medical)");
  ("english_old", "Old English");
  ("english_shakespearean", "English (Shakespearean)");
  ("esperanto", "Esperanto");
  ("esperanto_10k", "Esperanto (10k)");
  ("esperanto_1k", "Esperanto (1k)");
  ("esperanto_25k", "Esperanto (25k)");
  ("esperanto_36k", "Esperanto (36k)");
  ("esperanto_h_sistemo", "Esperanto (h-sistemo)");
  ("esperanto_h_sistemo_10k", "Esperanto (h-sistemo, 10k)");
  ("esperanto_h_sistemo_1k", "Esperanto (h-sistemo, 1k)");
  ("esperanto_h_sistemo_25k", "Esperanto (h-sistemo, 25k)");
  ("esperanto_h_sistemo_36k", "Esperanto (h-sistemo, 36k)");
  ("esperanto_x_sistemo", "Esperanto (x-sistemo)");
  ("esperanto_x_sistemo_10k", "Esperanto (x-sistemo, 10k)");
  ("esperanto_x_sistemo_1k", "Esperanto (x-sistemo, 1k)");
  ("esperanto_x_sistemo_25k", "Esperanto (x-sistemo, 25k)");
  ("esperanto_x_sistemo_36k", "Esperanto (x-sistemo, 36k)");
  ("estonian", "Estonian");
  ("estonian_10k", "Estonian (10k)");
  ("estonian_1k", "Estonian (1k)");
  ("estonian_5k", "Estonian (5k)");
  ("euskera", "Basque");
  ("filipino", "Filipino");
  ("filipino_1k", "Filipino (1k)");
  ("finnish", "Finnish");
  ("finnish_10k", "Finnish (10k)");
  ("finnish_1k", "Finnish (1k)");
  ("french", "French");
  ("french_10k", "French (10k)");
  ("french_1k", "French (1k)");
  ("french_2k", "French (2k)");
  ("french_bitoduc", "French (Bitoduc)");
  ("frisian", "Frisian");
  ("frisian_1k", "Frisian (1k)");
  ("friulian", "Friulian");
  ("galician", "Galician");
  ("georgian", "Georgian");
  ("german", "German");
  ("german_10k", "German (10k)");
  ("german_1k", "German (1k)");
  ("git", "Git (code)");
  ("greek", "Greek");
  ("greek_10k", "Greek (10k)");
  ("greek_1k", "Greek (1k)");
  ("greek_25k", "Greek (25k)");
  ("greek_5k", "Greek (5k)");
  ("greek_koine", "Greek (Koine)");
  ("greeklish", "Greeklish");
  ("greeklish_10k", "Greeklish (10k)");
  ("greeklish_1k", "Greeklish (1k)");
  ("greeklish_25k", "Greeklish (25k)");
  ("greeklish_5k", "Greeklish (5k)");
  ("gujarati", "Gujarati");
  ("gujarati_1k", "Gujarati (1k)");
  ("hausa", "Hausa");
  ("hausa_1k", "Hausa (1k)");
  ("hawaiian", "Hawaiian");
  ("hawaiian_1k", "Hawaiian (1k)");
  ("hebrew", "Hebrew");
  ("hebrew_10k", "Hebrew (10k)");
  ("hebrew_1k", "Hebrew (1k)");
  ("hebrew_5k", "Hebrew (5k)");
  ("hindi", "Hindi");
  ("hindi_1k", "Hindi (1k)");
  ("hinglish", "Hinglish");
  ("hungarian", "Hungarian");
  ("hungarian_1k", "Hungarian (1k)");
  ("hungarian_2k", "Hungarian (2k)");
  ("icelandic", "Icelandic");
  ("icelandic_1k", "Icelandic (1k)");
  ("indonesian", "Indonesian");
  ("indonesian_10k", "Indonesian (10k)");
  ("indonesian_1k", "Indonesian (1k)");
  ("irish", "Irish");
  ("irish_1k", "Irish (1k)");
  ("italian", "Italian");
  ("italian_1k", "Italian (1k)");
  ("italian_280k", "Italian (280k)");
  ("italian_60k", "Italian (60k)");
  ("italian_7k", "Italian (7k)");
  ("japanese", "Japanese");
  ("japanese_hiragana", "Japanese (hiragana)");
  ("japanese_katakana", "Japanese (katakana)");
  ("japanese_romaji", "Japanese (rōmaji)");
  ("japanese_romaji_1k", "Japanese (rōmaji, 1k)");
  ("jyutping", "Jyutping");
  ("kabyle", "Kabyle");
  ("kabyle_10k", "Kabyle (10k)");
  ("kabyle_1k", "Kabyle (1k)");
  ("kabyle_2k", "Kabyle (2k)");
  ("kabyle_5k", "Kabyle (5k)");
  ("kannada", "Kannada");
  ("kazakh", "Kazakh");
  ("kazakh_1k", "Kazakh (1k)");
  ("khmer", "Khmer");
  ("kinyarwanda", "Kinyarwanda");
  ("klingon", "Klingon");
  ("klingon_1k", "Klingon (1k)");
  ("kokanu", "Kokanu");
  ("korean", "Korean");
  ("korean_1k", "Korean (1k)");
  ("korean_5k", "Korean (5k)");
  ("kurdish_central", "Kurdish (Central)");
  ("kurdish_central_2k", "Kurdish (Central, 2k)");
  ("kurdish_central_4k", "Kurdish (Central, 4k)");
  ("kyrgyz", "Kyrgyz");
  ("kyrgyz_1k", "Kyrgyz (1k)");
  ("lao", "Lao");
  ("latin", "Latin");
  ("latvian", "Latvian");
  ("latvian_1k", "Latvian (1k)");
  ("league_of_legends", "League of Legends");
  ("likanu", "Likanu");
  ("lithuanian", "Lithuanian");
  ("lithuanian_1k", "Lithuanian (1k)");
  ("lithuanian_3k", "Lithuanian (3k)");
  ("lojban_cmavo", "Lojban (cmavo)");
  ("lojban_gismu", "Lojban (gismu)");
  ("lorem_ipsum", "Lorem ipsum");
  ("macedonian", "Macedonian");
  ("macedonian_10k", "Macedonian (10k)");
  ("macedonian_1k", "Macedonian (1k)");
  ("macedonian_75k", "Macedonian (75k)");
  ("malagasy", "Malagasy");
  ("malagasy_1k", "Malagasy (1k)");
  ("malay", "Malay");
  ("malay_1k", "Malay (1k)");
  ("malayalam", "Malayalam");
  ("maltese", "Maltese");
  ("maltese_1k", "Maltese (1k)");
  ("maori_1k", "Māori (1k)");
  ("marathi", "Marathi");
  ("mongolian", "Mongolian");
  ("mongolian_10k", "Mongolian (10k)");
  ("myanmar_burmese", "Burmese");
  ("nepali", "Nepali");
  ("nepali_1k", "Nepali (1k)");
  ("nepali_romanized", "Nepali (romanised)");
  ("norwegian_bokmal", "Norwegian (Bokmål)");
  ("norwegian_bokmal_10k", "Norwegian (Bokmål, 10k)");
  ("norwegian_bokmal_150k", "Norwegian (Bokmål, 150k)");
  ("norwegian_bokmal_1k", "Norwegian (Bokmål, 1k)");
  ("norwegian_bokmal_5k", "Norwegian (Bokmål, 5k)");
  ("norwegian_nynorsk", "Norwegian (Nynorsk)");
  ("norwegian_nynorsk_100k", "Norwegian (Nynorsk, 100k)");
  ("norwegian_nynorsk_10k", "Norwegian (Nynorsk, 10k)");
  ("norwegian_nynorsk_1k", "Norwegian (Nynorsk, 1k)");
  ("norwegian_nynorsk_5k", "Norwegian (Nynorsk, 5k)");
  ("occitan", "Occitan");
  ("occitan_10k", "Occitan (10k)");
  ("occitan_1k", "Occitan (1k)");
  ("occitan_2k", "Occitan (2k)");
  ("occitan_5k", "Occitan (5k)");
  ("oromo", "Oromo");
  ("oromo_1k", "Oromo (1k)");
  ("oromo_5k", "Oromo (5k)");
  ("pashto", "Pashto");
  ("persian", "Persian");
  ("persian_1k", "Persian (1k)");
  ("persian_20k", "Persian (20k)");
  ("persian_5k", "Persian (5k)");
  ("persian_romanized", "Persian (romanised)");
  ("pig_latin", "Pig Latin");
  ("pinyin", "Pinyin");
  ("pinyin_10k", "Pinyin (10k)");
  ("pinyin_1k", "Pinyin (1k)");
  ("pokemon_1k", "Pokémon (1k)");
  ("polish", "Polish");
  ("polish_10k", "Polish (10k)");
  ("polish_200k", "Polish (200k)");
  ("polish_20k", "Polish (20k)");
  ("polish_2k", "Polish (2k)");
  ("polish_40k", "Polish (40k)");
  ("polish_5k", "Polish (5k)");
  ("portuguese", "Portuguese");
  ("portuguese_1k", "Portuguese (1k)");
  ("portuguese_3k", "Portuguese (3k)");
  ("portuguese_5k", "Portuguese (5k)");
  ("portuguese_acentos_e_cedilha", "Portuguese (accents & cedilla)");
  ("quenya", "Quenya");
  ("romanian", "Romanian");
  ("romanian_100k", "Romanian (100k)");
  ("romanian_10k", "Romanian (10k)");
  ("romanian_1k", "Romanian (1k)");
  ("romanian_200k", "Romanian (200k)");
  ("romanian_25k", "Romanian (25k)");
  ("romanian_50k", "Romanian (50k)");
  ("romanian_5k", "Romanian (5k)");
  ("russian", "Russian");
  ("russian_10k", "Russian (10k)");
  ("russian_1k", "Russian (1k)");
  ("russian_25k", "Russian (25k)");
  ("russian_50k", "Russian (50k)");
  ("russian_5k", "Russian (5k)");
  ("russian_abbreviations", "Russian (abbreviations)");
  ("russian_contractions", "Russian (contractions)");
  ("russian_contractions_1k", "Russian (contractions, 1k)");
  ("russian_empire", "Russian (pre-reform)");
  ("sanskrit", "Sanskrit");
  ("sanskrit_roman", "Sanskrit (romanised)");
  ("santali", "Santali");
  ("serbian", "Serbian");
  ("serbian_10k", "Serbian (10k)");
  ("serbian_latin", "Serbian (Latin)");
  ("serbian_latin_10k", "Serbian (Latin, 10k)");
  ("shona", "Shona");
  ("shona_1k", "Shona (1k)");
  ("sindhi", "Sindhi");
  ("sinhala", "Sinhala");
  ("slovak", "Slovak");
  ("slovak_10k", "Slovak (10k)");
  ("slovak_1k", "Slovak (1k)");
  ("slovenian", "Slovenian");
  ("slovenian_1k", "Slovenian (1k)");
  ("slovenian_5k", "Slovenian (5k)");
  ("spanish", "Spanish");
  ("spanish_10k", "Spanish (10k)");
  ("spanish_1k", "Spanish (1k)");
  ("swahili_1k", "Swahili (1k)");
  ("swedish", "Swedish");
  ("swedish_1k", "Swedish (1k)");
  ("swedish_diacritics", "Swedish (diacritics)");
  ("swiss_german", "Swiss German");
  ("swiss_german_1k", "Swiss German (1k)");
  ("swiss_german_2k", "Swiss German (2k)");
  ("tamil", "Tamil");
  ("tamil_1k", "Tamil (1k)");
  ("tamil_old", "Tamil (old)");
  ("tanglish", "Tanglish");
  ("tatar", "Tatar");
  ("tatar_1k", "Tatar (1k)");
  ("tatar_5k", "Tatar (5k)");
  ("tatar_9k", "Tatar (9k)");
  ("tatar_crimean", "Crimean Tatar");
  ("tatar_crimean_10k", "Crimean Tatar (10k)");
  ("tatar_crimean_15k", "Crimean Tatar (15k)");
  ("tatar_crimean_1k", "Crimean Tatar (1k)");
  ("tatar_crimean_5k", "Crimean Tatar (5k)");
  ("tatar_crimean_cyrillic", "Crimean Tatar (Cyrillic)");
  ("tatar_crimean_cyrillic_10k", "Crimean Tatar (Cyrillic, 10k)");
  ("tatar_crimean_cyrillic_15k", "Crimean Tatar (Cyrillic, 15k)");
  ("tatar_crimean_cyrillic_1k", "Crimean Tatar (Cyrillic, 1k)");
  ("tatar_crimean_cyrillic_5k", "Crimean Tatar (Cyrillic, 5k)");
  ("telugu", "Telugu");
  ("telugu_1k", "Telugu (1k)");
  ("thai", "Thai");
  ("thai_10k", "Thai (10k)");
  ("thai_1k", "Thai (1k)");
  ("thai_20k", "Thai (20k)");
  ("thai_50k", "Thai (50k)");
  ("thai_5k", "Thai (5k)");
  ("thai_60k", "Thai (60k)");
  ("tibetan", "Tibetan");
  ("tibetan_1k", "Tibetan (1k)");
  ("toki_pona", "Toki Pona");
  ("toki_pona_ku_lili", "Toki Pona (ku lili)");
  ("toki_pona_ku_suli", "Toki Pona (ku suli)");
  ("traditional_chinese", "Chinese (traditional)");
  ("traditional_chinese_10k", "Chinese (traditional, 10k)");
  ("traditional_chinese_1k", "Chinese (traditional, 1k)");
  ("traditional_chinese_50k", "Chinese (traditional, 50k)");
  ("traditional_chinese_5k", "Chinese (traditional, 5k)");
  ("turkish", "Turkish");
  ("turkish_1k", "Turkish (1k)");
  ("turkish_5k", "Turkish (5k)");
  ("twitch_emotes", "Twitch emotes");
  ("udmurt", "Udmurt");
  ("ukrainian", "Ukrainian");
  ("ukrainian_10k", "Ukrainian (10k)");
  ("ukrainian_1k", "Ukrainian (1k)");
  ("ukrainian_50k", "Ukrainian (50k)");
  ("ukrainian_endings", "Ukrainian (endings)");
  ("ukrainian_latynka", "Ukrainian (Latynka)");
  ("ukrainian_latynka_10k", "Ukrainian (Latynka, 10k)");
  ("ukrainian_latynka_1k", "Ukrainian (Latynka, 1k)");
  ("ukrainian_latynka_50k", "Ukrainian (Latynka, 50k)");
  ("ukrainian_latynka_endings", "Ukrainian (Latynka, endings)");
  ("urdish", "Urdish");
  ("urdu", "Urdu");
  ("urdu_1k", "Urdu (1k)");
  ("urdu_5k", "Urdu (5k)");
  ("urdu_roman", "Urdu (romanised)");
  ("uzbek", "Uzbek");
  ("uzbek_1k", "Uzbek (1k)");
  ("uzbek_70k", "Uzbek (70k)");
  ("vietnamese", "Vietnamese");
  ("vietnamese_1k", "Vietnamese (1k)");
  ("vietnamese_5k", "Vietnamese (5k)");
  ("viossa", "Viossa");
  ("viossa_njutro", "Viossa (njutro)");
  ("welsh", "Welsh");
  ("welsh_1k", "Welsh (1k)");
  ("wordle", "Wordle");
  ("wordle_1k", "Wordle (1k)");
  ("xhosa", "Xhosa");
  ("xhosa_3k", "Xhosa (3k)");
  ("yiddish", "Yiddish");
  ("yoruba_1k", "Yoruba (1k)");
  ("zulu", "Zulu")].

(** The table is looked up by computation, never unfolded in a proof. *)
#[global] Opaque displayNames.
