(* ===== verification/Registry.v ===== *)
(** * internal/replay/registry.go: the dictionaries, addressed by content

    The registry is built once, from the files embedded in the binary.  The word
    lists are fingerprinted by the game core ([js_dictVersion]) and compressed by
    the standard library ([gzipBytes]), both parameters; which files are accepted,
    how the work is shared between goroutines and what the result indexes is
    modelled. *)

From S2P Require Import Prelude GoStd Json Policy Core DisplayNames.

Open Scope Z_scope.

(** One file of the embedded directory: its name, its bytes and the value they parse
    to ([None] when they are not JSON). *)
Record dictFile := { df_Name : string; df_IsDir : bool; df_Bytes : list Z; df_Value : option json }.

Record CatalogueEntry := {
  ce_Lang : string; ce_Name : string; ce_DictHash : string; ce_WordCount : Z; ce_Bytes : Z }.

Record entry := { en_Catalogue : CatalogueEntry; en_raw : list Z; en_gz : list Z }.

Record Registry := { rg_entries : list entry; rg_byHash : gmap string entry }.

Record dictDoc := { dd_Name : string; dd_Words : list string }.

Definition dec_dictDoc : Json.decoder dictDoc :=
  Json.dec_struct ["name"; "words"] (fun f =>
    if f =s? "name" then
      Json.field dd_Name (fun v d => {| dd_Name := v; dd_Words := dd_Words d |}) Json.dec_string
    else
      Json.field dd_Words (fun v d => {| dd_Name := dd_Name d; dd_Words := v |})
        (Json.dec_list Json.dec_string "")).

Inductive registryError :=
| ErrNoDictionaries
| ErrParse (lang : string)
| ErrNoName (lang : string)
| ErrNoWords (lang : string)
| ErrNoDisplayName (lang : string)
| ErrHash (lang : string) (e : replayError)
| ErrCompress (lang : string)
| ErrSeedWorker (w : nat)
| ErrDuplicateHash (prev lang hash : string).

Class DictEngine := {
  js_dictVersion : list string -> M string;
  gzipBytes : list Z -> option (list Z) }.

Section registry.
Context `{DictEngine}.

Definition displayName (lang : string) : string + registryError :=
  match displayNames !! lang with
  | Some name => inl name
  | None => inr (ErrNoDisplayName lang)
  end.

Definition loadDict (f : dictFile) : entry + registryError :=
  let lang := Strs.TrimSuffix ".json" (df_Name f) in
  match df_Value f ≫= Json.unmarshal dec_dictDoc {| dd_Name := ""; dd_Words := [] |} with
  | None => inr (ErrParse lang)
  | Some doc =>
    if dd_Name doc =s? "" then inr (ErrNoName lang)
    else match dd_Words doc with
    | [] => inr (ErrNoWords lang)
    | words =>
      match displayName lang with
      | inr e => inr e
      | inl name =>
        match js_dictVersion words with
        | inr e => inr (ErrHash lang e)
        | inl hash =>
          match gzipBytes (df_Bytes f) with
          | None => inr (ErrCompress lang)
          | Some gz =>
            inl {| en_Catalogue :=
                     {| ce_Lang := lang; ce_Name := name; ce_DictHash := hash;
                        ce_WordCount := Z.of_nat (length words);
                        ce_Bytes := Z.of_nat (length (df_Bytes f)) |};
                   en_raw := df_Bytes f; en_gz := gz |}
          end
        end
      end
    end
  end.

(** ** The parallel seed

    The producer sends the index of every file over an unbuffered channel; a worker
    that has failed keeps receiving and does no work.  Which worker receives which
    index is the scheduler's choice ([who]); the indexes are sent in order. *)

Record seedState := { sd_out : list (option entry); sd_errs : gmap nat registryError }.

(** Worker [w] receives index [i]. *)
Definition receive (files : list dictFile) (w : nat) (i : nat) (st : seedState) : seedState :=
  match sd_errs st !! w, files !! i with
  | None, Some f =>
    match loadDict f with
    | inl e => {| sd_out := <[i := Some e]> (sd_out st); sd_errs := sd_errs st |}
    | inr err => {| sd_out := sd_out st; sd_errs := <[w := err]> (sd_errs st) |}
    end
  | _, _ => st
  end.

Definition numWorkers (gomaxprocs : nat) (files : list dictFile) : nat :=
  Nat.max 1 (Nat.min gomaxprocs (length files)).

(** [coreBroken w]: building worker [w]'s own core failed; worker 0 has the caller's. *)
Definition workersStart (workers : nat) (coreBroken : nat -> bool) : gmap nat registryError :=
  list_to_map ((fun w => (w, ErrSeedWorker w)) <$> filter (fun w => coreBroken w = true) (seq 1 (workers - 1))).

Definition seed (gomaxprocs : nat) (coreBroken : nat -> bool) (who : nat -> nat) (files : list dictFile)
    : list entry + registryError :=
  let workers := numWorkers gomaxprocs files in
  let st := foldl (fun st i => receive files (who i mod workers)%nat i st)
    {| sd_out := (fun _ => None) <$> files; sd_errs := workersStart workers coreBroken |}
    (seq 0 (length files)) in
  match omap (fun w => sd_errs st !! w) (seq 0 workers) with
  | err :: _ => inr err
  | [] => inl (omap id (sd_out st))
  end.

(** ** NewRegistry *)

Fixpoint indexEntries (l : list entry) (byHash : gmap string entry) : gmap string entry + registryError :=
  match l with
  | [] => inl byHash
  | e :: l =>
    let hash := ce_DictHash (en_Catalogue e) in
    match byHash !! hash with
    | Some prev => inr (ErrDuplicateHash (ce_Lang (en_Catalogue prev)) (ce_Lang (en_Catalogue e)) hash)
    | None => indexEntries l (<[hash := e]> byHash)
    end
  end.

Definition NewRegistry (gomaxprocs : nat) (coreBroken : nat -> bool) (who : nat -> nat)
    (dir : list dictFile) : Registry + registryError :=
  let files := filter (fun f => negb (df_IsDir f) && Strs.HasSuffix ".json" (df_Name f) = true) dir in
  match files with
  | [] => inr ErrNoDictionaries
  | _ =>
    match seed gomaxprocs coreBroken who files with
    | inr e => inr e
    | inl loaded =>
      match indexEntries loaded ∅ with
      | inr e => inr e
      | inl byHash => inl {| rg_entries := loaded; rg_byHash := byHash |}
      end
    end
  end.

Definition Catalogue (r : Registry) : list CatalogueEntry := en_Catalogue <$> rg_entries r.

Definition Body (r : Registry) (dictHash : string) : option (list Z) :=
  en_raw <$> rg_byHash r !! dictHash.

(** ** The result does not depend on the schedule *)

(** What a sequential seed computes. *)
Fixpoint loadAll (files : list dictFile) : option (list entry) :=
  match files with
  | [] => Some []
  | f :: files =>
    match loadDict f, loadAll files with
    | inl e, Some es => Some (e :: es)
    | _, _ => None
    end
  end.

Lemma loadAll_Forall2 files es :
  loadAll files = Some es <-> Forall2 (fun f e => loadDict f = inl e) files es.
Proof.
  revert es. induction files as [|f files IH]; intros es; cbn.
  - split; [by intros [= <-]|by inversion 1].
  - split.
    + destruct (loadDict f) as [e|] eqn:E; [|done]. destruct (loadAll files) as [es'|]; [|done].
      intros [= <-]. constructor; [done|by apply IH].
    + inversion 1 as [|? e ? es' E Hes]; subst. rewrite E. by rewrite (proj2 (IH es')).
Qed.

(** The state after the first [k] indexes have been received. *)
Record seeded (files : list dictFile) (workers : nat) (start : gmap nat registryError)
    (k : nat) (st : seedState) : Prop := {
  se_length : length (sd_out st) = length files;
  se_workers w : is_Some (sd_errs st !! w) -> (w < workers)%nat;
  se_clean : sd_errs st = ∅ <->
    start = ∅ /\ forall i f, (i < k)%nat -> files !! i = Some f -> exists e, loadDict f = inl e;
  se_loaded : sd_errs st = ∅ -> forall i f e, (i < k)%nat -> files !! i = Some f -> loadDict f = inl e ->
    sd_out st !! i = Some (Some e) }.

Lemma receive_seeded files workers start k w st :
  (w < workers)%nat -> (k < length files)%nat ->
  seeded files workers start k st -> seeded files workers start (S k) (receive files w k st).
Proof.
  intros Hw Hk [Hl Hws Hc Hd]. unfold receive. destruct (lookup_lt_is_Some_2 _ _ Hk) as [f Hf]. rewrite Hf.
  assert (forall i, (i < S k)%nat -> (i < k)%nat \/ i = k) as Hcase by lia.
  destruct (sd_errs st !! w) as [err|] eqn:Hew.
  - assert (sd_errs st <> ∅) as Hne by (intros E; rewrite E in Hew; done).
    constructor; try done. split; [done|]. intros [Hs Ha]. apply Hc. split; [done|].
    intros i g Hi. apply Ha. lia.
  - destruct (loadDict f) as [e|err] eqn:Ef; constructor; cbn; try done.
    + by rewrite length_insert.
    + rewrite Hc. split; intros [Hs Ha]; split; try done; intros i g Hi Hg.
      * destruct (Hcase _ Hi) as [?| ->]; [by eapply Ha|]. simplify_eq. by eexists.
      * eapply Ha; [|exact Hg]. lia.
    + intros He i g e' Hi Hg He'. destruct (Hcase _ Hi) as [?| ->].
      * rewrite list_lookup_insert_ne by lia. by eapply Hd.
      * simplify_eq. rewrite list_lookup_insert_eq; [congruence|lia].
    + intros v. destruct (decide (w = v)) as [<-|]; [done|]. rewrite lookup_insert_ne by done. apply Hws.
    + split; [by intros ?%insert_non_empty|]. intros [Hs Ha].
      destruct (Ha k f ltac:(lia) Hf) as [e' ?]. congruence.
    + by intros ?%insert_non_empty.
Qed.

Lemma numWorkers_pos gomaxprocs files : (0 < numWorkers gomaxprocs files)%nat.
Proof. unfold numWorkers. lia. Qed.

Lemma fold_seeded files workers start who n st :
  (0 < workers)%nat -> (n <= length files)%nat -> seeded files workers start 0 st ->
  seeded files workers start n
    (foldl (fun st i => receive files (who i mod workers)%nat i st) st (seq 0 n)).
Proof.
  intros Hw Hn H0. induction n as [|n IH]; [done|].
  rewrite seq_S, foldl_app. cbn. apply receive_seeded; [|lia|apply IH; lia].
  apply Nat.mod_upper_bound. lia.
Qed.

Lemma workersStart_lt workers coreBroken w :
  is_Some (workersStart workers coreBroken !! w) -> (w < workers)%nat.
Proof.
  intros [e He%elem_of_list_to_map_2]. apply list_elem_of_fmap in He as (v & [= -> ->] & Hv).
  apply list_elem_of_filter in Hv as [_ Hv%elem_of_seq]. lia.
Qed.

Lemma workersStart_empty workers coreBroken :
  workersStart workers coreBroken = ∅ <-> forall w, (0 < w < workers)%nat -> coreBroken w = false.
Proof.
  unfold workersStart. split.
  - intros He w Hw. destruct (coreBroken w) eqn:Hb; [|done]. exfalso.
    assert (w ∈ filter (fun w => coreBroken w = true) (seq 1 (workers - 1))) as Hin.
    { apply list_elem_of_filter. split; [done|]. apply elem_of_seq. lia. }
    destruct (filter _ _); [by apply elem_of_nil in Hin|].
    cbn in He. by apply insert_non_empty in He.
  - intros Hb. destruct (filter (fun w => coreBroken w = true) (seq 1 (workers - 1))) as [|v l] eqn:E; [done|].
    assert (v ∈ filter (fun w => coreBroken w = true) (seq 1 (workers - 1))) as Hv by (rewrite E; left).
    apply list_elem_of_filter in Hv as [Hv Hin%elem_of_seq]. rewrite Hb in Hv by lia. done.
Qed.

Lemma errs_report (errs : gmap nat registryError) workers :
  (forall w, is_Some (errs !! w) -> (w < workers)%nat) ->
  omap (fun w => errs !! w) (seq 0 workers) = [] <-> errs = ∅.
Proof.
  intros Hw. split.
  - intros Ho. apply map_empty. intros w. destruct (errs !! w) as [e|] eqn:E; [|done].
    assert (e ∈ omap (fun w => errs !! w) (seq 0 workers)) as Hin.
    { apply list_elem_of_omap. exists w. split; [|done]. apply elem_of_seq.
      specialize (Hw w ltac:(by eexists)). lia. }
    rewrite Ho in Hin. by apply elem_of_nil in Hin.
  - intros ->. induction (seq 0 workers) as [|w l IH]; [done|]. cbn. by rewrite lookup_empty.
Qed.

(** An output array with every entry in place. *)
Lemma omap_loaded files es out :
  Forall2 (fun f e => loadDict f = inl e) files es -> length out = length files ->
  (forall i f e, files !! i = Some f -> loadDict f = inl e -> out !! i = Some (Some e)) ->
  omap id out = es.
Proof.
  intros Hes Hl Hd. assert (out = Some <$> es) as ->.
  { apply list_eq. intros i. rewrite list_lookup_fmap. destruct (files !! i) as [f|] eqn:Ef.
    - destruct (Forall2_lookup_l _ _ _ _ _ Hes Ef) as (e & -> & E). by eapply Hd.
    - apply lookup_ge_None in Ef. rewrite !lookup_ge_None_2; [done| |lia].
      by rewrite <- (Forall2_length _ _ _ Hes). }
  clear. induction es as [|e es IH]; [done|]. cbn. by f_equal.
Qed.

(** The parallel seed answers a catalogue exactly when every worker has a core and
    every file loads, and then it is the sequential one. *)
Lemma seed_spec gomaxprocs coreBroken who files es :
  seed gomaxprocs coreBroken who files = inl es <->
  loadAll files = Some es
  /\ forall w, (0 < w < numWorkers gomaxprocs files)%nat -> coreBroken w = false.
Proof.
  unfold seed. set (workers := numWorkers gomaxprocs files).
  set (st0 := {| sd_out := (fun _ => None) <$> files; sd_errs := workersStart workers coreBroken |}).
  assert (seeded files workers (workersStart workers coreBroken) 0 st0) as H0.
  { constructor; cbn; [by rewrite length_fmap|apply workersStart_lt| |intros; lia].
    split; [intros ->; split; [done|intros; lia]|by intros [-> _]]. }
  pose proof (fold_seeded files workers _ who (length files) st0
                (numWorkers_pos gomaxprocs files) ltac:(lia) H0) as [Hl Hw Hc Hd].
  set (st := foldl _ st0 (seq 0 (length files))) in *.
  rewrite <- workersStart_empty, loadAll_Forall2.
  pose proof (errs_report (sd_errs st) workers Hw) as Hr.
  assert (sd_errs st = ∅ -> forall es', Forall2 (fun f e => loadDict f = inl e) files es' ->
            omap id (sd_out st) = es') as Hout.
  { intros He es' Hes. apply (omap_loaded files es' _ Hes Hl).
    intros i f e Hf. apply (Hd He); [by eapply lookup_lt_Some|done]. }
  split.
  - destruct (omap _ (seq 0 workers)) as [|err l] eqn:Eo; [|done]. intros [= Hes].
    pose proof (proj1 Hr eq_refl) as He. apply Hc in He as Hc'. destruct Hc' as [Hs Ha]. split; [|done].
    assert (exists es', Forall2 (fun f e => loadDict f = inl e) files es') as [es' Hes'].
    { apply Forall_exists_Forall2_l, Forall_lookup. intros i f Hf. apply (Ha i f); [|done].
      by eapply lookup_lt_Some. }
    specialize (Hout He es' Hes'). congruence.
  - intros [Hes Hs]. assert (sd_errs st = ∅) as He.
    { apply Hc. split; [done|]. intros i f _ Hf.
      destruct (Forall2_lookup_l _ _ _ _ _ Hes Hf) as (e & _ & ?). by exists e. }
    rewrite (proj2 Hr He). by rewrite (Hout He es Hes).
Qed.

Notation hashOf e := (ce_DictHash (en_Catalogue e)).

Lemma indexEntries_spec l m m' :
  indexEntries l m = inl m' ->
  NoDup ((fun e => hashOf e) <$> l) /\ (forall e, e ∈ l -> m !! hashOf e = None)
  /\ (forall h e, m' !! h = Some e <-> m !! h = Some e \/ e ∈ l /\ hashOf e = h).
Proof.
  revert m. induction l as [|e l IH]; intros m; cbn [indexEntries].
  { intros [= <-]. split; [constructor|]. split; [by intros e ?%elem_of_nil|].
    intros h e. split; [by left|]. by intros [?|[?%elem_of_nil _]]. }
  destruct (m !! hashOf e) as [prev|] eqn:Em; [done|]. intros (Hn & Hf & Hm)%IH.
  assert (forall e', e' ∈ l -> hashOf e' <> hashOf e) as Hne.
  { intros e' He' E. specialize (Hf e' He'). by rewrite E, lookup_insert_eq in Hf. }
  split; [|split].
  - cbn. constructor; [|done]. intros (e' & E & He')%list_elem_of_fmap. by eapply Hne.
  - intros e' [->|He']%elem_of_cons; [done|]. specialize (Hf e' He').
    by apply lookup_insert_None in Hf as [? _].
  - intros h e'. rewrite Hm, lookup_insert_Some, elem_of_cons. split.
    + intros [[[<- <-]|[? ?]]|[? ?]]; auto.
    + intros [?|[[->|?] <-]]; auto. left. right. split; [|done]. intros E. congruence.
Qed.

Lemma NewRegistry_loaded gomaxprocs coreBroken who dir r :
  NewRegistry gomaxprocs coreBroken who dir = inl r ->
  let files := filter (fun f => negb (df_IsDir f) && Strs.HasSuffix ".json" (df_Name f) = true) dir in
  files <> [] /\ loadAll files = Some (rg_entries r)
  /\ (forall w, (0 < w < numWorkers gomaxprocs files)%nat -> coreBroken w = false)
  /\ indexEntries (rg_entries r) ∅ = inl (rg_byHash r).
Proof.
  cbn zeta. unfold NewRegistry. set (files := filter _ dir). intros Hr.
  destruct files as [|f fs] eqn:Ef; [done|].
  destruct (seed gomaxprocs coreBroken who (f :: fs)) as [loaded|] eqn:Es; [|done].
  apply seed_spec in Es as [? ?].
  destruct (indexEntries loaded ∅) as [m|] eqn:Ei; [|done]. injection Hr as <-. done.
Qed.

(** What a catalogue row says of the file it was made from. *)
Record row_ok (f : dictFile) (row : CatalogueEntry) : Prop := {
  row_named : displayNames !! ce_Lang row = Some (ce_Name row);
  row_words : exists name words,
    (df_Value f ≫= Json.unmarshal dec_dictDoc {| dd_Name := ""; dd_Words := [] |})
      = Some {| dd_Name := name; dd_Words := words |}
    /\ js_dictVersion words = inl (ce_DictHash row)
    /\ ce_WordCount row = Z.of_nat (length words) /\ words <> [];
  row_bytes : ce_Bytes row = Z.of_nat (length (df_Bytes f)) }.

Lemma loadDict_ok f e : loadDict f = inl e -> row_ok f (en_Catalogue e) /\ en_raw e = df_Bytes f.
Proof.
  unfold loadDict, displayName. intros He.
  destruct (df_Value f ≫= _) as [[name words]|] eqn:Ed; [|done]. cbn in He.
  destruct (name =s? ""); [done|]. destruct words as [|w ws]; [done|].
  destruct (displayNames !! _) as [dn|] eqn:En; [|done].
  destruct (js_dictVersion _) as [h|] eqn:Eh; [|done].
  destruct (gzipBytes _) as [gz|]; [|done]. injection He as <-. split; [|done].
  constructor; cbn [en_Catalogue ce_Lang ce_Name ce_DictHash ce_WordCount ce_Bytes]; [done| |done].
  exists name, (w :: ws). by repeat split.
Qed.

Lemma loadAll_elem files es e :
  loadAll files = Some es -> e ∈ es -> exists f, f ∈ files /\ loadDict f = inl e.
Proof.
  intros Hes%loadAll_Forall2 (i & Hi)%list_elem_of_lookup.
  destruct (Forall2_lookup_r _ _ _ _ _ Hes Hi) as (f & Hf & ?). exists f. split; [|done].
  by eapply list_elem_of_lookup_2.
Qed.

(** The catalogue is content-addressed.  Once the registry stands, no two
    dictionaries share a hash.  A body served under a hash is the bytes of an embedded
    file whose (non-empty) word list the core fingerprints to that hash; every row of the
    catalogue has such a file, its own display name, the file's length and the number
    of its words.  And the registry does not depend on how the
    files were dealt out to the seeding goroutines, nor on how many there were. *)
Theorem registry_content_addressed gomaxprocs coreBroken who dir r :
  NewRegistry gomaxprocs coreBroken who dir = inl r ->
  NoDup (ce_DictHash <$> Catalogue r)
  /\ (forall hash body, Body r hash = Some body ->
        exists row f, row ∈ Catalogue r /\ ce_DictHash row = hash /\ f ∈ dir /\ row_ok f row
          /\ body = df_Bytes f)
  /\ (forall row, row ∈ Catalogue r ->
        exists f, f ∈ dir /\ row_ok f row /\ Body r (ce_DictHash row) = Some (df_Bytes f))
  /\ (forall gomaxprocs' who', NewRegistry gomaxprocs' (fun _ => false) who' dir = inl r).
Proof.
  intros (Hne & Hl & _ & Hi)%NewRegistry_loaded.
  destruct (indexEntries_spec _ _ _ Hi) as (Hn & _ & Hm).
  assert (forall e, e ∈ rg_entries r -> exists f, f ∈ dir /\ row_ok f (en_Catalogue e)
            /\ en_raw e = df_Bytes f) as Hfile.
  { intros e He. destruct (loadAll_elem _ _ _ Hl He) as (f & [_ Hf]%list_elem_of_filter & Hld).
    apply loadDict_ok in Hld as [? ?]. by exists f. }
  split_and!.
  - unfold Catalogue. by rewrite <- list_fmap_compose.
  - unfold Body. intros hash body (e & He & ->)%fmap_Some. apply Hm in He as [He|[He <-]].
    { by rewrite lookup_empty in He. }
    destruct (Hfile e He) as (f & ? & ? & ?). exists (en_Catalogue e), f. split_and!; try done.
    by apply list_elem_of_fmap_2.
  - intros row (e & -> & He)%list_elem_of_fmap. destruct (Hfile e He) as (f & ? & ? & Hraw).
    exists f. split_and!; try done. unfold Body.
    enough (rg_byHash r !! hashOf e = Some e) as Hx by (by rewrite Hx, <- Hraw).
    apply Hm. auto.
  - intros gomaxprocs' who'. unfold NewRegistry. destruct (filter _ dir) as [|f fs]; [done|].
    assert (seed gomaxprocs' (fun _ => false) who' (f :: fs) = inl (rg_entries r)) as ->
      by (by apply seed_spec).
    rewrite Hi. by destruct r.
Qed.
End registry.

(** ** Which error a failed seed reports *)

(** An engine that fingerprints a list by its length. *)
#[export] Instance toyDict : DictEngine := {
  js_dictVersion words := inl (Strconv.Itoa (Z.of_nat (length words)));
  gzipBytes raw := Some raw }.

Definition toyFile (name : string) (words : list string) : dictFile :=
  {| df_Name := name; df_IsDir := false; df_Bytes := [0; 1; 2];
     df_Value := Some (JObj [("name", JStr "x"); ("words", JArr (JStr <$> words))]) |}.

(** With two bad files the message of a failed seed is not stable across runs:
    it is the first failure in worker order, and which worker drew which file is the
    scheduler's choice.  (The registry is refused either way.) *)
Theorem seed_error_depends_on_schedule :
  let dir := [toyFile "afrikaans.json" []; toyFile "czech.json" ["x"]; toyFile "zulu.json" []] in
  NewRegistry 2 (fun _ => false) (fun i => i) dir = inr (ErrNoWords "afrikaans")
  /\ NewRegistry 2 (fun _ => false) (fun i => S i / 2)%nat dir = inr (ErrNoWords "afrikaans")
  /\ NewRegistry 2 (fun _ => false) (fun i => 1 - i)%nat dir = inr (ErrNoWords "zulu").
Proof. cbn zeta. split_and!; vm_compute; reflexivity. Qed.

Definition toyDir : list dictFile :=
  [toyFile "afrikaans.json" ["x"]; toyFile "README" []; toyFile "czech.json" ["x"; "y"]].

Lemma registry_content_addressed_witness :
  exists r, NewRegistry 4 (fun _ => false) (fun i => i) toyDir = inl r
    /\ NewRegistry 1 (fun _ => false) (fun i => i) toyDir = inl r
    /\ Body r "2" = Some [0; 1; 2].
Proof.
  eexists. assert (NewRegistry 4 (fun _ => false) (fun i => i) toyDir = inl _) as E
    by (vm_compute; reflexivity).
  split; [exact E|]. split; [|vm_compute; reflexivity].
  exact (proj2 (proj2 (proj2 (registry_content_addressed 4 (fun _ => false) (fun i => i) toyDir _ E)))
           1%nat (fun i => i)).
Defined.
