(* ===== verification/Decide.v ===== *)
(** * internal/replay/decide.go, queue.go: from a replay's outcome to a run's new state

    [Decide] is the pure core of the replay worker.  A run, the result of replaying
    it and the error that may have ended the replay go in; the status, the numbers,
    the audit document and the retry bookkeeping come out.  Error texts keep the
    code's own words; what a library adds after the colon is left out. *)

From S2P Require Import Prelude GoStd Json Uuid Policy Core.
From Stdlib Require Import Floats.SpecFloat.

Open Scope Z_scope.

(** ** The status vocabulary, internal/runstatus *)
Module Runstatus.
Definition Pending := "pending".
Definition Accepted := "accepted".
Definition Flagged := "flagged".
Definition Rejected := "rejected".
End Runstatus.

Definition ReasonUnknownDict := "unknown_dict".
Definition ReasonUnknownQuote := "unknown_quote".
Definition ReasonReplayTimeout := "replay_timeout".
Definition ReasonReplayError := "replay_error".
Definition ReasonScoreMismatch := "score_mismatch".
Definition ReasonMetricMismatch := "metric_mismatch".
Definition ReasonSuspicionThreshold := "suspicion_threshold".
Definition ReasonBotPattern := "bot_pattern".

Definition metricTolerance : F64.f64 := F64.of_dec 1 (-9).

(** ** The validation document *)

Record divergence := { dv_Field : string; dv_Client : option F64.f64; dv_Server : F64.f64 }.

Record policyDoc := {
  pd_Version : Z; pd_Suspicion : F64.f64; pd_Threshold : F64.f64;
  pd_Rules : list string; pd_UnknownFlags : list string }.

Record validationDoc := {
  vd_Verdict : string; vd_Reason : string; vd_Flags : list Flag;
  vd_Policy : option policyDoc; vd_Divergence : option divergence }.

(** [json.Marshal] refuses a float that is not finite. *)
Definition finite64 (x : F64.f64) : bool :=
  match x with S754_nan | S754_infinity _ => false | _ => true end.

Definition marshals (doc : validationDoc) : bool :=
  forallb (fun f => finite64 (fl_Score f)) (vd_Flags doc)
  && match vd_Policy doc with
     | Some p => finite64 (pd_Suspicion p) && finite64 (pd_Threshold p)
     | None => true
     end
  && match vd_Divergence doc with
     | Some d => match dv_Client d with Some c => finite64 c | None => true end && finite64 (dv_Server d)
     | None => true
     end.

(** The literal written when marshalling fails. *)
Definition fallbackDoc : validationDoc :=
  {| vd_Verdict := "error"; vd_Reason := "replay_error"; vd_Flags := [];
     vd_Policy := None; vd_Divergence := None |}.

(** ** The parts of the snapshots the comparison reads *)

Definition clientScoreDoc := option F64.f64.
Definition dec_clientScoreDoc : Json.decoder clientScoreDoc :=
  Json.dec_struct ["total"] (fun _ => Json.dec_ptr F64.zero Json.dec_float).

Definition serverScoreDoc := F64.f64.
Definition dec_serverScoreDoc : Json.decoder serverScoreDoc :=
  Json.dec_struct ["total"] (fun _ => Json.dec_float).

Record clientMetricsDoc := {
  cm_WPM : option F64.f64; cm_Raw : option F64.f64; cm_Acc : option F64.f64 }.
Definition dec_clientMetricsDoc : Json.decoder clientMetricsDoc :=
  let ptr := Json.dec_ptr F64.zero Json.dec_float in
  Json.dec_struct ["wpm"; "raw"; "acc"] (fun f =>
    if f =s? "wpm" then
      Json.field cm_WPM (fun v m => {| cm_WPM := v; cm_Raw := cm_Raw m; cm_Acc := cm_Acc m |}) ptr
    else if f =s? "raw" then
      Json.field cm_Raw (fun v m => {| cm_WPM := cm_WPM m; cm_Raw := v; cm_Acc := cm_Acc m |}) ptr
    else
      Json.field cm_Acc (fun v m => {| cm_WPM := cm_WPM m; cm_Raw := cm_Raw m; cm_Acc := v |}) ptr).

Record serverMetricsDoc := { sm_WPM : F64.f64; sm_Raw : F64.f64; sm_Accuracy : F64.f64 }.
Definition dec_serverMetricsDoc : Json.decoder serverMetricsDoc :=
  Json.dec_struct ["wpm"; "raw"; "accuracy"] (fun f =>
    if f =s? "wpm" then
      Json.field sm_WPM (fun v m => {| sm_WPM := v; sm_Raw := sm_Raw m; sm_Accuracy := sm_Accuracy m |})
        Json.dec_float
    else if f =s? "raw" then
      Json.field sm_Raw (fun v m => {| sm_WPM := sm_WPM m; sm_Raw := v; sm_Accuracy := sm_Accuracy m |})
        Json.dec_float
    else
      Json.field sm_Accuracy (fun v m => {| sm_WPM := sm_WPM m; sm_Raw := sm_Raw m; sm_Accuracy := v |})
        Json.dec_float).

(** [Unmarshal] of a raw message; a nil one is no JSON at all. *)
Definition unmarshalRaw {A} (d : Json.decoder A) (zero : A) (raw : option json) : option A :=
  match raw with Some j => Json.unmarshal d zero j | None => None end.

(** [None]: no divergence; [inr]: the error's text. *)
Definition compareScore (client : json) (server : option json) : option divergence + string :=
  match unmarshalRaw dec_serverScoreDoc F64.zero server with
  | None => inr "replay: decode server score: "
  | Some s =>
    match Json.unmarshal dec_clientScoreDoc None client with
    | None => inr "replay: decode client score: "
    | Some c =>
      match c with
      | Some t => if F64.eqb t s then inl None
                  else inl (Some {| dv_Field := "total"; dv_Client := c; dv_Server := s |})
      | None => inl (Some {| dv_Field := "total"; dv_Client := c; dv_Server := s |})
      end
    end
  end.

(** The loop over the three comparisons. *)
Fixpoint firstDivergence (l : list (string * option F64.f64 * F64.f64)) : option divergence :=
  match l with
  | [] => None
  | (field, client, server) :: l =>
    let d := Some {| dv_Field := field; dv_Client := client; dv_Server := server |} in
    match client with
    | None => d
    | Some c => if F64.ltb metricTolerance (F64.abs (F64.sub c server)) then d else firstDivergence l
    end
  end.

Definition compareMetrics (client : json) (server : option json) : option divergence + string :=
  match unmarshalRaw dec_serverMetricsDoc
          {| sm_WPM := F64.zero; sm_Raw := F64.zero; sm_Accuracy := F64.zero |} server with
  | None => inr "replay: decode server metrics: "
  | Some s =>
    match Json.unmarshal dec_clientMetricsDoc {| cm_WPM := None; cm_Raw := None; cm_Acc := None |} client with
    | None => inr "replay: decode client metrics: "
    | Some c => inl (firstDivergence [("wpm", cm_WPM c, sm_WPM s); ("raw", cm_Raw c, sm_Raw s);
                                      ("acc", cm_Acc c, sm_Accuracy s)])
    end
  end.

Definition runSeconds (metrics : option json) : F64.f64 :=
  match metrics with
  | None => F64.zero
  | Some m => default F64.zero
      (Json.unmarshal (Json.dec_struct ["durationSec"] (fun _ => Json.dec_float)) F64.zero m)
  end.

Definition roundSuspicion (v : F64.f64) : F64.f64 :=
  F64.div (F64.round (F64.mul v (F64.of_Z 1000000))) (F64.of_Z 1000000).

Definition replayErrText (e : replayError) : string :=
  match e with
  | ErrUnknownDict => "replay: unknown dict_hash"
  | ErrUnknownQuote detail => "replay: unresolvable quote: " +:+ detail
  | ErrReplayTimeout => "replay: core call timed out"
  | ErrReplay detail => detail
  end.

(** ** The decider *)

Record Decider := { dr_judge : Judge; dr_version : Z; dr_rejudging : bool }.

Definition ForRejudgement (p : Decider) : Decider :=
  {| dr_judge := dr_judge p; dr_version := dr_version p; dr_rejudging := true |}.

Definition NewDecider (j : option Judge) : Decider + versionError :=
  let j := default Noop j in
  match ParseVersion (jg_Version j) with
  | inr e => inr e
  | inl version => inl {| dr_judge := j; dr_version := version; dr_rejudging := false |}
  end.

Section decide.
Context `{Uuid} `{GameCore}.

Record PendingRun := {
  pr_ID : UUID; pr_Seed : Z; pr_DictHash : string; pr_ScoreVersion : Z;
  pr_Setup : json; pr_ClientMetrics : json; pr_ClientScore : json;
  pr_Log : list Z; pr_Attempts : Z; pr_CreatedAt : Z }.

Record Decision := {
  dc_Status : string;
  dc_ServerMetrics : option json; dc_ServerScore : option json;
  dc_Validation : validationDoc;
  dc_BundleSHA : string; dc_PolicyVersion : Z; dc_Attempts : Z; dc_LastError : string;
  dc_CharObservations : list CharObservation }.

(** The decision before its status and document are known. *)
Definition baseDecision (p : Decider) (run : PendingRun) : Decision :=
  {| dc_Status := ""; dc_ServerMetrics := None; dc_ServerScore := None; dc_Validation := fallbackDoc;
     dc_BundleSHA := bundleSHA; dc_PolicyVersion := dr_version p; dc_Attempts := pr_Attempts run;
     dc_LastError := ""; dc_CharObservations := [] |}.

Definition withNumbers (res : Result) (d : Decision) : Decision :=
  {| dc_Status := dc_Status d; dc_ServerMetrics := rs_Metrics res; dc_ServerScore := rs_Score res;
     dc_Validation := dc_Validation d; dc_BundleSHA := dc_BundleSHA d;
     dc_PolicyVersion := dc_PolicyVersion d; dc_Attempts := dc_Attempts d;
     dc_LastError := dc_LastError d; dc_CharObservations := rs_CharObservations res |}.

(** [base.Attempts = run.Attempts + 1], at the column's width. *)
Definition failedOnce (run : PendingRun) (d : Decision) : Decision :=
  {| dc_Status := dc_Status d; dc_ServerMetrics := dc_ServerMetrics d; dc_ServerScore := dc_ServerScore d;
     dc_Validation := dc_Validation d; dc_BundleSHA := dc_BundleSHA d;
     dc_PolicyVersion := dc_PolicyVersion d; dc_Attempts := Int.int16 (pr_Attempts run + 1);
     dc_LastError := dc_LastError d; dc_CharObservations := dc_CharObservations d |}.

Definition withValidation (d : Decision) (status : string) (doc : validationDoc) (lastError : string)
    : Decision :=
  {| dc_Status := status; dc_ServerMetrics := dc_ServerMetrics d; dc_ServerScore := dc_ServerScore d;
     dc_Validation := if marshals doc then doc else fallbackDoc; dc_BundleSHA := dc_BundleSHA d;
     dc_PolicyVersion := dc_PolicyVersion d; dc_Attempts := dc_Attempts d; dc_LastError := lastError;
     dc_CharObservations := dc_CharObservations d |}.

(** A document with no policy block and no divergence. *)
Definition errorDoc (verdict reason : string) (flags : list Flag) (policy : option policyDoc)
    : validationDoc :=
  {| vd_Verdict := verdict; vd_Reason := reason; vd_Flags := flags; vd_Policy := policy;
     vd_Divergence := None |}.

(** The policy block of a judged decision. *)
Definition policyBlock (p : Decider) (verdict : JudgeDecision) : option policyDoc :=
  if negb (dr_version p =? ColumnNone) then
    Some {| pd_Version := dr_version p; pd_Suspicion := roundSuspicion (jd_Suspicion verdict);
            pd_Threshold := jd_Threshold verdict; pd_Rules := jd_Reasons verdict;
            pd_UnknownFlags := jd_UnknownFlags verdict |}
  else None.

(** The one call of the judge. *)
Definition consult (p : Decider) (run : PendingRun) (res : Result) : JudgeDecision :=
  jg_Judge (dr_judge p) (rs_Flags res)
    {| rm_DurationSec := runSeconds (rs_Metrics res); rm_ScoreVersion := pr_ScoreVersion run |}.

(** The arms of the switch that end the decision before the judge is asked. *)
Definition decideReplayError (base : Decision) (run : PendingRun) (e : replayError) : Decision :=
  match e with
  | ErrUnknownDict =>
    withValidation base Runstatus.Flagged (errorDoc verdictError ReasonUnknownDict [] None)
      ("dict_hash " +:+ pr_DictHash run +:+ " is not in the registry")
  | ErrUnknownQuote _ =>
    withValidation base Runstatus.Flagged (errorDoc verdictError ReasonUnknownQuote [] None)
      (replayErrText e)
  | ErrReplayTimeout =>
    withValidation (failedOnce run base) Runstatus.Flagged
      (errorDoc verdictError ReasonReplayTimeout [] None) (replayErrText e)
  | ErrReplay _ =>
    withValidation (failedOnce run base) Runstatus.Flagged
      (errorDoc verdictError ReasonReplayError [] None) (replayErrText e)
  end.

(** One comparison's row of the table: [None] lets the decision fall through. *)
Definition comparisonRow (run : PendingRun) (res : Result) (base : Decision) (policy : option policyDoc)
    (reason : string) (cmp : option divergence + string) : option Decision :=
  match cmp with
  | inr err =>
    Some (withValidation (failedOnce run base) Runstatus.Flagged
            (errorDoc verdictError ReasonReplayError (rs_Flags res) policy) err)
  | inl (Some d) =>
    Some (withValidation base Runstatus.Flagged
            {| vd_Verdict := verdictValid; vd_Reason := reason; vd_Flags := rs_Flags res;
               vd_Policy := policy; vd_Divergence := Some d |} "")
  | inl None => None
  end.

(** The last two rows: the judge's routing. *)
Definition judgeRow (base : Decision) (res : Result) (policy : option policyDoc) (verdict : JudgeDecision)
    : Decision :=
  if jd_NeedsReview verdict then
    let reason := match jd_Reasons verdict with
                  | [] => ReasonSuspicionThreshold | _ => ReasonBotPattern end in
    withValidation base Runstatus.Flagged (errorDoc verdictValid reason (rs_Flags res) policy) ""
  else withValidation base Runstatus.Accepted (errorDoc verdictValid "" (rs_Flags res) policy) "".

Definition Decide (p : Decider) (run : PendingRun) (res : Result) (replayErr : option replayError)
    : Decision :=
  let base := baseDecision p run in
  match replayErr with
  | Some e => decideReplayError base run e
  | None =>
    if rs_Verdict res =s? verdictInvalid then
      withValidation base Runstatus.Rejected
        (errorDoc verdictInvalid (rs_Reason res) (rs_Flags res) None) ""
    else
      let base := withNumbers res base in
      let verdict := consult p run res in
      let policy := policyBlock p verdict in
      match comparisonRow run res base policy ReasonScoreMismatch
              (compareScore (pr_ClientScore run) (rs_Score res)) with
      | Some d => d
      | None =>
        match (if dr_rejudging p then None
               else comparisonRow run res base policy ReasonMetricMismatch
                      (compareMetrics (pr_ClientMetrics run) (rs_Metrics res))) with
        | Some d => d
        | None => judgeRow base res policy verdict
        end
      end
  end.

(** ** What the comparisons demand, said without the loops *)

(** The client's total is there and equals the recomputed one. *)
Definition totals_agree (run : PendingRun) (res : Result) : Prop :=
  exists server t s, rs_Score res = Some server
    /\ Json.unmarshal dec_serverScoreDoc F64.zero server = Some s
    /\ Json.unmarshal dec_clientScoreDoc None (pr_ClientScore run) = Some (Some t)
    /\ F64.eqb t s = true.

Definition close (c : option F64.f64) (s : F64.f64) : Prop :=
  exists v, c = Some v /\ F64.ltb metricTolerance (F64.abs (F64.sub v s)) = false.

(** The client's three metrics are there and within the tolerance. *)
Definition metrics_agree (run : PendingRun) (res : Result) : Prop :=
  exists server c s, rs_Metrics res = Some server
    /\ Json.unmarshal dec_serverMetricsDoc
         {| sm_WPM := F64.zero; sm_Raw := F64.zero; sm_Accuracy := F64.zero |} server = Some s
    /\ Json.unmarshal dec_clientMetricsDoc {| cm_WPM := None; cm_Raw := None; cm_Acc := None |}
         (pr_ClientMetrics run) = Some c
    /\ close (cm_WPM c) (sm_WPM s) /\ close (cm_Raw c) (sm_Raw s) /\ close (cm_Acc c) (sm_Accuracy s).

(** The decision is made before the judge's answer matters. *)
Definition hard (rejudging : bool) (run : PendingRun) (res : Result) (replayErr : option replayError) : Prop :=
  replayErr <> None \/ rs_Verdict res = verdictInvalid \/ ~ totals_agree run res
  \/ (rejudging = false /\ ~ metrics_agree run res).

(** The replay itself, or reading its numbers, failed: what counts as an attempt. *)
Definition replay_failed (rejudging : bool) (run : PendingRun) (res : Result)
    (replayErr : option replayError) : Prop :=
  match replayErr with
  | Some ErrUnknownDict | Some (ErrUnknownQuote _) => False
  | Some _ => True
  | None =>
    rs_Verdict res <> verdictInvalid
    /\ ((exists e, compareScore (pr_ClientScore run) (rs_Score res) = inr e)
        \/ rejudging = false /\ totals_agree run res
           /\ exists e, compareMetrics (pr_ClientMetrics run) (rs_Metrics res) = inr e)
  end.

Lemma compareScore_agree run res :
  compareScore (pr_ClientScore run) (rs_Score res) = inl None <-> totals_agree run res.
Proof.
  unfold compareScore, unmarshalRaw, totals_agree. split.
  - destruct (rs_Score res) as [sv|]; [|done].
    destruct (Json.unmarshal dec_serverScoreDoc _ sv) as [s|] eqn:Es; [|done].
    destruct (Json.unmarshal dec_clientScoreDoc _ _) as [[t|]|] eqn:Ec; [|done..].
    destruct (F64.eqb t s) eqn:E; [|done]. intros _. by exists sv, t, s.
  - intros (sv & t & s & -> & -> & -> & ->). done.
Qed.

Lemma firstDivergence_None l :
  firstDivergence l = None <-> Forall (fun x => close x.1.2 x.2) l.
Proof.
  induction l as [|[[f c] s] l IH]; cbn; [done|]. rewrite Forall_cons. unfold close at 1. cbn.
  destruct c as [c|]; [|split; [done|by intros [(v & ? & _) _]]].
  destruct (F64.ltb _ _) eqn:E.
  - split; [done|]. intros [(v & [= <-] & E') _]. congruence.
  - rewrite IH. split; [by eauto|by intros [_ ?]].
Qed.

Lemma compareMetrics_agree run res :
  compareMetrics (pr_ClientMetrics run) (rs_Metrics res) = inl None <-> metrics_agree run res.
Proof.
  unfold compareMetrics, unmarshalRaw, metrics_agree. split.
  - destruct (rs_Metrics res) as [sv|]; [|done].
    destruct (Json.unmarshal dec_serverMetricsDoc _ sv) as [s|] eqn:Es; [|done].
    destruct (Json.unmarshal dec_clientMetricsDoc _ _) as [c|] eqn:Ec; [|done].
    intros Hf%(inj inl)%firstDivergence_None.
    inversion_clear Hf as [|? ? H1 Hf']. inversion_clear Hf' as [|? ? H2 Hf]. inversion_clear Hf as [|? ? H3 _].
    by exists sv, c, s.
  - intros (sv & c & s & -> & -> & -> & H1 & H2 & H3).
    rewrite (proj2 (firstDivergence_None _)); [done|]. by repeat constructor.
Qed.

Lemma comparisonRow_None run res base policy reason cmp :
  comparisonRow run res base policy reason cmp = None <-> cmp = inl None.
Proof. destruct cmp as [[d|]|]; cbn; naive_solver. Qed.

Lemma comparisonRow_Some run res base policy reason cmp d :
  comparisonRow run res base policy reason cmp = Some d ->
  dc_Status d = Runstatus.Flagged /\ cmp <> inl None
  /\ dc_Attempts d = (match cmp with inr _ => Int.int16 (pr_Attempts run + 1) | _ => dc_Attempts base end).
Proof. destruct cmp as [[?|]|]; cbn; intros [= <-]; done. Qed.

(** The metric row is skipped on a re-judgement. *)
Definition metricRow (p : Decider) (run : PendingRun) (res : Result) (base : Decision)
    (policy : option policyDoc) : option Decision :=
  if dr_rejudging p then None
  else comparisonRow run res base policy ReasonMetricMismatch
         (compareMetrics (pr_ClientMetrics run) (rs_Metrics res)).

Lemma metricRow_None p run res base policy :
  metricRow p run res base policy = None <-> dr_rejudging p = true \/ metrics_agree run res.
Proof.
  unfold metricRow. destruct (dr_rejudging p); [naive_solver|].
  rewrite comparisonRow_None, compareMetrics_agree. naive_solver.
Qed.

(** A decision goes through the rows in order. *)
Lemma Decide_cases p run res replayErr (P : Decision -> Prop) :
  let base := withNumbers res (baseDecision p run) in
  let verdict := consult p run res in
  let policy := policyBlock p verdict in
  (forall e, replayErr = Some e -> P (decideReplayError (baseDecision p run) run e)) ->
  (replayErr = None -> rs_Verdict res = verdictInvalid ->
    P (withValidation (baseDecision p run) Runstatus.Rejected
         (errorDoc verdictInvalid (rs_Reason res) (rs_Flags res) None) "")) ->
  (forall d, replayErr = None -> rs_Verdict res <> verdictInvalid -> ~ totals_agree run res ->
    comparisonRow run res base policy ReasonScoreMismatch
      (compareScore (pr_ClientScore run) (rs_Score res)) = Some d -> P d) ->
  (forall d, replayErr = None -> rs_Verdict res <> verdictInvalid -> totals_agree run res ->
    dr_rejudging p = false -> ~ metrics_agree run res ->
    comparisonRow run res base policy ReasonMetricMismatch
      (compareMetrics (pr_ClientMetrics run) (rs_Metrics res)) = Some d -> P d) ->
  (replayErr = None -> rs_Verdict res <> verdictInvalid -> totals_agree run res ->
    dr_rejudging p = true \/ metrics_agree run res -> P (judgeRow base res policy verdict)) ->
  P (Decide p run res replayErr).
Proof.
  intros base verdict policy He Hi Hs Hm Hj. unfold Decide.
  destruct replayErr as [e|]; [by apply He|].
  destruct (rs_Verdict res =s? verdictInvalid) eqn:Ei; bool_to_prop; [by apply Hi|].
  fold verdict policy base.
  destruct (comparisonRow run res base policy ReasonScoreMismatch _) as [d|] eqn:Es.
  { apply Hs; try done. rewrite <- compareScore_agree. by eapply comparisonRow_Some. }
  apply comparisonRow_None, compareScore_agree in Es.
  fold (metricRow p run res base policy).
  destruct (metricRow p run res base policy) as [d|] eqn:Em; unfold metricRow in Em.
  - destruct (dr_rejudging p) eqn:Er; [done|]. apply Hm; try done.
    rewrite <- compareMetrics_agree. by eapply comparisonRow_Some.
  - apply Hj; try done. by eapply metricRow_None, Em.
Qed.

(** What reaches the judge. *)
Lemma Decide_judged p run res :
  rs_Verdict res <> verdictInvalid -> totals_agree run res ->
  dr_rejudging p = true \/ metrics_agree run res ->
  Decide p run res None
  = judgeRow (withNumbers res (baseDecision p run)) res (policyBlock p (consult p run res)) (consult p run res).
Proof.
  intros Hi Hs%compareScore_agree Hm. unfold Decide.
  rewrite (proj2 (String.eqb_neq _ _) Hi), Hs. cbn [comparisonRow].
  destruct Hm as [->|Hm%compareMetrics_agree]; [done|]. rewrite Hm. by destruct (dr_rejudging p).
Qed.

(** Whatever is decided, the run is judged, and stamped with the bundle and the version. *)
Lemma Decide_never_pending p run res replayErr :
  let d := Decide p run res replayErr in
  dc_Status d = Runstatus.Accepted \/ dc_Status d = Runstatus.Flagged \/ dc_Status d = Runstatus.Rejected.
Proof.
  cbn zeta. apply Decide_cases; auto.
  - intros [] ->; auto.
  - intros d -> _ _ [-> _]%comparisonRow_Some. auto.
  - intros d -> _ _ _ _ [-> _]%comparisonRow_Some. auto.
  - intros _ _ _ _. unfold judgeRow. destruct (jd_NeedsReview _); auto.
Qed.

Lemma Decide_stamps p run res replayErr :
  let d := Decide p run res replayErr in
  dc_BundleSHA d = bundleSHA /\ dc_PolicyVersion d = dr_version p.
Proof.
  cbn zeta. apply Decide_cases; try done.
  - by intros [] ->.
  - intros d _ _ _ Hd. unfold comparisonRow in Hd. destruct (compareScore _ _) as [[?|]|]; by simplify_eq.
  - intros d _ _ _ _ _ Hd. unfold comparisonRow in Hd. destruct (compareMetrics _ _) as [[?|]|]; by simplify_eq.
  - intros _ _ _ _. unfold judgeRow. by destruct (jd_NeedsReview _).
Qed.

(** One row of the table: which status it writes and which it does not. *)
Ltac decide_rows :=
  cbn; rewrite !elem_of_cons; repeat split; try discriminate; intros; destruct_and?; destruct_or?;
  first [done | congruence | tauto].

(** C26: the decision table.  A run is accepted exactly when the replay ended without
    an error, the core did not find the log invalid, the totals are the same number,
    the three metrics agree within the tolerance (or this is a re-judgement) and the
    judge asks for no review.  It is rejected exactly when the core found the log
    invalid.  Everything else is flagged: no run is left, or put back, pending. *)
Theorem decide_table (p : Decider) (run : PendingRun) (res : Result) (replayErr : option replayError) :
  let d := Decide p run res replayErr in
  (dc_Status d = Runstatus.Accepted <->
     replayErr = None /\ rs_Verdict res <> verdictInvalid /\ totals_agree run res
     /\ (dr_rejudging p = true \/ metrics_agree run res)
     /\ jd_NeedsReview (consult p run res) = false)
  /\ (dc_Status d = Runstatus.Rejected <-> replayErr = None /\ rs_Verdict res = verdictInvalid)
  /\ dc_Status d ∈ [Runstatus.Accepted; Runstatus.Flagged; Runstatus.Rejected].
Proof.
  cbn zeta. apply Decide_cases.
  - intros e ->. destruct e; by decide_rows.
  - intros -> ->. by decide_rows.
  - intros d -> Hi Hs [Hd _]%comparisonRow_Some. rewrite Hd. by decide_rows.
  - intros d -> Hi Hs Hr Hm [Hd _]%comparisonRow_Some. rewrite Hd, Hr. by decide_rows.
  - intros -> Hi Hs Hm. unfold judgeRow. destruct (jd_NeedsReview _); by decide_rows.
Qed.

(** A hard decision's row does not mention the judge: what two deciders of the same
    mode make of it differs in the policy block and version alone. *)
Lemma withValidation_marshals d s doc e :
  marshals doc = true -> dc_Validation (withValidation d s doc e) = doc.
Proof. cbn. by intros ->. Qed.

(** The policy block of a judged run can be written out. *)
Definition policy_marshals (p : Decider) (run : PendingRun) (res : Result) : Prop :=
  forall d, policyBlock p (consult p run res) = Some d ->
  finite64 (pd_Suspicion d) = true /\ finite64 (pd_Threshold d) = true.

(** A document but for the policy block. *)
Definition unjudged (doc : validationDoc) : validationDoc :=
  {| vd_Verdict := vd_Verdict doc; vd_Reason := vd_Reason doc; vd_Flags := vd_Flags doc;
     vd_Policy := None; vd_Divergence := vd_Divergence doc |}.

(** Everything of a decision the judge has no part in. *)
Definition judge_free (d : Decision) : Decision :=
  {| dc_Status := dc_Status d; dc_ServerMetrics := dc_ServerMetrics d; dc_ServerScore := dc_ServerScore d;
     dc_Validation := unjudged (dc_Validation d); dc_BundleSHA := dc_BundleSHA d; dc_PolicyVersion := 0;
     dc_Attempts := dc_Attempts d; dc_LastError := dc_LastError d;
     dc_CharObservations := dc_CharObservations d |}.

Lemma marshals_policy v r fs pol dv :
  (forall d, pol = Some d -> finite64 (pd_Suspicion d) = true /\ finite64 (pd_Threshold d) = true) ->
  marshals {| vd_Verdict := v; vd_Reason := r; vd_Flags := fs; vd_Policy := pol; vd_Divergence := dv |}
  = marshals {| vd_Verdict := v; vd_Reason := r; vd_Flags := fs; vd_Policy := None; vd_Divergence := dv |}.
Proof.
  intros Hp. unfold marshals. cbn. destruct pol as [d|]; [|done].
  by destruct (Hp d eq_refl) as [-> ->].
Qed.

Lemma unjudged_written v r fs pol dv :
  (forall d, pol = Some d -> finite64 (pd_Suspicion d) = true /\ finite64 (pd_Threshold d) = true) ->
  let doc := {| vd_Verdict := v; vd_Reason := r; vd_Flags := fs; vd_Policy := pol; vd_Divergence := dv |} in
  unjudged (if marshals doc then doc else fallbackDoc)
  = (if marshals (unjudged doc) then unjudged doc else fallbackDoc).
Proof.
  intros Hp. cbn zeta. rewrite (marshals_policy _ _ _ _ _ Hp). unfold unjudged. cbn [vd_Verdict vd_Reason vd_Flags vd_Divergence].
  by destruct (marshals _).
Qed.

Lemma comparisonRow_judge_free p q run res reason cmp :
  policy_marshals p run res -> policy_marshals q run res ->
  judge_free <$> comparisonRow run res (withNumbers res (baseDecision p run))
                   (policyBlock p (consult p run res)) reason cmp
  = judge_free <$> comparisonRow run res (withNumbers res (baseDecision q run))
                   (policyBlock q (consult q run res)) reason cmp.
Proof.
  intros Hp Hq. destruct cmp as [[dv|]|e]; [|done|].
  all: cbn [comparisonRow fmap option_fmap option_map]; f_equal; unfold judge_free.
  all: cbn [withValidation dc_Status dc_ServerMetrics dc_ServerScore dc_Validation dc_BundleSHA dc_Attempts dc_LastError dc_CharObservations].
  all: unfold errorDoc; by rewrite (unjudged_written _ _ _ _ _ Hp), (unjudged_written _ _ _ _ _ Hq).
Qed.

(** The refusals above the last two rows do not depend on the judge.  Two deciders
    in the same mode, whatever their judges, take the same hard decision about a run:
    same status, reason, divergence, flags, numbers, attempts and error.  (The one
    thing a judge could spoil is the document itself, by a suspicion that is not a
    finite number; hence the two hypotheses about the written policy block.) *)
Theorem hard_verdicts_judge_free (p q : Decider) (run : PendingRun) (res : Result)
    (replayErr : option replayError)
    (Hmode : dr_rejudging p = dr_rejudging q)
    (Hp : policy_marshals p run res) (Hq : policy_marshals q run res)
    (Hhard : hard (dr_rejudging p) run res replayErr) :
  judge_free (Decide p run res replayErr) = judge_free (Decide q run res replayErr).
Proof.
  unfold Decide. destruct replayErr as [e|]; [by destruct e|].
  destruct (rs_Verdict res =s? verdictInvalid) eqn:Ei; bool_to_prop; [done|].
  pose proof (comparisonRow_judge_free p q run res ReasonScoreMismatch
                (compareScore (pr_ClientScore run) (rs_Score res)) Hp Hq) as Hs.
  pose proof (comparisonRow_judge_free p q run res ReasonMetricMismatch
                (compareMetrics (pr_ClientMetrics run) (rs_Metrics res)) Hp Hq) as Hm.
  destruct Hhard as [?|[?|[Hh|[Hr Hh]]]]; [done..| |].
  - rewrite <- compareScore_agree in Hh.
    destruct (compareScore _ _) as [[dv|]|err]; [|done|]; exact (inj Some _ _ Hs).
  - rewrite <- Hmode, Hr. rewrite <- compareMetrics_agree in Hh.
    destruct (compareScore _ _) as [[dv|]|err]; [exact (inj Some _ _ Hs)| |exact (inj Some _ _ Hs)].
    cbn [comparisonRow]. destruct (compareMetrics _ _) as [[dv|]|err]; [|done|]; exact (inj Some _ _ Hm).
Qed.

Definition withClientMetrics (m : json) (run : PendingRun) : PendingRun :=
  {| pr_ID := pr_ID run; pr_Seed := pr_Seed run; pr_DictHash := pr_DictHash run;
     pr_ScoreVersion := pr_ScoreVersion run; pr_Setup := pr_Setup run; pr_ClientMetrics := m;
     pr_ClientScore := pr_ClientScore run; pr_Log := pr_Log run; pr_Attempts := pr_Attempts run;
     pr_CreatedAt := pr_CreatedAt run |}.

(** What a re-judgement changes, and that it is nothing else.  It ignores the
    metrics the client sent, and it decides as a first judgement would have had the
    client sent metrics that agree; so a run accepted when it came in is accepted
    again by the same core and judge. *)
Theorem rejudgement_forgets_client_metrics (p : Decider) (run : PendingRun) (res : Result)
    (replayErr : option replayError) :
  (forall m, Decide (ForRejudgement p) (withClientMetrics m run) res replayErr
             = Decide (ForRejudgement p) run res replayErr)
  /\ (forall m, metrics_agree (withClientMetrics m run) res ->
      Decide (ForRejudgement p) run res replayErr = Decide p (withClientMetrics m run) res replayErr)
  /\ (dc_Status (Decide p run res replayErr) = Runstatus.Accepted ->
      Decide (ForRejudgement p) run res replayErr = Decide p run res replayErr).
Proof.
  assert (forall m, Decide (ForRejudgement p) (withClientMetrics m run) res replayErr
                    = Decide (ForRejudgement p) run res replayErr) as Hforget.
  { intros m. by destruct replayErr as [[]|]. }
  assert (forall r, metrics_agree r res ->
    Decide (ForRejudgement p) r res replayErr = Decide p r res replayErr) as Hagree.
  { intros r Hm%compareMetrics_agree. unfold Decide. rewrite Hm.
    destruct replayErr; [done|]. cbn. by destruct (dr_rejudging p). }
  split; [done|]. split; [intros m Hm; rewrite <- (Hforget m); by apply Hagree|].
  apply Decide_cases; try done.
  - by intros [] ->.
  - by intros d -> _ _ [-> _]%comparisonRow_Some.
  - by intros d -> _ _ _ _ [-> _]%comparisonRow_Some.
  - intros -> Hi Hs Hm _. rewrite (Decide_judged (ForRejudgement p)); [done..|by left].
Qed.

(** The attempts counter.  It moves, by one, exactly when the replay failed (the
    core timed out, threw, or gave numbers that cannot be read) and stays put
    otherwise, an unknown dictionary or quote included; the increment is that of an
    [int16] and is exact below 32767. *)
Theorem attempts_count_failures (p : Decider) (run : PendingRun) (res : Result)
    (replayErr : option replayError) :
  let d := Decide p run res replayErr in
  (replay_failed (dr_rejudging p) run res replayErr -> dc_Attempts d = Int.int16 (pr_Attempts run + 1))
  /\ (~ replay_failed (dr_rejudging p) run res replayErr -> dc_Attempts d = pr_Attempts run)
  /\ (0 <= pr_Attempts run < 32767 -> pr_Attempts run <= dc_Attempts d <= pr_Attempts run + 1).
Proof.
  cbn zeta.
  assert (0 <= pr_Attempts run < 32767 -> Int.int16 (pr_Attempts run + 1) = pr_Attempts run + 1) as Hw.
  { intros Ha. apply Int.wrap_id; unfold Int.in_range; lia. }
  apply Decide_cases.
  - intros [] ->; cbn -[Int.int16]; (split; [done|]); (split; [try done; intros Hn; by destruct Hn|lia]).
  - intros -> Hi. cbn. split; [by intros [? _]|]. split; [done|lia].
  - intros d -> Hi Hs (_ & _ & ->)%comparisonRow_Some. cbn [replay_failed].
    destruct (compareScore _ _) as [v|e]; cbn -[Int.int16]; [|by split; [done|]; split; [naive_solver|lia]].
    split; [by intros [_ [[? ?]|(_ & ? & _)]]|]. split; [done|lia].
  - intros d -> Hi Hs -> Hm (_ & _ & ->)%comparisonRow_Some. cbn [replay_failed].
    destruct (compareMetrics _ _) as [v|e]; cbn -[Int.int16]; [|by split; [done|]; split; [naive_solver|lia]].
    split; [|split; [done|lia]]. intros [_ [[? E]|(_ & _ & ? & E)]]; [|done].
    apply compareScore_agree in Hs. congruence.
  - intros -> Hi Hs Hm. cbn [replay_failed].
    assert (dc_Attempts (judgeRow (withNumbers res (baseDecision p run)) res
              (policyBlock p (consult p run res)) (consult p run res)) = pr_Attempts run) as ->.
    { unfold judgeRow. by destruct (jd_NeedsReview _). }
    split; [|split; [done|lia]]. apply compareScore_agree in Hs as Hs'.
    intros [_ [[? E]|(Hr & _ & ? & E)]]; [congruence|].
    destruct Hm as [?|Hm%compareMetrics_agree]; congruence.
Qed.
End decide.

(** ** Witnesses *)

Definition toyRun (total wpm : string) : PendingRun :=
  {| pr_ID := uuid_Nil; pr_Seed := 7; pr_DictHash := "d1"; pr_ScoreVersion := 3;
     pr_Setup := in_Setup (toyInput None);
     pr_ClientMetrics := JObj [("wpm", JNum wpm); ("raw", JNum "62"); ("acc", JNum "0.97")];
     pr_ClientScore := JObj [("total", JNum total)];
     pr_Log := []; pr_Attempts := 0; pr_CreatedAt := 0 |}.

(** A judge that sends everything to review. *)
Definition strictJudge : Judge :=
  {| jg_Judge _ _ := {| jd_Suspicion := F64.of_Z 9; jd_NeedsReview := true; jd_Reasons := [];
                        jd_Threshold := F64.zero; jd_UnknownFlags := [] |};
     jg_Version := "7" |}.

Definition openDecider : Decider := {| dr_judge := Noop; dr_version := 0; dr_rejudging := false |}.
Definition strictDecider : Decider := {| dr_judge := strictJudge; dr_version := 7; dr_rejudging := false |}.

Example accepted_run : dc_Status (Decide openDecider (toyRun "130" "60.5") toyResult None) = "accepted".
Proof. vm_compute. reflexivity. Qed.

Example reviewed_run :
  let d := Decide strictDecider (toyRun "130" "60.5") toyResult None in
  dc_Status d = "flagged" /\ vd_Reason (dc_Validation d) = "suspicion_threshold".
Proof. vm_compute. split; reflexivity. Qed.

Example tampered_metric :
  vd_Reason (dc_Validation (Decide openDecider (toyRun "130" "61") toyResult None)) = "metric_mismatch"
  /\ dc_Status (Decide (ForRejudgement openDecider) (toyRun "130" "61") toyResult None) = "accepted".
Proof. vm_compute. split; reflexivity. Qed.

Lemma hard_verdicts_judge_free_witness :
  dc_Status (Decide openDecider (toyRun "131" "60.5") toyResult None) = "flagged"
  /\ judge_free (Decide openDecider (toyRun "131" "60.5") toyResult None)
     = judge_free (Decide strictDecider (toyRun "131" "60.5") toyResult None).
Proof.
  split; [vm_compute; reflexivity|].
  apply (hard_verdicts_judge_free openDecider strictDecider (toyRun "131" "60.5") toyResult None eq_refl).
  - intros d [=].
  - intros d [= <-]. vm_compute. by split.
  - right. right. left. intros Ht%compareScore_agree. vm_compute in Ht. discriminate.
Defined.
