(* ===== verification/Worker.v ===== *)
(** * internal/replay/worker.go: judging one run, and a batch of them

    [JudgeRun] is the code's [Judge]: it finds out where a run's text comes from,
    fetches it, decompresses the log, replays and decides.  The quote registry is a
    parameter; decompression is the one of [Runs]. *)

From S2P Require Import Prelude GoStd Json Uuid Protocol Runs Policy Core Registry Decide.

Open Scope Z_scope.

Definition maxLogBytes : Z := Z.shiftl 16 20.

(** ** Configuration *)

Definition DefaultPollInterval : Z := 2 * 10 ^ 9.
Definition DefaultBatchSize : Z := 20.
Definition DefaultConcurrency : Z := 1.
Definition DefaultReplayTimeout : Z := 45 * 10 ^ 9.

(** A duration is nanoseconds; an instant counts from the zero [time.Time]; a decider
    that was never built is [None]. *)
Record WorkerConfig := {
  wc_PollInterval : Z; wc_BatchSize : Z; wc_Concurrency : Z; wc_ReplayTimeout : Z;
  wc_ShutdownGrace : Z; wc_Decider : option Decider; wc_CanaryEpoch : Z }.

Definition noopDecider : Decider := {| dr_judge := Noop; dr_version := ColumnNone; dr_rejudging := false |}.

Definition orDefault (d v : Z) : Z := if v <=? 0 then d else v.

Definition withDefaults (c : WorkerConfig) : WorkerConfig :=
  {| wc_PollInterval := orDefault DefaultPollInterval (wc_PollInterval c);
     wc_BatchSize := orDefault DefaultBatchSize (wc_BatchSize c);
     wc_Concurrency := orDefault DefaultConcurrency (wc_Concurrency c);
     wc_ReplayTimeout := orDefault DefaultReplayTimeout (wc_ReplayTimeout c);
     wc_ShutdownGrace := orDefault (30 * 10 ^ 9) (wc_ShutdownGrace c);
     wc_Decider := Some (match wc_Decider c with
                         | Some d => d
                         | None => match NewDecider (Some Noop) with inl d => d | inr _ => noopDecider end
                         end);
     wc_CanaryEpoch := wc_CanaryEpoch c |}.

(** What [loop] does after a batch: straight round again, or sleep first. *)
Definition goesRound (batchSize : Z) (outcome : option Z) : bool :=
  match outcome with Some claimed => claimed =? batchSize | None => false end.

Definition CanariesArmedAt (createdAt epoch : Z) : bool :=
  if epoch =? 0 then false else negb (createdAt <? epoch).

(** ** Where the text comes from *)

Record textSourceView := { tv_Kind : string; tv_QuoteID : string; tv_QuoteHash : string }.

(** [env.Generation.TextSource]; [Generation] is a struct, [TextSource] a pointer. *)
Definition textSourceEnvelope := option textSourceView.

Definition dec_textSourceView : Json.decoder textSourceView :=
  Json.dec_struct ["kind"; "quoteId"; "quoteHash"] (fun f =>
    if f =s? "kind" then
      Json.field tv_Kind (fun v s => {| tv_Kind := v; tv_QuoteID := tv_QuoteID s;
        tv_QuoteHash := tv_QuoteHash s |}) Json.dec_string
    else if f =s? "quoteId" then
      Json.field tv_QuoteID (fun v s => {| tv_Kind := tv_Kind s; tv_QuoteID := v;
        tv_QuoteHash := tv_QuoteHash s |}) Json.dec_string
    else
      Json.field tv_QuoteHash (fun v s => {| tv_Kind := tv_Kind s; tv_QuoteID := tv_QuoteID s;
        tv_QuoteHash := v |}) Json.dec_string).

Definition dec_textSourceEnvelope : Json.decoder textSourceEnvelope :=
  Json.dec_struct ["generation"] (fun _ =>
    Json.dec_struct ["textSource"] (fun _ =>
      Json.dec_ptr {| tv_Kind := ""; tv_QuoteID := ""; tv_QuoteHash := "" |} dec_textSourceView)).

Section worker.
Context `{Uuid} `{Gzip} `{GameCore}.

Record quoteRef := { qr_ID : UUID; qr_Hash : string }.

(** The answer of the quote registry. *)
Inductive resolved :=
| Resolved (text hash : string)
| NoSuchQuote
| ResolveFailed.

Definition QuoteResolver := UUID -> resolved.

Definition quoteRefOf (setup : json) : M (option quoteRef) :=
  match Json.unmarshal dec_textSourceEnvelope None setup with
  | None => failM "replay: setup.generation is unreadable: "
  | Some None => inl None
  | Some (Some src) =>
    if negb (tv_Kind src =s? TextSourceQuote) then inl None
    else match uuid_Parse (tv_QuoteID src) with
         | None => inr (ErrUnknownQuote ("quoteId " +:+ tv_QuoteID src +:+ " is not a uuid"))
         | Some id => inl (Some {| qr_ID := id; qr_Hash := tv_QuoteHash src |})
         end
  end.

Definition resolveQuote (quotes : option QuoteResolver) (ref : quoteRef) : M QuoteText :=
  match quotes with
  | None => inr (ErrUnknownQuote "this worker has no quote registry wired in")
  | Some resolve =>
    match resolve (qr_ID ref) with
    | ResolveFailed => failM ("replay: resolve quote " +:+ uuid_String (qr_ID ref) +:+ ": ")
    | NoSuchQuote => inr (ErrUnknownQuote ("no quote " +:+ uuid_String (qr_ID ref) +:+ " in the registry"))
    | Resolved text hash =>
      if negb (hash =s? qr_Hash ref)
      then inr (ErrUnknownQuote ("quote " +:+ uuid_String (qr_ID ref) +:+ " hashes to " +:+ hash
                                 +:+ ", the run claims " +:+ qr_Hash ref))
      else inl {| qt_Text := text; qt_Hash := hash |}
    end
  end.

(** Decompression with the limit on what comes out. *)
Definition gunzip (gz : list Z) : M RawMessage :=
  match gunzipLog gz with
  | None => failM "replay: decompress log: "
  | Some raw =>
    if maxLogBytes <? raw_len raw
    then failM "replay: decompress log: decompressed log exceeds the size limit"
    else inl raw
  end.

(** The text of a run: a quote, or the body of its dictionary. *)
Definition textOf (reg : Registry) (quotes : option QuoteResolver) (run : PendingRun)
    : M (option QuoteText * list Z) :=
  let? ref := quoteRefOf (pr_Setup run) in
  match ref with
  | Some ref => let? quote := resolveQuote quotes ref in inl (Some quote, [])
  | None =>
    match Body reg (pr_DictHash run) with
    | Some body => inl (None, body)
    | None => inr ErrUnknownDict
    end
  end.

(** The core's input. *)
Definition inputOf (run : PendingRun) (canaryEpoch : Z) (quote : option QuoteText) (body : list Z)
    (log : RawMessage) : Input :=
  {| in_Seed := pr_Seed run; in_DictHash := pr_DictHash run; in_DictBody := body; in_Quote := quote;
     in_Setup := pr_Setup run; in_Log := raw_val log; in_ScoreVersion := pr_ScoreVersion run;
     in_CanariesArmed := CanariesArmedAt (pr_CreatedAt run) canaryEpoch |}.

(** Everything up to the decision. *)
Definition replayRun (dicts : dictCache) (reg : Registry) (quotes : option QuoteResolver)
    (run : PendingRun) (canaryEpoch : Z) : M Result :=
  let? (quote, body) := textOf reg quotes run in
  let? log := gunzip (pr_Log run) in
  Replay (inputOf run canaryEpoch quote body log) dicts.

Definition JudgeRun (dicts : dictCache) (reg : Registry) (quotes : option QuoteResolver)
    (decider : Decider) (run : PendingRun) (canaryEpoch : Z) : Decision :=
  match replayRun dicts reg quotes run canaryEpoch with
  | inl res => Decide decider run res None
  | inr err => Decide decider run zero_Result (Some err)
  end.

(** ** A batch *)

Record batchTally := { bt_accepted : Z; bt_flagged : Z; bt_rejected : Z; bt_failed : Z }.

Definition tallyRun (run : PendingRun) (d : Decision) (t : batchTally) : batchTally :=
  let failed := if negb (dc_LastError d =s? "") && (pr_Attempts run <? dc_Attempts d)
                then bt_failed t + 1 else bt_failed t in
  if dc_Status d =s? Runstatus.Accepted
  then {| bt_accepted := bt_accepted t + 1; bt_flagged := bt_flagged t;
          bt_rejected := bt_rejected t; bt_failed := failed |}
  else if dc_Status d =s? Runstatus.Rejected
  then {| bt_accepted := bt_accepted t; bt_flagged := bt_flagged t;
          bt_rejected := bt_rejected t + 1; bt_failed := failed |}
  else {| bt_accepted := bt_accepted t; bt_flagged := bt_flagged t + 1;
          bt_rejected := bt_rejected t; bt_failed := failed |}.

(** The decisions of a batch, with the runtime's dictionaries threaded through. *)
Fixpoint judgeBatch (reg : Registry) (quotes : option QuoteResolver) (decider : Decider) (canaryEpoch : Z)
    (runs : list PendingRun) (dicts : dictCache) (t : batchTally) : list Decision * batchTally :=
  match runs with
  | [] => ([], t)
  | run :: runs =>
    let d := JudgeRun dicts reg quotes decider run canaryEpoch in
    let dicts := match textOf reg quotes run, gunzip (pr_Log run) with
                 | inl (quote, body), inl log => cacheAfter (inputOf run canaryEpoch quote body log) dicts
                 | _, _ => dicts
                 end in
    let '(ds, t) := judgeBatch reg quotes decider canaryEpoch runs dicts (tallyRun run d t) in
    (d :: ds, t)
  end.

(** ** Properties *)

(** A decision that numbers stand behind. *)
Record evidenced (reg : Registry) (quotes : option QuoteResolver) (run : PendingRun) (d : Decision)
    (text : option QuoteText * list Z) (res : Result) : Prop := {
  ev_text : match text with
            | (Some q, _) => exists ref resolve, quoteRefOf (pr_Setup run) = inl (Some ref)
                /\ quotes = Some resolve /\ resolve (qr_ID ref) = Resolved (qt_Text q) (qt_Hash q)
                /\ qt_Hash q = qr_Hash ref
            | (None, body) => quoteRefOf (pr_Setup run) = inl None /\ Body reg (pr_DictHash run) = Some body
            end;
  ev_valid : rs_Verdict res = verdictValid;
  ev_metrics : is_Some (dc_ServerMetrics d) /\ dc_ServerMetrics d = rs_Metrics res;
  ev_score : is_Some (dc_ServerScore d) /\ dc_ServerScore d = rs_Score res;
  ev_totals : totals_agree run res }.

Lemma textOf_spec reg quotes run q body :
  textOf reg quotes run = inl (q, body) ->
  match q with
  | Some q => exists ref resolve, quoteRefOf (pr_Setup run) = inl (Some ref)
      /\ quotes = Some resolve /\ resolve (qr_ID ref) = Resolved (qt_Text q) (qt_Hash q)
      /\ qt_Hash q = qr_Hash ref
  | None => quoteRefOf (pr_Setup run) = inl None /\ Body reg (pr_DictHash run) = Some body
  end.
Proof.
  unfold textOf. intros (ref & Hr & Ht)%bind_inl. destruct ref as [ref|].
  - apply bind_inl in Ht as (quote & Hq & [= <- <-]). unfold resolveQuote in Hq.
    destruct quotes as [resolve|]; [|done]. destruct (resolve (qr_ID ref)) as [t h| |] eqn:Er; [|done..].
    destruct (h =s? qr_Hash ref) eqn:Eh; [|done]. injection Hq as <-. bool_to_prop.
    by exists ref, resolve.
  - destruct (Body reg _) as [b|]; [|done]. by injection Ht as <- <-.
Qed.


(** The bodies the registry would parse. *)
Definition bodyOf (reg : Registry) (hash : string) : list Z := default [] (Body reg hash).

Definition cache_ok (reg : Registry) (dicts : dictCache) : Prop :=
  forall h v, dicts !! h = Some v -> js_parse_dictionary (bodyOf reg h) = Returned v.

Lemma textOf_body reg quotes run q body :
  textOf reg quotes run = inl (q, body) -> q = None -> body = bodyOf reg (pr_DictHash run).
Proof. intros Ht%textOf_spec ->. destruct Ht as [_ Hb]. unfold bodyOf. by rewrite Hb. Qed.

Lemma judge_cache reg quotes decider run epoch dicts :
  cache_ok reg dicts ->
  JudgeRun dicts reg quotes decider run epoch = JudgeRun ∅ reg quotes decider run epoch
  /\ cache_ok reg (match textOf reg quotes run, gunzip (pr_Log run) with
                   | inl (quote, body), inl log => cacheAfter (inputOf run epoch quote body log) dicts
                   | _, _ => dicts
                   end).
Proof.
  intros Hc. unfold JudgeRun, replayRun. destruct (textOf reg quotes run) as [[q body]|] eqn:Et; [|done].
  destruct (gunzip _) as [log|]; [|done]. cbn [bindM].
  destruct (dict_cache_transparent (bodyOf reg) (inputOf run epoch q body log) dicts Hc) as [E Hc'].
  { by eapply textOf_body. }
  by rewrite E.
Qed.

Lemma cache_ok_empty reg : cache_ok reg ∅.
Proof. intros h v Hx. by rewrite lookup_empty in Hx. Qed.

Definition tally_runs (t : batchTally) : Z := bt_accepted t + bt_flagged t + bt_rejected t.

Lemma tallyRun_count run d t : tally_runs (tallyRun run d t) = tally_runs t + 1.
Proof.
  unfold tallyRun, tally_runs. destruct (_ =s? _); cbn; [lia|]. destruct (_ =s? _); cbn; lia.
Qed.

(** A decision does not depend on its batch.  Judging a batch through one runtime,
    which keeps the dictionaries it has parsed, decides every run as judging it alone
    in a fresh runtime would; every run is decided, and counted once. *)
Theorem batch_decides_each (reg : Registry) (quotes : option QuoteResolver) (decider : Decider)
    (epoch : Z) (runs : list PendingRun) (dicts : dictCache) (t : batchTally) :
  cache_ok reg dicts ->
  (judgeBatch reg quotes decider epoch runs dicts t).1
    = (fun run => JudgeRun ∅ reg quotes decider run epoch) <$> runs
  /\ tally_runs (judgeBatch reg quotes decider epoch runs dicts t).2
    = tally_runs t + Z.of_nat (length runs).
Proof.
  revert dicts t. induction runs as [|run runs IH]; intros dicts t Hc; cbn [judgeBatch]; [cbn; by split; [|lia]|].
  destruct (judge_cache reg quotes decider run epoch dicts Hc) as [Ej Hc'].
  specialize (IH _ (tallyRun run (JudgeRun dicts reg quotes decider run epoch) t) Hc') as [IHd IHt].
  destruct (judgeBatch _ _ _ _ _ _ _) as [ds t']. cbn [fst snd] in *. rewrite tallyRun_count in IHt.
  rewrite IHd, Ej. split; [done|]. cbn [length]. lia.
Qed.

Lemma Decide_error_flagged decider run res e :
  dc_Status (Decide decider run res (Some e)) = Runstatus.Flagged.
Proof. by destruct e. Qed.

(** A log the ingest accepts can be too large to judge.  A telemetry log may be as
    large as the 25 MiB body, but the worker refuses to decompress more than 16 MiB:
    whatever the core, the judge, the dictionaries and the quotes, and however often
    the run is judged, such a run is flagged. *)
Theorem oversized_log_never_judged `{!GzipLaws} (userID : UUID) (req : ingestRequest)
    (p : CreateRunParams) (dicts : dictCache) (reg : Registry) (quotes : option QuoteResolver)
    (decider : Decider) (run : PendingRun) (epoch : Z) :
  validateIngest userID req = inl p ->
  maxLogBytes < rawLen (rq_Log req) ->
  pr_Log run = cp_Log p ->
  let d := JudgeRun dicts reg quotes decider run epoch in
  dc_Status d = Runstatus.Flagged /\ dc_ServerMetrics d = None /\ dc_ServerScore d = None.
Proof.
  intros Hv Hl Hlog. assert (gunzipLog (pr_Log run) = rq_Log req) as Hg.
  { rewrite Hlog. by apply (ingested_log userID). }
  cbn zeta. unfold JudgeRun, replayRun.
  assert (gunzip (pr_Log run)
    = failM "replay: decompress log: decompressed log exceeds the size limit") as Hz.
  { unfold gunzip. rewrite Hg. destruct (rq_Log req) as [raw|]; [|done]. cbn in Hl.
    by rewrite (proj2 (Z.ltb_lt _ _) Hl). }
  destruct (textOf reg quotes run) as [[q body]|e]; cbn [bindM]; [rewrite Hz; done|by destruct e].
Qed.
End worker.

(** ** A text of the client's own

    [encoding/json] matches member names up to case, JavaScript and SQL do not.  A
    setup with a quote under [textSource], text included, and a seeded source under
    [textsource] reads as seeded on the Go side: the two members are decoded into one
    field, and the last kind wins.  (In this order a jsonb column keeps them.) *)

Definition twoSources (text quoteID quoteHash : string) : json :=
  JObj [("config", JObj []);
        ("generation", JObj
           [("mode", JStr "time");
            ("textSource", JObj [("kind", JStr "quote"); ("text", JStr text);
                                 ("quoteId", JStr quoteID); ("quoteHash", JStr quoteHash)]);
            ("textsource", JObj [("kind", JStr "seeded")])])].

Definition kindPath : list string := ["configSnapshot"; "generation"; "textSource"; "kind"].

(** A client can have a run judged on a text of its own.  Ingestion accepts the
    setup [twoSources] with any text in it, for any dimension; the worker takes the
    run for a seeded one, so no quote is looked up and the text is not overwritten;
    and the object the core is given says it is a quote, with the client's text. *)
Theorem submitted_text_reaches_core `{Uuid} `{GameCore} `{!GameCoreLaws}
    (text quoteID quoteHash : string) :
  (forall req n, rq_Setup req = Some {| raw_len := n; raw_val := twoSources text quoteID quoteHash |} ->
     one_dimension (rq_DurationMs req) (rq_WordCount req) -> validateSetup req = None)
  /\ quoteRefOf (twoSources text quoteID quoteHash) = inl None
  /\ (forall input dicts obj dictionary dicts',
        in_Quote input = None -> in_Setup input = twoSources text quoteID quoteHash ->
        assemble input dicts = inl (obj, dictionary, dicts') ->
        js_path kindPath obj = Some (JStr "quote") /\ js_path textPath obj = Some (JStr text)).
Proof.
  split; [|split; [reflexivity|]].
  - intros req n Hs Hd. apply validateSetup_spec. eexists. rewrite Hs. split; [reflexivity|].
    split; [by left|]. left. split; [|done]. right. eexists. split; reflexivity.
  - intros input dicts obj dictionary dicts' Hq Hs. unfold assemble. rewrite Hq, Hs. cbn -[setJS].
    intros ([[d v] ds] & _ & (parsed & Hp & Ha)%bind_inl)%bind_inl.
    destruct (js_parse_input _) as [doc| |] eqn:E; [|done..]. injection Hp as ->.
    apply parse_input_value in E as ->. cbn -[setJS] in Ha. apply bind_inl in Ha as (o & Ho & [= <- _ _]).
    unfold js_path, kindPath, textPath. cbn [foldl mbind option_bind].
    by rewrite (setJS_get_ne "dictionary" "configSnapshot" _ _ _ ltac:(done) Ho).
Qed.

(** ** Witnesses *)

Definition toyRegistry : Registry :=
  {| rg_entries := [];
     rg_byHash := {[ "d1" := {| en_Catalogue := {| ce_Lang := "toy"; ce_Name := "Toy"; ce_DictHash := "d1";
                                                   ce_WordCount := 2; ce_Bytes := 2 |};
                                en_raw := [1; 2]; en_gz := [] |} ]} |}.

Definition storedRun (total : string) (log : list Z) : PendingRun :=
  {| pr_ID := uuid_Nil; pr_Seed := 7; pr_DictHash := "d1"; pr_ScoreVersion := 3;
     pr_Setup := JObj [("config", JObj []); ("generation", JObj [("mode", JStr "time")])];
     pr_ClientMetrics := JObj [("wpm", JNum "60.5"); ("raw", JNum "62"); ("acc", JNum "0.97")];
     pr_ClientScore := JObj [("total", JNum total)];
     pr_Log := log; pr_Attempts := 0; pr_CreatedAt := 0 |}.


Lemma batch_decides_each_witness :
  dc_Status <$> (judgeBatch toyRegistry None openDecider 0
     [storedRun "130" [40]; storedRun "131" [40]; storedRun "130" []] ∅
     {| bt_accepted := 0; bt_flagged := 0; bt_rejected := 0; bt_failed := 0 |}).1
  = ["accepted"; "flagged"; "flagged"].
Proof.
  rewrite (proj1 (batch_decides_each toyRegistry None openDecider 0
    [storedRun "130" [40]; storedRun "131" [40]; storedRun "130" []] ∅
    {| bt_accepted := 0; bt_flagged := 0; bt_rejected := 0; bt_failed := 0 |} (cache_ok_empty _))).
  vm_compute. reflexivity.
Defined.

(** A telemetry log of any length, and a compressor for such logs. *)
Definition wideLog (len : Z) : RawMessage :=
  {| raw_len := len;
     raw_val := JObj [("version", JNum "2"); ("events", JArr [JObj [("seq", JNum "0")]])] |}.

Definition wideGzip : Gzip := {|
  gzipLog raw :=
    match raw_val raw with
    | JObj [(a, JNum b); (c, JArr [JObj [(d, JNum e)]])] =>
      if (a =s? "version") && (b =s? "2") && (c =s? "events") && (d =s? "seq") && (e =s? "0")
      then Some [raw_len raw] else None
    | _ => None
    end;
  gunzipLog gz := match gz with [n] => Some (wideLog n) | _ => None end |}.

Lemma wideGzip_laws : @GzipLaws wideGzip.
Proof.
  constructor. intros [n j] gz. cbn. repeat (case_match; try done). bool_to_prop. subst. by intros [= <-].
Qed.

(** 17 MiB, well within the body's 25. *)
Definition wideReq : ingestRequest :=
  {| rq_Mode := "time"; rq_DurationMs := Some 15000; rq_WordCount := None; rq_Lang := "en";
     rq_Seed := Some 7; rq_DictHash := "d1";
     rq_Setup := Some {| raw_len := 2; raw_val := JObj [] |};
     rq_Log := Some (wideLog (Z.shiftl 17 20));
     rq_ClientMetrics := Some {| raw_len := 2; raw_val := JObj [] |};
     rq_ClientScore := Some {| raw_len := 2; raw_val := JObj [] |};
     rq_ScoreVersion := Some 3; rq_RestartsSinceLastSubmit := None |}.

Lemma oversized_log_never_judged_witness :
  @validateIngest uuid16_Uuid wideGzip uuid_Nil wideReq
    = inl (@paramsOf uuid16_Uuid uuid_Nil wideReq [Z.shiftl 17 20])
  /\ forall decider, dc_Status (@JudgeRun uuid16_Uuid wideGzip toyCore ∅ toyRegistry None decider
                                  (storedRun "130" [Z.shiftl 17 20]) 0) = "flagged".
Proof.
  assert (@validateIngest uuid16_Uuid wideGzip uuid_Nil wideReq
    = inl (@paramsOf uuid16_Uuid uuid_Nil wideReq [Z.shiftl 17 20])) as E by (vm_compute; reflexivity).
  split; [exact E|]. intros decider.
  exact (proj1 (@oversized_log_never_judged uuid16_Uuid wideGzip toyCore wideGzip_laws uuid_Nil wideReq _
    ∅ toyRegistry None decider (storedRun "130" [Z.shiftl 17 20]) 0 E eq_refl eq_refl)).
Defined.

Definition twoSourcesReq : ingestRequest :=
  {| rq_Mode := "time"; rq_DurationMs := Some 15000; rq_WordCount := None; rq_Lang := "en";
     rq_Seed := Some 7; rq_DictHash := "d1";
     rq_Setup := Some {| raw_len := 99; raw_val := twoSources "a a a" "q" "h" |};
     rq_Log := Some (tinyLog 40);
     rq_ClientMetrics := Some {| raw_len := 2; raw_val := JObj [] |};
     rq_ClientScore := Some {| raw_len := 2; raw_val := JObj [] |};
     rq_ScoreVersion := Some 3; rq_RestartsSinceLastSubmit := None |}.

Lemma submitted_text_reaches_core_witness :
  validateSetup twoSourcesReq = None
  /\ exists obj, assemble {| in_Seed := 7; in_DictHash := "d1"; in_DictBody := [1; 2]; in_Quote := None;
                             in_Setup := twoSources "a a a" "q" "h"; in_Log := raw_val (tinyLog 40);
                             in_ScoreVersion := 3; in_CanariesArmed := false |} ∅
                 = inl (obj, JObj [("name", JStr "toy"); ("words", JArr [JNum "1"; JNum "2"])],
                        {[ "d1" := JObj [("name", JStr "toy"); ("words", JArr [JNum "1"; JNum "2"])] ]})
       /\ js_path textPath obj = Some (JStr "a a a").
Proof.
  destruct (submitted_text_reaches_core "a a a" "q" "h") as (Hi & _ & Hc). split.
  - apply (Hi twoSourcesReq 99 eq_refl). left. exists 15000. repeat split; vm_compute; discriminate.
  - eexists. match goal with |- ?A = inl (?o, ?d, ?c) /\ _ => assert (A = inl (o, d, c)) as E by (vm_compute; reflexivity) end.
    split; [exact E|]. refine (proj2 (Hc _ _ _ _ _ _ _ E)); reflexivity.
Defined.
