(* ===== verification/RunStore.v ===== *)
(** * The runs tables and the statements that change them

    internal/runs/pgstore, internal/replay/pgstore and their queries: the rows of
    [runs], [run_verdicts] and [run_status_overrides], one definition per statement,
    and the transactions built from them.  PostgreSQL is not part of the repository:
    a statement is modelled by what it documents (a missing row updates nothing, a
    violated constraint aborts the transaction, FOR UPDATE SKIP LOCKED steps over
    locked rows and re-checks a row that changed since the statement's snapshot).
    Instants are the values of [now()]. *)

From stdpp Require Import sorting.
From Stdlib Require Import Strings.Ascii.
From S2P Require Import Prelude GoStd Json Uuid Runs Policy Core Decide.

Open Scope Z_scope.

Section store.
Context `{Uuid} `{GameCore}.

(** ** Rows *)

Record runRow := {
  rr_Params : CreateRunParams; rr_Status : string; rr_Attempts : Z; rr_LastError : option string;
  rr_CreatedAt : Z }.

Record verdictRow := {
  vr_UserID : UUID; vr_ServerMetrics : option json; vr_ServerScore : option json;
  vr_Validation : validationDoc; vr_BundleSha : option string; vr_PolicyVersion : option Z;
  vr_ValidatedAt : Z }.

Record overrideRow := {
  ov_ID : UUID; ov_RunID : UUID; ov_FromStatus : string; ov_ToStatus : string; ov_Reason : string;
  ov_DecidedBy : UUID; ov_DecidedAt : Z }.

Record tables := {
  tb_runs : gmap UUID runRow; tb_verdicts : gmap UUID verdictRow; tb_overrides : list overrideRow }.

Definition setRuns (f : gmap UUID runRow -> gmap UUID runRow) (tb : tables) : tables :=
  {| tb_runs := f (tb_runs tb); tb_verdicts := tb_verdicts tb; tb_overrides := tb_overrides tb |}.
Definition setVerdicts (f : gmap UUID verdictRow -> gmap UUID verdictRow) (tb : tables) : tables :=
  {| tb_runs := tb_runs tb; tb_verdicts := f (tb_verdicts tb); tb_overrides := tb_overrides tb |}.

(** ** Statements *)

(** [CreateRun]; the id is the column's default, the instant too. *)
Definition CreateRun (id : UUID) (now : Z) (p : CreateRunParams) (tb : tables) : tables :=
  setRuns (insert id {| rr_Params := p; rr_Status := Runstatus.Pending; rr_Attempts := 0;
                        rr_LastError := None; rr_CreatedAt := now |}) tb.

Record UpsertRunVerdictParams := {
  up_RunID : UUID; up_ServerMetrics : option json; up_ServerScore : option json;
  up_Validation : validationDoc; up_BundleSha : option string; up_PolicyVersion : option Z }.

(** INSERT .. SELECT FROM runs .. ON CONFLICT DO UPDATE: [user_id] is copied from the
    run when the row is new and left alone after that. *)
Definition UpsertRunVerdict (now : Z) (p : UpsertRunVerdictParams) (tb : tables) : tables :=
  match tb_runs tb !! up_RunID p with
  | None => tb
  | Some r =>
    let user := match tb_verdicts tb !! up_RunID p with
                | Some v => vr_UserID v
                | None => cp_UserID (rr_Params r)
                end in
    setVerdicts (insert (up_RunID p)
      {| vr_UserID := user; vr_ServerMetrics := up_ServerMetrics p; vr_ServerScore := up_ServerScore p;
         vr_Validation := up_Validation p; vr_BundleSha := up_BundleSha p;
         vr_PolicyVersion := up_PolicyVersion p; vr_ValidatedAt := now |}) tb
  end.

(** [NULLIF(x, '')]. *)
Definition NullIfEmpty (s : string) : option string := if s =s? "" then None else Some s.

Definition ApplyRunOutcome (id : UUID) (status : string) (attempts : Z) (lastError : string) (tb : tables)
    : tables :=
  setRuns (alter (fun r => {| rr_Params := rr_Params r; rr_Status := status; rr_Attempts := attempts;
                              rr_LastError := NullIfEmpty lastError; rr_CreatedAt := rr_CreatedAt r |}) id) tb.

Definition SetRunStatus (id : UUID) (status : string) (tb : tables) : tables :=
  setRuns (alter (fun r => {| rr_Params := rr_Params r; rr_Status := status; rr_Attempts := rr_Attempts r;
                              rr_LastError := rr_LastError r; rr_CreatedAt := rr_CreatedAt r |}) id) tb.

Definition overridden (ovs : list overrideRow) (id : UUID) : bool :=
  existsb (fun o => bool_decide (ov_RunID o = id)) ovs.

(** [RunStatusForOverride]: no row, or the status and whether it was overridden. *)
Definition RunStatusForOverride (id : UUID) (tb : tables) : option (string * bool) :=
  (fun r => (rr_Status r, overridden (tb_overrides tb) id)) <$> tb_runs tb !! id.

Definition judgedStatus (s : string) : bool :=
  (s =s? Runstatus.Accepted) || (s =s? Runstatus.Flagged) || (s =s? Runstatus.Rejected).

(** [length(btrim(reason)) > 0]: [btrim] drops spaces and nothing else. *)
Definition reasonGiven (reason : string) : bool := negb (Strs.str_forallb (Ascii.eqb " "%char) reason).

(** [InsertRunStatusOverride], with the table's CHECK constraints: [None] is the
    constraint violation. *)
Definition InsertRunStatusOverride (row : overrideRow) (tb : tables) : option tables :=
  if judgedStatus (ov_FromStatus row) && judgedStatus (ov_ToStatus row) && reasonGiven (ov_Reason row)
     && negb (ov_FromStatus row =s? ov_ToStatus row)
  then Some {| tb_runs := tb_runs tb; tb_verdicts := tb_verdicts tb; tb_overrides := row :: tb_overrides tb |}
  else None.

(** ** The two claims *)

(** WHERE of [ClaimPendingRuns]. *)
Definition pendingMatch (tb : tables) (id : UUID) : bool :=
  match tb_runs tb !! id with Some r => rr_Status r =s? Runstatus.Pending | None => false end.

(** The stale arms of [ClaimStalePolicyRuns] on the joined rows. *)
Definition staleVerdict (policyVersion : Z) (bundle : string) (v : verdictRow) : bool :=
  match vr_PolicyVersion v with None => true | Some pv => pv <? policyVersion end
  || negb (bool_decide (vr_BundleSha v = Some bundle)).

(** WHERE of [ClaimStalePolicyRuns]: the run and its verdict are the rows locked, the
    overrides those of the statement's snapshot. *)
Definition staleMatch (policyVersion : Z) (bundle : string) (ovs : list overrideRow) (tb : tables)
    (id : UUID) : bool :=
  match tb_runs tb !! id, tb_verdicts tb !! id with
  | Some _, Some v => staleVerdict policyVersion bundle v && negb (overridden ovs id)
  | _, _ => false
  end.

Inductive claimKind := ClaimPending | ClaimStale (policyVersion : Z) (bundle : string).

Definition matches (k : claimKind) (ovs : list overrideRow) (tb : tables) (id : UUID) : bool :=
  match k with
  | ClaimPending => pendingMatch tb id
  | ClaimStale policyVersion bundle => staleMatch policyVersion bundle ovs tb id
  end.

(** ORDER BY created_at, ties in any order. *)
Definition createdAt (tb : tables) (id : UUID) : Z :=
  match tb_runs tb !! id with Some r => rr_CreatedAt r | None => 0 end.

Record inOrder (tb : tables) (order : list UUID) : Prop := {
  io_NoDup : NoDup order;
  io_all id : id ∈ order <-> is_Some (tb_runs tb !! id);
  io_sorted : Sorted (fun a b => createdAt tb a <= createdAt tb b) order }.

(** What a claim statement that started on [snap] locks and returns when it reaches
    the rows at [cur], with [locked] held by others. *)
Definition claimIDs (k : claimKind) (snap cur : tables) (locked : gset UUID) (limit : nat)
    (order : list UUID) : list UUID :=
  take limit (filter (fun id => matches k (tb_overrides snap) snap id
                                && negb (bool_decide (id ∈ locked))
                                && matches k (tb_overrides snap) cur id = true) order).

Definition toPendingRun (id : UUID) (r : runRow) : PendingRun :=
  {| pr_ID := id; pr_Seed := cp_Seed (rr_Params r); pr_DictHash := cp_DictHash (rr_Params r);
     pr_ScoreVersion := cp_ScoreVersion (rr_Params r); pr_Setup := cp_Setup (rr_Params r);
     pr_ClientMetrics := cp_ClientMetrics (rr_Params r); pr_ClientScore := cp_ClientScore (rr_Params r);
     pr_Log := cp_Log (rr_Params r); pr_Attempts := rr_Attempts r; pr_CreatedAt := rr_CreatedAt r |}.

Definition claimRows (k : claimKind) (snap cur : tables) (locked : gset UUID) (limit : nat)
    (order : list UUID) : list PendingRun :=
  omap (fun id => toPendingRun id <$> tb_runs cur !! id) (claimIDs k snap cur locked limit order).

Definition toVerdictParams (id : UUID) (d : Decision) : UpsertRunVerdictParams :=
  {| up_RunID := id; up_ServerMetrics := dc_ServerMetrics d; up_ServerScore := dc_ServerScore d;
     up_Validation := dc_Validation d;
     up_BundleSha := NullIfEmpty (dc_BundleSHA d);
     up_PolicyVersion := if 0 <? dc_PolicyVersion d then Some (dc_PolicyVersion d) else None |}.
End store.

(** ** The projections kept inside the verdict's transaction

    [Projector] and [KeyboardProjector] are interfaces of the store; a deployment may
    run without either.  [None] is an error, which aborts the transaction. *)
Class Projection `{Uuid} `{GameCore} := {
  Proj : Type;
  ProjectRun : option (tables -> UUID -> Proj -> option Proj);
  ProjectKeyboard : option (tables -> UUID -> bool -> list CharObservation -> Proj -> option Proj);
  (** The rows of a deleted account, or of its runs, cascade. *)
  ForgetUser : UUID -> tables -> Proj -> Proj }.

Section transactions.
Context `{Uuid} `{GameCore} `{!Projection}.

Record database := { db_tables : tables; db_proj : Proj }.

Definition projectRun (id : UUID) (tb : tables) (p : Proj) : option Proj :=
  match ProjectRun with Some project => project tb id p | None => Some p end.

Definition projectKeyboard (id : UUID) (d : Decision) (tb : tables) (p : Proj) : option Proj :=
  match ProjectKeyboard with
  | Some project => project tb id (dc_Status d =s? Runstatus.Accepted) (dc_CharObservations d) p
  | None => Some p
  end.

(** One turn of [inTx]'s loop: the verdict, the outcome, the two projections. *)
Definition writeOutcome (now : Z) (id : UUID) (d : Decision) (db : database) : option database :=
  let tb := UpsertRunVerdict now (toVerdictParams id d) (db_tables db) in
  let tb := ApplyRunOutcome id (dc_Status d) (dc_Attempts d) (dc_LastError d) tb in
  match projectRun id tb (db_proj db) with
  | None => None
  | Some p =>
    match projectKeyboard id d tb p with
    | None => None
    | Some p => Some {| db_tables := tb; db_proj := p |}
    end
  end.

(** [inTx] after the claim: [None] rolls everything back. *)
Fixpoint inTx (now : Z) (decide : PendingRun -> Decision) (runs : list PendingRun) (db : database)
    : option database :=
  match runs with
  | [] => Some db
  | run :: runs =>
    match writeOutcome now (pr_ID run) (decide run) db with
    | None => None
    | Some db => inTx now decide runs db
    end
  end.

(** A batch that nothing interferes with: claim, decide, commit. *)
Definition ProcessBatch (now : Z) (k : claimKind) (limit : nat) (decide : PendingRun -> Decision)
    (order : list UUID) (db : database) : option (database * nat) :=
  let runs := claimRows k (db_tables db) (db_tables db) ∅ limit order in
  match inTx now decide runs db with
  | Some db => Some (db, length runs)
  | None => None
  end.

(** ** An operator's decision *)

Inductive overrideError := ErrNotFound | ErrRunNotJudged | ErrStatusUnchanged | ErrRecord | ErrProject.

Record OverrideParams := { op_RunID : UUID; op_ToStatus : string; op_Reason : string; op_DecidedBy : UUID }.

Definition OverrideRunStatus (id : UUID) (now : Z) (p : OverrideParams) (db : database)
    : (database * overrideRow) + overrideError :=
  match RunStatusForOverride (op_RunID p) (db_tables db) with
  | None => inr ErrNotFound
  | Some (status, _) =>
    if status =s? Runstatus.Pending then inr ErrRunNotJudged
    else if status =s? op_ToStatus p then inr ErrStatusUnchanged
    else
      let tb := SetRunStatus (op_RunID p) (op_ToStatus p) (db_tables db) in
      let row := {| ov_ID := id; ov_RunID := op_RunID p; ov_FromStatus := status;
                    ov_ToStatus := op_ToStatus p; ov_Reason := op_Reason p;
                    ov_DecidedBy := op_DecidedBy p; ov_DecidedAt := now |} in
      match InsertRunStatusOverride row tb with
      | None => inr ErrRecord
      | Some tb =>
        match projectRun (op_RunID p) tb (db_proj db) with
        | None => inr ErrProject
        | Some pr => inl ({| db_tables := tb; db_proj := pr |}, row)
        end
      end
  end.
End transactions.
