(* ===== verification/RunLife.v ===== *)
(** * The life of a run: interleaved transactions over the runs tables

    Ingestion, the replay worker's queue, revalidation, operators' overrides and
    account deletion, as a step relation.  A batch is three steps: its claim statement
    starts (and takes its snapshot), it locks the rows it returns, it commits or rolls
    back; anything may happen in between that the row locks allow. *)

From S2P Require Import Prelude GoStd Json Uuid Runs Policy Core Registry Decide Worker RunStore.

Open Scope Z_scope.

Section life.
Context `{Uuid} `{Gzip} `{GameCore} `{!Projection}.

(** ** Who judges *)

Record judgeEnv := {
  je_reg : Registry; je_quotes : option QuoteResolver; je_decider : Decider; je_epoch : Z }.

(** [RunBatch] and [RevalidateBatch]. *)
Inductive job := Judging (env : judgeEnv) | Revalidating (env : judgeEnv).

Definition jobClaim (j : job) : claimKind :=
  match j with
  | Judging _ => ClaimPending
  | Revalidating env => ClaimStale (dr_version (je_decider env)) bundleSHA
  end.

Definition jobDecide (j : job) (run : PendingRun) : Decision :=
  match j with
  | Judging env => JudgeRun ∅ (je_reg env) (je_quotes env) (je_decider env) run (je_epoch env)
  | Revalidating env =>
    JudgeRun ∅ (je_reg env) (je_quotes env) (ForRejudgement (je_decider env)) run (je_epoch env)
  end.

(** ** Worlds *)

Inductive txState :=
| Scanning (j : job) (snap : tables)
| Holding (j : job) (runs : list PendingRun).

Record world := { w_db : database; w_open : gmap nat txState }.

Definition w_tables (w : world) : tables := db_tables (w_db w).

Definition lockedIn (w : world) (id : UUID) : Prop :=
  exists t j runs, w_open w !! t = Some (Holding j runs) /\ id ∈ pr_ID <$> runs.

Definition openTx (t : nat) (s : txState) (w : world) : world :=
  {| w_db := w_db w; w_open := <[t := s]> (w_open w) |}.
Definition closeTx (t : nat) (db : database) (w : world) : world :=
  {| w_db := db; w_open := delete t (w_open w) |}.
Definition withDB (db : database) (w : world) : world := {| w_db := db; w_open := w_open w |}.
Definition withTables (tb : tables) (w : world) : world :=
  withDB {| db_tables := tb; db_proj := db_proj (w_db w) |} w.

(** [DeleteUser]: the rows that reference the account cascade. *)
Definition ownedBy (u : UUID) (tb : tables) (id : UUID) : Prop :=
  exists r, tb_runs tb !! id = Some r /\ cp_UserID (rr_Params r) = u.

#[global] Instance ownedBy_dec u tb id : base.Decision (ownedBy u tb id).
Proof.
  unfold ownedBy. destruct (tb_runs tb !! id) as [r|]; [|right; by intros (? & ? & _)].
  destruct (decide (cp_UserID (rr_Params r) = u)); [left; eauto|right; intros (? & ? & ?); congruence].
Defined.

Definition DeleteUser (u : UUID) (tb : tables) : tables :=
  {| tb_runs := filter (fun kv => ~ ownedBy u tb kv.1) (tb_runs tb);
     tb_verdicts := filter (fun kv => ~ ownedBy u tb kv.1 /\ vr_UserID kv.2 <> u) (tb_verdicts tb);
     tb_overrides := filter (fun o => ~ ownedBy u tb (ov_RunID o)) (tb_overrides tb) |}.

(** ** Steps *)

Inductive step (w : world) : world -> Prop :=
| StepCreate id now userID req p :
    tb_runs (w_tables w) !! id = None ->
    validateIngest userID req = inl p ->
    step w (withTables (CreateRun id now p (w_tables w)) w)
| StepScan t j :
    w_open w !! t = None ->
    step w (openTx t (Scanning j (w_tables w)) w)
| StepLock t j snap locked limit order :
    w_open w !! t = Some (Scanning j snap) ->
    (forall id, id ∈ locked <-> lockedIn w id) ->
    inOrder snap order ->
    step w (openTx t (Holding j (claimRows (jobClaim j) snap (w_tables w) locked limit order)) w)
| StepCommit t j runs now db :
    w_open w !! t = Some (Holding j runs) ->
    inTx now (jobDecide j) runs (w_db w) = Some db ->
    step w (closeTx t db w)
| StepRollback t s :
    w_open w !! t = Some s ->
    step w (closeTx t (w_db w) w)
| StepOverride id now p db row :
    ~ lockedIn w (op_RunID p) ->
    OverrideRunStatus id now p (w_db w) = inl (db, row) ->
    step w (withDB db w)
| StepDeleteUser u :
    (forall id, ownedBy u (w_tables w) id -> ~ lockedIn w id) ->
    (forall o, o ∈ tb_overrides (DeleteUser u (w_tables w)) -> ov_DecidedBy o <> u) ->
    step w (withDB {| db_tables := DeleteUser u (w_tables w);
                      db_proj := ForgetUser u (w_tables w) (db_proj (w_db w)) |} w).

Definition noTables : tables := {| tb_runs := ∅; tb_verdicts := ∅; tb_overrides := [] |}.
Definition fresh (p : Proj) : world := {| w_db := {| db_tables := noTables; db_proj := p |}; w_open := ∅ |}.

Definition reachable (p : Proj) (w : world) : Prop := steps step (fresh p) w.

(** ** What a commit does to the tables *)

Definition judgedRow (d : Decision) (r : runRow) : runRow :=
  {| rr_Params := rr_Params r; rr_Status := dc_Status d; rr_Attempts := dc_Attempts d;
     rr_LastError := NullIfEmpty (dc_LastError d); rr_CreatedAt := rr_CreatedAt r |}.

Definition verdictOf (now : Z) (id : UUID) (d : Decision) (user : UUID) : verdictRow :=
  {| vr_UserID := user; vr_ServerMetrics := dc_ServerMetrics d; vr_ServerScore := dc_ServerScore d;
     vr_Validation := dc_Validation d; vr_BundleSha := NullIfEmpty (dc_BundleSHA d);
     vr_PolicyVersion := if 0 <? dc_PolicyVersion d then Some (dc_PolicyVersion d) else None;
     vr_ValidatedAt := now |}.

Definition verdictUser (tb : tables) (id : UUID) (r : runRow) : UUID :=
  match tb_verdicts tb !! id with Some v => vr_UserID v | None => cp_UserID (rr_Params r) end.

(** The tables after one outcome. *)
Record outcome_of (now : Z) (id : UUID) (d : Decision) (tb tb' : tables) : Prop := {
  oc_run : tb_runs tb' !! id = judgedRow d <$> tb_runs tb !! id;
  oc_verdict r : tb_runs tb !! id = Some r ->
    tb_verdicts tb' !! id = Some (verdictOf now id d (verdictUser tb id r));
  oc_others id' : id' <> id ->
    tb_runs tb' !! id' = tb_runs tb !! id' /\ tb_verdicts tb' !! id' = tb_verdicts tb !! id';
  oc_overrides : tb_overrides tb' = tb_overrides tb }.

Lemma writeOutcome_tables now id d db db' :
  writeOutcome now id d db = Some db' -> outcome_of now id d (db_tables db) (db_tables db').
Proof.
  unfold writeOutcome. destruct (projectRun _ _ _) as [p|]; [|done].
  destruct (projectKeyboard _ _ _ _) as [p'|]; [|done]. intros [= <-]. cbn [db_tables].
  unfold UpsertRunVerdict. cbn [toVerdictParams up_RunID].
  destruct (tb_runs (db_tables db) !! id) as [r|] eqn:Er; constructor; cbn; try done.
  - by rewrite lookup_alter_eq, Er.
  - intros r'. rewrite Er, lookup_insert_eq. by intros [= <-].
  - intros id' Hne. by rewrite lookup_alter_ne, lookup_insert_ne by done.
  - by rewrite lookup_alter_eq, Er.
  - intros r'. by rewrite Er.
  - intros id' Hne. by rewrite lookup_alter_ne by done.
Qed.

(** The tables after a batch: every run's row as its decision says, the rest alone. *)
Record batch_of (now : Z) (dec : PendingRun -> Decision) (runs : list PendingRun) (tb tb' : tables)
    : Prop := {
  bo_run run r : run ∈ runs -> tb_runs tb !! pr_ID run = Some r ->
    tb_runs tb' !! pr_ID run = Some (judgedRow (dec run) r)
    /\ tb_verdicts tb' !! pr_ID run
       = Some (verdictOf now (pr_ID run) (dec run) (verdictUser tb (pr_ID run) r));
  bo_others id : id ∉ pr_ID <$> runs ->
    tb_runs tb' !! id = tb_runs tb !! id /\ tb_verdicts tb' !! id = tb_verdicts tb !! id;
  bo_overrides : tb_overrides tb' = tb_overrides tb }.

Lemma inTx_tables now dec runs db db' :
  NoDup (pr_ID <$> runs) -> inTx now dec runs db = Some db' ->
  batch_of now dec runs (db_tables db) (db_tables db').
Proof.
  revert db. induction runs as [|run runs IH]; intros db; cbn [inTx fmap list_fmap].
  - intros _ [= <-]. constructor; try done. by intros ? ? ?%elem_of_nil.
  - intros [Hnot Hnd]%NoDup_cons. destruct (writeOutcome _ _ _ _) as [db1|] eqn:E1; [|done].
    intros Hi. destruct (IH _ Hnd Hi) as [Hr Ho Hov]. destruct (writeOutcome_tables _ _ _ _ _ E1) as [Or Ov Oo Oov].
    constructor; [| |congruence].
    + intros run' r [->|Hin]%elem_of_cons Hrow.
      * destruct (Ho _ Hnot) as [-> ->]. rewrite Or, Hrow. by rewrite (Ov _ Hrow).
      * assert (pr_ID run' <> pr_ID run) as Hne.
        { intros E. apply Hnot. rewrite <- E. by apply list_elem_of_fmap_2. }
        destruct (Oo _ Hne) as [E2 E3]. rewrite <- E2 in Hrow. destruct (Hr _ _ Hin Hrow) as [-> ->].
        unfold verdictUser. by rewrite E3.
    + intros id [Hne Hid]%not_elem_of_cons. destruct (Ho _ Hid) as [-> ->]. by apply Oo.
Qed.

(** ** The invariant *)

Definition heldStatus (j : job) (status : string) : Prop :=
  match j with Judging _ => status = Runstatus.Pending | Revalidating _ => status <> Runstatus.Pending end.

(** What the tables hold. *)
Record tables_ok (tb : tables) : Prop := {
  to_status id r : tb_runs tb !! id = Some r ->
    rr_Status r = Runstatus.Pending \/ judgedStatus (rr_Status r) = true;
  to_verdict id v : tb_verdicts tb !! id = Some v ->
    exists r, tb_runs tb !! id = Some r /\ rr_Status r <> Runstatus.Pending
              /\ vr_UserID v = cp_UserID (rr_Params r);
  to_judged id r : tb_runs tb !! id = Some r -> rr_Status r <> Runstatus.Pending ->
    is_Some (tb_verdicts tb !! id);
  to_override o : o ∈ tb_overrides tb ->
    (exists r, tb_runs tb !! ov_RunID o = Some r /\ rr_Status r <> Runstatus.Pending)
    /\ judgedStatus (ov_FromStatus o) = true /\ judgedStatus (ov_ToStatus o) = true
    /\ ov_FromStatus o <> ov_ToStatus o /\ reasonGiven (ov_Reason o) = true }.

(** What the open transactions hold. *)
Record held_ok (w : world) : Prop := {
  ho_NoDup t j runs : w_open w !! t = Some (Holding j runs) -> NoDup (pr_ID <$> runs);
  ho_row t j runs run : w_open w !! t = Some (Holding j runs) -> run ∈ runs ->
    exists r, tb_runs (w_tables w) !! pr_ID run = Some r /\ run = toPendingRun (pr_ID run) r
              /\ heldStatus j (rr_Status r);
  ho_apart t t' j j' runs runs' id : t <> t' ->
    w_open w !! t = Some (Holding j runs) -> w_open w !! t' = Some (Holding j' runs') ->
    id ∈ pr_ID <$> runs -> id ∉ pr_ID <$> runs' }.

Definition life_ok (w : world) : Prop := tables_ok (w_tables w) /\ held_ok w.

Lemma judgedStatus_not_pending s : judgedStatus s = true -> s <> Runstatus.Pending.
Proof. by intros Hs ->. Qed.

Lemma jobDecide_judged j run : judgedStatus (dc_Status (jobDecide j run)) = true.
Proof.
  assert (forall dec, judgedStatus (dc_Status (JudgeRun ∅ (je_reg (match j with Judging e | Revalidating e => e end))
    (je_quotes (match j with Judging e | Revalidating e => e end)) dec run
    (je_epoch (match j with Judging e | Revalidating e => e end)))) = true) as Hd.
  { intros dec. unfold JudgeRun, judgedStatus. destruct (replayRun _ _ _ _ _) as [res|err].
    - by destruct (Decide_never_pending dec run res None) as [-> |[-> | ->]].
    - by destruct (Decide_never_pending dec run zero_Result (Some err)) as [-> |[-> | ->]]. }
  destruct j; apply Hd.
Qed.

Lemma claimRows_spec k snap cur locked limit order run :
  run ∈ claimRows k snap cur locked limit order ->
  exists r, tb_runs cur !! pr_ID run = Some r /\ run = toPendingRun (pr_ID run) r
    /\ pr_ID run ∉ locked /\ matches k (tb_overrides snap) cur (pr_ID run) = true
    /\ matches k (tb_overrides snap) snap (pr_ID run) = true.
Proof.
  unfold claimRows. intros (id & Hid & (r & Hr & ->)%fmap_Some)%list_elem_of_omap.
  unfold claimIDs in Hid. apply subseteq_take, list_elem_of_filter in Hid as [Hm _].
  bool_to_prop. exists r. cbn. by repeat split.
Qed.

Lemma claimRows_ids k snap cur locked limit order :
  pr_ID <$> claimRows k snap cur locked limit order
  = filter (fun id => is_Some (tb_runs cur !! id)) (claimIDs k snap cur locked limit order).
Proof.
  unfold claimRows. induction (claimIDs _ _ _ _ _ _) as [|id l IH]; [done|]. rewrite filter_cons.
  cbn [omap list_omap]. destruct (tb_runs cur !! id) as [r|] eqn:E; cbn [fmap option_fmap option_map].
  - rewrite decide_True by done. cbn [fmap list_fmap toPendingRun pr_ID]. by rewrite <- IH.
  - rewrite decide_False by (by intros [? ?]). exact IH.
Qed.

Lemma claimRows_NoDup k snap cur locked limit order :
  NoDup order -> NoDup (pr_ID <$> claimRows k snap cur locked limit order).
Proof.
  intros Hn. rewrite claimRows_ids. apply NoDup_filter. unfold claimIDs.
  refine (sublist_NoDup _ _ _ (sublist_take _ _)). by apply NoDup_filter.
Qed.

(** A change of rows that nobody holds leaves the holders right. *)
Lemma held_frame w w' :
  w_open w' = w_open w ->
  (forall id, lockedIn w id -> tb_runs (w_tables w') !! id = tb_runs (w_tables w) !! id) ->
  held_ok w -> held_ok w'.
Proof.
  intros Ho Hf [Hn Hr Ha]. constructor; rewrite ?Ho; try done.
  intros t j runs run Ht Hin. destruct (Hr _ _ _ _ Ht Hin) as (r & Er & ?). exists r.
  rewrite Hf; [done|]. exists t, j, runs. split; [done|]. by apply list_elem_of_fmap_2.
Qed.

(** ** Every step keeps the invariant *)

Lemma create_ok id now p tb :
  tb_runs tb !! id = None -> tables_ok tb -> tables_ok (CreateRun id now p tb).
Proof.
  intros Hid [Hs Hv Hj Ho]. assert (tb_verdicts tb !! id = None) as Hnv.
  { destruct (tb_verdicts tb !! id) as [v|] eqn:E; [|done]. apply Hv in E as (r & ? & _). congruence. }
  constructor; cbn.
  - intros id' r [[<- <-]|[_ Hr]]%lookup_insert_Some; [by left|by eapply Hs].
  - intros id' v Hv'. destruct (Hv id' v Hv') as (r & Hr & ?). exists r.
    rewrite lookup_insert_ne; [done|congruence].
  - intros id' r [[<- <-]|[_ Hr]]%lookup_insert_Some; [done|by eapply Hj].
  - intros o Hin. destruct (Ho o Hin) as [(r & Hr & ?) ?]. split; [|done]. exists r.
    rewrite lookup_insert_ne; [done|congruence].
Qed.

Lemma batch_ok now j runs tb tb' :
  (forall run, run ∈ runs -> is_Some (tb_runs tb !! pr_ID run)) ->
  batch_of now (jobDecide j) runs tb tb' -> tables_ok tb -> tables_ok tb'.
Proof.
  intros Hin [Hb Hf Hov] [Hs Hv Hj Ho].
  assert (forall id r', tb_runs tb' !! id = Some r' ->
    (exists run r, run ∈ runs /\ id = pr_ID run /\ tb_runs tb !! id = Some r
       /\ r' = judgedRow (jobDecide j run) r
       /\ tb_verdicts tb' !! id = Some (verdictOf now id (jobDecide j run) (verdictUser tb id r)))
    \/ (tb_runs tb !! id = Some r' /\ tb_verdicts tb' !! id = tb_verdicts tb !! id)) as Hcase.
  { intros id r' Hr'. destruct (decide (id ∈ pr_ID <$> runs)) as [(run & -> & Hrun)%list_elem_of_fmap|Hn].
    - left. destruct (Hin _ Hrun) as [r Hr]. destruct (Hb _ _ Hrun Hr) as [E1 E2].
      exists run, r. rewrite E1 in Hr'. injection Hr' as <-. done.
    - right. destruct (Hf _ Hn) as [E1 E2]. by rewrite <- E1. }
  assert (forall id, (exists r, tb_runs tb !! id = Some r /\ rr_Status r <> Runstatus.Pending) ->
    exists r, tb_runs tb' !! id = Some r /\ rr_Status r <> Runstatus.Pending) as Hstay.
  { intros id (r & Hr & Hp). destruct (decide (id ∈ pr_ID <$> runs)) as [(run & -> & Hrun)%list_elem_of_fmap|Hn].
    - destruct (Hb _ _ Hrun Hr) as [-> _]. eexists. split; [done|].
      apply judgedStatus_not_pending, jobDecide_judged.
    - destruct (Hf _ Hn) as [-> _]. by exists r. }
  constructor.
  - intros id r' Hr'. destruct (Hcase _ _ Hr') as [(run & r & _ & _ & _ & -> & _)|[Hr _]]; [|by eapply Hs].
    right. apply jobDecide_judged.
  - intros id v Hv'. destruct (decide (id ∈ pr_ID <$> runs)) as [(run & -> & Hrun)%list_elem_of_fmap|Hn].
    + destruct (Hin _ Hrun) as [r Hr]. destruct (Hb _ _ Hrun Hr) as [E1 E2]. rewrite E2 in Hv'.
      injection Hv' as <-. eexists. split; [exact E1|]. split; [apply judgedStatus_not_pending, jobDecide_judged|].
      cbn. unfold verdictUser. destruct (tb_verdicts tb !! pr_ID run) as [v|] eqn:Ev; [|done].
      apply Hv in Ev as (r0 & Hr0 & _ & Hu). congruence.
    + destruct (Hf _ Hn) as [E1 E2]. rewrite E2 in Hv'. rewrite E1. by apply Hv.
  - intros id r' Hr' Hp. destruct (Hcase _ _ Hr') as [(run & r & _ & _ & _ & _ & ->)|[Hr ->]]; [done|by eapply Hj].
  - intros o. rewrite Hov. intros [Hr ?]%Ho. by split; [apply Hstay|].
Qed.

Lemma override_tables id now p db db' row :
  OverrideRunStatus id now p db = inl (db', row) ->
  exists r, tb_runs (db_tables db) !! op_RunID p = Some r /\ rr_Status r <> Runstatus.Pending
    /\ rr_Status r <> op_ToStatus p /\ judgedStatus (op_ToStatus p) = true
    /\ row = {| ov_ID := id; ov_RunID := op_RunID p; ov_FromStatus := rr_Status r;
                ov_ToStatus := op_ToStatus p; ov_Reason := op_Reason p; ov_DecidedBy := op_DecidedBy p;
                ov_DecidedAt := now |}
    /\ judgedStatus (rr_Status r) = true /\ reasonGiven (op_Reason p) = true
    /\ tb_runs (db_tables db') = tb_runs (SetRunStatus (op_RunID p) (op_ToStatus p) (db_tables db))
    /\ tb_verdicts (db_tables db') = tb_verdicts (db_tables db)
    /\ tb_overrides (db_tables db') = row :: tb_overrides (db_tables db).
Proof.
  unfold OverrideRunStatus, RunStatusForOverride.
  destruct (tb_runs (db_tables db) !! op_RunID p) as [r|]; [|done]. cbn [fmap option_fmap option_map].
  destruct (rr_Status r =s? Runstatus.Pending) eqn:Ep; [done|].
  destruct (rr_Status r =s? op_ToStatus p) eqn:Et; [done|].
  unfold InsertRunStatusOverride. cbn [ov_FromStatus ov_ToStatus ov_Reason].
  destruct (judgedStatus (rr_Status r) && _ && _ && _) eqn:Ec; [|done].
  destruct (projectRun _ _ _); [|done]. intros [= <- <-]. bool_to_prop. exists r. by repeat split.
Qed.

Lemma override_ok id now p db db' row :
  OverrideRunStatus id now p db = inl (db', row) -> tables_ok (db_tables db) -> tables_ok (db_tables db').
Proof.
  intros (r & Hr & Hp & Hne & Hto & -> & Hfrom & Hreason & Er & Ev & Eo)%override_tables [Hs Hv Hj Ho].
  set (r2 := {| rr_Params := rr_Params r; rr_Status := op_ToStatus p; rr_Attempts := rr_Attempts r;
                rr_LastError := rr_LastError r; rr_CreatedAt := rr_CreatedAt r |}).
  assert (forall i, tb_runs (db_tables db') !! i
    = if decide (i = op_RunID p) then Some r2 else tb_runs (db_tables db) !! i) as El.
  { intros i. rewrite Er. cbn. destruct (decide (i = op_RunID p)) as [->|Hi].
    - by rewrite lookup_alter_eq, Hr.
    - by rewrite lookup_alter_ne by done. }
  pose proof (judgedStatus_not_pending _ Hto) as Hto'.
  constructor.
  - intros i r'. rewrite El. destruct (decide _); [intros [= <-]; by right|apply Hs].
  - intros i v. rewrite Ev, El. intros (r' & Hr' & ? & ?)%Hv. destruct (decide _) as [->|]; [|by exists r'].
    exists r2. simplify_eq. done.
  - intros i r'. rewrite Ev, El. destruct (decide _) as [->|]; [intros _ _; by eapply Hj|apply Hj].
  - intros o. rewrite Eo. intros [->|Ho']%elem_of_cons.
    + split; [|by repeat split]. exists r2. cbn. by rewrite El, decide_True.
    + destruct (Ho o Ho') as [(r' & Hr' & ?) ?]. split; [|done]. rewrite El.
      destruct (decide _); [by exists r2|by exists r'].
Qed.

Lemma delete_ok u tb : tables_ok tb -> tables_ok (DeleteUser u tb).
Proof.
  intros [Hs Hv Hj Ho]. constructor; cbn.
  - intros id r [Hr _]%map_lookup_filter_Some. by eapply Hs.
  - intros id v [Hv' [Hn _]]%map_lookup_filter_Some. destruct (Hv id v Hv') as (r & Hr & ?).
    exists r. split; [|done]. by apply map_lookup_filter_Some.
  - intros id r [Hr Hn]%map_lookup_filter_Some Hp. destruct (Hj id r Hr Hp) as [v Hv'].
    exists v. apply map_lookup_filter_Some. split; [done|]. split; [done|]. cbn.
    destruct (Hv id v Hv') as (r' & Hr' & _ & ->). intros <-. apply Hn. by exists r'.
  - intros o [Hn Hin]%list_elem_of_filter. destruct (Ho o Hin) as [(r & Hr & ?) ?]. split; [|done].
    exists r. split; [|done]. by apply map_lookup_filter_Some.
Qed.

Lemma openTx_lookup t s w t' s' :
  w_open (openTx t s w) !! t' = Some s' -> (t' = t /\ s' = s) \/ (t' <> t /\ w_open w !! t' = Some s').
Proof. cbn. intros [[<- <-]|[? ?]]%lookup_insert_Some; auto. Qed.

Lemma scan_held t j snap w : w_open w !! t = None -> held_ok w -> held_ok (openTx t (Scanning j snap) w).
Proof.
  intros _ [Hn Hr Ha]. constructor.
  - intros t' j' runs [[_ ?]|[_ ?]]%openTx_lookup; [done|by eapply Hn].
  - intros t' j' runs run [[_ ?]|[_ ?]]%openTx_lookup; [done|by eapply Hr].
  - intros t1 t2 j1 j2 r1 r2 id Hne [[_ ?]|[_ T1]]%openTx_lookup [[_ ?]|[_ T2]]%openTx_lookup; try done.
    exact (Ha t1 t2 j1 j2 r1 r2 id Hne T1 T2).
Qed.

Lemma lock_held t j snap locked limit order w :
  tables_ok (w_tables w) -> (forall id, id ∈ locked <-> lockedIn w id) -> inOrder snap order -> held_ok w ->
  held_ok (openTx t (Holding j (claimRows (jobClaim j) snap (w_tables w) locked limit order)) w).
Proof.
  intros Htb Hl Ho [Hn Hr Ha].
  assert (forall id t' j' runs', t' <> t -> w_open w !! t' = Some (Holding j' runs') ->
    id ∈ pr_ID <$> claimRows (jobClaim j) snap (w_tables w) locked limit order -> id ∉ pr_ID <$> runs') as Hsep.
  { intros id t' j' runs' _ Ht' (run & -> & Hrun)%list_elem_of_fmap Hin.
    apply claimRows_spec in Hrun as (r & _ & _ & Hnl & _). apply Hnl, Hl. by exists t', j', runs'. }
  constructor.
  - intros t' j' runs [[_ [= -> ->]]|[_ ?]]%openTx_lookup; [|by eapply Hn].
    apply claimRows_NoDup, (io_NoDup _ _ Ho).
  - intros t' j' runs run [[_ [= -> ->]]|[_ ?]]%openTx_lookup Hrun; [|by eapply Hr].
    apply claimRows_spec in Hrun as (r & Hrow & Hrun & _ & Hm & _). exists r. split; [done|]. split; [done|].
    destruct j as [env|env]; cbn in Hm |- *.
    + unfold pendingMatch in Hm. rewrite Hrow in Hm. by bool_to_prop.
    + unfold staleMatch in Hm. rewrite Hrow in Hm. destruct (tb_verdicts _ !! _) as [v|] eqn:Ev; [|done].
      apply (to_verdict _ Htb) in Ev as (r' & ? & ? & _). congruence.
  - intros t1 t2 j1 j2 r1 r2 id Hne [[-> [= -> ->]]|[N1 T1]]%openTx_lookup [[-> [= -> ->]]|[N2 T2]]%openTx_lookup.
    + done.
    + exact (Hsep id t2 j2 r2 N2 T2).
    + intros Hi Hi'. exact (Hsep id t1 j1 r1 N1 T1 Hi' Hi).
    + exact (Ha t1 t2 j1 j2 r1 r2 id Hne T1 T2).
Qed.

Lemma closeTx_lookup t db w t' s : w_open (closeTx t db w) !! t' = Some s -> t' <> t /\ w_open w !! t' = Some s.
Proof. cbn. intros [? ?]%lookup_delete_Some. done. Qed.

Lemma commit_held t j runs now db w :
  w_open w !! t = Some (Holding j runs) -> batch_of now (jobDecide j) runs (w_tables w) (db_tables db) ->
  held_ok w -> held_ok (closeTx t db w).
Proof.
  intros Ht [_ Hf _] [Hn Hr Ha]. constructor.
  - intros t' j' runs' [_ ?]%closeTx_lookup. by eapply Hn.
  - intros t' j' runs' run [Hne Ht']%closeTx_lookup Hrun.
    destruct (Hr _ _ _ _ Ht' Hrun) as (r & Hrow & ?). exists r. split; [|done].
    unfold w_tables in *. cbn. destruct (Hf (pr_ID run)) as [-> _]; [|done].
    eapply (Ha t' t); [done..|]. by apply list_elem_of_fmap_2.
  - intros t1 t2 j1 j2 r1 r2 id Hne [_ T1]%closeTx_lookup [_ T2]%closeTx_lookup.
    exact (Ha t1 t2 j1 j2 r1 r2 id Hne T1 T2).
Qed.

Lemma rollback_held t w : held_ok w -> held_ok (closeTx t (w_db w) w).
Proof.
  intros [Hn Hr Ha]. constructor.
  - intros t' j' runs' [_ ?]%closeTx_lookup. by eapply Hn.
  - intros t' j' runs' run [_ ?]%closeTx_lookup. by eapply Hr.
  - intros t1 t2 j1 j2 r1 r2 id Hne [_ T1]%closeTx_lookup [_ T2]%closeTx_lookup.
    exact (Ha t1 t2 j1 j2 r1 r2 id Hne T1 T2).
Qed.

Lemma life_step w w' : step w w' -> life_ok w -> life_ok w'.
Proof.
  intros Hs [Htb Hh].
  destruct Hs as [id now user req p Hid _|t j Ht|t j snap locked limit order Ht Hl Ho|t j runs now db Ht Hi|t s Ht
                 |id now p db row Hnl Ho|u Hu _].
  - split; [by apply create_ok|]. apply (held_frame w); [done| |done].
    intros i (t & j & runs & Ht & (run & -> & Hrun)%list_elem_of_fmap). cbn.
    destruct (ho_row _ Hh _ _ _ _ Ht Hrun) as (r & Hr & _). rewrite lookup_insert_ne; [done|congruence].
  - split; [done|by apply scan_held].
  - split; [done|by apply lock_held].
  - assert (batch_of now (jobDecide j) runs (w_tables w) (db_tables db)) as Hb.
    { apply inTx_tables; [by eapply (ho_NoDup _ Hh)|done]. }
    split; [|by eapply commit_held]. eapply batch_ok; [|exact Hb|done].
    intros run Hrun. destruct (ho_row _ Hh _ _ _ _ Ht Hrun) as (r & Hr & _). by exists r.
  - split; [done|by apply rollback_held].
  - split; [by eapply override_ok|]. apply (held_frame w); [done| |done].
    intros i Hi. apply override_tables in Ho as (r & _ & _ & _ & _ & _ & _ & _ & Er & _).
    unfold w_tables. cbn. rewrite Er. cbn. apply lookup_alter_ne. intros E. by rewrite E in Hnl.
  - split; [by apply delete_ok|]. apply (held_frame w); [done| |done].
    intros i Hi. cbn. assert (~ ownedBy u (w_tables w) i) as Hnot by (intros Hown; by eapply Hu).
    destruct (tb_runs (w_tables w) !! i) as [r|] eqn:Er.
    + apply map_lookup_filter_Some. by split.
    + apply map_lookup_filter_None. by left.
Qed.

Lemma fresh_ok p : life_ok (fresh p).
Proof.
  split; constructor; cbn.
  - by intros id r ?%lookup_empty_Some.
  - by intros id r ?%lookup_empty_Some.
  - by intros id r ?%lookup_empty_Some.
  - by intros o ?%elem_of_nil.
  - by intros t j runs ?%lookup_empty_Some.
  - by intros t j runs run ?%lookup_empty_Some.
  - by intros t t' j j' runs runs' id _ ?%lookup_empty_Some.
Qed.

Lemma reachable_life p w : reachable p w -> life_ok w.
Proof. intros Hr. eapply (steps_invariant step life_ok); [|apply fresh_ok|exact Hr].
  intros a b Ha Hab. by eapply life_step. Qed.
End life.
