(* ===== verification/RunProps.v ===== *)
(** * What the life of a run guarantees

    Theorems about the step relation of [RunLife] and the batches of [RunStore]: which
    tables are reachable, that a pending run is decided once, what an operator's
    override is worth; then one path of the steps, with the witnesses, on which a
    revalidation undoes what an operator decided. *)

From S2P Require Import Prelude GoStd Uuid Json Runs Policy Core Registry Decide Worker RunStore RunLife.

Open Scope Z_scope.

Section props.
Context `{Uuid} `{Gzip} `{GameCore} `{!Projection}.

(** C25: judged means a verdict row, and conversely.  In every reachable world a run's
    status is something other than pending exactly when it has a row in run_verdicts;
    the row is of an existing run and carries its owner; and every override is of a
    judged run, between two different judged statuses, with a reason. *)
Theorem judged_iff_verdict (p : Proj) (w : world) :
  reachable p w ->
  (forall id r, tb_runs (w_tables w) !! id = Some r ->
     (rr_Status r <> Runstatus.Pending <-> is_Some (tb_verdicts (w_tables w) !! id)))
  /\ (forall id v, tb_verdicts (w_tables w) !! id = Some v ->
        exists r, tb_runs (w_tables w) !! id = Some r /\ vr_UserID v = cp_UserID (rr_Params r))
  /\ (forall o, o ∈ tb_overrides (w_tables w) ->
        is_Some (tb_verdicts (w_tables w) !! ov_RunID o)
        /\ judgedStatus (ov_FromStatus o) = true /\ judgedStatus (ov_ToStatus o) = true
        /\ ov_FromStatus o <> ov_ToStatus o /\ reasonGiven (ov_Reason o) = true).
Proof.
  intros [[Hs Hv Hj Ho] _]%reachable_life. split_and!.
  - intros id r Hr. split; [by apply Hj|]. intros [v Ev]. destruct (Hv _ _ Ev) as (r' & Hr' & Hp & _).
    congruence.
  - intros id v (r & Hr & _ & Hu)%Hv. by exists r.
  - intros o (Hr & Hrest)%Ho. destruct Hr as (r & Hr & Hp). split; [by eapply Hj|done].
Qed.

(** C28: the queue decides a run once.  A run in the hands of a worker's batch is
    pending, as the table has it, has no verdict, and is in nobody else's hands; when
    the batch commits it has the batch's decision, status and verdict both, and is
    pending no more; and the rows the batch does not hold are as they were. *)
Theorem queue_decides_once (p : Proj) (w : world) (t : nat) (env : judgeEnv) (runs : list PendingRun)
    (now : Z) (db : database) :
  reachable p w ->
  w_open w !! t = Some (Holding (Judging env) runs) ->
  inTx now (jobDecide (Judging env)) runs (w_db w) = Some db ->
  (forall run, run ∈ runs ->
     let d := jobDecide (Judging env) run in
     exists r, tb_runs (w_tables w) !! pr_ID run = Some r /\ run = toPendingRun (pr_ID run) r
       /\ rr_Status r = Runstatus.Pending /\ tb_verdicts (w_tables w) !! pr_ID run = None
       /\ tb_runs (db_tables db) !! pr_ID run = Some (judgedRow d r)
       /\ dc_Status d <> Runstatus.Pending
       /\ tb_verdicts (db_tables db) !! pr_ID run
          = Some (verdictOf now (pr_ID run) d (cp_UserID (rr_Params r)))
       /\ forall t' j runs', t' <> t -> w_open w !! t' = Some (Holding j runs') ->
            pr_ID run ∉ pr_ID <$> runs')
  /\ (forall id, id ∉ pr_ID <$> runs ->
        tb_runs (db_tables db) !! id = tb_runs (w_tables w) !! id
        /\ tb_verdicts (db_tables db) !! id = tb_verdicts (w_tables w) !! id).
Proof.
  intros [Htb Hh]%reachable_life Ht Hi.
  pose proof (inTx_tables _ _ _ _ _ (ho_NoDup _ Hh _ _ _ Ht) Hi) as [Hb Hf _]. split; [|done].
  intros run Hrun. cbn zeta. destruct (ho_row _ Hh _ _ _ _ Ht Hrun) as (r & Hr & Erun & Hp). exists r.
  assert (tb_verdicts (w_tables w) !! pr_ID run = None) as Hnv.
  { destruct (tb_verdicts (w_tables w) !! pr_ID run) as [v|] eqn:Ev; [|done].
    apply (to_verdict _ Htb) in Ev as (r' & Hr' & Hp' & _). cbn in Hp. congruence. }
  destruct (Hb _ _ Hrun Hr) as [E1 E2]. unfold verdictUser in E2. unfold w_tables in Hnv. rewrite Hnv in E2.
  split_and!; try done; [apply judgedStatus_not_pending, jobDecide_judged|].
  intros t' j runs' Hne Ht'. eapply (ho_apart _ Hh t t'); [done..|]. by apply list_elem_of_fmap_2.
Qed.

(** The evidence is never rewritten.  A step leaves the submission of every run as
    it was ingested, owner, numbers, log and time; short of deleting the account it
    takes away no run, no verdict and no override; and an operator's override touches
    no verdict. *)
Theorem evidence_kept (p : Proj) (w w' : world) :
  reachable p w -> step w w' ->
  (exists u, w_tables w' = DeleteUser u (w_tables w))
  \/ ((forall id r, tb_runs (w_tables w) !! id = Some r ->
         exists r', tb_runs (w_tables w') !! id = Some r'
           /\ rr_Params r' = rr_Params r /\ rr_CreatedAt r' = rr_CreatedAt r)
      /\ (forall id v, tb_verdicts (w_tables w) !! id = Some v ->
            exists v', tb_verdicts (w_tables w') !! id = Some v' /\ vr_UserID v' = vr_UserID v)
      /\ (tb_overrides (w_tables w') = tb_overrides (w_tables w)
          \/ tb_verdicts (w_tables w') = tb_verdicts (w_tables w)
             /\ exists o, tb_overrides (w_tables w') = o :: tb_overrides (w_tables w))).
Proof.
  intros [Htb Hh]%reachable_life Hs.
  destruct Hs as [id now q Hid|t j Ht|t j snap locked limit order Ht Hl Ho|t j runs now db Ht Hi|t s Ht
                 |id now q db row Hnl Ho|u Hu _]; [right|right|right|right|right|right|left; by exists u].
  - split_and!; [|by eauto|by left]. intros id' r Hr. exists r. cbn.
    rewrite lookup_insert_ne; [done|congruence].
  - split_and!; [by eauto..|by left].
  - split_and!; [by eauto..|by left].
  - pose proof (inTx_tables _ _ _ _ _ (ho_NoDup _ Hh _ _ _ Ht) Hi) as [Hb Hf Hov].
    unfold w_tables in *. cbn. split_and!; [| |by left].
    + intros id r Hr. destruct (decide (id ∈ pr_ID <$> runs)) as [(run & -> & Hrun)%list_elem_of_fmap|Hn].
      * destruct (Hb _ _ Hrun Hr) as [-> _]. by eexists.
      * destruct (Hf _ Hn) as [-> _]. by exists r.
    + intros id v Hv. destruct (decide (id ∈ pr_ID <$> runs)) as [(run & -> & Hrun)%list_elem_of_fmap|Hn].
      * destruct (to_verdict _ Htb _ _ Hv) as (r & Hr & _). destruct (Hb _ _ Hrun Hr) as [_ ->].
        eexists. split; [done|]. cbn. unfold verdictUser. by rewrite Hv.
      * destruct (Hf _ Hn) as [_ ->]. by exists v.
  - split_and!; [by eauto..|by left].
  - apply override_tables in Ho as (r & Hr & _ & _ & _ & _ & _ & _ & Er & Ev & Eo).
    unfold w_tables. cbn. rewrite Ev. split_and!; [|by eauto|right; by eauto].
    intros id' r' Hr'. rewrite Er. cbn. destruct (decide (id' = op_RunID q)) as [->|Hne].
    + rewrite lookup_alter_eq. unfold w_tables in Hr'. rewrite Hr'. by eexists.
    + rewrite lookup_alter_ne by done. by exists r'.
Qed.

(** ** An operator's override *)

(** No revalidation in flight can still reach the run: every one that has started saw
    the override, and nobody holds the run. *)
Definition settled (w : world) (id : UUID) : Prop :=
  overridden (tb_overrides (w_tables w)) id = true
  /\ forall t s, w_open w !! t = Some s ->
     match s with
     | Scanning (Judging _) _ => True
     | Scanning (Revalidating _) snap => overridden (tb_overrides snap) id = true
     | Holding _ runs => id ∉ pr_ID <$> runs
     end.

Lemma overridden_elem ovs id : overridden ovs id = true <-> exists o, o ∈ ovs /\ ov_RunID o = id.
Proof.
  unfold overridden. rewrite existsb_exists. split.
  - intros (o & Ho & Hd). exists o. split; [by apply list_elem_of_In|by apply bool_decide_eq_true in Hd].
  - intros (o & Ho & Hd). exists o. split; [by apply list_elem_of_In|by apply bool_decide_eq_true].
Qed.

Lemma settled_close t db w id :
  overridden (tb_overrides (db_tables db)) id = true -> settled w id -> settled (closeTx t db w) id.
Proof. intros Ho [_ Hs]. split; [done|]. intros t' s [_ Ht']%closeTx_lookup. by eapply Hs. Qed.

Lemma settled_open t s w id :
  settled w id ->
  match s with
  | Scanning (Judging _) _ => True
  | Scanning (Revalidating _) snap => overridden (tb_overrides snap) id = true
  | Holding _ runs => id ∉ pr_ID <$> runs
  end -> settled (openTx t s w) id.
Proof.
  intros [Ho Hs] Hnew. split; [done|]. intros t' s' [[_ ->]|[_ Ht']]%openTx_lookup; [done|by eapply Hs].
Qed.

(** A claim leaves a settled run alone: revalidation sees the override, the queue sees
    that it is not pending. *)
Lemma settled_not_claimed w id t j snap locked limit order :
  life_ok w -> settled w id -> w_open w !! t = Some (Scanning j snap) ->
  id ∉ pr_ID <$> claimRows (jobClaim j) snap (w_tables w) locked limit order.
Proof.
  intros [Htb _] [Hov Hs] Ht (run & -> & Hrun)%list_elem_of_fmap.
  apply claimRows_spec in Hrun as (r & Hr & _ & _ & Hm & _). specialize (Hs _ _ Ht). destruct j as [env|env]; cbn in Hm.
  - unfold pendingMatch in Hm. rewrite Hr in Hm. bool_to_prop.
    apply overridden_elem in Hov as (o & Ho & Eo). apply (to_override _ Htb) in Ho as [(r' & Hr' & Hp) _].
    congruence.
  - unfold staleMatch in Hm. rewrite Hr in Hm. destruct (tb_verdicts _ !! _); [|done].
    cbn in Hs. rewrite Hs in Hm. by bool_to_prop.
Qed.

(** Deleting an account leaves everybody else's runs alone. *)
Lemma delete_keeps u tb id r :
  tables_ok tb -> ~ ownedBy u tb id -> tb_runs tb !! id = Some r ->
  tb_runs (DeleteUser u tb) !! id = tb_runs tb !! id
  /\ tb_verdicts (DeleteUser u tb) !! id = tb_verdicts tb !! id
  /\ (overridden (tb_overrides tb) id = true -> overridden (tb_overrides (DeleteUser u tb)) id = true).
Proof.
  intros Htb Hnot Hr. split_and!.
  - rewrite Hr. by apply map_lookup_filter_Some.
  - destruct (tb_verdicts tb !! id) as [v|] eqn:Ev.
    + apply map_lookup_filter_Some. split; [done|]. split; [done|]. cbn.
      destruct (to_verdict _ Htb _ _ Ev) as (r' & Hr' & _ & ->). intros <-. apply Hnot. by exists r'.
    + apply map_lookup_filter_None. by left.
  - intros (o & Ho & <-)%overridden_elem. apply overridden_elem. exists o. split; [|done].
    by apply list_elem_of_filter.
Qed.

(** A settled override stands.  Once an operator has decided about a run and no
    revalidation that started before is still running, no step touches the run's row
    or verdict but another override of it, which records the move from the status it
    found, and (short of the account's deletion) it stays so. *)
Theorem settled_override_stands (p : Proj) (w w' : world) (id : UUID) :
  reachable p w -> settled w id -> step w w' ->
  tb_runs (w_tables w') !! id = None
  \/ (settled w' id
      /\ tb_verdicts (w_tables w') !! id = tb_verdicts (w_tables w) !! id
      /\ (tb_runs (w_tables w') !! id = tb_runs (w_tables w) !! id
          \/ exists o r, tb_overrides (w_tables w') = o :: tb_overrides (w_tables w) /\ ov_RunID o = id
               /\ tb_runs (w_tables w) !! id = Some r /\ ov_FromStatus o = rr_Status r
               /\ exists r', tb_runs (w_tables w') !! id = Some r' /\ rr_Status r' = ov_ToStatus o)).
Proof.
  intros Hok%reachable_life Hse Hst. pose proof Hok as [Htb Hh]. pose proof Hse as [Hov Hs].
  assert (exists r, tb_runs (w_tables w) !! id = Some r) as [r Hr].
  { apply overridden_elem in Hov as (o & Ho & <-).
    by apply (to_override _ Htb) in Ho as [(r & Hr & _) _]; exists r. }
  destruct Hst as [i now q Hid|t j Ht|t j snap locked limit order Ht Hl Ho|t j runs now db Ht Hi|t s Ht
                  |i now q db row Hnl Ho|u Hu _].
  - right. cbn. split; [done|]. split; [done|]. left. apply lookup_insert_ne. congruence.
  - right. split; [apply settled_open; [done|by destruct j]|by split; [|left]].
  - right. split; [apply settled_open; [done|by eapply settled_not_claimed]|by split; [|left]].
  - pose proof (inTx_tables _ _ _ _ _ (ho_NoDup _ Hh _ _ _ Ht) Hi) as [_ Hf Ho].
    specialize (Hs _ _ Ht). destruct (Hf _ Hs) as [E1 E2]. right.
    split; [apply settled_close; [by rewrite Ho|done]|]. unfold w_tables. cbn. rewrite E2. by split; [|left].
  - right. split; [by apply settled_close|by split; [|left]].
  - apply override_tables in Ho as (r0 & Hr0 & _ & _ & _ & Erow & _ & _ & Er & Ev & Eo).
    right. unfold w_tables. cbn. rewrite Ev. split.
    { split; [|done]. unfold w_tables. cbn. rewrite Eo. apply overridden_elem in Hov as (o & Ho & ?).
      apply overridden_elem. exists o. split; [by right|done]. }
    split; [done|]. rewrite Er, Eo. cbn. destruct (decide (op_RunID q = id)) as [Eid|Hne].
    + right. exists row, r0. subst row id. rewrite lookup_alter_eq, Hr0. cbn. repeat split. by eexists.
    + left. by apply lookup_alter_ne.
  - destruct (decide (ownedBy u (w_tables w) id)) as [Hown|Hnot].
    + left. cbn. apply map_lookup_filter_None. right. by intros ? _ [].
    + destruct (delete_keeps u _ _ _ Htb Hnot Hr) as (E1 & E2 & E3). right.
      split; [split; [by apply E3|done]|]. unfold w_tables. cbn -[DeleteUser]. by split; [|left].
Qed.
End props.

(** * A revalidation that outruns an operator

    ClaimStalePolicyRuns refuses runs with an override, but it reads the overrides as
    of the statement's snapshot while it re-reads the run it locks.  The path below is
    the one in which the override commits in between. *)

Definition runID : UUID := uuid_Nil.

(** A run whose client misreported its total. *)
Definition tamperedReq : ingestRequest :=
  let raw j := Some {| raw_len := 2; raw_val := j |} in
  {| rq_Mode := "time"; rq_DurationMs := Some 15000; rq_WordCount := None; rq_Lang := "en";
     rq_Seed := Some 7; rq_DictHash := "d1";
     rq_Setup := raw (JObj [("config", JObj []); ("generation", JObj [("mode", JStr "time")])]);
     rq_Log := Some (tinyLog 40);
     rq_ClientMetrics := raw (JObj [("wpm", JNum "60.5"); ("raw", JNum "62"); ("acc", JNum "0.97")]);
     rq_ClientScore := raw (JObj [("total", JNum "131")]);
     rq_ScoreVersion := Some 3; rq_RestartsSinceLastSubmit := None |}.

Definition tampered : CreateRunParams := paramsOf uuid_Nil tamperedReq [40].

Definition envOf (d : Decider) : judgeEnv :=
  {| je_reg := toyRegistry; je_quotes := None; je_decider := d; je_epoch := 0 |}.
Definition worker := Judging (envOf openDecider).
Definition revalidation := Revalidating (envOf strictDecider).

Definition reinstate : OverrideParams :=
  {| op_RunID := runID; op_ToStatus := "accepted"; op_Reason := "seen live"; op_DecidedBy := uuid_Nil |}.

(** ** Steps over a single run, whatever is projected *)

Section single.
Context {G : GameCore} {P : @Projection uuid16_Uuid G}.

Definition holdAll (j : job) (w snap : world) : txState :=
  Holding j (claimRows (jobClaim j) (w_tables snap) (w_tables w) ∅ 20 [runID]).
Definition commitOf (t : nat) (j : job) (w : world) : world :=
  match w_open w !! t with
  | Some (Holding _ runs) =>
    match inTx 5 (jobDecide j) runs (w_db w) with Some db => closeTx t db w | None => w end
  | _ => w
  end.

Lemma single_order (tb : tables) r : tb_runs tb = {[ runID := r ]} -> inOrder tb [runID].
Proof.
  intros E. constructor.
  - by apply NoDup_singleton.
  - intros id. rewrite E, list_elem_of_singleton. split; [intros ->; by rewrite lookup_singleton_eq|].
    intros [? [<- _]%lookup_singleton_Some]. done.
  - repeat constructor.
Qed.

Lemma none_locked (w : world) t j snap :
  w_open w = {[ t := Scanning j snap ]} -> forall id, id ∈ (∅ : gset UUID) <-> lockedIn w id.
Proof.
  intros E id. split; [by intros ?%not_elem_of_empty|]. intros (t' & j' & runs & Ht & _).
  rewrite E in Ht. by apply lookup_singleton_Some in Ht as [_ ?].
Qed.

Definition goes {A} (o : option A) : bool := match o with Some _ => true | None => false end.

Lemma commit_step t j w runs :
  w_open w !! t = Some (Holding j runs) -> goes (inTx 5 (jobDecide j) runs (w_db w)) = true ->
  step w (commitOf t j w).
Proof.
  intros Ht. unfold commitOf. rewrite Ht. destruct (inTx _ _ _ _) as [db|] eqn:E; [|done]. intros _.
  by eapply StepCommit.
Qed.

Lemma hold_step t j w snap :
  w_open w = {[ t := Scanning j (w_tables snap) ]} ->
  (exists r, tb_runs (w_tables snap) = {[ runID := r ]}) ->
  step w (openTx t (holdAll j w snap) w).
Proof.
  intros Ho [r Hr]. refine (StepLock w t j _ ∅ 20 [runID] _ _ _).
  - rewrite Ho. apply lookup_singleton_eq.
  - by eapply none_locked.
  - by eapply single_order.
Qed.

End single.

(** ** The worlds of the path *)

#[export] Instance noProjection : @Projection uuid16_Uuid toyCore :=
  {| Proj := unit; ProjectRun := None; ProjectKeyboard := None; ForgetUser _ _ p := p |}.

Definition noProj : @Proj uuid16_Uuid toyCore noProjection := tt.

Definition w1 := withTables (CreateRun runID 1 tampered noTables) (fresh noProj).
Definition w2 := openTx 0 (Scanning worker (w_tables w1)) w1.
Definition w3 := openTx 0 (holdAll worker w2 w1) w2.
Definition w4 := commitOf 0 worker w3.
Definition w5 := openTx 1 (Scanning revalidation (w_tables w4)) w4.
Definition w6 :=
  match OverrideRunStatus uuid_Nil 6 reinstate (w_db w5) with inl (db, _) => withDB db w5 | inr _ => w5 end.
Definition w7 := openTx 1 (holdAll revalidation w6 w4) w6.
Definition w8 := commitOf 1 revalidation w7.

Lemma hold_path : steps step (fresh noProj) w3.
Proof.
  refine (steps_step _ _ w1 _ (StepCreate (fresh noProj) runID 1 uuid_Nil tamperedReq tampered eq_refl eq_refl) _).
  refine (steps_step _ _ w2 _ (StepScan w1 0%nat worker eq_refl) _).
  refine (steps_step _ _ w3 _ (hold_step 0 worker w2 w1 eq_refl _) (steps_refl _ _)). by eexists.
Qed.

Lemma w3_goes : goes (inTx 5 (jobDecide worker)
  (claimRows (jobClaim worker) (w_tables w1) (w_tables w2) ∅ 20 [runID]) (w_db w3)) = true.
Proof. vm_compute. reflexivity. Qed.

Lemma judge_path : steps step (fresh noProj) w4.
Proof.
  refine (steps_trans _ _ _ _ hold_path (steps_step _ _ _ _ _ (steps_refl _ _))).
  exact (commit_step 0 worker w3 _ (lookup_insert_eq _ _ _) w3_goes).
Qed.

Lemma w4_idle : w_open w4 = ∅.
Proof. vm_compute. reflexivity. Qed.

Lemma w5_open : w_open w5 = {[ 1%nat := Scanning revalidation (w_tables w4) ]}.
Proof. unfold w5. cbn [openTx w_open]. rewrite w4_idle. reflexivity. Qed.

Lemma override_step :
  step w5 w6 /\ w_open w6 = w_open w5.
Proof.
  unfold w6. destruct (OverrideRunStatus uuid_Nil 6 reinstate (w_db w5)) as [[db row]|e] eqn:E.
  - split; [|reflexivity]. refine (StepOverride w5 _ _ reinstate _ _ _ E).
    rewrite <- (none_locked _ _ _ _ w5_open). apply not_elem_of_empty.
  - exfalso. assert (match OverrideRunStatus uuid_Nil 6 reinstate (w_db w5) with
                     | inl _ => true | inr _ => false end = true) as G by (vm_compute; reflexivity).
    rewrite E in G. discriminate.
Qed.

(** A committed batch over the only run leaves it the only run. *)
Lemma commit_row t j w runs :
  w_open w !! t = Some (Holding j runs) -> goes (inTx 5 (jobDecide j) runs (w_db w)) = true ->
  pr_ID <$> runs = [runID] -> (exists r, tb_runs (w_tables w) = {[ runID := r ]}) ->
  exists r, tb_runs (w_tables (commitOf t j w)) = {[ runID := r ]}.
Proof.
  intros Ht Hg Hids [r Hr]. unfold commitOf. rewrite Ht.
  destruct (inTx _ _ _ _) as [db|] eqn:E; [|done]. unfold w_tables in Hr.
  apply inTx_tables in E as [Hb Hf _]; [|rewrite Hids; apply NoDup_singleton].
  destruct runs as [|run [|]]; try done. injection Hids as Hid.
  destruct (Hb run r ltac:(left) ltac:(rewrite Hr, Hid; apply lookup_singleton_eq)) as [E1 _].
  exists (judgedRow (jobDecide j run) r). apply map_eq. intros id. unfold w_tables. cbn [closeTx w_db].
  destruct (decide (id = runID)) as [->|Hne].
  - rewrite Hid in E1. by rewrite E1, lookup_singleton_eq.
  - destruct (Hf id) as [-> _]; [|by rewrite Hr, !lookup_singleton_ne by done].
    cbn [fmap list_fmap]. rewrite Hid. by intros ->%list_elem_of_singleton.
Qed.

Lemma w4_row : exists r, tb_runs (w_tables w4) = {[ runID := r ]}.
Proof.
  refine (commit_row 0 worker w3 _ (lookup_insert_eq _ _ _) w3_goes _ _); [vm_compute; reflexivity|].
  by eexists.
Qed.

Lemma race_path : steps step w4 w8.
Proof.
  assert (w_open w6 = {[ 1%nat := Scanning revalidation (w_tables w4) ]}) as Eo.
  { rewrite (proj2 override_step). exact w5_open. }
  refine (steps_step _ _ w5 _ (StepScan w4 1%nat revalidation _) _); [by rewrite w4_idle|].
  refine (steps_step _ _ w6 _ (proj1 override_step) _).
  refine (steps_step _ _ w7 _ (hold_step 1 revalidation w6 w4 Eo w4_row) _).
  eapply steps_step; [|apply steps_refl]. apply (commit_step 1 revalidation w7 _ (lookup_insert_eq _ _ _)).
  vm_compute. reflexivity.
Qed.

(** An override can be undone by a revalidation that was already running.  A world
    is reachable in which the only decision an operator ever took about a run is to
    accept it, the record of it is there, and the run is flagged. *)
Theorem override_can_be_undone :
  exists w, reachable noProj w
    /\ (fun o => (ov_RunID o, ov_ToStatus o)) <$> tb_overrides (w_tables w) = [(runID, "accepted")]
    /\ rr_Status <$> tb_runs (w_tables w) !! runID = Some "flagged".
Proof.
  exists w8. split; [exact (steps_trans _ _ _ _ judge_path race_path)|].
  split; vm_compute; reflexivity.
Qed.

(** ** The theorems of [RunProps] on this path *)

Lemma judged_iff_verdict_witness :
  exists r, tb_runs (w_tables w4) !! runID = Some r /\ rr_Status r = "flagged"
    /\ is_Some (tb_verdicts (w_tables w4) !! runID).
Proof.
  destruct w4_row as [r Er]. exists r.
  assert (tb_runs (w_tables w4) !! runID = Some r) as Hr by (rewrite Er; apply lookup_singleton_eq).
  assert (rr_Status <$> tb_runs (w_tables w4) !! runID = Some "flagged") as Hs by (vm_compute; reflexivity).
  rewrite Hr in Hs. injection Hs as Hs. split; [exact Hr|]. split; [exact Hs|].
  apply (proj1 (judged_iff_verdict noProj w4 judge_path) runID r Hr). rewrite Hs. discriminate.
Defined.

Lemma queue_decides_once_witness :
  exists db run r, inTx 5 (jobDecide worker) [run] (w_db w3) = Some db
    /\ tb_runs (db_tables db) !! runID = Some r /\ rr_Status r <> Runstatus.Pending.
Proof.
  assert (pr_ID <$> claimRows (jobClaim worker) (w_tables w1) (w_tables w2) ∅ 20 [runID] = [runID]) as Hids
    by (vm_compute; reflexivity).
  assert (w_open w3 !! 0%nat = Some (Holding worker (claimRows (jobClaim worker) (w_tables w1) (w_tables w2) ∅ 20 [runID])))
    as Ho by (exact (lookup_insert_eq _ _ _)).
  pose proof w3_goes as Hg.
  destruct (claimRows _ _ _ _ _ _) as [|run [|]]; [discriminate Hids| |discriminate Hids].
  destruct (inTx 5 (jobDecide worker) [run] (w_db w3)) as [db|] eqn:E; [|discriminate Hg].
  destruct (proj1 (queue_decides_once noProj w3 0%nat (envOf openDecider) [run] 5 db hold_path Ho E) run
              ltac:(left)) as (r & _ & _ & _ & _ & Hr & Hs & _).
  injection Hids as Hid. rewrite Hid in Hr. exists db, run, (judgedRow (jobDecide worker run) r).
  split; [exact E|]. split; [exact Hr|exact Hs].
Defined.

Lemma w5_reachable : reachable noProj w5.
Proof.
  refine (steps_trans _ _ _ _ judge_path (steps_step _ _ _ _ (StepScan w4 1%nat revalidation _) (steps_refl _ _))).
  by rewrite w4_idle.
Qed.

Lemma evidence_kept_witness :
  step w5 w6
  /\ ((exists u, w_tables w6 = DeleteUser u (w_tables w5))
      \/ forall id r, tb_runs (w_tables w5) !! id = Some r ->
           exists r', tb_runs (w_tables w6) !! id = Some r'
             /\ rr_Params r' = rr_Params r /\ rr_CreatedAt r' = rr_CreatedAt r).
Proof.
  split; [exact (proj1 override_step)|].
  destruct (evidence_kept noProj w5 w6 w5_reachable (proj1 override_step)) as [Hd|[Hk _]]; [left; exact Hd|right; exact Hk].
Defined.

(** The operator decides while no revalidation runs. *)
Definition w5s :=
  match OverrideRunStatus uuid_Nil 6 reinstate (w_db w4) with inl (db, _) => withDB db w4 | inr _ => w4 end.

Lemma w5s_reachable : reachable noProj w5s.
Proof.
  refine (steps_trans _ _ _ _ judge_path _). unfold w5s.
  destruct (OverrideRunStatus uuid_Nil 6 reinstate (w_db w4)) as [[db row]|e] eqn:E; [|apply steps_refl].
  refine (steps_step _ _ _ _ (StepOverride w4 _ _ reinstate _ _ _ E) (steps_refl _ _)).
  intros (t & j & runs & Ht & _). by rewrite w4_idle in Ht.
Qed.

Lemma settled_override_stands_witness :
  settled w5s runID /\ settled (openTx 1 (Scanning revalidation (w_tables w5s)) w5s) runID.
Proof.
  assert (w_open w5s = ∅) as Ho.
  { unfold w5s. destruct (OverrideRunStatus uuid_Nil 6 reinstate (w_db w4)) as [[db row]|e]; exact w4_idle. }
  assert (settled w5s runID) as Hs.
  { split; [vm_compute; reflexivity|]. intros t s Ht. rewrite Ho in Ht. discriminate Ht. }
  split; [exact Hs|].
  destruct (settled_override_stands noProj w5s _ runID w5s_reachable Hs (StepScan w5s 1%nat revalidation ltac:(by rewrite Ho)))
    as [Hn|[Hk _]]; [|exact Hk].
  exfalso. assert (goes (tb_runs (w_tables w5s) !! runID) = true) as Hg by (vm_compute; reflexivity).
  unfold w_tables in Hn, Hg. cbn [openTx w_db] in Hn. rewrite Hn in Hg. discriminate Hg.
Defined.
