(* ===== verification/RunBatches.v ===== *)
(** * Batches in a row: the queue, replayctl revalidate, and a batch that cannot commit

    What [ProcessBatch] takes and leaves, the revalidation loop of cmd/replayctl, and
    what a projection that refuses one run does to the queue; and that otherwise nobody in
    it waits for ever. *)

From Stdlib Require Import Sorting.Sorted Strings.Byte.
From stdpp Require Import sorting.
From S2P Require Import Prelude GoStd Uuid Json Runs Policy Core Registry Decide Worker RunStore RunLife RunProps.

Open Scope Z_scope.

(** Projections that never fail. *)
Class ProjectionTotal `{Projection} := {
  projectRun_total id tb p : is_Some (projectRun id tb p);
  projectKeyboard_total id d tb p : is_Some (projectKeyboard id d tb p) }.

Section batches.
Context `{Uuid} `{Gzip} `{GameCore} `{!Projection}.

(** The runs a claim is after, oldest first. *)
Definition backlog (k : claimKind) (tb : tables) (order : list UUID) : list UUID :=
  filter (fun id => matches k (tb_overrides tb) tb id = true) order.

(** The decision takes the run out of the claim's reach. *)
Definition leaves (k : claimKind) (d : Decision) : Prop :=
  match k with
  | ClaimPending => dc_Status d <> Runstatus.Pending
  | ClaimStale policyVersion bundle =>
    0 < policyVersion /\ dc_PolicyVersion d = policyVersion /\ dc_BundleSHA d = bundle /\ bundle <> ""
  end.

(** The loop of replayctl's revalidate: batches until [limit] runs are done or none is
    found. *)
Fixpoint revalidate (fuel : nat) (now : Z) (env : judgeEnv) (limit batch : nat) (total : nat)
    (order : list UUID) (db : database) : option (database * nat) :=
  match fuel with
  | O => None
  | S fuel =>
    if (total <? limit)%nat then
      match ProcessBatch now (jobClaim (Revalidating env)) batch (jobDecide (Revalidating env)) order db with
      | None => None
      | Some (db, O) => Some (db, total)
      | Some (db, n) => revalidate fuel now env limit batch (total + n) order db
      end
    else Some (db, total)
  end.

(** ** Lemmas *)

Lemma claimIDs_idle k tb limit order : claimIDs k tb tb ∅ limit order = take limit (backlog k tb order).
Proof.
  unfold claimIDs, backlog. f_equal. apply list_filter_iff. intros id.
  rewrite (bool_decide_eq_false_2 (id ∈ (∅ : gset UUID))) by apply not_elem_of_empty.
  destruct (matches k (tb_overrides tb) tb id); cbn; done.
Qed.

Lemma matches_row k ovs tb id : matches k ovs tb id = true -> is_Some (tb_runs tb !! id).
Proof. destruct k; cbn; unfold pendingMatch, staleMatch; destruct (tb_runs tb !! id); done. Qed.

Lemma claimed_ids k tb limit order :
  pr_ID <$> claimRows k tb tb ∅ limit order = take limit (backlog k tb order).
Proof.
  rewrite claimRows_ids, claimIDs_idle. apply filter_all. intros id Hin.
  apply subseteq_take, list_elem_of_filter in Hin as [Hm _]. by eapply matches_row.
Qed.

Lemma matches_same k ovs tb tb' id :
  tb_runs tb' !! id = tb_runs tb !! id -> tb_verdicts tb' !! id = tb_verdicts tb !! id ->
  matches k ovs tb' id = matches k ovs tb id.
Proof. intros E1 E2. destruct k; cbn; unfold pendingMatch, staleMatch; by rewrite E1, ?E2. Qed.

Lemma NullIfEmpty_nonempty s : s <> "" -> NullIfEmpty s = Some s.
Proof. intros Hs. unfold NullIfEmpty. by rewrite (proj2 (String.eqb_neq _ _) Hs). Qed.

(** A decided run matches no more. *)
Lemma leaves_matches k ovs now d tb id r user :
  leaves k d -> tb_runs tb !! id = Some (judgedRow d r) ->
  tb_verdicts tb !! id = Some (verdictOf now id d user) -> matches k ovs tb id = false.
Proof.
  intros Hl Hr Hv. destruct k as [|policyVersion bundle]; cbn in *.
  - unfold pendingMatch. rewrite Hr. cbn. by apply String.eqb_neq.
  - destruct Hl as (Hpos & Hp & Hb & Hne). unfold staleMatch. rewrite Hr, Hv. unfold staleVerdict. cbn.
    rewrite Hp, Hb, (NullIfEmpty_nonempty _ Hne), (proj2 (Z.ltb_lt _ _) Hpos), Z.ltb_irrefl.
    by rewrite bool_decide_eq_true_2.
Qed.

Lemma inTx_total `{!ProjectionTotal} now dec runs db : is_Some (inTx now dec runs db).
Proof.
  revert db. induction runs as [|run runs IH]; intros db; cbn [inTx]; [done|].
  unfold writeOutcome. cbv zeta.
  match goal with |- context [projectRun ?i ?tb ?p] =>
    destruct (projectRun_total i tb p) as [p1 E1]; rewrite E1 end.
  match goal with |- context [projectKeyboard ?i ?d ?tb ?p] =>
    destruct (projectKeyboard_total i d tb p) as [p2 E2]; rewrite E2 end.
  apply IH.
Qed.


Lemma batch_rows now k limit dec order db db' n :
  NoDup order -> ProcessBatch now k limit dec order db = Some (db', n) ->
  let runs := claimRows k (db_tables db) (db_tables db) ∅ limit order in
  n = length (take limit (backlog k (db_tables db) order))
  /\ batch_of now dec runs (db_tables db) (db_tables db').
Proof.
  intros Hn. unfold ProcessBatch. destruct (inTx _ _ _ _) as [db1|] eqn:E; [|done]. intros [= <- <-].
  cbn zeta. split; [by rewrite <- claimed_ids, length_fmap|].
  apply inTx_tables in E; [done|]. by apply claimRows_NoDup.
Qed.

(** What a batch leaves of the backlog, when its decisions take runs out of reach. *)
Lemma batch_backlog now k limit dec order db db' n :
  NoDup order -> (forall run, leaves k (dec run)) ->
  ProcessBatch now k limit dec order db = Some (db', n) ->
  backlog k (db_tables db') order = drop limit (backlog k (db_tables db) order).
Proof.
  intros Hn Hl Hp. destruct (batch_rows _ _ _ _ _ _ _ _ Hn Hp) as [_ [Hb Hf Hov]].
  unfold backlog. rewrite Hov. apply filter_drop_prefix; [done| |].
  - intros id Hid. fold (backlog k (db_tables db) order) in Hid. rewrite <- claimed_ids in Hid.
    apply list_elem_of_fmap in Hid as (run & -> & Hrun).
    destruct (claimRows_spec _ _ _ _ _ _ _ Hrun) as (r & Hr & _). destruct (Hb _ _ Hrun Hr) as [E1 E2].
    by rewrite (leaves_matches k _ _ _ _ _ _ _ (Hl run) E1 E2).
  - intros id _ Hid. destruct (Hf id) as [E1 E2].
    { by rewrite claimed_ids. }
    by rewrite (matches_same k _ _ _ _ E1 E2).
Qed.

Lemma pending_leaves env run : leaves ClaimPending (jobDecide (Judging env) run).
Proof. apply judgedStatus_not_pending, jobDecide_judged. Qed.

Lemma JudgeRun_stamps dicts reg quotes dec run epoch :
  let d := JudgeRun dicts reg quotes dec run epoch in
  dc_BundleSHA d = bundleSHA /\ dc_PolicyVersion d = dr_version dec.
Proof. cbn zeta. unfold JudgeRun. destruct (replayRun _ _ _ _ _); apply Decide_stamps. Qed.

Lemma stale_leaves env run :
  0 < dr_version (je_decider env) -> bundleSHA <> "" ->
  leaves (jobClaim (Revalidating env)) (jobDecide (Revalidating env) run).
Proof.
  intros Hp Hb. cbn. destruct (JudgeRun_stamps ∅ (je_reg env) (je_quotes env)
    (ForRejudgement (je_decider env)) run (je_epoch env)) as [-> ->]. done.
Qed.

Lemma ProcessBatch_total `{!ProjectionTotal} now k limit dec order db :
  is_Some (ProcessBatch now k limit dec order db).
Proof. unfold ProcessBatch. destruct (inTx_total now dec (claimRows k (db_tables db) (db_tables db) ∅ limit order) db) as [db' ->]. done. Qed.

Lemma backlog_length k tb order limit :
  length (take limit (backlog k tb order)) = Nat.min limit (length (backlog k tb order)).
Proof. apply length_take. Qed.

(** A pass of replayctl revalidate ends, and ends with nothing stale.  Whatever the
    batch size, with fuel for one batch per run, the loop comes back having re-judged
    each run it found at most once, oldest first: what is stale afterwards is the
    backlog without the runs it counted, and that is nothing unless the pass's limit
    was reached. *)
Theorem revalidate_drains `{!ProjectionTotal} (now : Z) (env : judgeEnv) (limit batch fuel : nat)
    (order : list UUID) (db : database) :
  0 < dr_version (je_decider env) -> bundleSHA <> "" -> inOrder (db_tables db) order ->
  (0 < batch)%nat ->
  let stale db := backlog (jobClaim (Revalidating env)) (db_tables db) order in
  (length (stale db) < fuel)%nat ->
  exists db' total, revalidate fuel now env limit batch 0 order db = Some (db', total)
    /\ stale db' = drop total (stale db) /\ (total <= length (stale db))%nat
    /\ (stale db' = [] \/ (limit <= total)%nat).
Proof.
  intros Hv Hb [Hn _ _] Hbatch. cbn zeta. pose (k := jobClaim (Revalidating env)).
  assert (forall fuel total db, (length (backlog k (db_tables db) order) < fuel)%nat ->
    exists db' done, revalidate fuel now env limit batch total order db = Some (db', total + done)%nat
      /\ backlog k (db_tables db') order = drop done (backlog k (db_tables db) order)
      /\ (done <= length (backlog k (db_tables db) order))%nat
      /\ (backlog k (db_tables db') order = [] \/ (limit <= total + done)%nat)) as Hgen.
  2: { intros Hf. destruct (Hgen fuel 0%nat db Hf) as (db' & n & ?). by exists db', n. }
  clear fuel db. induction fuel as [|fuel IH]; intros total db Hf; [lia|]. cbn [revalidate].
  destruct (total <? limit)%nat eqn:El; bool_to_prop.
  2: { exists db, 0%nat. rewrite Nat.add_0_r. split_and!; [done|done|lia|right; lia]. }
  destruct (ProcessBatch_total now k batch (jobDecide (Revalidating env)) order db) as [[db1 n] Hp].
  fold k. rewrite Hp. destruct (batch_rows _ _ _ _ _ _ _ _ Hn Hp) as [Hlen _]. rewrite backlog_length in Hlen.
  pose proof (batch_backlog _ _ _ _ _ _ _ _ Hn (fun run => stale_leaves env run Hv Hb) Hp) as Hbl.
  fold k in Hbl. destruct n as [|n].
  - assert (backlog k (db_tables db) order = []) as Hnil by (apply nil_length_inv; lia).
    exists db1, 0%nat. rewrite Nat.add_0_r, Hbl, Hnil, drop_nil. split_and!; [done..|lia|by left].
  - destruct (IH (total + S n)%nat db1) as (db' & m & Hr & Hd & Hm & He); [rewrite Hbl, length_drop; lia|].
    exists db', (S n + m)%nat. rewrite Nat.add_assoc. rewrite Hbl in Hd, Hm. rewrite drop_drop in Hd. rewrite length_drop in Hm.
    assert (drop (batch + m) (backlog k (db_tables db) order) = drop (S n + m) (backlog k (db_tables db) order)) as E.
    { destruct (decide (batch <= length (backlog k (db_tables db) order))%nat); [f_equal; lia|].
      by rewrite !drop_ge by lia. }
    rewrite <- E. split_and!; [exact Hr|exact Hd|lia|exact He].
Qed.

(** The queue takes the oldest pending runs and finishes them.  A batch that meets
    no other transaction claims the [limit] oldest pending runs, or all there are, and
    when it commits the pending runs left are exactly the others, in their order. *)
Theorem queue_takes_oldest (now : Z) (env : judgeEnv) (limit : nat) (order : list UUID)
    (db db' : database) (n : nat) :
  inOrder (db_tables db) order ->
  ProcessBatch now ClaimPending limit (jobDecide (Judging env)) order db = Some (db', n) ->
  let pending db := backlog ClaimPending (db_tables db) order in
  n = Nat.min limit (length (pending db)) /\ pending db' = drop limit (pending db)
  /\ (forall a b, a ∈ take limit (pending db) -> b ∈ pending db' ->
        createdAt (db_tables db) a <= createdAt (db_tables db) b).
Proof.
  intros [Hn _ Hso] Hp. cbn zeta.
  pose proof (batch_backlog _ _ _ _ _ _ _ _ Hn (pending_leaves env) Hp) as Hd.
  destruct (batch_rows _ _ _ _ _ _ _ _ Hn Hp) as [Hlen _]. rewrite backlog_length in Hlen.
  split_and!; [done|done|]. intros a b Ha Hb. rewrite Hd in Hb.
  apply Sorted_StronglySorted in Hso; [|intros x y z; cbn; lia].
  assert (StronglySorted (fun a b => createdAt (db_tables db) a <= createdAt (db_tables db) b)
            (backlog ClaimPending (db_tables db) order)) as Hs.
  { unfold backlog. clear -Hso. induction Hso as [|x l Hl IH Hx]; [constructor|]. rewrite filter_cons.
    case_decide; [|done]. constructor; [done|]. rewrite Forall_forall in Hx |- *.
    intros y [_ Hy]%list_elem_of_filter. by apply Hx. }
  rewrite <- (take_drop limit (backlog ClaimPending (db_tables db) order)) in Hs.
  by apply (StronglySorted_app_1_elem_of _ _ _ a b Hs).
Qed.

(** Without a policy, revalidation would never end.  A judge whose version is the
    open default's writes no policy version, so what a batch has just re-judged is as
    stale as before: the backlog does not change, whatever is in it.  (replayctl refuses
    to run so.) *)
Theorem unversioned_revalidation_stalls (now : Z) (env : judgeEnv) (limit : nat) (order : list UUID)
    (db db' : database) (n : nat) :
  dr_version (je_decider env) = ColumnNone -> NoDup order ->
  ProcessBatch now (jobClaim (Revalidating env)) limit (jobDecide (Revalidating env)) order db
    = Some (db', n) ->
  let stale db := backlog (jobClaim (Revalidating env)) (db_tables db) order in
  stale db' = stale db /\ n = Nat.min limit (length (stale db)).
Proof.
  intros Hv Hn Hp. destruct (batch_rows _ _ _ _ _ _ _ _ Hn Hp) as [Hlen [Hb Hf Hov]].
  rewrite backlog_length in Hlen. cbn zeta. split; [|done]. unfold backlog. rewrite Hov.
  apply list_filter_iff. intros id. cbn [jobClaim matches].
  destruct (decide (id ∈ pr_ID <$> claimRows (jobClaim (Revalidating env)) (db_tables db) (db_tables db) ∅ limit order))
    as [(run & -> & Hrun)%list_elem_of_fmap|Hid].
  - destruct (claimRows_spec _ _ _ _ _ _ _ Hrun) as (r & Hr & _ & _ & Hm & _).
    destruct (Hb _ _ Hrun Hr) as [E1 E2]. cbn [jobClaim matches] in Hm. rewrite Hm.
    unfold staleMatch in Hm |- *. rewrite E1, E2. rewrite Hr in Hm.
    destruct (tb_verdicts (db_tables db) !! pr_ID run) as [v|]; [|done]. bool_to_prop.
    match goal with H : negb _ = _ |- _ => idtac | H : overridden _ _ = false |- _ => rewrite H end.
    unfold staleVerdict, verdictOf. cbn [vr_PolicyVersion vr_BundleSha].
    cbn [jobDecide]. destruct (JudgeRun_stamps ∅ (je_reg env) (je_quotes env)
      (ForRejudgement (je_decider env)) run (je_epoch env)) as [_ ->].
    cbn [ForRejudgement dr_version]. by rewrite Hv.
  - destruct (Hf _ Hid) as [E1 E2]. unfold staleMatch. by rewrite E1, E2.
Qed.

(** One run whose outcome is refused stops the queue.  If writing the outcome of a
    run fails (the board's score check, for instance, aborts the statement) and it is the
    oldest one pending, no batch commits, whatever the other decisions and the batch
    size: everything behind it waits. *)
Theorem refused_projection_stops_queue (now : Z) (dec : PendingRun -> Decision) (limit : nat)
    (order : list UUID) (db : database) (id : UUID) (behind : list UUID) :
  (forall r, tb_runs (db_tables db) !! id = Some r -> writeOutcome now id (dec (toPendingRun id r)) db = None) ->
  backlog ClaimPending (db_tables db) order = id :: behind -> (0 < limit)%nat ->
  ProcessBatch now ClaimPending limit dec order db = None.
Proof.
  intros Hr Hb Hl. pose proof (claimed_ids ClaimPending (db_tables db) limit order) as Hids.
  rewrite Hb in Hids. destruct limit as [|limit]; [lia|]. cbn [take] in Hids.
  unfold ProcessBatch. destruct (claimRows _ _ _ _ _ _) as [|run runs] eqn:Er; [done|].
  injection Hids as Hid _. cbn [inTx].
  destruct (claimRows_spec ClaimPending (db_tables db) (db_tables db) ∅ (S limit) order run) as (r & Hrow & -> & _).
  { rewrite Er. left. }
  rewrite Hid in *. by rewrite Hr.
Qed.
End batches.

(** ** Witnesses, on the tables of [RunProps] *)

#[export] Instance noProjection_total : @ProjectionTotal uuid16_Uuid toyCore noProjection.
Proof. constructor; intros; eexists; reflexivity. Qed.

Lemma w4_order : inOrder (w_tables w4) [runID].
Proof. destruct w4_row as [r Hr]. by eapply single_order. Qed.

Lemma revalidate_drains_witness :
  exists db' total, revalidate 3 9 (envOf strictDecider) 100 20 0 [runID] (w_db w4) = Some (db', total)
    /\ (total <= 1)%nat.
Proof.
  destruct (revalidate_drains 9 (envOf strictDecider) 100 20 3 [runID] (w_db w4) eq_refl ltac:(discriminate)
              w4_order ltac:(lia) ltac:(vm_compute; lia)) as (db' & total & Hr & _ & Hl & _).
  exists db', total. split; [exact Hr|]. etransitivity; [exact Hl|]. vm_compute. lia.
Defined.

Lemma queue_takes_oldest_witness :
  exists db' n, ProcessBatch 5 ClaimPending 20 (jobDecide worker) [runID] (w_db w1) = Some (db', n)
    /\ n = 1%nat /\ backlog ClaimPending (db_tables db') [runID] = [].
Proof.
  destruct (ProcessBatch_total 5 ClaimPending 20 (jobDecide worker) [runID] (w_db w1)) as [[db' n] Hp].
  exists db', n. split; [exact Hp|].
  assert (inOrder (w_tables w1) [runID]) as Ho by (eapply single_order; reflexivity).
  assert (backlog ClaimPending (db_tables (w_db w1)) [runID] = [runID]) as Hb by (vm_compute; reflexivity).
  destruct (queue_takes_oldest 5 (envOf openDecider) 20 [runID] (w_db w1) db' n Ho Hp) as (Hn & Hd & _).
  rewrite Hb in Hn, Hd. split; [exact Hn|exact Hd].
Defined.

Lemma unversioned_revalidation_stalls_witness :
  exists db' n, ProcessBatch 9 (jobClaim (Revalidating (envOf openDecider))) 20
                  (jobDecide (Revalidating (envOf openDecider))) [runID] (w_db w4) = Some (db', n) /\ n = 1%nat
    /\ backlog (jobClaim (Revalidating (envOf openDecider))) (db_tables db') [runID] = [runID].
Proof.
  destruct (ProcessBatch_total 9 (jobClaim (Revalidating (envOf openDecider))) 20
              (jobDecide (Revalidating (envOf openDecider))) [runID] (w_db w4)) as [[db' n] Hp].
  exists db', n. split; [exact Hp|].
  assert (backlog (jobClaim (Revalidating (envOf openDecider))) (db_tables (w_db w4)) [runID] = [runID])
    as Hb by (vm_compute; reflexivity).
  destruct (unversioned_revalidation_stalls 9 (envOf openDecider) 20 [runID] (w_db w4) db' n eq_refl
              (NoDup_singleton _) Hp) as (Hs & Hn).
  rewrite Hb in Hs, Hn. split; [exact Hn|exact Hs].
Defined.

(** * The queue makes progress

    While the worker's batches commit, a pending run waits for no more of them than the
    runs submitted before it fill, whatever is submitted behind it. *)

Section progress.
Context `{Uuid} `{Gzip} `{GameCore} `{!Projection}.
Context (env : judgeEnv) (limit : nat).

Definition submitTo (id : UUID) (now : Z) (p : CreateRunParams) (db : database) : database :=
  {| db_tables := CreateRun id now p (db_tables db); db_proj := db_proj db |}.

(** [n] batches that commit, and any number of submissions in between, all made later
    than [since]; each batch may break ties in its own way. *)
Inductive served (since : Z) : nat -> database -> database -> Prop :=
| served_none db : served since 0 db db
| served_submission n db db' id now p :
    tb_runs (db_tables db) !! id = None -> since < now ->
    served since n (submitTo id now p db) db' -> served since n db db'
| served_batch n db db1 db' now order k :
    inOrder (db_tables db) order ->
    ProcessBatch now ClaimPending limit (jobDecide (Judging env)) order db = Some (db1, k) ->
    served since n db1 db' -> served since (S n) db db'.

(** The pending runs a claim may take before [id], itself included. *)
Definition ahead (tb : tables) (id : UUID) : gset UUID :=
  filter (fun a => pendingMatch tb a = true /\ createdAt tb a <= createdAt tb id) (dom (tb_runs tb)).

Lemma elem_of_ahead tb id a : a ∈ ahead tb id <-> pendingMatch tb a = true /\ createdAt tb a <= createdAt tb id.
Proof.
  unfold ahead. rewrite elem_of_filter, elem_of_dom. split; [by intros [? _]|]. intros [Hp Hc]. split; [done|].
  unfold pendingMatch in Hp. by destruct (tb_runs tb !! a).
Qed.

Lemma batch_createdAt now order db db' k id :
  NoDup order -> ProcessBatch now ClaimPending limit (jobDecide (Judging env)) order db = Some (db', k) ->
  createdAt (db_tables db') id = createdAt (db_tables db) id.
Proof.
  intros Hn Hp. destruct (batch_rows _ _ _ _ _ _ _ _ Hn Hp) as [_ [Hb Hf _]]. unfold createdAt.
  destruct (decide (id ∈ pr_ID <$> claimRows ClaimPending (db_tables db) (db_tables db) ∅ limit order))
    as [(run & -> & Hrun)%list_elem_of_fmap|Hid].
  - destruct (claimRows_spec _ _ _ _ _ _ _ Hrun) as (r & Hr & _). destruct (Hb _ _ Hrun Hr) as [-> _]. by rewrite Hr.
  - by destruct (Hf _ Hid) as [-> _].
Qed.

(** A run that is no longer pending stays as it is. *)
Lemma batch_settled now order db db' k id :
  NoDup order -> ProcessBatch now ClaimPending limit (jobDecide (Judging env)) order db = Some (db', k) ->
  pendingMatch (db_tables db) id = false ->
  tb_runs (db_tables db') !! id = tb_runs (db_tables db) !! id
  /\ tb_verdicts (db_tables db') !! id = tb_verdicts (db_tables db) !! id.
Proof.
  intros Hn Hp Hm. destruct (batch_rows _ _ _ _ _ _ _ _ Hn Hp) as [_ [_ Hf _]]. apply Hf.
  rewrite claimed_ids. intros Hin%subseteq_take%list_elem_of_filter. cbn in Hin. destruct Hin as [Hin _]. congruence.
Qed.

Definition judgedAt (tb : tables) (id : UUID) : Prop :=
  (exists r, tb_runs tb !! id = Some r /\ rr_Status r <> Runstatus.Pending) /\ is_Some (tb_verdicts tb !! id).

Lemma judgedAt_settled tb id : judgedAt tb id -> pendingMatch tb id = false.
Proof. intros [(r & Hr & Hs) _]. unfold pendingMatch. rewrite Hr. by apply String.eqb_neq. Qed.

Lemma served_judged since n db db' id : served since n db db' -> judgedAt (db_tables db) id -> judgedAt (db_tables db') id.
Proof.
  intros Hs. induction Hs as [db|n db db' id' now p Hnew _ _ IH|n db db1 db' now order k [Hn _ _] Hp _ IH]; [done| |].
  - intros [(r & Hr & Hst) Hv]. apply IH. split; [|done]. exists r. split; [|done]. cbn.
    rewrite lookup_insert_ne; [done|]. intros ->. congruence.
  - intros Hj. apply IH. destruct (batch_settled _ _ _ _ _ id Hn Hp (judgedAt_settled _ _ Hj)) as [E1 E2].
    unfold judgedAt. by rewrite E1, E2.
Qed.

(** A batch judges the run, or takes a full batch of those ahead of it. *)
Lemma batch_advances now order db db' k id :
  inOrder (db_tables db) order ->
  ProcessBatch now ClaimPending limit (jobDecide (Judging env)) order db = Some (db', k) ->
  pendingMatch (db_tables db) id = true ->
  judgedAt (db_tables db') id
  \/ (pendingMatch (db_tables db') id = true
      /\ (size (ahead (db_tables db') id) + limit <= size (ahead (db_tables db) id))%nat).
Proof.
  intros Ho Hp Hm. destruct (queue_takes_oldest _ _ _ _ _ _ _ Ho Hp) as (_ & Hleft & Hold).
  set (queue := backlog ClaimPending (db_tables db) order) in *. destruct Ho as [Hn Hall _].
  assert (NoDup queue) as Hq by by apply NoDup_filter.
  assert (forall a, a ∈ queue <-> pendingMatch (db_tables db) a = true) as Hin.
  { intros a. unfold queue, backlog. rewrite list_elem_of_filter. cbn. split; [by intros [? _]|]. intros Ha. split; [done|].
    apply Hall. unfold pendingMatch in Ha. by destruct (tb_runs (db_tables db) !! a). }
  assert (forall a, a ∈ drop limit queue <-> pendingMatch (db_tables db') a = true) as Hrest.
  { intros a. rewrite <- Hleft. unfold backlog. rewrite list_elem_of_filter. cbn. split; [by intros [? _]|]. intros Ha.
    split; [done|]. apply Hall. unfold pendingMatch in Ha. destruct (batch_rows _ _ _ _ _ _ _ _ Hn Hp) as [_ [_ Hf _]].
    destruct (decide (a ∈ pr_ID <$> claimRows ClaimPending (db_tables db) (db_tables db) ∅ limit order)) as [Hc|Hc].
    - rewrite claimed_ids in Hc. apply subseteq_take, list_elem_of_filter in Hc as [Hc _]. by eapply matches_row.
    - destruct (Hf _ Hc) as [E _]. rewrite <- E. by destruct (tb_runs (db_tables db') !! a). }
  pose proof (proj2 (Hin id) Hm) as Hid. rewrite <- (take_drop limit queue) in Hid, Hq.
  apply NoDup_app in Hq as (Hnt & Hdisj & _). apply elem_of_app in Hid as [Hid|Hid].
  - left. destruct (batch_rows _ _ _ _ _ _ _ _ Hn Hp) as [_ [Hb _ _]]. unfold queue in Hid. rewrite <- claimed_ids in Hid.
    apply list_elem_of_fmap in Hid as (run & -> & Hrun). destruct (claimRows_spec _ _ _ _ _ _ _ Hrun) as (r & Hr & _).
    destruct (Hb _ _ Hrun Hr) as [E1 E2]. split; [|by rewrite E2]. exists (judgedRow (jobDecide (Judging env) run) r).
    split; [done|]. apply (pending_leaves env run).
  - right. split; [by apply Hrest|].
    assert (length (take limit queue) = limit) as Hlen.
    { apply length_take_le. destruct (decide (limit <= length queue)%nat); [done|].
      rewrite drop_ge in Hid by lia. by apply not_elem_of_nil in Hid. }
    rewrite <- Hlen, <- (size_list_to_set (C := gset UUID) (take limit queue)) by done.
    rewrite <- size_union.
    + apply subseteq_size. intros a [Ha|Ha]%elem_of_union.
      * apply elem_of_ahead in Ha as [Ha Hc]. rewrite !(batch_createdAt _ _ _ _ _ _ Hn Hp) in Hc. apply elem_of_ahead.
        split; [|done]. apply Hin. apply Hrest in Ha. by eapply subseteq_drop.
      * apply elem_of_list_to_set in Ha. apply elem_of_ahead. split; [apply Hin; by eapply subseteq_take|].
        apply Hold; [done|]. by rewrite Hleft.
    + intros a Ha Ha'. apply elem_of_list_to_set in Ha'. apply elem_of_ahead in Ha as [Ha _]. apply Hrest in Ha. by eapply Hdisj.
Qed.

Lemma submit_keeps db id' now p id :
  tb_runs (db_tables db) !! id' = None -> createdAt (db_tables db) id < now -> pendingMatch (db_tables db) id = true ->
  let db' := submitTo id' now p db in
  createdAt (db_tables db') id = createdAt (db_tables db) id /\ pendingMatch (db_tables db') id = true
  /\ ahead (db_tables db') id = ahead (db_tables db) id.
Proof.
  intros Hnew Hlt Hm. cbv zeta. assert (id <> id') as Hne by (intros ->; unfold pendingMatch in Hm; by rewrite Hnew in Hm).
  assert (forall a, a <> id' -> createdAt (db_tables (submitTo id' now p db)) a = createdAt (db_tables db) a
    /\ pendingMatch (db_tables (submitTo id' now p db)) a = pendingMatch (db_tables db) a) as Hkeep.
  { intros a Ha. unfold createdAt, pendingMatch. cbn. by rewrite lookup_insert_ne. }
  destruct (Hkeep id Hne) as [Ec Em]. split_and!; [done|by rewrite Em|]. apply set_eq. intros a. rewrite !elem_of_ahead.
  rewrite Ec. destruct (decide (a = id')) as [->|Ha]; [|by destruct (Hkeep a Ha) as [-> ->]].
  split.
  - intros [_ Hc]. unfold createdAt at 1 in Hc. cbn in Hc. rewrite lookup_insert_eq in Hc. cbn in Hc. lia.
  - intros [Hp _]. unfold pendingMatch in Hp. by rewrite Hnew in Hp.
Qed.

(** Batches can always go on: the runs have an order, and a projection that never fails
    lets each commit. *)
Lemma order_exists (tb : tables) : exists order, inOrder tb order.
Proof.
  pose (R := fun a b : UUID => createdAt tb a <= createdAt tb b).
  assert (forall a b, base.Decision (R a b)) by (intros a b; unfold R; apply _).
  exists (merge_sort R (elements (dom (tb_runs tb)))). constructor.
  - rewrite merge_sort_Permutation. apply NoDup_elements.
  - intros id. rewrite merge_sort_Permutation, elem_of_elements, elem_of_dom. done.
  - apply Sorted_merge_sort. intros a b. unfold R. lia.
Qed.

Lemma batches_go_on `{!ProjectionTotal} since n db : exists db', served since n db db'.
Proof.
  revert db. induction n as [|n IH]; intros db; [exists db; constructor|].
  destruct (order_exists (db_tables db)) as [order Ho].
  destruct (ProcessBatch_total 0 ClaimPending limit (jobDecide (Judging env)) order db) as [[db1 k] Hp].
  destruct (IH db1) as [db' Hs]. exists db'. by eapply served_batch.
Qed.

(** C29: the queue serves everybody.  A pending run is judged by the time the worker has
    committed as many batches as the pending runs no younger than it fill: whatever is
    submitted behind it in the meantime, however many, and whichever way each batch
    orders runs of the same instant.  Its status is then decided and its verdict
    stored. *)
Theorem every_run_is_judged (n : nat) (db db' : database) (id : UUID) :
  pendingMatch (db_tables db) id = true ->
  served (createdAt (db_tables db) id) n db db' ->
  (size (ahead (db_tables db) id) <= n * limit)%nat ->
  judgedAt (db_tables db') id.
Proof.
  intros Hm Hs. assert (0 < size (ahead (db_tables db) id))%nat as Hpos.
  { destruct (decide (size (ahead (db_tables db) id) = 0%nat)) as [E|]; [|lia]. apply size_empty_inv in E.
    exfalso. apply (not_elem_of_empty (C := gset UUID) id), E, elem_of_ahead. by split. }
  remember (createdAt (db_tables db) id) as since eqn:Es. revert Es Hm Hpos.
  induction Hs as [db|n db db' id' now p Hnew Hlt Hs IH|n db db1 db' now order k Ho Hp Hs IH]; intros Es Hm Hpos Hle; [lia| |].
  - subst since. destruct (submit_keeps db id' now p id Hnew Hlt Hm) as (Ec & Em & Ea). apply IH; [done|done| |]; by rewrite Ea.
  - destruct (batch_advances _ _ _ _ _ id Ho Hp Hm) as [Hj|[Hm' Hsz]]; [by eapply served_judged|].
    apply IH; [|done| |cbn in Hle; lia].
    + destruct Ho as [Hn _ _]. by rewrite (batch_createdAt _ _ _ _ _ _ Hn Hp).
    + destruct (decide (size (ahead (db_tables db1) id) = 0%nat)) as [E|]; [|lia]. apply size_empty_inv in E.
      exfalso. apply (not_elem_of_empty (C := gset UUID) id), E, elem_of_ahead. by split.
Qed.
End progress.

(** Three runs of the same account, a batch of one: the second waits for the first, not
    for the third. *)
Definition secondID : UUID := default uuid_Nil (mk16 (replicate 15 Byte.x00 ++ [Byte.x07])).
Definition thirdID : UUID := default uuid_Nil (mk16 (replicate 15 Byte.x00 ++ [Byte.x08])).
Definition runAt (id : UUID) (t : Z) (db : @database _ _ noProjection) : database := submitTo id t tampered db.
Definition twoWaiting : @database _ _ noProjection := runAt secondID 2 (runAt runID 1 {| db_tables := noTables; db_proj := noProj |}).

Lemma every_run_is_judged_witness :
  exists db', served (envOf openDecider) 1 2 2 (runAt thirdID 3 twoWaiting) db' /\ judgedAt (db_tables db') secondID.
Proof.
  destruct (batches_go_on (envOf openDecider) 1 2 2 (runAt thirdID 3 twoWaiting)) as [db' Hs].
  exists db'. split; [exact Hs|].
  refine (every_run_is_judged (envOf openDecider) 1 2 twoWaiting db' secondID _ _ _).
  - vm_compute. reflexivity.
  - eapply (served_submission _ _ _ _ _ _ thirdID 3 tampered); [vm_compute; reflexivity|vm_compute; reflexivity|exact Hs].
  - vm_compute. lia.
Defined.
