(* ===== verification/Board.v ===== *)
(** * The leaderboard tables and their projection

    internal/leaderboard/pgstore and its queries: which runs may hold a slot
    ([leaderboard_eligible_runs], db/migrations 00006 to 00019), the statement that
    sets one (board, player) cell to the player's best eligible run, the hook the
    verdict's transaction calls for every decision, and the offline rebuild.

    PostgreSQL is a parameter where its own behaviour matters: the order of uuids
    ([UuidOrder]) and the text of a json container. *)

From Stdlib Require Import Strings.Ascii.
From S2P Require Import Prelude GoStd Json Uuid Keyset Bucket Runs Policy Core Decide RunStore.

Open Scope Z_scope.

(** [->>] on an array or an object gives its text. *)
Class JsonText := { container_text : json -> string }.

Module Pg.
(** [->]: NULL on anything that is not an object with that member. *)
Definition arrow (k : string) (j : option json) : option json := j ≫= js_get k.

(** [->>]: NULL for a missing member and for json's [null]. *)
Definition text `{JsonText} (j : option json) : option string :=
  match j with
  | None | Some JNull => None
  | Some (JStr s) => Some s
  | Some (JBool b) => Some (if b then "true" else "false")
  | Some (JNum lit) => Some lit
  | Some j => Some (container_text j)
  end.

(** [jsonb_typeof(j) = 'number']. *)
Definition number (j : option json) : option string :=
  match j with Some (JNum lit) => Some lit | _ => None end.

(** A number's exact value, as digits and a power of ten. *)
Definition numeric (lit : string) : option (Z * Z) :=
  let '(neg, body) := match lit with String "-" s => (true, s) | _ => (false, lit) end in
  let '(mant, ex) := Json.split_at_char (fun c => Ascii.eqb c "e" || Ascii.eqb c "E") body in
  let '(ip, fp) := Json.split_at_char (fun c => Ascii.eqb c ".") mant in
  let fp := default EmptyString fp in
  match Strconv.parse_digits (ip +:+ fp) 0,
        match ex with None => Some 0 | Some e => Json.parse_exp e end with
  | Some m, Some e => Some (if neg then - m else m, e - slen fp)
  | _, _ => None
  end.

(** [(j ->> 'x')::bigint]: the text of a number with decimals is not a bigint's, and one
    out of range is refused; [None] raises. *)
Definition bigint (lit : string) : option Z :=
  match numeric lit with
  | Some (m, e) =>
    if 0 <=? e then
      let z := m * 10 ^ e in if (- 2 ^ 63 <=? z) && (z <? 2 ^ 63) then Some z else None
    else None
  | None => None
  end.

(** [x >= m * 10^e] on numerics. *)
Definition numeric_ge (lit : string) (m e : Z) : bool :=
  match numeric lit with
  | Some (n, d) => if e <=? d then m <=? n * 10 ^ (d - e) else m * 10 ^ (e - d) <=? n
  | None => false
  end.
End Pg.

(** ** What the schema reads off a setup document *)

Section schema.
Context `{Uuid} `{JsonText}.

Definition hex_char (c : ascii) : bool := match nibble c with Some _ => true | None => false end.

(** The regular expression that guards the casts to uuid. *)
Definition uuid_shape (s : string) : bool :=
  match Strs.Split "-" s with
  | [a; b; c; d; e] =>
    forallb (Strs.str_forallb hex_char) [a; b; c; d; e]
    && bool_decide (String.length <$> [a; b; c; d; e] = [8; 4; 4; 4; 12]%nat)
  | _ => false
  end.

Definition uuid_cast (s : option string) : option UUID :=
  match s with
  | Some s => if uuid_shape s then uuid_Parse s else None
  | None => None
  end.

Definition textSource (setup : json) : option json :=
  Pg.arrow "textSource" (Pg.arrow "generation" (Some setup)).

Definition run_text_source_kind (setup : json) : string :=
  default "seeded" (Pg.text (Pg.arrow "kind" (textSource setup))).

Definition run_quote_id (setup : json) : option UUID :=
  if bool_decide (Pg.text (Pg.arrow "kind" (textSource setup)) = Some "quote")
  then uuid_cast (Pg.text (Pg.arrow "quoteId" (textSource setup))) else None.

Definition run_adopted_from (setup : json) : option UUID :=
  uuid_cast (Pg.text (Pg.arrow "adoptedFromRunId" (Some setup))).

Definition run_mods (setup : json) : json :=
  let part p k (d : json) := (k, default d (Pg.arrow k (Pg.arrow p (Some setup)))) in
  JObj [part "generation" "punctuation" (JBool false); part "generation" "numbers" (JBool false);
        part "generation" "randomCase" (JBool false); part "generation" "reverse" (JBool false);
        part "config" "nospace" (JBool false); part "config" "difficulty" (JStr "normal");
        part "config" "minWpm" (JNum "0"); part "declaration" "blind" (JBool false);
        part "declaration" "fading" (JBool false); part "declaration" "flashlight" (JBool false)].

Definition run_grade (acc : string) : string :=
  if Pg.numeric_ge acc 1 0 then "SS"
  else if Pg.numeric_ge acc 98 (-2) then "S"
  else if Pg.numeric_ge acc 95 (-2) then "A"
  else if Pg.numeric_ge acc 9 (-1) then "B"
  else "C".
End schema.

(** ** The ranking order

    Score first, then who got there first, then the smaller id. *)
Record position := { ps_Score : Z; ps_At : Z; ps_ID : Z }.

#[export] Instance position_eq : EqDecision position.
Proof. solve_decision. Defined.

Definition outranks (p q : position) : bool :=
  (ps_Score q <? ps_Score p)
  || ((ps_Score p =? ps_Score q)
      && ((ps_At p <? ps_At q) || ((ps_At p =? ps_At q) && (ps_ID p <? ps_ID q)))).

#[export] Instance outranks_total : StrictTotal outranks.
Proof.
  constructor.
  - intros [s a i]. unfold outranks. cbn. lia.
  - intros [s a i] [s' a' i'] [s'' a'' i'']. unfold outranks. cbn. lia.
  - intros [s a i] [s' a' i'] Hne. unfold outranks. cbn.
    assert (s <> s' \/ a <> a' \/ i <> i') by (destruct (decide (s = s')), (decide (a = a')), (decide (i = i')); naive_solver).
    lia.
Qed.

(** ** Eligible runs *)

Section board.
Context `{Uuid} `{GameCore} `{!UuidOrder} `{JsonText}.

(** The coordinates of a cell: who, and which board. *)
Record cell := {
  cl_userID : UUID; cl_quoteID : option UUID; cl_mode : string;
  cl_durationMs : option Z; cl_wordCount : option Z; cl_lang : string; cl_textSourceKind : string }.

#[export] Instance cell_eq : EqDecision cell.
Proof. solve_decision. Defined.

Record eligible := {
  el_RunID : UUID; el_cell : cell; el_Score : Z; el_WPM : string; el_Raw : string; el_Acc : string;
  el_Mods : json; el_AchievedAt : Z }.

(** The tables a board is made from, besides the runs. *)
Record site := {
  st_quotes : gmap UUID string;
  st_verified : gset UUID;
  st_requireVerifiedEmail : bool }.

(** [RunBucketCell] on one row: the coordinates, whatever the run's status. *)
Definition RunBucketCell (st : site) (r : runRow) : cell :=
  let p := rr_Params r in
  {| cl_userID := cp_UserID p;
     cl_quoteID := match run_quote_id (cp_Setup p) with
                   | Some q => if decide (is_Some (st_quotes st !! q)) then Some q else None
                   | None => None
                   end;
     cl_mode := cp_Mode p; cl_durationMs := cp_DurationMs p; cl_wordCount := cp_WordCount p;
     cl_lang := cp_Lang p; cl_textSourceKind := run_text_source_kind (cp_Setup p) |}.

Definition rankedShape (c : cell) : bool :=
  (cl_textSourceKind c =s? "seeded")
  && (((cl_mode c =s? "time") && match cl_durationMs c with Some d => contains [15000; 30000; 60000] d
                                 | None => false end)
      || ((cl_mode c =s? "words") && match cl_wordCount c with Some n => contains [25; 50; 100] n
                                     | None => false end)).

(** A row of the view: not there, there, or there with a score the cast refuses. *)
Inductive viewRow := NoRow | Row (e : eligible) | CastError (c : cell).

Definition eligibleRun (st : site) (tb : tables) (id : UUID) : viewRow :=
  match tb_runs tb !! id, tb_verdicts tb !! id with
  | Some r, Some v =>
    let c := RunBucketCell st r in
    if (rr_Status r =s? Runstatus.Accepted)
       && bool_decide (run_adopted_from (cp_Setup (rr_Params r)) = None)
       && (match cl_quoteID c with Some _ => true | None => rankedShape c end)
    then
      match Pg.number (Pg.arrow "total" (vr_ServerScore v)), Pg.number (Pg.arrow "wpm" (vr_ServerMetrics v)),
            Pg.number (Pg.arrow "raw" (vr_ServerMetrics v)),
            Pg.number (Pg.arrow "accuracy" (vr_ServerMetrics v)) with
      | Some total, Some wpm, Some raw, Some acc =>
        match Pg.bigint total with
        | None => CastError c
        | Some score =>
          Row {| el_RunID := id; el_cell := c; el_Score := score; el_WPM := wpm; el_Raw := raw;
                 el_Acc := acc; el_Mods := run_mods (cp_Setup (rr_Params r));
                 el_AchievedAt := rr_CreatedAt r |}
        end
      | _, _, _, _ => NoRow
      end
    else NoRow
  | _, _ => NoRow
  end.

(** The economic barrier: off, or the player has a verified address. *)
Definition gate (st : site) (user : UUID) : bool :=
  negb (st_requireVerifiedEmail st) || bool_decide (user ∈ st_verified st).

(** ** Recomputing one cell *)

Definition dimensionsMatch (c e : cell) : bool :=
  (cl_mode e =s? cl_mode c) && bool_decide (cl_durationMs e = cl_durationMs c)
  && bool_decide (cl_wordCount e = cl_wordCount c) && (cl_lang e =s? cl_lang c)
  && (cl_textSourceKind e =s? cl_textSourceKind c).

Definition inCell (c e : cell) : bool :=
  bool_decide (cl_userID e = cl_userID c) && bool_decide (cl_quoteID e = cl_quoteID c)
  && (match cl_quoteID e with Some _ => true | None => dimensionsMatch c e end).

Definition positionOf (e : eligible) : position :=
  {| ps_Score := el_Score e; ps_At := el_AchievedAt e; ps_ID := uuid_key (el_RunID e) |}.

Definition viewRows (st : site) (tb : tables) : list viewRow :=
  eligibleRun st tb <$> (map_to_list (tb_runs tb)).*1.

Definition castFails (c : cell) (row : viewRow) : bool :=
  match row with CastError e => inCell c e | _ => false end.

Definition candidates (c : cell) (rows : list viewRow) : list eligible :=
  omap (fun row => match row with Row e => if inCell c (el_cell e) then Some e else None | _ => None end) rows.

(** The CTE [best]; [None] when a cast raises. *)
Definition best (st : site) (tb : tables) (c : cell) : option (option eligible) :=
  if gate st (cl_userID c) then
    let rows := viewRows st tb in
    if existsb (castFails c) rows then None
    else Some (head (order_by positionOf outranks (candidates c rows)))
  else Some None.

Record entryRow := {
  er_RunID : UUID; er_Score : Z; er_WPM : string; er_Raw : string; er_Acc : string; er_Grade : string;
  er_Mods : json; er_AchievedAt : Z; er_QuoteSource : option string }.

Abbreviation entries := (gmap (string * UUID) entryRow).

Definition entryOf (st : site) (e : eligible) : entryRow :=
  {| er_RunID := el_RunID e; er_Score := el_Score e; er_WPM := el_WPM e; er_Raw := el_Raw e;
     er_Acc := el_Acc e; er_Grade := run_grade (el_Acc e); er_Mods := el_Mods e;
     er_AchievedAt := el_AchievedAt e;
     er_QuoteSource := match cl_quoteID (el_cell e) with Some q => st_quotes st !! q | None => None end |}.

(** [leaderboard_entries_score_packable]. *)
Definition packable (score : Z) : bool := (0 <=? score) && (score <? 16777216).

(** [leaderboard_entries_run_idx]: a run holds one slot. *)
Definition runTaken (slot : string * UUID) (run : UUID) (es : entries) : bool :=
  existsb (fun kv => negb (bool_decide (kv.1 = slot)) && bool_decide (er_RunID kv.2 = run)) (map_to_list es).

Definition RecomputeLeaderboardCell (st : site) (tb : tables) (key : string) (c : cell) (es : entries)
    : option entries :=
  let slot := (key, cl_userID c) in
  match best st tb c with
  | None => None
  | Some None => Some (delete slot es)
  | Some (Some b) =>
    if negb (packable (el_Score b)) then None
    else if bool_decide (er_RunID <$> es !! slot = Some (el_RunID b)) then Some es
    else if runTaken slot (el_RunID b) es then None
    else Some (<[slot := entryOf st b]> es)
  end.

Definition bucketOf (c : cell) : Bucket + bucketError :=
  match cl_quoteID c with
  | Some q => NewQuoteBucket q
  | None => NewBucket (cl_mode c) (cl_durationMs c) (cl_wordCount c) (cl_lang c) (cl_textSourceKind c)
  end.

Definition ProjectRun (st : site) (tb : tables) (id : UUID) (es : entries) : option entries :=
  match tb_runs tb !! id with
  | None => Some es
  | Some r =>
    let c := RunBucketCell st r in
    match bucketOf c with
    | inr _ => Some es
    | inl bucket => RecomputeLeaderboardCell st tb (Key bucket) c es
    end
  end.

(** ** The offline rebuild *)

Record RebuildStats := { rs_Before : Z; rs_After : Z; rs_Cells : Z }.

(** [EnumerateLeaderboardCells]: the score is not selected, so it is not cast. *)
Definition EnumerateLeaderboardCells (st : site) (tb : tables) : list cell :=
  remove_dups (filter (fun c => gate st (cl_userID c) = true)
    (omap (fun row => match row with Row e => Some (el_cell e) | CastError c => Some c | NoRow => None end)
       (viewRows st tb))).

Definition slotOf (bucket : Bucket) (c : cell) : string := Key bucket +:+ "|" +:+ uuid_String (cl_userID c).

Fixpoint rebuildCells (st : site) (tb : tables) (cells : list cell) (seen : gset string) (es : entries)
    : option (entries * gset string) :=
  match cells with
  | [] => Some (es, seen)
  | c :: cells =>
    match bucketOf c with
    | inr _ => None
    | inl bucket =>
      if bool_decide (slotOf bucket c ∈ seen) then rebuildCells st tb cells seen es
      else match RecomputeLeaderboardCell st tb (Key bucket) c es with
           | None => None
           | Some es => rebuildCells st tb cells ({[slotOf bucket c]} ∪ seen) es
           end
    end
  end.

Definition Rebuild (st : site) (tb : tables) (es : entries) : option (entries * RebuildStats) :=
  match rebuildCells st tb (EnumerateLeaderboardCells st tb) ∅ ∅ with
  | None => None
  | Some (es', seen) =>
    Some (es', {| rs_Before := Z.of_nat (size es); rs_After := Z.of_nat (size es');
                  rs_Cells := Z.of_nat (size seen) |})
  end.

(** ** What a board should show *)

(** The eligible runs of a player on a board, whatever the coordinates they carry. *)
Definition on_board (key : string) (user : UUID) (e : eligible) : bool :=
  bool_decide (cl_userID (el_cell e) = user)
  && match bucketOf (el_cell e) with inl bucket => Key bucket =s? key | inr _ => false end.

Definition eligibles (st : site) (tb : tables) : list eligible :=
  omap (fun row => match row with Row e => Some e | _ => None end) (viewRows st tb).

Definition champion (st : site) (tb : tables) (key : string) (user : UUID) : option eligible :=
  if gate st user
  then head (order_by positionOf outranks (filter (fun e => on_board key user e = true) (eligibles st tb)))
  else None.

(** Every slot is held by the champion of its board and player, and every champion
    holds his slot. *)
Definition board_ok (st : site) (tb : tables) (es : entries) : Prop :=
  forall key user, er_RunID <$> es !! (key, user) = el_RunID <$> champion st tb key user.

(** ** The board as the projection of the verdict's transaction

    The quotes and the verified addresses are taken as they are: changing them
    re-projects nothing (the code asks for a rebuild). *)
Definition ForgetUser (u : UUID) (tb : tables) (es : entries) : entries :=
  filter (fun kv => negb (bool_decide (kv.1.2 = u))
    && match tb_runs tb !! er_RunID kv.2 with
       | Some r => negb (bool_decide (cp_UserID (rr_Params r) = u))
       | None => true
       end = true) es.

Definition boardProjection (st : site) : Projection :=
  {| Proj := entries; RunStore.ProjectRun := Some (ProjectRun st); ProjectKeyboard := None;
     RunStore.ForgetUser := ForgetUser |}.
End board.
