(* ===== verification/BoardProps.v ===== *)
(** * The board is what the runs say it is

    Each recompute gives the slot to the champion of its board and player; kept up by
    the verdict's transaction, by overrides and by account deletion, the table is at
    every moment the projection of the accepted runs, and a rebuild finds the same. *)

From Stdlib Require Import Sorting.Sorted Strings.Ascii.
From S2P Require Import Prelude GoStd Json Uuid Keyset Bucket Runs Policy Core Registry Decide Worker RunStore RunLife RunProps Board.

Open Scope Z_scope.

Section champions.
Context `{Uuid} `{GameCore} `{!UuidOrder} `{JsonText}.

(** ** The view *)

(** A run carries one size at most. *)
Definition rows_ok (tb : tables) : Prop :=
  forall id r, tb_runs tb !! id = Some r ->
    cp_DurationMs (rr_Params r) = None \/ cp_WordCount (rr_Params r) = None.

Definition viewed (st : site) (tb : tables) (e : eligible) : Prop :=
  eligibleRun st tb (el_RunID e) = Row e.

Lemma eligibleRun_spec st tb id e :
  eligibleRun st tb id = Row e ->
  el_RunID e = id /\ exists r, tb_runs tb !! id = Some r /\ rr_Status r = Runstatus.Accepted
    /\ el_cell e = RunBucketCell st r /\ el_AchievedAt e = rr_CreatedAt r.
Proof.
  unfold eligibleRun. destruct (tb_runs tb !! id) as [r|]; [|done]. destruct (tb_verdicts tb !! id); [|done].
  destruct (_ && _) eqn:Hc; [|done]. apply andb_true_iff in Hc as [[Hc _]%andb_true_iff _].
  apply String.eqb_eq in Hc. repeat (case_match; try done).
  intros [= <-]. cbn. split; [done|]. by exists r.
Qed.

Lemma eligibles_elem st tb e : e ∈ eligibles st tb <-> viewed st tb e.
Proof.
  unfold eligibles, viewRows, viewed. rewrite list_elem_of_omap. split.
  - intros (row & (id & -> & _)%list_elem_of_fmap & Hr). destruct (eligibleRun st tb id) as [|e'|] eqn:E; try done.
    injection Hr as ->. by destruct (eligibleRun_spec _ _ _ _ E) as [-> _].
  - intros Hv. exists (Row e). split; [|done]. rewrite <- Hv. apply list_elem_of_fmap_2.
    destruct (eligibleRun_spec _ _ _ _ Hv) as (_ & r & Hr & _).
    apply list_elem_of_fmap. exists (el_RunID e, r). split; [done|]. by apply elem_of_map_to_list.
Qed.

Lemma eligibles_positions st tb : NoDup (positionOf <$> eligibles st tb).
Proof.
  assert (forall ids, NoDup ids ->
    NoDup (positionOf <$> omap (fun row => match row with Row e => Some e | _ => None end)
             (eligibleRun st tb <$> ids))
    /\ forall e, e ∈ omap (fun row => match row with Row e => Some e | _ => None end)
             (eligibleRun st tb <$> ids) -> el_RunID e ∈ ids) as Hall.
  { induction ids as [|id ids IH]; [split; [constructor|by intros e ?%elem_of_nil]|].
    intros [Hid Hn]%NoDup_cons. destruct (IH Hn) as [Hp He]. cbn.
    destruct (eligibleRun st tb id) as [|e|] eqn:E; cbn.
    - split; [done|]. intros e Hin. right. by apply He.
    - destruct (eligibleRun_spec _ _ _ _ E) as [Hi _]. split.
      + constructor; [|done]. intros (e' & Eq & Hin)%list_elem_of_fmap. apply He in Hin.
        injection Eq as _ _ Eq. apply (inj uuid_key) in Eq. congruence.
      + intros e' [->|Hin]%elem_of_cons; [rewrite Hi; left|right; by apply He].
    - split; [done|]. intros e Hin. right. by apply He. }
  apply (Hall _). apply NoDup_fst_map_to_list.
Qed.

(** ** The best of a list *)

Definition best_of (p : eligible -> Prop) (e : eligible) (l : list eligible) : Prop :=
  e ∈ l /\ p e /\ forall e', e' ∈ l -> p e' -> e' = e \/ before positionOf outranks e e'.

Lemma head_best (p : eligible -> Prop) `{!forall e, base.Decision (p e)} l e :
  NoDup (positionOf <$> l) ->
  head (order_by positionOf outranks (filter p l)) = Some e <-> best_of p e l.
Proof.
  intros Hn. pose proof (NoDup_filter_pos positionOf p l Hn) as Hnf.
  pose proof (order_by_sorted positionOf outranks _ Hnf) as Hs.
  assert (forall x, x ∈ order_by positionOf outranks (filter p l) <-> p x /\ x ∈ l) as Hin.
  { intros x. rewrite order_by_perm. apply list_elem_of_filter. }
  destruct (order_by positionOf outranks (filter p l)) as [|x rest] eqn:Eo; cbn.
  - split; [done|]. intros (He & Hp & _). assert (e ∈ ([] : list eligible)) by (apply Hin; done). set_solver.
  - apply StronglySorted_inv in Hs as [_ Hx]. rewrite Forall_forall in Hx.
    destruct (proj1 (Hin x) ltac:(left)) as [Hpx Hxl]. split.
    + intros [= <-]. split_and!; [done|done|]. intros e' He' Hp'.
      assert (e' ∈ x :: rest) as [->|Hr]%elem_of_cons by (by apply Hin); [by left|right; by apply Hx].
    + intros (He & Hp & Hb). f_equal. destruct (Hb x Hxl Hpx) as [->|Hlt]; [done|].
      assert (e ∈ x :: rest) as [->|Hr]%elem_of_cons by (by apply Hin); [done|].
      specialize (Hx _ Hr). unfold before in *. apply lt_asym in Hlt; [|apply _]. congruence.
Qed.

Lemma champion_spec st tb key user e :
  champion st tb key user = Some e <->
  gate st user = true /\ best_of (fun e => on_board key user e = true) e (eligibles st tb).
Proof.
  unfold champion. destruct (gate st user).
  - rewrite head_best by apply eligibles_positions. naive_solver.
  - split; [done|by intros [? _]].
Qed.

(** Two tables with the same view of a board have the same champion there. *)
Lemma champion_ext st tb tb' key user :
  (forall e, on_board key user e = true -> viewed st tb e <-> viewed st tb' e) ->
  champion st tb key user = champion st tb' key user.
Proof.
  intros Hv. apply option_eq. intros e. rewrite !champion_spec. unfold best_of.
  setoid_rewrite eligibles_elem. naive_solver.
Qed.

(** ** A cell is a player on a board *)

Lemma bucket_language c b :
  bucketOf c = inl b -> cl_quoteID c = None ->
  IsQuote b = false /\ Mode b = cl_mode c /\ Lang b = cl_lang c /\ TextSource b = cl_textSourceKind c
  /\ newDimension (cl_mode c) (cl_durationMs c) (cl_wordCount c) = Some (Dimension b).
Proof.
  unfold bucketOf. intros Hb Hq. rewrite Hq in Hb. unfold NewBucket in Hb.
  destruct (newDimension _ _ _) as [d|]; [|done]. apply checked_inl in Hb as [-> Hb]. cbn.
  split_and!; try done. unfold IsQuote. cbn. by rewrite bool_decide_eq_true_2.
Qed.

Lemma bucket_quote c b q :
  bucketOf c = inl b -> cl_quoteID c = Some q -> IsQuote b = true /\ QuoteID b = q.
Proof.
  unfold bucketOf. intros Hb Hq. rewrite Hq in Hb. apply checked_inl in Hb as [-> Hb].
  inversion Hb as [id Hid|? ? ? ? Hr]; subst.
  - split; [|done]. unfold IsQuote. cbn. by rewrite bool_decide_eq_false_2.
  - apply ranked_cases in Hr as [[E _]|[E _]]; discriminate E.
Qed.

Lemma bucketOf_board c b : bucketOf c = inl b -> board b.
Proof.
  unfold bucketOf, NewQuoteBucket, NewBucket. destruct (cl_quoteID c).
  - by intros [-> ?]%checked_inl.
  - destruct (newDimension _ _ _); [|done]. by intros [-> ?]%checked_inl.
Qed.

Definition one_size (c : cell) : Prop := cl_durationMs c = None \/ cl_wordCount c = None.

(** The one size that counts is the one the mode names, and there is no other. *)
Lemma dimension_sizes mode dur words dur' words' d :
  newDimension mode dur words = Some d -> newDimension mode dur' words' = Some d ->
  dur = None \/ words = None -> dur' = None \/ words' = None -> dur' = dur /\ words' = words.
Proof.
  unfold newDimension. destruct (String.eqb_spec mode ModeTime) as [->|Ht].
  - destruct dur, dur'; cbn; try done. naive_solver.
  - destruct (mode =s? ModeWords); destruct dur, dur'; naive_solver.
Qed.

Lemma inCell_board `{!UuidLaws} c b e :
  bucketOf c = inl b -> one_size c -> one_size (el_cell e) ->
  inCell c (el_cell e) = true <-> on_board (Key b) (cl_userID c) e = true.
Proof.
  intros Hb Hc He. unfold inCell, on_board, dimensionsMatch. split.
  - intros [[Hu Hq]%andb_true_iff Hd]%andb_true_iff. bool_to_prop.
    rewrite bool_decide_eq_true_2 by done. cbn [andb].
    assert (bucketOf (el_cell e) = inl b) as ->; [|by apply String.eqb_refl].
    rewrite <- Hb. unfold bucketOf. rewrite Hq. destruct (cl_quoteID c) as [q|] eqn:Eq; [done|].
    rewrite Hq in Hd. bool_to_prop. congruence.
  - intros [Hu Hk]%andb_true_iff. bool_to_prop. destruct (bucketOf (el_cell e)) as [b'|] eqn:Eb'; [|done].
    bool_to_prop. assert (b' = b) as ->.
    { pose proof (parse_Key b (bucketOf_board _ _ Hb)) as E1.
      pose proof (parse_Key b' (bucketOf_board _ _ Eb')) as E2. rewrite Hk in E2. congruence. }
    rewrite bool_decide_eq_true_2 by done. cbn [andb]. apply andb_true_iff.
    destruct (cl_quoteID c) as [q|] eqn:Eq, (cl_quoteID (el_cell e)) as [q'|] eqn:Eq'.
    + destruct (bucket_quote _ _ _ Hb Eq), (bucket_quote _ _ _ Eb' Eq').
      rewrite bool_decide_eq_true_2 by congruence. done.
    + destruct (bucket_quote _ _ _ Hb Eq), (bucket_language _ _ Eb' Eq') as (? & _). congruence.
    + destruct (bucket_quote _ _ _ Eb' Eq'), (bucket_language _ _ Hb Eq) as (? & _). congruence.
    + destruct (bucket_language _ _ Hb Eq) as (_ & Hm & Hl & Hs & Hd).
      destruct (bucket_language _ _ Eb' Eq') as (_ & Hm' & Hl' & Hs' & Hd').
      rewrite <- Hm in Hd. rewrite <- Hm' in Hd'.
      destruct (dimension_sizes _ _ _ _ _ _ Hd Hd' Hc He) as [-> ->].
      rewrite <- Hm, <- Hl, <- Hs, <- Hm', <- Hl', <- Hs', !String.eqb_refl.
      by rewrite !bool_decide_eq_true_2.
Qed.

Lemma candidates_filter c rows :
  candidates c rows
  = filter (fun e => inCell c (el_cell e) = true) (omap (fun row => match row with Row e => Some e | _ => None end) rows).
Proof.
  unfold candidates. induction rows as [|[|e|] rows IH]; cbn [omap list_omap]; [done|done| |done].
  rewrite filter_cons, IH. destruct (inCell c (el_cell e)); [by rewrite decide_True|by rewrite decide_False].
Qed.

Lemma RunBucketCell_size st tb id r :
  rows_ok tb -> tb_runs tb !! id = Some r -> one_size (RunBucketCell st r).
Proof. intros Hr Hid. exact (Hr id r Hid). Qed.

Lemma viewed_size st tb e : rows_ok tb -> viewed st tb e -> one_size (el_cell e).
Proof.
  intros Hr Hv. destruct (eligibleRun_spec _ _ _ _ Hv) as (_ & r & Hid & _ & -> & _).
  by eapply RunBucketCell_size.
Qed.

(** What the statement's CTE finds is the champion. *)
Lemma best_champion `{!UuidLaws} st tb c b x :
  rows_ok tb -> one_size c -> bucketOf c = inl b -> best st tb c = Some x ->
  x = champion st tb (Key b) (cl_userID c).
Proof.
  intros Hr Hc Hb. unfold best, champion. destruct (gate _ _); [|by intros [= <-]].
  destruct (existsb _ _); [done|]. intros [= <-]. rewrite candidates_filter. fold (eligibles st tb).
  apply option_eq. intros e. rewrite !head_best by apply eligibles_positions. unfold best_of.
  assert (forall e', e' ∈ eligibles st tb ->
    inCell c (el_cell e') = true <-> on_board (Key b) (cl_userID c) e' = true) as Hiff.
  { intros e' He'%eligibles_elem. apply inCell_board; [done|done|by eapply viewed_size]. }
  naive_solver.
Qed.

(** ** Recompute *)

Lemma recompute_slot `{!UuidLaws} st tb c b es es' :
  rows_ok tb -> one_size c -> bucketOf c = inl b ->
  RecomputeLeaderboardCell st tb (Key b) c es = Some es' ->
  er_RunID <$> es' !! (Key b, cl_userID c) = el_RunID <$> champion st tb (Key b) (cl_userID c)
  /\ forall slot, slot <> (Key b, cl_userID c) -> es' !! slot = es !! slot.
Proof.
  intros Hr Hc Hb. unfold RecomputeLeaderboardCell. destruct (best st tb c) as [x|] eqn:Ex; [|done].
  rewrite <- (best_champion _ _ _ _ _ Hr Hc Hb Ex). destruct x as [e|].
  - destruct (negb _); [done|]. case_bool_decide as Heq.
    { intros [= <-]. by rewrite Heq. }
    destruct (runTaken _ _ _); [done|]. intros [= <-]. rewrite lookup_insert_eq. split; [done|].
    intros slot Hne. by rewrite lookup_insert_ne.
  - intros [= <-]. rewrite lookup_delete_eq. split; [done|]. intros slot Hne. by rewrite lookup_delete_ne.
Qed.

(** ** Steps over the tables *)

Lemma viewed_same st tb tb' e :
  tb_runs tb' !! el_RunID e = tb_runs tb !! el_RunID e ->
  tb_verdicts tb' !! el_RunID e = tb_verdicts tb !! el_RunID e ->
  viewed st tb e <-> viewed st tb' e.
Proof. unfold viewed, eligibleRun. by intros -> ->. Qed.

(** A run's row is on the board its cell names, and on no other. *)
Lemma on_board_cell key user st r e :
  el_cell e = RunBucketCell st r -> on_board key user e = true ->
  exists b, bucketOf (RunBucketCell st r) = inl b /\ key = Key b /\ user = cl_userID (RunBucketCell st r).
Proof.
  intros Hc. unfold on_board. rewrite Hc. intros [Hu Hk]%andb_true_iff.
  destruct (bucketOf (RunBucketCell st r)) as [b|]; [|done]. exists b. bool_to_prop. done.
Qed.

(** Tables that differ at one run, whose submission is the same. *)
Record judged_at (id : UUID) (tb tb' : tables) : Prop := {
  ja_run r' : tb_runs tb' !! id = Some r' -> exists r, tb_runs tb !! id = Some r /\ rr_Params r' = rr_Params r;
  ja_kept r : tb_runs tb !! id = Some r -> is_Some (tb_runs tb' !! id);
  ja_others id' : id' <> id ->
    tb_runs tb' !! id' = tb_runs tb !! id' /\ tb_verdicts tb' !! id' = tb_verdicts tb !! id' }.

Lemma judged_rows_ok id tb tb' : judged_at id tb tb' -> rows_ok tb -> rows_ok tb'.
Proof.
  intros [Hr _ Ho] Hok id' r' Hr'. destruct (decide (id' = id)) as [->|Hne].
  - destruct (Hr _ Hr') as (r & Er & ->). by eapply Hok.
  - destruct (Ho _ Hne) as [E _]. rewrite E in Hr'. by eapply Hok.
Qed.

Lemma judged_champion st id tb tb' key user r :
  judged_at id tb tb' -> tb_runs tb' !! id = Some r ->
  (forall b, bucketOf (RunBucketCell st r) = inl b -> (key, user) <> (Key b, cl_userID (RunBucketCell st r))) ->
  champion st tb key user = champion st tb' key user.
Proof.
  intros [Hr _ Ho] Hid Hslot. apply champion_ext. intros e Hb.
  destruct (decide (el_RunID e = id)) as [Hi|Hne].
  - destruct (Hr _ Hid) as (r0 & Hid0 & Ep).
    assert (RunBucketCell st r0 = RunBucketCell st r) as Ec by (unfold RunBucketCell; by rewrite Ep).
    split; intros Hv; exfalso; destruct (eligibleRun_spec _ _ _ _ Hv) as (_ & r1 & Hr1 & _ & Hc & _);
      rewrite Hi in Hr1.
    + assert (r1 = r0) as -> by congruence. rewrite Ec in Hc.
      destruct (on_board_cell _ _ _ _ _ Hc Hb) as (b & E & -> & ->). by eapply Hslot.
    + assert (r1 = r) as -> by congruence.
      destruct (on_board_cell _ _ _ _ _ Hc Hb) as (b & E & -> & ->). by eapply Hslot.
  - destruct (Ho _ Hne). by apply viewed_same.
Qed.

Lemma project_board `{!UuidLaws} st id tb tb' es es' :
  judged_at id tb tb' -> rows_ok tb -> board_ok st tb es ->
  Board.ProjectRun st tb' id es = Some es' -> board_ok st tb' es'.
Proof.
  intros Hj Hr Hb Hp. pose proof (judged_rows_ok _ _ _ Hj Hr) as Hr'.
  unfold Board.ProjectRun in Hp. destruct (tb_runs tb' !! id) as [r|] eqn:Er.
  2:{ injection Hp as <-. intros key user. rewrite (Hb key user). f_equal. apply champion_ext.
      intros e _. destruct (decide (el_RunID e = id)) as [Hi|Hne].
      - assert (tb_runs tb !! id = None) as Er0.
        { destruct (tb_runs tb !! id) eqn:E; [|done]. destruct (ja_kept _ _ _ Hj _ E). congruence. }
        unfold viewed, eligibleRun. by rewrite Hi, Er, Er0.
      - destruct (ja_others _ _ _ Hj _ Hne). by apply viewed_same. }
  destruct (bucketOf (RunBucketCell st r)) as [b|] eqn:Eb.
  - destruct (recompute_slot _ _ _ _ _ _ Hr' (RunBucketCell_size _ _ _ _ Hr' Er) Eb Hp) as [Hs Ho].
    intros key user. destruct (decide ((key, user) = (Key b, cl_userID (RunBucketCell st r)))) as [[= -> ->]|Hne].
    { exact Hs. }
    rewrite (Ho _ Hne), (Hb key user). f_equal. eapply judged_champion; [done|done|].
    intros b' E. by assert (b' = b) as -> by congruence.
  - injection Hp as <-. intros key user. rewrite (Hb key user). f_equal.
    eapply judged_champion; [done|done|]. intros b' E. congruence.
Qed.
End champions.

(** ** The board in every reachable state *)

Section reachable.
Context `{Uuid} `{Gzip} `{GameCore} `{!UuidOrder} `{JsonText} `{!UuidLaws} (st : site).

#[local] Instance thisBoard : Projection := boardProjection st.

Definition boardIn (w : world) : Prop :=
  rows_ok (w_tables w) /\ board_ok st (w_tables w) (db_proj (w_db w)).

Lemma writeOutcome_board now id d db db' :
  writeOutcome now id d db = Some db' ->
  rows_ok (db_tables db) /\ board_ok st (db_tables db) (db_proj db) ->
  rows_ok (db_tables db') /\ board_ok st (db_tables db') (db_proj db').
Proof.
  intros Hw [Hr Hb]. pose proof (writeOutcome_tables _ _ _ _ _ Hw) as [Er _ Ho _].
  assert (judged_at id (db_tables db) (db_tables db')) as Hj.
  { constructor; [| |done].
    - intros r'. rewrite Er. intros (r & -> & ->)%fmap_Some. eauto.
    - intros r. rewrite Er. intros ->. by eexists. }
  split; [by eapply judged_rows_ok|]. unfold writeOutcome in Hw. cbn in Hw.
  destruct (Board.ProjectRun _ _ _ _) as [es'|] eqn:Ep; [|done]. cbn in Hw. injection Hw as <-.
  by eapply project_board.
Qed.

Lemma inTx_board now dec runs db db' :
  inTx now dec runs db = Some db' ->
  rows_ok (db_tables db) /\ board_ok st (db_tables db) (db_proj db) ->
  rows_ok (db_tables db') /\ board_ok st (db_tables db') (db_proj db').
Proof.
  revert db. induction runs as [|run runs IH]; intros db; cbn; [by intros [= <-]|].
  destruct (writeOutcome _ _ _ _) as [db1|] eqn:E; [|done]. intros Hi Hb.
  eapply IH; [done|]. by eapply writeOutcome_board.
Qed.

Lemma override_board id now p db db' row :
  OverrideRunStatus id now p db = inl (db', row) ->
  rows_ok (db_tables db) /\ board_ok st (db_tables db) (db_proj db) ->
  rows_ok (db_tables db') /\ board_ok st (db_tables db') (db_proj db').
Proof.
  intros Ho [Hr Hb]. unfold OverrideRunStatus in Ho.
  destruct (RunStatusForOverride _ _) as [[status ov]|]; [|done].
  destruct (status =s? _); [done|]. destruct (status =s? _); [done|].
  destruct (InsertRunStatusOverride _ _) as [tb|] eqn:Ei; [|done].
  destruct (projectRun _ _ _) as [es|] eqn:Ep; [|done]. injection Ho as <- _. cbn [db_tables db_proj].
  unfold InsertRunStatusOverride in Ei. destruct (_ && _); [|done]. injection Ei as <-. cbn [SetRunStatus setRuns tb_runs tb_verdicts tb_overrides] in *.
  match type of Ep with projectRun _ ?tb' _ = _ => assert (judged_at (op_RunID p) (db_tables db) tb') as Hj end.
  { constructor; cbn.
    - intros r'. rewrite lookup_alter_eq. intros (r & -> & ->)%fmap_Some. eauto.
    - intros r. rewrite lookup_alter_eq. intros ->. by eexists.
    - intros id' Hne. by rewrite lookup_alter_ne. }
  split; [by eapply judged_rows_ok|]. by eapply project_board.
Qed.

Lemma create_board id now user req p tb es :
  tb_runs tb !! id = None -> validateIngest user req = inl p ->
  rows_ok tb /\ board_ok st tb es ->
  rows_ok (CreateRun id now p tb) /\ board_ok st (CreateRun id now p tb) es.
Proof.
  intros Hid Hp [Hr Hb]. split.
  - intros id' r'. cbn. intros [[<- <-]|[_ Hr']]%lookup_insert_Some; [|by eapply Hr]. cbn.
    by eapply ingested_one_size.
  - intros key usr. rewrite (Hb key usr). f_equal. apply champion_ext. intros e _.
    destruct (decide (el_RunID e = id)) as [Hi|Hne].
    + unfold viewed, eligibleRun. rewrite Hi, Hid. cbn [CreateRun setRuns tb_runs tb_verdicts].
      rewrite lookup_insert_eq. split; [done|]. by destruct (tb_verdicts tb !! id).
    + apply viewed_same; [|done]. cbn. by rewrite lookup_insert_ne.
Qed.

Lemma forget_lookup u tb es key user :
  board_ok st tb es ->
  er_RunID <$> ForgetUser u tb es !! (key, user)
  = if decide (user = u) then None else er_RunID <$> es !! (key, user).
Proof.
  intros Hb. pose proof (Hb key user) as Hslot.
  destruct (Board.ForgetUser u tb es !! (key, user)) as [er|] eqn:Ef.
  - apply map_lookup_filter_Some in Ef as [Ee Hk]. cbn in Hk. bool_to_prop.
    rewrite decide_False by done. by rewrite Ee.
  - apply map_lookup_filter_None in Ef. case_decide as Hu; [done|].
    destruct (es !! (key, user)) as [er|] eqn:Ee; [|done]. exfalso.
    destruct Ef as [?|Hk]; [congruence|]. eapply Hk; [done|]. cbn.
    rewrite bool_decide_eq_false_2 by done. cbn [negb andb].
    cbn in Hslot. symmetry in Hslot. apply fmap_Some in Hslot as (e & Hc & Er).
    apply champion_spec in Hc as [_ (He & Hon & _)]. apply eligibles_elem in He.
    destruct (eligibleRun_spec _ _ _ _ He) as (_ & r & Hr & _ & Hcell & _). rewrite Er, Hr.
    destruct (on_board_cell _ _ _ _ _ Hcell Hon) as (b & _ & _ & Hu'). cbn in Hu'.
    by rewrite bool_decide_eq_false_2 by congruence.
Qed.

Lemma delete_board u tb es :
  tables_ok tb -> rows_ok tb /\ board_ok st tb es ->
  rows_ok (DeleteUser u tb) /\ board_ok st (DeleteUser u tb) (ForgetUser u tb es).
Proof.
  intros Hok [Hr Hb]. split.
  { intros id r Hid. apply map_lookup_filter_Some in Hid as [Hid _]. by eapply Hr. }
  intros key user. rewrite forget_lookup by done.
  assert (forall e, viewed st (DeleteUser u tb) e <-> viewed st tb e /\ cl_userID (el_cell e) <> u) as Hv.
  { intros e. destruct (decide (ownedBy u tb (el_RunID e))) as [(r & Hid & Hu)|Hn].
    - split.
      + intros Hv. exfalso. destruct (eligibleRun_spec _ _ _ _ Hv) as (_ & r' & Hid' & _).
        apply map_lookup_filter_Some in Hid' as [_ Hn]. apply Hn. by exists r.
      + intros [Hv Hne]. destruct (eligibleRun_spec _ _ _ _ Hv) as (_ & r' & Hid' & _ & Hc & _).
        rewrite Hc in Hne. cbn in Hne. congruence.
    - destruct (tb_runs tb !! el_RunID e) as [r0|] eqn:Er0.
      2:{ assert (tb_runs (DeleteUser u tb) !! el_RunID e = None) as Er1 by (apply map_lookup_filter_None; by left).
          unfold viewed, eligibleRun. rewrite Er0, Er1. by split; [|intros [? _]]. }
      destruct (delete_keeps u tb (el_RunID e) r0 Hok Hn Er0) as (E1 & E2 & _).
      rewrite <- (viewed_same st tb (DeleteUser u tb) e E1 E2). split; [|by intros [? _]].
      intros Hv. split; [done|]. destruct (eligibleRun_spec _ _ _ _ Hv) as (_ & r & Hid & _ & Hc & _).
      rewrite Hc. cbn. intros E. apply Hn. by exists r. }
  case_decide as Hu.
  - subst user. destruct (champion st (DeleteUser u tb) key u) as [e|] eqn:Ec; [|done]. exfalso.
    apply champion_spec in Ec as [_ (He & Hon & _)]. apply eligibles_elem, Hv in He as [_ Hne].
    unfold on_board in Hon. bool_to_prop. done.
  - rewrite (Hb key user). f_equal. apply champion_ext. intros e Hon. rewrite Hv. split; [|by intros [? _]].
    intros He. split; [done|]. unfold on_board in Hon. bool_to_prop. congruence.
Qed.

Lemma step_board w w' : step w w' -> life_ok w -> boardIn w -> boardIn w'.
Proof.
  intros Hs [Htb _] Hb.
  destruct Hs as [id now user req p Hid Hp|t j Ht|t j snap locked limit order Ht Hl Ho|t j runs now db Ht Hi|t s Ht
                 |id now p db row Hnl Ho|u Hu _]; try exact Hb.
  - by eapply create_board.
  - by eapply inTx_board.
  - by eapply override_board.
  - by apply delete_board.
Qed.

Lemma reachable_board w : reachable ∅ w -> boardIn w.
Proof.
  intros Hr. enough (life_ok w /\ boardIn w) as [_ ?] by done.
  eapply (steps_invariant step (fun w => life_ok w /\ boardIn w)); [| |exact Hr].
  - intros a b [Ha Hb] Hab. split; [by eapply life_step|by eapply step_board].
  - split; [apply fresh_ok|]. split.
    + intros id r. cbn. by intros ?%lookup_empty_Some.
    + intros key user. cbn. unfold champion, eligibles, viewRows. cbn.
      rewrite map_to_list_empty. cbn. by destruct (gate st user).
Qed.

(** The run a slot names is the player's champion. *)
Lemma slot_champion (w : world) (es : gmap (string * UUID) entryRow) key user slot :
  reachable ∅ w -> db_proj (w_db w) = es -> es !! (key, user) = Some slot ->
  exists e, viewed st (w_tables w) e /\ el_RunID e = er_RunID slot
    /\ on_board key user e = true /\ gate st user = true
    /\ forall e', viewed st (w_tables w) e' -> on_board key user e' = true ->
         e' = e \/ outranks (positionOf e) (positionOf e') = true.
Proof.
  intros [_ Hb]%reachable_board Ees Es. specialize (Hb key user). rewrite Ees, Es in Hb. cbn in Hb. symmetry in Hb.
  apply fmap_Some in Hb as (e & Hc & Hid). apply champion_spec in Hc as (Hg & He & Hon & Hbest).
  apply eligibles_elem in He. exists e. split_and!; try done. intros e' Hv Hon'.
  apply eligibles_elem in Hv. auto.
Qed.

End reachable.

(** ** The rebuild *)

Section rebuild.
Context `{Uuid} `{GameCore} `{!UuidOrder} `{JsonText} `{!UuidLaws}.

Lemma slotOf_inj b b' c c' :
  board b -> board b' -> slotOf b c = slotOf b' c' ->
  Key b = Key b' /\ cl_userID c = cl_userID c'.
Proof.
  assert (forall b, board b -> Strs.str_forallb (fun x => negb (Ascii.eqb x "|"%char)) (Key b) = true) as Hkey.
  { intros b0 Hb. unfold Key. destruct (IsQuote b0) eqn:Eq.
    - rewrite Strs.str_forallb_app. cbn [quoteKeyPrefix]. apply andb_true_iff. split; [reflexivity|].
      eapply Strs.str_forallb_impl; [|apply String_chars]. intros x Hx.
      destruct (Ascii.eqb_spec x "|"%char) as [->|]; [by vm_compute in Hx|done].
    - inversion Hb as [id Hid|mode d lang src Hr (_ & _ & Hl) (_ & _ & Hs) _]; subst; cbn.
      { unfold IsQuote in Eq. cbn in Eq. by rewrite bool_decide_eq_false_2 in Eq. }
      rewrite !Strs.str_forallb_app. rewrite !andb_true_iff.
      assert (forall v, Strs.str_forallb name_char v = true ->
        Strs.str_forallb (fun x => negb (Ascii.eqb x "|"%char)) v = true) as Hn.
      { intros v. apply Strs.str_forallb_impl. intros x Hx.
        destruct (Ascii.eqb_spec x "|"%char) as [->|]; [by vm_compute in Hx|done]. }
      split_and!; [by apply ranked_cases in Hr as [[-> _]|[-> _]]|done| |done|by apply Hn|done|by apply Hn].
      eapply Strs.str_forallb_impl; [|apply Strconv.Itoa_chars]. intros x Hx.
      destruct (Ascii.eqb_spec x "|"%char) as [->|]; [by vm_compute in Hx|done]. }
  intros Hb Hb' E. unfold slotOf in E. apply (f_equal (Strs.Split "|"%char)) in E.
  assert (forall s, "|" +:+ s = String "|" s) as Hc by done. rewrite !Hc in E.
  rewrite !Strs.Split_app in E by auto. injection E as Ek Eu. split; [done|].
  apply (f_equal (Strs.join "|"%char)) in Eu. rewrite !Strs.join_Split in Eu.
  apply (f_equal uuid_Parse) in Eu. rewrite !Parse_String in Eu. congruence.
Qed.

Definition covers (cells : list cell) (key : string) (user : UUID) : Prop :=
  exists c b, c ∈ cells /\ bucketOf c = inl b /\ key = Key b /\ user = cl_userID c.

Lemma covers_snoc cells c b key user :
  bucketOf c = inl b ->
  covers (cells ++ [c]) key user <-> covers cells key user \/ (key = Key b /\ user = cl_userID c).
Proof.
  intros Hb. unfold covers. split.
  - intros (c0 & b0 & [Hc| ->%list_elem_of_singleton]%elem_of_app & Hb0 & -> & ->); [left; eauto 6|right].
    by assert (b0 = b) as -> by congruence.
  - intros [(c0 & b0 & Hc & ?)|[-> ->]]; [exists c0, b0|exists c, b]; (split; [apply elem_of_app; set_solver|done]).
Qed.

(** What has been rebuilt: the slots of the cells walked, and nothing else. *)
Record rebuilt (st : site) (tb : tables) (done : list cell) (seen : gset string)
    (es : gmap (string * UUID) entryRow) : Prop := {
  rb_slots key user : covers done key user -> es !! (key, user) = entryOf st <$> champion st tb key user;
  rb_rest key user : ~ covers done key user -> es !! (key, user) = None;
  rb_seen s : s ∈ seen <-> exists c b, c ∈ done /\ bucketOf c = inl b /\ s = slotOf b c }.

Lemma recompute_empty st tb c b es es' :
  rows_ok tb -> one_size c -> bucketOf c = inl b -> es !! (Key b, cl_userID c) = None ->
  RecomputeLeaderboardCell st tb (Key b) c es = Some es' ->
  es' !! (Key b, cl_userID c) = entryOf st <$> champion st tb (Key b) (cl_userID c)
  /\ forall slot, slot <> (Key b, cl_userID c) -> es' !! slot = es !! slot.
Proof.
  intros Hr Hc Hb He. unfold RecomputeLeaderboardCell. destruct (best st tb c) as [x|] eqn:Ex; [|done].
  rewrite <- (best_champion _ _ _ _ _ Hr Hc Hb Ex). rewrite He. destruct x as [e|].
  - destruct (negb _); [done|]. rewrite bool_decide_eq_false_2 by done.
    destruct (runTaken _ _ _); [done|]. intros [= <-]. rewrite lookup_insert_eq. split; [done|].
    intros slot Hne. by rewrite lookup_insert_ne.
  - intros [= <-]. rewrite lookup_delete_eq. split; [done|]. intros slot Hne. by rewrite lookup_delete_ne.
Qed.

Lemma rebuildCells_spec st tb cells : forall done seen es es' seen',
  rows_ok tb -> (forall c, c ∈ cells -> one_size c) ->
  rebuilt st tb done seen es -> rebuildCells st tb cells seen es = Some (es', seen') ->
  rebuilt st tb (done ++ cells) seen' es' /\ forall c, c ∈ cells -> exists b, bucketOf c = inl b.
Proof.
  induction cells as [|c cells IH]; intros done seen es es' seen' Hr Hs Hb; cbn [rebuildCells].
  { intros [= <- <-]. rewrite app_nil_r. split; [done|]. by intros c ?%elem_of_nil. }
  destruct (bucketOf c) as [b|] eqn:Eb; [|done].
  assert (forall es1 seen1, rebuilt st tb (done ++ [c]) seen1 es1 ->
    rebuildCells st tb cells seen1 es1 = Some (es', seen') ->
    rebuilt st tb (done ++ c :: cells) seen' es' /\ forall c0, c0 ∈ c :: cells -> exists b, bucketOf c0 = inl b)
    as Hgo.
  { intros es1 seen1 Hb1 Hc1. destruct (IH _ _ _ _ _ Hr ltac:(set_solver) Hb1 Hc1) as [Hb2 Hc2].
    rewrite <- app_assoc in Hb2. split; [done|]. intros c0 [->|?]%elem_of_cons; [by exists b|auto]. }
  case_bool_decide as Hin.
  - apply Hgo. destruct Hb as [Hsl Hre Hse].
    pose proof (proj1 (Hse _) Hin) as (c0 & b0 & Hc0 & Eb0 & Es).
    destruct (slotOf_inj _ _ _ _ (bucketOf_board _ _ Eb) (bucketOf_board _ _ Eb0) Es) as [Ek Eu].
    assert (forall key user, covers (done ++ [c]) key user <-> covers done key user) as Hd.
    { intros key user. rewrite covers_snoc by done. split; [|by left].
      intros [?|[-> ->]]; [done|]. exists c0, b0. done. }
    constructor.
    + intros key user Hc%Hd. auto.
    + intros key user Hc. apply Hre. by rewrite <- Hd.
    + intros s. rewrite Hse. split.
      * intros (c1 & b1 & ? & ?). exists c1, b1. split; [apply elem_of_app; by left|done].
      * intros (c1 & b1 & [?| ->%list_elem_of_singleton]%elem_of_app & E1 & ->); [by exists c1, b1|].
        assert (b1 = b) as -> by congruence. exists c0, b0. done.
  - destruct (RecomputeLeaderboardCell _ _ _ _ _) as [es1|] eqn:Er; [|done]. apply Hgo.
    destruct Hb as [Hsl Hre Hse].
    assert (~ covers done (Key b) (cl_userID c)) as Hnew.
    { intros (c0 & b0 & Hc0 & Eb0 & Ek & Eu). apply Hin, Hse. exists c0, b0. split_and!; [done|done|].
      unfold slotOf. by rewrite Ek, Eu. }
    destruct (recompute_empty _ _ _ _ _ _ Hr (Hs c ltac:(left)) Eb (Hre _ _ Hnew) Er) as [Hc Ho].
    constructor.
    + intros key user Hd. apply (covers_snoc _ _ _ _ _ Eb) in Hd as [Hd|[-> ->]]; [|done].
      rewrite Ho; [auto|]. intros [= -> ->]. done.
    + intros key user Hd. rewrite (covers_snoc _ _ _ _ _ Eb) in Hd. rewrite Ho; [apply Hre; tauto|].
      intros [= -> ->]. tauto.
    + intros s. rewrite elem_of_union, elem_of_singleton, Hse. split.
      * intros [->|(c1 & b1 & ? & ?)]; [exists c, b|exists c1, b1]; (split; [apply elem_of_app; set_solver|done]).
      * intros (c1 & b1 & [?| ->%list_elem_of_singleton]%elem_of_app & E1 & ->); [right; by exists c1, b1|left].
        by assert (b1 = b) as -> by congruence.
Qed.

Lemma enumerate_elem st tb c :
  c ∈ EnumerateLeaderboardCells st tb <->
  gate st (cl_userID c) = true
  /\ ((exists e, viewed st tb e /\ el_cell e = c) \/ (exists id, eligibleRun st tb id = CastError c)).
Proof.
  unfold EnumerateLeaderboardCells. rewrite elem_of_remove_dups, list_elem_of_filter, list_elem_of_omap.
  unfold viewRows. split.
  - intros (Hg & row & (id & -> & _)%list_elem_of_fmap & Hrow). split; [done|].
    destruct (eligibleRun st tb id) as [|e|c0] eqn:E; [done| |].
    + injection Hrow as <-. left. exists e. split; [|done]. unfold viewed.
      by destruct (eligibleRun_spec _ _ _ _ E) as [-> _].
    + injection Hrow as ->. right. by exists id.
  - assert (forall id row, eligibleRun st tb id = row -> row <> NoRow ->
      row ∈ eligibleRun st tb <$> (map_to_list (tb_runs tb)).*1) as Hin.
    { intros id row Hrow Hne. rewrite <- Hrow. apply list_elem_of_fmap_2, list_elem_of_fmap.
      destruct (tb_runs tb !! id) as [r|] eqn:Er.
      - exists (id, r). split; [done|]. by apply elem_of_map_to_list.
      - unfold eligibleRun in Hrow. by rewrite Er in Hrow. }
    intros (Hg & [(e & Hv & <-)|(id & Hid)]); (split; [done|]).
    + exists (Row e). split; [by eapply Hin|done].
    + exists (CastError c). split; [by eapply Hin|done].
Qed.

Lemma enumerate_size st tb c : rows_ok tb -> c ∈ EnumerateLeaderboardCells st tb -> one_size c.
Proof.
  intros Hr [_ [(e & Hv & <-)|(id & Hid)]]%enumerate_elem; [by eapply viewed_size|].
  unfold eligibleRun in Hid. destruct (tb_runs tb !! id) as [r|] eqn:Er; [|done].
  destruct (tb_verdicts tb !! id); [|done]. destruct (_ && _); [|done].
  repeat case_match; try done; injection Hid as <-; by eapply RunBucketCell_size.
Qed.

(** C32: a rebuild finds what was kept up.  On tables whose board is in line (as every
    reachable one is), a rebuild that ends ends with the same run in every slot, one
    slot per cell it counts, and each row is made afresh from its run. *)
Theorem rebuild_reproduces (st : site) (tb : tables) (es es' : gmap (string * UUID) entryRow)
    (stats : RebuildStats) :
  rows_ok tb -> board_ok st tb es -> Rebuild st tb es = Some (es', stats) ->
  forall slot, er_RunID <$> es' !! slot = er_RunID <$> es !! slot
    /\ (es' !! slot = entryOf st <$> champion st tb slot.1 slot.2).
Proof.
  intros Hr Hb. unfold Rebuild. destruct (rebuildCells _ _ _ _ _) as [[es1 seen]|] eqn:E; [|done].
  intros [= <- _] [key user]. cbn [fst snd].
  assert (rebuilt st tb [] ∅ ∅) as Hnil.
  { constructor; [by intros ? ? (? & ? & ?%elem_of_nil & _)|done|].
    intros s. split; [by intros ?%not_elem_of_empty|by intros (? & ? & ?%elem_of_nil & _)]. }
  destruct (rebuildCells_spec st tb _ [] ∅ ∅ _ _ Hr (fun c => enumerate_size st tb c Hr) Hnil E)
    as [[Hs Hn _] Hall].
  cbn [app] in *.
  assert (es1 !! (key, user) = entryOf st <$> champion st tb key user) as Hslot.
  { destruct (champion st tb key user) as [e|] eqn:Ec.
    - rewrite Hs; [by rewrite Ec|]. apply champion_spec in Ec as (Hg & He & Hon & _).
      apply eligibles_elem in He. pose proof Hon as Hon'. unfold on_board in Hon'.
      apply andb_true_iff in Hon' as [Hu Hk]. destruct (bucketOf (el_cell e)) as [b|] eqn:Eb; [|done].
      bool_to_prop. exists (el_cell e), b. split_and!; try done. apply enumerate_elem. rewrite Hu.
      split; [done|]. left. by exists e.
    - destruct (es1 !! (key, user)) as [er|] eqn:Ee; [|done]. exfalso.
      assert (~ covers (EnumerateLeaderboardCells st tb) key user) as Hnc.
      { intros Hc. rewrite (Hs _ _ Hc), Ec in Ee. done. }
      by rewrite (Hn _ _ Hnc) in Ee. }
  split; [|done]. rewrite Hslot, (Hb key user). by destruct (champion st tb key user).
Qed.
End rebuild.
