(* ===== verification/BoardGaps.v ===== *)
(** * Where the board and the runs can part

    The board's own limits at concrete inputs: a language name the board cannot spell
    stops every rebuild, the language of a run is whatever the client says, numbers
    that a re-judgement changed are not shown, and a score the packing cannot hold stops
    the queue. *)

From Stdlib Require Import Strings.Ascii.
From S2P Require Import Prelude GoStd Json Uuid Keyset Bucket Runs Policy Core Registry Decide Worker RunStore RunLife RunProps RunBatches Board BoardProps.

Open Scope Z_scope.

(** ** A language no key can hold *)

Section language.
Context `{Uuid} `{GameCore} `{!UuidOrder} `{JsonText}.

Lemma rebuildCells_refused st tb cells seen es c err :
  c ∈ cells -> bucketOf c = inr err -> rebuildCells st tb cells seen es = None.
Proof.
  intros Hc He. revert seen es. induction cells as [|c' cells IH]; intros seen es; [by apply elem_of_nil in Hc|].
  cbn [rebuildCells]. apply elem_of_cons in Hc as [<-|Hc]; [by rewrite He|].
  destruct (bucketOf c'); [|done]. case_bool_decide; [by apply IH|].
  destruct (RecomputeLeaderboardCell _ _ _ _ _); [by apply IH|done].
Qed.

(** One run with an unspeakable language stops every rebuild.  The eligible view
    does not look at the characters of [lang], the bucket's constructor does: an
    accepted run of a ranked size whose language is not a key component is left out of
    the boards without a word by the verdict's transaction, and makes the rebuild fail
    whatever else is in the tables. *)
Theorem unspeakable_language_stops_rebuild (st : site) (tb : tables)
    (es : gmap (string * UUID) entryRow) (e : eligible) :
  viewed st tb e -> cl_quoteID (el_cell e) = None -> gate st (cl_userID (el_cell e)) = true ->
  ~ component_ok (cl_lang (el_cell e)) Bucket.maxLangLen ->
  Rebuild st tb es = None /\ Board.ProjectRun st tb (el_RunID e) es = Some es.
Proof.
  intros Hv Hq Hg Hl.
  assert (exists err, bucketOf (el_cell e) = inr err) as [err He].
  { destruct (bucketOf (el_cell e)) as [b|err] eqn:Eb; [|by exists err]. exfalso.
    destruct (bucket_language _ _ Eb Hq) as (Hnq & _ & El & _). apply Hl. rewrite <- El.
    pose proof (bucketOf_board _ _ Eb) as Hb. inversion Hb as [id Hid|? ? ? ? ? Hc]; subst; [|exact Hc].
    unfold IsQuote in Hnq. cbn in Hnq. by rewrite bool_decide_eq_false_2 in Hnq. }
  split.
  - unfold Rebuild. rewrite (rebuildCells_refused st tb _ ∅ ∅ (el_cell e) err); [done| |done].
    apply enumerate_elem. split; [done|]. left. by exists e.
  - destruct (eligibleRun_spec _ _ _ _ Hv) as (_ & r & Hr & _ & Hc & _).
    unfold Board.ProjectRun. rewrite Hr, <- Hc. by rewrite He.
Qed.
End language.

(** ** The language is the client's word *)

Section relabel.
Context `{Uuid} `{Gzip} `{GameCore}.

Definition relangReq (lang : string) (req : ingestRequest) : ingestRequest :=
  {| rq_Mode := rq_Mode req; rq_DurationMs := rq_DurationMs req; rq_WordCount := rq_WordCount req;
     rq_Lang := lang; rq_Seed := rq_Seed req; rq_DictHash := rq_DictHash req; rq_Setup := rq_Setup req;
     rq_Log := rq_Log req; rq_ClientMetrics := rq_ClientMetrics req; rq_ClientScore := rq_ClientScore req;
     rq_ScoreVersion := rq_ScoreVersion req; rq_RestartsSinceLastSubmit := rq_RestartsSinceLastSubmit req |}.

Definition relang (lang : string) (p : CreateRunParams) : CreateRunParams :=
  {| cp_UserID := cp_UserID p; cp_Mode := cp_Mode p; cp_DurationMs := cp_DurationMs p;
     cp_WordCount := cp_WordCount p; cp_Lang := lang; cp_Seed := cp_Seed p; cp_DictHash := cp_DictHash p;
     cp_Setup := cp_Setup p; cp_ClientMetrics := cp_ClientMetrics p; cp_ClientScore := cp_ClientScore p;
     cp_ScoreVersion := cp_ScoreVersion p; cp_Log := cp_Log p; cp_LogBytes := cp_LogBytes p;
     cp_RestartsSinceLastSubmit := cp_RestartsSinceLastSubmit p |}.

Definition withParams (p : CreateRunParams) (r : runRow) : runRow :=
  {| rr_Params := p; rr_Status := rr_Status r; rr_Attempts := rr_Attempts r;
     rr_LastError := rr_LastError r; rr_CreatedAt := rr_CreatedAt r |}.

(** The language a run is filed under is the client's word.  A submission accepted
    with one language is accepted with any other of legal length; the worker is handed
    the very same run, so the verdict is the same whatever the dictionary the hash
    addresses; and only the board differs. *)
Theorem language_is_unchecked (userID : UUID) (req : ingestRequest) (p : CreateRunParams) (lang : string) :
  validateIngest userID req = inl p -> opaque_ok lang maxLangLen ->
  validateIngest userID (relangReq lang req) = inl (relang lang p)
  /\ (forall id r, rr_Params r = p ->
        toPendingRun id (withParams (relang lang p) r) = toPendingRun id r)
  /\ (forall d lang' kind, NewBucket (cp_Mode p) (cp_DurationMs p) (cp_WordCount p) lang' kind = inl d ->
        component_ok lang Bucket.maxLangLen ->
        exists d', NewBucket (cp_Mode p) (cp_DurationMs p) (cp_WordCount p) lang kind = inl d' /\ Lang d' = lang).
Proof.
  intros Hp Hl. split_and!.
  - apply ingested in Hp as (Hok & raw & gz & Hr & Hg & ->). apply ingested. split.
    + destruct Hok. by constructor.
    + by exists raw, gz.
  - by intros id r <-.
  - intros d lang' kind Hd Hc. unfold NewBucket in *. destruct (newDimension _ _ _) as [n|]; [|done].
    apply checked_inl in Hd as [-> Hb]. inversion Hb as [id Hid|? ? ? ? Hrk Hl' Hs Hq]; subst; [done|].
    exists {| Mode := cp_Mode p; Dimension := n; Lang := lang; TextSource := kind; QuoteID := uuid_Nil |}.
    rewrite checked_inl. split; [|done]. split; [done|]. by constructor.
Qed.
End relabel.

(** ** A small site *)

#[export] Instance toyText : JsonText := {| container_text _ := "{}" |}.

Definition plainSite : @site uuid16_Uuid :=
  {| st_quotes := ∅; st_verified := ∅; st_requireVerifiedEmail := false |}.

#[export] Instance plainBoard : @Projection uuid16_Uuid toyCore := boardProjection plainSite.

(** A submission the toy core agrees with. *)
Definition honestReq (lang total : string) : ingestRequest :=
  let raw j := Some {| raw_len := 2; raw_val := j |} in
  {| rq_Mode := "time"; rq_DurationMs := Some 15000; rq_WordCount := None; rq_Lang := lang;
     rq_Seed := Some 7; rq_DictHash := "d1";
     rq_Setup := raw (JObj [("config", JObj []); ("generation", JObj [("mode", JStr "time")])]);
     rq_Log := Some (tinyLog 40);
     rq_ClientMetrics := raw (JObj [("wpm", JNum "60.5"); ("raw", JNum "62"); ("acc", JNum "0.97")]);
     rq_ClientScore := raw (JObj [("total", JNum total)]);
     rq_ScoreVersion := Some 3; rq_RestartsSinceLastSubmit := None |}.

Definition honest (lang total : string) : CreateRunParams := paramsOf uuid_Nil (honestReq lang total) [40].

Definition b1 (lang : string) : world := withTables (CreateRun runID 1 (honest lang "130") noTables) (fresh ∅).
Definition b2 lang := openTx 0 (Scanning worker (w_tables (b1 lang))) (b1 lang).
Definition b3 lang := openTx 0 (holdAll worker (b2 lang) (b1 lang)) (b2 lang).
Definition b4 lang := commitOf 0 worker (b3 lang).

Lemma b4_reachable lang :
  validateIngest uuid_Nil (honestReq lang "130") = inl (honest lang "130") ->
  goes (inTx 5 (jobDecide worker)
    (claimRows (jobClaim worker) (w_tables (b1 lang)) (w_tables (b2 lang)) ∅ 20 [runID]) (w_db (b3 lang))) = true ->
  reachable ∅ (b4 lang).
Proof.
  intros Hp Hg.
  refine (steps_step _ _ (b1 lang) _ (StepCreate (fresh ∅) runID 1 uuid_Nil _ _ eq_refl Hp) _).
  refine (steps_step _ _ (b2 lang) _ (StepScan (b1 lang) 0%nat worker eq_refl) _).
  refine (steps_step _ _ (b3 lang) _ (hold_step 0 worker (b2 lang) (b1 lang) eq_refl _) _); [by eexists|].
  refine (steps_step _ _ (b4 lang) _ _ (steps_refl _ _)).
  exact (commit_step 0 worker (b3 lang) _ (lookup_insert_eq _ _ _) Hg).
Qed.

Definition enBoard := "time:15000:en:seeded".

(** The board as the tables have it, and after a rebuild. *)
Definition boardOf (w : world) : gmap (string * UUID) entryRow := db_proj (w_db w).
Definition rebuiltOf (w : world) : option (gmap (string * UUID) entryRow * RebuildStats) :=
  Rebuild plainSite (w_tables w) (boardOf w).

Lemma held {A} (o : option A) (Q : A -> Prop) (R : Prop) :
  goes o = true -> match o with Some a => Q a | None => R end -> exists a, Q a.
Proof. destruct o as [a|]; [eauto|done]. Qed.


Lemma rebuild_reproduces_witness :
  exists es stats, rebuiltOf (b4 "en") = Some (es, stats) /\ rs_Cells stats = 1
    /\ er_RunID <$> es !! (enBoard, uuid_Nil) = er_RunID <$> boardOf (b4 "en") !! (enBoard, uuid_Nil).
Proof.
  destruct (rebuiltOf (b4 "en")) as [[es stats]|] eqn:E.
  - exists es, stats. split; [reflexivity|]. split.
    + assert (rs_Cells <$> (rebuiltOf (b4 "en") ≫= fun p => Some p.2) = Some 1) as Hc by (vm_compute; reflexivity).
      rewrite E in Hc. injection Hc as Hc. exact Hc.
    + assert (reachable ∅ (b4 "en")) as Hr by (apply b4_reachable; [reflexivity|vm_compute; reflexivity]).
      destruct (reachable_board plainSite (b4 "en") Hr) as [Hrows Hb].
      exact (proj1 (rebuild_reproduces plainSite (w_tables (b4 "en")) (boardOf (b4 "en")) es stats
                      Hrows Hb E (enBoard, uuid_Nil))).
  - exfalso. assert (goes (rebuiltOf (b4 "en")) = true) as G by (vm_compute; reflexivity).
    rewrite E in G. discriminate.
Defined.

Definition spacedRun : option eligible :=
  match eligibleRun plainSite (w_tables (b4 "en us")) runID with Row e => Some e | _ => None end.

Lemma unspeakable_language_stops_rebuild_witness :
  Rebuild plainSite (w_tables (b4 "en us")) (boardOf (b4 "en us")) = None
  /\ reachable ∅ (b4 "en us").
Proof.
  split; [|apply b4_reachable; [reflexivity|vm_compute; reflexivity]].
  destruct (eligibleRun plainSite (w_tables (b4 "en us")) runID) as [|e|] eqn:E.
  2:{ destruct (eligibleRun_spec _ _ _ _ E) as [Hid _]. assert (viewed plainSite (w_tables (b4 "en us")) e) as Hv.
      { unfold viewed. rewrite Hid. exact E. }
      assert (spacedRun = Some e) as Es by (unfold spacedRun; rewrite E; reflexivity).
      assert (cl_quoteID ∘ el_cell <$> spacedRun = Some None) as Hq by (vm_compute; reflexivity).
      assert (cl_lang ∘ el_cell <$> spacedRun = Some "en us") as Hl by (vm_compute; reflexivity).
      rewrite Es in Hq, Hl. injection Hq as Hq. injection Hl as Hl.
      refine (proj1 (unspeakable_language_stops_rebuild plainSite _ (boardOf (b4 "en us")) e Hv Hq _ _)).
      - reflexivity.
      - cbn in Hl. rewrite Hl. intros (_ & _ & Hc). vm_compute in Hc. discriminate. }
  all: exfalso; assert (goes spacedRun = true) as G by (vm_compute; reflexivity);
    unfold spacedRun in G; rewrite E in G; discriminate.
Defined.

Lemma language_is_unchecked_witness :
  validateIngest uuid_Nil (relangReq "de" (honestReq "en" "130")) = inl (relang "de" (honest "en" "130")).
Proof.
  refine (proj1 (language_is_unchecked uuid_Nil (honestReq "en" "130") (honest "en" "130") "de" _ _)).
  - reflexivity.
  - split; [done|]. by vm_compute.
Defined.

(** ** Numbers a re-judgement changed *)

Definition rewpm (wpm : string) (d : Decision) : Decision :=
  {| dc_Status := dc_Status d;
     dc_ServerMetrics := Some (JObj [("wpm", JNum wpm); ("raw", JNum "62"); ("accuracy", JNum "0.97")]);
     dc_ServerScore := dc_ServerScore d; dc_Validation := dc_Validation d; dc_BundleSHA := dc_BundleSHA d;
     dc_PolicyVersion := dc_PolicyVersion d; dc_Attempts := dc_Attempts d; dc_LastError := dc_LastError d;
     dc_CharObservations := dc_CharObservations d |}.

Definition shownWpm (es : gmap (string * UUID) entryRow) : option string :=
  er_WPM <$> es !! (enBoard, uuid_Nil).

(** The verdict's transaction for the run re-judged with another wpm. *)
Definition rejudged (wpm : string) : option database :=
  let run := toPendingRun runID {| rr_Params := honest "en" "130"; rr_Status := "accepted"; rr_Attempts := 0;
                                   rr_LastError := None; rr_CreatedAt := 1 |} in
  writeOutcome 9 runID (rewpm wpm (jobDecide worker run)) (w_db (b4 "en")).

(** A board goes on showing numbers a re-judgement has replaced.  When a formula
    changes, the run's new wpm is written to its verdict and the cell is recomputed, but
    a slot that stays with its run is left as it is: the row shows the old number
    until a rebuild, which shows the new one. *)
Theorem rejudged_numbers_not_shown (wpm : string) :
  shownWpm (boardOf (b4 "en")) = Some "60.5"
  /\ (fun db => vr_ServerMetrics <$> tb_verdicts (db_tables db) !! runID) <$> rejudged wpm
     = Some (Some (Some (JObj [("wpm", JNum wpm); ("raw", JNum "62"); ("accuracy", JNum "0.97")])))
  /\ (fun db => shownWpm (db_proj db)) <$> rejudged wpm = Some (Some "60.5")
  /\ (fun out => shownWpm out.1) <$> (rejudged wpm ≫= fun db => Rebuild plainSite (db_tables db) (db_proj db))
     = Some (Some wpm).
Proof. split_and!; vm_compute; reflexivity. Qed.

(** ** A score the packing cannot hold *)

(** A core whose third formula gives 2^24. *)
Definition bigCore : GameCore := {|
  bundleSHA := "b16c"; js_parse_dictionary := @js_parse_dictionary toyCore;
  js_parse_input := @js_parse_input toyCore; js_validateLog := @js_validateLog toyCore;
  js_generateWords := @js_generateWords toyCore; js_scoreOfLog := @js_scoreOfLog toyCore;
  js_scoreV2OfLog := @js_scoreV2OfLog toyCore;
  js_scoreV3OfLog _ _ _ := Returned (Some (JObj [("total", JNum "16777216")]));
  js_charObservationsOf := @js_charObservationsOf toyCore |}.

Definition bigBoard : @Projection uuid16_Uuid bigCore := @boardProjection _ bigCore _ _ plainSite.

Definition bigDB : @database _ bigCore bigBoard :=
  @Build_database _ bigCore bigBoard (CreateRun runID 1 (honest "en" "16777216") noTables) ∅.

Lemma goes_not {A} (o : option A) : goes o = false -> o = None.
Proof. by destruct o. Qed.

Lemma bigRun_refused :
  goes (@writeOutcome _ bigCore bigBoard 5 runID (@jobDecide _ _ bigCore worker
    (toPendingRun runID {| rr_Params := honest "en" "16777216"; rr_Status := Runstatus.Pending;
       rr_Attempts := 0; rr_LastError := None; rr_CreatedAt := 1 |})) bigDB) = false.
Proof. vm_compute. reflexivity. Qed.

Lemma refused_projection_stops_queue_witness :
  @ProcessBatch _ bigCore bigBoard 5 ClaimPending 20 (@jobDecide _ _ bigCore worker) [runID] bigDB = None.
Proof.
  refine (@refused_projection_stops_queue _ bigCore bigBoard 5 (@jobDecide _ _ bigCore worker) 20 [runID]
    bigDB runID [] _ _ _).
  - intros r Hr. assert (r = {| rr_Params := honest "en" "16777216"; rr_Status := Runstatus.Pending;
      rr_Attempts := 0; rr_LastError := None; rr_CreatedAt := 1 |}) as ->.
    { cbn in Hr. rewrite lookup_insert_eq in Hr. injection Hr as <-. reflexivity. }
    exact (goes_not _ bigRun_refused).
  - vm_compute. reflexivity.
  - lia.
Defined.
