(* ===== verification/BoardRead.v ===== *)
(** * The leaderboard read model and its HTTP surface

    internal/leaderboard: the ban-filtered views of db/migrations 00011 and 00012, the
    read queries, the store's read side, and the handlers of the board pages, the
    window around the caller, the caller's own row and the index of boards.

    Every statement reads the database on its own, so a handler is given the snapshot
    each of its statements sees ([db 0], [db 1], ...).  Timestamps are microseconds in
    the tables and nanoseconds in Go. *)

From S2P Require Import Prelude GoStd Json Uuid Httpx Keyset Bucket Policy RunStore Board.

Open Scope Z_scope.

(** ** The packed ranking key *)

(** [score << 32] wraps as C does; the subtraction of bigints does not. *)
Definition packed (score at_ : Z) : Z := Int.int64 (Z.shiftl score 32) - at_ / 1000000.

Definition leaderboard_sort_key (score at_ : Z) : option Z :=
  let k := packed score at_ in
  if (- 2 ^ 63 <=? k) && (k <? 2 ^ 63) then Some k else None.

Section read.
Context `{Uuid} `{!UuidOrder}.

(** ** Views *)

Record ban := { bn_UserID : UUID; bn_ExpiresAt : option Z; bn_RevokedAt : option Z }.

(** What one statement sees. *)
Record snapshot := {
  sn_now : Z;
  sn_users : gmap UUID string;
  sn_bans : list ban;
  sn_entries : gmap (string * UUID) entryRow }.

Definition active (now : Z) (b : ban) : bool :=
  match bn_RevokedAt b with
  | Some _ => false
  | None => match bn_ExpiresAt b with None => true | Some t => now <? t end
  end.

Definition banned (s : snapshot) (u : UUID) : bool :=
  existsb (fun b => bool_decide (bn_UserID b = u) && active (sn_now s) b) (sn_bans s).

Record row := { rw_BucketKey : string; rw_UserID : UUID; rw_Entry : entryRow }.

Definition leaderboard_ranked (s : snapshot) : list row :=
  filter (fun r => banned s (rw_UserID r) = false)
    ((fun kv => {| rw_BucketKey := kv.1.1; rw_UserID := kv.1.2; rw_Entry := kv.2 |}) <$> map_to_list (sn_entries s)).

Definition leaderboard_rows (s : snapshot) : list (row * string) :=
  omap (fun r => pair r <$> sn_users s !! rw_UserID r) (leaderboard_ranked s).

(** The order of the index: [sort_key DESC, achieved_at ASC, user_id ASC]. *)
Definition sortPosition (r : row) : position :=
  {| ps_Score := packed (er_Score (rw_Entry r)) (er_AchievedAt (rw_Entry r));
     ps_At := er_AchievedAt (rw_Entry r); ps_ID := uuid_key (rw_UserID r) |}.

(** ** Queries *)

Definition above (k at_ : Z) (user : UUID) (r : row) : bool :=
  let p := sortPosition r in
  (k <=? ps_Score p)
  && ((k <? ps_Score p) || (ps_At p <? at_) || ((ps_At p =? at_) && (ps_ID p <? uuid_key user))).

Definition below (k at_ : Z) (user : UUID) (r : row) : bool :=
  let p := sortPosition r in
  (ps_Score p <=? k)
  && ((ps_Score p <? k) || (at_ <? ps_At p) || ((ps_At p =? at_) && (uuid_key user <? ps_ID p))).

Definition inBucket (key : string) (q : row -> bool) (s : snapshot) : list (row * string) :=
  filter (fun rn => (rw_BucketKey rn.1 =s? key) && q rn.1 = true) (leaderboard_rows s).

Definition ListLeaderboardPageFirst (s : snapshot) (key : string) (limit : Z) : list (row * string) :=
  take (Z.to_nat limit) (order_by (sortPosition ∘ fst) outranks (inBucket key (fun _ => true) s)).

Definition ListLeaderboardPageAfter (s : snapshot) (key : string) (score at_ : Z) (user : UUID) (limit : Z)
    : option (list (row * string)) :=
  k ← leaderboard_sort_key score at_;
  Some (take (Z.to_nat limit) (order_by (sortPosition ∘ fst) outranks (inBucket key (below k at_ user) s))).

Definition ListLeaderboardPageBefore (s : snapshot) (key : string) (score at_ : Z) (user : UUID) (limit : Z)
    : option (list (row * string)) :=
  k ← leaderboard_sort_key score at_;
  Some (take (Z.to_nat limit) (order_by (sortPosition ∘ fst) (backwards outranks) (inBucket key (above k at_ user) s))).

Definition CountLeaderboardAbove (s : snapshot) (key : string) (score at_ : Z) (user : UUID) : option Z :=
  k ← leaderboard_sort_key score at_;
  Some (Z.of_nat (length (filter (fun r => (rw_BucketKey r =s? key) && above k at_ user r = true)
    (leaderboard_ranked s)))).

Definition GetLeaderboardEntry (s : snapshot) (key : string) (user : UUID) : option (row * string) :=
  e ← sn_entries s !! (key, user);
  if banned s user then None
  else pair {| rw_BucketKey := key; rw_UserID := user; rw_Entry := e |} <$> sn_users s !! user.

Definition ListLeaderboardBuckets `{Collation} (s : snapshot) : list (string * Z) :=
  let keys := rw_BucketKey <$> leaderboard_ranked s in
  (fun key => (key, Z.of_nat (length (filter (.= key) keys)))) <$> order_by id text_lt (remove_dups keys).

(** ** The store *)

Record Entry := {
  en_Rank : Z; en_UserID : UUID; en_DisplayName : string; en_RunID : UUID; en_Score : Z;
  en_WPM : string; en_Raw : string; en_Acc : string; en_Grade : string; en_Mods : json;
  en_Source : string; en_AchievedAt : Z }.

Definition text (s : option string) : string := default "" s.

Definition rowToEntry (rn : row * string) : Entry :=
  let e := rw_Entry rn.1 in
  {| en_Rank := 0; en_UserID := rw_UserID rn.1; en_DisplayName := rn.2; en_RunID := er_RunID e;
     en_Score := er_Score e; en_WPM := er_WPM e; en_Raw := er_Raw e; en_Acc := er_Acc e;
     en_Grade := er_Grade e; en_Mods := er_Mods e; en_Source := text (er_QuoteSource e);
     en_AchievedAt := er_AchievedAt e * 1000 |}.

Definition withRank (rank : Z) (e : Entry) : Entry :=
  {| en_Rank := rank; en_UserID := en_UserID e; en_DisplayName := en_DisplayName e; en_RunID := en_RunID e;
     en_Score := en_Score e; en_WPM := en_WPM e; en_Raw := en_Raw e; en_Acc := en_Acc e;
     en_Grade := en_Grade e; en_Mods := en_Mods e; en_Source := en_Source e;
     en_AchievedAt := en_AchievedAt e |}.

(** A keyset position, in nanoseconds. *)
Record Cursor := { cu_Score : Z; cu_AchievedAt : Z; cu_UserID : UUID }.

(** A [time.Time] sent as a timestamptz loses what is below the microsecond. *)
Definition timestamptz (ns : Z) : Z := ns / 1000.

Definition toEntries (rows : list (row * string)) : list Entry := rowToEntry <$> rows.

Definition Page (s : snapshot) (b : Bucket) (after : option Cursor) (limit : Z) : option (list Entry) :=
  match after with
  | None => Some (toEntries (ListLeaderboardPageFirst s (Key b) limit))
  | Some c => toEntries <$>
      ListLeaderboardPageAfter s (Key b) (cu_Score c) (timestamptz (cu_AchievedAt c)) (cu_UserID c) limit
  end.

(** The slice is filled from its end. *)
Definition PageBefore (s : snapshot) (b : Bucket) (c : Cursor) (limit : Z) : option (list Entry) :=
  (fun rows => reverse (toEntries rows)) <$>
    ListLeaderboardPageBefore s (Key b) (cu_Score c) (timestamptz (cu_AchievedAt c)) (cu_UserID c) limit.

Definition RankAbove (s : snapshot) (b : Bucket) (c : Cursor) : option Z :=
  CountLeaderboardAbove s (Key b) (cu_Score c) (timestamptz (cu_AchievedAt c)) (cu_UserID c).

Definition cursorFor (e : Entry) : Cursor :=
  {| cu_Score := en_Score e; cu_AchievedAt := en_AchievedAt e; cu_UserID := en_UserID e |}.

(** [ErrNoEntry] is [Some None]; a failing statement [None]. *)
Definition EntryFor (s0 s1 : snapshot) (b : Bucket) (user : UUID) : option (option Entry) :=
  match GetLeaderboardEntry s0 (Key b) user with
  | None => Some None
  | Some rn =>
    let entry := rowToEntry rn in
    (fun n => Some (withRank (n + 1) entry)) <$> RankAbove s1 b (cursorFor entry)
  end.

Record BucketCount := { bc_Bucket : Bucket; bc_Entries : Z }.

Definition Buckets `{Collation} (s : snapshot) : option (list BucketCount) :=
  mapM (fun kn => match ParseBucketKey kn.1 with
                  | inl b => Some {| bc_Bucket := b; bc_Entries := kn.2 |}
                  | inr _ => None
                  end) (ListLeaderboardBuckets s).

(** ** Cursor tokens *)

Definition encodeCursor (c : Cursor) : string :=
  EncodeCursor [Strconv.Itoa (cu_Score c); Strconv.Itoa (Int.int64 (cu_AchievedAt c)); uuid_String (cu_UserID c)].

Definition decodeCursor (token : string) : option Cursor :=
  match DecodeCursor token 3 with
  | Some [score; nanos; id] =>
    score ← Strconv.Atoi score; nanos ← Strconv.Atoi nanos; id ← uuid_Parse id;
    Some {| cu_Score := score; cu_AchievedAt := nanos; cu_UserID := id |}
  | _ => None
  end.

Definition cursorOf (e : Entry) : string := encodeCursor (cursorFor e).

(** ** Handlers *)

Inductive apiError :=
| apiErrUnknownBucket | apiErrBadCursor | apiErrConflictingAsks | apiErrBadAround
| apiErrUnauthorized | apiErrRateLimited | apiErrInternal.

Definition errStatus (e : apiError) : Z :=
  match e with
  | apiErrUnknownBucket => 404
  | apiErrBadCursor | apiErrConflictingAsks | apiErrBadAround => 400
  | apiErrUnauthorized => 401
  | apiErrRateLimited => 429
  | apiErrInternal => 500
  end.

Inductive reply (A : Type) := JSON (a : A) | NoContent | Refuse (e : apiError).
Arguments JSON {A}. Arguments NoContent {A}. Arguments Refuse {A}.

Definition defaultLimit : Z := 50.
Definition maxLimit : Z := 100.

Record pageResponse := {
  pr_Bucket : string; pr_Entries : list Entry; pr_PrevCursor : string; pr_NextCursor : string }.

(** The rows ranked from [firstRank] on. *)
Definition ranked (firstRank : Z) (rows : list Entry) : list Entry :=
  imap (fun i e => withRank (firstRank + Z.of_nat i) e) rows.

Definition pageView (b : Bucket) (rows : list Entry) (firstRank : Z) (prev next : string) : pageResponse :=
  {| pr_Bucket := Key b; pr_Entries := ranked firstRank rows; pr_PrevCursor := prev; pr_NextCursor := next |}.

(** The token of the last row, of the first. *)
Definition lastCursor (rows : list Entry) : string := match last rows with Some e => cursorOf e | None => "" end.
Definition firstCursor (rows : list Entry) : string := match head rows with Some e => cursorOf e | None => "" end.

Record query := { q_limit : string; q_cursor : string; q_before : string; q_around : string }.

(** The downward page, with or without a cursor. *)
Definition handleAfter (db : nat -> snapshot) (b : Bucket) (raw : string) (limit : Z) : reply pageResponse :=
  let serve after firstRank s :=
    match Page s b after (limit + 1) with
    | None => Refuse apiErrInternal
    | Some rows =>
      if limit <? Z.of_nat (length rows) then
        let rows := take (Z.to_nat limit) rows in
        JSON (pageView b rows firstRank "" (lastCursor rows))
      else JSON (pageView b rows firstRank "" "")
    end in
  if raw =s? "" then serve None 1 (db 0%nat)
  else match decodeCursor raw with
       | None => Refuse apiErrBadCursor
       | Some c =>
         match RankAbove (db 0%nat) b c with
         | None => Refuse apiErrInternal
         | Some n => serve (Some c) (n + 2) (db 1%nat)
         end
       end.

Definition handleBefore (db : nat -> snapshot) (b : Bucket) (raw : string) (limit : Z) : reply pageResponse :=
  match decodeCursor raw with
  | None => Refuse apiErrBadCursor
  | Some c =>
    match PageBefore (db 0%nat) b c limit, RankAbove (db 1%nat) b c with
    | Some rows, Some n =>
      let firstRank := n + 1 - Z.of_nat (length rows) in
      let prev := if (0 <? Z.of_nat (length rows)) && (1 <? firstRank) then firstCursor rows else "" in
      JSON (pageView b rows firstRank prev "")
    | _, _ => Refuse apiErrInternal
    end
  end.

Definition handleAround (db : nat -> snapshot) (b : Bucket) (around : string) (user : option UUID) (limit : Z)
    : reply pageResponse :=
  if negb (around =s? "me") then Refuse apiErrBadAround
  else match user with
  | None => Refuse apiErrUnauthorized
  | Some user =>
    match EntryFor (db 0%nat) (db 1%nat) b user with
    | None => Refuse apiErrInternal
    | Some None => NoContent
    | Some (Some me) =>
      let wantAbove := Z.min ((limit - 1) / 2) (en_Rank me - 1) in
      let wantBelow := limit - 1 - wantAbove in
      match Page (db 2%nat) b (Some (cursorFor me)) (wantBelow + 1) with
      | None => Refuse apiErrInternal
      | Some rowsBelow =>
        let more := wantBelow <? Z.of_nat (length rowsBelow) in
        let next := if negb more then ""
                    else if 0 <? wantBelow then lastCursor (take (Z.to_nat wantBelow) rowsBelow) else cursorOf me in
        let rowsBelow := if more then take (Z.to_nat wantBelow) rowsBelow else rowsBelow in
        let spare := Z.min (limit - 1 - Z.of_nat (length rowsBelow)) (en_Rank me - 1) in
        let wantAbove := if more then wantAbove else Z.max wantAbove spare in
        match (if 0 <? wantAbove then PageBefore (db 3%nat) b (cursorFor me) wantAbove else Some []) with
        | None => Refuse apiErrInternal
        | Some rowsAbove =>
          let rows := rowsAbove ++ me :: rowsBelow in
          let firstRank := en_Rank me - Z.of_nat (length rowsAbove) in
          let prev := if 1 <? firstRank then firstCursor rows else "" in
          JSON (pageView b rows firstRank prev next)
        end
      end
    end
  end.

Definition asks (q : query) : nat :=
  length (filter (fun v => negb (v =s? "") = true) [q_cursor q; q_before q; q_around q]).

Definition handlePage (db : nat -> snapshot) (param : string) (user : option UUID) (q : query)
    : reply pageResponse :=
  match ParseBucketKey param with
  | inr _ => Refuse apiErrUnknownBucket
  | inl b =>
    let limit := ParseLimit (q_limit q) defaultLimit maxLimit in
    if (1 <? asks q)%nat then Refuse apiErrConflictingAsks
    else if negb (q_around q =s? "") then handleAround db b (q_around q) user limit
    else if negb (q_before q =s? "") then handleBefore db b (q_before q) limit
    else handleAfter db b (q_cursor q) limit
  end.

Definition handleMe (db : nat -> snapshot) (param : string) (user : option UUID) : reply (string * Entry) :=
  match ParseBucketKey param with
  | inr _ => Refuse apiErrUnknownBucket
  | inl b =>
    match user with
    | None => Refuse apiErrUnauthorized
    | Some user =>
      match EntryFor (db 0%nat) (db 1%nat) b user with
      | None => Refuse apiErrInternal
      | Some None => NoContent
      | Some (Some e) => JSON (Key b, e)
      end
    end
  end.

(** *** The index of boards *)

Record bucketView := {
  bv_Bucket : string; bv_QuoteID : option UUID; bv_Mode : string; bv_DurationMs : option Z;
  bv_WordCount : option Z; bv_Lang : string; bv_TextSource : string; bv_Entries : Z }.

Definition toBucketView (b : Bucket) (entries : Z) : bucketView :=
  if IsQuote b then
    {| bv_Bucket := Key b; bv_QuoteID := Some (QuoteID b); bv_Mode := ""; bv_DurationMs := None;
       bv_WordCount := None; bv_Lang := ""; bv_TextSource := ""; bv_Entries := entries |}
  else
    let time := Bucket.Mode b =s? ModeTime in
    {| bv_Bucket := Key b; bv_QuoteID := None; bv_Mode := Bucket.Mode b;
       bv_DurationMs := if time then Some (Dimension b) else None;
       bv_WordCount := if time then None else Some (Dimension b);
       bv_Lang := Bucket.Lang b; bv_TextSource := Bucket.TextSource b; bv_Entries := entries |}.

(** [withdrawn] is the quotes out of circulation, or the failure to read them; [allowed]
    the limiter's answer ([rateLimitIndex]; no limiter allows everything). *)
Definition handleBuckets `{Collation} (allowed : option bool) (withdrawn : option (gset UUID)) (s : snapshot)
    : reply (list bucketView) :=
  match allowed with
  | Some false => Refuse apiErrRateLimited
  | _ =>
    match Buckets s, withdrawn with
    | Some counts, Some withdrawn =>
      JSON ((fun c => toBucketView (bc_Bucket c) (bc_Entries c)) <$>
        filter (fun c => negb (IsQuote (bc_Bucket c) && bool_decide (QuoteID (bc_Bucket c) ∈ withdrawn)) = true) counts)
    | _, _ => Refuse apiErrInternal
    end
  end.
End read.

Arguments JSON {A}. Arguments NoContent {A}. Arguments Refuse {A}.

(** Microseconds survive the trip through nanoseconds. *)
Lemma timestamptz_micros at_ : timestamptz (at_ * 1000) = at_.
Proof. unfold timestamptz. by rewrite Z.div_mul. Qed.
