(* ===== verification/BoardPages.v ===== *)
(** * The board's handlers

    What [GET /leaderboards/{bucket}] answers on an unchanging database: the pages, the
    window around the caller, and their ranks.  First the listing a snapshot holds and
    the statements as slices of it. *)

From Stdlib Require Import Sorting.Sorted Strings.Ascii.
From S2P Require Import Prelude GoStd Uuid Httpx Keyset Json Bucket Policy RunStore Board BoardRead.

Open Scope Z_scope.

(** * What the board pages show

    The packed key orders as the ranking does; a page after, before or around a position
    is the slice of the one ranked listing that stands there, with the ranks counted
    fresh; and following the cursors lists the board. *)

(** ** The packed key *)

(** Timestamps until the year 2106. *)
Definition epoch_ok (at_ : Z) : Prop := 0 <= at_ < 2 ^ 32 * 1000000.

Lemma packed_val score at_ : packable score = true -> packed score at_ = score * 2 ^ 32 - at_ / 1000000.
Proof.
  unfold packable, packed. intros Hs. bool_to_prop. rewrite Z.shiftl_mul_pow2 by lia.
  unfold Int.int64. rewrite Int.wrap_id; [done|lia|]. unfold Int.in_range. lia.
Qed.

(** Ordering by the packed key is ordering by the ranking.  For scores the table
    accepts and times until 2106 the key is always computed, and comparing
    (key, time, player) compares (score, time, player): higher score first, the earlier
    run on a tie, to the microsecond. *)
Theorem packed_order_is_ranking (p q : position) :
  packable (ps_Score p) = true -> packable (ps_Score q) = true ->
  epoch_ok (ps_At p) -> epoch_ok (ps_At q) ->
  exists kp kq,
    leaderboard_sort_key (ps_Score p) (ps_At p) = Some kp
    /\ leaderboard_sort_key (ps_Score q) (ps_At q) = Some kq
    /\ outranks {| ps_Score := kp; ps_At := ps_At p; ps_ID := ps_ID p |}
                {| ps_Score := kq; ps_At := ps_At q; ps_ID := ps_ID q |} = outranks p q.
Proof.
  intros Hp Hq Ap Aq. unfold leaderboard_sort_key. rewrite !packed_val by done.
  unfold packable, epoch_ok in *. bool_to_prop.
  assert (forall s a, 0 <= s < 16777216 -> 0 <= a < 2 ^ 32 * 1000000 ->
    (- 2 ^ 63 <=? s * 2 ^ 32 - a / 1000000) && (s * 2 ^ 32 - a / 1000000 <? 2 ^ 63) = true) as Hr.
  { intros s a Hs Ha. assert (0 <= a / 1000000 < 2 ^ 32) by (split; [lia|apply Z.div_lt_upper_bound; lia]). lia. }
  rewrite !Hr by lia. do 2 eexists. split_and!; [done|done|].
  unfold outranks. cbn. assert (0 <= ps_At p / 1000000 < 2 ^ 32) by lia.
  assert (0 <= ps_At q / 1000000 < 2 ^ 32) by lia.
  apply eq_true_iff_eq. rewrite !orb_true_iff, !andb_true_iff, !orb_true_iff, !andb_true_iff,
    !Z.ltb_lt, !Z.eqb_eq.
  destruct (decide (ps_Score p = ps_Score q)) as [E|E]; [rewrite E; nia|].
  assert (ps_Score p < ps_Score q \/ ps_Score q < ps_Score p) as [?|?] by lia; nia.
Qed.

Section read.
Context `{Uuid} `{!UuidOrder}.

(** ** The listing a snapshot holds *)

(** The schema's guarantees: a row's player exists, and its score is packable. *)
Record snapshot_ok (s : snapshot) : Prop := {
  so_users key user slot : sn_entries s !! (key, user) = Some slot -> is_Some (sn_users s !! user);
  so_scores key user slot : sn_entries s !! (key, user) = Some slot ->
    packable (er_Score slot) = true /\ epoch_ok (er_AchievedAt slot) }.

(** The visible rows of a board, in the order of the index. *)
Definition ranking (s : snapshot) (key : string) : list (row * string) :=
  order_by (sortPosition ∘ fst) outranks (inBucket key (fun _ => true) s).

Abbreviation posOf := (sortPosition ∘ fst).

Lemma ranked_elem s r :
  r ∈ leaderboard_ranked s <->
  sn_entries s !! (rw_BucketKey r, rw_UserID r) = Some (rw_Entry r) /\ banned s (rw_UserID r) = false.
Proof.
  unfold leaderboard_ranked. rewrite list_elem_of_filter, list_elem_of_fmap. split.
  - intros (Hb & ([[k u] e] & -> & Hm%elem_of_map_to_list)). done.
  - intros [Hm Hb]. split; [done|]. exists (rw_BucketKey r, rw_UserID r, rw_Entry r).
    split; [by destruct r|]. by apply elem_of_map_to_list.
Qed.

Lemma rows_elem s rn :
  rn ∈ leaderboard_rows s <-> rn.1 ∈ leaderboard_ranked s /\ sn_users s !! rw_UserID rn.1 = Some rn.2.
Proof.
  unfold leaderboard_rows. rewrite list_elem_of_omap. split.
  - intros (r & Hr & E). destruct (sn_users s !! _) as [n|] eqn:En; [|done]. by injection E as <-.
  - intros [Hr En]. exists rn.1. split; [done|]. rewrite En. by destruct rn.
Qed.

Lemma ranking_elem s key rn : rn ∈ ranking s key <-> rn ∈ leaderboard_rows s /\ rw_BucketKey rn.1 = key.
Proof.
  unfold ranking. rewrite (order_by_perm posOf outranks). unfold inBucket. rewrite list_elem_of_filter.
  rewrite andb_true_r, String.eqb_eq. naive_solver.
Qed.

(** A player's visible row on a board is unique. *)
Lemma ranking_row s key rn : rn ∈ ranking s key <->
  sn_entries s !! (key, rw_UserID rn.1) = Some (rw_Entry rn.1) /\ rw_BucketKey rn.1 = key
  /\ banned s (rw_UserID rn.1) = false /\ sn_users s !! rw_UserID rn.1 = Some rn.2.
Proof. rewrite ranking_elem, rows_elem, ranked_elem. naive_solver. Qed.

Lemma ranked_users_NoDup s : NoDup ((fun r => (rw_BucketKey r, rw_UserID r)) <$> leaderboard_ranked s).
Proof.
  unfold leaderboard_ranked. pose proof (NoDup_fst_map_to_list (sn_entries s)) as Hn.
  induction (map_to_list (sn_entries s)) as [|[[k u] e] l IH]; [constructor|].
  rewrite fmap_cons in *. apply NoDup_cons in Hn as [Hk Hn]. specialize (IH Hn). rewrite filter_cons.
  case_decide; [|done]. rewrite fmap_cons. apply NoDup_cons. split; [|done]. cbn.
  intros (r & E & [_ Hr]%list_elem_of_filter)%list_elem_of_fmap. apply Hk.
  apply list_elem_of_fmap in Hr as ([[k' u'] e'] & -> & Hr). cbn in E. injection E as -> ->.
  apply list_elem_of_fmap. by exists (k', u', e').
Qed.

Lemma inBucket_positions s key : NoDup (posOf <$> inBucket key (fun _ => true) s).
Proof.
  assert (NoDup ((fun rn => rw_UserID rn.1) <$> inBucket key (fun _ => true) s)) as Hn.
  { unfold inBucket, leaderboard_rows. pose proof (ranked_users_NoDup s) as Hn.
    induction (leaderboard_ranked s) as [|r l IH]; [constructor|].
    rewrite fmap_cons in Hn. apply NoDup_cons in Hn as [Hr Hn]. specialize (IH Hn).
    destruct (sn_users s !! rw_UserID r) as [n|] eqn:En; cbn [omap list_omap]; rewrite En; cbn; [|done].
    case_decide as Hk; [|done]. rewrite fmap_cons. apply NoDup_cons. split; [|done].
    rewrite andb_true_r, String.eqb_eq in Hk. cbn in Hk.
    intros ([r' n'] & E & [Hk' Hin]%list_elem_of_filter)%list_elem_of_fmap. apply Hr.
    rewrite andb_true_r, String.eqb_eq in Hk'. cbn in *.
    apply list_elem_of_omap in Hin as (r'' & Hin & E'). destruct (sn_users s !! rw_UserID r''); [|done].
    injection E' as <- <-. apply list_elem_of_fmap. exists r''. split; [congruence|done]. }
  induction (inBucket key _ s) as [|rn l IH]; [constructor|]. rewrite fmap_cons in *.
  apply NoDup_cons in Hn as [Hr Hn]. apply NoDup_cons. split; [|auto].
  intros (rn' & E & Hin)%list_elem_of_fmap. apply Hr. apply list_elem_of_fmap. exists rn'. split; [|done].
  cbn in E. unfold sortPosition in E. injection E as _ _ E. by apply (inj uuid_key) in E.
Qed.

Lemma ranking_sorted s key : StronglySorted (before posOf outranks) (ranking s key).
Proof. apply (order_by_sorted posOf outranks). apply inBucket_positions. Qed.

(** ** Statements as slices of the listing *)

Definition positionAt (k at_ : Z) (user : UUID) : position :=
  {| ps_Score := k; ps_At := at_; ps_ID := uuid_key user |}.

Lemma above_outranks k at_ user r : above k at_ user r = outranks (sortPosition r) (positionAt k at_ user).
Proof. unfold above, outranks. cbn. lia. Qed.

Lemma below_outranks k at_ user r : below k at_ user r = outranks (positionAt k at_ user) (sortPosition r).
Proof. unfold below, outranks. cbn. lia. Qed.

Lemma inBucket_filter s key q :
  inBucket key q s = filter (fun rn => q rn.1 = true) (inBucket key (fun _ => true) s).
Proof.
  unfold inBucket. rewrite list_filter_filter. apply list_filter_iff. intros rn.
  rewrite !andb_true_iff. naive_solver.
Qed.

Lemma inBucket_order s key q :
  order_by posOf outranks (inBucket key q s) = filter (fun rn => q rn.1 = true) (ranking s key).
Proof. rewrite inBucket_filter. apply (order_by_filter posOf outranks), inBucket_positions. Qed.

Lemma page_first s key limit : ListLeaderboardPageFirst s key limit = take (Z.to_nat limit) (ranking s key).
Proof. done. Qed.

Lemma page_after s key score at_ user limit k :
  leaderboard_sort_key score at_ = Some k ->
  ListLeaderboardPageAfter s key score at_ user limit
  = Some (take (Z.to_nat limit) (rows_after posOf outranks (positionAt k at_ user) (ranking s key))).
Proof.
  intros Hk. unfold ListLeaderboardPageAfter. rewrite Hk. cbn. f_equal. f_equal.
  rewrite inBucket_order. apply list_filter_iff. intros rn. by rewrite below_outranks.
Qed.

Lemma page_before s key score at_ user limit k :
  leaderboard_sort_key score at_ = Some k ->
  ListLeaderboardPageBefore s key score at_ user limit
  = Some (take (Z.to_nat limit) (reverse (rows_before posOf outranks (positionAt k at_ user) (ranking s key)))).
Proof.
  intros Hk. unfold ListLeaderboardPageBefore. rewrite Hk. cbn. f_equal. f_equal.
  rewrite (order_by_backwards posOf outranks).
  - f_equal. rewrite inBucket_order. apply list_filter_iff. intros rn. by rewrite above_outranks.
  - rewrite inBucket_filter. apply NoDup_filter_pos, inBucket_positions.
Qed.

(** The count reads the view without the join; with every player there it is the same
    set. *)
Lemma rows_ranked s : snapshot_ok s -> (leaderboard_rows s).*1 = leaderboard_ranked s.
Proof.
  intros Hs. unfold leaderboard_rows.
  assert (forall r, r ∈ leaderboard_ranked s -> is_Some (sn_users s !! rw_UserID r)) as Hu.
  { intros r [Hr _]%ranked_elem. by eapply so_users. }
  induction (leaderboard_ranked s) as [|r l IH]; [done|]. destruct (Hu r) as [n En]; [left|].
  cbn [omap list_omap]. rewrite En. cbn. f_equal.
  apply IH. intros r' Hr. apply Hu. by right.
Qed.

Lemma count_above s key score at_ user k :
  snapshot_ok s -> leaderboard_sort_key score at_ = Some k ->
  CountLeaderboardAbove s key score at_ user
  = Some (Z.of_nat (length (rows_before posOf outranks (positionAt k at_ user) (ranking s key)))).
Proof.
  intros Hs Hk. unfold CountLeaderboardAbove. rewrite Hk. cbn. f_equal. f_equal.
  transitivity (length (inBucket key (above k at_ user) s)).
  - rewrite <- (rows_ranked s Hs). unfold inBucket. by rewrite filter_fmap, length_fmap.
  - rewrite <- (Permutation_length (order_by_perm posOf outranks _)), inBucket_order. f_equal.
    apply list_filter_iff. intros rn. by rewrite above_outranks.
Qed.
End read.

Section pages.
Context `{Uuid} `{!UuidOrder} `{!UuidLaws}.

Abbreviation posOf := (sortPosition ∘ fst).

(** ** Ranked listings *)

Definition entryPos (e : Entry) : position :=
  positionAt (packed (en_Score e) (timestamptz (en_AchievedAt e))) (timestamptz (en_AchievedAt e)) (en_UserID e).

(** What the board serves: the visible rows in order, ranked from 1. *)
Definition served (s : snapshot) (key : string) : list Entry := ranked 1 (toEntries (ranking s key)).

Lemma ranked_cons n e l : ranked n (e :: l) = withRank n e :: ranked (n + 1) l.
Proof.
  unfold ranked. rewrite imap_cons. f_equal; [f_equal; lia|]. apply imap_ext. intros i x _. unfold compose. f_equal. lia.
Qed.

Lemma ranked_app n l1 l2 : ranked n (l1 ++ l2) = ranked n l1 ++ ranked (n + Z.of_nat (length l1)) l2.
Proof.
  revert n. induction l1 as [|e l1 IH]; intros n.
  - cbn [app length]. unfold ranked at 2. cbn [imap app]. by replace (n + Z.of_nat 0) with n by lia.
  - rewrite <- app_comm_cons, !ranked_cons, IH, <- app_comm_cons. cbn [length]. do 3 f_equal. lia.
Qed.

Lemma ranked_length n l : length (ranked n l) = length l.
Proof. unfold ranked. by rewrite length_imap. Qed.

Lemma ranked_take n i l : ranked n (take i l) = take i (ranked n l).
Proof.
  revert n i. induction l as [|e l IH]; intros n [|i]; [done..|]. cbn [take]. rewrite !ranked_cons. cbn. by rewrite IH.
Qed.

Lemma ranked_drop n i l : (i <= length l)%nat -> ranked (n + Z.of_nat i) (drop i l) = drop i (ranked n l).
Proof.
  intros Hi. rewrite <- (take_drop i l) at 2. rewrite ranked_app, drop_app_length'.
  - rewrite length_take. do 2 f_equal. lia.
  - rewrite ranked_length, length_take. lia.
Qed.

Lemma ranked_lookup n i l : ranked n l !! i = (fun e => withRank (n + Z.of_nat i) e) <$> l !! i.
Proof. unfold ranked. by rewrite list_lookup_imap. Qed.

Lemma entryPos_row n rn : entryPos (withRank n (rowToEntry rn)) = posOf rn.
Proof. unfold entryPos, sortPosition. cbn. by rewrite timestamptz_micros. Qed.

Lemma ranked_sorted n rows :
  StronglySorted (before posOf outranks) rows -> StronglySorted (before entryPos outranks) (ranked n (toEntries rows)).
Proof.
  intros Hs. revert n. induction Hs as [|rn rows Hs IH Hr]; intros n; [constructor|].
  unfold toEntries in *. rewrite fmap_cons, ranked_cons. constructor; [done|]. apply Forall_forall.
  intros e [i Hi]%list_elem_of_lookup. rewrite ranked_lookup, list_lookup_fmap in Hi.
  destruct (rows !! i) as [rn'|] eqn:Er; [|done]. cbn in Hi. injection Hi as <-.
  unfold before. rewrite !entryPos_row. rewrite Forall_forall in Hr. by apply Hr, list_elem_of_lookup_2 with i.
Qed.

(** ** Cursor tokens *)

Lemma decode_encodeCursor c :
  - 2 ^ 63 <= cu_Score c < 2 ^ 63 -> - 2 ^ 63 <= cu_AchievedAt c < 2 ^ 63 ->
  decodeCursor (encodeCursor c) = Some c.
Proof.
  intros Hs Ha. unfold decodeCursor, encodeCursor.
  unfold Int.int64. rewrite Int.wrap_id by (unfold Int.in_range; lia).
  rewrite (DecodeCursor_Encode [_; _; _]); [|done|].
  - rewrite !Strconv.Atoi_Itoa by lia. cbn. rewrite Parse_String. by destruct c.
  - repeat constructor; [apply Itoa_no_colon..|apply uuid_no_colon].
Qed.

Lemma decode_nonempty raw c : decodeCursor raw = Some c -> (raw =s? "") = false.
Proof. intros Hc. apply String.eqb_neq. intros ->. by vm_compute in Hc. Qed.

(** The position a cursor names, when its key can be computed. *)
Definition cursorPos (c : Cursor) : option position :=
  k ← leaderboard_sort_key (cu_Score c) (timestamptz (cu_AchievedAt c));
  Some (positionAt k (timestamptz (cu_AchievedAt c)) (cu_UserID c)).

Section still.
Context (s : snapshot) (Hs : snapshot_ok s).

Lemma ranking_range key rn : rn ∈ ranking s key ->
  packable (er_Score (rw_Entry rn.1)) = true /\ epoch_ok (er_AchievedAt (rw_Entry rn.1)).
Proof. intros (Hr & _)%ranking_row. by eapply so_scores. Qed.

(** A row's cursor stands for the row's position. *)
Lemma row_cursor key rn n : rn ∈ ranking s key ->
  decodeCursor (cursorOf (withRank n (rowToEntry rn))) = Some (cursorFor (rowToEntry rn))
  /\ cursorPos (cursorFor (rowToEntry rn)) = Some (posOf rn).
Proof.
  intros [Hp Ha]%ranking_range. split.
  - unfold cursorOf. change (cursorFor (withRank n (rowToEntry rn))) with (cursorFor (rowToEntry rn)).
    unfold packable, epoch_ok in *. bool_to_prop. apply decode_encodeCursor; cbn; lia.
  - unfold cursorPos, cursorFor, positionAt, sortPosition. cbn. rewrite timestamptz_micros.
    destruct (packed_order_is_ranking
      {| ps_Score := er_Score (rw_Entry rn.1); ps_At := er_AchievedAt (rw_Entry rn.1); ps_ID := 0 |}
      {| ps_Score := er_Score (rw_Entry rn.1); ps_At := er_AchievedAt (rw_Entry rn.1); ps_ID := 0 |})
      as (k & ? & E & _); [done..|]. cbn in E. rewrite E. cbn. unfold leaderboard_sort_key in E.
    destruct (_ && _); [|done]. by injection E as <-.
Qed.
(** ** Downward pages *)

Abbreviation still := (fun _ : nat => s).

Lemma RankAbove_still b c p :
  cursorPos c = Some p ->
  RankAbove s b c = Some (Z.of_nat (length (rows_before posOf outranks p (ranking s (Key b))))).
Proof.
  unfold cursorPos. intros (k & Hk & [= <-])%bind_Some. unfold RankAbove. by apply count_above.
Qed.

Lemma Page_still b c p limit :
  cursorPos c = Some p ->
  Page s b (Some c) limit
  = Some (toEntries (take (Z.to_nat limit) (rows_after posOf outranks p (ranking s (Key b))))).
Proof.
  unfold cursorPos. intros (k & Hk & [= <-])%bind_Some. unfold Page. by rewrite (page_after _ _ _ _ _ _ k).
Qed.

Lemma PageBefore_still b c p limit :
  cursorPos c = Some p ->
  let rows := rows_before posOf outranks p (ranking s (Key b)) in
  PageBefore s b c limit = Some (toEntries (drop (length rows - Z.to_nat limit) rows)).
Proof.
  intros Hp rows. unfold cursorPos in Hp. apply bind_Some in Hp as (k & Hk & [= E]). subst p rows. unfold PageBefore.
  rewrite (page_before _ _ _ _ _ _ k) by done. cbn. f_equal. unfold toEntries.
  rewrite <- fmap_reverse. f_equal. apply reverse_take_reverse.
Qed.

(** The extra row says whether there is more. *)
Lemma more_rows {A} (limit : nat) (rows : list A) :
  (limit <? length (take (S limit) rows))%nat = (limit <? length rows)%nat.
Proof. rewrite length_take. apply eq_true_iff_eq. rewrite !Nat.ltb_lt. lia. Qed.

Lemma cut_page_rows {A} (limit : nat) (rows : list A) :
  (if (limit <? length (take (S limit) rows))%nat then take limit (take (S limit) rows) else take (S limit) rows)
  = take limit rows.
Proof.
  rewrite more_rows. destruct (Nat.ltb_spec limit (length rows)).
  - rewrite take_take. f_equal. lia.
  - by rewrite !take_ge by lia.
Qed.

(** A downward page: the rows after the position, ranked from one past the cursor's. *)
Lemma handleAfter_cursor b raw c p limit :
  decodeCursor raw = Some c -> cursorPos c = Some p -> 0 < limit ->
  let listing := ranking s (Key b) in
  let rows := toEntries (rows_after posOf outranks p listing) in
  let page := take (Z.to_nat limit) rows in
  handleAfter still b raw limit
  = JSON (pageView b page (Z.of_nat (length (rows_before posOf outranks p listing)) + 2) ""
      (if (Z.to_nat limit <? length rows)%nat then lastCursor page else "")).
Proof.
  intros Hc Hp Hl listing rows page. unfold handleAfter. rewrite (decode_nonempty _ _ Hc), Hc.
  rewrite (RankAbove_still _ _ _ Hp), (Page_still _ _ _ _ Hp).
  replace (Z.to_nat (limit + 1)) with (S (Z.to_nat limit)) by lia.
  assert (forall l, (limit <? Z.of_nat (length (toEntries l))) = (Z.to_nat limit <? length l)%nat) as El.
  { intros l. unfold toEntries. rewrite length_fmap. apply eq_true_iff_eq. rewrite Z.ltb_lt, Nat.ltb_lt. lia. }
  fold listing. rewrite El, more_rows. unfold page, rows, toEntries. rewrite length_fmap, <- !fmap_take.
  destruct (_ <? _)%nat eqn:Hm.
  - by rewrite take_take, Nat.min_l by lia.
  - apply Nat.ltb_ge in Hm. by rewrite !take_ge by lia.
Qed.

Lemma handleAfter_first b limit :
  0 < limit ->
  let page := take (Z.to_nat limit) (toEntries (ranking s (Key b))) in
  handleAfter still b "" limit
  = JSON (pageView b page 1 ""
      (if (Z.to_nat limit <? length (toEntries (ranking s (Key b))))%nat then lastCursor page else "")).
Proof.
  intros Hl page. unfold handleAfter. cbn [String.eqb Page]. rewrite page_first.
  replace (Z.to_nat (limit + 1)) with (S (Z.to_nat limit)) by lia.
  assert (forall l, (limit <? Z.of_nat (length (toEntries l))) = (Z.to_nat limit <? length l)%nat) as El.
  { intros l. unfold toEntries. rewrite length_fmap. apply eq_true_iff_eq. rewrite Z.ltb_lt, Nat.ltb_lt. lia. }
  rewrite El, more_rows. unfold page, toEntries. rewrite length_fmap, <- !fmap_take.
  destruct (_ <? _)%nat eqn:Hm.
  - by rewrite take_take, Nat.min_l by lia.
  - apply Nat.ltb_ge in Hm. by rewrite !take_ge by lia.
Qed.

(** Nothing on the page is ranked as it stands unless the cursor's row is still there:
    the code counts it as above the page whether it is or not. *)
Definition cursor_row_there (key : string) (p : position) : bool :=
  existsb (fun rn => bool_decide (posOf rn = p)) (ranking s key).

Lemma listing_split key p :
  ranking s key = rows_before posOf outranks p (ranking s key)
    ++ filter (fun rn => posOf rn = p) (ranking s key) ++ rows_after posOf outranks p (ranking s key)
  /\ Z.of_nat (length (filter (fun rn => posOf rn = p) (ranking s key)))
     = if cursor_row_there key p then 1 else 0.
Proof.
  destruct (sorted_split posOf outranks p (ranking s key) (ranking_sorted s key)) as (mid & El & Hm).
  assert (filter (fun rn => posOf rn = p) (ranking s key) = mid) as ->.
  { rewrite El, !filter_app.
    rewrite (filter_none _ (rows_before _ _ _ _)), (filter_none _ (rows_after _ _ _ _)).
    - rewrite app_nil_r. destruct Hm as [[-> _]|(x & -> & Hx)]; [done|]. by rewrite filter_cons_True.
    - intros rn [Hl _]%list_elem_of_filter E. rewrite E, (lt_irrefl (lt:=outranks)) in Hl. done.
    - intros rn [Hl _]%list_elem_of_filter E. rewrite E, (lt_irrefl (lt:=outranks)) in Hl. done. }
  split; [exact El|]. unfold cursor_row_there. destruct Hm as [[-> Hn]|(x & -> & Hx)].
  - destruct (existsb _ _) eqn:Ee; [|done]. apply existsb_exists in Ee as (rn & Hin & E).
    apply bool_decide_eq_true in E. rewrite Forall_forall in Hn. exfalso. apply (Hn rn); [|done].
    by apply list_elem_of_In.
  - destruct (existsb _ _) eqn:Ee; [done|]. exfalso.
    assert (x ∈ ranking s key) as Hin by (rewrite El; set_solver).
    pose proof (existsb_false _ _ _ Ee Hin) as Hf. cbn in Hf. by apply bool_decide_eq_false in Hf.
Qed.
(** The order of the listing in the ranking's own terms. *)
Definition standing (rn : row * string) : position :=
  {| ps_Score := er_Score (rw_Entry rn.1); ps_At := er_AchievedAt (rw_Entry rn.1);
     ps_ID := uuid_key (rw_UserID rn.1) |}.

Lemma standing_packed key x y : x ∈ ranking s key -> y ∈ ranking s key ->
  outranks (posOf x) (posOf y) = outranks (standing x) (standing y).
Proof.
  intros [Hx Ax]%ranking_range [Hy Ay]%ranking_range.
  destruct (packed_order_is_ranking (standing x) (standing y)) as (kx & ky & Ex & Ey & <-); [done..|].
  unfold leaderboard_sort_key in *. cbn in Ex, Ey.
  destruct (_ && _) in Ex; [|done]. destruct (_ && _) in Ey; [|done]. by injection Ex as <-; injection Ey as <-.
Qed.

Lemma ranking_order key : StronglySorted (fun x y => outranks (standing x) (standing y) = true) (ranking s key).
Proof.
  assert (forall x, x ∈ ranking s key -> x ∈ ranking s key) as Hin by done.
  pose proof (ranking_sorted s key) as Hsorted. revert Hin.
  enough (forall rows, StronglySorted (before posOf outranks) rows -> (forall x, x ∈ rows -> x ∈ ranking s key) ->
    StronglySorted (fun x y => outranks (standing x) (standing y) = true) rows) by auto.
  clear Hsorted. induction 1 as [|x rows Hsorted IH Hx]; intros Hin; [constructor|].
  constructor; [apply IH; intros y Hy; apply Hin; by right|].
  rewrite Forall_forall in *. intros y Hy. rewrite <- (standing_packed key); [by apply Hx| |].
  - apply Hin. by left.
  - apply Hin. by right.
Qed.

(** A request that names a downward position. *)
Definition askAfter (limit cursor : string) : query :=
  {| q_limit := limit; q_cursor := cursor; q_before := ""; q_around := "" |}.

Lemma handlePage_after db param user b limit cursor :
  ParseBucketKey param = inl b ->
  handlePage db param user (askAfter limit cursor)
  = handleAfter db b cursor (ParseLimit limit defaultLimit maxLimit).
Proof.
  intros Hb. unfold handlePage. rewrite Hb. unfold asks. cbn [askAfter q_cursor q_before q_around q_limit].
  rewrite filter_cons. by case_decide.
Qed.

Lemma limit_pos limit : 0 < ParseLimit limit defaultLimit maxLimit <= maxLimit.
Proof. by apply ParseLimit_bounds. Qed.

(** The ranks on a continuation page are right exactly while the cursor's row is
    there.  The page after a cursor shows the rows that come next in the ranking; each
    carries its true rank if the row the cursor was minted from is still on the board
    at that position, and one more than its true rank if that row has moved, been
    hidden or been deleted. *)
Theorem continuation_ranks (param limit raw : string) (user : option UUID) (b : Bucket) (c : Cursor) (p : position) :
  ParseBucketKey param = inl b -> decodeCursor raw = Some c -> cursorPos c = Some p ->
  exists r, handlePage still param user (askAfter limit raw) = JSON r
    /\ forall i e, pr_Entries r !! i = Some e ->
      exists j rn, ranking s (Key b) !! j = Some rn /\ outranks p (posOf rn) = true
        /\ e = withRank (Z.of_nat j + 1 + (if cursor_row_there (Key b) p then 0 else 1)) (rowToEntry rn).
Proof.
  intros Hb Hc Hp. rewrite (handlePage_after _ _ _ _ _ _ Hb).
  pose proof (limit_pos limit) as Hl. rewrite (handleAfter_cursor _ _ _ _ _ Hc Hp) by apply Hl.
  eexists. split; [done|]. cbn [pr_Entries pageView]. intros i e Hi.
  destruct (listing_split (Key b) p) as [El Hm].
  set (B := rows_before _ _ p _) in *. set (M := filter _ _) in *. set (A := rows_after _ _ p _) in *.
  rewrite ranked_lookup in Hi. apply fmap_Some in Hi as (e' & Hi & ->).
  assert (toEntries A !! i = Some e') as Ha by (by eapply lookup_take_Some in Hi as []).
  unfold toEntries in Ha. rewrite list_lookup_fmap in Ha. apply fmap_Some in Ha as (rn & Ha & ->).
  exists (length B + (length M + i))%nat, rn. split_and!.
  - rewrite El, lookup_app_r, lookup_app_r by lia.
    by replace (length B + (length M + i) - length B - length M)%nat with i by lia.
  - assert (rn ∈ A) as Hin by (by eapply list_elem_of_lookup_2). by apply list_elem_of_filter in Hin as [? _].
  - f_equal. destruct (cursor_row_there _ _); lia.
Qed.

(** *** The walk *)

Definition fetchPage (param limit : string) (user : option UUID) (token : option string)
    : option (list Entry * option string) :=
  match handlePage still param user (askAfter limit (default "" token)) with
  | JSON r => Some (pr_Entries r, if pr_NextCursor r =s? "" then None else Some (pr_NextCursor r))
  | _ => None
  end.

Lemma served_at key x : x ∈ served s key ->
  exists l1 rn l2, ranking s key = l1 ++ rn :: l2
    /\ x = withRank (1 + Z.of_nat (length l1)) (rowToEntry rn)
    /\ served s key = ranked 1 (toEntries l1) ++ x :: ranked (Z.of_nat (length l1) + 2) (toEntries l2).
Proof.
  unfold served. intros [i Hi]%list_elem_of_lookup. rewrite ranked_lookup in Hi.
  apply fmap_Some in Hi as (e & Hi & ->). unfold toEntries in Hi. rewrite list_lookup_fmap in Hi.
  apply fmap_Some in Hi as (rn & Hi & ->). apply list_elem_of_split_length in Hi as (l1 & l2 & El & Hl).
  subst i. exists l1, rn, l2. rewrite El. split_and!; [done|done|].
  unfold toEntries. rewrite fmap_app, fmap_cons, ranked_app, ranked_cons, length_fmap.
  replace (1 + Z.of_nat (length l1) + 1) with (Z.of_nat (length l1) + 2) by lia. done.
Qed.

Lemma next_token key (limit : nat) n rows :
  (forall rn, rn ∈ rows -> rn ∈ ranking s key) -> (0 < limit)%nat ->
  (if (if (limit <? length (toEntries rows))%nat then lastCursor (take limit (toEntries rows)) else "") =s? ""
   then None
   else Some (if (limit <? length (toEntries rows))%nat then lastCursor (take limit (toEntries rows)) else ""))
  = cursorOf <$> (cut_page limit (ranked n (toEntries rows))).2
  /\ ranked n (take limit (toEntries rows)) = (cut_page limit (ranked n (toEntries rows))).1.
Proof.
  intros Hin Hl. unfold cut_page. rewrite ranked_length. destruct (Nat.ltb_spec limit (length (toEntries rows))) as [Hm|Hm].
  2:{ split; [done|]. by rewrite take_ge by done. }
  cbn [fst snd]. split; [|apply ranked_take]. rewrite <- ranked_take. unfold lastCursor. rewrite !last_lookup.
  rewrite ranked_length, ranked_lookup. unfold toEntries in *. rewrite <- fmap_take, list_lookup_fmap.
  destruct (take limit rows !! _) as [rn|] eqn:Er.
  - cbn. apply list_elem_of_lookup_2 in Er.
    assert (rn ∈ ranking s key) as Hr.
    { apply Hin. rewrite <- (take_drop limit rows). set_solver. }
    destruct (row_cursor key rn 0 Hr) as [Hd _]. apply decode_nonempty in Hd.
    change (cursorOf (withRank 0 (rowToEntry rn))) with (cursorOf (rowToEntry rn)) in Hd.
    by match goal with |- context [?x =s? ""] => change x with (cursorOf (rowToEntry rn)); rewrite Hd end.
  - apply lookup_ge_None in Er. rewrite length_fmap, !length_take in Er. rewrite length_fmap in Hm. lia.
Qed.

(** C35: following the cursors lists the board.  Whatever the limit asked for, the walk
    from page one along the continuation tokens ends; its pages put together are the
    visible rows of the board, every one once, in ranking order (score, then who was
    first, then the player's id), ranked 1, 2, 3, ...; and all but the last are full. *)
Theorem pages_list_the_board (param limit : string) (user : option UUID) (b : Bucket) :
  ParseBucketKey param = inl b ->
  exists pages rows,
    walk (S (length rows)) (fetchPage param limit user) None = Some pages
    /\ concat pages = ranked 1 (toEntries rows)
    /\ (forall rn, rn ∈ rows <->
         sn_entries s !! (Key b, rw_UserID rn.1) = Some (rw_Entry rn.1) /\ rw_BucketKey rn.1 = Key b
         /\ banned s (rw_UserID rn.1) = false /\ sn_users s !! rw_UserID rn.1 = Some rn.2)
    /\ StronglySorted (fun x y => outranks (standing x) (standing y) = true) rows
    /\ forall init q, pages = init ++ [q] ->
         Forall (fun q => length q = Z.to_nat (ParseLimit limit defaultLimit maxLimit)) init.
Proof.
  intros Hb. pose proof (limit_pos limit) as Hl. set (lim := ParseLimit _ _ _) in *.
  destruct (walk_all entryPos outranks cursorOf (Z.to_nat lim) (served s (Key b)) (fetchPage param limit user))
    as (pages & Hw & Hc & Hf).
  - lia.
  - apply ranked_sorted, ranking_sorted.
  - unfold fetchPage. rewrite (handlePage_after _ _ _ _ _ _ Hb). fold lim. cbn [default].
    rewrite handleAfter_first by lia. cbn [pageView pr_Entries pr_NextCursor].
    destruct (next_token (Key b) (Z.to_nat lim) 1 (ranking s (Key b))) as [E1 E2]; [done|lia|].
    unfold served. by rewrite <- E1, <- E2.
  - intros x Hx rows. unfold fetchPage. rewrite (handlePage_after _ _ _ _ _ _ Hb). fold lim. cbn [default].
    destruct (served_at _ _ Hx) as (l1 & rn & l2 & El & -> & Es).
    assert (rn ∈ ranking s (Key b)) as Hr by (rewrite El; set_solver).
    pose proof (ranking_sorted s (Key b)) as Hsorted. rewrite El in Hsorted.
    destruct (row_cursor (Key b) rn (1 + Z.of_nat (length l1)) Hr) as [Hd Hp].
    rewrite (handleAfter_cursor _ _ _ _ _ Hd Hp) by lia. cbn [pageView pr_Entries pr_NextCursor].
    rewrite El, (rows_after_at posOf outranks l1 rn l2 Hsorted), (rows_before_at posOf outranks l1 rn l2 Hsorted).
    assert (rows = ranked (Z.of_nat (length l1) + 2) (toEntries l2)) as ->.
    { unfold rows. rewrite Es. apply (rows_after_at entryPos outranks). rewrite <- Es. apply ranked_sorted, ranking_sorted. }
    destruct (next_token (Key b) (Z.to_nat lim) (Z.of_nat (length l1) + 2) l2) as [E1 E2].
    + intros rn' Hr'. rewrite El. set_solver.
    + lia.
    + by rewrite <- E1, <- E2.
  - exists pages, (ranking s (Key b)). split_and!; [|done|apply ranking_row| |done].
    + unfold served, toEntries in Hw. by rewrite ranked_length, length_fmap in Hw.
    + apply ranking_order.
Qed.
(** ** The caller's own row *)

Lemma at_row key i rn :
  ranking s key !! i = Some rn ->
  rows_before posOf outranks (posOf rn) (ranking s key) = take i (ranking s key)
  /\ rows_after posOf outranks (posOf rn) (ranking s key) = drop (S i) (ranking s key).
Proof.
  intros Hi. pose proof (ranking_sorted s key) as Hsorted.
  rewrite <- (take_drop_middle _ _ _ Hi) in Hsorted.
  pose proof (rows_before_at posOf outranks _ _ _ Hsorted) as Eb.
  pose proof (rows_after_at posOf outranks _ _ _ Hsorted) as Ea.
  by rewrite (take_drop_middle _ _ _ Hi) in Ea, Eb.
Qed.

Lemma EntryFor_there b i rn :
  ranking s (Key b) !! i = Some rn ->
  EntryFor s s b (rw_UserID rn.1) = Some (Some (withRank (Z.of_nat i + 1) (rowToEntry rn))).
Proof.
  intros Hi. pose proof (list_elem_of_lookup_2 _ _ _ Hi) as Hin. unfold EntryFor.
  assert (GetLeaderboardEntry s (Key b) (rw_UserID rn.1) = Some rn) as ->.
  { apply ranking_row in Hin as (He & Hk & Hb & Hn). unfold GetLeaderboardEntry. rewrite He. cbn.
    rewrite Hb, Hn. destruct rn as [[k u e] n]. cbn in *. by subst k. }
  destruct (row_cursor (Key b) rn 0 Hin) as [_ Hp]. rewrite (RankAbove_still b _ _ Hp).
  destruct (at_row _ _ _ Hi) as [-> _]. cbn. rewrite length_take. apply lookup_lt_Some in Hi.
  do 3 f_equal. lia.
Qed.

Lemma EntryFor_absent b user :
  (forall rn, rn ∈ ranking s (Key b) -> rw_UserID rn.1 <> user) -> EntryFor s s b user = Some None.
Proof.
  intros Hno. unfold EntryFor. destruct (GetLeaderboardEntry s (Key b) user) as [rn|] eqn:Eg; [|done]. exfalso.
  unfold GetLeaderboardEntry in Eg. apply bind_Some in Eg as (e & He & Eg).
  destruct (banned s user) eqn:Hb; [done|]. apply fmap_Some in Eg as (n & Hn & ->).
  by apply (Hno ({| rw_BucketKey := Key b; rw_UserID := user; rw_Entry := e |}, n)); [apply ranking_row|].
Qed.

(** A player's own row.  The answer is the row with its true rank, whoever is
    visible; a player without a visible row, unranked or banned alike, gets the same
    empty answer, and nobody else an answer at all. *)
Theorem own_row (param : string) (user : option UUID) (b : Bucket) :
  ParseBucketKey param = inl b ->
  match user with
  | None => handleMe still param user = Refuse apiErrUnauthorized
  | Some u =>
    (forall i rn, ranking s (Key b) !! i = Some rn -> rw_UserID rn.1 = u ->
       handleMe still param user = JSON (Key b, withRank (Z.of_nat i + 1) (rowToEntry rn)))
    /\ ((forall rn, rn ∈ ranking s (Key b) -> rw_UserID rn.1 <> u) -> handleMe still param user = NoContent)
  end.
Proof.
  intros Hb. unfold handleMe. rewrite Hb. destruct user as [u|]; [|done]. split.
  - intros i rn Hi <-. by rewrite (EntryFor_there b i rn Hi).
  - intros Hno. by rewrite EntryFor_absent.
Qed.

(** ** The window *)

Lemma window_slice (L : list (row * string)) i rn A B :
  L !! i = Some rn -> (A <= i)%nat -> (B <= length L - S i)%nat ->
  drop (i - A) (take i L) ++ rn :: take B (drop (S i) L) = take (A + S B) (drop (i - A) L).
Proof.
  intros Hi HA HB. pose proof (lookup_lt_Some _ _ _ Hi) as Hlt.
  rewrite <- (take_drop_middle L i rn Hi) at 3. rewrite drop_app_le by (rewrite length_take; lia).
  rewrite take_app_ge by (rewrite length_drop, length_take; lia). f_equal.
  rewrite length_drop, length_take. replace (A + S B - (i `min` length L - (i - A)))%nat with (S B) by lia. done.
Qed.

Lemma window_ranked key i rn A B :
  ranking s key !! i = Some rn -> (A <= i)%nat -> (B <= length (ranking s key) - S i)%nat ->
  ranked (Z.of_nat i + 1 - Z.of_nat A)
    (toEntries (drop (i - A) (take i (ranking s key))) ++ rowToEntry rn :: toEntries (take B (drop (S i) (ranking s key))))
  = take (A + S B) (drop (i - A) (served s key)).
Proof.
  intros Hi HA HB. pose proof (lookup_lt_Some _ _ _ Hi) as Hlt. unfold toEntries.
  rewrite <- fmap_cons, <- fmap_app, (window_slice _ _ _ _ _ Hi HA HB), fmap_take, fmap_drop, ranked_take.
  unfold served, toEntries. rewrite <- ranked_drop by (rewrite length_fmap; lia). do 2 f_equal. lia.
Qed.

Lemma lastCursor_ranked n es : lastCursor (ranked n es) = lastCursor es.
Proof.
  unfold lastCursor. rewrite !last_lookup, ranked_length, ranked_lookup.
  by destruct (es !! pred (length es)).
Qed.

Lemma firstCursor_ranked n es : firstCursor (ranked n es) = firstCursor es.
Proof. by destruct es. Qed.

Lemma lastCursor_app es e es' :
  lastCursor (es ++ e :: es') = match es' with [] => cursorOf e | _ => lastCursor es' end.
Proof.
  unfold lastCursor. rewrite last_app, last_cons. by destruct es' as [|e' es']; [|destruct (last (e' :: es')) eqn:El; [|apply last_None in El]].
Qed.

Lemma cursorOf_rank n e : cursorOf (withRank n e) = cursorOf e.
Proof. done. Qed.
(** The window's two halves: [A] rows above and [B] below make a slice of the board. *)
Lemma window_view b i rn A B (more : bool) :
  let L := ranking s (Key b) in
  let me := withRank (Z.of_nat i + 1) (rowToEntry rn) in
  let rowsAbove := toEntries (drop (i - A) (take i L)) in
  let rowsBelow := toEntries (take B (drop (S i) L)) in
  let next := if more then match B with O => cursorOf me | S _ => lastCursor rowsBelow end else "" in
  L !! i = Some rn -> (A <= i)%nat -> (B <= length L - S i)%nat ->
  let firstRank := en_Rank me - Z.of_nat (length rowsAbove) in
  let r := pageView b (rowsAbove ++ me :: rowsBelow) firstRank
             (if 1 <? firstRank then firstCursor (rowsAbove ++ me :: rowsBelow) else "") next in
  pr_Entries r = take (A + S B) (drop (i - A) (served s (Key b)))
  /\ pr_PrevCursor r = (if (0 <? i - A)%nat then firstCursor (pr_Entries r) else "")
  /\ pr_NextCursor r = (if more then lastCursor (pr_Entries r) else "").
Proof.
  intros L me rowsAbove rowsBelow next Hi HA HB firstRank r.
  pose proof (lookup_lt_Some _ _ _ Hi) as Hlt.
  assert (length rowsAbove = A) as El.
  { unfold rowsAbove, toEntries. rewrite length_fmap, length_drop, length_take. lia. }
  assert (forall a c n, ranked n (a ++ me :: c) = ranked n (a ++ rowToEntry rn :: c)) as Eme.
  { intros a c n. by rewrite !ranked_app, !ranked_cons. }
  assert (pr_Entries r = take (A + S B) (drop (i - A) (served s (Key b)))) as Er.
  { unfold r, firstRank. cbn [pageView pr_Entries]. rewrite El, Eme.
    by apply window_ranked. }
  assert ((1 <? firstRank) = (0 <? i - A)%nat) as Ef.
  { unfold firstRank, me. rewrite El. apply eq_true_iff_eq. rewrite Z.ltb_lt, Nat.ltb_lt. cbn. lia. }
  split_and!; [done| |].
  - unfold r. cbn [pageView pr_Entries pr_PrevCursor]. by rewrite Ef, firstCursor_ranked.
  - unfold r, next. cbn [pageView pr_Entries pr_NextCursor]. rewrite lastCursor_ranked, lastCursor_app.
    destruct more; [|done]. unfold rowsBelow. destruct B as [|B]; [done|].
    destruct (drop (S i) L) as [|x l] eqn:Ed; [|done].
    apply (f_equal length) in Ed. rewrite length_drop in Ed. cbn in Ed. lia.
Qed.

Definition askAround (limit anchor : string) : query :=
  {| q_limit := limit; q_cursor := ""; q_before := ""; q_around := anchor |}.

Lemma handlePage_around db param user b limit :
  ParseBucketKey param = inl b ->
  handlePage db param user (askAround limit "me")
  = handleAround db b "me" user (ParseLimit limit defaultLimit maxLimit).
Proof. intros Hb. unfold handlePage. by rewrite Hb. Qed.

(** No statement runs when nothing is wanted above. *)
Lemma fetch_above b i rn A :
  ranking s (Key b) !! i = Some rn ->
  (if 0 <? A then PageBefore s b (cursorFor (rowToEntry rn)) A else Some [])
  = Some (toEntries (drop (i - Z.to_nat A) (take i (ranking s (Key b))))).
Proof.
  intros Hi. pose proof (lookup_lt_Some _ _ _ Hi) as Hlt. pose proof (list_elem_of_lookup_2 _ _ _ Hi) as Hin.
  destruct (row_cursor (Key b) rn 0 Hin) as [_ Hp]. destruct (at_row _ _ _ Hi) as [Ea _].
  destruct (Z.ltb_spec 0 A) as [?|HA].
  - rewrite (PageBefore_still b _ _ _ Hp). cbv zeta. rewrite Ea, length_take, Nat.min_l by lia. done.
  - rewrite drop_ge; [done|]. rewrite length_take. lia.
Qed.

(** The halves the handler settles on. *)
Lemma handleAround_still b i rn limit :
  let L := ranking s (Key b) in
  let me := withRank (Z.of_nat i + 1) (rowToEntry rn) in
  L !! i = Some rn -> 0 < limit ->
  exists A B,
    (A <= i)%nat /\ (B <= length L - S i)%nat
    /\ (A + S B = Nat.min (Z.to_nat limit) (length L))%nat
    /\ (A = i \/ (limit - 1) / 2 <= Z.of_nat A)
    /\ let rows := toEntries (drop (i - A) (take i L)) ++ me :: toEntries (take B (drop (S i) L)) in
       let firstRank := en_Rank me - Z.of_nat (length (toEntries (drop (i - A) (take i L)))) in
       handleAround still b "me" (Some (rw_UserID rn.1)) limit
       = JSON (pageView b rows firstRank (if 1 <? firstRank then firstCursor rows else "")
           (if (i + S B <? length L)%nat
            then match B with O => cursorOf me | S _ => lastCursor (toEntries (take B (drop (S i) L))) end else "")).
Proof.
  intros L me Hi Hl. pose proof (lookup_lt_Some _ _ _ Hi) as Hlt.
  pose proof (list_elem_of_lookup_2 _ _ _ Hi) as Hin. destruct (row_cursor (Key b) rn 0 Hin) as [_ Hp].
  destruct (at_row _ _ _ Hi) as [_ Ed]. unfold handleAround. cbn [String.eqb negb Ascii.eqb Bool.eqb].
  rewrite (EntryFor_there b i rn Hi). fold me. cbn [en_Rank me withRank].
  change (cursorFor me) with (cursorFor (rowToEntry rn)).
  set (A0 := Z.min ((limit - 1) / 2) (Z.of_nat i + 1 - 1)). set (B0 := limit - 1 - A0).
  rewrite (Page_still b _ _ _ Hp), Ed. fold L.
  assert (0 <= A0 <= Z.of_nat i /\ A0 <= (limit - 1) / 2 /\ 0 <= B0) as (HA & HA2 & HB) by lia.
  assert (forall n, length (toEntries (take n (drop (S i) L))) = Nat.min n (length L - S i)) as Elen.
  { intros n. unfold toEntries. by rewrite length_fmap, length_take, length_drop. }
  rewrite !Elen. destruct (Z.ltb_spec B0 (Z.of_nat (Nat.min (Z.to_nat (B0 + 1)) (length L - S i)))) as [Hm|Hm];
    cbn [negb].
  - rewrite (fetch_above b i rn A0 Hi). fold L. exists (Z.to_nat A0), (Z.to_nat B0).
    rewrite (proj2 (Nat.ltb_lt _ _)) by lia. split_and!; [lia..|].
    assert (take (Z.to_nat B0) (toEntries (take (Z.to_nat (B0 + 1)) (drop (S i) L)))
            = toEntries (take (Z.to_nat B0) (drop (S i) L))) as ->.
    { unfold toEntries. rewrite <- fmap_take, take_take. do 2 f_equal. lia. }
    cbv zeta. do 2 f_equal. destruct (Z.ltb_spec 0 B0); [by destruct (Z.to_nat B0) eqn:?; [lia|]|].
    by replace (Z.to_nat B0) with O by lia.
  - rewrite Elen. set (A1 := Z.max A0 _). rewrite (fetch_above b i rn A1 Hi). fold L.
    assert (A1 = Z.min (limit - 1 - Z.of_nat (length L - S i)) (Z.of_nat i) /\ A0 <= A1) as [EA EA'] by lia.
    clearbody A1. exists (Z.to_nat A1), (length L - S i)%nat. rewrite (proj2 (Nat.ltb_ge _ _)) by lia.
    split_and!; [lia..|]. by rewrite !(take_ge (drop (S i) L)) by (rewrite length_drop; lia).
Qed.

(** The window around the caller.  A caller with a visible row gets a contiguous
    stretch of the ranking that holds it, as long as the limit allows and the board has
    rows for; up to half of it stands above the caller, fewer only at the top; the
    ranks are the true ones, and there is a token upward exactly when rows stand above
    the window and a token downward exactly when rows stand below. *)
Theorem window_around_me (param limit : string) (b : Bucket) (i : nat) (rn : row * string) :
  let L := ranking s (Key b) in
  let lim := ParseLimit limit defaultLimit maxLimit in
  let size := Nat.min (Z.to_nat lim) (length L) in
  ParseBucketKey param = inl b -> L !! i = Some rn ->
  exists r lo, handlePage still param (Some (rw_UserID rn.1)) (askAround limit "me") = JSON r
    /\ pr_Entries r = take size (drop lo (served s (Key b)))
    /\ (lo <= i < lo + size)%nat /\ (lo + size <= length L)%nat
    /\ (lo = 0%nat \/ (lim - 1) / 2 <= Z.of_nat (i - lo))
    /\ pr_PrevCursor r = (if (0 <? lo)%nat then firstCursor (pr_Entries r) else "")
    /\ pr_NextCursor r = (if (lo + size <? length L)%nat then lastCursor (pr_Entries r) else "").
Proof.
  intros L lim size Hb Hi. rewrite (handlePage_around _ _ _ _ _ Hb).
  pose proof (limit_pos limit) as Hl. fold lim in Hl |- *. pose proof (lookup_lt_Some _ _ _ Hi) as Hlt.
  destruct (handleAround_still b i rn lim Hi) as (A & B & HA & HB & Es & Hh & Er); [lia|].
  destruct (window_view b i rn A B (i + S B <? length L)%nat Hi HA HB) as (E1 & E2 & E3).
  eexists _, (i - A)%nat. split; [exact Er|]. fold L size in Es, E3. fold L in HB.
  rewrite <- Es. split_and!; [exact E1|lia|lia|lia| |exact E2|].
  - destruct Hh; [left; lia|right]. by replace (i - (i - A))%nat with A by lia.
  - replace (i - A + (A + S B))%nat with (i + S B)%nat by lia. exact E3.
Qed.
(** ** Upward pages *)

(** The page before a cursor: the rows standing directly above the position, with their
    true ranks whether the cursor's row is still there or not. *)
Lemma upward_page (b : Bucket) (raw : string) (c : Cursor) (p : position) (limit : Z) :
  let n := length (rows_before posOf outranks p (ranking s (Key b))) in
  let k := Nat.min (Z.to_nat limit) n in
  decodeCursor raw = Some c -> cursorPos c = Some p ->
  exists r, handleBefore still b raw limit = JSON r
    /\ pr_Entries r = take k (drop (n - k) (served s (Key b)))
    /\ pr_NextCursor r = ""
    /\ pr_PrevCursor r = (if (0 <? k)%nat && (k <? n)%nat then firstCursor (pr_Entries r) else "").
Proof.
  intros n k Hc Hp. unfold handleBefore. rewrite Hc, (PageBefore_still b _ _ _ Hp), (RankAbove_still b _ _ Hp).
  cbv zeta. fold n. destruct (listing_split (Key b) p) as [El _].
  set (B := rows_before _ _ p _) in *. set (rest := filter _ _ ++ _) in El.
  assert (length (toEntries (drop (n - Z.to_nat limit) B)) = k) as Ek.
  { unfold toEntries. rewrite length_fmap, length_drop. fold n. lia. }
  rewrite Ek. eexists. split; [done|]. cbn [pageView pr_Entries pr_NextCursor pr_PrevCursor].
  assert (ranked (Z.of_nat n + 1 - Z.of_nat k) (toEntries (drop (n - Z.to_nat limit) B))
          = take k (drop (n - k) (served s (Key b)))) as Er.
  { unfold served. rewrite El. unfold toEntries. rewrite fmap_app, ranked_app, drop_app_le, take_app_le.
    - rewrite take_ge by (rewrite length_drop, ranked_length, length_fmap; lia).
      rewrite <- ranked_drop by (rewrite length_fmap; lia). rewrite fmap_drop.
      replace (n - Z.to_nat limit)%nat with (n - k)%nat by lia. f_equal. lia.
    - rewrite length_drop, ranked_length, length_fmap. fold n. lia.
    - rewrite ranked_length, length_fmap. fold n. lia. }
  split_and!; [exact Er|done|]. rewrite firstCursor_ranked.
  replace ((0 <? k)%nat && (k <? n)%nat) with ((0 <? Z.of_nat k) && (1 <? Z.of_nat n + 1 - Z.of_nat k)); [done|].
  apply eq_true_iff_eq. rewrite !andb_true_iff, !Nat.ltb_lt, !Z.ltb_lt. lia.
Qed.
End still.
End pages.

(** ** A small board *)

Definition playerID (n : Z) : @UUID uuid16_Uuid :=
  default (@uuid_Nil uuid16_Uuid) (@uuid_Parse uuid16_Uuid ("00000000-0000-0000-0000-00000000000" +:+ Strconv.Itoa n)).

Definition slotRow (run score at_ : Z) : @entryRow uuid16_Uuid :=
  {| er_RunID := playerID run; er_Score := score; er_WPM := "60"; er_Raw := "62"; er_Acc := "0.97"; er_Grade := "A";
     er_Mods := JObj []; er_AchievedAt := at_; er_QuoteSource := None |}.

Definition smallKey := "time:15000:en:seeded".

(** Three players, in this order: 3 and 2 share a score, 3 was first. *)
Definition smallBoard (bans : list ban) : @snapshot uuid16_Uuid := {|
  sn_now := 0;
  sn_users := <[playerID 1 := "ann"]> (<[playerID 2 := "bob"]> (<[playerID 3 := "cyd"]> ∅));
  sn_bans := bans;
  sn_entries := <[(smallKey, playerID 1) := slotRow 4 100 1]> (<[(smallKey, playerID 2) := slotRow 5 200 9]>
    (<[(smallKey, playerID 3) := slotRow 6 200 7]> ∅)) |}.

Definition banOf (n : Z) : @ban uuid16_Uuid :=
  {| bn_UserID := playerID n; bn_ExpiresAt := None; bn_RevokedAt := None |}.

Lemma smallBoard_ok bans : snapshot_ok (smallBoard bans).
Proof.
  assert (forall key user slot, sn_entries (smallBoard bans) !! (key, user) = Some slot ->
    (user = playerID 1 \/ user = playerID 2 \/ user = playerID 3)
    /\ (slot = slotRow 4 100 1 \/ slot = slotRow 5 200 9 \/ slot = slotRow 6 200 7)) as Hc.
  { intros key user slot. cbn [smallBoard sn_entries]. rewrite !lookup_insert_Some, lookup_empty. naive_solver. }
  constructor; intros key user slot [Hu Hsl]%Hc.
  - destruct Hu as [->|[->| ->]]; vm_compute; eauto.
  - destruct Hsl as [->|[->| ->]]; vm_compute; done.
Qed.

Definition namesOn {A} (r : reply A) (f : A -> list Entry) : list (Z * string) :=
  match r with JSON a => (fun e => (en_Rank e, en_DisplayName e)) <$> f a | _ => [] end.

Example small_page : namesOn (handlePage (fun _ => smallBoard []) smallKey None (askAfter "" "")) pr_Entries
  = [(1, "cyd"); (2, "bob"); (3, "ann")].
Proof. vm_compute. reflexivity. Qed.

(** What the second page says after the player its token was minted from is banned:
    "ann" stands second, and is shown third. *)
Definition bobCursor : @Cursor uuid16_Uuid :=
  {| cu_Score := 200; cu_AchievedAt := 9000; cu_UserID := playerID 2 |}.
Definition bobPosition : position := positionAt (packed 200 9) 9 (playerID 2).
Definition bobToken : string := encodeCursor bobCursor.

Lemma packed_order_is_ranking_witness :
  outranks (positionAt (packed 200 7) 7 (playerID 3)) (positionAt (packed 200 9) 9 (playerID 2)) = true.
Proof.
  destruct (packed_order_is_ranking (positionAt 200 7 (playerID 3)) (positionAt 200 9 (playerID 2)))
    as (kp & kq & Ep & Eq & E); [reflexivity|reflexivity|unfold epoch_ok; cbn; lia..|].
  vm_compute in Ep, Eq. injection Ep as <-. injection Eq as <-. etransitivity; [|etransitivity; [exact E|]].
  all: vm_compute; reflexivity.
Defined.

Lemma continuation_ranks_witness :
  snd <$> ranking (smallBoard [banOf 2]) smallKey = ["cyd"; "ann"]
  /\ namesOn (handlePage (fun _ => smallBoard [banOf 2]) smallKey None (askAfter "2" bobToken)) pr_Entries = [(3, "ann")]
  /\ exists r, handlePage (fun _ => smallBoard [banOf 2]) smallKey None (askAfter "2" bobToken) = JSON r
    /\ forall i e, pr_Entries r !! i = Some e -> exists j rn, ranking (smallBoard [banOf 2]) smallKey !! j = Some rn
      /\ e = withRank (Z.of_nat j + 2) (rowToEntry rn).
Proof.
  split; [vm_compute; reflexivity|]. split; [vm_compute; reflexivity|].
  assert (cursor_row_there (smallBoard [banOf 2]) smallKey bobPosition = false) as Ec by (vm_compute; reflexivity).
  assert (decodeCursor bobToken = Some bobCursor) as Hd by (apply decode_encodeCursor; cbn; lia).
  destruct (continuation_ranks (smallBoard [banOf 2]) (smallBoard_ok _) smallKey "2" bobToken None
    time15 bobCursor bobPosition eq_refl Hd eq_refl) as (r & Er & Hr).
  exists r. split; [exact Er|]. intros i e Hi. destruct (Hr i e Hi) as (j & rn & Hj & _ & Ee).
  exists j, rn. split; [exact Hj|]. rewrite Ee. change (Key time15) with smallKey. rewrite Ec.
  f_equal. lia.
Defined.

Lemma pages_list_the_board_witness :
  exists pages, walk 4 (fetchPage (smallBoard []) smallKey "1" None) None = Some pages
    /\ (fun e => (en_Rank e, en_DisplayName e)) <$> concat pages = [(1, "cyd"); (2, "bob"); (3, "ann")].
Proof.
  destruct (pages_list_the_board (smallBoard []) (smallBoard_ok []) smallKey "1" None time15)
    as (pages & rows & Hw & Hc & _); [reflexivity|].
  destruct (walk 4 (fetchPage (smallBoard []) smallKey "1" None) None) as [pages'|] eqn:E.
  - exists pages'. split; [reflexivity|].
    assert ((fun pages => (fun e => (en_Rank e, en_DisplayName e)) <$> concat pages)
      <$> walk 4 (fetchPage (smallBoard []) smallKey "1" None) None
      = Some [(1, "cyd"); (2, "bob"); (3, "ann")]) as Ev by (vm_compute; reflexivity).
    rewrite E in Ev. cbn [fmap option_fmap option_map] in Ev. injection Ev as Ev. exact Ev.
  - exfalso. assert ((match walk 4 (fetchPage (smallBoard []) smallKey "1" None) None with Some _ => true | None => false end)
      = true) as G by (vm_compute; reflexivity). rewrite E in G. discriminate.
Defined.

Lemma own_row_witness :
  namesOn (handleMe (fun _ => smallBoard []) smallKey (Some (playerID 2))) (fun p => [p.2]) = [(2, "bob")]
  /\ handleMe (fun _ => smallBoard [banOf 2]) smallKey (Some (playerID 2)) = NoContent.
Proof.
  split; [vm_compute; reflexivity|].
  refine (proj2 (own_row (smallBoard [banOf 2]) (smallBoard_ok _) smallKey (Some (playerID 2)) time15 eq_refl) _).
  intros rn (_ & _ & Hb & _)%ranking_row E. rewrite E in Hb. vm_compute in Hb. discriminate.
Defined.

Lemma window_around_me_witness :
  namesOn (handlePage (fun _ => smallBoard []) smallKey (Some (playerID 2)) (askAround "3" "me")) pr_Entries
    = [(1, "cyd"); (2, "bob"); (3, "ann")]
  /\ exists r lo, handlePage (fun _ => smallBoard []) smallKey (Some (playerID 2)) (askAround "3" "me") = JSON r
    /\ pr_Entries r = take 3 (drop lo (served (smallBoard []) smallKey)).
Proof.
  split; [vm_compute; reflexivity|].
  destruct (ranking (smallBoard []) smallKey !! 1%nat) as [rn|] eqn:E.
  - assert ((fun rn => bool_decide (rw_UserID rn.1 = playerID 2)) <$> ranking (smallBoard []) smallKey !! 1%nat = Some true)
      as Eu by (vm_compute; reflexivity). rewrite E in Eu. injection Eu as Eu. apply bool_decide_eq_true in Eu.
    destruct (window_around_me (smallBoard []) (smallBoard_ok []) smallKey "3" time15 1 rn eq_refl E)
      as (r & lo & Er & Ee & _). rewrite Eu in Er. exists r, lo. split; [exact Er|exact Ee].
  - exfalso. assert (length (ranking (smallBoard []) smallKey) = 3%nat) as El by (vm_compute; reflexivity).
    apply lookup_ge_None in E. lia.
Defined.

(** Between the two statements of an upward page the players it found can be banned:
    the page then ranks its rows -1 and 0. *)
Lemma upward_rank_below_one :
  namesOn (handleBefore (fun i => match i with O => smallBoard [] | _ => smallBoard [banOf 2; banOf 3] end) time15
    (cursorOf (rowToEntry ({| rw_BucketKey := smallKey; rw_UserID := playerID 1; rw_Entry := slotRow 4 100 1 |}, "ann"))) 2)
    pr_Entries = [(-1, "cyd"); (0, "bob")].
Proof. vm_compute. reflexivity. Qed.

(** A hand-made cursor can make the key's computation fail: the answer is a 500, not
    the 400 of a malformed cursor. *)
Lemma crafted_cursor_fails :
  match handlePage (fun _ => smallBoard []) smallKey None
    (askAfter "" (encodeCursor {| cu_Score := - 2 ^ 31; cu_AchievedAt := 1000000000; cu_UserID := playerID 1 |}))
  with Refuse e => errStatus e | _ => 200 end = 500.
Proof. vm_compute. reflexivity. Qed.
