(* ===== verification/Keyboard.v ===== *)
(** * internal/keyboard: layouts, and the keyboard profile kept with the verdicts

    keyboard.go parses the layouts asset into the mapping from characters to physical
    keys; pgstore folds a replay's observations through it into the rows of
    [user_keyboard_profile], inside the verdict's transaction, at most once per run:
    [keyboard_projected_runs] holds the runs that are counted. *)

From S2P Require Import Prelude GoStd Json Uuid AuthText Runs Policy Core Decide RunStore RunLife.

Open Scope Z_scope.

(** ** keyboard.go: the asset *)

Definition OtherKey := "other".

Record Key := {
  ky_ID : string; ky_Row : Z; ky_Col : Z; ky_Finger : string; ky_Hand : string; ky_Chars : list string;
  ky_Width : Z }.
Record Layout := { ly_Name : string; ly_Label : string; ly_Keys : list Key }.

Definition zero_Key : Key :=
  {| ky_ID := ""; ky_Row := 0; ky_Col := 0; ky_Finger := ""; ky_Hand := ""; ky_Chars := []; ky_Width := 0 |}.
Definition zero_Layout : Layout := {| ly_Name := ""; ly_Label := ""; ly_Keys := [] |}.

Definition dec_Key : Json.decoder Key :=
  Json.dec_struct ["id"; "row"; "col"; "finger"; "hand"; "chars"; "width"] (fun f =>
    let put i r c fi h ch w := {| ky_ID := i; ky_Row := r; ky_Col := c; ky_Finger := fi; ky_Hand := h;
                                  ky_Chars := ch; ky_Width := w |} in
    if f =s? "id" then Json.field ky_ID (fun v k =>
      put v (ky_Row k) (ky_Col k) (ky_Finger k) (ky_Hand k) (ky_Chars k) (ky_Width k)) Json.dec_string
    else if f =s? "row" then Json.field ky_Row (fun v k =>
      put (ky_ID k) v (ky_Col k) (ky_Finger k) (ky_Hand k) (ky_Chars k) (ky_Width k)) (Json.dec_int 64)
    else if f =s? "col" then Json.field ky_Col (fun v k =>
      put (ky_ID k) (ky_Row k) v (ky_Finger k) (ky_Hand k) (ky_Chars k) (ky_Width k)) (Json.dec_int 64)
    else if f =s? "finger" then Json.field ky_Finger (fun v k =>
      put (ky_ID k) (ky_Row k) (ky_Col k) v (ky_Hand k) (ky_Chars k) (ky_Width k)) Json.dec_string
    else if f =s? "hand" then Json.field ky_Hand (fun v k =>
      put (ky_ID k) (ky_Row k) (ky_Col k) (ky_Finger k) v (ky_Chars k) (ky_Width k)) Json.dec_string
    else if f =s? "chars" then Json.field ky_Chars (fun v k =>
      put (ky_ID k) (ky_Row k) (ky_Col k) (ky_Finger k) (ky_Hand k) v (ky_Width k))
        (Json.dec_list Json.dec_string "")
    else Json.field ky_Width (fun v k =>
      put (ky_ID k) (ky_Row k) (ky_Col k) (ky_Finger k) (ky_Hand k) (ky_Chars k) v) (Json.dec_int 64)).

Definition dec_Layout : Json.decoder Layout :=
  Json.dec_struct ["name"; "label"; "keys"] (fun f =>
    if f =s? "name" then Json.field ly_Name (fun v l =>
      {| ly_Name := v; ly_Label := ly_Label l; ly_Keys := ly_Keys l |}) Json.dec_string
    else if f =s? "label" then Json.field ly_Label (fun v l =>
      {| ly_Name := ly_Name l; ly_Label := v; ly_Keys := ly_Keys l |}) Json.dec_string
    else Json.field ly_Keys (fun v l =>
      {| ly_Name := ly_Name l; ly_Label := ly_Label l; ly_Keys := v |}) (Json.dec_list dec_Key zero_Key)).

(** [Load]'s errors; the directory is embedded, so reading it does not fail. *)
Inductive loadError :=
| ErrParse (file : string)
| ErrIncomplete (file : string)
| ErrTwoKeys (layout char prev id : string)
| ErrMissing (layout : string).

Abbreviation keyIndex := (gmap string string).

(** The inner loops: the characters of a key, the keys of a layout. *)
Fixpoint indexChars (layout id : string) (chars : list string) (index : keyIndex) : keyIndex + loadError :=
  match chars with
  | [] => inl index
  | ch :: chars =>
    match index !! ch with
    | Some prev => if prev =s? id then indexChars layout id chars (<[ch := id]> index)
                   else inr (ErrTwoKeys layout ch prev id)
    | None => indexChars layout id chars (<[ch := id]> index)
    end
  end.

Fixpoint indexKeys (layout : string) (keys : list Key) (index : keyIndex) : keyIndex + loadError :=
  match keys with
  | [] => inl index
  | k :: keys =>
    match indexChars layout (ky_ID k) (ky_Chars k) index with
    | inr e => inr e
    | inl index => indexKeys layout keys index
    end
  end.

Record Layouts := { ls_all : list Layout; ls_byName : gmap string keyIndex }.

Fixpoint loadFiles (files : list (string * option json)) (l : Layouts) : Layouts + loadError :=
  match files with
  | [] => inl l
  | (name, body) :: files =>
    if negb (Strs.HasSuffix ".json" name) then loadFiles files l
    else
      match body ≫= Json.unmarshal dec_Layout zero_Layout with
      | None => inr (ErrParse name)
      | Some layout =>
        if (ly_Name layout =s? "") || bool_decide (ly_Keys layout = []) then inr (ErrIncomplete name)
        else
          match indexKeys (ly_Name layout) (ly_Keys layout) ∅ with
          | inr e => inr e
          | inl index =>
            loadFiles files {| ls_all := ls_all l ++ [layout];
                               ls_byName := <[ly_Name layout := index]> (ls_byName l) |}
          end
      end
  end.

Definition Load (files : list (string * option json)) : Layouts + loadError :=
  match loadFiles files {| ls_all := []; ls_byName := ∅ |} with
  | inr e => inr e
  | inl l =>
    match ls_byName l !! "qwerty", ls_byName l !! "jcuken" with
    | None, _ => inr (ErrMissing "qwerty")
    | _, None => inr (ErrMissing "jcuken")
    | Some _, Some _ => inl l
    end
  end.

(** The table behind [strings.ToLower] beyond ASCII. *)
Class LowerTable := { lower_table : Z -> Z }.

Section keys.
Context `{LowerTable}.

Definition LayoutFor (lang : string) : string :=
  let lower := ToLower lower_table lang in
  if Strs.HasPrefix "ru" lower || Strs.Contains "russian" lower then "jcuken" else "qwerty".

Definition KeyOf (l : Layouts) (lang char : string) : string :=
  default OtherKey (ls_byName l !! LayoutFor lang ≫= fun index => index !! char).
End keys.

(** ** pgstore: the rows *)

Record keyRow := { kr_Presses : Z; kr_Errors : Z; kr_IntervalSumMs : F64.f64; kr_IntervalCount : Z }.

Section rows.
Context `{Uuid}.

Record kbTables := { kb_rows : gmap (UUID * string) keyRow; kb_stamps : gset UUID }.

Definition noKeys : kbTables := {| kb_rows := ∅; kb_stamps := ∅ |}.

(** [keyDelta] has the columns of a row. *)
Definition zero_keyDelta : keyRow :=
  {| kr_Presses := 0; kr_Errors := 0; kr_IntervalSumMs := F64.zero; kr_IntervalCount := 0 |}.

(** PostgreSQL's [bigint] and [float8] addition: out of range is an error. *)
Definition int8_add (a b : Z) : option Z :=
  let s := a + b in if (- 2 ^ 63 <=? s) && (s <? 2 ^ 63) then Some s else None.
Definition is_inf (x : F64.f64) : bool := match x with SpecFloat.S754_infinity _ => true | _ => false end.
Definition float8_add (a b : F64.f64) : option F64.f64 :=
  let s := F64.add a b in if is_inf s && negb (is_inf a) && negb (is_inf b) then None else Some s.
Definition float8_sub (a b : F64.f64) : option F64.f64 :=
  let s := F64.sub a b in if is_inf s && negb (is_inf a) && negb (is_inf b) then None else Some s.

(** [GREATEST(0, x)]: PostgreSQL's NaN is above everything. *)
Definition greatest0 (x : F64.f64) : F64.f64 :=
  if F64.is_nan x || F64.ltb F64.zero x then x else F64.zero.

(** The table's CHECKs. *)
Definition keyChecks (r : keyRow) : bool :=
  (0 <=? kr_Presses r) && (0 <=? kr_Errors r) && (0 <=? kr_IntervalCount r).

(** One row of INSERT .. ON CONFLICT DO UPDATE. *)
Definition addTo (r d : keyRow) : option keyRow :=
  p ← int8_add (kr_Presses r) (kr_Presses d);
  e ← int8_add (kr_Errors r) (kr_Errors d);
  s ← float8_add (kr_IntervalSumMs r) (kr_IntervalSumMs d);
  c ← int8_add (kr_IntervalCount r) (kr_IntervalCount d);
  Some {| kr_Presses := p; kr_Errors := e; kr_IntervalSumMs := s; kr_IntervalCount := c |}.

Definition upsertKey (user : UUID) (kd : string * keyRow) (rows : gmap (UUID * string) keyRow)
    : option (gmap (UUID * string) keyRow) :=
  r ← match rows !! (user, kd.1) with None => Some kd.2 | Some r => addTo r kd.2 end;
  if keyChecks r && keyChecks kd.2 then Some (<[(user, kd.1) := r]> rows) else None.

(** One row of the reversing UPDATE. *)
Definition takeFrom (r d : keyRow) : option keyRow :=
  p ← int8_add (kr_Presses r) (- kr_Presses d);
  e ← int8_add (kr_Errors r) (- kr_Errors d);
  s ← float8_sub (kr_IntervalSumMs r) (kr_IntervalSumMs d);
  c ← int8_add (kr_IntervalCount r) (- kr_IntervalCount d);
  Some {| kr_Presses := Z.max 0 p; kr_Errors := Z.max 0 e; kr_IntervalSumMs := greatest0 s;
          kr_IntervalCount := Z.max 0 c |}.

Definition reverseKey (user : UUID) (kd : string * keyRow) (rows : gmap (UUID * string) keyRow)
    : option (gmap (UUID * string) keyRow) :=
  match rows !! (user, kd.1) with
  | None => Some rows
  | Some r => r ← takeFrom r kd.2; Some (<[(user, kd.1) := r]> rows)
  end.

(** A statement over the unnested arrays.  Go's map gives them in any order; the keys
    are distinct, so the order makes no difference. *)
Fixpoint eachKey (f : string * keyRow -> gmap (UUID * string) keyRow -> option (gmap (UUID * string) keyRow))
    (ds : list (string * keyRow)) (rows : gmap (UUID * string) keyRow)
    : option (gmap (UUID * string) keyRow) :=
  match ds with
  | [] => Some rows
  | kd :: ds => rows ← f kd rows; eachKey f ds rows
  end.

End rows.

Section project.
Context `{Uuid} `{GameCore} `{LowerTable}.

(** The fold of the observations onto physical keys. *)
Definition addObservation (l : Layouts) (lang : string) (ds : gmap string keyRow) (o : CharObservation)
    : gmap string keyRow :=
  let id := KeyOf l lang (co_Char o) in
  let d := default zero_keyDelta (ds !! id) in
  <[id := {| kr_Presses := Int.int64 (kr_Presses d + co_Presses o);
             kr_Errors := Int.int64 (kr_Errors d + co_Errors o);
             kr_IntervalSumMs := F64.add (kr_IntervalSumMs d) (co_IntervalSumMs o);
             kr_IntervalCount := Int.int64 (kr_IntervalCount d + co_IntervalCount o) |}]> ds.

Definition keyDeltas (l : Layouts) (lang : string) (obs : list CharObservation) : gmap string keyRow :=
  foldl (addObservation l lang) ∅ obs.

Definition ProjectKeyboard (l : Layouts) (tb : tables) (runID : UUID) (accepted : bool)
    (observations : list CharObservation) (kb : kbTables) : option kbTables :=
  match tb_runs tb !! runID with
  | None => None
  | Some r =>
    let userID := cp_UserID (rr_Params r) in
    let lang := cp_Lang (rr_Params r) in
    let stamped := bool_decide (runID ∈ kb_stamps kb) in
    let seen := (0 <? length observations)%nat in
    let add := accepted && negb stamped && seen in
    let reverse := negb accepted && stamped && seen in
    if negb add && negb reverse then Some kb
    else
      let deltas := map_to_list (keyDeltas l lang observations) in
      if add then
        rows ← eachKey (upsertKey userID) deltas (kb_rows kb);
        Some {| kb_rows := rows; kb_stamps := {[ runID ]} ∪ kb_stamps kb |}
      else
        rows ← eachKey (reverseKey userID) deltas (kb_rows kb);
        Some {| kb_rows := rows; kb_stamps := kb_stamps kb ∖ {[ runID ]} |}
  end.

(** Both tables cascade: rows with their account, stamps with their run. *)
Definition ForgetKeys (u : UUID) (tb : tables) (kb : kbTables) : kbTables :=
  {| kb_rows := filter (fun kv => kv.1.1 <> u) (kb_rows kb);
     kb_stamps := filter (fun id => ~ ownedBy u tb id) (kb_stamps kb) |}.

(** A deployment that keeps the keyboard profile ([WithKeyboard]). *)
Definition keyboardProjection (l : Layouts) : Projection :=
  {| Proj := kbTables; RunStore.ProjectRun := None;
     RunStore.ProjectKeyboard := Some (ProjectKeyboard l); RunStore.ForgetUser := ForgetKeys |}.
End project.
