(* ===== verification/KeyboardProps.v ===== *)
(** * The keyboard profile counts every accepted run once

    What the layouts map a character to; that adding and taking back a contribution are
    inverse on the counts; and that in every reachable state of the verdict's transactions
    the rows are the sum of the runs that are stamped.  The witnesses, on a layout of one
    key, are at the end. *)

From S2P Require Import Prelude GoStd Uuid Json AuthText Runs Policy Core Registry Decide Worker RunStore RunLife RunProps Board BoardGaps Keyboard.

Open Scope Z_scope.

(** ** Layouts *)

(** What a key index holds: a character some key of the list carries, with its id. *)
Definition carries (keys : list Key) (ch id : string) : Prop :=
  exists k, k ∈ keys /\ ch ∈ ky_Chars k /\ ky_ID k = id.

Lemma indexChars_spec layout id chars index index' :
  indexChars layout id chars index = inl index' ->
  (forall ch, ch ∈ chars -> index' !! ch = Some id)
  /\ forall ch, ch ∉ chars -> index' !! ch = index !! ch.
Proof.
  revert index. induction chars as [|c chars IH]; intros index; cbn.
  { intros [= <-]. split; [by intros ? ?%elem_of_nil|done]. }
  intros Hi. assert (indexChars layout id chars (<[c := id]> index) = inl index') as [Ha Hb]%IH.
  { destruct (index !! c) as [prev|]; [|done]. by destruct (prev =s? id). }
  assert (index' !! c = Some id) as Hc.
  { destruct (decide (c ∈ chars)) as [Hin|Hn]; [by apply Ha|]. rewrite Hb by done. by rewrite lookup_insert_eq. }
  split.
  - intros ch [->|Hin]%elem_of_cons; [done|by apply Ha].
  - intros ch [Hne Hin]%not_elem_of_cons. rewrite Hb by done. by rewrite lookup_insert_ne by congruence.
Qed.

(** A character two keys carry is refused, so an entry never changes. *)
Lemma indexChars_keeps layout id chars index index' ch i :
  indexChars layout id chars index = inl index' -> index !! ch = Some i -> index' !! ch = Some i.
Proof.
  revert index. induction chars as [|c chars IH]; intros index; cbn; [by intros [= <-]|].
  intros Hi Hc. destruct (decide (c = ch)) as [->|Hne].
  - rewrite Hc in Hi. destruct (String.eqb_spec i id) as [->|]; [|done].
    apply (IH _ Hi). by rewrite lookup_insert_eq.
  - apply (IH (<[c := id]> index)); [|by rewrite lookup_insert_ne].
    destruct (index !! c) as [prev|]; [|done]. by destruct (prev =s? id).
Qed.

Lemma indexKeys_spec layout keys index index' :
  indexKeys layout keys index = inl index' ->
  (forall ch i, index !! ch = Some i -> index' !! ch = Some i)
  /\ (forall ch i, carries keys ch i -> index' !! ch = Some i)
  /\ forall ch i, index' !! ch = Some i -> index !! ch = Some i \/ carries keys ch i.
Proof.
  revert index. induction keys as [|k keys IH]; intros index; cbn.
  { intros [= <-]. split_and!; [done| |by left]. by intros ch i (k & ?%elem_of_nil & _). }
  destruct (indexChars _ _ _ _) as [index1|] eqn:E1; [|done]. intros (Hk & Hc & Hd)%IH.
  destruct (indexChars_spec _ _ _ _ _ E1) as [Ha Hb]. split_and!.
  - intros ch i Hi. apply Hk. by eapply indexChars_keeps.
  - intros ch i (k' & [->|Hin]%elem_of_cons & Hch & <-); [by apply Hk, Ha|]. apply Hc. by exists k'.
  - intros ch i [Hi|(k' & Hin & Hch)]%Hd; [|right; exists k'; by split; [right|]].
    destruct (decide (ch ∈ ky_Chars k)) as [Hin|Hn]; [|left; by rewrite <- Hb].
    rewrite Ha in Hi by done. injection Hi as <-. right. exists k. by split; [left|].
Qed.

Definition indexed (l : Layouts) : Prop :=
  forall name index, ls_byName l !! name = Some index ->
  exists layout, layout ∈ ls_all l /\ ly_Name layout = name
    /\ forall ch i, index !! ch = Some i <-> carries (ly_Keys layout) ch i.

Lemma loadFiles_indexed files l l' : loadFiles files l = inl l' -> indexed l -> indexed l'.
Proof.
  revert l. induction files as [|[name body] files IH]; intros l; cbn; [by intros [= <-]|].
  destruct (negb _); [apply IH|]. destruct (body ≫= _) as [layout|]; [|done].
  destruct (_ || _); [done|]. destruct (indexKeys _ _ _) as [index|] eqn:Ei; [|done].
  intros Hl Hx. apply (IH _ Hl). apply indexKeys_spec in Ei as (_ & Hc & Hd).
  intros n ix. cbn. intros [[<- <-]|[Hne Hn]]%lookup_insert_Some.
  - exists layout. split_and!; [apply elem_of_app; right; by apply list_elem_of_singleton|done|].
    intros ch i. split; [|apply Hc]. by intros [?%lookup_empty_Some|?]%Hd.
  - destruct (Hx _ _ Hn) as (ly & Hin & Hrest). exists ly. split; [|done]. apply elem_of_app. by left.
Qed.

Section layouts.
Context `{LowerTable}.

(** A character is counted for the key that carries it.  When the asset loads, both
    layouts are there, and [KeyOf] answers the id every key that carries the character
    has in the layout of the run's language, and the reserved id when none does. *)
Theorem key_of_carrier (files : list (string * option json)) (l : Layouts) (lang ch : string) :
  Load files = inl l ->
  exists layout, layout ∈ ls_all l /\ ly_Name layout = LayoutFor lang
    /\ (forall id, carries (ly_Keys layout) ch id -> KeyOf l lang ch = id)
    /\ ((forall id, ~ carries (ly_Keys layout) ch id) -> KeyOf l lang ch = OtherKey).
Proof.
  unfold Load. destruct (loadFiles _ _) as [l'|] eqn:Hf; [|done]. intros Hl.
  assert (indexed l') as Hx by (eapply loadFiles_indexed; [exact Hf|]; intros n ix; cbn; by intros ?%lookup_empty_Some).
  destruct (ls_byName l' !! "qwerty") as [q|] eqn:Eq; [|done].
  destruct (ls_byName l' !! "jcuken") as [j|] eqn:Ej; [|done]. injection Hl as <-.
  assert (exists ix, ls_byName l' !! LayoutFor lang = Some ix) as [ix Eix].
  { unfold LayoutFor. destruct (_ || _); eauto. }
  destruct (Hx _ _ Eix) as (layout & Hin & Hname & Hch). exists layout. split_and!; [done..| |].
  - intros id Hc%Hch. unfold KeyOf. rewrite Eix. cbn. by rewrite Hc.
  - intros Hn. unfold KeyOf. rewrite Eix. cbn. destruct (ix !! ch) as [i|] eqn:E; [|done].
    exfalso. by eapply Hn, Hch.
Qed.
End layouts.

(** ** Counts *)

(** The three integer columns. *)
Inductive column := Presses | Errors | Intervals.

Definition row_of (c : column) (r : keyRow) : Z :=
  match c with Presses => kr_Presses r | Errors => kr_Errors r | Intervals => kr_IntervalCount r end.
Definition obs_of (c : column) (o : CharObservation) : Z :=
  match c with Presses => co_Presses o | Errors => co_Errors o | Intervals => co_IntervalCount o end.

(** What the deltas say of a key. *)
Definition deltaOf (c : column) (k : string) (ds : list (string * keyRow)) : Z :=
  sumOf (fun kd => if decide (kd.1 = k) then row_of c kd.2 else 0) ds.

Lemma deltaOf_map c k (m : gmap string keyRow) :
  deltaOf c k (map_to_list m) = default 0 (row_of c <$> m !! k).
Proof.
  unfold deltaOf. induction m as [|i r m Hi IH] using map_ind.
  { by rewrite map_to_list_empty, lookup_empty. }
  rewrite (sumOf_perm _ _ _ (map_to_list_insert m i r Hi)), sumOf_cons, IH. cbn.
  case_decide as Hk; [subst; by rewrite lookup_insert_eq, Hi; cbn; lia|].
  by rewrite lookup_insert_ne.
Qed.

Section rows.
Context `{Uuid}.

Definition countAt (c : column) (rows : gmap (UUID * string) keyRow) (u : UUID) (k : string) : Z :=
  default 0 (row_of c <$> rows !! (u, k)).

Lemma int8_add_Some a b s : int8_add a b = Some s -> s = a + b.
Proof. unfold int8_add. destruct (_ && _); [by intros [= <-]|done]. Qed.

Lemma addTo_count c r d r' : addTo r d = Some r' -> row_of c r' = row_of c r + row_of c d.
Proof.
  unfold addTo. intros (p & Hp%int8_add_Some & H1)%bind_Some. apply bind_Some in H1 as (e & He%int8_add_Some & H1).
  apply bind_Some in H1 as (s & _ & H1). apply bind_Some in H1 as (n & Hn%int8_add_Some & [= <-]).
  by destruct c.
Qed.

Lemma takeFrom_count c r d r' : takeFrom r d = Some r' -> row_of c r' = Z.max 0 (row_of c r - row_of c d).
Proof.
  unfold takeFrom. intros (p & Hp%int8_add_Some & H1)%bind_Some. apply bind_Some in H1 as (e & He%int8_add_Some & H1).
  apply bind_Some in H1 as (s & _ & H1). apply bind_Some in H1 as (n & Hn%int8_add_Some & [= <-]).
  destruct c; cbn; f_equal; lia.
Qed.

Lemma countAt_insert c rows u k r u' k' :
  countAt c (<[(u, k) := r]> rows) u' k'
  = if decide (u' = u /\ k' = k) then row_of c r else countAt c rows u' k'.
Proof.
  unfold countAt. case_decide as Hd.
  - destruct Hd as [-> ->]. by rewrite lookup_insert_eq.
  - rewrite lookup_insert_ne; [done|]. intros [= -> ->]. by apply Hd.
Qed.

Lemma upsertKey_count c u kd rows rows' u' k' :
  upsertKey u kd rows = Some rows' ->
  countAt c rows' u' k' = countAt c rows u' k'
    + (if decide (u' = u) then (if decide (kd.1 = k') then row_of c kd.2 else 0) else 0).
Proof.
  unfold upsertKey. intros (r & Hr & Hc)%bind_Some. destruct (_ && _); [|done]. injection Hc as <-.
  rewrite countAt_insert. destruct (decide (u' = u)) as [->|]; [|rewrite decide_False by tauto; lia].
  destruct (decide (kd.1 = k')) as [<-|Hk]; [|rewrite decide_False by naive_solver; lia].
  rewrite decide_True by done. unfold countAt. destruct (rows !! (u, kd.1)) as [r0|].
  - apply (addTo_count c) in Hr. cbn. lia.
  - injection Hr as <-. cbn. lia.
Qed.

(** The adding statement adds. *)
Lemma upserts_count c u ds rows rows' u' k' :
  eachKey (upsertKey u) ds rows = Some rows' ->
  countAt c rows' u' k' = countAt c rows u' k' + (if decide (u' = u) then deltaOf c k' ds else 0).
Proof.
  revert rows. induction ds as [|kd ds IH]; intros rows; cbn [eachKey].
  { intros [= <-]. case_decide; cbn; lia. }
  intros (rows1 & Hu & He)%bind_Some. rewrite (IH _ He), (upsertKey_count _ _ _ _ _ _ _ Hu).
  unfold deltaOf. rewrite sumOf_cons. case_decide; lia.
Qed.

(** The reversing statement takes away what was there. *)
Lemma reverses_count c u ds rows rows' u' k' :
  (forall kd, kd ∈ ds -> 0 <= row_of c kd.2) ->
  eachKey (reverseKey u) ds rows = Some rows' ->
  deltaOf c k' ds <= countAt c rows u k' ->
  countAt c rows' u' k' = countAt c rows u' k' - (if decide (u' = u) then deltaOf c k' ds else 0).
Proof.
  revert rows. induction ds as [|kd ds IH]; intros rows Hpos; cbn [eachKey].
  { intros [= <-]. case_decide; cbn; lia. }
  intros (rows1 & Hu & He)%bind_Some. unfold deltaOf. rewrite sumOf_cons. fold (deltaOf c k' ds).
  pose proof (Hpos kd ltac:(left)) as Hkd. assert (forall kd', kd' ∈ ds -> 0 <= row_of c kd'.2) as Hpos'.
  { intros kd' Hin. apply Hpos. by right. }
  assert (0 <= deltaOf c k' ds) as Hd.
  { apply sumOf_nonneg. intros kd' Hin. destruct (decide (kd'.1 = k')); [by apply Hpos'|done]. }
  intros Hle. unfold reverseKey in Hu. destruct (rows !! (u, kd.1)) as [r|] eqn:Er.
  - apply bind_Some in Hu as (r' & Hr & [= <-]). apply (takeFrom_count c) in Hr.
    rewrite (IH _ Hpos' He); rewrite !countAt_insert; repeat case_decide; destruct_and?; subst; try tauto;
      unfold countAt in *; rewrite ?Er in *; cbn in *; lia.
  - injection Hu as <-. rewrite (IH _ Hpos' He); [|case_decide; lia].
    case_decide; [|done]. subst. case_decide; [|lia]. subst. unfold countAt in *. rewrite Er in Hle |- *. cbn in *. lia.
Qed.
End rows.

(** ** Contributions *)

Section contributions.
Context `{Uuid} `{GameCore} `{LowerTable} (l : Layouts).

(** What a run's observations say of a key. *)
Definition seenOf (c : column) (lang k : string) (obs : list CharObservation) : Z :=
  sumOf (fun o => if decide (KeyOf l lang (co_Char o) = k) then obs_of c o else 0) obs.

(** Counts of key strokes: never negative, and of a log that fits in memory. *)
Definition modest (obs : list CharObservation) : Prop :=
  forall c, (forall o, o ∈ obs -> 0 <= obs_of c o) /\ sumOf (obs_of c) obs < 2 ^ 63.

Definition deltaAt (c : column) (ds : gmap string keyRow) (k : string) : Z :=
  default 0 (row_of c <$> ds !! k).

Lemma addObservation_count c lang ds o k :
  let id := KeyOf l lang (co_Char o) in
  deltaAt c (addObservation l lang ds o) k
  = if decide (id = k) then Int.int64 (deltaAt c ds k + obs_of c o) else deltaAt c ds k.
Proof.
  cbn zeta. unfold addObservation, deltaAt. cbn zeta. destruct (decide (_ = k)) as [->|Hne].
  - rewrite lookup_insert_eq. cbn. destruct (ds !! k) as [d|]; by destruct c.
  - by rewrite lookup_insert_ne.
Qed.

Lemma foldObservations c lang obs : forall ds,
  (forall o, o ∈ obs -> 0 <= obs_of c o) -> (forall k, 0 <= deltaAt c ds k) ->
  (forall k, deltaAt c ds k + sumOf (obs_of c) obs < 2 ^ 63) ->
  forall k, deltaAt c (foldl (addObservation l lang) ds obs) k = deltaAt c ds k + seenOf c lang k obs.
Proof.
  induction obs as [|o obs IH]; intros ds Hpos Hd Hb k; cbn [foldl]; [by cbn; lia|].
  unfold seenOf. rewrite sumOf_cons. fold (seenOf c lang k obs).
  pose proof (Hpos o ltac:(left)) as Ho.
  assert (forall k, deltaAt c (addObservation l lang ds o) k
    = deltaAt c ds k + (if decide (KeyOf l lang (co_Char o) = k) then obs_of c o else 0)) as Ha.
  { intros k'. rewrite addObservation_count. case_decide; [|lia]. apply Int.wrap_id; [lia|].
    specialize (Hd k'). specialize (Hb k'). rewrite sumOf_cons in Hb.
    pose proof (sumOf_nonneg (obs_of c) obs (fun o' Ho' => Hpos o' ltac:(by right))). split; lia. }
  rewrite IH; [rewrite Ha; lia|intros o' Ho'; apply Hpos; by right| |].
  - intros k'. rewrite Ha. specialize (Hd k'). case_decide; lia.
  - intros k'. rewrite Ha. specialize (Hd k'). specialize (Hb k'). rewrite sumOf_cons in Hb. case_decide; lia.
Qed.

Lemma keyDeltas_count c lang obs k :
  modest obs -> deltaAt c (keyDeltas l lang obs) k = seenOf c lang k obs.
Proof.
  intros Hm. destruct (Hm c) as [Hpos Hb]. unfold keyDeltas.
  rewrite (foldObservations c); unfold deltaAt; try done; intros; rewrite lookup_empty; cbn; lia.
Qed.

Lemma seenOf_nonneg c lang k obs : modest obs -> 0 <= seenOf c lang k obs.
Proof. intros Hm. apply sumOf_nonneg. intros o Ho. case_decide; [by apply (Hm c)|done]. Qed.

Lemma keyDeltas_nonneg c lang obs kd :
  modest obs -> kd ∈ map_to_list (keyDeltas l lang obs) -> 0 <= row_of c kd.2.
Proof.
  intros Hm Hin. destruct kd as [k d]. apply elem_of_map_to_list in Hin.
  pose proof (keyDeltas_count c lang obs k Hm) as Hk. unfold deltaAt in Hk. rewrite Hin in Hk. cbn in Hk |- *.
  rewrite Hk. by apply seenOf_nonneg.
Qed.

(** What one call of the projector does: nothing, or it counts the run, or it takes the
    run's counts back. *)
Inductive projected (tb : tables) (id : UUID) (r : runRow) (accepted : bool) (obs : list CharObservation)
    (kb kb' : kbTables) : Prop :=
| proj_same :
    kb' = kb ->
    obs = [] \/ (accepted = true <-> id ∈ kb_stamps kb) ->
    projected tb id r accepted obs kb kb'
| proj_added :
    accepted = true -> id ∉ kb_stamps kb -> obs <> [] -> kb_stamps kb' = {[ id ]} ∪ kb_stamps kb ->
    (forall c u k, countAt c (kb_rows kb') u k = countAt c (kb_rows kb) u k
       + if decide (u = cp_UserID (rr_Params r)) then seenOf c (cp_Lang (rr_Params r)) k obs else 0) ->
    projected tb id r accepted obs kb kb'
| proj_reversed :
    accepted = false -> id ∈ kb_stamps kb -> obs <> [] -> kb_stamps kb' = kb_stamps kb ∖ {[ id ]} ->
    (forall c u k,
       seenOf c (cp_Lang (rr_Params r)) k obs <= countAt c (kb_rows kb) (cp_UserID (rr_Params r)) k ->
       countAt c (kb_rows kb') u k = countAt c (kb_rows kb) u k
         - if decide (u = cp_UserID (rr_Params r)) then seenOf c (cp_Lang (rr_Params r)) k obs else 0) ->
    projected tb id r accepted obs kb kb'.

Lemma ProjectKeyboard_projected tb id r accepted obs kb kb' :
  tb_runs tb !! id = Some r -> modest obs ->
  ProjectKeyboard l tb id accepted obs kb = Some kb' -> projected tb id r accepted obs kb kb'.
Proof.
  intros Hr Hm. unfold ProjectKeyboard. rewrite Hr. cbn zeta.
  assert ((0 <? length obs)%nat = false <-> obs = []) as Hl by (by destruct obs).
  destruct (0 <? length obs)%nat eqn:El; rewrite ?andb_false_r, ?andb_true_r; cbn [negb andb].
  2:{ intros [= <-]. apply proj_same; [done|left; by apply Hl]. }
  assert (obs <> []) as Hne by (intros E; apply Hl in E; congruence).
  destruct accepted, (bool_decide (id ∈ kb_stamps kb)) eqn:Es; bool_to_prop; cbn [negb andb].
  - intros [= <-]. apply proj_same; [done|by right].
  - intros (rows & He & [= <-])%bind_Some. apply proj_added; [done..|]. intros c u k. cbn [kb_rows].
    rewrite (upserts_count c _ _ _ _ u k He), deltaOf_map. case_decide; [|done]. f_equal.
    by apply keyDeltas_count.
  - intros (rows & He & [= <-])%bind_Some. apply proj_reversed; [done..|]. intros c u k Hle. cbn [kb_rows].
    assert (deltaOf c k (map_to_list (keyDeltas l (cp_Lang (rr_Params r)) obs))
            = seenOf c (cp_Lang (rr_Params r)) k obs) as Hd by (rewrite deltaOf_map; by apply keyDeltas_count).
    pose proof (reverses_count c _ _ _ _ u k (fun kd => keyDeltas_nonneg c _ _ kd Hm) He) as Hrev.
    rewrite Hd in Hrev. by apply Hrev.
  - intros [= <-]. apply proj_same; [done|right; split; [done|by intros ?%Es]].
Qed.

(** C34: taking a contribution back undoes it.  A run that was counted when it was
    accepted, and is demoted by a replay that observes the same, leaves every count of
    every key of every account, and the set of counted runs, as they were before. *)
Theorem contribution_roundtrip (tb tb' : tables) (id : UUID) (r r' : runRow) (obs : list CharObservation)
    (kb kb1 kb2 : kbTables) (c : column) (u : UUID) (k : string) :
  tb_runs tb !! id = Some r -> tb_runs tb' !! id = Some r' -> rr_Params r' = rr_Params r ->
  modest obs -> obs <> [] -> id ∉ kb_stamps kb ->
  (forall c k, 0 <= countAt c (kb_rows kb) (cp_UserID (rr_Params r)) k) ->
  ProjectKeyboard l tb id true obs kb = Some kb1 -> ProjectKeyboard l tb' id false obs kb1 = Some kb2 ->
  id ∈ kb_stamps kb1 /\ kb_stamps kb2 = kb_stamps kb
  /\ countAt c (kb_rows kb2) u k = countAt c (kb_rows kb) u k.
Proof.
  intros Hr Hr' Ep Hm Hne Hs Hpos P1 P2.
  destruct (ProjectKeyboard_projected _ _ _ _ _ _ _ Hr Hm P1) as [_ [?|Hi]|_ _ _ E1 C1|]; [done|by destruct Hs; apply Hi| |done].
  assert (id ∈ kb_stamps kb1) as Hin by set_solver.
  destruct (ProjectKeyboard_projected _ _ _ _ _ _ _ Hr' Hm P2) as [_ [?|Hi]|?|_ _ _ E2 C2]; [done|by apply Hi in Hin|done|].
  split; [done|]. split; [set_solver|]. rewrite Ep in C2.
  rewrite C2, C1; [case_decide; lia|]. rewrite C1, decide_True by done. specialize (Hpos c k). lia.
Qed.
End contributions.

(** ** The rows are the sum of the counted runs *)

Section invariant.
Context `{Uuid} `{Gzip} `{GameCore} `{LowerTable} (l : Layouts).

#[local] Instance thisKeyboard : Projection := keyboardProjection l.

(** What replaying a submission observes: the same every time, while the deployment's
    jobs [J] use one bundle.  A replay that fails, or finds the log invalid, observes
    nothing. *)
Context (J : job -> Prop) (obs : CreateRunParams -> list CharObservation).

Record steady : Prop := {
  sd_modest p : modest (obs p);
  sd_same j id r : J j ->
    let d := jobDecide j (toPendingRun id r) in
    dc_CharObservations d = [] \/ dc_CharObservations d = obs (rr_Params r);
  sd_accepted j id r : J j ->
    let d := jobDecide j (toPendingRun id r) in
    dc_Status d = Runstatus.Accepted -> dc_CharObservations d = obs (rr_Params r) }.

Context (Hsteady : steady).

Definition txJob (s : txState) : job := match s with Scanning j _ | Holding j _ => j end.

Definition stepBy (w w' : world) : Prop :=
  step w w' /\ forall t s, w_open w' !! t = Some s -> J (txJob s).

(** A counted run's share of a key of an account. *)
Definition share (tb : tables) (c : column) (u : UUID) (k : string) (id : UUID) : Z :=
  match tb_runs tb !! id with
  | Some r => if decide (u = cp_UserID (rr_Params r))
              then seenOf l c (cp_Lang (rr_Params r)) k (obs (rr_Params r)) else 0
  | None => 0
  end.

Record keys_ok (tb : tables) (kb : kbTables) : Prop := {
  ko_runs id : id ∈ kb_stamps kb -> exists r, tb_runs tb !! id = Some r /\ obs (rr_Params r) <> [];
  ko_sum c u k : countAt c (kb_rows kb) u k = sumOf (share tb c u k) (elements (kb_stamps kb));
  ko_counted id r : tb_runs tb !! id = Some r -> rr_Status r = Runstatus.Accepted ->
    overridden (tb_overrides tb) id = false -> obs (rr_Params r) <> [] -> id ∈ kb_stamps kb }.

Lemma share_nonneg tb c u k id : 0 <= share tb c u k id.
Proof.
  unfold share. destruct (tb_runs tb !! id) as [r|]; [|done]. case_decide; [|done].
  apply seenOf_nonneg, Hsteady.
Qed.

(** Only the submissions matter to the shares. *)
Lemma share_ext tb tb' c u k id :
  rr_Params <$> tb_runs tb' !! id = rr_Params <$> tb_runs tb !! id -> share tb' c u k id = share tb c u k id.
Proof.
  unfold share. intros E. destruct (tb_runs tb' !! id) as [r'|], (tb_runs tb !! id) as [r|]; try done.
  injection E as E. by rewrite E.
Qed.

Lemma share_le tb c u k id X :
  id ∈ X -> share tb c u k id <= sumOf (share tb c u k) (elements (X : gset UUID)).
Proof.
  intros Hin. rewrite (sumOf_delete (share tb c u k) id X Hin).
  pose proof (sumOf_nonneg (share tb c u k) (elements (X ∖ {[ id ]})) (fun x _ => share_nonneg tb c u k x)). lia.
Qed.

(** One outcome: the tables change at the run alone, and the projector is called with
    what the replay observed. *)
Lemma project_keys id d tb tb' kb kb' r :
  keys_ok tb kb ->
  tb_runs tb !! id = Some r -> tb_runs tb' !! id = Some (judgedRow d r) ->
  (forall id', id' <> id -> tb_runs tb' !! id' = tb_runs tb !! id') ->
  tb_overrides tb' = tb_overrides tb ->
  dc_CharObservations d = [] \/ dc_CharObservations d = obs (rr_Params r) ->
  (dc_Status d = Runstatus.Accepted -> dc_CharObservations d = obs (rr_Params r)) ->
  ProjectKeyboard l tb' id (dc_Status d =s? Runstatus.Accepted) (dc_CharObservations d) kb = Some kb' ->
  keys_ok tb' kb'.
Proof.
  intros [Hruns Hsum Hcnt] Hr Hr' Ho Hov Hobs Hacc Hp.
  assert (forall id', rr_Params <$> tb_runs tb' !! id' = rr_Params <$> tb_runs tb !! id') as Epar.
  { intros id'. destruct (decide (id' = id)) as [->|Hne]; [by rewrite Hr, Hr'|by rewrite Ho]. }
  assert (forall c u k, sumOf (share tb' c u k) (elements (kb_stamps kb)) = countAt c (kb_rows kb) u k) as Hsum'.
  { intros c u k. rewrite Hsum. apply sumOf_ext. intros id' _. by apply share_ext. }
  assert (forall id', id' ∈ kb_stamps kb -> exists r, tb_runs tb' !! id' = Some r /\ obs (rr_Params r) <> []) as Hruns'.
  { intros id' (r1 & Q1 & Q2)%Hruns. specialize (Epar id'). rewrite Q1 in Epar.
    apply fmap_Some in Epar as (r2 & -> & Ep). exists r2. by rewrite <- Ep. }
  assert (forall c u k, share tb' c u k id = if decide (u = cp_UserID (rr_Params r))
            then seenOf l c (cp_Lang (rr_Params r)) k (obs (rr_Params r)) else 0) as Hshare.
  { intros c u k. unfold share. by rewrite Hr'. }
  assert (forall id' r', tb_runs tb' !! id' = Some r' -> rr_Status r' = Runstatus.Accepted ->
    overridden (tb_overrides tb') id' = false -> obs (rr_Params r') <> [] -> id' <> id -> id' ∈ kb_stamps kb) as Hothers.
  { intros id' r' Q1 Q2 Q3 Q4 Hne. rewrite Ho in Q1 by done. rewrite Hov in Q3. by eapply Hcnt. }
  assert (modest (dc_CharObservations d)) as Hm.
  { destruct Hobs as [-> | ->]; [|apply Hsteady]. intros c. split; [by intros ? ?%elem_of_nil|done]. }
  apply (ProjectKeyboard_projected l tb' id _ _ _ _ _ Hr' Hm) in Hp.
  destruct Hp as [-> Hsame|Ha Hs Hne Es Hc|Ha Hs Hne Es Hc]; constructor; rewrite ?Es.
  - done.
  - intros c u k. by rewrite Hsum'.
  - intros id' r' Q1 Q2 Q3 Q4. destruct (decide (id' = id)) as [->|Hneq]; [|by eapply Hothers].
    rewrite Hr' in Q1. injection Q1 as <-. cbn in Q2, Q4. rewrite <- (Hacc Q2) in Q4.
    destruct Hsame as [?|Hs]; [done|]. apply Hs. by rewrite Q2.
  - intros id' [->%elem_of_singleton|Hin]%elem_of_union; [|by apply Hruns'].
    eexists. split; [exact Hr'|]. cbn. destruct Hobs as [?|<-]; done.
  - intros c u k. rewrite sumOf_insert, Hsum', Hc, Hshare by done. destruct Hobs as [?| ->]; [done|]. cbn. lia.
  - intros id' r' Q1 Q2 Q3 Q4. destruct (decide (id' = id)) as [->|Hneq]; [set_solver|].
    apply elem_of_union. right. by eapply Hothers.
  - intros id' [Hin _]%elem_of_difference. by apply Hruns'.
  - intros c u k. destruct Hobs as [?|E]; [done|]. rewrite E in Hc. cbn [judgedRow rr_Params] in Hc.
    pose proof (sumOf_delete (share tb' c u k) id (kb_stamps kb) Hs) as Hd. rewrite Hsum', Hshare in Hd.
    rewrite Hc; [lia|]. pose proof (share_le tb' c (cp_UserID (rr_Params r)) k id _ Hs) as Hle.
    by rewrite Hsum', Hshare, decide_True in Hle by done.
  - intros id' r' Q1 Q2 Q3 Q4. destruct (decide (id' = id)) as [->|Hneq].
    + rewrite Hr' in Q1. injection Q1 as <-. cbn in Q2. rewrite Q2 in Ha. done.
    + apply elem_of_difference. split; [by eapply Hothers|set_solver].
Qed.
(** ** Steps *)

Lemma writeOutcome_keys now j id r db db' :
  J j -> tb_runs (db_tables db) !! id = Some r ->
  writeOutcome now id (jobDecide j (toPendingRun id r)) db = Some db' ->
  keys_ok (db_tables db) (db_proj db) -> keys_ok (db_tables db') (db_proj db').
Proof.
  intros Hj Hr Hw Hk. pose proof (writeOutcome_tables _ _ _ _ _ Hw) as [Or _ Oo Oov].
  unfold writeOutcome, projectRun, projectKeyboard in Hw. cbn [RunStore.ProjectRun RunStore.ProjectKeyboard thisKeyboard keyboardProjection] in Hw.
  match type of Hw with match ?p with _ => _ end = _ => destruct p as [kb'|] eqn:Ep; [|done] end.
  injection Hw as <-. cbn [db_tables db_proj] in *. rewrite Hr in Or.
  eapply project_keys; [exact Hk|exact Hr|exact Or| |exact Oov|by apply Hsteady|by apply Hsteady|exact Ep].
  intros id' Hne. by apply Oo.
Qed.

Lemma inTx_keys now j runs db db' :
  J j -> NoDup (pr_ID <$> runs) ->
  (forall run, run ∈ runs -> exists r, tb_runs (db_tables db) !! pr_ID run = Some r /\ run = toPendingRun (pr_ID run) r) ->
  inTx now (jobDecide j) runs db = Some db' ->
  keys_ok (db_tables db) (db_proj db) -> keys_ok (db_tables db') (db_proj db').
Proof.
  intros Hj. revert db. induction runs as [|run runs IH]; intros db; cbn [inTx fmap list_fmap]; [by intros _ _ [= <-]|].
  intros [Hnot Hnd]%NoDup_cons Hrows. destruct (writeOutcome _ _ _ _) as [db1|] eqn:E1; [|done]. intros Hi Hk.
  destruct (Hrows run ltac:(left)) as (r & Hr & Erun). rewrite Erun in E1. cbn [toPendingRun pr_ID] in E1.
  pose proof (writeOutcome_tables _ _ _ _ _ E1) as [_ _ Oo _].
  apply (IH db1 Hnd); [|done|by eapply writeOutcome_keys].
  intros run' Hin. destruct (Hrows run' ltac:(by right)) as (r' & Hr' & Er'). exists r'. split; [|done].
  destruct (Oo (pr_ID run')) as [-> _]; [|done]. intros E. apply Hnot. rewrite <- E. by apply list_elem_of_fmap_2.
Qed.

(** Only runs that no step can touch change owner or text: adding a run, or moving a
    status, leaves the shares alone. *)
Lemma keys_frame tb tb' kb :
  keys_ok tb kb ->
  (forall id r, tb_runs tb !! id = Some r -> exists r', tb_runs tb' !! id = Some r' /\ rr_Params r' = rr_Params r) ->
  (forall id r, tb_runs tb' !! id = Some r -> rr_Status r = Runstatus.Accepted ->
     overridden (tb_overrides tb') id = false -> tb_runs tb !! id = Some r) ->
  (forall id, overridden (tb_overrides tb') id = false -> overridden (tb_overrides tb) id = false) ->
  keys_ok tb' kb.
Proof.
  intros [Hruns Hsum Hcnt] Hkeep Hback Hov. constructor.
  - intros id (r & (r' & Hr' & Ep)%Hkeep & Hne)%Hruns. exists r'. by rewrite Ep.
  - intros c u k. rewrite Hsum. apply sumOf_ext. intros id (r & Hr & _)%elem_of_elements%Hruns.
    symmetry. apply share_ext. destruct (Hkeep _ _ Hr) as (r' & Hr' & Ep). rewrite Hr, Hr'. cbn. by rewrite Ep.
  - intros id r Hr Ha Ho. eapply Hcnt; eauto.
Qed.

Lemma forget_keys u tb kb : keys_ok tb kb -> keys_ok (DeleteUser u tb) (ForgetKeys u tb kb).
Proof.
  intros [Hruns Hsum Hcnt].
  assert (forall id r, tb_runs (DeleteUser u tb) !! id = Some r <-> tb_runs tb !! id = Some r /\ ~ ownedBy u tb id) as Hd
    by (intros id r; apply map_lookup_filter_Some).
  constructor.
  - intros id [Hn Hin]%elem_of_filter. destruct (Hruns _ Hin) as (r & Hr & Hne). exists r. split; [by apply Hd|done].
  - intros c v k. cbn [ForgetKeys kb_rows kb_stamps]. destruct (decide (v = u)) as [->|Hv].
    + unfold countAt. rewrite (proj2 (map_lookup_filter_None _ _ (u, k))) by (right; intros ? _ Hn; by apply Hn).
      cbn. symmetry. apply sumOf_zero. intros id [Hn Hin]%elem_of_elements%elem_of_filter. unfold share.
      destruct (tb_runs (DeleteUser u tb) !! id) as [r|] eqn:Er; [|done]. rewrite decide_False; [done|].
      intros E. apply Hn. apply Hd in Er as [Er _]. by exists r.
    + assert (countAt c (filter (fun kv => kv.1.1 <> u) (kb_rows kb)) v k = countAt c (kb_rows kb) v k) as ->.
      { unfold countAt. f_equal. f_equal. destruct (kb_rows kb !! (v, k)) as [row|] eqn:E.
        - by apply map_lookup_filter_Some.
        - apply map_lookup_filter_None. by left. }
      rewrite Hsum, (sumOf_subset _ (kb_stamps kb) (filter (fun id => ~ ownedBy u tb id) (kb_stamps kb))); [|set_solver|].
      * apply sumOf_ext. intros id [Hn Hin]%elem_of_elements%elem_of_filter. symmetry. apply share_ext.
        destruct (Hruns _ Hin) as (r & Hr & _). rewrite Hr. by rewrite (proj2 (Hd id r)) by done.
      * intros id Hin Hn. unfold share. destruct (tb_runs tb !! id) as [r|] eqn:Er; [|done].
        rewrite decide_False; [done|]. intros E. apply Hn, elem_of_filter. split; [|done].
        intros (r' & Hr' & Eu). congruence.
  - intros id r [Hr Hn]%Hd Ha Ho Hne. apply elem_of_filter. split; [done|]. apply (Hcnt id r Hr Ha); [|done].
    cbn in Ho. destruct (overridden (tb_overrides tb) id) eqn:E; [|done]. exfalso.
    unfold overridden in E, Ho. apply existsb_exists in E as (o & Hin & E). bool_to_prop.
    assert (bool_decide (ov_RunID o = id) = false) as Hf.
    { apply (existsb_false _ _ o Ho), list_elem_of_filter. split; [by rewrite E|by apply list_elem_of_In]. }
    by apply bool_decide_eq_false in Hf.
Qed.

Lemma step_keys w w' :
  step w w' -> (forall t s, w_open w !! t = Some s -> J (txJob s)) -> life_ok w ->
  keys_ok (w_tables w) (db_proj (w_db w)) -> keys_ok (w_tables w') (db_proj (w_db w')).
Proof.
  intros Hs HJ [_ Hh] Hk.
  destruct Hs as [id now user req p Hid _|t j Ht|t j snap locked limit order Ht Hl Ho|t j runs now db Ht Hi|t s Ht
                 |id now p db row Hnl Ho|u Hu _]; try exact Hk.
  - eapply keys_frame; [exact Hk| | |done].
    + intros id' r Hr. exists r. split; [|done]. cbn. rewrite lookup_insert_ne; [done|congruence].
    + intros id' r. cbn. intros [[<- <-]|[_ ?]]%lookup_insert_Some; [done|done].
  - eapply (inTx_keys now j runs); [exact (HJ _ _ Ht)|by eapply (ho_NoDup _ Hh)| |exact Hi|exact Hk].
    intros run Hin. destruct (ho_row _ Hh _ _ _ _ Ht Hin) as (r & Hr & Erun & _). by exists r.
  - pose proof Ho as Hproj. unfold OverrideRunStatus, projectRun in Hproj. cbn [RunStore.ProjectRun thisKeyboard keyboardProjection] in Hproj.
    assert (db_proj db = db_proj (w_db w)) as Ep by (repeat (split_match_in Hproj; try done); injection Hproj as <- _; done).
    apply override_tables in Ho as (r & Hr & _ & _ & _ & Erow & _ & _ & Er & _ & Eo).
    cbn [withDB w_db]. unfold w_tables in *. cbn [withDB w_db]. rewrite Ep. eapply keys_frame; [exact Hk| | |].
    + intros id' r' Hr'. rewrite Er. cbn. destruct (decide (id' = op_RunID p)) as [->|Hne].
      * rewrite lookup_alter_eq, Hr'. by eexists.
      * rewrite lookup_alter_ne by done. by exists r'.
    + intros id' r'. rewrite Er, Eo. cbn. unfold overridden. cbn. rewrite Erow. cbn.
      destruct (decide (op_RunID p = id')) as [->|Hne]; [by rewrite bool_decide_true|].
      by rewrite lookup_alter_ne.
    + intros id'. rewrite Eo. unfold overridden. cbn. by intros [_ ?]%orb_false_iff.
  - by apply forget_keys.
Qed.

(** C33: the keyboard profile counts every accepted run exactly once.  While the jobs of a
    deployment use one bundle, so that replaying a submission observes the same every
    time, in every reachable state of the interleaved transactions each count of each
    key of each account is the sum over the runs stamped as counted; every stamped run
    exists; and an accepted run no operator has decided about is stamped, if it pressed
    any key at all. *)
Theorem keyboard_counts_once (w : world) (kb : kbTables) (c : column) (u : UUID) (k : string) :
  steps stepBy (fresh noKeys) w -> db_proj (w_db w) = kb ->
  countAt c (kb_rows kb) u k = sumOf (share (w_tables w) c u k) (elements (kb_stamps kb))
  /\ (forall id, id ∈ kb_stamps kb -> exists r, tb_runs (w_tables w) !! id = Some r)
  /\ (forall id r, tb_runs (w_tables w) !! id = Some r -> rr_Status r = Runstatus.Accepted ->
        overridden (tb_overrides (w_tables w)) id = false -> obs (rr_Params r) <> [] -> id ∈ kb_stamps kb).
Proof.
  intros Hr <-. assert ((forall t s, w_open w !! t = Some s -> J (txJob s)) /\ life_ok w
    /\ keys_ok (w_tables w) (db_proj (w_db w))) as (_ & _ & [Hruns Hsum Hcnt]).
  { eapply (steps_invariant stepBy (fun w => (forall t s, w_open w !! t = Some s -> J (txJob s)) /\ life_ok w
      /\ keys_ok (w_tables w) (db_proj (w_db w)))); [| |exact Hr].
    - intros a b (Ha & Hl & Hk) [Hs Hb]. split_and!; [exact Hb|by eapply life_step|by eapply step_keys].
    - split_and!; [intros t s; cbn; by intros ?%lookup_empty_Some|apply fresh_ok|]. constructor; cbn.
      + by intros id ?%not_elem_of_empty.
      + intros c' u' k'. by rewrite elements_empty.
      + by intros id r ?%lookup_empty_Some. }
  split; [apply Hsum|]. split; [|exact Hcnt]. intros id (r & Hrow & _)%Hruns. by exists r.
Qed.
End invariant.

(** ** What is not taken back *)

Section rejected.
Context `{Uuid} `{Gzip} `{GameCore} `{LowerTable} (l : Layouts).

(** A decision that rejects a run carries no observations. *)
Lemma rejected_unobserved dec run res err :
  dc_Status (Decide dec run res err) = Runstatus.Rejected ->
  dc_CharObservations (Decide dec run res err) = [].
Proof.
  apply Decide_cases.
  - intros e _. by destruct e.
  - done.
  - intros d _ _ _ [E _]%comparisonRow_Some. by rewrite E.
  - intros d _ _ _ _ _ [E _]%comparisonRow_Some. by rewrite E.
  - intros _ _ _ _. unfold judgeRow. by destruct (jd_NeedsReview _).
Qed.

(** A counted run that a later bundle rejects stays counted: the rejection brings no
    observations, and without them the projector leaves rows and stamp alone. *)
Lemma rejection_stays_counted (tb : tables) (id : UUID) (r : runRow) (j : job) (kb : kbTables) :
  let d := jobDecide j (toPendingRun id r) in
  tb_runs tb !! id = Some r -> dc_Status d = Runstatus.Rejected ->
  ProjectKeyboard l tb id (dc_Status d =s? Runstatus.Accepted) (dc_CharObservations d) kb = Some kb.
Proof.
  cbn zeta. intros Hr Hd. assert (dc_CharObservations (jobDecide j (toPendingRun id r)) = []) as ->.
  { revert Hd. destruct j; cbn [jobDecide]; unfold JudgeRun; destruct (replayRun _ _ _ _ _); apply rejected_unobserved. }
  unfold ProjectKeyboard. rewrite Hr, Hd. cbn zeta. cbn [length]. by rewrite !andb_false_r.
Qed.

(** An operator's decision moves no key: a run made accepted is not counted, and a
    counted run made rejected still is. *)
Lemma override_moves_no_key id now p (db : @database _ _ (keyboardProjection l)) db' row :
  @OverrideRunStatus _ _ (keyboardProjection l) id now p db = inl (db', row) -> db_proj db' = db_proj db.
Proof.
  unfold OverrideRunStatus, projectRun. cbn. intros Ho.
  repeat (split_match_in Ho; try done). injection Ho as <- _. done.
Qed.
End rejected.

(** * The keyboard profile at work

    A layout of one key, a core that observes five presses of it, and one run judged:
    the witnesses of the theorems about the keyboard profile. *)

#[export] Instance noTable : LowerTable := {| lower_table r := r |}.

Definition keyDoc (name char : string) : json :=
  JObj [("name", JStr name); ("label", JStr name);
        ("keys", JArr [JObj [("id", JStr "KeyF"); ("chars", JArr [JStr char])]])].

Definition keyFiles : list (string * option json) :=
  [("README.md", None); ("jcuken.json", Some (keyDoc "jcuken" "a")); ("qwerty.json", Some (keyDoc "qwerty" "f"))].

Definition keyLayouts : Layouts :=
  match Load keyFiles with inl l => l | inr _ => {| ls_all := []; ls_byName := ∅ |} end.

Lemma key_of_carrier_witness :
  KeyOf keyLayouts "english" "f" = "KeyF" /\ KeyOf keyLayouts "english" "a" = OtherKey.
Proof.
  split; [|vm_compute; reflexivity].
  destruct (key_of_carrier keyFiles keyLayouts "english" "f") as (ly & Hin & Hn & Hc & _); [vm_compute; reflexivity|].
  apply Hc. vm_compute in Hin. apply elem_of_cons in Hin as [->|Hin]; [vm_compute in Hn; discriminate Hn|].
  apply elem_of_cons in Hin as [->|Hin]; [|apply elem_of_nil in Hin; destruct Hin].
  eexists. split; [apply list_elem_of_singleton; reflexivity|]. split; [apply list_elem_of_singleton; reflexivity|reflexivity].
Defined.

(** ** A core that observes the same of every log *)

Definition keyRows : json :=
  JArr [JObj [("char", JStr "f"); ("presses", JNum "5"); ("errors", JNum "1");
              ("intervalSumMs", JNum "0.1"); ("intervalCount", JNum "4")]].

Definition keyObs : list CharObservation :=
  [{| co_Char := "f"; co_Presses := 5; co_Errors := 1; co_IntervalSumMs := F64.of_dec 1 (-1);
      co_IntervalCount := 4 |}].

Definition keyCore : GameCore := {|
  bundleSHA := "c0de"; js_parse_dictionary := @js_parse_dictionary toyCore;
  js_parse_input := @js_parse_input toyCore; js_validateLog := @js_validateLog toyCore;
  js_generateWords := @js_generateWords toyCore; js_scoreOfLog := @js_scoreOfLog toyCore;
  js_scoreV2OfLog := @js_scoreV2OfLog toyCore; js_scoreV3OfLog := @js_scoreV3OfLog toyCore;
  js_charObservationsOf _ _ := Returned (Some keyRows) |}.

Lemma keyObs_decoded :
  Json.unmarshal (Json.dec_list dec_CharObservation zero_CharObservation) [] keyRows = Some keyObs.
Proof. vm_compute. reflexivity. Qed.

Lemma keyCore_observes input dicts r :
  @Replay keyCore input dicts = inl r ->
  if rs_Verdict r =s? verdictValid then rs_CharObservations r = keyObs else rs_CharObservations r = [].
Proof.
  intros Hr. pose proof (@replay_numbers keyCore input dicts r Hr) as Hn.
  destruct (rs_Verdict r =s? verdictValid) eqn:E; [|apply Hn].
  revert Hr. unfold Replay. intros ([[obj dictionary] ?] & _ & (report & _ & Hr)%bind_inl)%bind_inl.
  destruct (rs_Verdict report =s? verdictValid) eqn:Ev; cbn [negb] in Hr; [|injection Hr as <-; congruence].
  apply bind_inl in Hr as (sc & _ & (obs & Ho & [= <-])%bind_inl). cbn. revert Ho. unfold charObservations.
  intros (? & _ & (? & _ & (? & _ & (rows & Hrows & (raw & Hraw & Hd)%bind_inl)%bind_inl)%bind_inl)%bind_inl)%bind_inl.
  cbn in Hrows. injection Hrows as <-. injection Hraw as <-. rewrite keyObs_decoded in Hd. by injection Hd as <-.
Qed.

#[local] Instance keyBoard : @Projection uuid16_Uuid keyCore := @keyboardProjection _ keyCore _ keyLayouts.
#[local] Existing Instance keyCore | 0.

Lemma keyDecide dec run res dicts input :
  Replay input dicts = inl res ->
  let d := Decide dec run res None in
  (dc_CharObservations d = [] \/ dc_CharObservations d = keyObs)
  /\ (dc_Status d = Runstatus.Accepted -> dc_CharObservations d = keyObs).
Proof.
  intros Hr. pose proof (keyCore_observes _ _ _ Hr) as Ho. pose proof (replay_numbers _ _ _ Hr) as Hn.
  assert (rs_CharObservations res = [] \/ rs_CharObservations res = keyObs) as Hor
    by (destruct (_ =s? _); [by right|by left]).
  apply Decide_cases; cbn zeta.
  - done.
  - intros _ _. by split; [left|].
  - intros d _ _ _ Hc. pose proof (comparisonRow_Some _ _ _ _ _ _ _ Hc) as (Hs & _). rewrite Hs. split; [|done].
    destruct (compareScore _ _) as [[dv|]|]; cbn in Hc; try discriminate Hc; injection Hc as <-; exact Hor.
  - intros d _ _ _ _ _ Hc. pose proof (comparisonRow_Some _ _ _ _ _ _ _ Hc) as (Hs & _). rewrite Hs. split; [|done].
    destruct (compareMetrics _ _) as [[dv|]|]; cbn in Hc; try discriminate Hc; injection Hc as <-; exact Hor.
  - intros _ _ (sv & t & s & Hs & _) _. destruct (_ =s? _); [|destruct Hn as (_ & Hn & _); congruence].
    unfold judgeRow. by destruct (jd_NeedsReview _); split; cbn; auto.
Qed.

Lemma key_steady : steady (eq worker) (fun _ => keyObs).
Proof.
  assert (forall id r, let d := jobDecide worker (toPendingRun id r) in
    (dc_CharObservations d = [] \/ dc_CharObservations d = keyObs)
    /\ (dc_Status d = Runstatus.Accepted -> dc_CharObservations d = keyObs)) as Hd.
  { intros id r. cbn zeta. unfold worker at 1 2 3 4. cbn [jobDecide]. unfold JudgeRun.
    destruct (replayRun _ _ _ _ _) as [res|err] eqn:E.
    - unfold replayRun in E. apply bind_inl in E as ([q body] & _ & (log & _ & E)%bind_inl). by eapply keyDecide.
    - cbn. by destruct err; split; try (by left); cbn. }
  constructor.
  - intros _ c. destruct c; (split; [intros o ->%list_elem_of_singleton; cbn; lia|cbn; lia]).
  - intros j id r <-. apply Hd.
  - intros j id r <-. apply Hd.
Qed.

(** ** One run accepted *)

Definition k1 : world := withTables (CreateRun runID 1 (honest "en" "130") noTables) (fresh noKeys).
Definition k2 : world := openTx 0 (Scanning worker (w_tables k1)) k1.
Definition k3 : world := openTx 0 (holdAll worker k2 k1) k2.
Definition k4 : world := commitOf 0 worker k3.

Lemma only_worker (w : world) :
  map_to_list (w_open w) = [] \/ (exists s, map_to_list (w_open w) = [(0%nat, s)] /\ txJob s = worker) ->
  forall t s, w_open w !! t = Some s -> worker = txJob s.
Proof.
  intros Hw t s Hs%elem_of_map_to_list. destruct Hw as [E|(s' & E & Ej)]; rewrite E in Hs.
  - by apply elem_of_nil in Hs.
  - apply list_elem_of_singleton in Hs. by injection Hs as _ ->.
Qed.

Lemma k4_reachable : steps (stepBy keyLayouts (eq worker)) (fresh noKeys) k4.
Proof.
  refine (steps_step _ _ k1 _ (conj (StepCreate (fresh noKeys) runID 1 uuid_Nil (honestReq "en" "130") _ eq_refl _) _) _);
    [reflexivity|apply only_worker; by left|].
  refine (steps_step _ _ k2 _ (conj (StepScan k1 0%nat worker eq_refl) _) _); [apply only_worker; right; by eexists|].
  refine (steps_step _ _ k3 _ (conj (hold_step 0 worker k2 k1 eq_refl _) _) _); [by eexists|apply only_worker; right; by eexists|].
  refine (steps_step _ _ k4 _ (conj (commit_step 0 worker k3 _ (lookup_insert_eq _ _ _) _) _) (steps_refl _ _));
    [vm_compute; reflexivity|apply only_worker; left; vm_compute; reflexivity].
Qed.

Definition keysOf (w : world) : kbTables := db_proj (w_db w).

Lemma keyboard_counts_once_witness :
  countAt Presses (kb_rows (keysOf k4)) uuid_Nil "KeyF" = 5
  /\ sumOf (share keyLayouts (fun _ => keyObs) (w_tables k4) Presses uuid_Nil "KeyF")
       (elements (kb_stamps (keysOf k4))) = 5.
Proof.
  assert (countAt Presses (kb_rows (keysOf k4)) uuid_Nil "KeyF" = 5) as E by (vm_compute; reflexivity).
  split; [exact E|]. rewrite <- E. symmetry.
  exact (proj1 (keyboard_counts_once keyLayouts (eq worker) (fun _ => keyObs) key_steady k4 (keysOf k4)
    Presses uuid_Nil "KeyF" k4_reachable eq_refl)).
Defined.

(** The run put back to where it was, with what was counted before it. *)
Definition k5 : option kbTables := ProjectKeyboard keyLayouts (w_tables k4) runID true keyObs noKeys.
Definition k6 : option kbTables := k5 ≫= ProjectKeyboard keyLayouts (w_tables k4) runID false keyObs.

Lemma contribution_roundtrip_witness :
  exists kb1 kb2, k5 = Some kb1 /\ k6 = Some kb2
    /\ countAt Presses (kb_rows kb1) uuid_Nil "KeyF" = 5 /\ countAt Presses (kb_rows kb2) uuid_Nil "KeyF" = 0
    /\ kb_stamps kb2 = ∅.
Proof.
  assert (goes k5 = true) as G5 by (vm_compute; reflexivity).
  assert (goes (tb_runs (w_tables k4) !! runID) = true) as Gr by (vm_compute; reflexivity).
  destruct k5 as [kb1|] eqn:E1; [|discriminate G5].
  destruct (ProjectKeyboard keyLayouts (w_tables k4) runID false keyObs kb1) as [kb2|] eqn:E2.
  2:{ exfalso. assert (goes k6 = true) as G by (vm_compute; reflexivity). unfold k6 in G. rewrite E1 in G.
      cbn [mbind option_bind] in G. rewrite E2 in G. discriminate G. }
  destruct (tb_runs (w_tables k4) !! runID) as [r|] eqn:Er; [|discriminate Gr].
  exists kb1, kb2. split; [reflexivity|]. split; [unfold k6; rewrite E1; exact E2|]. split.
  - assert ((fun kb => countAt Presses (kb_rows kb) uuid_Nil "KeyF") <$> k5 = Some 5) as G by (vm_compute; reflexivity).
    rewrite E1 in G. by injection G as G.
  - destruct (contribution_roundtrip keyLayouts (w_tables k4) (w_tables k4) runID r r keyObs noKeys kb1 kb2
      Presses uuid_Nil "KeyF" Er Er eq_refl) as (_ & Hs & Hc).
    + exact (sd_modest _ _ key_steady (honest "en" "130")).
    + done.
    + apply not_elem_of_empty.
    + intros c k. unfold countAt. cbn. rewrite lookup_empty. done.
    + exact E1.
    + exact E2.
    + split; [exact Hc|exact Hs].
Defined.

(** The mean interval is not restored: binary64 addition followed by subtraction need
    not give back what was there. *)
Lemma intervals_not_restored :
  exists a b s, float8_add a b = Some s /\ float8_sub s b <> Some a.
Proof.
  exists (F64.of_dec 1 (-1)), (F64.of_dec 7 (-1)). eexists. split; [vm_compute; reflexivity|]. vm_compute. discriminate.
Qed.
