(* ===== verification/RunRead.v ===== *)
(** * Reading runs back: the owner's list and detail, the public replay

    internal/runs/handler.go, internal/runs/pgstore and the read queries of runsdb.  A
    run's owner reads every run, newest first; anyone reads the playback of an accepted
    run whose owner is not banned and either keeps an open profile or has put the run on
    a board. *)

From Stdlib Require Import Sorting.Sorted Strings.Ascii.
From S2P Require Import Prelude GoStd Json Uuid Httpx Keyset Runs Policy Core Decide RunStore Board BoardRead.

Open Scope Z_scope.

(** PostgreSQL's input of a text as a numeric or a float8, printed back; [None] raises.
    Documented: every JSON number is a numeric. *)
Class PgCast := { cast_numeric : string -> option string; cast_float8 : string -> option string }.

(** Newest first, the larger id on a tie. *)
Definition newer (p q : Z * Z) : bool := (q.1 <? p.1) || ((p.1 =? q.1) && (q.2 <? p.2)).

#[export] Instance newer_total : StrictTotal newer.
Proof.
  constructor.
  - intros [a i]. unfold newer. cbn. lia.
  - intros [a i] [a' i'] [a'' i'']. unfold newer. cbn. lia.
  - intros [a i] [a' i'] Hne. unfold newer. cbn. assert (a <> a' \/ i <> i') by (destruct (decide (a = a')); naive_solver).
    lia.
Qed.

(** [jsonb_strip_nulls]: members that are null go, at every depth. *)
Fixpoint strip_nulls (j : json) : json :=
  match j with
  | JArr l => JArr (List.map strip_nulls l)
  | JObj m => JObj ((fix go (m : list (string * json)) :=
      match m with
      | [] => []
      | (k, v) :: m => match v with JNull => go m | _ => (k, strip_nulls v) :: go m end
      end) m)
  | j => j
  end.

Section read.
Context `{Uuid} `{Gzip} `{GameCore} `{!UuidOrder} `{JsonText} `{PgCast}.

(** ** The database a statement sees *)

Record account := { ac_DisplayName : string; ac_ProfilePublic : bool }.

Record runsView := {
  rv_now : Z;
  rv_tables : tables;
  rv_users : gmap UUID account;
  rv_bans : list ban;
  rv_entries : gmap (string * UUID) entryRow }.

Definition isBanned (s : runsView) (u : UUID) : bool :=
  existsb (fun b => bool_decide (bn_UserID b = u) && active (rv_now s) b) (rv_bans s).

(** ** Summaries *)

Record DerivedCells := {
  dv_Grade : option string; dv_Consistency : option string; dv_Chars : option json;
  dv_QuoteID : option UUID; dv_AdoptedFromRunID : option UUID; dv_Mods : option json }.

Record Summary := {
  sm_ID : UUID; sm_Mode : string; sm_DurationMs : option Z; sm_WordCount : option Z; sm_Lang : string;
  sm_Seed : Z; sm_DictHash : string; sm_Setup : json; sm_ClientMetrics : json; sm_ClientScore : json;
  sm_ScoreVersion : Z; sm_Status : string; sm_ServerMetrics : option json; sm_ServerScore : option json;
  sm_Validation : option validationDoc; sm_ValidatedAt : option Z; sm_LogBytes : Z;
  sm_RestartsSinceLastSubmit : Z; sm_CreatedAt : Z; sm_Derived : DerivedCells }.

(** A null cell and an absent one are the same in [derived]. *)
Definition present (j : option json) : option json :=
  match j with Some JNull | None => None | Some j => Some (strip_nulls j) end.

(** A cast that raises fails the statement. *)
Definition castOr {A} (cast : string -> option A) (s : option string) : option (option A) :=
  match s with None => Some None | Some s => Some <$> cast s end.

Definition derived (r : runRow) (v : option verdictRow) : option DerivedCells :=
  let metrics := v ≫= vr_ServerMetrics in
  let setup := cp_Setup (rr_Params r) in
  acc ← castOr cast_numeric (Pg.text (Pg.arrow "accuracy" metrics));
  cons ← castOr cast_float8 (Pg.text (Pg.arrow "consistency" metrics));
  Some {| dv_Grade := run_grade <$> acc; dv_Consistency := cons;
          dv_Chars := present (Pg.arrow "chars" metrics); dv_QuoteID := run_quote_id setup;
          dv_AdoptedFromRunID := run_adopted_from setup; dv_Mods := Some (strip_nulls (run_mods setup)) |}.

Definition summaryOf (s : runsView) (id : UUID) (r : runRow) : option Summary :=
  let v := tb_verdicts (rv_tables s) !! id in
  let p := rr_Params r in
  d ← derived r v;
  Some {| sm_ID := id; sm_Mode := cp_Mode p; sm_DurationMs := cp_DurationMs p; sm_WordCount := cp_WordCount p;
          sm_Lang := cp_Lang p; sm_Seed := cp_Seed p; sm_DictHash := cp_DictHash p; sm_Setup := cp_Setup p;
          sm_ClientMetrics := cp_ClientMetrics p; sm_ClientScore := cp_ClientScore p;
          sm_ScoreVersion := cp_ScoreVersion p; sm_Status := rr_Status r;
          sm_ServerMetrics := v ≫= vr_ServerMetrics; sm_ServerScore := v ≫= vr_ServerScore;
          sm_Validation := vr_Validation <$> v; sm_ValidatedAt := vr_ValidatedAt <$> v;
          sm_LogBytes := cp_LogBytes p; sm_RestartsSinceLastSubmit := cp_RestartsSinceLastSubmit p;
          sm_CreatedAt := rr_CreatedAt r; sm_Derived := d |}.

(** ** Queries *)

Definition runPosition (kv : UUID * runRow) : Z * Z := (rr_CreatedAt kv.2, uuid_key kv.1).

Definition runsOf (s : runsView) (user : UUID) (q : UUID * runRow -> bool) : list (UUID * runRow) :=
  filter (fun kv => bool_decide (cp_UserID (rr_Params kv.2) = user) && q kv = true)
    (map_to_list (tb_runs (rv_tables s))).

Definition older (created : Z) (id : UUID) (kv : UUID * runRow) : bool :=
  (rr_CreatedAt kv.2 <=? created)
  && ((rr_CreatedAt kv.2 <? created) || ((rr_CreatedAt kv.2 =? created) && (uuid_key kv.1 <? uuid_key id))).

Definition summaries (s : runsView) (rows : list (UUID * runRow)) : option (list Summary) :=
  mapM (fun kv => summaryOf s kv.1 kv.2) rows.

Definition ListRunsFirst (s : runsView) (user : UUID) (limit : Z) : option (list Summary) :=
  summaries s (take (Z.to_nat limit) (order_by runPosition newer (runsOf s user (fun _ => true)))).

Definition ListRunsAfter (s : runsView) (user : UUID) (created : Z) (id : UUID) (limit : Z)
    : option (list Summary) :=
  summaries s (take (Z.to_nat limit) (order_by runPosition newer (runsOf s user (older created id)))).

(** [Some None] is no row; [None] a failing statement. *)
Definition GetRun (s : runsView) (id user : UUID) : option (option Summary) :=
  match tb_runs (rv_tables s) !! id with
  | Some r => if bool_decide (cp_UserID (rr_Params r) = user) then Some <$> summaryOf s id r else Some None
  | None => Some None
  end.

Definition GetRunLog (s : runsView) (id user : UUID) : option (list Z) :=
  r ← tb_runs (rv_tables s) !! id;
  if bool_decide (cp_UserID (rr_Params r) = user) then Some (cp_Log (rr_Params r)) else None.

(** The WHERE clause of the two public queries, on the joined rows. *)
Definition watchable (s : runsView) (id : UUID) : option (runRow * verdictRow * account) :=
  r ← tb_runs (rv_tables s) !! id;
  v ← tb_verdicts (rv_tables s) !! id;
  let user := cp_UserID (rr_Params r) in
  u ← rv_users s !! user;
  if (rr_Status r =s? Runstatus.Accepted)
     && (match Pg.number (Pg.arrow "accuracy" (vr_ServerMetrics v)) with Some _ => true | None => false end)
     && negb (isBanned s user)
     && (ac_ProfilePublic u || existsb (fun kv => bool_decide (er_RunID kv.2 = id)) (map_to_list (rv_entries s)))
  then Some (r, v, u) else None.

Record PublicReplay := {
  pp_RunID : UUID; pp_DisplayName : string; pp_Mode : string; pp_DurationMs : option Z; pp_WordCount : option Z;
  pp_Lang : string; pp_Seed : Z; pp_DictHash : string; pp_Setup : json; pp_ServerMetrics : option json;
  pp_ServerScore : option json; pp_Grade : string; pp_AchievedAt : Z }.

Definition GetPublicReplay (s : runsView) (id : UUID) : option (option PublicReplay) :=
  match watchable s id with
  | None => Some None
  | Some (r, v, u) =>
    let p := rr_Params r in
    acc ← castOr cast_numeric (Pg.text (Pg.arrow "accuracy" (vr_ServerMetrics v)));
    Some (Some {| pp_RunID := id; pp_DisplayName := ac_DisplayName u; pp_Mode := cp_Mode p;
      pp_DurationMs := cp_DurationMs p; pp_WordCount := cp_WordCount p; pp_Lang := cp_Lang p;
      pp_Seed := cp_Seed p; pp_DictHash := cp_DictHash p; pp_Setup := cp_Setup p;
      pp_ServerMetrics := vr_ServerMetrics v; pp_ServerScore := vr_ServerScore v;
      pp_Grade := default "" (run_grade <$> acc); pp_AchievedAt := rr_CreatedAt r |})
  end.

Definition GetPublicReplayLog (s : runsView) (id : UUID) : option (list Z) :=
  (fun t => cp_Log (rr_Params t.1.1)) <$> watchable s id.

(** ** Cursor tokens *)

(** The instant in nanoseconds. *)
Record Cursor := { cu_CreatedAt : Z; cu_ID : UUID }.

Definition encodeCursor (c : Cursor) : string :=
  EncodeCursor [Strconv.Itoa (Int.int64 (cu_CreatedAt c)); uuid_String (cu_ID c)].

Definition decodeCursor (token : string) : option Cursor :=
  match DecodeCursor token 2 with
  | Some [nanos; id] =>
    nanos ← Strconv.Atoi nanos; id ← uuid_Parse id;
    Some {| cu_CreatedAt := nanos; cu_ID := id |}
  | _ => None
  end.

(** ** Handlers *)

Inductive reply (A : Type) := OK (a : A) | NotModified | Refuse (e : Runs.apiError).
#[global] Arguments OK {A}.
#[global] Arguments NotModified {A}.
#[global] Arguments Refuse {A}.

Definition defaultLimit : Z := 20.
Definition maxLimit : Z := 100.

Definition ListRuns (s : runsView) (user : UUID) (after : option Cursor) (limit : Z) : option (list Summary) :=
  match after with
  | None => ListRunsFirst s user limit
  | Some c => ListRunsAfter s user (timestamptz (cu_CreatedAt c)) (cu_ID c) limit
  end.

Definition tokenOf (m : Summary) : string := encodeCursor {| cu_CreatedAt := sm_CreatedAt m * 1000; cu_ID := sm_ID m |}.

(** [?limit=] and [?cursor=]; the answer is the page and the next token, or the empty
    string. *)
Definition handleList (s : runsView) (user : option UUID) (limit cursor : string)
    : reply (list Summary * string) :=
  match user with
  | None => Refuse Runs.apiErrUnauthorized
  | Some user =>
    let limit := ParseLimit limit defaultLimit maxLimit in
    let serve after :=
      match ListRuns s user after (limit + 1) with
      | None => Refuse Runs.apiErrInternal
      | Some rows =>
        if limit <? Z.of_nat (length rows)
        then let rows := take (Z.to_nat limit) rows in
             OK (rows, match last rows with Some m => tokenOf m | None => "" end)
        else OK (rows, "")
      end in
    if cursor =s? "" then serve None
    else match decodeCursor cursor with
         | None => Refuse (apiErrBadRequest "invalid cursor")
         | Some c => serve (Some c)
         end
  end.

Definition handleDetail (s : runsView) (user : option UUID) (id : string) : reply Summary :=
  match user with
  | None => Refuse Runs.apiErrUnauthorized
  | Some user =>
    match uuid_Parse id with
    | None => Refuse apiErrNotFound
    | Some id =>
      match GetRun s id user with
      | None => Refuse Runs.apiErrInternal
      | Some None => Refuse apiErrNotFound
      | Some (Some m) => OK m
      end
    end
  end.

(** [?log=1]. *)
Definition handleDetailLog (s : runsView) (user : option UUID) (id : string) : reply RawMessage :=
  match user with
  | None => Refuse Runs.apiErrUnauthorized
  | Some user =>
    match uuid_Parse id with
    | None => Refuse apiErrNotFound
    | Some id =>
      match GetRunLog s id user with
      | None => Refuse apiErrNotFound
      | Some gz => match gunzipLog gz with None => Refuse Runs.apiErrInternal | Some raw => OK raw end
      end
    end
  end.

(** [allowed] is the limiter's answer for the caller's address. *)
Definition handlePublicReplay (allowed : bool) (s : runsView) (id : string) : reply PublicReplay :=
  if negb allowed then Refuse Runs.apiErrRateLimited
  else match uuid_Parse id with
  | None => Refuse apiErrNotFound
  | Some id =>
    match GetPublicReplay s id with
    | None => Refuse Runs.apiErrInternal
    | Some None => Refuse apiErrNotFound
    | Some (Some p) => OK p
    end
  end.

Definition quoted (s : string) : string := String "034"%char s +:+ String "034"%char "".

Definition handlePublicReplayLog (allowed : bool) (s : runsView) (id ifNoneMatch : string) : reply (list Z) :=
  if negb allowed then Refuse Runs.apiErrRateLimited
  else match uuid_Parse id with
  | None => Refuse apiErrNotFound
  | Some id =>
    match GetPublicReplayLog s id with
    | None => Refuse apiErrNotFound
    | Some gz => if ETagMatches ifNoneMatch (quoted (uuid_String id)) then NotModified else OK gz
    end
  end.
End read.
