(* ===== verification/RunReadProps.v ===== *)
(** * What the owner and the public read

    The owner's list is every run of theirs and nobody else's; a run of somebody else is
    a run that does not exist; and the playback of every visible board row is served.
    The witnesses, on small tables, are at the end. *)

From Stdlib Require Import Sorting.Sorted Strings.Ascii.
From S2P Require Import Prelude GoStd Uuid Httpx Keyset Json Bucket Runs Policy Core Registry Decide Worker RunStore RunLife RunProps RunBatches Board BoardProps BoardGaps BoardRead BoardPages RunRead.

Open Scope Z_scope.

(** Documented: the text of a JSON number is a numeric. *)
Class PgCastLaws `{PgCast} : Prop := {
  number_casts lit : is_Some (Pg.numeric lit) -> is_Some (cast_numeric lit) }.

Section read.
Context `{Uuid} `{Gzip} `{GameCore} `{!UuidOrder} `{JsonText} `{PgCast}.

(** ** Only one's own *)

Definition owner (s : runsView) (id : UUID) : option UUID :=
  (fun r => cp_UserID (rr_Params r)) <$> tb_runs (rv_tables s) !! id.

Lemma runsOf_elem s user q kv :
  kv ∈ runsOf s user q <->
  tb_runs (rv_tables s) !! kv.1 = Some kv.2 /\ cp_UserID (rr_Params kv.2) = user /\ q kv = true.
Proof.
  unfold runsOf. rewrite list_elem_of_filter, andb_true_iff, bool_decide_eq_true.
  destruct kv as [id r]. rewrite elem_of_map_to_list. naive_solver.
Qed.

Lemma summaryOf_ids s id r m : summaryOf s id r = Some m -> sm_ID m = id /\ sm_CreatedAt m = rr_CreatedAt r.
Proof. unfold summaryOf. intros (d & _ & [= <-])%bind_Some. done. Qed.

Lemma summaries_elem s rows ms m :
  summaries s rows = Some ms -> m ∈ ms -> exists kv, kv ∈ rows /\ summaryOf s kv.1 kv.2 = Some m.
Proof.
  intros Hm%mapM_Some_1 Hin. apply list_elem_of_lookup in Hin as [i Hi].
  destruct (Forall2_lookup_r _ _ _ _ _ Hm Hi) as (kv & Hk & E). exists kv. split; [|done].
  by eapply list_elem_of_lookup_2.
Qed.

Lemma ListRuns_own s user after limit ms m :
  ListRuns s user after limit = Some ms -> m ∈ ms -> owner s (sm_ID m) = Some user.
Proof.
  intros Hl Hin. assert (exists q rows, summaries s rows = Some ms /\ forall kv, kv ∈ rows -> kv ∈ runsOf s user q)
    as (q & rows & Hs & Hr).
  { assert (forall q kv, kv ∈ take (Z.to_nat limit) (order_by runPosition newer (runsOf s user q)) -> kv ∈ runsOf s user q)
      as Hk.
    { intros q kv (i & Hi & _)%elem_of_take. apply list_elem_of_lookup_2 in Hi.
      by rewrite (order_by_perm runPosition newer) in Hi. }
    destruct after as [c|]; [exists (older (timestamptz (cu_CreatedAt c)) (cu_ID c))|exists (fun _ => true)];
      (eexists; split; [exact Hl|apply Hk]). }
  destruct (summaries_elem _ _ _ _ Hs Hin) as (kv & Hk & E). apply Hr, runsOf_elem in Hk as (Hk & Hu & _).
  apply summaryOf_ids in E as [-> _]. unfold owner. rewrite Hk. cbn. by rewrite Hu.
Qed.

(** A player reads their own runs and nothing else.  The list holds only runs of
    the caller, and a run of somebody else answers exactly as a run that does not
    exist, with or without the log. *)
Theorem only_own_runs (s : runsView) (user : UUID) :
  (forall limit cursor rows next m,
     handleList s (Some user) limit cursor = OK (rows, next) -> m ∈ rows -> owner s (sm_ID m) = Some user)
  /\ (forall param id, uuid_Parse param = Some id -> owner s id <> Some user ->
     handleDetail s (Some user) param = Refuse apiErrNotFound
     /\ handleDetailLog s (Some user) param = Refuse apiErrNotFound).
Proof.
  split.
  - intros limit cursor rows next m. unfold handleList. set (lim := ParseLimit _ _ _).
    assert (forall after, match ListRuns s user after (lim + 1) with
      | None => Refuse Runs.apiErrInternal
      | Some rows => if lim <? Z.of_nat (length rows)
          then OK (take (Z.to_nat lim) rows, match last (take (Z.to_nat lim) rows) with Some m => tokenOf m | None => "" end)
          else OK (rows, "")
      end = OK (rows, next) -> m ∈ rows -> owner s (sm_ID m) = Some user) as Hs.
    { intros after. destruct (ListRuns s user after (lim + 1)) as [ms|] eqn:El; [|done].
      intros Hr Hin. apply (ListRuns_own s user after (lim + 1) ms m El).
      destruct (_ <? _); injection Hr as <- _; [|done].
      apply elem_of_take in Hin as (i & Hi & _). by eapply list_elem_of_lookup_2. }
    destruct (cursor =s? ""); [apply (Hs None)|]. destruct (decodeCursor cursor) as [c|]; [apply (Hs (Some c))|done].
  - intros param id Hp Ho. unfold handleDetail, handleDetailLog, GetRun, GetRunLog, owner in *. rewrite Hp.
    destruct (tb_runs (rv_tables s) !! id) as [r|]; [|done]. cbn in *.
    by rewrite bool_decide_eq_false_2 by congruence.
Qed.

(** ** The list is all of one's own *)

Section listed.
Context (s : runsView) (user : UUID).

Definition listing : list (UUID * runRow) := order_by runPosition newer (runsOf s user (fun _ => true)).

Lemma listing_positions : NoDup (runPosition <$> runsOf s user (fun _ => true)).
Proof.
  unfold runsOf. apply (NoDup_filter_pos runPosition). pose proof (NoDup_fst_map_to_list (tb_runs (rv_tables s))) as Hn.
  induction (map_to_list _) as [|[id r] l IH]; [constructor|]. rewrite fmap_cons in *.
  apply NoDup_cons in Hn as [Hi Hn]. apply NoDup_cons. split; [|auto].
  intros ([id' r'] & E & Hin)%list_elem_of_fmap. unfold runPosition in E. cbn in E. injection E as _ E.
  apply (inj uuid_key) in E as <-. apply Hi, list_elem_of_fmap. by exists (id, r').
Qed.

Lemma listing_sorted : StronglySorted (before runPosition newer) listing.
Proof. apply (order_by_sorted runPosition newer), listing_positions. Qed.

Lemma listing_elem kv : kv ∈ listing <->
  tb_runs (rv_tables s) !! kv.1 = Some kv.2 /\ cp_UserID (rr_Params kv.2) = user.
Proof. unfold listing. rewrite (order_by_perm runPosition newer), runsOf_elem. naive_solver. Qed.

Lemma after_listing created id :
  order_by runPosition newer (runsOf s user (older created id))
  = rows_after runPosition newer (created, uuid_key id) listing.
Proof.
  assert (runsOf s user (older created id)
          = filter (fun kv => older created id kv = true) (runsOf s user (fun _ => true))) as ->.
  { unfold runsOf. rewrite list_filter_filter. apply list_filter_iff. intros kv. rewrite !andb_true_iff. naive_solver. }
  rewrite (order_by_filter runPosition newer) by apply listing_positions. apply list_filter_iff. intros kv.
  enough (older created id kv = newer (created, uuid_key id) (runPosition kv)) as -> by done.
  unfold older, newer, runPosition. cbn. lia.
Qed.
(** *** The walk *)

Definition summaryPos (m : Summary) : Z * Z := (sm_CreatedAt m, uuid_key (sm_ID m)).

Lemma summaries_slice ms i n :
  summaries s listing = Some ms -> summaries s (take n (drop i listing)) = Some (take n (drop i ms)).
Proof. intros Hm%mapM_Some_1. apply mapM_Some_2. by apply Forall2_take, Forall2_drop. Qed.

Lemma summaries_lookup ms i m :
  summaries s listing = Some ms -> ms !! i = Some m ->
  exists kv, listing !! i = Some kv /\ sm_ID m = kv.1 /\ summaryPos m = runPosition kv.
Proof.
  intros Hm%mapM_Some_1 Hi. destruct (Forall2_lookup_r _ _ _ _ _ Hm Hi) as (kv & Hk & E).
  exists kv. apply summaryOf_ids in E as [Ei Ec]. unfold summaryPos. rewrite Ei, Ec. done.
Qed.

Lemma summaries_sorted ms : summaries s listing = Some ms -> StronglySorted (before summaryPos newer) ms.
Proof.
  unfold summaries. pose proof listing_sorted as Hs. revert ms. induction Hs as [|kv l Hs IH Hx]; intros ms.
  - intros Hm%mapM_Some_1. apply Forall2_nil_inv_l in Hm as ->. constructor.
  - intros Hm%mapM_Some_1. apply Forall2_cons_inv_l in Hm as (m & ms' & E & Hm & ->).
    constructor; [by apply IH, mapM_Some_2|]. apply Forall_forall. intros m' [j Hj]%list_elem_of_lookup.
    destruct (Forall2_lookup_r _ _ _ _ _ Hm Hj) as (kv' & Hk' & E').
    apply summaryOf_ids in E as [Ei Ec], E' as [Ei' Ec']. unfold before, summaryPos. rewrite Ei, Ec, Ei', Ec'.
    rewrite Forall_forall in Hx. by eapply Hx, list_elem_of_lookup_2.
Qed.

Definition fetchRuns (limit : string) (token : option string) : option (list Summary * option string) :=
  match handleList s (Some user) limit (default "" token) with
  | OK (rows, next) => Some (rows, if next =s? "" then None else Some next)
  | _ => None
  end.

Lemma tokenOf_nonempty `{!UuidLaws} m :
  - 2 ^ 63 <= sm_CreatedAt m * 1000 < 2 ^ 63 ->
  (tokenOf m =s? "") = false
  /\ decodeCursor (tokenOf m) = Some {| cu_CreatedAt := sm_CreatedAt m * 1000; cu_ID := sm_ID m |}.
Proof.
  intros Hr. assert (decodeCursor (tokenOf m) = Some {| cu_CreatedAt := sm_CreatedAt m * 1000; cu_ID := sm_ID m |}) as Hd.
  { unfold decodeCursor, tokenOf, encodeCursor. cbn [cu_CreatedAt cu_ID].
    unfold Int.int64. rewrite Int.wrap_id by (unfold Int.in_range; lia).
    rewrite (DecodeCursor_Encode [_; _]); [|done|].
    - rewrite !Strconv.Atoi_Itoa by lia. cbn. by rewrite Parse_String.
    - repeat constructor; [apply Itoa_no_colon|apply uuid_no_colon]. }
  split; [|done]. apply String.eqb_neq. intros E. rewrite E in Hd. by vm_compute in Hd.
Qed.

Lemma fetch_slice `{!UuidLaws} limit ms i token :
  (forall m, m ∈ ms -> - 2 ^ 63 <= sm_CreatedAt m * 1000 < 2 ^ 63) ->
  (forall n, match token with
             | None => ListRuns s user None n
             | Some t => decodeCursor t ≫= fun c => ListRuns s user (Some c) n
             end = summaries s (take (Z.to_nat n) (drop i listing))) ->
  (match token with None => True | Some t => (t =s? "") = false end) ->
  summaries s listing = Some ms ->
  let lim := Z.to_nat (ParseLimit limit defaultLimit maxLimit) in
  fetchRuns limit token
  = Some ((cut_page lim (drop i ms)).1, tokenOf <$> (cut_page lim (drop i ms)).2).
Proof.
  intros Hr Hl Ht Hm lim. assert (0 < ParseLimit limit defaultLimit maxLimit) as Hpos by (by apply ParseLimit_bounds).
  unfold fetchRuns, handleList. set (limZ := ParseLimit _ _ _) in *.
  assert (Z.to_nat (limZ + 1) = S lim) as En by lia.
  specialize (Hl (limZ + 1)). rewrite En, (summaries_slice _ _ _ Hm) in Hl.
  assert (forall l : list Summary, (limZ <? Z.of_nat (length (take (S lim) l))) = (lim <? length l)%nat) as El.
  { intros l. rewrite length_take. apply eq_true_iff_eq. rewrite Z.ltb_lt, Nat.ltb_lt. lia. }
  assert (forall rows, Some rows = Some (take (S lim) (drop i ms)) ->
    match (if limZ <? Z.of_nat (length rows)
           then OK (take lim rows, match last (take lim rows) with Some m => tokenOf m | None => "" end)
           else OK (rows, "")) with
    | OK (rows, next) => Some (rows, if next =s? "" then None else Some next)
    | _ => None
    end = Some ((cut_page lim (drop i ms)).1, tokenOf <$> (cut_page lim (drop i ms)).2)) as Hcut.
  { intros rows [= ->]. rewrite El. unfold cut_page. destruct (Nat.ltb_spec lim (length (drop i ms))).
    - rewrite take_take, Nat.min_l by lia. cbn [fst snd].
      destruct (last (take lim (drop i ms))) as [m|] eqn:Elast; [|done]. cbn [fmap option_fmap option_map].
      destruct (tokenOf_nonempty m) as [-> _]; [|done]. apply Hr. apply last_Some in Elast as [l' El'].
      rewrite <- (take_drop i ms), <- (take_drop lim (drop i ms)), El'. set_solver.
    - by rewrite take_ge by lia. }
  destruct token as [t|].
  - change (default "" (Some t)) with t. rewrite Ht. apply bind_Some in Hl as (c & -> & ->). by apply Hcut.
  - change (default "" None =s? "") with true. cbv iota. rewrite Hl. by apply Hcut.
Qed.
(** Following the cursors lists every run of the caller.  As long as the derived
    cells of the caller's runs can be computed and the clock is in range, the walk from
    the first page along the continuation tokens ends, and its pages put together are
    the summaries of all the caller's runs, each once, newest first; all pages but the
    last are full. *)
Theorem own_runs_listed `{!UuidLaws} (limit : string) :
  (forall id r, tb_runs (rv_tables s) !! id = Some r -> cp_UserID (rr_Params r) = user ->
     is_Some (summaryOf s id r) /\ - 2 ^ 63 <= rr_CreatedAt r * 1000 < 2 ^ 63) ->
  exists pages rows,
    walk (S (length rows)) (fetchRuns limit) None = Some pages
    /\ summaries s rows = Some (concat pages)
    /\ NoDup rows.*1
    /\ (forall kv, kv ∈ rows <-> tb_runs (rv_tables s) !! kv.1 = Some kv.2 /\ cp_UserID (rr_Params kv.2) = user)
    /\ StronglySorted (before runPosition newer) rows
    /\ forall init q, pages = init ++ [q] ->
         Forall (fun q => length q = Z.to_nat (ParseLimit limit defaultLimit maxLimit)) init.
Proof.
  intros Hok. assert (exists ms, summaries s listing = Some ms) as [ms Hm].
  { unfold summaries. apply mapM_is_Some_2, Forall_forall. intros [id r] [Hr Hu]%listing_elem. by apply (Hok id r). }
  assert (forall m, m ∈ ms -> - 2 ^ 63 <= sm_CreatedAt m * 1000 < 2 ^ 63) as Hrange.
  { intros m Hin. destruct (summaries_elem _ _ _ _ Hm Hin) as ([id r] & [Hr Hu]%listing_elem & E).
    apply summaryOf_ids in E as [_ ->]. by apply (Hok id r). }
  assert (0 < ParseLimit limit defaultLimit maxLimit) as Hpos by (by apply ParseLimit_bounds).
  destruct (walk_all summaryPos newer tokenOf (Z.to_nat (ParseLimit limit defaultLimit maxLimit)) ms (fetchRuns limit))
    as (pages & Hw & Hc & Hf); [lia|by apply summaries_sorted| | |].
  - by apply (fetch_slice limit ms 0 None).
  - intros x Hx rows. apply list_elem_of_lookup in Hx as [i Hi].
    destruct (summaries_lookup _ _ _ Hm Hi) as (kv & Hk & Eid & Epos).
    destruct (tokenOf_nonempty x) as [Ht Hd]; [by eapply Hrange, list_elem_of_lookup_2|].
    assert (rows = drop (S i) ms) as ->.
    { unfold rows. pose proof (summaries_sorted _ Hm) as Hs. rewrite <- (take_drop_middle _ _ _ Hi) in Hs |- * at 1.
      by apply (rows_after_at summaryPos newer). }
    apply fetch_slice; [done| |done|done]. intros n. rewrite Hd. cbn [mbind option_bind ListRuns cu_CreatedAt cu_ID].
    rewrite timestamptz_micros. unfold ListRunsAfter. rewrite after_listing. do 2 f_equal.
    assert ((sm_CreatedAt x, uuid_key (sm_ID x)) = runPosition kv) as -> by exact Epos.
    pose proof listing_sorted as Hs. rewrite <- (take_drop_middle _ _ _ Hk) in Hs |- * at 1.
    by apply (rows_after_at runPosition newer).
  - exists pages, listing. pose proof Hm as Hlen. apply mapM_Some_1, Forall2_length in Hlen. rewrite Hlen, Hc.
    split_and!; [done|done| |apply listing_elem|apply listing_sorted|done].
    unfold listing. rewrite (order_by_perm runPosition newer). unfold runsOf.
    apply NoDup_filter_pos, NoDup_fst_map_to_list.
Qed.
End listed.
End read.

(** ** A row on a board can be watched *)

Section watch.
Context `{Uuid} `{Gzip} `{GameCore} `{!UuidOrder} `{JsonText} `{!UuidLaws} `{!PgCast} `{!PgCastLaws} (st : site).

#[local] Instance siteBoard : Projection := boardProjection st.

(** A number's literal is a numeral. *)
Definition numerals (tb : tables) : Prop :=
  forall id v lit, tb_verdicts tb !! id = Some v ->
    Pg.number (Pg.arrow "accuracy" (vr_ServerMetrics v)) = Some lit -> is_Some (Pg.numeric lit).

Lemma viewed_watchable s e a :
  viewed st (rv_tables s) e -> rv_users s !! cl_userID (el_cell e) = Some a ->
  isBanned s (cl_userID (el_cell e)) = false ->
  existsb (fun kv => bool_decide (er_RunID kv.2 = el_RunID e)) (map_to_list (rv_entries s)) = true ->
  exists r v lit, watchable s (el_RunID e) = Some (r, v, a)
    /\ tb_runs (rv_tables s) !! el_RunID e = Some r /\ tb_verdicts (rv_tables s) !! el_RunID e = Some v
    /\ Pg.number (Pg.arrow "accuracy" (vr_ServerMetrics v)) = Some lit.
Proof.
  unfold viewed, eligibleRun, watchable. intros Hv Hu Hb Hs.
  destruct (tb_runs (rv_tables s) !! _) as [r|]; [|done].
  destruct (tb_verdicts (rv_tables s) !! _) as [v|]; [|done].
  destruct (_ && _) eqn:Hc in Hv; [|done]. apply andb_true_iff in Hc as [[Hacc _]%andb_true_iff _].
  destruct (Pg.number (Pg.arrow "total" _)) in Hv; [|done].
  destruct (Pg.number (Pg.arrow "wpm" _)) in Hv; [|done].
  destruct (Pg.number (Pg.arrow "raw" _)) in Hv; [|done].
  destruct (Pg.number (Pg.arrow "accuracy" _)) as [lit|] eqn:El; [|done].
  destruct (Pg.bigint _) in Hv; [|done].
  assert (cl_userID (el_cell e) = cp_UserID (rr_Params r)) as Eu by (injection Hv as <-; done).
  rewrite Eu in Hu, Hb. exists r, v, lit. split; [|done]. cbn. rewrite Hu. cbn. by rewrite Hacc, El, Hb, Hs, orb_true_r.
Qed.

End watch.

(** * The read surface on small tables

    Witnesses for the owner's list and for the public replay of a board row. *)

#[export] Instance toyCast : PgCast :=
  {| cast_numeric lit := match Pg.numeric lit with Some _ => Some lit | None => None end;
     cast_float8 lit := match Pg.numeric lit with Some _ => Some lit | None => None end |}.

#[export] Instance toyCast_laws : PgCastLaws.
Proof. constructor. intros lit [z Hz]. cbn. rewrite Hz. by eexists. Qed.

(** Two runs of one player and one of another. *)
Definition otherParams : @CreateRunParams uuid16_Uuid :=
  paramsOf (playerID 9) (honestReq "en" "130") [40].

Definition threeRuns : tables :=
  CreateRun (playerID 1) 10 (honest "en" "130") (CreateRun (playerID 2) 30 (honest "en" "130")
    (CreateRun (playerID 3) 20 otherParams noTables)).

Definition threeView : runsView :=
  {| rv_now := 0; rv_tables := threeRuns; rv_users := ∅; rv_bans := []; rv_entries := ∅ |}.

Definition idsOf (o : option (list (list Summary))) : list (list UUID) :=
  match o with Some pages => List.map (List.map sm_ID) pages | None => [] end.

Lemma only_own_runs_witness :
  handleDetail threeView (Some uuid_Nil) (uuid_String (playerID 3)) = Refuse apiErrNotFound
  /\ owner threeView (playerID 3) = Some (playerID 9).
Proof.
  assert (owner threeView (playerID 3) = Some (playerID 9)) as Ho by (vm_compute; reflexivity).
  split; [|exact Ho].
  refine (proj1 (proj2 (only_own_runs threeView uuid_Nil) (uuid_String (playerID 3)) (playerID 3) _ _)).
  - apply Parse_String.
  - rewrite Ho. intros E. apply (f_equal (fmap uuid_String)) in E. vm_compute in E. discriminate.
Defined.

Lemma threeRuns_ok id r : tb_runs threeRuns !! id = Some r ->
  is_Some (summaryOf threeView id r) /\ - 2 ^ 63 <= rr_CreatedAt r * 1000 < 2 ^ 63.
Proof.
  cbn [threeRuns CreateRun setRuns tb_runs noTables]. rewrite !lookup_insert_Some, lookup_empty.
  intros [[_ <-]|[_ [[_ <-]|[_ [[_ <-]|[_ ?]]]]]]; [| | |done]; (split; [by eexists|cbn; lia]).
Qed.

Lemma own_runs_listed_witness :
  idsOf (walk 3 (fetchRuns threeView uuid_Nil "1") None) = [[playerID 2]; [playerID 1]]
  /\ exists pages rows, walk (S (length rows)) (fetchRuns threeView uuid_Nil "1") None = Some pages
     /\ summaries threeView rows = Some (concat pages).
Proof.
  split; [vm_compute; reflexivity|].
  destruct (own_runs_listed threeView uuid_Nil "1") as (pages & rows & Hw & Hs & _).
  - intros id r Hr _. exact (threeRuns_ok id r Hr).
  - exists pages, rows. split; [exact Hw|exact Hs].
Defined.

(** The accepted run of [b4] as anyone sees it: the player's profile is closed. *)
Definition boardView : runsView :=
  {| rv_now := 0; rv_tables := w_tables (b4 "en");
     rv_users := {[uuid_Nil := {| ac_DisplayName := "ann"; ac_ProfilePublic := false |}]};
     rv_bans := []; rv_entries := boardOf (b4 "en") |}.

Definition numerals_check (tb : tables) : bool :=
  forallb (fun kv : UUID * verdictRow => match Pg.number (Pg.arrow "accuracy" (vr_ServerMetrics kv.2)) with
    | Some lit => match Pg.numeric lit with Some _ => true | None => false end
    | None => true
    end) (map_to_list (tb_verdicts tb)).

Lemma numerals_checked tb : numerals_check tb = true -> numerals tb.
Proof.
  unfold numerals_check. intros Hf id v lit Hv Hl. rewrite forallb_forall in Hf.
  specialize (Hf (id, v)). cbn in Hf. rewrite Hl in Hf. destruct (Pg.numeric lit); [by eexists|].
  discriminate Hf. apply list_elem_of_In, elem_of_map_to_list. exact Hv.
Qed.

