(* ===== verification/ProfileRead.v ===== *)
(** * internal/profile/profiledb: a player's statistics

    The read queries over the runs, their verdicts, the boards' entries and the keyboard
    rows, each a function of what the statement sees; [None] is a statement that
    raises.  PostgreSQL's text-to-float8 input, its average and its regression are
    parameters, and so is the order in which it feeds rows to an aggregate; counting,
    grouping, ordering, sums and casts are written out.  A day is its number since
    1970-01-01 in UTC. *)

From Stdlib Require Import Sorting.Sorted Strings.Ascii.
From S2P Require Import Prelude GoStd Json Uuid Httpx Keyset Runs Policy Core Decide RunStore Board BoardRead RunRead Keyboard.

Open Scope Z_scope.

(** [None] raises.  Documented: the input of a finite number's text is the nearest
    float8; the average of a list is within its bounds, up to rounding. *)
Class PgFloat := {
  float8in : string -> option F64.f64;
  agg_avg : list F64.f64 -> option F64.f64;
  agg_slope : list (F64.f64 * F64.f64) -> option (option F64.f64) }.  (* NULL: no trend *)

(** Rows come to an aggregate in an order of the database's choosing. *)
Class ScanOrder := {
  scan : forall {A}, list A -> list A;
  scan_perm : forall {A} (l : list A), scan l ≡ₚ l }.

(** ** float8 arithmetic and casts *)

Definition float8_mul (a b : F64.f64) : option F64.f64 :=
  let p := F64.mul a b in if is_inf p && negb (is_inf a) && negb (is_inf b) then None else Some p.
Definition float8_div (a b : F64.f64) : option F64.f64 :=
  let q := F64.div a b in
  if F64.eqb b F64.zero || (is_inf q && negb (is_inf a)) then None else Some q.

(** The greater; NaN is above everything. *)
Definition float8_max (a b : F64.f64) : F64.f64 :=
  if F64.is_nan a then a else if F64.is_nan b then b else if F64.ltb a b then b else a.

(** [rint]: to the nearest integer, halves to even; [None] for what is not finite. *)
Definition rint (x : F64.f64) : option Z :=
  match x with
  | SpecFloat.S754_zero _ => Some 0
  | SpecFloat.S754_finite s m e =>
    let z :=
      if 0 <=? e then Zpos m * 2 ^ e
      else
        let d := 2 ^ (- e) in
        let q := Zpos m / d in
        let r := Zpos m mod d in
        if (2 * r <? d) || ((2 * r =? d) && Z.even q) then q else q + 1 in
    Some (if s then - z else z)
  | _ => None
  end.

Definition floorZ (x : F64.f64) : option Z :=
  match x with
  | SpecFloat.S754_zero _ => Some 0
  | SpecFloat.S754_finite s m e =>
    let z := if s then Zneg m else Zpos m in Some (if 0 <=? e then z * 2 ^ e else z / 2 ^ (- e))
  | _ => None
  end.

Definition ranged (bits : Z) (z : Z) : option Z :=
  if (- 2 ^ (bits - 1) <=? z) && (z <? 2 ^ (bits - 1)) then Some z else None.

Definition float8_bigint (x : F64.f64) : option Z := z ← rint x; ranged 64 z.
Definition float8_int (x : F64.f64) : option Z := z ← rint x; ranged 32 z.

(** Over the non-null values; [coalesce] makes no value zero. *)
Fixpoint sumFrom (acc : F64.f64) (l : list F64.f64) : option F64.f64 :=
  match l with [] => Some acc | x :: l => s ← float8_add acc x; sumFrom s l end.
Definition agg_sum (l : list F64.f64) : option F64.f64 :=
  match l with [] => Some F64.zero | x :: l => sumFrom x l end.
Definition agg_max (l : list F64.f64) : F64.f64 :=
  match l with [] => F64.zero | x :: l => foldl float8_max x l end.

Section read.
Context `{Uuid} `{Gzip} `{GameCore} `{!UuidOrder} `{JsonText} `{PgCast} `{PgFloat} `{ScanOrder} `{!Collation}.

Definition average (l : list F64.f64) : option F64.f64 :=
  match l with [] => Some F64.zero | l => agg_avg l end.

(** ** The rows *)

Record played := { pl_ID : UUID; pl_Run : runRow; pl_Verdict : option verdictRow }.

(** [runs] of one account, LEFT JOIN [run_verdicts]. *)
Definition verdictOf (tb : tables) (id : UUID) (r : runRow) : option verdictRow :=
  v ← tb_verdicts tb !! id;
  if bool_decide (vr_UserID v = cp_UserID (rr_Params r)) then Some v else None.

Definition playedBy (user : UUID) (tb : tables) : list played :=
  (fun kv => {| pl_ID := kv.1; pl_Run := kv.2; pl_Verdict := verdictOf tb kv.1 kv.2 |})
    <$> scan (filter (fun kv => cp_UserID (rr_Params kv.2) = user) (map_to_list (tb_runs tb))).

Definition accepted (p : played) : bool := rr_Status (pl_Run p) =s? Runstatus.Accepted.

(** Accepted, with the verdict the inner join asks for. *)
Definition judged (p : played) : bool := accepted p && bool_decide (is_Some (pl_Verdict p)).

Definition createdAt (p : played) : Z := rr_CreatedAt (pl_Run p).
Definition langOf (p : played) : string := cp_Lang (rr_Params (pl_Run p)).
Definition dayMicros : Z := 86400 * 1000000.
Definition dayOf (p : played) : Z := createdAt p / dayMicros.

Definition serverMetric (k : string) (p : played) : option (option F64.f64) :=
  castOr float8in (Pg.text (Pg.arrow k (pl_Verdict p ≫= vr_ServerMetrics))).

(** The values an aggregate sees: those of the rows that are not null. *)
Definition values (f : played -> option (option F64.f64)) (l : list played) : option (list F64.f64) :=
  omap id <$> mapM f l.

(** A strict operator on nullable operands. *)
Definition lift2 (op : F64.f64 -> F64.f64 -> option F64.f64) (a b : option F64.f64) : option (option F64.f64) :=
  match a, b with Some a, Some b => Some <$> op a b | _, _ => Some None end.

(** A count cast to an int, which holds as many rows as there are. *)
Definition count {A} (l : list A) : Z := Z.of_nat (length l).

(** GROUP BY 1 ORDER BY 1, on a key of type Z. *)
Definition grouped {A} (key : A -> Z) (l : list A) : list (Z * list A) :=
  (fun k => (k, filter (fun a => key a = k) l)) <$> order_by id Z.ltb (remove_dups (key <$> l)).

(** ** The summary's queries *)

Definition milliseconds (p : played) : option (option F64.f64) :=
  s ← serverMetric "durationSec" p; lift2 float8_mul s (Some (F64.of_Z 1000)).

(** [coalesce(sum(durationSec * 1000) FILTER (accepted), 0)::bigint] *)
Definition timeTyping (l : list played) : option Z :=
  ms ← values milliseconds (filter (fun p => accepted p = true) l);
  s ← agg_sum ms; float8_bigint s.

Definition charCount (k : string) (p : played) : option (option F64.f64) :=
  castOr float8in (Pg.text (Pg.arrow k (Pg.arrow "chars" (pl_Verdict p ≫= vr_ServerMetrics)))).

Definition estimatedWords (p : played) : option (option F64.f64) :=
  c ← charCount "correct" p; i ← charCount "incorrect" p; e ← charCount "extra" p; s ← serverMetric "spaces" p;
  ci ← lift2 float8_add c i; cie ← lift2 float8_add ci e; all ← lift2 float8_add cie s;
  lift2 float8_div all (Some (F64.of_Z 5)).

Record ProfileCounts := {
  pc_TestsCompleted : Z; pc_Restarts : Z; pc_TimeTypingMs : Z; pc_EstimatedWords : F64.f64 }.

Definition restartsOf (p : played) : Z := cp_RestartsSinceLastSubmit (rr_Params (pl_Run p)).

Definition GetProfileCounts (user : UUID) (tb : tables) : option ProfileCounts :=
  let l := playedBy user tb in
  restarts ← ranged 64 (sumOf restartsOf l);
  ms ← timeTyping l;
  ws ← values estimatedWords (filter (fun p => accepted p = true) l);
  words ← agg_sum ws;
  Some {| pc_TestsCompleted := count l; pc_Restarts := restarts; pc_TimeTypingMs := ms; pc_EstimatedWords := words |}.

Record MetricPair := { mp_Highest : F64.f64; mp_Average : F64.f64 }.

Definition metricStats (k : string) (l : list played) : option MetricPair :=
  vs ← values (serverMetric k) l;
  avg ← average vs;
  Some {| mp_Highest := agg_max vs; mp_Average := avg |}.

Record ProfileMetricStats := {
  ps_Wpm : MetricPair; ps_Raw : MetricPair; ps_Acc : MetricPair; ps_Consistency : MetricPair }.

Definition judgedBy (user : UUID) (tb : tables) : list played := filter (fun p => judged p = true) (playedBy user tb).

Definition GetProfileMetricStats (user : UUID) (tb : tables) : option ProfileMetricStats :=
  let l := judgedBy user tb in
  wpm ← metricStats "wpm" l; raw ← metricStats "raw" l; acc ← metricStats "accuracy" l;
  cons ← metricStats "consistency" l;
  Some {| ps_Wpm := wpm; ps_Raw := raw; ps_Acc := acc; ps_Consistency := cons |}.

(** Newest first. *)
Definition playedAt (p : played) : Z * Z := (createdAt p, uuid_key (pl_ID p)).

Record ProfileLast10 := { pt_Wpm : F64.f64; pt_Raw : F64.f64; pt_Acc : F64.f64; pt_Consistency : F64.f64 }.

Definition averageOf (k : string) (l : list played) : option F64.f64 := vs ← values (serverMetric k) l; average vs.

Definition GetProfileLast10 (user : UUID) (tb : tables) : option ProfileLast10 :=
  let l := take 10 (order_by playedAt newer (judgedBy user tb)) in
  wpm ← averageOf "wpm" l; raw ← averageOf "raw" l; acc ← averageOf "accuracy" l; cons ← averageOf "consistency" l;
  Some {| pt_Wpm := wpm; pt_Raw := raw; pt_Acc := acc; pt_Consistency := cons |}.

(** *** Streaks: gaps and islands *)

Definition playedDays (user : UUID) (tb : tables) : list Z :=
  order_by id Z.ltb (remove_dups (dayOf <$> playedBy user tb)).

(** A day and the anchor [day - row_number] it shares with the days of its island. *)
Definition islands (days : list Z) : list (Z * Z) := imap (fun i day => (day, day - (Z.of_nat i + 1))) days.

(** Each island's length and last day. *)
Definition lengths (days : list Z) : list (Z * Z) :=
  (fun g => (count g.2, foldr Z.max (default 0 (head g.2.*1)) g.2.*1)) <$> grouped snd (islands days).

Record Streaks := { st_Current : Z; st_Best : Z }.

Definition GetProfileStreaks (user : UUID) (today : Z) (tb : tables) : Streaks :=
  let ls := lengths (playedDays user tb) in
  {| st_Best := foldr Z.max 0 ls.*1;
     st_Current := foldr Z.max 0 (filter (fun l => today - 1 <= l.2) ls).*1 |}.

(** *** Languages *)

(** Most played first, then by name. *)
Definition byTests : Z * string -> Z * string -> bool := lexicographic Z.gtb text_lt.

Definition langCounts (l : list played) : list (Z * string) :=
  order_by id byTests ((fun lang => (count (filter (fun p => langOf p = lang) l), lang)) <$> remove_dups (langOf <$> l)).

Definition GetProfileLanguages (user : UUID) (tb : tables) : list (Z * string) := langCounts (playedBy user tb).

Definition GetProfileDominantLang (user : UUID) (tb : tables) : option string :=
  snd <$> head (langCounts (playedBy user tb)).

(** ** Calendars and charts *)

Record ActivityDay := { ad_Day : Z; ad_Tests : Z; ad_TimeMs : Z }.

Definition GetProfileActivity (user : UUID) (since : Z) (tb : tables) : option (list ActivityDay) :=
  mapM (fun g => ms ← timeTyping g.2; Some {| ad_Day := g.1; ad_Tests := count g.2; ad_TimeMs := ms |})
    (grouped dayOf (filter (fun p => since <= createdAt p) (playedBy user tb))).

Record HistogramBucket := { hb_Bucket : Z; hb_Tests : Z }.

(** [(floor(wpm / 10) * 10)::int]; null groups with null and does not scan. *)
Definition wpmBucket (p : played) : option Z :=
  w ← serverMetric "wpm" p; w ← w;
  tenth ← float8_div w (F64.of_Z 10);
  f ← floorZ tenth;
  float8_int (F64.mul (F64.of_Z f) (F64.of_Z 10)).

Definition GetProfileHistogram (user : UUID) (tb : tables) : option (list HistogramBucket) :=
  bs ← mapM wpmBucket (judgedBy user tb);
  Some ((fun g => {| hb_Bucket := g.1; hb_Tests := count g.2 |}) <$> grouped id bs).

Record TimeseriesDay := { td_Day : Z; td_TimeMs : Z; td_AvgWpm : F64.f64; td_AvgAcc : F64.f64 }.

Definition inWindow (from to_ : Z) (p : played) : bool := (from <=? createdAt p) && (createdAt p <? to_).

Definition GetProfileTimeseries (user : UUID) (from to_ : Z) (tb : tables) : option (list TimeseriesDay) :=
  mapM (fun g =>
      ms ← timeTyping g.2;
      wpm ← averageOf "wpm" (filter (fun p => accepted p = true) g.2);
      acc ← averageOf "accuracy" (filter (fun p => accepted p = true) g.2);
      Some {| td_Day := g.1; td_TimeMs := ms; td_AvgWpm := wpm; td_AvgAcc := acc |})
    (grouped dayOf (filter (fun p => inWindow from to_ p = true) (playedBy user tb))).

(** One point a day: the day's average, and the hours typed in the range by its end.  A
    day without a value for either is no point of the regression. *)
Fixpoint points (typed : option F64.f64) (days : list (Z * list played))
    : option (list (F64.f64 * F64.f64)) :=
  match days with
  | [] => Some []
  | g :: days =>
    ws ← values (serverMetric "wpm") g.2;
    secs ← values (serverMetric "durationSec") g.2;
    typed ← match secs, typed with
            | [], typed => Some typed
            | secs, None => Some <$> agg_sum secs
            | secs, Some t => s ← agg_sum secs; Some <$> float8_add t s
            end;
    hours ← lift2 float8_div typed (Some (F64.of_Z 3600));
    wpm ← match ws with [] => Some None | ws => Some <$> agg_avg ws end;
    rest ← points typed days;
    Some (match wpm, hours with Some w, Some h => (w, h) :: rest | _, _ => rest end)
  end.

Definition GetProfileWpmPerHour (user : UUID) (from to_ : Z) (tb : tables) : option F64.f64 :=
  pts ← points None (grouped dayOf (filter (fun p => inWindow from to_ p = true) (judgedBy user tb)));
  default F64.zero <$> agg_slope pts.

(** ** Personal bests and public runs *)

Record PB := {
  pb_BucketKey : string; pb_RunID : UUID; pb_Score : Z; pb_Wpm : F64.f64; pb_Raw : F64.f64; pb_Acc : F64.f64;
  pb_Grade : string; pb_Mods : json; pb_QuoteSource : option string; pb_AchievedAt : Z }.

Definition asPB (kv : (string * UUID) * entryRow) : option PB :=
  let e := kv.2 in
  wpm ← float8in (er_WPM e); raw ← float8in (er_Raw e); acc ← float8in (er_Acc e);
  Some {| pb_BucketKey := kv.1.1; pb_RunID := er_RunID e; pb_Score := er_Score e; pb_Wpm := wpm; pb_Raw := raw;
          pb_Acc := acc; pb_Grade := er_Grade e; pb_Mods := er_Mods e; pb_QuoteSource := er_QuoteSource e;
          pb_AchievedAt := er_AchievedAt e |}.

(** The order of equal instants is the database's. *)
Definition GetProfilePBs (user : UUID) (s : runsView) : option (list PB) :=
  mapM asPB (order_by (fun kv => er_AchievedAt kv.2) Z.gtb
    (filter (fun kv => kv.1.2 = user) (map_to_list (rv_entries s)))).

Definition GetPublicProfilePBs (user : UUID) (s : runsView) : option (list PB) :=
  if isBanned s user then Some [] else GetProfilePBs user s.

Record PublicRun := {
  pr_ID : UUID; pr_Mode : string; pr_DurationMs : option Z; pr_WordCount : option Z; pr_Lang : string;
  pr_ServerMetrics : option json; pr_ServerScore : option json; pr_CreatedAt : Z; pr_Derived : DerivedCells }.

(** [publicRunOf]; the cells come out of the query as they go into [derived]. *)
Definition publicRunOf (p : played) : option PublicRun :=
  let q := rr_Params (pl_Run p) in
  d ← derived (pl_Run p) (pl_Verdict p);
  Some {| pr_ID := pl_ID p; pr_Mode := cp_Mode q; pr_DurationMs := cp_DurationMs q; pr_WordCount := cp_WordCount q;
          pr_Lang := cp_Lang q; pr_ServerMetrics := pl_Verdict p ≫= vr_ServerMetrics;
          pr_ServerScore := pl_Verdict p ≫= vr_ServerScore; pr_CreatedAt := createdAt p; pr_Derived := d |}.

(** The WHERE clause of both pages. *)
Definition publicRuns (user : UUID) (s : runsView) : list played :=
  if isBanned s user then [] else judgedBy user (rv_tables s).

Definition GetPublicProfileRunsFirst (user : UUID) (limit : Z) (s : runsView) : option (list PublicRun) :=
  mapM publicRunOf (take (Z.to_nat limit) (order_by playedAt newer (publicRuns user s))).

Definition olderPlayed (created : Z) (id : UUID) (p : played) : bool :=
  (createdAt p <=? created)
  && ((createdAt p <? created) || ((createdAt p =? created) && (uuid_key (pl_ID p) <? uuid_key id))).

Definition GetPublicProfileRunsAfter (user : UUID) (created : Z) (id : UUID) (limit : Z) (s : runsView)
    : option (list PublicRun) :=
  mapM publicRunOf (take (Z.to_nat limit)
    (order_by playedAt newer (filter (fun p => olderPlayed created id p = true) (publicRuns user s)))).

(** ** The keyboard *)

Record KeyboardKey := {
  kk_KeyID : string; kk_Presses : Z; kk_Errors : Z; kk_IntervalSumMs : F64.f64; kk_IntervalCount : Z }.

Definition GetProfileKeyboard (user : UUID) (kb : kbTables) : list KeyboardKey :=
  (fun kr => {| kk_KeyID := kr.1.2; kk_Presses := kr_Presses kr.2; kk_Errors := kr_Errors kr.2;
                kk_IntervalSumMs := kr_IntervalSumMs kr.2; kk_IntervalCount := kr_IntervalCount kr.2 |})
    <$> order_by (fun kr => kr.1.2) text_lt (filter (fun kr => kr.1.1 = user) (map_to_list (kb_rows kb))).
End read.
