(* ===== verification/ProfileHandlers.v ===== *)
(** * internal/profile: the owner's surface and the public one

    service.go, handler.go, public.go and me_profile.go as programs over the statements
    of ProfileStore and ProfileRead, behind the gates cmd/server puts in front of them.
    The pgstore's [ApplyProfilePatch] is one transaction: a read, where it needs one,
    and writes that take effect together when it commits; the locks those writes hold
    until then make committed saves one after another, but the read takes none. *)

From Stdlib Require Import Strings.Ascii.
From S2P Require Import Prelude GoStd Effects Uuid Httpx Keyset Json AuthText AuthPassword AuthStore AuthFlow QuoteStore ModStore ProfileStore ModHandlers Bucket Runs Policy Core Decide RunStore Board BoardRead RunRead Keyboard ProfileRead.

Open Scope Z_scope.

(** The order in which Go ranges over a map, which it does not fix; the argument tells
    one loop from another. *)
Class MapRange := {
  map_range : nat -> gmap string string -> list (string * string);
  map_range_perm : forall n m, map_range n m ≡ₚ map_to_list m }.

Section handlers.
Context `{Uuid} `{PgText} `{Argon2} `{!UuidOrder} `{!Env} `{LowerTable} `{MapRange}.

(** ** Effects *)

Inductive pquery : Type -> Type :=
| qPublicUser (name : string) : pquery PublicUser
| qIdentity (user : UUID) : pquery Identity_
| qLinks (user : UUID) : pquery (list Link)
| qGranted (user : UUID) : pquery (list GrantedBadge)
| qShowcase (user : UUID) : pquery (list ShowcaseBadge)
| qSearch (pattern needle : string) (limit : Z) : pquery (list SearchResult)
| qProfileUser (user : UUID) : pquery (string * Z)
| qCounts (user : UUID) : pquery ProfileCounts
| qMetricStats (user : UUID) : pquery ProfileMetricStats
| qLast10 (user : UUID) : pquery ProfileLast10
| qStreaks (user : UUID) (today : Z) : pquery Streaks
| qLanguages (user : UUID) : pquery (list (Z * string))
| qActivity (user : UUID) (since : Z) : pquery (list ActivityDay)
| qHistogram (user : UUID) : pquery (list HistogramBucket)
| qTimeseries (user : UUID) (from to_ : Z) : pquery (list TimeseriesDay)
| qWpmPerHour (user : UUID) (from to_ : Z) : pquery F64.f64
| qPBs (user : UUID) : pquery (list PB)
| qPublicPBs (user : UUID) : pquery (list PB)
| qRunsFirst (user : UUID) (limit : Z) : pquery (list PublicRun)
| qRunsAfter (user : UUID) (created : Z) (id : UUID) (limit : Z) : pquery (list PublicRun)
| qKeyboard (user : UUID) : pquery (list KeyboardKey)
| qDominantLang (user : UUID) : pquery string.

(** What one save writes, in the order it writes it. *)
Record profileWrites := {
  wr_Identity : option (option string * option string);
  wr_Links : list (string * string);  (* an empty handle deletes *)
  wr_Showcase : option (list string) }.

Inductive peff : Type -> Type :=
| Moderation {X} (e : meff X) : peff X
| Look {A} (q : pquery A) : peff (A + sqlError)
| Commit (user : UUID) (w : profileWrites) : peff (unit + sqlError)
| AllowSearch (key : string) : peff bool.

Definition pprog (A : Type) : Type := Effects.prog peff A.

Definition look {A} (q : pquery A) : pprog (A + sqlError) := Effects.trigger (Look q).

(** A program of the moderation service, and so one of the auth service's. *)
Fixpoint moderated {A} (p : mprog A) : pprog A :=
  match p with
  | Ret a => Ret a
  | Vis e k => Vis (Moderation e) (fun x => moderated (k x))
  end.

(** ** What is answered *)

Record MetricStats := { ms_Highest : F64.f64; ms_Average : F64.f64; ms_AverageLast10 : F64.f64 }.

Record Summary := {
  su_DisplayName : string; su_Joined : Z; su_TestsStarted : Z; su_TestsCompleted : Z;
  su_RestartsPerCompleted : F64.f64; su_TimeTypingMs : Z; su_EstimatedWordsTyped : Z;
  su_Wpm : MetricStats; su_Raw : MetricStats; su_Acc : MetricStats; su_Consistency : MetricStats;
  su_Streak : Streaks; su_Languages : list (Z * string) }.

Record BucketInfo := {
  bi_Mode : string; bi_DurationMs : option Z; bi_WordCount : option Z; bi_Lang : string; bi_TextSource : string;
  bi_QuoteID : option UUID }.

Record pbView := { pv_PB : PB; pv_Info : option BucketInfo }.

Record keyboardKeyView := {
  kv_KeyID : string; kv_Count : Z; kv_ErrorRate : F64.f64; kv_AvgIntervalMs : F64.f64; kv_Intervals : Z }.

Record headerView := {
  hv_ID : UUID; hv_Name : string; hv_Joined : Z; hv_Public : bool; hv_Restricted : bool;
  hv_Bio : option string; hv_Keyboard : option string; hv_Links : list Link; hv_Badges : list string }.

Record ownBadgeView := { ob_Code : string; ob_Shown : bool; ob_Order : option Z }.
Record ownIdentityView := {
  ow_Bio : option string; ow_Keyboard : option string; ow_Links : list Link; ow_Badges : list ownBadgeView;
  ow_KnownBadges : list string }.

Inductive pbody :=
| SummaryBody (s : Summary) | ActivityBody (l : list ActivityDay) | HistogramBody (l : list HistogramBucket)
| TimeseriesBody (l : list TimeseriesDay) (wpmPerHour : F64.f64) | PBsBody (l : list pbView)
| KeyboardBody (layout : string) (keys : list keyboardKeyView) | HeaderBody (v : headerView)
| SearchBody (l : list SearchResult) | PublicRunsBody (l : list PublicRun) (nextCursor : string)
| OwnBody (v : ownIdentityView) | LinkRefused (e : linkError) | ProfileError (code message : string).

Inductive panswer := PReply (status : Z) (b : pbody) | PFromAuth (a : AuthFlow.answer).

Definition pok (b : pbody) : panswer := PReply 200 b.

(** errors.go *)
Definition apiErrInternal : panswer := PReply 500 (ProfileError "internal" "an unexpected error occurred").
Definition apiErrNotFound : panswer := PReply 404 (ProfileError "not_found" "no such profile").
Definition apiErrProfileClosed : panswer := PReply 403 (ProfileError "profile_closed" "this profile is private").
Definition apiErrPortraitClosed : panswer :=
  PReply 403 (ProfileError "portrait_closed" "the keyboard portrait is private").
Definition apiErrRateLimited : panswer :=
  PReply 429 (ProfileError "rate_limited" "too many requests, slow down").
Definition apiErrBadRequest (message : string) : panswer := PReply 400 (ProfileError "bad_request" message).

(** Any error of a statement but one the caller knows. *)
Definition orInternal {A} (r : A + sqlError) (next : A -> pprog panswer) : pprog panswer :=
  match r with inl a => next a | inr _ => Ret apiErrInternal end.

Definition looking {A} (q : pquery A) (next : A -> pprog panswer) : pprog panswer :=
  let! r := look q in orInternal r next.

Definition clock : pprog Z := moderated (meff_ Clock).

Definition dayNanos : Z := 86400 * 1000000000.

(** ** handler.go: what both surfaces serve *)

Definition metricStatsOf (p : MetricPair) (last10 : F64.f64) : MetricStats :=
  {| ms_Highest := mp_Highest p; ms_Average := mp_Average p; ms_AverageLast10 := last10 |}.

(** [Summary]: six queries at once in the code; whatever their order, the first that
    fails decides. *)
Definition serveSummary (user : UUID) : pprog panswer :=
  let! now := clock in
  looking (qProfileUser user) (fun u =>
  looking (qCounts user) (fun counts =>
  looking (qMetricStats user) (fun stats =>
  looking (qLast10 user) (fun last10 =>
  looking (qStreaks user (now / dayNanos)) (fun streaks =>
  looking (qLanguages user) (fun languages =>
    let completed := pc_TestsCompleted counts in
    Ret (pok (SummaryBody
      {| su_DisplayName := u.1; su_Joined := u.2;
         su_TestsStarted := Int.int64 (completed + pc_Restarts counts);
         su_TestsCompleted := completed;
         su_RestartsPerCompleted :=
           if 0 <? completed then F64.div (F64.of_Z (pc_Restarts counts)) (F64.of_Z completed) else F64.zero;
         su_TimeTypingMs := pc_TimeTypingMs counts;
         su_EstimatedWordsTyped := default 0 (floorZ (F64.round (pc_EstimatedWords counts)));
         su_Wpm := metricStatsOf (ps_Wpm stats) (pt_Wpm last10);
         su_Raw := metricStatsOf (ps_Raw stats) (pt_Raw last10);
         su_Acc := metricStatsOf (ps_Acc stats) (pt_Acc last10);
         su_Consistency := metricStatsOf (ps_Consistency stats) (pt_Consistency last10);
         su_Streak := streaks; su_Languages := languages |})))))))).

Definition activityDaysDefault : Z := 366.
Definition activityDaysMax : Z := 366.

(** The [days] parameter, or the refusal. *)
Definition activityDays (raw : string) : option Z :=
  if raw =s? "" then Some activityDaysDefault
  else
    match Strconv.Atoi raw with
    | Some n => if n <? 1 then None else Some (Z.min n activityDaysMax)
    | None => None
    end.

(** UTC midnight [days - 1] days before today's. *)
Definition windowStart (now days : Z) : Z := (now / dayNanos - (days - 1)) * dayNanos.

Definition serveActivity (days : string) (user : UUID) : pprog panswer :=
  match activityDays days with
  | None => Ret (apiErrBadRequest "days must be a positive integer")
  | Some days =>
    let! now := clock in
    looking (qActivity user (timestamptz (windowStart now days))) (fun l => Ret (pok (ActivityBody l)))
  end.

Definition serveHistogram (user : UUID) : pprog panswer :=
  looking (qHistogram user) (fun l => Ret (pok (HistogramBody l))).

(** [time.Parse] with the layout 2006-01-02; nanoseconds. *)
Definition parseDate (raw : string) : option Z :=
  '(y, s) ← Calendar.year (bytes_of raw);
  s ← Calendar.skip1 45 s; '(mo, s) ← Calendar.within 1 12 (Calendar.getnum true s);
  s ← Calendar.skip1 45 s; '(d, s) ← Calendar.getnum true s;
  if bool_decide (s = []) && (1 <=? d) && (d <=? Calendar.daysIn mo y)
  then Some (Calendar.instant y mo d 0 0 0 0 0) else None.

Definition parseDayBound (raw : string) : option Z :=
  match Calendar.ParseRFC3339 raw with Some t => Some t | None => parseDate raw end.

(** The window, or the message of the refusal. *)
Definition seriesWindow (now : Z) (from to_ : string) : (Z * Z) + string :=
  match (if from =s? "" then Some 0 else parseDayBound from) with
  | None => inr "from must be RFC3339 or YYYY-MM-DD"
  | Some start =>
    match (if to_ =s? "" then Some now
           else t ← parseDayBound to_; Some (if slen to_ =? 10 then t + dayNanos else t)) with
    | None => inr "to must be RFC3339 or YYYY-MM-DD"
    | Some finish => if finish <=? start then inr "to must be after from" else inl (start, finish)
    end
  end.

(** The handler reads the clock only where it has to; it has no effect. *)
Definition serveTimeseries (from to_ : string) (user : UUID) : pprog panswer :=
  let! now := clock in
  match seriesWindow now from to_ with
  | inr message => Ret (apiErrBadRequest message)
  | inl (start, finish) =>
    looking (qTimeseries user (timestamptz start) (timestamptz finish)) (fun l =>
    looking (qWpmPerHour user (timestamptz start) (timestamptz finish)) (fun slope =>
      Ret (pok (TimeseriesBody l slope))))
  end.

(** cmd/server's adapter of [ParseBucketKey]. *)
Definition bucketInfo (key : string) : option BucketInfo :=
  match ParseBucketKey key with
  | inr _ => None
  | inl b =>
    let info dur words quote :=
      {| bi_Mode := Mode b; bi_DurationMs := dur; bi_WordCount := words; bi_Lang := Lang b;
         bi_TextSource := TextSource b; bi_QuoteID := quote |} in
    Some (if negb (bool_decide (QuoteID b = uuid_Nil)) then info None None (Some (QuoteID b))
          else if Mode b =s? ModeTime then info (Some (Dimension b)) None None
          else if Mode b =s? ModeWords then info None (Some (Dimension b)) None
          else info None None None)
  end.

Definition servePBs (l : list PB) : panswer :=
  pok (PBsBody ((fun pb => {| pv_PB := pb; pv_Info := bucketInfo (pb_BucketKey pb) |}) <$> l)).

Definition keyView (k : KeyboardKey) : keyboardKeyView :=
  {| kv_KeyID := kk_KeyID k; kv_Count := kk_Presses k;
     kv_ErrorRate := if 0 <? kk_Presses k then F64.div (F64.of_Z (kk_Errors k)) (F64.of_Z (kk_Presses k)) else F64.zero;
     kv_AvgIntervalMs :=
       if 0 <? kk_IntervalCount k then F64.div (kk_IntervalSumMs k) (F64.of_Z (kk_IntervalCount k)) else F64.zero;
     kv_Intervals := kk_IntervalCount k |}.

Definition serveKeyboard (user : UUID) : pprog panswer :=
  looking (qKeyboard user) (fun keys =>
    let! lang := look (qDominantLang user) in
    match lang with
    | inl lang => Ret (pok (KeyboardBody (LayoutFor lang) (keyView <$> keys)))
    | inr (Pg NoRows) => Ret (pok (KeyboardBody (LayoutFor "") (keyView <$> keys)))
    | inr _ => Ret apiErrInternal
    end).

(** ** public.go *)

Definition searchMinQueryLen : Z := 3.
Definition searchMaxQueryLen : Z := 20.
Definition searchDefaultLimit : Z := 20.
Definition searchMaxLimit : Z := 50.

(** pgstore *)
Definition SearchUsers (name : string) (limit : Z) : pprog (list SearchResult + sqlError) :=
  let needle := AuthText.ToLower env_lower name in look (qSearch (likeEscape needle) needle limit).

Definition handleSearch (q limit : string) : pprog panswer :=
  let q := Strs.TrimSpace q in
  let n := Utf8.rune_count q in
  if (n <? searchMinQueryLen) || (searchMaxQueryLen <? n)
  then Ret (apiErrBadRequest "q must be between 3 and 20 characters")
  else
    let! r := SearchUsers q (ParseLimit limit searchDefaultLimit searchMaxLimit) in
    orInternal r (fun l => Ret (pok (SearchBody l))).

Definition rateLimitSearch (r : request) (next : pprog panswer) : pprog panswer :=
  let! ok := Effects.trigger (AllowSearch (rq_IP r)) in
  if ok : bool then next else Ret apiErrRateLimited.

Definition resolvePublicUser (name : string) (next : PublicUser -> pprog panswer) : pprog panswer :=
  let! u := look (qPublicUser name) in
  match u with
  | inl u => next u
  | inr (Pg NoRows) => Ret apiErrNotFound
  | inr _ => Ret apiErrInternal
  end.

Definition isOwner (caller : option User) (user : PublicUser) : bool :=
  match caller with Some u => bool_decide (us_ID u = pu_ID user) | None => false end.

(** [Identity]: no row reads as nothing set. *)
Definition Identity (user : UUID) : pprog (Identity_ + sqlError) :=
  let! r := look (qIdentity user) in
  Ret (match r with inr (Pg NoRows) => inl {| pi_Bio := None; pi_Keyboard := None |} | r => r end).

Definition bareHeader (user : PublicUser) (restricted : bool) : headerView :=
  {| hv_ID := pu_ID user; hv_Name := pu_DisplayName user; hv_Joined := pu_Joined user;
     hv_Public := pu_ProfilePublic user; hv_Restricted := restricted;
     hv_Bio := None; hv_Keyboard := None; hv_Links := []; hv_Badges := [] |}.

Definition decorated (v : headerView) (i : Identity_) (links : list Link) (shown : list ShowcaseBadge) : headerView :=
  {| hv_ID := hv_ID v; hv_Name := hv_Name v; hv_Joined := hv_Joined v; hv_Public := hv_Public v;
     hv_Restricted := hv_Restricted v; hv_Bio := pi_Bio i; hv_Keyboard := pi_Keyboard i; hv_Links := links;
     hv_Badges := sb_Code <$> shown |}.

Definition decorateHeader (user : UUID) (v : headerView) : pprog panswer :=
  let! identity := Identity user in
  orInternal identity (fun identity =>
  looking (qLinks user) (fun links =>
  looking (qShowcase user) (fun shown =>
    Ret (pok (HeaderBody (decorated v identity links shown)))))).

Definition handlePublicHeader (caller : option User) (name : string) : pprog panswer :=
  resolvePublicUser name (fun user =>
    let! restricted := moderated (restriction (pu_ID user)) in
    let v := bareHeader user (match restricted with inl b => b | inr _ => false end) in
    if pu_ProfilePublic user || isOwner caller user then decorateHeader (pu_ID user) v
    else Ret (pok (HeaderBody v))).

Definition publicData (serve : UUID -> pprog panswer) (caller : option User) (name : string) : pprog panswer :=
  resolvePublicUser name (fun user =>
    if negb (pu_ProfilePublic user) && negb (isOwner caller user) then Ret apiErrProfileClosed
    else serve (pu_ID user)).

Definition handlePublicPBs : option User -> string -> pprog panswer :=
  publicData (fun user => looking (qPublicPBs user) (fun l => Ret (servePBs l))).

Definition handlePublicPortrait (caller : option User) (name : string) : pprog panswer :=
  resolvePublicUser name (fun user =>
    if isOwner caller user then serveKeyboard (pu_ID user)
    else if negb (pu_ProfilePublic user) then Ret apiErrProfileClosed
    else if negb (pu_KeyboardPublic user) then Ret apiErrPortraitClosed
    else serveKeyboard (pu_ID user)).

Definition publicRunsDefaultLimit : Z := 20.
Definition publicRunsMaxLimit : Z := 100.

Definition PublicRuns (user : UUID) (after : option RunRead.Cursor) (limit : Z) : pprog (list PublicRun + sqlError) :=
  match after with
  | None => look (qRunsFirst user limit)
  | Some c => look (qRunsAfter user (timestamptz (RunRead.cu_CreatedAt c)) (RunRead.cu_ID c) limit)
  end.

(** The same token as the owner's feed. *)
Definition publicToken (r : PublicRun) : string :=
  RunRead.encodeCursor {| RunRead.cu_CreatedAt := pr_CreatedAt r * 1000; RunRead.cu_ID := pr_ID r |}.

Definition publicCursor (raw : string) : option (option RunRead.Cursor) :=
  if raw =s? "" then Some None else Some <$> RunRead.decodeCursor raw.

Definition handlePublicRuns (limit cursor : string) : option User -> string -> pprog panswer :=
  publicData (fun user =>
    let limit := ParseLimit limit publicRunsDefaultLimit publicRunsMaxLimit in
    match publicCursor cursor with
    | None => Ret (apiErrBadRequest "invalid cursor")
    | Some after =>
      let! rows := PublicRuns user after (limit + 1) in
      orInternal rows (fun rows =>
        let '(page, last) := cut_page (Z.to_nat limit) rows in
        Ret (pok (PublicRunsBody page (match last with Some r => publicToken r | None => "" end))))
    end).

(** ** me_profile.go *)

(** A patch: what is not [Set] is left alone, [Bio] of a set one clears it when absent. *)
Record Patch := {
  pa_Bio : option string; pa_SetBio : bool; pa_Keyboard : option string; pa_SetKeyboard : bool;
  pa_Links : option (gmap string string); pa_Showcase : option (list string) }.

Record profilePatchRequest := {
  rp_Bio : option string; rp_Keyboard : option string; rp_Links : option (gmap string string);
  rp_Showcase : option (list string) }.

(** A map of strings: [null] is the nil map, a member is decoded afresh. *)
Definition dec_map : Json.decoder (option (gmap string string)) := fun cur j =>
  match j with
  | JNull => Some None
  | JObj m =>
    Some <$> foldl (fun (acc : option (gmap string string)) kv =>
      acc ← acc; v ← Json.dec_string "" kv.2; Some (<[kv.1 := v]> acc)) (Some (default ∅ cur)) m
  | _ => None
  end.

Definition dec_patch : Json.decoder profilePatchRequest :=
  Json.dec_strict ["bio"; "keyboard"; "links"; "showcase"] (fun f =>
    if f =s? "bio"
    then Json.field rp_Bio (fun x p => {| rp_Bio := x; rp_Keyboard := rp_Keyboard p; rp_Links := rp_Links p;
           rp_Showcase := rp_Showcase p |}) (Json.dec_ptr "" Json.dec_string)
    else if f =s? "keyboard"
    then Json.field rp_Keyboard (fun x p => {| rp_Bio := rp_Bio p; rp_Keyboard := x; rp_Links := rp_Links p;
           rp_Showcase := rp_Showcase p |}) (Json.dec_ptr "" Json.dec_string)
    else if f =s? "links"
    then Json.field rp_Links (fun x p => {| rp_Bio := rp_Bio p; rp_Keyboard := rp_Keyboard p; rp_Links := x;
           rp_Showcase := rp_Showcase p |}) dec_map
    else Json.field rp_Showcase (fun x p => {| rp_Bio := rp_Bio p; rp_Keyboard := rp_Keyboard p;
           rp_Links := rp_Links p; rp_Showcase := x |}) (Json.dec_ptr [] (Json.dec_list Json.dec_string ""))).

Definition decodePatch (r : request) : option profilePatchRequest :=
  j ← rq_Body r;
  Json.unmarshal dec_patch {| rp_Bio := None; rp_Keyboard := None; rp_Links := None; rp_Showcase := None |} j.

Definition showcaseMaxLen : Z := 16.

(** One of the two texts: whether it is set, and to what; or the refusal. *)
Definition textField (field : string) (max : Z) (text : option string) : (bool * option string) + panswer :=
  match text with
  | None => inl (false, None)
  | Some s =>
    match normalizeText s max with
    | inl v => inl (true, v)
    | inr _ => inr (apiErrBadRequest (field +:+ " is too long"))
    end
  end.

(** The loop over [req.Links]. *)
Fixpoint checkLinks (l : list (string * string)) (links : gmap string string) : gmap string string + panswer :=
  match l with
  | [] => inl links
  | (kind, handle) :: l =>
    let handle := Strs.TrimSpace handle in
    if handle =s? "" then
      if negb (knownLinkKind kind) then inr (apiErrBadRequest ("unknown link kind: " +:+ kind))
      else checkLinks l (<[kind := ""]> links)
    else
      match ValidateLink kind handle with
      | Some e => inr (PReply 400 (LinkRefused e))
      | None => checkLinks l (<[kind := handle]> links)
      end
  end.

Definition linksField (links : option (gmap string string)) : option (gmap string string) + panswer :=
  match links with
  | None => inl None
  | Some m => match checkLinks (map_range 0 m) ∅ with inl m => inl (Some m) | inr e => inr e end
  end.

(** The loop over the showcase's codes; [None] accepts them. *)
Fixpoint checkCodes (held seen : gset string) (codes : list string) : option panswer :=
  match codes with
  | [] => None
  | code :: codes =>
    if negb (bool_decide (code ∈ held)) then Some (apiErrBadRequest "that badge is not yours to show")
    else if bool_decide (code ∈ seen) then Some (apiErrBadRequest "a badge cannot appear twice in the showcase")
    else checkCodes held ({[ code ]} ∪ seen) codes
  end.

(** pgstore: the transaction. *)
Definition ApplyProfilePatch (user : UUID) (p : Patch) : pprog (unit + sqlError) :=
  let commit identity :=
    Effects.trigger (Commit user
      {| wr_Identity := identity;
         wr_Links := match pa_Links p with Some m => map_range 1 m | None => [] end;
         wr_Showcase := pa_Showcase p |}) in
  if pa_SetBio p || pa_SetKeyboard p then
    if negb (pa_SetBio p) || negb (pa_SetKeyboard p) then
      let! current := Identity user in
      match current with
      | inr e => Ret (inr e)
      | inl current =>
        commit (Some (if pa_SetBio p then pa_Bio p else pi_Bio current,
                      if pa_SetKeyboard p then pa_Keyboard p else pi_Keyboard current))
      end
    else commit (Some (pa_Bio p, pa_Keyboard p))
  else commit None.

Definition ownBadge (g : GrantedBadge) : ownBadgeView :=
  {| ob_Code := gb_Code g; ob_Shown := bool_decide (is_Some (gb_Order g)); ob_Order := gb_Order g |}.

Definition serveOwnProfileIdentity (user : UUID) : pprog panswer :=
  let! identity := Identity user in
  orInternal identity (fun identity =>
  looking (qLinks user) (fun links =>
  looking (qGranted user) (fun granted =>
    Ret (pok (OwnBody {| ow_Bio := pi_Bio identity; ow_Keyboard := pi_Keyboard identity; ow_Links := links;
                         ow_Badges := ownBadge <$> granted; ow_KnownBadges := knownBadges |}))))).

(** The last step of the handler. *)
Definition applyPatch (user : UUID) (p : Patch) : pprog panswer :=
  let! done_ := ApplyProfilePatch user p in
  orInternal done_ (fun _ => serveOwnProfileIdentity user).

(** Its checks on the request alone. *)
Definition patchOf (req : profilePatchRequest) : Patch + panswer :=
  match textField "bio" bioMax (rp_Bio req) with
  | inr e => inr e
  | inl bio =>
    match textField "keyboard" keyboardMax (rp_Keyboard req) with
    | inr e => inr e
    | inl keyboard =>
      match linksField (rp_Links req) with
      | inr e => inr e
      | inl links =>
        inl {| pa_Bio := bio.2; pa_SetBio := bio.1; pa_Keyboard := keyboard.2; pa_SetKeyboard := keyboard.1;
               pa_Links := links; pa_Showcase := rp_Showcase req |}
      end
    end
  end.

Definition emptyPatch (req : profilePatchRequest) : bool :=
  bool_decide (rp_Bio req = None) && bool_decide (rp_Keyboard req = None)
  && bool_decide (rp_Links req = None) && bool_decide (rp_Showcase req = None).

Definition HandleUpdateProfile (user : UUID) (r : request) : pprog panswer :=
  match decodePatch r with
  | None => Ret (apiErrBadRequest "request body is not valid JSON")
  | Some req =>
    if emptyPatch req then Ret (apiErrBadRequest "no profile fields to update")
    else
      match patchOf req with
      | inr e => Ret e
      | inl p =>
        match pa_Showcase p with
        | None => applyPatch user p
        | Some codes =>
          if showcaseMaxLen <? Z.of_nat (length codes) then Ret (apiErrBadRequest "too many badges in the showcase")
          else
            looking (qGranted user) (fun granted =>
              match checkCodes (list_to_set (gb_Code <$> granted)) ∅ codes with
              | Some e => Ret e
              | None => applyPatch user p
              end)
        end
      end
  end.

(** ** The routes and their gates *)

Inductive dataRoute :=
| Summarised | Active (days : string) | Histogrammed | Charted (from to_ : string).

Definition serveData (d : dataRoute) : UUID -> pprog panswer :=
  match d with
  | Summarised => serveSummary
  | Active days => serveActivity days
  | Histogrammed => serveHistogram
  | Charted from to_ => serveTimeseries from to_
  end.

Inductive proute :=
| OwnData (d : dataRoute) | OwnPBs | OwnKeyboard                       (* /profile *)
| GetOwnProfile | PatchOwnProfile                                      (* /me/profile *)
| SearchRoute (q limit : string) | HeaderRoute (name : string)         (* /users *)
| PublicData (d : dataRoute) (name : string) | PublicPBsRoute (name : string)
| PublicRunsRoute (name limit cursor : string) | PortraitRoute (name : string).

(** RequireAuth. *)
Definition signedIn (r : request) (next : User -> pprog panswer) : pprog panswer :=
  let! u := moderated (within (authenticate r)) in
  match u with inl u => next u | inr e => Ret (PFromAuth (authFailure e)) end.

(** OptionalAuth. *)
Definition anyone (r : request) (next : option User -> pprog panswer) : pprog panswer :=
  let! u := moderated (within (authenticate r)) in
  match u with inl u => next (Some u) | inr _ => next None end.

Definition pserve (t : proute) (r : request) : pprog panswer :=
  match t with
  | OwnData d => signedIn r (fun u => serveData d (us_ID u))
  | OwnPBs => signedIn r (fun u => looking (qPBs (us_ID u)) (fun l => Ret (servePBs l)))
  | OwnKeyboard => signedIn r (fun u => serveKeyboard (us_ID u))
  | GetOwnProfile => signedIn r (fun u => serveOwnProfileIdentity (us_ID u))
  | PatchOwnProfile =>
    if negb (originAllowed "PATCH" (rq_Origin r)) then Ret (PFromAuth (fail apiErrForbiddenOrigin))
    else signedIn r (fun u => HandleUpdateProfile (us_ID u) r)
  | SearchRoute q limit => anyone r (fun _ => rateLimitSearch r (handleSearch q limit))
  | HeaderRoute name => anyone r (fun caller => handlePublicHeader caller name)
  | PublicData d name => anyone r (fun caller => publicData (serveData d) caller name)
  | PublicPBsRoute name => anyone r (fun caller => handlePublicPBs caller name)
  | PublicRunsRoute name limit cursor => anyone r (fun caller => handlePublicRuns limit cursor caller name)
  | PortraitRoute name => anyone r (fun caller => handlePublicPortrait caller name)
  end.
End handlers.
