(* ===== verification/ProfileAuthority.v ===== *)
(** * Who may read a profile, and who may change it

    Whatever the database answers, what a request to the profile routes has observed
    before each of its statements: privacy is enforced in front of the queries. *)

From Stdlib Require Import Strings.Ascii.
From S2P Require Import Prelude GoStd Effects Uuid Httpx Keyset Json AuthText AuthPassword AuthStore AuthFlow AuthHandlers AuthAuthority QuoteStore ModStore ModHandlers ModAuthority ProfileStore Runs Policy Core Decide RunStore Board BoardRead RunRead Keyboard ProfileRead ProfileHandlers.

Open Scope Z_scope.

Section authority.
Context `{Uuid} `{PgText} `{Argon2} `{!UuidOrder} `{!Env} `{LowerTable} `{MapRange}.

Notation obs := (Effects.obs peff).

(** ** Programs of the other services among ours *)

Definition plift_obs (o : Effects.obs meff) : obs := match o with Obs e x => Obs (Moderation e) x end.
Definition plift (h : list (Effects.obs meff)) : list obs := plift_obs <$> h.

Lemma moderated_paths {A} P (Q : A -> list (Effects.obs meff) -> Prop) P' g (p : mprog A) h :
  (forall X (e : meff X) h, P X e h -> P' X (Moderation e) (plift h ++ g)) ->
  paths P Q h p -> paths P' (fun a h' => exists h0, h' = plift h0 ++ g /\ Q a h0) (plift h ++ g) (moderated p).
Proof.
  intros HP. revert h. induction p as [a|X e k IH]; intros h; cbn.
  - intros HQ. by exists h.
  - intros [Hp Hk]. split; [by apply HP|]. intros x. by apply (IH x (Obs e x :: h)).
Qed.

(** ** Grounds *)

(** The request's own live session is this account's. *)
Definition caller (r : request) (h : list obs) (u : User) : Prop :=
  exists hm, plift hm ⊆ h /\ sessionFor r hm u.

Definition callerIs (r : request) (h : list obs) (k : UUID) : Prop := exists u, caller r h u /\ us_ID u = k.

(** The account a statement reads or writes more of than its name. *)
Definition about {X} (e : peff X) : option UUID :=
  match e with
  | Look q =>
    match q with
    | qPublicUser _ | qSearch _ _ _ => None
    | qIdentity k | qLinks k | qGranted k | qShowcase k | qProfileUser k | qCounts k | qMetricStats k | qLast10 k
    | qStreaks k _ | qLanguages k | qActivity k _ | qHistogram k | qTimeseries k _ _ | qWpmPerHour k _ _
    | qPBs k | qPublicPBs k | qRunsFirst k _ | qRunsAfter k _ _ _ | qKeyboard k | qDominantLang k => Some k
    end
  | Commit k _ => Some k
  | _ => None
  end.

(** The name a public route is about, and whether it is the portrait's. *)
Definition publicName (t : proute) : option (string * bool) :=
  match t with
  | HeaderRoute name | PublicData _ name | PublicPBsRoute name | PublicRunsRoute name _ _ => Some (name, false)
  | PortraitRoute name => Some (name, true)
  | _ => None
  end.

(** The profile found under the route's name is this account's, and open to the caller:
    by the switch, by both switches for the portrait, or because it is his own. *)
Definition openTo (r : request) (h : list obs) (k : UUID) (name : string) (portrait : bool) : Prop :=
  exists p, Obs (Look (qPublicUser name)) (inl p) ∈ h /\ pu_ID p = k
    /\ ((pu_ProfilePublic p = true /\ (portrait = true -> pu_KeyboardPublic p = true)) \/ callerIs r h k).

Definition admitted (t : proute) (r : request) (h : list obs) (k : UUID) : Prop :=
  match publicName t with
  | Some (name, portrait) => openTo r h k name portrait
  | None => callerIs r h k
  end.

Definition statistic {A} (q : pquery A) : bool :=
  match q with
  | qProfileUser _ | qCounts _ | qMetricStats _ | qLast10 _ | qStreaks _ _ | qLanguages _ | qActivity _ _
  | qHistogram _ | qTimeseries _ _ _ | qWpmPerHour _ _ _ => true
  | _ => false
  end.

(** Which route performs which statement. *)
Definition performs (t : proute) {X} (e : peff X) (h : list obs) : Prop :=
  match e with
  | Moderation e =>
    match e with
    | Auth _ | Clock => True
    | Stmt (ModHandlers.qIsRestricted _) => exists name, t = HeaderRoute name
    | _ => False
    end
  | Look q =>
    match q with
    | qPublicUser name => exists portrait, publicName t = Some (name, portrait)
    | qSearch pattern needle limit =>
      exists q raw key, t = SearchRoute q raw /\ Obs (AllowSearch key) true ∈ h
        /\ needle = AuthText.ToLower env_lower (Strs.TrimSpace q) /\ pattern = likeEscape needle
        /\ 3 <= Utf8.rune_count (Strs.TrimSpace q) <= 20 /\ 0 < limit <= 50
    | qIdentity _ | qLinks _ => t = GetOwnProfile \/ t = PatchOwnProfile \/ exists name, t = HeaderRoute name
    | qGranted _ => t = GetOwnProfile \/ t = PatchOwnProfile
    | qShowcase _ => exists name, t = HeaderRoute name
    | qPBs _ => t = OwnPBs
    | qPublicPBs _ => exists name, t = PublicPBsRoute name
    | qRunsFirst _ limit | qRunsAfter _ _ _ limit =>
      (exists name raw cursor, t = PublicRunsRoute name raw cursor) /\ 0 < limit <= 101
    | qKeyboard _ | qDominantLang _ => t = OwnKeyboard \/ exists name, t = PortraitRoute name
    | q => statistic q = true /\ ((exists d, t = OwnData d) \/ exists d name, t = PublicData d name)
    end
  | Commit _ _ => t = PatchOwnProfile
  | AllowSearch _ => exists q raw, t = SearchRoute q raw
  end.

Definition pground (t : proute) (r : request) (X : Type) (e : peff X) (h : list obs) : Prop :=
  (forall k, about e = Some k -> admitted t r h k) /\ performs t e h.

(** ** Grounds last *)

Lemma caller_mono r h h' u : h ⊆ h' -> caller r h u -> caller r h' u.
Proof. intros Hs (hm & Hm & Hc). exists hm. split; [by etrans|done]. Qed.

Lemma callerIs_cons r o h k : callerIs r h k -> callerIs r (o :: h) k.
Proof. intros (u & Hu & E). exists u. split; [|done]. by eapply caller_mono, Hu; apply sub_cons. Qed.

Lemma openTo_cons r o h k name portrait : openTo r h k name portrait -> openTo r (o :: h) k name portrait.
Proof.
  intros (p & Hp & E & Hor). exists p. split; [by right|]. split; [done|]. destruct Hor; [by left|right].
  by apply callerIs_cons.
Qed.

Lemma admitted_cons t r o h k : admitted t r h k -> admitted t r (o :: h) k.
Proof. unfold admitted. destruct (publicName t) as [[name portrait]|]; [apply openTo_cons|apply callerIs_cons]. Qed.

(** ** The pieces *)

Section route.
Context (t : proute) (r : request).

Notation allowed := (paths (pground t r) (fun (_ : panswer) _ => True)).

(** A statement about an admitted account. *)
Lemma looking_ok {A} (q : pquery A) next h k :
  about (Look q) = Some k -> admitted t r h k -> performs t (Look q) h ->
  (forall a h', admitted t r h' k -> allowed h' (next a)) ->
  allowed h (looking q next).
Proof.
  intros Ek Ha Hp Hn. cbn. split; [split; [|done]; intros k'; rewrite Ek; by intros [= <-]|].
  intros x. destruct x as [a|e]; [|done]. cbn. by apply Hn, admitted_cons.
Qed.

Lemma Identity_ok h k (Q : Identity_ + sqlError -> list obs -> Prop) :
  admitted t r h k -> performs t (Look (qIdentity k)) h -> (forall x h', admitted t r h' k -> Q x h') ->
  paths (pground t r) Q h (Identity k).
Proof.
  intros Ha Hp Hq. cbn. split; [split; [|done]; by intros ? [= <-]|]. intros x. by apply Hq, admitted_cons.
Qed.

Lemma clock_paths h next k :
  admitted t r h k -> (forall now h', admitted t r h' k -> allowed h' (next now)) ->
  allowed h (let! now := clock in next now).
Proof. intros Ha Hn. cbn. split; [done|]. intros x. by apply Hn, admitted_cons. Qed.

Ltac next := eapply looking_ok; [reflexivity|eassumption|cbn; eauto|intros ? ? ?].

Lemma serveData_ok d h k :
  (exists d, t = OwnData d) \/ (exists d name, t = PublicData d name) ->
  admitted t r h k -> allowed h (serveData d k).
Proof.
  intros Ht Ha. destruct d as [|days| |from to_]; cbn [serveData].
  - eapply clock_paths; [exact Ha|]. intros now h' Ha'. repeat next. done.
  - unfold serveActivity. destruct (activityDays days) as [n|]; [|done].
    eapply clock_paths; [exact Ha|]. intros now h' Ha'. next. done.
  - next. done.
  - eapply clock_paths; [exact Ha|]. intros now h' Ha'. destruct (seriesWindow now from to_) as [[start finish]|]; [|done].
    repeat next. done.
Qed.

Lemma serveKeyboard_ok h k :
  t = OwnKeyboard \/ (exists name, t = PortraitRoute name) ->
  admitted t r h k -> allowed h (serveKeyboard k).
Proof.
  intros Ht Ha. next. cbn. split; [split; [by intros ? [= <-]|done]|]. intros x. by destruct x as [|[[]| |]].
Qed.

Lemma serveOwn_ok h k :
  t = GetOwnProfile \/ t = PatchOwnProfile -> admitted t r h k -> allowed h (serveOwnProfileIdentity k).
Proof.
  intros Ht Ha. unfold serveOwnProfileIdentity. apply paths_bind. apply Identity_ok; [done|cbn; tauto|].
  intros x h' Ha'. destruct x as [i|]; [|done]. cbn [orInternal].
  eapply looking_ok; [reflexivity|exact Ha'|cbn; tauto|]. intros links h1 Hh1.
  eapply looking_ok; [reflexivity|exact Hh1|cbn; tauto|]. done.
Qed.

Lemma decorateHeader_ok h k v : (exists name, t = HeaderRoute name) -> admitted t r h k -> allowed h (decorateHeader k v).
Proof.
  intros Ht Ha. unfold decorateHeader. apply paths_bind, Identity_ok; [done|cbn; tauto|].
  intros x h' Ha'. destruct x as [i|]; [|done]. cbn [orInternal].
  eapply looking_ok; [reflexivity|exact Ha'|cbn; tauto|]. intros links h1 Hh1.
  eapply looking_ok; [reflexivity|exact Hh1|cbn; tauto|]. done.
Qed.

Lemma applyPatch_ok h k p : t = PatchOwnProfile -> admitted t r h k -> allowed h (applyPatch k p).
Proof.
  intros Ht Ha. unfold applyPatch. apply paths_bind. eapply (paths_impl _ (fun _ h' => admitted t r h' k)).
  - unfold ApplyProfilePatch. cbv zeta.
    assert (forall h' x, admitted t r h' k ->
      paths (pground t r) (fun _ h' => admitted t r h' k) h' (Effects.trigger (Commit k x))) as Hc.
    { intros h' x Ha'. cbn. split; [split; [by intros ? [= <-]|done]|]. intros y. by apply admitted_cons. }
    destruct (pa_SetBio p || pa_SetKeyboard p); [|by apply Hc].
    destruct (negb (pa_SetBio p) || negb (pa_SetKeyboard p)); [|by apply Hc].
    apply paths_bind, Identity_ok; [done|cbn; tauto|]. intros x h' Ha'. destruct x; [by apply Hc|done].
  - intros x h' _ Ha'. destruct x; [|done]. apply serveOwn_ok; [by right|done].
Qed.

Lemma HandleUpdateProfile_ok h k : t = PatchOwnProfile -> admitted t r h k -> allowed h (HandleUpdateProfile k r).
Proof.
  intros Ht Ha. unfold HandleUpdateProfile. destruct (decodePatch r) as [req|]; [|done].
  destruct (emptyPatch req); [done|]. destruct (patchOf req) as [p|]; [|done].
  destruct (pa_Showcase p) as [codes|]; [|by apply applyPatch_ok]. destruct (showcaseMaxLen <? _); [done|].
  eapply looking_ok; [reflexivity|exact Ha|cbn; tauto|]. intros granted h' Ha'.
  destruct (checkCodes _ _ _); [done|by apply applyPatch_ok].
Qed.

(** ** The gates *)

Lemma authenticate_caller (next : User + bool -> pprog panswer) :
  (forall res h, (forall u, res = inl u -> caller r h u) -> allowed h (next res)) ->
  allowed [] (let! u := moderated (within (authenticate r)) in next u).
Proof.
  intros Hn. apply paths_bind.
  pose proof (within_paths (ground r) _ (fun X (e : meff X) _ => match e with Auth _ => True | _ => False end) []
    (authenticate r) [] ltac:(done) (authenticate_paths r [])) as Hw.
  assert (forall X (e : meff X) h, match e with Auth _ => True | _ => False end ->
    pground t r X (Moderation e) (plift h ++ [])) as Hp.
  { intros X e h He. split; [by intros k [=]|]. by destruct e. }
  pose proof (moderated_paths _ _ (pground t r) [] _ [] Hp Hw) as Hm.
  cbn in Hm. eapply paths_impl; [exact Hm|]. cbn beta. intros res h' _ (h0 & -> & h1 & -> & Hs).
  apply Hn. intros u ->. exists (lift h1 ++ []). split; [intros o Ho; by rewrite app_nil_r|].
  exists h1. split; [intros o Ho; by rewrite app_nil_r|]. by apply Hs.
Qed.

Lemma signedIn_ok next :
  publicName t = None -> (forall u h, admitted t r h (us_ID u) -> allowed h (next u)) ->
  allowed [] (signedIn r next).
Proof.
  intros Ht Hn. unfold signedIn. apply authenticate_caller. intros [u|e] h Hc; [|done]. apply Hn.
  unfold admitted. rewrite Ht. exists u. auto.
Qed.

Lemma anyone_ok next :
  (forall c h, (forall u, c = Some u -> caller r h u) -> allowed h (next c)) -> allowed [] (anyone r next).
Proof.
  intros Hn. unfold anyone. apply authenticate_caller. intros [u|e] h Hc; apply Hn; [|done].
  intros ? [= <-]. by apply Hc.
Qed.

Lemma resolve_ok name portrait c next h :
  publicName t = Some (name, portrait) -> (forall u, c = Some u -> caller r h u) ->
  (forall p h',
    ((pu_ProfilePublic p = true /\ (portrait = true -> pu_KeyboardPublic p = true)) \/ isOwner c p = true ->
      admitted t r h' (pu_ID p)) -> allowed h' (next p)) ->
  allowed h (resolvePublicUser name next).
Proof.
  intros Ht Hc Hn. cbn. split; [split; [done|by exists portrait]|]. intros x. destruct x as [p|[[]| |]]; try done.
  apply Hn. intros Hor. unfold admitted. rewrite Ht. exists p. split; [left|]. split; [done|].
  destruct Hor as [Hor|Ho]; [by left|right]. unfold isOwner in Ho. destruct c as [u|]; [|done]. bool_to_prop.
  exists u. split; [|done]. eapply caller_mono; [apply sub_cons|by apply Hc].
Qed.

Lemma publicData_ok serve name c h :
  publicName t = Some (name, false) -> (forall u, c = Some u -> caller r h u) ->
  (forall k h', admitted t r h' k -> allowed h' (serve k)) ->
  allowed h (publicData serve c name).
Proof.
  intros Ht Hc Hs. unfold publicData. eapply resolve_ok; [done..|]. intros p h' Ha.
  destruct (negb (pu_ProfilePublic p) && negb (isOwner c p)) eqn:E; [done|]. apply Hs, Ha.
  destruct (pu_ProfilePublic p); [by left|]. right. by destruct (isOwner c p).
Qed.
End route.

(** C15: a profile is only read by whom it is open to.  Whatever the database answers,
    before any statement about an account's profile the route has established one of
    these: for the owner's own routes, that the request's live session is that
    account's; for the public ones, that the account holds the name in the path and
    its profile is open, or that the session is its owner's; for the keyboard
    portrait, that both its switches are on, or that the session is its owner's.
    Each route performs its own statements and no others: only the owner's PATCH
    writes, a stranger's reads of records and runs are those that hide banned players,
    and the search asks at most fifty rows for three to twenty characters, once its
    limiter has let the caller through. *)
Theorem profile_privacy (t : proute) (r : request) :
  paths (pground t r) (fun _ _ => True) [] (pserve t r).
Proof.
  destruct t as [d| | | | |q limit|name|d name|name|name limit cursor|name]; cbn [pserve].
  - apply signedIn_ok; [done|]. intros u h Ha. apply serveData_ok; [eauto|done].
  - apply signedIn_ok; [done|]. intros u h Ha. eapply looking_ok; [reflexivity|exact Ha|done|]. done.
  - apply signedIn_ok; [done|]. intros u h Ha. apply serveKeyboard_ok; [by left|done].
  - apply signedIn_ok; [done|]. intros u h Ha. apply serveOwn_ok; [by left|done].
  - destruct (negb _); [done|]. apply signedIn_ok; [done|]. intros u h Ha. by apply HandleUpdateProfile_ok.
  - apply anyone_ok. intros c h _. cbn. split; [split; [done|by exists q, limit]|]. intros [|]; [|done].
    unfold handleSearch. destruct ((_ <? searchMinQueryLen) || _) eqn:El; [done|]. cbn.
    split; [split; [done|]|by intros [|]]. exists q, limit, (rq_IP r). bool_to_prop.
    unfold searchMinQueryLen, searchMaxQueryLen in *.
    split_and!; [done|left|done|done|lia|lia|..]; apply ParseLimit_bounds; done.
  - apply anyone_ok. intros c h Hc. eapply resolve_ok; [done..|]. intros p h' Ha. cbn [bind moderated restriction].
    cbn -[decorateHeader]. split; [split; [done|by exists name]|]. intros x.
    destruct (pu_ProfilePublic p || isOwner c p) eqn:E; [|done].
    assert (admitted (HeaderRoute name) r (Obs (Moderation (Stmt (ModHandlers.qIsRestricted (pu_ID p)))) x :: h') (pu_ID p)) as Ha'.
    { apply admitted_cons, Ha. apply orb_true_iff in E as [E|E]; [by left|by right]. }
    by apply decorateHeader_ok; [exists name|].
  - apply anyone_ok. intros c h Hc. apply publicData_ok; [done..|]. intros k h' Ha. apply serveData_ok; [eauto|done].
  - apply anyone_ok. intros c h Hc. apply publicData_ok; [done..|]. intros k h' Ha.
    eapply looking_ok; [reflexivity|exact Ha|cbn; eauto|]. done.
  - apply anyone_ok. intros c h Hc. apply publicData_ok; [done..|]. intros k h' Ha.
    destruct (publicCursor cursor) as [after|]; [|done]. apply paths_bind.
    pose proof (ParseLimit_bounds limit publicRunsDefaultLimit publicRunsMaxLimit ltac:(done)) as Hl.
    unfold publicRunsMaxLimit in *.
    destruct after as [cur|]; cbn -[cut_page];
      (split; [split; [by intros ? [= <-]|split; [by eauto|lia]]|]; intros x; destruct x; [|done]);
      cbn -[cut_page]; by destruct (cut_page _ _).
  - apply anyone_ok. intros c h Hc. eapply resolve_ok; [done..|]. intros p h' Ha.
    destruct (isOwner c p) eqn:Eo; [apply serveKeyboard_ok; eauto|].
    destruct (pu_ProfilePublic p) eqn:Ep; [|done]. destruct (pu_KeyboardPublic p) eqn:Ek; [|done].
    apply serveKeyboard_ok; [by eauto|]. apply Ha. by left.
Qed.
End authority.
