(* ===== verification/ProfileWorld.v ===== *)
(** * internal/profile: the world its effects act on

    The interpreter of the profile programs: over moderation's world (and so the
    accounts'), the links, and the runs' side of the database, which they only read;
    and any number of requests of all the services, interleaved an effect at a time. *)

From Stdlib Require Import Strings.Ascii.
From S2P Require Import Prelude GoStd Effects Uuid Httpx Keyset Json AuthLimiter AuthText AuthPassword AuthStore AuthFlow AuthHandlers AuthInv AuthWorld QuoteStore QuoteHandlers ModStore ModHandlers ModWorld ModInv ProfileStore Runs Policy Core Decide RunStore Board BoardRead RunRead Keyboard ProfileRead ProfileHandlers.

Open Scope Z_scope.

(** [PROFILE_SEARCH_RATE_EVERY] and [PROFILE_SEARCH_RATE_BURST] *)
Class SearchLimits := { search_limits : limits }.

Section world.
Context `{Uuid} `{PgText} `{Argon2} `{!UuidOrder} `{!Collation} `{!Draws} `{!Env} `{!ReportLimits}.
Context `{LowerTable} `{MapRange} `{Gzip} `{GameCore} `{JsonText} `{PgCast} `{PgFloat} `{ScanOrder} `{!SearchLimits}.

(** The tables the statistics read. *)
Record statsDB := { sd_tables : tables; sd_entries : gmap (string * UUID) entryRow; sd_keys : kbTables }.

Record pworld := { pw_mod : mworld; pw_links : linksTable; pw_stats : statsDB; pw_search : limiter }.

Definition withMworld (m : mworld) (w : pworld) : pworld :=
  {| pw_mod := m; pw_links := pw_links w; pw_stats := pw_stats w; pw_search := pw_search w |}.
Definition ptick (w : pworld) : pworld := withMworld (mtick (pw_mod w)) w.

Definition paccounts (w : pworld) : authDB := accounts (pw_mod w).
Definition pdb (w : pworld) : modDB := mw_db (pw_mod w).

(** What the public run queries see. *)
Definition asBan (b : Ban) : ban :=
  {| bn_UserID := bw_UserID b; bn_ExpiresAt := bw_ExpiresAt b; bn_RevokedAt := bw_RevokedAt b |}.
Definition viewOf (w : pworld) : runsView :=
  {| rv_now := mclock (pw_mod w); rv_tables := sd_tables (pw_stats w);
     rv_users := (fun u => {| ac_DisplayName := us_DisplayName u; ac_ProfilePublic := us_ProfilePublic u |})
                   <$> db_users (paccounts w);
     rv_bans := asBan <$> rows (md_bans (pdb w)); rv_entries := sd_entries (pw_stats w) |}.

(** ** Reads *)

Definition row {A} (r : A + pgError) : A + sqlError := match r with inl a => inl a | inr e => inr (Pg e) end.
(** A cast out of range, or of a text that is no number: no constraint's error. *)
Definition raising {A} (r : option A) : A + sqlError := match r with Some a => inl a | None => inr (Pg (Violates "")) end.

Definition ptexts {A} (q : pquery A) : list string :=
  match q with qPublicUser name => [name] | qSearch pattern needle _ => [pattern; needle] | _ => [] end.

Definition answer_pquery {A} (q : pquery A) (w : pworld) : A + sqlError :=
  let auth := paccounts w in
  let tb := sd_tables (pw_stats w) in
  match q with
  | qPublicUser name => row (GetPublicProfileUser name auth)
  | qIdentity u => row (GetPublicProfileIdentity u auth)
  | qLinks u => inl (ListUserLinks u (pw_links w))
  | qGranted u => inl (ListGrantedBadges u (pdb w))
  | qShowcase u => inl (ListShowcaseBadges u (pdb w))
  | qSearch pattern needle limit => inl (SearchUsersByName (mclock (pw_mod w)) pattern needle limit auth (pdb w))
  | qProfileUser u => row (GetProfileUser u auth)
  | qCounts u => raising (GetProfileCounts u tb)
  | qMetricStats u => raising (GetProfileMetricStats u tb)
  | qLast10 u => raising (GetProfileLast10 u tb)
  | qStreaks u today => inl (GetProfileStreaks u today tb)
  | qLanguages u => inl (GetProfileLanguages u tb)
  | qActivity u since => raising (GetProfileActivity u since tb)
  | qHistogram u => raising (GetProfileHistogram u tb)
  | qTimeseries u from to_ => raising (GetProfileTimeseries u from to_ tb)
  | qWpmPerHour u from to_ => raising (GetProfileWpmPerHour u from to_ tb)
  | qPBs u => raising (GetProfilePBs u (viewOf w))
  | qPublicPBs u => raising (GetPublicProfilePBs u (viewOf w))
  | qRunsFirst u limit => raising (GetPublicProfileRunsFirst u limit (viewOf w))
  | qRunsAfter u created id limit => raising (GetPublicProfileRunsAfter u created id limit (viewOf w))
  | qKeyboard u => inl (GetProfileKeyboard u (sd_keys (pw_stats w)))
  | qDominantLang u => match GetProfileDominantLang u tb with Some lang => inl lang | None => inr (Pg NoRows) end
  end.

Definition exec_pquery {A} (q : pquery A) (w : pworld) : A + sqlError :=
  if forallb storable (ptexts q) then answer_pquery q w else inr BadText.

(** ** Writes *)

(** The links a save sets and removes, in its order. *)
Fixpoint writeLinks (user : UUID) (auth : authDB) (l : list (string * string)) (links : linksTable)
    : linksTable + sqlError :=
  match l with
  | [] => inl links
  | (kind, handle) :: l =>
    if negb (forallb storable [kind; handle]) then inr BadText
    else if handle =s? "" then writeLinks user auth l (DeleteUserLink user kind links)
    else
      match UpsertUserLink user kind handle auth links with
      | inl links => writeLinks user auth l links
      | inr e => inr (Pg e)
      end
  end.

Definition writeIdentity (user : UUID) (now : Z) (i : option (option string * option string)) (auth : authDB)
    : authDB + sqlError :=
  match i with
  | None => inl auth
  | Some (bio, keyboard) =>
    if negb (forallb storable (option_list bio ++ option_list keyboard)) then inr BadText
    else row (UpdateProfileIdentity user now bio keyboard auth)
  end.

Definition writeShowcase (user : UUID) (codes : option (list string)) (db : modDB) : modDB + sqlError :=
  match codes with
  | None => inl db
  | Some codes => if forallb storable codes then inl (arrange user codes db) else inr BadText
  end.

(** All of it, or nothing. *)
Definition commit (user : UUID) (x : profileWrites) (w : pworld) : pworld + sqlError :=
  match writeIdentity user (mclock (pw_mod w)) (wr_Identity x) (paccounts w) with
  | inr e => inr e
  | inl auth =>
    match writeLinks user auth (wr_Links x) (pw_links w) with
    | inr e => inr e
    | inl links =>
      match writeShowcase user (wr_Showcase x) (pdb w) with
      | inr e => inr e
      | inl db =>
        let m := pw_mod w in
        inl {| pw_mod := withMod db (withAuth (withDB auth (mw_auth m)) m); pw_links := links;
               pw_stats := pw_stats w; pw_search := pw_search w |}
      end
    end
  end.

Definition profile_exec {X} (e : peff X) (w : pworld) : X * pworld :=
  match e in peff X return X * pworld with
  | Moderation e => let '(x, m) := mod_exec e (pw_mod w) in (x, withMworld m w)
  | Look q => (exec_pquery q w, ptick w)
  | Commit user x => match commit user x w with inl w' => (inl tt, ptick w') | inr e => (inr e, ptick w) end
  | AllowSearch key =>
    let '(ok, l) := AuthLimiter.Allow search_limits key (1000 * mclock (pw_mod w)) (pw_search w) in
    (ok, ptick {| pw_mod := pw_mod w; pw_links := pw_links w; pw_stats := pw_stats w; pw_search := l |})
  end.

#[export] Instance profile_interp : Interp peff pworld := {| exec X := @profile_exec X |}.

(** ** Run to the end *)

Lemma run_moderated {A B} (p : mprog A) (k : A -> pprog B) w :
  run (bind (moderated p) k) w = let '(a, m) := run p (pw_mod w) in run (k a) (withMworld m w).
Proof.
  revert w. induction p as [a|X e c IH]; intros w; cbn; [by destruct w|].
  cbn. destruct (mod_exec e (pw_mod w)) as [x m] eqn:E. rewrite IH. cbn. by destruct (run (c x) m).
Qed.

Lemma run_look {A B} (q : pquery A) (k : A + sqlError -> pprog B) w :
  run (let! x := look q in k x) w = run (k (exec_pquery q w)) (ptick w).
Proof. done. Qed.

(** ** Interleaved *)

Definition pfaulty {X} (e : peff X) (w : pworld) (x : X) (w' : pworld) : Prop :=
  match e in peff X return X -> Prop with
  | Moderation e => fun x => exists m, mfaulty e (pw_mod w) x m /\ w' = withMworld m w
  | Look q => fun x => x = inr Lost /\ w' = ptick w
  | Commit user c => fun x => x = inr Lost /\ (w' = ptick w \/ w' = (exec (Commit user c) w).2)
  | AllowSearch _ => fun _ => False
  end x.

Definition pperforms (X : Type) (e : peff X) (w : pworld) (x : X) (w' : pworld) : Prop :=
  exec e w = (x, w') \/ pfaulty e w x w'.

Definition psettled {A} (p : pprog A) : pprog panswer := bind p (fun _ => Ret apiErrInternal).

Inductive parrives : pprog panswer -> Prop :=
| arrives_profile t r : parrives (pserve t r)
| arrives_other p : marrives p -> parrives (psettled (moderated p)).

(** Time, runs the report queue sees, an account dropped with all it owns; and whatever
    the runs' services do to their tables. *)
Inductive pchanges : pworld -> pworld -> Prop :=
| change_later w d : 0 <= d ->
    pchanges w (withMworld (withAuth (later d (mw_auth (pw_mod w))) (pw_mod w)) w)
| change_account w user :
    let m := pw_mod w in
    pchanges w
      {| pw_mod := withAuth (withDB (dropAccount user (accounts m)) (mw_auth m)) (withMod (dropUser user (mw_db m)) m);
         pw_links := dropLinks user (pw_links w); pw_stats := pw_stats w; pw_search := pw_search w |}
| change_stats w stats :
    pchanges w {| pw_mod := pw_mod w; pw_links := pw_links w; pw_stats := stats; pw_search := pw_search w |}.

Definition pstep : pworld * list (pprog panswer) -> pworld * list (pprog panswer) -> Prop :=
  pool_step parrives pperforms pchanges apiErrInternal.

Definition pinitial (clock : Z) (stats : statsDB) : pworld * list (pprog panswer) :=
  ({| pw_mod := (minitial clock).1; pw_links := ∅; pw_stats := stats; pw_search := newLimiter |}, []).

Definition preachable (s : pworld * list (pprog panswer)) : Prop :=
  exists clock stats, steps pstep (pinitial clock stats) s.

(** ** The tables a profile is in *)

(** A link is of an account that is there, of a known kind and in that kind's grammar. *)
Definition link_ok (L : UUID -> Prop) (k : UUID * string) (handle : string) : Prop :=
  L k.1 /\ linkChecks k.2 handle = true.

Definition pworld_ok (w : pworld) : Prop :=
  world_ok (pw_mod w) /\ map_Forall (link_ok (live (paccounts w))) (pw_links w).

Lemma links_grow (L L' : UUID -> Prop) (links : linksTable) :
  (forall k, L k -> L' k) -> map_Forall (link_ok L) links -> map_Forall (link_ok L') links.
Proof. intros HL Hl. eapply map_Forall_impl; [exact Hl|]. intros k h [Hk Hh]. split; auto. Qed.

Lemma writeLinks_ok user auth l links links' :
  writeLinks user auth l links = inl links' ->
  map_Forall (link_ok (live auth)) links -> map_Forall (link_ok (live auth)) links'.
Proof.
  revert links. induction l as [|[kind handle] l IH]; cbn [writeLinks]; intros links; [by intros [= <-]|].
  case_match; [done|]. case_match.
  - intros E Hl. apply (IH _ E). by apply map_Forall_delete.
  - destruct (UpsertUserLink _ _ _ _ _) as [links1|] eqn:Eu; [|done]. intros E Hl. apply (IH _ E).
    unfold UpsertUserLink in Eu. destruct (knownLinkKind kind && _) eqn:E1; [done|].
    destruct (negb (knownLinkKind kind)) eqn:E2; [done|]. case_match; [done|]. injection Eu as <-. bool_to_prop.
    rewrite E2 in E1. cbn in E1. apply negb_false_iff in E1. apply map_Forall_insert_2; [|done]. by split.
Qed.

Lemma writeIdentity_ok user now i auth auth' :
  writeIdentity user now i auth = inl auth' -> db_ok auth ->
  db_ok auth' /\ (forall k, live auth k -> live auth' k).
Proof.
  unfold writeIdentity. destruct i as [[bio keyboard]|]; [|by intros [= <-]]. case_match; [done|].
  unfold row. destruct (UpdateProfileIdentity _ _ _ _ _) as [a|] eqn:E; [|done]. intros [= <-] Hdb.
  split; [by eapply UpdateProfileIdentity_ok|]. intros k. by eapply UpdateProfileIdentity_live.
Qed.

Lemma commit_ok user x w w' : commit user x w = inl w' -> pworld_ok w -> pworld_ok w'.
Proof.
  unfold commit. destruct (writeIdentity _ _ _ _) as [auth|] eqn:E1; [|done].
  destruct (writeLinks _ _ _ _) as [links|] eqn:E2; [|done].
  destruct (writeShowcase _ _ _) as [db|] eqn:E3; [|done]. intros [= <-] [[Ha Hm] Hl].
  destruct (writeIdentity_ok _ _ _ _ _ E1 Ha) as [Ha' Hg]. split; [split|]; cbn.
  - done.
  - apply (md_ok_grow (live (paccounts w))); [done|]. unfold writeShowcase in E3. destruct (wr_Showcase x) as [codes|].
    + case_match; [|done]. injection E3 as <-. by apply arrange_ok.
    + by injection E3 as <-.
  - eapply writeLinks_ok; [exact E2|]. by eapply links_grow.
Qed.

Lemma meff_grows {X} (e : meff X) m k : live (accounts m) k -> live (accounts (mod_exec e m).2) k.
Proof.
  intros Hk. destruct e as [X e|A q|A q| |key]; cbn [mod_exec].
  - destruct e; try done; cbn [auth_effect];
      lazymatch goal with |- context [auth_exec ?e ?a] =>
        pose proof (auth_exec_grows e a k Hk) as Hg; by destruct (auth_exec e a) end.
  - by destruct (exec_mquery q _ _ _ _).
  - by destruct (exec_qquery q _ _ _ _).
  - done.
  - by destruct (AuthLimiter.Allow _ _ _ _).
Qed.

Lemma mperforms_grows X (e : meff X) m x m' k : mperforms X e m x m' -> live (accounts m) k -> live (accounts m') k.
Proof.
  intros [E|Hf] Hk.
  - pose proof (meff_grows e m k Hk) as Hg. cbn in E. by rewrite E in Hg.
  - destruct e as [X e|A q|A q| |key]; try done; cbn in Hf.
    + destruct e; cbn [auth_faulty] in Hf; try (destruct Hf as [_ ->]; done); destruct Hf as (a & Hf & ->); cbn;
        (destruct Hf as [_ [->| ->]] || destruct Hf as [_ ->] || done); try done.
      by apply (auth_exec_grows (Query q)).
    + destruct Hf as [_ [->| ->]]; [done|]. by apply (meff_grows (Stmt q)).
    + destruct Hf as [_ [->| ->]]; [done|]. by apply (meff_grows (Corpus q)).
Qed.

Lemma withMworld_ok {X} (e : meff X) w x m :
  mperforms X e (pw_mod w) x m -> pworld_ok w -> pworld_ok (withMworld m w).
Proof.
  intros Hp [Hw Hl]. split; [by eapply mperforms_ok|]. eapply links_grow; [|exact Hl].
  intros k. by eapply mperforms_grows.
Qed.

Lemma profile_exec_ok {X} (e : peff X) w : pworld_ok w -> pworld_ok (exec e w).2.
Proof.
  intros Hw. destruct e as [X e|A q|user x|key]; cbn [exec profile_interp profile_exec].
  - destruct (mod_exec e (pw_mod w)) as [x m] eqn:E. eapply (withMworld_ok e); [by left|done].
  - done.
  - destruct (commit user x w) as [w'|] eqn:E; [|done]. by apply (commit_ok _ _ _ _ E).
  - by destruct (AuthLimiter.Allow _ _ _ _).
Qed.

Lemma pperforms_ok X (e : peff X) w x w' : pperforms X e w x w' -> pworld_ok w -> pworld_ok w'.
Proof.
  intros [E|Hf] Hw.
  - pose proof (profile_exec_ok e w Hw) as Hok. by rewrite E in Hok.
  - destruct e as [X e|A q|user c|key]; cbn in Hf; [| | |done].
    + destruct Hf as (m & Hf & ->). eapply (withMworld_ok e); [by right|done].
    + by destruct Hf as [_ ->].
    + destruct Hf as [_ [->| ->]]; [done|]. by apply (profile_exec_ok (Commit user c)).
Qed.

Lemma pchanges_ok w w' : pchanges w w' -> pworld_ok w -> pworld_ok w'.
Proof.
  intros Hc [Hw Hl]. destruct Hc as [w d Hd|w user|w stats].
  - split; [|done]. eapply mchanges_ok; [by apply (change_time _ d)|done].
  - split; [eapply mchanges_ok; [apply change_drop|done]|]. intros k h [Hk Hne]%map_lookup_filter_Some.
    destruct (Hl _ _ Hk) as [Hlive Hh]. split; [|done]. cbn in *. unfold live. cbn. by rewrite lookup_delete_ne by done.
  - by split.
Qed.

Lemma preachable_ok s : preachable s -> pworld_ok s.1.
Proof.
  intros (clock & stats & Hs). revert Hs. apply pool_invariant.
  - apply pperforms_ok.
  - apply pchanges_ok.
  - split; [split; [apply db_ok_empty|apply md_ok_empty]|apply map_Forall_empty].
Qed.

(** C17: a profile only ever holds what it may show.  In every state that requests to the
    profile service and all the others can reach, whatever is interleaved, lost or
    dropped: a link is of an account that exists, of a kind the source lists and in
    that kind's grammar; a bio and a keyboard fit their columns; a badge in a showcase
    is in a place of its own; and a display name is still its account's alone. *)
Theorem profiles_fit s :
  preachable s ->
  let w := s.1 in
  map_Forall (link_ok (live (paccounts w))) (pw_links w)
  /\ users_ok (db_users (paccounts w))
  /\ one_place (md_grants (pdb w)) /\ one_live (md_grants (pdb w)).
Proof.
  intros Hs. apply preachable_ok in Hs as [[Ha Hm] Hl].
  split_and!; [done|by destruct Ha|by destruct Hm|by destruct Hm].
Qed.
End world.
