(* ===== verification/ProfileStreaks.v ===== *)
(** * The streaks of a profile: gaps and islands

    What [GetProfileStreaks] computes by anchors and groups is what a streak means: days
    played one after another. *)

From Stdlib Require Import Sorting.Sorted.
From stdpp Require Import sorting.
From S2P Require Import Prelude GoStd Json Uuid Keyset Runs Policy Core Decide RunStore Board BoardRead RunRead Keyboard ProfileRead.

Open Scope Z_scope.

(** ** Islands *)

(** [islands] of days whose numbering starts after [k]. *)
Definition islandsFrom (k : Z) (days : list Z) : list (Z * Z) :=
  imap (fun i day => (day, day - (k + Z.of_nat i + 1))) days.

Lemma islandsFrom_cons k d days : islandsFrom k (d :: days) = (d, d - (k + 1)) :: islandsFrom (k + 1) days.
Proof.
  unfold islandsFrom. cbn. f_equal; [f_equal; lia|]. apply imap_ext. intros i x _. cbn. f_equal. lia.
Qed.

Lemma islands_from days : islands days = islandsFrom 0 days.
Proof. apply imap_ext. intros i x _. cbn. f_equal. Qed.

Lemma islandsFrom_fst k days : (islandsFrom k days).*1 = days.
Proof. revert k. induction days as [|d days IH]; intros k; [done|]. rewrite islandsFrom_cons. cbn. by rewrite IH. Qed.

(** Anchors never decrease. *)
Lemma anchors_from k h days x b :
  StronglySorted Z.lt (h :: days) -> (x, b) ∈ islandsFrom k (h :: days) -> h - (k + 1) <= b.
Proof.
  revert k h. induction days as [|h' days IH]; intros k h Hs; rewrite islandsFrom_cons.
  - intros [[= -> ->]|Hx]%elem_of_cons; [lia|]. by apply not_elem_of_nil in Hx.
  - apply StronglySorted_inv in Hs as [Hs Hh]. intros [[= -> ->]|Hx]%elem_of_cons; [lia|].
    specialize (IH _ _ Hs Hx). apply Forall_inv in Hh. lia.
Qed.

(** The days of one anchor. *)
Definition island (a : Z) (l : list (Z * Z)) : list Z := (filter (fun di => di.2 = a) l).*1.

(** Days one after another, with a gap on both sides. *)
Definition stretch (days : list Z) (s n : Z) (l : list Z) : Prop :=
  1 <= n /\ l = seqZ s n /\ s - 1 ∉ days /\ s + n ∉ days.

Lemma island_head k h days :
  StronglySorted Z.lt (h :: days) -> exists l, island (h - (k + 1)) (islandsFrom k (h :: days)) = h :: l.
Proof. intros _. rewrite islandsFrom_cons. unfold island. rewrite filter_cons_True by done. cbn. eauto. Qed.

Lemma island_stretch k days a :
  StronglySorted Z.lt days ->
  island a (islandsFrom k days) = [] \/ exists s n, stretch days s n (island a (islandsFrom k days)).
Proof.
  revert k. induction days as [|d days IH]; intros k Hs; [by left|].
  apply StronglySorted_inv in Hs as [Hs Hd]. specialize (IH (k + 1) Hs).
  (* the next day, if played, is the first of the rest and has this day's anchor *)
  assert (d + 1 ∈ days -> exists days', days = (d + 1) :: days') as Hnext.
  { intros Hin. destruct days as [|h days]; [by apply not_elem_of_nil in Hin|]. exists days. f_equal.
    apply elem_of_cons in Hin as [<-|Hin]; [done|]. apply StronglySorted_inv in Hs as [_ Hh].
    apply Forall_cons in Hd as [Hdh _]. rewrite Forall_forall in Hh. specialize (Hh _ Hin). lia. }
  rewrite Forall_forall in Hd. rewrite islandsFrom_cons.
  destruct (decide (d - (k + 1) = a)) as [<-|Hne].
  - right. unfold island. rewrite filter_cons_True by done. cbn [fmap list_fmap fst].
    fold (island (d - (k + 1)) (islandsFrom (k + 1) days)).
    assert (forall x, x ∈ d :: days -> d <= x) as Hmin by (intros x [->|Hx%Hd]%elem_of_cons; lia).
    destruct IH as [E|(s & n & Hn & E & Hs1 & Hs2)].
    + exists d, 1. rewrite E. split_and!; [done|done| |].
      * intros Hx%Hmin. lia.
      * intros [Hx|Hx]%elem_of_cons; [lia|]. destruct (Hnext Hx) as [days' ->].
        destruct (island_head (k + 1) (d + 1) days' Hs) as [l El].
        replace (d + 1 - (k + 1 + 1)) with (d - (k + 1)) in El by lia. congruence.
    + assert (s = d + 1) as ->.
      { destruct days as [|h days]; [by rewrite seqZ_cons in E by lia|].
        assert (s ∈ island (d - (k + 1)) (islandsFrom (k + 1) (h :: days))) as Hin by (rewrite E; apply elem_of_seqZ; lia).
        apply list_elem_of_fmap in Hin as ([x b] & -> & [Hb Hin]%list_elem_of_filter). cbn in Hb. subst b.
        pose proof (anchors_from _ _ _ _ _ Hs Hin) as Hge.
        assert (d < h) as Hdh by (apply Hd; left).
        assert (h = d + 1) as -> by lia. destruct (island_head (k + 1) (d + 1) days Hs) as [l El].
        replace (d + 1 - (k + 1 + 1)) with (d - (k + 1)) in El by lia. rewrite E in El.
        rewrite seqZ_cons in El by lia. by injection El. }
      exists d, (n + 1). rewrite E. split_and!; [lia| | |].
      * rewrite (seqZ_cons d) by lia. f_equal. f_equal; lia.
      * intros Hx%Hmin. lia.
      * replace (d + (n + 1)) with (d + 1 + n) by lia. intros [Hx|Hx]%elem_of_cons; [lia|done].
  - unfold island. rewrite filter_cons_False by done. fold (island a (islandsFrom (k + 1) days)).
    destruct IH as [E|(s & n & Hn & E & Hs1 & Hs2)]; [by left|]. right. exists s, n.
    assert (s ∈ days) as Hin.
    { rewrite <- (islandsFrom_fst (k + 1) days). assert (s ∈ island a (islandsFrom (k + 1) days)) as Hin
        by (rewrite E; apply elem_of_seqZ; lia).
      apply list_elem_of_fmap in Hin as (x & -> & [_ Hin]%list_elem_of_filter). by apply list_elem_of_fmap_2. }
    split_and!; [done|done| |].
    + intros [Hx|Hx]%elem_of_cons; [|done]. assert (s = d + 1) as -> by lia.
      destruct (Hnext Hin) as [days' ->]. destruct (island_head (k + 1) (d + 1) days' Hs) as [l El].
      assert (d + 1 ∈ island a (islandsFrom (k + 1) (d + 1 :: days'))) as Hina by (rewrite E; apply elem_of_seqZ; lia).
      apply list_elem_of_fmap in Hina as ([x b] & Ex & [Hb Hina]%list_elem_of_filter). cbn in Ex, Hb. subst x b.
      rewrite islandsFrom_cons in Hina. apply elem_of_cons in Hina as [[= E']|Hina]; [lia|].
      apply (list_elem_of_fmap_2 fst) in Hina. rewrite islandsFrom_fst in Hina. cbn in Hina.
      apply StronglySorted_inv in Hs as [_ Hh]. rewrite Forall_forall in Hh. specialize (Hh _ Hina). lia.
    + intros [Hx|Hx]%elem_of_cons; [|done]. specialize (Hd _ Hin). lia.
Qed.

(** ** Lengths *)

Lemma foldr_max_seqZ s n : 1 <= n -> foldr Z.max (default 0 (head (seqZ s n))) (seqZ s n) = s + n - 1.
Proof.
  intros Hn. assert (forall k, 0 <= k -> forall s d, d <= s -> foldr Z.max d (seqZ s (Z.succ k)) = s + k) as Hgen.
  { apply (natlike_ind (fun k => forall s d, d <= s -> foldr Z.max d (seqZ s (Z.succ k)) = s + k)).
    - intros s0 d Hd. rewrite seqZ_cons by lia. change (seqZ (Z.succ s0) (Z.pred (Z.succ 0))) with (@nil Z). cbn [foldr]. lia.
    - intros k Hk IH s0 d Hd. rewrite seqZ_cons by lia. rewrite Z.pred_succ. cbn [foldr]. rewrite IH; lia. }
  rewrite (seqZ_cons s n) at 1 by lia. cbn [head from_option id].
  replace n with (Z.succ (n - 1)) at 1 by lia. rewrite Hgen; lia.
Qed.

Lemma lengths_elem days len last_ :
  StronglySorted Z.lt days ->
  (len, last_) ∈ lengths days ->
  exists s, stretch days s len (seqZ s len) /\ last_ = s + len - 1 /\ forall x, s <= x < s + len -> x ∈ days.
Proof.
  intros Hs Hin. unfold lengths, grouped in Hin.
  apply list_elem_of_fmap in Hin as ([a g] & E & Hin). apply list_elem_of_fmap in Hin as (a' & [= <- ->] & Ha).
  rewrite (order_by_perm id Z.ltb), elem_of_remove_dups in Ha.
  cbn [fst snd] in E. rewrite islands_from in *.
  assert (island a (islandsFrom 0 days) <> []) as Hne.
  { apply list_elem_of_fmap in Ha as ([x b] & -> & Hx). cbn. intros En.
    assert (x ∈ island b (islandsFrom 0 days)) as Hi.
    { apply list_elem_of_fmap. exists (x, b). split; [done|]. by apply list_elem_of_filter. }
    rewrite En in Hi. by apply not_elem_of_nil in Hi. }
  destruct (island_stretch 0 days a Hs) as [?|(s & n & Hn & El & Hs1 & Hs2)]; [done|].
  fold (island a (islandsFrom 0 days)) in E. rewrite El in E. injection E as El' Elast.
  assert (len = n) as ->.
  { rewrite El'. unfold count. rewrite <- (length_fmap fst). fold (island a (islandsFrom 0 days)).
    rewrite El, length_seqZ. lia. }
  exists s. split_and!; [by split_and!| |].
  - rewrite Elast. by apply foldr_max_seqZ.
  - intros x Hx. assert (x ∈ island a (islandsFrom 0 days)) as Hi by (rewrite El; apply elem_of_seqZ; lia).
    rewrite <- (islandsFrom_fst 0 days). apply list_elem_of_fmap in Hi as (y & -> & [_ Hy]%list_elem_of_filter).
    by apply list_elem_of_fmap_2.
Qed.

Lemma lengths_cover days d :
  StronglySorted Z.lt days -> d ∈ days ->
  exists s len, (len, s + len - 1) ∈ lengths days /\ s <= d < s + len /\ s - 1 ∉ days /\ s + len ∉ days.
Proof.
  intros Hs Hd. rewrite <- (islandsFrom_fst 0 days) in Hd. apply list_elem_of_fmap in Hd as ([x a] & -> & Hx).
  cbn. assert (x ∈ island a (islandsFrom 0 days)) as Hi.
  { apply list_elem_of_fmap. exists (x, a). split; [done|]. by apply list_elem_of_filter. }
  destruct (island_stretch 0 days a Hs) as [E|(s & n & Hn & El & Hs1 & Hs2)].
  { rewrite E in Hi. by apply not_elem_of_nil in Hi. }
  exists s, n. rewrite El in Hi. apply elem_of_seqZ in Hi. split_and!; [|lia|lia|done|done].
  unfold lengths, grouped. apply list_elem_of_fmap. exists (a, filter (fun di => di.2 = a) (islands days)). split.
  - cbn. fold (island a (islands days)). rewrite islands_from, El. f_equal; [|by rewrite foldr_max_seqZ].
    unfold count. rewrite <- (length_fmap fst). fold (island a (islandsFrom 0 days)). rewrite El, length_seqZ. lia.
  - apply list_elem_of_fmap. exists a. split; [done|]. rewrite order_by_perm. apply elem_of_remove_dups.
    rewrite islands_from. by apply (list_elem_of_fmap_2 snd _ (x, a)).
Qed.

Lemma max_of l : (forall x, x ∈ l -> x <= foldr Z.max 0 l) /\ (foldr Z.max 0 l = 0 \/ foldr Z.max 0 l ∈ l).
Proof.
  induction l as [|y l [IHu IHa]]; [split; [by intros x ?%not_elem_of_nil|by left]|]. cbn. split.
  - intros x [->|Hx%IHu]%elem_of_cons; lia.
  - destruct (Z.max_spec y (foldr Z.max 0 l)) as [[? ->]|[? ->]]; [|right; left].
    destruct IHa as [->|Hin]; [by left|]. right. by right.
Qed.

Section streaks.
Context `{Uuid} `{GameCore} `{ScanOrder}.

Lemma playedDays_sorted user tb : StronglySorted Z.lt (playedDays user tb).
Proof.
  unfold playedDays. rewrite <- (list_fmap_id (order_by _ _ _)).
  eapply (StronglySorted_fmap id (before id Z.ltb)); [|apply (order_by_sorted id Z.ltb)].
  - intros x y Hxy. by apply Z.ltb_lt.
  - rewrite list_fmap_id. apply NoDup_remove_dups.
Qed.

(** An account has played on a day when one of its runs was created on it, in UTC. *)
Definition playedOn (user : UUID) (tb : tables) (d : Z) : Prop :=
  exists id r, tb_runs tb !! id = Some r /\ cp_UserID (rr_Params r) = user /\ rr_CreatedAt r / dayMicros = d.

Lemma playedDays_elem user tb d : d ∈ playedDays user tb <-> playedOn user tb d.
Proof.
  unfold playedDays. rewrite (order_by_perm id Z.ltb), elem_of_remove_dups, list_elem_of_fmap. split.
  - intros (p & -> & Hp). unfold playedBy in Hp. apply list_elem_of_fmap in Hp as ([id r] & -> & Hp).
    rewrite scan_perm in Hp. apply list_elem_of_filter in Hp as [Hu Hr%elem_of_map_to_list]. by exists id, r.
  - intros (id & r & Hr & Hu & <-).
    exists {| pl_ID := id; pl_Run := r; pl_Verdict := verdictOf tb id r |}. split; [done|].
    unfold playedBy. apply list_elem_of_fmap. exists (id, r). split; [done|]. rewrite scan_perm.
    apply list_elem_of_filter. split; [done|]. by apply elem_of_map_to_list.
Qed.

(** [n] days played one after another, the last of them [e]. *)
Definition streakTo (user : UUID) (tb : tables) (e n : Z) : Prop := forall x, e - n < x <= e -> playedOn user tb x.

(** C38: a streak is days played one after another.  The best streak is the greatest
    number of consecutive days, in UTC, on each of which the account has a run: so many
    there are, and never more.  The current one, when no run is dated in the future, is
    nothing if the account played neither today nor yesterday, and otherwise the
    consecutive days up to the last of the two it played, as far back as they go. *)
Theorem streaks_are_consecutive_days (user : UUID) (today : Z) (tb : tables) :
  let st := GetProfileStreaks user today tb in
  (forall e n, 0 <= n -> streakTo user tb e n -> n <= st_Best st)
  /\ (0 <= st_Best st /\ exists e, streakTo user tb e (st_Best st))
  /\ ((forall d, playedOn user tb d -> d <= today) ->
      (st_Current st = 0 /\ ~ playedOn user tb today /\ ~ playedOn user tb (today - 1))
      \/ (0 < st_Current st
          /\ exists e, today - 1 <= e <= today /\ ~ playedOn user tb (e + 1)
               /\ streakTo user tb e (st_Current st) /\ ~ playedOn user tb (e - st_Current st))).
Proof.
  cbv zeta. cbn [st_Best st_Current GetProfileStreaks].
  pose proof (playedDays_sorted user tb) as Hs. set (days := playedDays user tb) in *.
  assert (forall d, d ∈ days <-> playedOn user tb d) as Hd by apply playedDays_elem.
  destruct (max_of (lengths days).*1) as [Hub Hat]. split_and!.
  - intros e n Hn Hst. destruct (decide (n = 0)) as [->|Hne].
    { destruct Hat as [->|Hat]; [done|]. apply list_elem_of_fmap in Hat as ([len last_] & E & Hin). rewrite E. cbn.
      destruct (lengths_elem _ _ _ Hs Hin) as (s & [? _] & _). lia. }
    assert (e ∈ days) as He by (apply Hd, Hst; lia).
    destruct (lengths_cover days e Hs He) as (s & len & Hin & Hle & Hs1 & Hs2).
    assert (s <= e - n + 1).
    { destruct (decide (s <= e - n + 1)); [done|]. exfalso. apply Hs1, Hd, Hst. lia. }
    assert (len <= foldr Z.max 0 (lengths days).*1) by (apply Hub, list_elem_of_fmap; by exists (len, s + len - 1)). lia.
  - destruct Hat as [->|Hat]; [done|]. apply list_elem_of_fmap in Hat as ([len last_] & E & Hin). rewrite E. cbn.
    destruct (lengths_elem _ _ _ Hs Hin) as (s & [? _] & _). lia.
  - destruct Hat as [->|Hat]; [exists 0; intros x Hx; lia|].
    apply list_elem_of_fmap in Hat as ([len last_] & E & Hin). rewrite E. cbn.
    destruct (lengths_elem _ _ _ Hs Hin) as (s & _ & -> & Hall). exists (s + len - 1). intros x Hx. apply Hd, Hall. lia.
  - intros Hfut. destruct (max_of (filter (fun l => today - 1 <= l.2) (lengths days)).*1) as [Hcub Hcat].
    assert (forall x, x ∈ days -> today - 1 <= x -> exists len, 1 <= len /\ len ∈ (filter (fun l => today - 1 <= l.2) (lengths days)).*1) as Hsome.
    { intros x Hx Hge. destruct (lengths_cover days x Hs Hx) as (s & len & Hin & Hle & _). exists len. split; [lia|].
      apply list_elem_of_fmap. exists (len, s + len - 1). split; [done|]. apply list_elem_of_filter. split; [cbn; lia|done]. }
    destruct Hcat as [E|Hcat].
    + left. split; [done|]. rewrite E in Hcub.
      split; intros Hp%Hd; destruct (Hsome _ Hp ltac:(lia)) as (len & Hlen & Hin%Hcub); lia.
    + right. apply list_elem_of_fmap in Hcat as ([len last_] & E & [Hge Hin]%list_elem_of_filter).
      rewrite E. cbn in *. destruct (lengths_elem _ _ _ Hs Hin) as (s & (Hn & _ & Hs1 & Hs2) & -> & Hall).
      split; [lia|]. exists (s + len - 1).
      assert (s + len - 1 ∈ days) as Hlast by (apply Hall; lia). apply Hd, Hfut in Hlast.
      split_and!; [lia|lia| | |].
      * intros Hp%Hd. apply Hs2. by replace (s + len) with (s + len - 1 + 1) by lia.
      * intros x Hx. apply Hd, Hall. lia.
      * intros Hp%Hd. apply Hs1. by replace (s - 1) with (s + len - 1 - len) by lia.
Qed.
End streaks.
