(* ===== verification/ProfileSearch.v ===== *)
(** * The player search: containment, case apart

    [LIKE '%' || escaped || '%'] finds the names that contain the needle as it is typed,
    its wildcards taken literally. *)

From Stdlib Require Import Sorting.Sorted Strings.Ascii.
From stdpp Require Import sorting.
From S2P Require Import Prelude GoStd Uuid Keyset AuthText AuthStore AuthInv ModStore ProfileStore.

Open Scope Z_scope.

(** ** Matching *)

Lemma like_any p s : like_match (Any :: p) s = true <-> exists a b, s = a ++ b /\ like_match p b = true.
Proof.
  cbn. induction s as [|c s IH].
  - rewrite orb_false_r. split; [by exists [], []|]. intros (a & b & E & Hm).
    symmetry in E. apply app_eq_nil in E as [-> ->]. done.
  - rewrite orb_true_iff, IH. split.
    + intros [Hm|(a & b & -> & Hm)]; [by exists [], (c :: s)|by exists (c :: a), b].
    + intros ([|c' a] & b & E & Hm); cbn in E; [left; by subst b|right]. injection E as <- ->. by exists a, b.
Qed.

Lemma like_lits l p s : like_match ((Lit <$> l) ++ p) s = true <-> exists b, s = l ++ b /\ like_match p b = true.
Proof.
  revert s. induction l as [|r l IH]; intros s; cbn.
  - split; [by exists s|by intros (b & -> & Hm)].
  - destruct s as [|c s]; [split; [done|by intros (b & E & _)]|]. rewrite andb_true_iff, Z.eqb_eq, IH. split.
    + intros [-> (b & -> & Hm)]. by exists b.
    + intros (b & [= -> ->] & Hm). split; [done|]. by exists b.
Qed.

Lemma like_end s : like_match [Any] s = true.
Proof. apply like_any. exists s, []. by rewrite app_nil_r. Qed.

(** ** The escaped needle is literal *)

Definition special (r : Z) : bool := (r =? backslash) || (r =? percent) || (r =? underscore).

Definition escapeRunes (rs : list Z) : list Z := rs ≫= fun r => if special r then [backslash; r] else [r].

Lemma tokens_escape rs p : like_tokens (escapeRunes rs ++ p) = (Lit <$> rs) ++ like_tokens p.
Proof.
  induction rs as [|r rs IH]; [done|]. unfold escapeRunes in *. cbn [mbind list_bind fmap list_fmap app].
  destruct (special r) eqn:Es; cbn [app like_tokens].
  - by rewrite IH.
  - unfold special in Es. apply orb_false_iff in Es as [[E1 E2]%orb_false_iff E3]. by rewrite E1, E2, E3, IH.
Qed.

Lemma encode_special r : Utf8.valid_rune r ->
  (Utf8.encode r ≫= fun b => if special b then [backslash; b] else [b])
  = if special r then [backslash; r] else Utf8.encode r.
Proof.
  intros Hr. assert (forall l, Forall (fun b => special b = false) l ->
    (l ≫= fun b => if special b then [backslash; b] else [b]) = l) as Hkeep.
  { induction 1 as [|b l Hb Hl IH]; [done|]. cbn. by rewrite Hb, IH. }
  rewrite Utf8.encode_val by done. unfold Utf8.valid_rune in Hr. destruct (r <? 0x80) eqn:E; bool_to_prop.
  - cbn. by destruct (special r).
  - assert (special r = false) as -> by (unfold special, backslash, percent, underscore; lia).
    apply Hkeep. repeat case_match; bool_to_prop; repeat constructor; unfold special, backslash, percent, underscore; lia.
Qed.

Lemma likeEscape_runes rs : Forall Utf8.valid_rune rs ->
  likeEscape (Utf8.string_of_runes rs) = Utf8.string_of_runes (escapeRunes rs).
Proof.
  intros Hrs. unfold likeEscape, Utf8.string_of_runes. rewrite bytes_of_string_of_bytes by by apply encodes_bytes.
  f_equal. change (fun b => if (b =? backslash) || (b =? percent) || (b =? underscore) then [backslash; b] else [b])
    with (fun b => if special b then [backslash; b] else [b]).
  induction Hrs as [|r rs Hr Hrs IH]; [done|]. unfold escapeRunes in *. cbn [mbind list_bind].
  rewrite bind_app, bind_app, IH, encode_special by done. f_equal.
  destruct (special r) eqn:Es; [|cbn [mbind list_bind]; by rewrite app_nil_r].
  unfold special, backslash, percent, underscore in Es.
  assert (r = 92 \/ r = 37 \/ r = 95) as Hcases by lia. destruct Hcases as [->|[->| ->]]; done.
Qed.

Lemma escape_valid rs : Forall Utf8.valid_rune rs -> Forall Utf8.valid_rune (escapeRunes rs).
Proof.
  induction 1 as [|r rs Hr Hrs IH]; [constructor|]. unfold escapeRunes in *. cbn [mbind list_bind].
  assert (Utf8.valid_rune backslash) by (unfold Utf8.valid_rune, backslash; lia).
  destruct (special r); apply Forall_app; (split; [|exact IH]); rewrite ?Forall_cons, Forall_nil; done.
Qed.

Lemma string_of_bytes_app a b : string_of_bytes (a ++ b) = string_of_bytes a +:+ string_of_bytes b.
Proof. induction a as [|x a IH]; [done|]. unfold string_of_bytes in *. cbn. by rewrite IH. Qed.

Lemma runes_wrapped rs : Forall Utf8.valid_rune rs ->
  Utf8.runes ("%" +:+ Utf8.string_of_runes rs +:+ "%") = percent :: rs ++ [percent]
  /\ Utf8.runes (Utf8.string_of_runes rs +:+ "%") = rs ++ [percent].
Proof.
  intros Hrs. assert (forall a b, Utf8.string_of_runes (a ++ b) = Utf8.string_of_runes a +:+ Utf8.string_of_runes b) as Happ.
  { intros a b. unfold Utf8.string_of_runes. by rewrite bind_app, string_of_bytes_app. }
  assert (Utf8.valid_rune percent) as Hp by (unfold Utf8.valid_rune, percent; lia).
  assert (Forall Utf8.valid_rune (rs ++ [percent])) as Hr by (apply Forall_app; split; [done|by apply Forall_singleton]).
  split.
  - transitivity (Utf8.runes (Utf8.string_of_runes (percent :: rs ++ [percent]))).
    + f_equal. change (percent :: rs ++ [percent]) with ([percent] ++ (rs ++ [percent])). by rewrite !Happ.
    + apply Utf8.runes_string_of_runes. by apply Forall_cons_2.
  - transitivity (Utf8.runes (Utf8.string_of_runes (rs ++ [percent]))).
    + f_equal. by rewrite Happ.
    + by apply Utf8.runes_string_of_runes.
Qed.

Lemma like_contains s rs : Forall Utf8.valid_rune rs ->
  like s ("%" +:+ likeEscape (Utf8.string_of_runes rs) +:+ "%") = true
  <-> exists a b, Utf8.runes s = a ++ rs ++ b.
Proof.
  intros Hrs. unfold like. rewrite likeEscape_runes by done.
  rewrite (proj1 (runes_wrapped _ (escape_valid _ Hrs))).
  change (like_tokens (percent :: escapeRunes rs ++ [percent])) with (Any :: like_tokens (escapeRunes rs ++ [percent])).
  rewrite tokens_escape, like_any. change (like_tokens [percent]) with [Any].
  setoid_rewrite like_lits. split.
  - intros (a & b & -> & b' & -> & _). by exists a, b'.
  - intros (a & b & ->). exists a, (rs ++ b). split; [done|]. exists b. split; [done|apply like_end].
Qed.

Lemma like_prefix s rs : Forall Utf8.valid_rune rs ->
  like s (likeEscape (Utf8.string_of_runes rs) +:+ "%") = bool_decide (rs `prefix_of` Utf8.runes s).
Proof.
  intros Hrs. unfold like. rewrite likeEscape_runes by done.
  rewrite (proj2 (runes_wrapped _ (escape_valid _ Hrs))), tokens_escape. change (like_tokens [percent]) with [Any].
  apply eq_bool_prop_intro. rewrite bool_decide_spec, Is_true_true, like_lits. split.
  - intros (b & -> & _). by exists b.
  - intros [b ->]. exists b. split; [done|apply like_end].
Qed.

(** ** What a search answers *)

(** What [ToLower] writes is UTF-8. *)
Lemma string_of_runes_valid rs : exists rs',
  Utf8.string_of_runes rs = Utf8.string_of_runes rs' /\ Forall Utf8.valid_rune rs'.
Proof.
  exists ((fun r => if decide (Utf8.valid_rune r) then r else Utf8.RuneError) <$> rs).
  assert (Utf8.valid_rune Utf8.RuneError) as He by (unfold Utf8.valid_rune, Utf8.RuneError; lia). split.
  - unfold Utf8.string_of_runes. f_equal. induction rs as [|r rs IH]; [done|]. cbn [mbind list_bind fmap list_fmap].
    rewrite IH. f_equal. unfold Utf8.encode.
    destruct (decide (Utf8.valid_rune r)) as [Hr|Hr]; [by rewrite decide_True|by destruct (decide (Utf8.valid_rune Utf8.RuneError))].
  - apply Forall_fmap, Forall_true. intros r. cbn. by case_decide.
Qed.

Section search.
Context `{Uuid} `{PgText} `{!UuidOrder} `{!Collation}.

(** The search as a player reads it: the needle is contained in the name, case apart. *)
Definition contains (needle : string) (u : User) : Prop :=
  exists a b, Utf8.runes (pg_lower (us_DisplayName u)) = a ++ Utf8.runes needle ++ b.

(** Exact matches first, then names the needle begins, then the shorter, then by name. *)
Definition closeness (needle : string) (u : User) : (bool * bool) * (Z * string) :=
  let name := pg_lower (us_DisplayName u) in
  ((name =s? needle, bool_decide (Utf8.runes needle `prefix_of` Utf8.runes name)),
   (Utf8.rune_count (us_DisplayName u), us_DisplayName u)).

Lemma rows_of_table {A} (t : gmap UUID A) a : a ∈ rows t <-> exists k, t !! k = Some a.
Proof.
  unfold rows. rewrite list_elem_of_fmap. split.
  - intros ([k a'] & -> & Hk%elem_of_map_to_list). by exists k.
  - intros [k Hk%elem_of_map_to_list]. by exists (k, a).
Qed.

Lemma names_NoDup t : users_ok t -> NoDup (us_DisplayName <$> rows t).
Proof.
  intros Ht. unfold rows. rewrite <- list_fmap_compose. apply NoDup_fmap_2_strong; [|apply NoDup_map_to_list].
  intros [k u] [k' u'] Hk%elem_of_map_to_list Hk'%elem_of_map_to_list E. cbn in E.
  assert (k = k') as -> by (eapply (uo_names _ Ht); [exact Hk|exact Hk'|by rewrite E]). congruence.
Qed.

(** C37: the search is plain containment.  Whatever the text typed, wildcards and
    backslashes included, the statement answers the first [limit] of exactly the
    accounts that are not restricted and whose name contains that text, case apart, in
    the order a searcher can reconstruct: exact match, prefix, length, name.  The
    order is strict, so two identical searches of the same tables answer the same. *)
Theorem search_is_containment table q now limit (auth : authDB) (mod_ : modDB) :
  users_ok (db_users auth) ->
  let needle := AuthText.ToLower table q in
  exists us,
    SearchUsersByName now (likeEscape needle) needle limit auth mod_ = asResult <$> take (Z.to_nat limit) us
    /\ (forall u, u ∈ us <-> (exists k, db_users auth !! k = Some u) /\ contains needle u
                             /\ IsRestricted now (us_ID u) mod_ = false)
    /\ StronglySorted (fun u v => ranked (closeness needle u) (closeness needle v) = true) us.
Proof.
  intros Hok needle. destruct (string_of_runes_valid (lower_rune table <$> Utf8.runes q)) as (rs & En & Hrs).
  assert (needle = Utf8.string_of_runes rs) as E by exact En.
  assert (Utf8.runes needle = rs) as Er by (rewrite E; by apply Utf8.runes_string_of_runes).
  set (p := likeEscape needle).
  exists (order_by (rank p needle) ranked (filter (fun u => found now p mod_ u = true) (rows (db_users auth)))).
  split; [done|]. split.
  - intros u. rewrite (order_by_perm (rank p needle) ranked), list_elem_of_filter, rows_of_table.
    unfold found, p. rewrite andb_true_iff, negb_true_iff, E, like_contains by done. rewrite <- E.
    unfold contains. rewrite Er. naive_solver.
  - assert (forall u, rank p needle u = closeness needle u) as Hrank.
    { intros u. unfold rank, closeness, p. cbv zeta. rewrite Er. do 2 f_equal. rewrite E. by apply like_prefix. }
    assert (NoDup (rank p needle <$> filter (fun u => found now p mod_ u = true) (rows (db_users auth)))) as Hnd.
    { eapply (NoDup_fmap_1 (fun x => x.2.2)). rewrite <- list_fmap_compose.
      change ((fun x => x.2.2) ∘ rank p needle) with us_DisplayName.
      apply (NoDup_filter_pos us_DisplayName), names_NoDup, Hok. }
    apply (order_by_sorted (rank p needle) ranked) in Hnd.
    rewrite <- (list_fmap_id (order_by _ _ _)). eapply (StronglySorted_fmap id); [|exact Hnd].
    intros u v Huv. unfold before in Huv. by rewrite !Hrank in Huv.
Qed.
End search.
