(* ===== verification/ProfilePatch.v ===== *)
(** * Editing a profile: what a save leaves behind

    The writes of [ApplyProfilePatch], read back. *)

From Stdlib Require Import Sorting.Sorted Strings.Ascii.
From S2P Require Import Prelude GoStd Effects Uuid Httpx Keyset Json AuthLimiter AuthText AuthPassword AuthStore AuthFlow AuthHandlers AuthInv AuthWorld QuoteStore QuoteHandlers ModStore ModHandlers ModWorld ModInv ProfileStore ProfileSearch Runs Policy Core Decide RunStore Board BoardRead RunRead Keyboard ProfileRead ProfileHandlers ProfileWorld.

Open Scope Z_scope.

(** ** The showcase *)

Section showcase.
Context `{Uuid} `{PgText} `{!UuidOrder} `{!Collation}.

(** The place of a code in a showcase that starts at [i]: the last one it is given. *)
Fixpoint placeOf (i : Z) (codes : list string) (c : string) : option Z :=
  match codes with
  | [] => None
  | c' :: codes =>
    match placeOf (i + 1) codes c with
    | Some n => Some n
    | None => if c' =s? c then Some i else None
    end
  end.

Definition placed (user : UUID) (i : Z) (codes : list string) (g : Grant) : Grant :=
  if liveOf user g then match placeOf i codes (gr_Code g) with Some n => withPlace (Some n) g | None => g end else g.

Lemma placeOf_some i codes c n : placeOf i codes c = Some n -> i <= n < i + Z.of_nat (length codes) /\ codes !! Z.to_nat (n - i) = Some c.
Proof.
  revert i. induction codes as [|c' codes IH]; intros i; [done|]. cbn. destruct (placeOf (i + 1) codes c) as [m|] eqn:E.
  - intros [= <-]. destruct (IH _ E) as [Hm Hl]. split; [lia|].
    replace (Z.to_nat (m - i)) with (S (Z.to_nat (m - (i + 1)))) by lia. done.
  - destruct (c' =s? c) eqn:Ec; [|done]. intros [= <-]. bool_to_prop. split; [lia|].
    rewrite Z.sub_diag, Ec. done.
Qed.

Lemma placeOf_none i codes c : placeOf i codes c = None <-> c ∉ codes.
Proof.
  revert i. induction codes as [|c' codes IH]; intros i; cbn; [by split; [intros _; apply not_elem_of_nil|]|].
  rewrite not_elem_of_cons. destruct (placeOf (i + 1) codes c) as [m|] eqn:E.
  - split; [done|]. intros [_ Hn]. apply (IH (i + 1)) in Hn. congruence.
  - apply IH in E. destruct (c' =s? c) eqn:Ec; bool_to_prop; [split; [done|by intros [[] _]]|].
    split; [intros _; split; [congruence|done]|done].
Qed.

Lemma placeOf_at codes c n : NoDup codes -> codes !! n = Some c -> placeOf 0 codes c = Some (Z.of_nat n).
Proof.
  intros Hn Hc. destruct (placeOf 0 codes c) as [m|] eqn:E.
  - apply placeOf_some in E as [Hm Hl]. rewrite Z.sub_0_r in Hl. pose proof (NoDup_lookup _ _ _ _ Hn Hl Hc). f_equal. lia.
  - apply placeOf_none in E. exfalso. apply E. by eapply list_elem_of_lookup_2.
Qed.

Lemma liveGrant_liveOf user code g : liveGrant user code g = liveOf user g && (gr_Code g =s? code).
Proof. unfold liveGrant, liveOf. by destruct (bool_decide _), (gr_Code g =s? code), (bool_decide _). Qed.

Lemma liveOf_withPlace user n g : liveOf user (withPlace n g) = liveOf user g.
Proof. done. Qed.

Lemma placeFrom_placed user i codes db : placeFrom user i codes db = setGrants (fmap (placed user i codes)) db.
Proof.
  revert i db. induction codes as [|code codes IH]; intros i db.
  - unfold setGrants. cbn. destruct db as [? ? t ? ?]. cbn. f_equal. rewrite <- (map_fmap_id t) at 1.
    apply map_fmap_ext. intros k g _. unfold placed. cbn. by destruct (liveOf user g).
  - cbn [placeFrom]. rewrite IH. unfold PlaceBadgeInShowcase, setGrants. cbn. f_equal.
    rewrite <- map_fmap_compose. apply map_fmap_ext. intros k g _. unfold placed, compose. rewrite liveGrant_liveOf.
    destruct (liveOf user g) eqn:El; cbn [andb].
    + cbn [placeOf]. rewrite (String.eqb_sym code).
      destruct (gr_Code g =s? code) eqn:Ec; rewrite ?liveOf_withPlace, El; cbn [gr_Code withPlace];
        by destruct (placeOf (i + 1) codes (gr_Code g)).
    + by rewrite El.
Qed.

(** A live badge of the account is shown in its place among [codes], or not at all. *)
Definition arranged (user : UUID) (codes : list string) (g : Grant) : Grant :=
  if liveOf user g then withPlace (placeOf 0 codes (gr_Code g)) g else g.

Lemma arrange_arranged user codes db : arrange user codes db = setGrants (fmap (arranged user codes)) db.
Proof.
  unfold arrange. rewrite placeFrom_placed. unfold ClearBadgeShowcase, setGrants. cbn. f_equal.
  rewrite <- map_fmap_compose. apply map_fmap_ext. intros k g _. unfold placed, arranged, compose.
  destruct (liveOf user g) eqn:El; [|by rewrite El]. rewrite liveOf_withPlace, El. cbn [gr_Code withPlace].
  by destruct (placeOf 0 codes (gr_Code g)).
Qed.

(** The badges an account holds. *)
Definition holds (user : UUID) (code : string) (db : modDB) : Prop :=
  exists k g, md_grants db !! k = Some g /\ liveGrant user code g = true.

(** The showcase as it was asked for. *)
Definition asked (codes : list string) : list ShowcaseBadge :=
  imap (fun i c => {| sb_Code := c; sb_Order := Z.of_nat i |}) codes.

Lemma asked_sorted codes :
  StronglySorted (before (fun b => (sb_Order b, sb_Code b)) (lexicographic Z.ltb text_lt)) (asked codes).
Proof.
  unfold asked. assert (forall k, StronglySorted (before (fun b => (sb_Order b, sb_Code b)) (lexicographic Z.ltb text_lt))
    (imap (fun i c => {| sb_Code := c; sb_Order := Z.of_nat (k + i) |}) codes)) as Hgen; [|apply (Hgen 0%nat)].
  induction codes as [|c codes IH]; intros k; [constructor|]. cbn. constructor.
  - erewrite imap_ext; [apply (IH (S k))|]. intros i c' _. cbn. do 2 f_equal. lia.
  - apply Forall_forall. intros b (i & c' & -> & _)%elem_of_lookup_imap. unfold before, lexicographic. cbn.
    apply orb_true_iff. left. apply Z.ltb_lt. lia.
Qed.

Lemma showcase_read user codes db :
  one_live (md_grants db) -> NoDup codes -> (forall c, c ∈ codes -> holds user c db) ->
  ListShowcaseBadges user (arrange user codes db) = asked codes.
Proof.
  intros Hone Hnd Hheld. rewrite arrange_arranged. unfold ListShowcaseBadges. cbn.
  set (t := arranged user codes <$> md_grants db).
  assert (forall b, b ∈ omap (shown user) (rows t) <-> b ∈ asked codes) as Hel.
  { intros b. rewrite list_elem_of_omap. unfold asked. rewrite elem_of_lookup_imap. split.
    - intros (g & Hg & Hb). apply rows_of_table in Hg as [k Hk]. unfold t in Hk.
      apply lookup_fmap_Some in Hk as (g0 & <- & Hk). unfold shown, arranged in Hb.
      destruct (liveOf user g0) eqn:El; [|by rewrite El in Hb]. rewrite liveOf_withPlace, El in Hb. cbn in Hb.
      destruct (placeOf 0 codes (gr_Code g0)) as [n|] eqn:Ep; [|done]. injection Hb as <-.
      apply placeOf_some in Ep as [Hn Hc]. rewrite Z.sub_0_r in Hc. exists (Z.to_nat n), (gr_Code g0).
      split; [f_equal; lia|done].
    - intros (n & c & -> & Hc). destruct (Hheld c) as (k & g & Hk & Hl); [by eapply list_elem_of_lookup_2|].
      exists (arranged user codes g). split; [apply rows_of_table; exists k; unfold t; by rewrite lookup_fmap, Hk|].
      rewrite liveGrant_liveOf in Hl. bool_to_prop. unfold shown, arranged.
      match goal with E : liveOf user g = true |- _ => rewrite E, liveOf_withPlace, E end. cbn.
      match goal with E : gr_Code g = c |- _ => rewrite E end.
      by rewrite (placeOf_at codes c n Hnd Hc). }
  assert (NoDup (omap (shown user) (rows t))) as Hn1.
  { unfold rows. assert (forall l : list (UUID * Grant), omap (shown user) l.*2 = omap (shown user ∘ snd) l) as ->.
    { intros l. induction l as [|[k g] l IH]; [done|]. cbn. destruct (shown user g); [by rewrite IH|exact IH]. }
    apply NoDup_omap_inj; [apply NoDup_map_to_list|].
    intros [k g] [k' g'] b Hk%elem_of_map_to_list Hk'%elem_of_map_to_list Eb Eb'. cbn in Eb, Eb'.
    assert (k = k') as ->; [|congruence]. unfold t in Hk, Hk'.
    apply lookup_fmap_Some in Hk as (g0 & <- & Hk), Hk' as (g1 & <- & Hk').
    unfold shown, arranged in Eb, Eb'.
    destruct (liveOf user g0) eqn:E0; [|by rewrite E0 in Eb]. destruct (liveOf user g1) eqn:E1; [|by rewrite E1 in Eb'].
    rewrite liveOf_withPlace, E0 in Eb. rewrite liveOf_withPlace, E1 in Eb'. cbn in Eb, Eb'.
    destruct (placeOf 0 codes (gr_Code g0)); [|done]. destruct (placeOf 0 codes (gr_Code g1)); [|done].
    injection Eb as <-. injection Eb' as Ec _. unfold liveOf in E0, E1. bool_to_prop.
    eapply Hone; [exact Hk|exact Hk'|done|done|congruence|done]. }
  assert (StronglySorted (before (fun b => (sb_Order b, sb_Code b)) (lexicographic Z.ltb text_lt)) (asked codes)) as Hsort.
  { apply asked_sorted. }
  apply (sorted_unique (fun b => (sb_Order b, sb_Code b)) (lexicographic Z.ltb text_lt)).
  - apply (order_by_sorted _ (lexicographic Z.ltb text_lt)). apply NoDup_fmap_2; [|done]. by intros [] [] [= -> ->].
  - done.
  - rewrite (order_by_perm _ (lexicographic Z.ltb text_lt)). apply NoDup_Permutation; [done| |done].
    clear -Hsort. revert Hsort. induction (asked codes) as [|b l IH]; [constructor|].
    intros [Hl Hb]%StronglySorted_inv. constructor; [|by apply IH]. intros Hin. rewrite Forall_forall in Hb.
    specialize (Hb _ Hin). unfold before in Hb. by rewrite lt_irrefl in Hb.
Qed.
End showcase.

(** ** The links *)

Section links.
Context `{Uuid} `{PgText} `{Argon2} `{!UuidOrder} `{!Env} `{!Collation} `{LowerTable} `{MapRange}.

(** What a save may ask of a link: to go, or a handle of its kind. *)
Definition linkGood (kind handle : string) : Prop :=
  if handle =s? "" then knownLinkKind kind = true else linkChecks kind handle = true.

(** What becomes of a link a save mentions. *)
Definition kept_link (handle : string) : option string := if handle =s? "" then None else Some handle.

Lemma checkLinks_inl l links m :
  NoDup l.*1 -> checkLinks l links = inl m ->
  (forall kind h, (kind, h) ∈ l -> m !! kind = Some (Strs.TrimSpace h) /\ linkGood kind (Strs.TrimSpace h))
  /\ (forall kind, kind ∉ l.*1 -> m !! kind = links !! kind).
Proof.
  revert links. induction l as [|[kind h] l IH]; intros links; cbn [fmap list_fmap fst checkLinks].
  { intros _ [= <-]. split; [by intros ?? ?%not_elem_of_nil|done]. }
  intros [Hk Hnd]%NoDup_cons. cbv zeta. set (t := Strs.TrimSpace h).
  assert (checkLinks l (<[kind := t]> links) = inl m -> linkGood kind t ->
    (forall k h', (k, h') ∈ (kind, h) :: l -> m !! k = Some (Strs.TrimSpace h') /\ linkGood k (Strs.TrimSpace h'))
    /\ (forall k, k ∉ kind :: l.*1 -> m !! k = links !! k)) as Hstep.
  { intros E Hg. destruct (IH _ Hnd E) as [Hin Hout]. split.
    - intros k h' [[= -> ->]|Hl]%elem_of_cons; [|by apply Hin]. split; [|done]. rewrite Hout by done.
      by rewrite lookup_insert_eq.
    - intros k [Hne Hl]%not_elem_of_cons. rewrite Hout by done. by rewrite lookup_insert_ne. }
  unfold linkGood in Hstep at 1. destruct (t =s? "") eqn:Et.
  - apply String.eqb_eq in Et. rewrite Et in Hstep. destruct (knownLinkKind kind); [|done]. cbn. auto.
  - destruct (ValidateLink kind t) eqn:Ev; [done|]. apply ValidateLink_checks in Ev. auto.
Qed.

Lemma map_range_keys n (m : gmap string string) : NoDup (map_range n m).*1.
Proof. rewrite (map_range_perm n m). apply NoDup_fst_map_to_list. Qed.

Lemma linksField_inl links m :
  linksField links = inl m ->
  m = (fun lm : gmap string string => Strs.TrimSpace <$> lm) <$> links
  /\ (forall t kind h, m = Some t -> t !! kind = Some h -> linkGood kind h).
Proof.
  unfold linksField. destruct links as [lm|]; [|intros [= <-]; by split].
  destruct (checkLinks _ _) as [t|] eqn:E; [|done]. intros [= <-].
  destruct (checkLinks_inl _ _ _ (map_range_keys 0 lm) E) as [Hin Hout].
  assert (forall kind h, lm !! kind = Some h -> t !! kind = Some (Strs.TrimSpace h) /\ linkGood kind (Strs.TrimSpace h)) as Hl.
  { intros kind h Hk. apply Hin. rewrite (map_range_perm 0 lm). by apply elem_of_map_to_list. }
  assert (t = Strs.TrimSpace <$> lm) as Et.
  { apply map_eq. intros kind. rewrite lookup_fmap. destruct (lm !! kind) as [h|] eqn:Ek; [by apply Hl|].
    cbn. rewrite Hout; [apply lookup_empty|]. rewrite (map_range_perm 0 lm).
    intros ([k h] & -> & Hkh%elem_of_map_to_list)%list_elem_of_fmap. cbn in Ek. congruence. }
  split; [by rewrite Et|]. intros t' kind h [= <-]. rewrite Et, lookup_fmap. intros (h0 & Eh & Hk)%fmap_Some.
  subst h. by apply Hl.
Qed.

Lemma kind_storable kind : knownLinkKind kind = true -> storable kind = true.
Proof.
  unfold knownLinkKind, linkPattern. intros Hk. destruct (kind =s? "github") eqn:E1; [bool_to_prop; by subst|].
  destruct (kind =s? "youtube") eqn:E2; [bool_to_prop; by subst|].
  destruct (kind =s? "twitch") eqn:E3; [bool_to_prop; by subst|]. bool_to_prop. by destruct Hk.
Qed.

Lemma checks_known kind h : linkChecks kind h = true -> knownLinkKind kind = true.
Proof. unfold linkChecks, knownLinkKind. destruct (linkPattern kind); [by intros _; apply bool_decide_eq_true_2|done]. Qed.

Lemma writeLinks_good (user : UUID) (auth : authDB) (l : list (string * string)) (links : linksTable) :
  live auth user -> NoDup l.*1 -> (forall kind h, (kind, h) ∈ l -> linkGood kind h) ->
  exists links', writeLinks user auth l links = inl links'
    /\ (forall kind h, (kind, h) ∈ l -> links' !! (user, kind) = kept_link h)
    /\ (forall u kind, u <> user \/ kind ∉ l.*1 -> links' !! (u, kind) = links !! (u, kind)).
Proof.
  intros Hu. revert links. induction l as [|[kind h] l IH]; intros links; cbn [fmap list_fmap fst writeLinks].
  { intros _ _. exists links. split_and!; [done|by intros ?? ?%not_elem_of_nil|done]. }
  intros [Hk Hnd]%NoDup_cons Hg. pose proof (Hg kind h ltac:(left)) as Hkh.
  assert (forall k h', (k, h') ∈ l -> linkGood k h') as Hg' by (intros k h' Hin; apply Hg; by right).
  assert (forallb storable [kind; h] = true) as ->.
  { unfold linkGood in Hkh. cbn. destruct (h =s? "") eqn:Eh.
    - apply String.eqb_eq in Eh. subst h. by rewrite (kind_storable _ Hkh).
    - by rewrite (kind_storable _ (checks_known _ _ Hkh)), (handle_storable _ _ (proj2 (ValidateLink_checks _ _) Hkh)). }
  cbn [negb]. set (links1 := if h =s? "" then DeleteUserLink user kind links else <[(user, kind) := h]> links).
  assert ((if h =s? "" then writeLinks user auth l (DeleteUserLink user kind links)
           else match UpsertUserLink user kind h auth links with
                | inl links => writeLinks user auth l links | inr e => inr (Pg e) end) = writeLinks user auth l links1) as ->.
  { unfold links1, linkGood in *. destruct (h =s? ""); [done|]. unfold UpsertUserLink.
    rewrite (checks_known _ _ Hkh), Hkh. cbn. by rewrite bool_decide_eq_true_2. }
  destruct (IH links1 Hnd Hg') as (links' & E & Hin & Hout). exists links'. split; [done|]. split.
  - intros k h' [[= -> ->]|Hl]%elem_of_cons; [|by apply Hin]. rewrite Hout by (by right).
    unfold links1, kept_link, DeleteUserLink. destruct (h =s? ""); [by rewrite lookup_delete_eq|by rewrite lookup_insert_eq].
  - intros u k Hor. rewrite Hout; [|destruct Hor as [?|[_ ?]%not_elem_of_cons]; [by left|by right]].
    assert ((user, kind) <> (u, k)) as Hne.
    { intros [= <- <-]. destruct Hor as [?|Hn]; [done|]. apply Hn. left. }
    unfold links1, DeleteUserLink. destruct (h =s? ""); [by rewrite lookup_delete_ne|by rewrite lookup_insert_ne].
Qed.

Lemma ListUserLinks_elem (user : UUID) (links : linksTable) (kind h : string) :
  {| li_Kind := kind; li_Handle := h |} ∈ ListUserLinks user links <-> links !! (user, kind) = Some h.
Proof.
  unfold ListUserLinks. rewrite (order_by_perm li_Kind text_lt). unfold linksOf. rewrite list_elem_of_fmap. split.
  - intros ([[u k] h'] & [= -> ->] & [Hu Hk%elem_of_map_to_list]%list_elem_of_filter). cbn in *. by subst u.
  - intros Hk. exists ((user, kind), h). split; [done|]. apply list_elem_of_filter. split; [done|].
    by apply elem_of_map_to_list.
Qed.
End links.

(** ** A save, undisturbed *)

Section save.
Context `{Uuid} `{PgText} `{Argon2} `{!UuidOrder} `{!Collation} `{!Draws} `{!Env} `{!ReportLimits}.
Context `{LowerTable} `{MapRange} `{Gzip} `{GameCore} `{JsonText} `{PgCast} `{PgFloat} `{ScanOrder} `{!SearchLimits}.

(** What the patch makes of the stored texts and links. *)
Definition bioAfter (p : Patch) (u : User) : option string := if pa_SetBio p then pa_Bio p else us_Bio u.
Definition keyboardAfter (p : Patch) (u : User) : option string := if pa_SetKeyboard p then pa_Keyboard p else us_Keyboard u.
Definition linkAfter (p : Patch) (kind : string) (old : option string) : option string :=
  match pa_Links p ≫= (fun m => m !! kind) with Some h => kept_link h | None => old end.

(** A patch [patchOf] lets through. *)
Record patch_good (p : Patch) : Prop := {
  pg_bio : textFits bioMax (pa_Bio p) = true;
  pg_keyboard : textFits keyboardMax (pa_Keyboard p) = true;
  pg_links m kind h : pa_Links p = Some m -> m !! kind = Some h -> linkGood kind h }.

Lemma textField_fits field max text v : textField field max text = inl v -> textFits max v.2 = true.
Proof.
  unfold textField. destruct text as [s|]; [|by intros [= <-]]. destruct (normalizeText s max) as [t|] eqn:E; [|done].
  intros [= <-]. destruct t as [t|]; [|done]. by eapply normalizeText_fits.
Qed.

Lemma patchOf_good req p : patchOf req = inl p -> patch_good p.
Proof.
  unfold patchOf. destruct (textField "bio" _ _) as [b|] eqn:Eb; [|done].
  destruct (textField "keyboard" _ _) as [k|] eqn:Ek; [|done].
  destruct (linksField _) as [m|] eqn:El; [|done]. intros [= <-]. split; cbn.
  - by eapply textField_fits.
  - by eapply textField_fits.
  - intros t kind h Em. by apply (linksField_inl _ _ El).
Qed.

Lemma textFits_storable max t : textFits max t = true -> forallb storable (option_list t) = true.
Proof. unfold textFits. destruct t as [s|]; [|done]. intros [[Hs _]%andb_true_iff _]%andb_true_iff. cbn. by rewrite Hs. Qed.

(** The account's row with its two texts replaced. *)
Definition withTexts (now : Z) (bio keyboard : option string) (u : User) : User :=
  {| us_ID := us_ID u; us_DisplayName := us_DisplayName u; us_CreatedAt := us_CreatedAt u;
     us_ProfilePublic := us_ProfilePublic u; us_KeyboardPublic := us_KeyboardPublic u;
     us_UpdatedAt := now; us_Role := us_Role u; us_Bio := bio; us_Keyboard := keyboard;
     us_DisplayNameChangedAt := us_DisplayNameChangedAt u |}.

Lemma writeIdentity_texts user now bio keyboard auth u :
  db_users auth !! user = Some u -> textFits bioMax bio = true -> textFits keyboardMax keyboard = true ->
  writeIdentity user now (Some (bio, keyboard)) auth
  = inl (setUsers (insert user (withTexts now bio keyboard u)) auth).
Proof.
  intros Hu Hb Hk. unfold writeIdentity. rewrite forallb_app, (textFits_storable _ _ Hb), (textFits_storable _ _ Hk).
  cbn. unfold UpdateProfileIdentity. by rewrite Hu, Hb, Hk.
Qed.

(** The identity part of the writes: what is set, or nothing. *)
Definition identityWrite (p : Patch) (u : User) : option (option string * option string) :=
  if pa_SetBio p || pa_SetKeyboard p then Some (bioAfter p u, keyboardAfter p u) else None.

Lemma identityWrite_done (p : Patch) k u now auth :
  patch_good p -> users_ok (db_users auth) -> db_users auth !! k = Some u ->
  exists auth' u', writeIdentity k now (identityWrite p u) auth = inl auth'
    /\ db_users auth' !! k = Some u' /\ us_Bio u' = bioAfter p u /\ us_Keyboard u' = keyboardAfter p u
    /\ (forall k', k' <> k -> db_users auth' !! k' = db_users auth !! k').
Proof.
  intros Hp Hok Hu. destruct (uo_texts _ Hok _ _ Hu) as [Hb Hk]. unfold identityWrite.
  destruct (pa_SetBio p || pa_SetKeyboard p) eqn:Es.
  - eexists _, (withTexts now (bioAfter p u) (keyboardAfter p u) u). split.
    { apply writeIdentity_texts; [done|..].
      - unfold bioAfter. destruct (pa_SetBio p); [apply Hp|done].
      - unfold keyboardAfter. destruct (pa_SetKeyboard p); [apply Hp|done]. }
    cbn. rewrite lookup_insert_eq. split_and!; [done..|]. intros k' Hne. by rewrite lookup_insert_ne.
  - exists auth, u. unfold bioAfter, keyboardAfter. apply orb_false_iff in Es as [-> ->]. by split_and!.
Qed.

Definition patchWrites (p : Patch) (u : User) : profileWrites :=
  {| wr_Identity := identityWrite p u;
     wr_Links := match pa_Links p with Some m => map_range 1 m | None => [] end;
     wr_Showcase := pa_Showcase p |}.

(** The world a save leaves, as far as it is read. *)
Record saved (k : UUID) (p : Patch) (u : User) (w w' : pworld) : Prop := {
  sv_user : exists u', db_users (paccounts w') !! k = Some u' /\ us_Bio u' = bioAfter p u /\ us_Keyboard u' = keyboardAfter p u;
  sv_links kind : pw_links w' !! (k, kind) = linkAfter p kind (pw_links w !! (k, kind));
  sv_badges : pdb w' = match pa_Showcase p with Some codes => arrange k codes (pdb w) | None => pdb w end;
  sv_users k' : k' <> k -> db_users (paccounts w') !! k' = db_users (paccounts w) !! k';
  sv_others k' kind : k' <> k -> pw_links w' !! (k', kind) = pw_links w !! (k', kind) }.

Lemma held_storable L k c db : md_ok L db -> holds k c db -> storable c = true.
Proof.
  intros Hdb (i & g & Hi & Hl). pose proof (go_code _ _ _ (mo_grants _ _ Hdb _ _ Hi)) as Hc.
  unfold liveGrant in Hl. bool_to_prop. subst c. unfold badgeShape in Hc. unfold storable.
  destruct (bytes_of (gr_Code g)) as [|b bs]; [done|]. rewrite !andb_true_iff in Hc. destruct Hc as [[[Hb Hbs] _] _].
  cbn. apply andb_true_iff. split; [apply negb_true_iff; lia|]. rewrite forallb_forall in *. intros x Hx%Hbs.
  unfold code_byte in Hx. apply negb_true_iff. lia.
Qed.

Lemma commit_saved k p u w :
  pworld_ok w -> db_users (paccounts w) !! k = Some u -> patch_good p ->
  (forall codes c, pa_Showcase p = Some codes -> c ∈ codes -> holds k c (pdb w)) ->
  exists w', commit k (patchWrites p u) w = inl w' /\ saved k p u w w'.
Proof.
  intros [[Ha Hm] Hl] Hu Hp Hs. unfold commit, patchWrites. cbn [wr_Identity wr_Links wr_Showcase].
  destruct (identityWrite_done p k u (mclock (pw_mod w)) (paccounts w) Hp (ok_users _ Ha) Hu) as (auth' & u' & E & Hu' & Hb & Hk & Ho).
  rewrite E. set (l := match pa_Links p with Some m => map_range 1 m | None => [] end).
  assert (NoDup l.*1) as Hnd by (unfold l; destruct (pa_Links p); [apply map_range_keys|constructor]).
  destruct (writeLinks_good k auth' l (pw_links w)) as (links' & -> & Hin & Hout); [by exists u'|done|..].
  { unfold l. destruct (pa_Links p) as [m|] eqn:Em; [|by intros ?? ?%not_elem_of_nil]. intros kind h.
    rewrite (map_range_perm 1 m). intros Hkh%elem_of_map_to_list. by eapply (pg_links _ Hp). }
  assert (writeShowcase k (pa_Showcase p) (pdb w)
          = inl match pa_Showcase p with Some codes => arrange k codes (pdb w) | None => pdb w end) as ->.
  { unfold writeShowcase. destruct (pa_Showcase p) as [codes|] eqn:Es; [|done].
    assert (forallb storable codes = true) as ->; [|done]. apply forallb_forall. intros c Hc%list_elem_of_In.
    eapply held_storable; [exact Hm|by eapply Hs]. }
  eexists. split; [done|]. split; cbn.
  - by exists u'.
  - intros kind. unfold linkAfter, l in *. destruct (pa_Links p) as [m|]; cbn.
    + destruct (m !! kind) as [h|] eqn:Em.
      * apply Hin. rewrite (map_range_perm 1 m). by apply elem_of_map_to_list.
      * apply Hout. right. rewrite (map_range_perm 1 m).
        intros ([k' h] & -> & Hkh%elem_of_map_to_list)%list_elem_of_fmap. cbn in Em. congruence.
    + apply Hout. right. apply not_elem_of_nil.
  - done.
  - done.
  - intros k' kind Hne. apply Hout. by left.
Qed.

(** Reading the owner's view changes nothing but the count of effects. *)
Definition ownView (k : UUID) (u : User) (w : pworld) : ownIdentityView :=
  {| ow_Bio := us_Bio u; ow_Keyboard := us_Keyboard u; ow_Links := ListUserLinks k (pw_links w);
     ow_Badges := ownBadge <$> ListGrantedBadges k (pdb w); ow_KnownBadges := knownBadges |}.

Lemma run_ownView k u w :
  db_users (paccounts w) !! k = Some u ->
  run (serveOwnProfileIdentity k) w = (pok (OwnBody (ownView k u w)), ptick (ptick (ptick w))).
Proof.
  intros Hu. cbn -[knownBadges ListUserLinks ListGrantedBadges]. unfold exec_pquery. cbn -[knownBadges ListUserLinks ListGrantedBadges].
  unfold GetPublicProfileIdentity. by rewrite Hu.
Qed.
Lemma ptick_ok w : pworld_ok w -> pworld_ok (ptick w).
Proof. done. Qed.

Lemma run_ApplyProfilePatch k p u w :
  db_users (paccounts w) !! k = Some u ->
  exists w1, (w1 = w \/ w1 = ptick w)
    /\ run (ApplyProfilePatch k p) w = exec (Commit k (patchWrites p u)) w1.
Proof.
  intros Hu. unfold ApplyProfilePatch, patchWrites, identityWrite, bioAfter, keyboardAfter. cbv zeta.
  destruct (pa_SetBio p) eqn:Eb, (pa_SetKeyboard p) eqn:Ek; cbn [orb negb].
  - exists w. split; [by left|]. cbn. by destruct (commit _ _ _).
  - exists (ptick w). split; [by right|]. cbn. unfold exec_pquery, GetPublicProfileIdentity. cbn. rewrite Hu. cbn.
    by destruct (commit _ _ _).
  - exists (ptick w). split; [by right|]. cbn. unfold exec_pquery, GetPublicProfileIdentity. cbn. rewrite Hu. cbn.
    by destruct (commit _ _ _).
  - exists w. split; [by left|]. cbn. match goal with |- _ = ?r => by destruct r end.
Qed.

Lemma run_applyPatch k p u w :
  pworld_ok w -> db_users (paccounts w) !! k = Some u -> patch_good p ->
  (forall codes c, pa_Showcase p = Some codes -> c ∈ codes -> holds k c (pdb w)) ->
  exists w' u', saved k p u w w' /\ db_users (paccounts w') !! k = Some u'
    /\ us_Bio u' = bioAfter p u /\ us_Keyboard u' = keyboardAfter p u
    /\ run (applyPatch k p) w = (pok (OwnBody (ownView k u' w')), ptick (ptick (ptick w'))).
Proof.
  intros Hw Hu Hp Hs. destruct (run_ApplyProfilePatch k p u w Hu) as (w1 & Hw1 & E).
  assert (pworld_ok w1 /\ paccounts w1 = paccounts w /\ pw_links w1 = pw_links w /\ pdb w1 = pdb w) as (Hok & Ea & El & Ed)
    by (destruct Hw1 as [->| ->]; done).
  rewrite <- Ea in Hu. destruct (commit_saved k p u w1 Hok Hu Hp) as (w2 & Ec & Hsv); [by rewrite Ed|].
  destruct (sv_user _ _ _ _ _ Hsv) as (u' & Hu' & Hb & Hk).
  exists (ptick w2), u'. split_and!; [..|done|done|done|].
  - destruct Hsv. rewrite Ea, El, Ed in *. split; [by exists u'|done..].
  - unfold applyPatch. rewrite run_bind, E. cbn [exec profile_interp profile_exec]. rewrite Ec. cbn [orInternal].
    by apply run_ownView.
Qed.

Lemma checkCodes_held held seen codes :
  (forall c, c ∈ codes -> c ∈ held /\ c ∉ seen) -> NoDup codes -> checkCodes held seen codes = None.
Proof.
  revert seen. induction codes as [|c codes IH]; intros seen Hc Hnd; [done|]. apply NoDup_cons in Hnd as [Hn Hnd]. cbn.
  destruct (Hc c ltac:(left)) as [Hh Hs]. rewrite bool_decide_eq_true_2, bool_decide_eq_false_2 by done. cbn.
  apply IH; [|done]. intros c' Hc'. destruct (Hc c' ltac:(by right)) as [? ?]. split; [done|].
  apply not_elem_of_union. split; [|done]. apply not_elem_of_singleton. by intros ->.
Qed.

Lemma ListGrantedBadges_held k c db : c ∈ gb_Code <$> ListGrantedBadges k db <-> holds k c db.
Proof.
  unfold ListGrantedBadges. rewrite <- list_fmap_compose, list_elem_of_fmap. split.
  - intros (g & -> & Hg). rewrite (order_by_perm _ (lexicographic Z.ltb text_lt)) in Hg.
    apply list_elem_of_filter in Hg as [Hl [i Hi]%rows_of_table]. exists i, g. split; [done|].
    by rewrite liveGrant_liveOf, Hl, String.eqb_refl.
  - intros (i & g & Hi & Hl). rewrite liveGrant_liveOf in Hl. apply andb_true_iff in Hl as [Hl Hc%String.eqb_eq].
    exists g. split; [done|]. rewrite (order_by_perm _ (lexicographic Z.ltb text_lt)). apply list_elem_of_filter.
    split; [done|]. apply rows_of_table. by exists i.
Qed.

End save.
