(* ===== verification/ProfileScenes.v ===== *)
(** * internal/profile at work

    A small concrete environment, the witnesses of the theorems about profiles, and a
    schedule of two saves of one profile that lose one of their fields. *)

From Stdlib Require Import Strings.Ascii Strings.Byte Sorting.Sorted.
From S2P Require Import Prelude GoStd Uuid Httpx Keyset Json AuthLimiter AuthText AuthPassword AuthStore AuthFlow AuthHandlers AuthInv AuthWorld AuthScenes Effects QuoteStore QuoteHandlers ModStore ModHandlers ModWorld ModInv ModScenes ProfileStore Runs Policy Core Decide RunStore RunLife Board BoardGaps BoardRead RunRead RunReadProps Keyboard KeyboardProps ProfileRead ProfileHandlers ProfileWorld ProfileSearch ProfileStreaks ProfilePatch.

Open Scope Z_scope.

#[local] Existing Instance modEnv | 0.
#[local] Existing Instance bytewise.
#[local] Existing Instance firstDraws.
#[local] Existing Instance modLimits.

(** ** The environment *)

(** Maps in the order of the table, rows as they are stored, and numbers in the small
    decimals the scenes use. *)
#[local] Instance tableOrder : MapRange := {| map_range _ m := map_to_list m; map_range_perm _ _ := reflexivity _ |}.
#[local] Instance storedOrder : ScanOrder := {| scan A l := l; scan_perm A l := reflexivity l |}.
#[local] Instance noFloats : PgFloat :=
  {| float8in lit := (fun z => F64.of_dec z.1 z.2) <$> Pg.numeric lit; agg_avg l := head l; agg_slope _ := Some None |}.
#[local] Instance sceneSearch : SearchLimits := {| search_limits := {| lm_every := 1000000000; lm_burst := 10 |} |}.

Definition quietStats : statsDB := {| sd_tables := noTables; sd_entries := ∅; sd_keys := noKeys |}.

(** ** Two saves of one profile *)

(** A request to another service. *)
Definition elsewhere (p : mprog manswer) : pprog panswer := psettled (moderated p).

Definition joining : list (move peff panswer) :=
  [Arrives (elsewhere (asAuth GetOAuthCallback (callback "root")))] ++ nexts 0 20
  ++ [Arrives (elsewhere (asAuth GetOAuthCallback (callback "bob")))] ++ nexts 1 20
  ++ [Arrives (elsewhere (settled (GrantBadgeBySystem bob "staff")))] ++ nexts 2 2
  ++ [Arrives (elsewhere (settled (GrantBadgeBySystem bob "beta_tester")))] ++ nexts 3 2.

(** Two accounts, and two badges of one of them. *)
Definition joined := plays apiErrInternal joining (pinitial 0 quietStats).

Definition bobSaves (fields : list (string * json)) : request :=
  {| rq_Method := "PATCH"; rq_Origin := "https://typemore.example"; rq_IP := "198.51.100.7"; rq_Body := Some (JObj fields);
     rq_Session := cookieOf opening 1; rq_Provider := ""; rq_QueryState := ""; rq_QueryCode := "";
     rq_State := None; rq_Verifier := None; rq_Link := None |}.

Definition bioSave : request := bobSaves [("bio", JStr " types a lot ")].
Definition keyboardSave : request := bobSaves [("keyboard", JStr "HHKB")].

(** The first save has read the row when the second reads it, writes it and answers. *)
Definition twoSaves : list (move peff panswer) :=
  joining ++ Arrives (pserve PatchOwnProfile bioSave) :: Arrives (pserve PatchOwnProfile keyboardSave)
  :: nexts 4 4 ++ nexts 5 20 ++ nexts 4 20.

Definition saves := plays apiErrInternal twoSaves (pinitial 0 quietStats).

Definition parrival (m : move peff panswer) : Prop := match m with Arrives p => parrives p | _ => True end.

Lemma pschedule_reachable ms : Forall parrival ms -> preachable (plays apiErrInternal ms (pinitial 0 quietStats)).
Proof.
  intros Ha. exists 0, quietStats. apply plays_steps.
  - intros p Hp. rewrite Forall_forall in Ha. apply (Ha _ Hp).
  - by left.
Qed.

Lemma pnexts_arrive i n : Forall parrival (nexts i n).
Proof. apply Forall_replicate. exact I. Qed.

Ltac pschedule :=
  repeat lazymatch goal with
  | |- Forall _ (nexts _ _) => apply pnexts_arrive
  | |- Forall _ (_ ++ _) => apply Forall_app; split
  | |- Forall _ (_ :: _) => apply Forall_cons; split
  | |- Forall _ [] => apply Forall_nil_2
  | |- parrival (Arrives (pserve _ _)) => apply arrives_profile
  | |- parrival (Arrives (elsewhere (asAuth _ _))) => apply arrives_other, arrives_auth
  | |- parrival (Arrives (elsewhere (settled (GrantBadgeBySystem _ _)))) => apply arrives_other, arrives_system
  end.

Lemma joined_reachable : preachable joined.
Proof. apply pschedule_reachable. unfold joining. pschedule. Qed.
Lemma saves_reachable : preachable saves.
Proof. apply pschedule_reachable. unfold twoSaves, joining. pschedule. Qed.

Definition views (s : pworld * list (pprog panswer)) : list ownIdentityView :=
  omap (fun p => match p with Ret (PReply 200 (OwnBody v)) => Some v | _ => None end) s.2.
Definition textsOf (s : pworld * list (pprog panswer)) : list (option string * option string) :=
  (fun v => (ow_Bio v, ow_Keyboard v)) <$> views s.
Definition rowOf (s : pworld * list (pprog panswer)) : option (option string * option string) :=
  (fun u => (us_Bio u, us_Keyboard u)) <$> db_users (paccounts s.1) !! bob.

(** Two saves of one profile lose a field.  The transaction reads the column a save does
    not mention without a lock and writes it back, so a save of the keyboard that
    commits in between is undone by a save of the bio alone: both are answered as
    saved, and no request takes the keyboard away again, but the row has none. *)
Lemma saves_lose_a_field :
  preachable saves
  /\ textsOf saves = [(Some "types a lot", None); (None, Some "HHKB")]
  /\ rowOf saves = Some (Some "types a lot", None).
Proof. split; [apply saves_reachable|]. split; vm_compute; reflexivity. Qed.

(** ** Witnesses *)

Lemma joined_ok : pworld_ok joined.1.
Proof. apply preachable_ok, joined_reachable. Qed.

Lemma profiles_fit_witness :
  size (db_users (paccounts saves.1)) = 2%nat /\ users_ok (db_users (paccounts saves.1)).
Proof. split; [vm_compute; reflexivity|]. exact (proj1 (proj2 (profiles_fit saves saves_reachable))). Defined.

(** A wildcard is a letter like any other: nobody is called so. *)
Lemma search_is_containment_witness :
  List.map sr_DisplayName (SearchUsersByName 0 (likeEscape "o") "o" 20 (paccounts saves.1) (pdb saves.1)) = ["bob"; "root"]
  /\ forall q, exists us, let needle := AuthText.ToLower (fun r => r) q in
       SearchUsersByName 0 (likeEscape needle) needle 20 (paccounts saves.1) (pdb saves.1) = asResult <$> take 20 us
       /\ forall u, u ∈ us <-> (exists k, db_users (paccounts saves.1) !! k = Some u) /\ contains needle u
                              /\ IsRestricted 0 (us_ID u) (pdb saves.1) = false.
Proof.
  split; [vm_compute; reflexivity|]. intros q.
  destruct (search_is_containment (fun r => r) q 0 20 (paccounts saves.1) (pdb saves.1)) as (us & E & Hin & _).
  - apply ok_users. exact (proj1 (proj1 (preachable_ok saves saves_reachable))).
  - exists us. split; [exact E|exact Hin].
Defined.

Definition fullSave : request :=
  bobSaves [("bio", JStr " types a lot "); ("links", JObj [("github", JStr "bob-types"); ("twitch", JStr " ")]);
            ("showcase", JArr [JStr "staff"; JStr "beta_tester"])].

Definition fullRequest : profilePatchRequest :=
  default {| rp_Bio := None; rp_Keyboard := None; rp_Links := None; rp_Showcase := None |} (decodePatch fullSave).
Definition fullPatch : Patch :=
  match patchOf fullRequest with
  | inl p => p
  | inr _ => {| pa_Bio := None; pa_SetBio := false; pa_Keyboard := None; pa_SetKeyboard := false; pa_Links := None; pa_Showcase := None |}
  end.

Lemma bob_holds c : c ∈ ["staff"; "beta_tester"] -> holds bob c (pdb joined.1).
Proof.
  intros Hc. apply ListGrantedBadges_held.
  assert (gb_Code <$> ListGrantedBadges bob (pdb joined.1) ≡ₚ ["staff"; "beta_tester"]) as ->; [|done].
  vm_compute. repeat constructor.
Qed.


(** ** At the edges *)

(** A YouTube handle may be nothing but dots. *)
Lemma dots_are_a_handle : ValidateLink "youtube" "..." = None.
Proof. vm_compute. reflexivity. Qed.

(** A letter outside ASCII may be a name's letter once lowercased: the Kelvin sign is
    the letter k to Go. *)
Lemma kelvin_finds_k table : table 0x212A = 0x6B -> AuthText.ToLower table (Utf8.string_of_runes [0x212A; 0x6F; 0x62]) = "kob".
Proof.
  intros Ht. unfold AuthText.ToLower. rewrite Utf8.runes_string_of_runes by (repeat constructor; unfold Utf8.valid_rune; lia).
  cbn -[Utf8.string_of_runes]. unfold lower_rune. cbn -[Utf8.string_of_runes]. rewrite Ht. reflexivity.
Qed.

(** A name with a zero byte is nobody's, and is answered as a failure of the server. *)
Lemma zero_byte_is_internal name next w :
  storable name = false -> (run (resolvePublicUser name next) w).1 = apiErrInternal.
Proof. intros Hn. cbn. unfold exec_pquery. cbn. by rewrite Hn. Qed.
